(* ===== verification/_CoqProject ===== *)
-Q . S2P
Prelude.v
Types.v
Provider.v
ProviderProofs.v
ProviderTheorems.v
Codec.v
Store.v
StoreSpec.v
StoreRefine.v
StoreTheorems.v
StoreRows.v
StoreProvider.v
Swap.v
SwapProofs.v
SwapTheorems.v
Terms.v
TermsTheorems.v
SwapExec.v
SwapExecProofs.v
SwapExecTheorems.v
BlockGraph.v
BlockGraphProofs.v
BlockGraphTheorems.v
FilterChain.v
FilterChainTheorems.v
BlockQueue.v
Abi.v
AbiTheorems.v
Host.v
HostProofs.v
HostMethods.v
HostTheorems.v
Service.v
ServiceProofs.v
ServiceRuns.v
ServiceTheorems.v
Mobile.v
MobileTheorems.v
Ethereum.v
EthereumTheorems.v
Recovery.v
RecoveryTheorems.v
SettlementKey.v
SettlementKeyTheorems.v
RecoveredSwap.v
RecoveredSwapTheorems.v
Acceptance.v
AcceptanceTheorems.v
Outbox.v
OutboxTheorems.v
