(* ===== verification/Prelude.v ===== *)
(** * hns-wallet-rs: a verification development

    hns-wallet-rs is a wallet for Handshake names and coins and for Bitcoin, with
    atomic swaps between the two chains. A page talks to the wallet through a
    provider that treats it as hostile, by way of a host and a service that
    exchange frames; records live in an encrypted store; swaps are driven by
    evidence the wallet verified itself and can be settled after a restore from
    the seed; offers of names are published through a durable outbox; Bitcoin is
    observed through compact block filters fetched from untrusted peers; Ethereum
    is prepared behind release gates. The development models
    the parts that decide (parsers, checks, state machines, transactions) as
    functions and proves what their callers rely on. Paths below are relative to
    [src/crates/].

    ** Conventions

    This file holds what the others share. A Rust [Result] is [result]; [let*]
    is the [?] operator of a pure function; [let!] is the [?] operator of a
    method that takes [&mut self], whose state is kept on the error path as Rust
    keeps it. Unsigned integers are [N] with the checked, saturating or wrapping
    operation the source uses written out; bytes are [list Byte.byte]. Maps are
    [gmap], vectors are lists. An interface of the source is a class: its
    operations are fields, what its users rely on is a class of laws, and an
    implementation is an instance. Code of other packages (JSON, URLs, hashes,
    ciphers, the [bitcoin] and marketplace protocol crates) is a field of an
    environment class; what is relied on of it is a named law of documented
    behaviour, and each theorem that uses such a law has a witness at a concrete
    environment.

    ** Identifiers and amounts: [Types]

    [hns-wallet-types/src/lib.rs]: enumerations, checked amounts and their JSON
    form, receive targets, the base64url identifiers ([Module WireId]). The wire
    form is shown canonical: a text parses exactly if it is what the identifier
    prints.

    ** Provider: [Provider], [ProviderProofs], [ProviderTheorems]

    [hns-wallet-provider/src/lib.rs]. [ProviderCore] has one definition per
    method of the source; [ProviderStateStore] is the trait behind it. Over every
    sequence of operations: an accepted request was authorised, an approved call
    is one that was requested and is handed out once, nonces are not replayed,
    grants and revocations take effect, capacities are respected.

    ** Service frames: [Abi], [AbiTheorems]

    [hns-wallet-ffi/src/lib.rs]: what host and wallet service send each other, the
    checks on it and its encoding. The framing is exact and self-delimiting, an
    encoded frame is decoded to itself, names are disclosed by their own hash, and
    an approval summary is accepted only for a method for which the provider
    ([Provider.Method]) asks that kind of approval.

    ** Host bridge: [Host], [HostProofs], [HostMethods], [HostTheorems]

    [hns-wallet-host/src/lib.rs], the end of the service channel inside a browser
    or app. [WalletHost] has one definition per method; [Clock] and [Entropy] are
    the traits of the same name. Invariant and specifications are stated as
    triples over the state a method leaves on success and on error
    ([leaves]). Over every sequence of calls, frames of the service
    included: the registries stay consistent and within their capacities, what is
    sent and handed on is a run of an abstract request and response protocol
    ([HostTheorems.exchange]), channel numbers are consecutive on both sides, a
    request is sent only under an active authority with the negotiated
    capability, an approval is decided once, what is sent passes the checks of
    [Abi], and a refused frame ends the session and leaves nothing to act on.
    [HostTheorems.name_update_prompt_ends_session] exhibits a method whose
    approval prompt the host refuses.

    ** Service: [Service], [ServiceProofs], [ServiceRuns], [ServiceTheorems]

    [hns-wallet-service/src/lib.rs], the other end of the channel. [WalletService]
    has one definition per method it has over any runtime, over the provider core
    and a runtime, which is the trait [ServiceRuntime] as a record of operations; a
    runtime that logs its calls is an instance of it, and the theorems speak of its
    log. Of a runtime [RuntimeLaws] assumes that it logs its calls and that preparing
    a prompt and reading the current names leave permission generations alone. Over every
    sequence of frames, host messages the service cannot read included: the
    prompts the service has filed agree with the approvals pending in the
    provider, the runtime is only called for what the request, the session and
    the permissions admit, an approved call was put to the user in a prompt of
    its own origin, method and kind, one prompt approves one call (the prompt was
    returned to the host, unless its frame had no encoding), and the methods
    announced are those that are admitted.

    ** Both ends: [Mobile], [MobileTheorems]

    [hns-wallet-mobile/src/lib.rs], the session in which a host and a service run
    in one process. Here [Host], [Abi] and [Service] meet: after any calls both
    ends have the same session, the same counters and the same window of request
    identifiers; a request is dispatched on the service at most once, its answer is
    accepted unless something named of this very exchange fails
    ([MobileTheorems.exchanged]), and what is lost fails the session and locks the
    store; a negotiation leaves both ends agreed; and a failed request leaves the
    wallet locked.

    ** Store: [Codec], [Store], [StoreSpec], [StoreRefine], [StoreTheorems],
       [StoreRows], [StoreProvider]

    [hns-wallet-store/src/lib.rs]. [Codec] is the identity and encryption of a
    record, [Store] the transactions on the tables. [StoreSpec] is a plain table
    of revisions that refuses the numbers SQLite refuses, and the encrypted store
    refines it for every sequence of entity and workflow operations, loads included:
    each answers as the table does, or fails at a nonce or the cipher in a draw of
    its own and changes nothing. The operation that spends a pending approval with a
    workflow step is related to the table in [StoreRefine.spend_approval_body]. On
    top of that: reading back what was saved, single use of authority rows, approvals
    and nonces. [StoreRows] says what one write leaves of every row, for the
    components that keep records, and that each row is read under associated data no
    other row has. [StoreProvider] shows that the
    store satisfies the laws of [ProviderStateStore], which connects the two
    components.

    ** Swaps: [Swap], [SwapProofs], [SwapTheorems], [Terms], [TermsTheorems],
       [SwapExec], [SwapExecProofs], [SwapExecTheorems]

    [hns-wallet-market/src/lib.rs], with the lock types of
    [hns-wallet-bitcoin-kyoto], [hns-wallet-chain-api] and [hns-wallet-hns].
    [Swap] is the session and its transition function, with the trait
    [SwapJournal]; [Terms] is what a wallet derives from a signed agreement;
    [SwapExec] joins the session with the store: journal and authorization row
    are written in one transaction. Shown: an invariant of every reachable session
    (the legs are settled at most once and in the order the protocol needs), that
    no funded leg is stuck and an undisturbed swap completes, that stale results
    are rejected, that refund times leave room, that the preimage is kept before
    a redemption is journaled, and that the authority to broadcast dies with any
    change of the execution. Three theorems exhibit places where the code does
    not do what it means to ([SwapExecTheorems.generation_zero_unloadable],
    [SwapTheorems.late_redemption_not_recorded],
    [SwapTheorems.failed_session_is_revived]).

    ** Restored swaps: [Recovery], [RecoveryTheorems], [SettlementKey],
       [SettlementKeyTheorems], [RecoveredSwap], [RecoveredSwapTheorems]

    [hns-wallet-chain-api/src/recovery_publication.rs] is what a swap publishes on
    its chains; [settlement_key.rs] and [recovered_swap.rs] of
    [hns-wallet-market/src/] derive a swap's key from the seed and keep what is
    found after a restore, in the store. A publication is read exactly from the
    marker and frames it is made of; the seed alone gives a participant's key,
    recovery allocates it for that participant, and refuses terms that name no key
    of the seed; a contract is retained only if its
    terms name a key of the seed and the participant funds it; and a redemption
    that is on record has its preimage on file, whatever the order of findings,
    spends and revoked spends.

    ** Publishing: [Acceptance], [AcceptanceTheorems], [Outbox], [OutboxTheorems]

    [acceptance.rs] and [outbox.rs] of [hns-wallet-shakedex/src/]: the receipts of
    relays, and the queue of market messages in one record of the store. A receipt
    is accepted exactly if it is the canonical form of its fields and signed by the
    endpoint its policy names. The outbox refines a life of each message
    ([OutboxTheorems.life]): after any operations it can be read, nothing is lost,
    one attempt at most is in flight, and a message waits, is in flight, and is
    accepted, announced or given up. A handoff is on file before it is handed out,
    for the message due first; an accepted message stays accepted and is listed
    for publishing again.

    ** Ethereum: [Ethereum], [EthereumTheorems]

    [hns-wallet-ethereum/src/lib.rs]: addresses, RLP, accounts, the evidence of a
    lock, transactions. Two transactions with the same signed payload have the
    same effect (by a decoder for RLP, which the code does not have); what is
    signed was validated and stays within the approved fee; a lock is accepted
    exactly on complete evidence; a derived key can sign for its own address.

    ** Compact filters: [BlockGraph], [BlockGraphProofs], [BlockGraphTheorems],
       [FilterChain], [FilterChainTheorems], [BlockQueue]

    [hns-wallet-bip157/src/chain/]. [BlockGraph] is the tree of headers
    ([graph.rs]), [FilterChain] the chain of filter headers and filters on it
    ([chain.rs], [mod.rs]), [BlockQueue] the queue of requested blocks
    ([block_queue.rs]). Shown of the tree: it stays linked under any sequence of
    operations, its active chain has the most work, a reorganization reports
    exactly the blocks that changed. Shown of the filters: where peers answer once
    each, filter headers are accepted from a quorum and with the last of it, a block
    counts as checked only if its filter was handed over or a rescan (of [node.rs])
    skipped its height, a batch is reported complete exactly when
    it is, a request covers a hole and nothing else. Four theorems exhibit
    shortcomings: [FilterChainTheorems.single_peer_reaches_quorum],
    [BlockGraphTheorems.refused_header_drops_fork],
    [BlockGraphTheorems.lower_reorganization_breaks_index],
    [BlockGraphTheorems.rescan_skips_fork_blocks]; the hypotheses
    [no_fork_refused] and [never_shrinks] of the positive theorems exclude
    exactly the second and the third.

    ** Fuel and bounds

    The only loops that are not structural are those of the header tree, which
    walk from a block to its ancestors. They get the number of headers as fuel; the
    loops themselves, given by their turns ([BlockGraph.switch_turn] and the like),
    are shown to end with the same results
    ([BlockGraphTheorems.tree_walks_terminate]). Of the hash function the theorems on
    the tree assume that the headers shown do not collide and that no descendant of
    the start block has its hash ([BlockGraphProofs.hashes_distinct]). The cursor loop of [FilterChain]
    gets one round per height to scan ([FilterChainTheorems.advance_cursor_spec]).
    The chunks of a publication get one round per byte; the attempts at a
    settlement key are the 256 of the source. The loop of the service that draws an
    identifier until it is not zero gets the number of draws its entropy source
    may need ([os_patience]); running out counts as a failed draw. Theorems about runs of the filters
    assume that heights fit in 32 bits, those about runs of the service that the
    calls fit in 64.

    ** Not modelled

    Input and output: the network side of the compact-filter client (event loop,
    peers, sockets) and the process entry points. Code whose decisions are taken
    by packages that are not in the tree: the wallet runtimes over BDK and the
    Handshake crates, the boards of direct offers. Logic of this repository that
    the development does not cover: the runtimes behind [ServiceRuntime]
    ([native_value_runtime.rs] and its siblings) and the constructors and trusted
    native calls of the services over them, name workflows
    ([hns-wallet-hns]), the boards and value workflows of the name market
    ([hns-wallet-shakedex]), the controllers built on the mobile session; of the
    store, key derivation from a passphrase, migrations, prefix leases, snapshots
    and the listings other than that by prefix. Failures of SQLite, other than its
    refusal of an integer, are not modelled. The manifest lists every part with
    its status. *)

From stdpp Require Export base gmap strings list numbers.
From Stdlib Require Export NArith Lia.
From Stdlib Require Import Strings.Byte.

#[global] Open Scope N_scope.

(** ** Results

    Rust's [Result<T, E>].  The error type comes second as in the source. *)

Inductive result (A E : Type) : Type :=
| Ok (a : A)
| Err (e : E).
Arguments Ok {A E} a.
Arguments Err {A E} e.

(** [injection] would also normalise the arguments. *)
Lemma Ok_inj {A E} (a b : A) : Ok a = @Ok A E b -> a = b.
Proof. congruence. Qed.

Declare Scope wallet_scope.
Delimit Scope wallet_scope with wallet.
#[global] Open Scope wallet_scope.

(** The [?] operator of a function that returns a [Result]. *)
Notation "'let*' x := c 'in' k" :=
  (match c with Ok x => k | Err e => Err e end)
  (at level 10, x pattern, c at level 200, k at level 200,
   format "'[v' 'let*'  x  :=  c  'in' '/' k ']'") : wallet_scope.

(** The [?] operator of a method that takes [&mut self]: the state reached so
    far is kept on the error path, because Rust does not undo the writes a
    method made before it returned an error. *)
Notation "'let!' s , x := c 'in' k" :=
  (match c with (s, Ok x) => k | (s, Err e) => (s, Err e) end)
  (at level 10, s name, x pattern, c at level 200, k at level 200,
   format "'[v' 'let!'  s ,  x  :=  c  'in' '/' k ']'") : wallet_scope.

(** [Option::ok_or]. *)
Definition ok_or {A E} (o : option A) (e : E) : result A E :=
  match o with Some a => Ok a | None => Err e end.

(** [Result::map_err]. *)
Definition map_err {A E F} (f : E -> F) (r : result A E) : result A F :=
  match r with Ok a => Ok a | Err e => Err (f e) end.

(** [Result::is_ok]. *)
Definition is_ok {A E} (r : result A E) : bool :=
  match r with Ok _ => true | Err _ => false end.

(** A run whose outcome evaluates to [Ok]. *)
Lemma is_ok_ex {A E} (r : result A E) : is_ok r = true -> exists a, r = Ok a.
Proof. destruct r; [eauto|done]. Qed.
Lemma run_is_ok {A E St} (p : St * result A E) :
  is_ok p.2 = true -> exists s a, p = (s, Ok a).
Proof. destruct p as [s [a|e]]; [eauto|done]. Qed.

(** [Option::is_some_and] and [Option::is_none_or]. *)
Definition is_some_and {A} (o : option A) (p : A -> bool) : bool :=
  match o with Some a => p a | None => false end.
Definition is_none_or {A} (o : option A) (p : A -> bool) : bool :=
  match o with Some a => p a | None => true end.

Definition is_some {A} (o : option A) : bool :=
  match o with Some _ => true | None => false end.
Definition is_none {A} (o : option A) : bool :=
  match o with Some _ => false | None => true end.

Lemma ok_or_Ok {A E} (o : option A) (e : E) a : ok_or o e = Ok a -> o = Some a.
Proof. destruct o; simpl; congruence. Qed.

Lemma map_err_Ok {A E F} (f : E -> F) (r : result A E) a : map_err f r = Ok a -> r = Ok a.
Proof. destruct r; [by intros [= ->]|done]. Qed.

Lemma ok_or_Err {A E} (o : option A) (e e' : E) : ok_or o e = Err e' -> o = None /\ e' = e.
Proof. destruct o; simpl; split; congruence. Qed.

Lemma is_some_true {A} (o : option A) : is_some o = true -> is_Some o.
Proof. destruct o; [eauto|done]. Qed.

Lemma is_some_false {A} (o : option A) : is_some o = false -> o = None.
Proof. by destruct o. Qed.

Lemma is_none_true {A} (o : option A) : is_none o = true -> o = None.
Proof. by destruct o. Qed.

Lemma is_none_false {A} (o : option A) : is_none o = false -> is_Some o.
Proof. destruct o; [eauto|done]. Qed.

#[global] Instance result_eq_dec {A E} `{EqDecision A, EqDecision E} :
  EqDecision (result A E).
Proof. solve_decision. Defined.

(** ** Machine integers

    An unsigned integer is an [N]; the checked operations of the standard
    library return [None] exactly when the mathematical result does not fit. *)

Definition U8_MAX : N := 2 ^ 8 - 1.
Definition U16_MAX : N := 2 ^ 16 - 1.
Definition U32_MAX : N := 2 ^ 32 - 1.
Definition U64_MAX : N := 2 ^ 64 - 1.
Definition U128_MAX : N := 2 ^ 128 - 1.

Definition checked_add (max a b : N) : option N :=
  if a + b <=? max then Some (a + b) else None.
Definition checked_sub (a b : N) : option N :=
  if b <=? a then Some (a - b) else None.
Definition checked_mul (max a b : N) : option N :=
  if a * b <=? max then Some (a * b) else None.
Definition saturating_add (max a b : N) : N := N.min (a + b) max.
Definition saturating_sub (a b : N) : N := a - b.

Abbreviation u64_add := (checked_add U64_MAX).
Abbreviation u128_add := (checked_add U128_MAX).

Lemma checked_add_Some max a b c :
  checked_add max a b = Some c <-> c = a + b /\ a + b <= max.
Proof.
  unfold checked_add. destruct (N.leb_spec (a + b) max); split; intros; simplify_eq; auto;
    lia || (destruct_and?; congruence || lia).
Qed.

Lemma checked_add_None max a b : checked_add max a b = None <-> max < a + b.
Proof. unfold checked_add. destruct (N.leb_spec (a + b) max); split; intros; auto; lia || done. Qed.

Lemma checked_sub_Some a b c : checked_sub a b = Some c <-> c = a - b /\ b <= a.
Proof.
  unfold checked_sub. destruct (N.leb_spec b a); split; intros; simplify_eq; auto;
    lia || (destruct_and?; congruence || lia).
Qed.

Lemma checked_sub_None a b : checked_sub a b = None <-> a < b.
Proof. unfold checked_sub. destruct (N.leb_spec b a); split; intros; auto; lia || done. Qed.

(** ** Bytes *)

Abbreviation u8 := Byte.byte.
Abbreviation bytes := (list Byte.byte).

#[global] Instance byte_eq_dec : EqDecision u8 := Byte.byte_eq_dec.

#[global] Program Instance byte_countable : Countable u8 :=
  inj_countable Byte.to_N Byte.of_N _.
Next Obligation. intros b. apply Byte.of_to_N. Qed.

(** [n as u8]: the low eight bits. *)
Definition byte_of_N (n : N) : u8 := default Byte.x00 (Byte.of_N (n mod 256)).

Lemma byte_to_N_bound (b : u8) : Byte.to_N b < 256.
Proof. pose proof (Byte.to_N_bounded b). lia. Qed.

Lemma byte_of_N_to_N (b : u8) : byte_of_N (Byte.to_N b) = b.
Proof.
  unfold byte_of_N. rewrite N.mod_small by apply byte_to_N_bound.
  by rewrite Byte.of_to_N.
Qed.

Lemma byte_to_N_of_N n : Byte.to_N (byte_of_N n) = n mod 256.
Proof.
  unfold byte_of_N. destruct (Byte.of_N (n mod 256)) as [b|] eqn:Hb; simpl.
  - by apply Byte.to_of_N.
  - apply Byte.of_N_None_iff in Hb. pose proof (N.mod_lt n 256). lia.
Qed.

Lemma byte_to_N_inj (a b : u8) : Byte.to_N a = Byte.to_N b -> a = b.
Proof. intros H. by rewrite <- (byte_of_N_to_N a), <- (byte_of_N_to_N b), H. Qed.

(** The bytes of a string, and of a UTF-8 literal [b"..."]. *)
Definition str_bytes (s : string) : bytes := String.list_byte_of_string s.

(** [u64::to_be_bytes] and [u16::to_be_bytes]: [k] bytes, most significant first. *)
Fixpoint to_be_bytes (k : nat) (n : N) : bytes :=
  match k with
  | O => []
  | S k' => to_be_bytes k' (n / 256) ++ [byte_of_N n]
  end.

Definition from_be_bytes (bs : bytes) : N :=
  fold_left (fun acc b => acc * 256 + Byte.to_N b) bs 0.

Lemma length_to_be_bytes k n : length (to_be_bytes k n) = k.
Proof.
  revert n; induction k as [|k IH]; intros n; simpl; [done|].
  rewrite length_app, IH. simpl. lia.
Qed.

Lemma from_to_be_bytes k n :
  n < 256 ^ N.of_nat k -> from_be_bytes (to_be_bytes k n) = n.
Proof.
  unfold from_be_bytes.
  revert n; induction k as [|k IH]; intros n Hn; cbn [to_be_bytes].
  - simpl in *. lia.
  - rewrite Nat2N.inj_succ, N.pow_succ_r' in Hn.
    rewrite fold_left_app, IH by (apply N.Div0.div_lt_upper_bound; lia). simpl.
    rewrite byte_to_N_of_N. pose proof (N.div_mod' n 256). lia.
Qed.

Lemma to_from_be_bytes bs : to_be_bytes (length bs) (from_be_bytes bs) = bs.
Proof.
  induction bs as [|b bs IH] using rev_ind; [done|]. unfold from_be_bytes in *.
  rewrite fold_left_app, length_app, Nat.add_comm. simpl.
  pose proof (byte_to_N_bound b). set (n := fold_left _ bs 0) in *.
  replace ((n * 256 + Byte.to_N b) / 256) with n
    by (rewrite N.div_add_l, N.div_small by lia; lia).
  rewrite IH. f_equal. f_equal. apply byte_to_N_inj.
  rewrite byte_to_N_of_N, N.add_comm, N.Div0.mod_add. by apply N.mod_small.
Qed.

Lemma to_be_bytes_inj k a b :
  a < 256 ^ N.of_nat k -> b < 256 ^ N.of_nat k ->
  to_be_bytes k a = to_be_bytes k b -> a = b.
Proof.
  intros Ha Hb Heq. rewrite <- (from_to_be_bytes k a), <- (from_to_be_bytes k b), Heq; done.
Qed.

(** ** Lists *)

(** The byte length of a slice and of a string, as a [usize]. *)
Definition len {A} (l : list A) : N := N.of_nat (length l).
Definition str_len (s : string) : N := N.of_nat (String.length s).

Lemma str_bytes_inj a b : str_bytes a = str_bytes b -> a = b.
Proof.
  intros H. rewrite <- (String.string_of_list_byte_of_string a),
    <- (String.string_of_list_byte_of_string b). unfold str_bytes in H. by rewrite H.
Qed.

Lemma str_bytes_length s : length (str_bytes s) = String.length s.
Proof.
  unfold str_bytes, String.list_byte_of_string. rewrite length_map.
  induction s as [|a s IH]; simpl; [done|]. by rewrite IH.
Qed.

(** [bytes.iter().all(|byte| *byte == 0)]. *)
Definition all_zero (bs : bytes) : bool := forallb (fun b => bool_decide (b = Byte.x00)) bs.

(** A common suffix of fixed length can be cancelled from an append equation. *)
Lemma app_inj_length_r {A} (a1 a2 b1 b2 : list A) :
  length b1 = length b2 -> a1 ++ b1 = a2 ++ b2 -> a1 = a2 /\ b1 = b2.
Proof. intros. by apply app_inj_2. Qed.

Lemma app_inj_length_l {A} (a1 a2 b1 b2 : list A) :
  length a1 = length a2 -> a1 ++ b1 = a2 ++ b2 -> a1 = a2 /\ b1 = b2.
Proof. intros. by apply app_inj_1. Qed.

(** A separator that does not occur in the first part splits uniquely. *)
Lemma app_cons_inj {A} (x : A) l1 l2 r1 r2 :
  x ∉ l1 -> x ∉ l2 -> l1 ++ x :: r1 = l2 ++ x :: r2 -> l1 = l2 /\ r1 = r2.
Proof.
  revert l2; induction l1 as [|a l1 IH]; intros [|b l2] H1 H2 H; simpl in *; simplify_eq.
  - done.
  - exfalso. apply H2. left.
  - exfalso. apply H1. left.
  - destruct (IH l2) as [-> ->]; [by intros ?; apply H1; right|by intros ?; apply H2; right|done|done].
Qed.

(** [to_le_bytes] and [from_le_bytes]. *)
Definition to_le_bytes (k : nat) (n : N) : bytes := rev (to_be_bytes k n).
Definition from_le_bytes (bs : bytes) : N := from_be_bytes (rev bs).

Lemma to_le_bytes_inj k a b :
  a < 256 ^ N.of_nat k -> b < 256 ^ N.of_nat k -> to_le_bytes k a = to_le_bytes k b -> a = b.
Proof.
  intros Ha Hb H. apply (to_be_bytes_inj k); try done.
  apply (f_equal (@rev _)) in H. unfold to_le_bytes in H. by rewrite !rev_involutive in H.
Qed.

Lemma length_to_le_bytes k n : length (to_le_bytes k n) = k.
Proof. unfold to_le_bytes. by rewrite length_rev, length_to_be_bytes. Qed.

Lemma from_to_le_bytes k n : n < 256 ^ N.of_nat k -> from_le_bytes (to_le_bytes k n) = n.
Proof. intros Hn. unfold from_le_bytes, to_le_bytes. by rewrite rev_involutive, from_to_be_bytes. Qed.

Lemma to_from_le_bytes bs : to_le_bytes (length bs) (from_le_bytes bs) = bs.
Proof. unfold from_le_bytes, to_le_bytes. by rewrite <- (length_rev bs), to_from_be_bytes, rev_involutive. Qed.

(** Fixed-width big-endian words compare as numbers. *)
Lemma u64_be_inj a b : a <= U64_MAX -> b <= U64_MAX -> to_be_bytes 8 a = to_be_bytes 8 b -> a = b.
Proof. intros Ha Hb. apply to_be_bytes_inj; unfold U64_MAX in *; simpl; lia. Qed.

(** ** Finite maps *)

(** [BTreeMap::retain]. *)
Definition retain {K V} `{Countable K} (p : K -> V -> bool) (m : gmap K V) : gmap K V :=
  filter (fun kv => p kv.1 kv.2 = true) m.

Section Retain.
Context {K V : Type} `{Countable K}.
Implicit Types (m : gmap K V) (p : K -> V -> bool).

Lemma lookup_retain_Some p m k v :
  retain p m !! k = Some v <-> m !! k = Some v /\ p k v = true.
Proof. unfold retain. by rewrite map_lookup_filter_Some. Qed.

Lemma lookup_retain_None p m k :
  retain p m !! k = None <-> m !! k = None \/ exists v, m !! k = Some v /\ p k v = false.
Proof.
  destruct (retain p m !! k) as [v|] eqn:Hk.
  - apply lookup_retain_Some in Hk as [Hm Hp]. split; [done|].
    intros [?|(v' & ? & ?)]; congruence.
  - split; [intros _|done]. destruct (m !! k) as [v|] eqn:Hm; [right|by left].
    exists v. split; [done|]. destruct (p k v) eqn:Hp; [|done].
    assert (retain p m !! k = Some v) by (by apply lookup_retain_Some). congruence.
Qed.

Lemma retain_subseteq p m : retain p m ⊆ m.
Proof. apply map_filter_subseteq. Qed.

Lemma size_retain p m : (size (retain p m) <= size m)%nat.
Proof. apply map_subseteq_size, retain_subseteq. Qed.
End Retain.

(** The number of rows of a map, as a [usize]. *)
Definition count {K V} `{Countable K} (m : gmap K V) : N := N.of_nat (size m).

Lemma count_insert_le {K V} `{Countable K} (m : gmap K V) k v :
  count (<[k := v]> m) <= count m + 1.
Proof.
  unfold count. destruct (m !! k) eqn:Hk.
  - rewrite map_size_insert_Some by done. lia.
  - rewrite map_size_insert_None by done. lia.
Qed.

Lemma count_retain {K V} `{Countable K} (p : K -> V -> bool) (m : gmap K V) :
  count (retain p m) <= count m.
Proof. unfold count. pose proof (size_retain p m). lia. Qed.

Lemma count_subseteq {K V} `{Countable K} (m1 m2 : gmap K V) :
  m1 ⊆ m2 -> count m1 <= count m2.
Proof. intros Hs. unfold count. pose proof (map_subseteq_size m1 m2 Hs). lia. Qed.

(** [str::is_ascii]. *)
Definition is_ascii (s : string) : bool := forallb (fun b => Byte.to_N b <? 128) (str_bytes s).

(** [is_empty] of a slice. *)
Definition is_empty {A} (l : list A) : bool := match l with [] => true | _ => false end.

(** ** JSON

    [serde_json::to_vec] and [serde_json::from_slice] of a type. *)

Class JsonCodec (T : Type) := {
  json_to_vec : T -> option bytes;
  json_from_slice : bytes -> option T;
}.

Class JsonLaws (T : Type) `{JsonCodec T} := {
  json_roundtrip : forall v b, json_to_vec v = Some b -> json_from_slice b = Some v;
  json_nonempty : forall v b, json_to_vec v = Some b -> is_empty b = false;
}.

(** A codec for finitely many values: a value is written as its place in a list. *)
Definition listed {T} (same : T -> T -> bool) (l : list T) : JsonCodec T := {|
  json_to_vec f := match list_find (fun g => same f g = true) l with Some (i, _) => Some (repeat Byte.x00 (S i)) | None => None end;
  json_from_slice b := l !! pred (length b);
|}.
Lemma listed_laws {T} (same : T -> T -> bool) (l : list T) :
  (forall f g, same f g = true -> f = g) -> JsonLaws T (H := listed same l).
Proof.
  intros Hs. split; simpl; intros f b H; destruct (list_find _ l) as [[i g]|] eqn:Hf; simplify_eq; [|done].
  apply list_find_Some in Hf as (Hi & Hg & _). simpl. rewrite repeat_length. by rewrite (Hs f g).
Qed.
(** ** Boolean reflection and automation *)

(** Turn the boolean tests of the source into propositions. *)
Ltac bool_prop :=
  repeat match goal with
  | H : _ || _ = false |- _ => apply orb_false_elim in H as [? ?]
  | H : _ && _ = true |- _ => apply andb_prop in H as [? ?]
  | H : negb _ = true |- _ => apply negb_true_iff in H
  | H : negb _ = false |- _ => apply negb_false_iff in H
  | H : bool_decide _ = true |- _ => apply bool_decide_eq_true_1 in H
  | H : bool_decide _ = false |- _ => apply bool_decide_eq_false_1 in H
  | H : (_ <=? _) = true |- _ => apply N.leb_le in H
  | H : (_ <=? _) = false |- _ => apply N.leb_gt in H
  | H : (_ <? _) = true |- _ => apply N.ltb_lt in H
  | H : (_ <? _) = false |- _ => apply N.ltb_ge in H
  | H : (_ =? _) = true |- _ => apply N.eqb_eq in H
  | H : (_ =? _) = false |- _ => apply N.eqb_neq in H
  | H : ok_or _ _ = Ok _ |- _ => apply ok_or_Ok in H
  | H : ok_or _ _ = Err _ |- _ => apply ok_or_Err in H as [? ->]
  | H : is_some _ = true |- _ => apply is_some_true in H as [? ?]
  | H : is_some _ = false |- _ => apply is_some_false in H
  | H : is_none _ = true |- _ => apply is_none_true in H
  | H : is_none _ = false |- _ => apply is_none_false in H as [? ?]
  | H : checked_add _ _ _ = Some _ |- _ => apply checked_add_Some in H as [? ?]
  | H : checked_sub _ _ = Some _ |- _ => apply checked_sub_Some in H as [? ?]
  end.

(** Case analysis along the control flow of a hypothesis [f args = v]: the
    innermost scrutinee first, so that every test leaves an equation about the
    data it inspects. *)
Ltac run_in H :=
  repeat (cbn beta iota zeta in H;
    match type of H with
    | context [match ?c with _ => _ end] =>
        lazymatch c with
        | context [match _ with _ => _ end] => fail
        | _ => destruct c eqn:?; try discriminate H
        end
    end); cbn beta iota zeta in H; simplify_eq.

Create HintDb wallet discriminated.
#[export] Hint Resolve byte_to_N_bound retain_subseteq count_retain : wallet.

Lemma NoDup_snoc {A} (l : list A) x : NoDup l -> x ∉ l -> NoDup (l ++ [x]).
Proof.
  intros Hn Hx. apply list.NoDup_app. split_and!; [done| |apply NoDup_singleton].
  intros y Hy ->%list_elem_of_singleton. done.
Qed.

(** ** Specifications of methods

    [leaves P Q p]: a failure leaves a state that satisfies [P]; a result and its
    state satisfy [Q]. *)

Definition leaves {St A X} (P : St -> Prop) (Q : St -> A -> Prop) (p : St * result A X) : Prop :=
  match p with (s, Ok a) => Q s a | (s, Err _) => P s end.

Section Leaves.
Context {St A B X : Type}.
Implicit Types (P : St -> Prop) (Q : St -> A -> Prop).

Lemma leaves_bind P Q (Q' : St -> B -> Prop) (c : St * result A X) (k : St -> A -> St * result B X) :
  leaves P Q c -> (forall s x, Q s x -> leaves P Q' (k s x)) ->
  leaves P Q' (let! s, x := c in k s x).
Proof. destruct c as [s [x|e]]; simpl; auto. Qed.

(** A test on values: the state is as before, the test is known to have passed. *)
Lemma leaves_test P (Q' : St -> B -> Prop) s (r : result A X) (k : A -> St * result B X) :
  P s -> (forall x, r = Ok x -> leaves P Q' (k x)) ->
  leaves P Q' (match r with Ok x => k x | Err e => (s, Err e) end).
Proof. intros Hp Hk. destruct r; simpl; auto. Qed.

Lemma leaves_weaken (P P' : St -> Prop) (Q Q' : St -> A -> Prop) (p : St * result A X) :
  leaves P Q p -> (forall s, P s -> P' s) -> (forall s a, Q s a -> Q' s a) -> leaves P' Q' p.
Proof. destruct p as [s []]; simpl; auto. Qed.
End Leaves.

(** Case analysis on the guard a method has reached. *)
Tactic Notation "guard" "as" ident(H) :=
  lazymatch goal with |- leaves _ _ (if ?b then _ else _) => destruct b eqn:H end.
Tactic Notation "guard" := let H := fresh "Hguard" in guard as H.
