(* ===== verification/Types.v ===== *)
(** * hns-wallet-types: wallet-local identifiers, amounts and enumerations

    Models [crates/hns-wallet-types/src/lib.rs]: the enumerations the other
    crates exchange, the checked amount arithmetic with its decimal JSON form,
    the receive-target validators, and (in [Module WireId]) the fixed-width
    unpadded base64url codec of the wallet service identifiers. *)

From stdpp Require Import finite.
From Stdlib Require Import Strings.Byte.
From S2P Require Import Prelude.

(** ** Enumerations *)

Inductive WalletAsset := Hns | Btc | Eth.

Inductive ModuleId := Handshake | Bitcoin | Ethereum.

Definition module_asset (m : ModuleId) : WalletAsset :=
  match m with Handshake => Hns | Bitcoin => Btc | Ethereum => Eth end.

Inductive PermissionCapability :=
| Accounts | Balance | Transactions | CapReceiveTarget | CapSend | Names
| CapNameTransfer | CapNameFinalize | CapNameUpdate | TypedIdentitySignature
| NameMarket | CrossChainMarket | SwapSettlement.

Inductive ApprovalKind :=
| Permission | ModuleEnablement | KindSend | KindNameTransfer | KindNameFinalize
| KindNameUpdate | TypedSignature | NameMarketOffer | NameMarketPurchase
| DirectOffer | DirectOfferAcceptance | SwapRedeem | SwapRefund
| RecoveryPhraseDisplay.

Inductive WorkflowKind :=
| WfHnsSend | WfNameTransfer | WfNameFinalize | WfNameUpdate | WfShakedexSeller
| WfShakedexBuyer | WfShakedexSellerPlan | WfShakedexBuyerPlan
| WfShakedexSellerOffer | WfShakedexValue | WfDirectOffer
| WfDirectOfferAcceptance | WfAtomicSwap | WfRefund.

#[global] Instance WalletAsset_eq_dec : EqDecision WalletAsset.
Proof. solve_decision. Defined.
#[global] Instance ModuleId_eq_dec : EqDecision ModuleId.
Proof. solve_decision. Defined.
#[global] Instance PermissionCapability_eq_dec : EqDecision PermissionCapability.
Proof. solve_decision. Defined.
#[global] Instance ApprovalKind_eq_dec : EqDecision ApprovalKind.
Proof. solve_decision. Defined.
#[global] Instance WorkflowKind_eq_dec : EqDecision WorkflowKind.
Proof. solve_decision. Defined.

(** An enumeration whose listing is decidably complete is finite, so it can
    key a [gmap] or populate a [gset]. *)
Ltac solve_enum_nodup := apply (bool_decide_unpack _); vm_compute; exact I.
Ltac solve_enum_elem := intros []; apply (bool_decide_unpack _); vm_compute; exact I.

#[global] Program Instance PermissionCapability_finite : Finite PermissionCapability :=
  {| enum := [Accounts; Balance; Transactions; CapReceiveTarget; CapSend; Names;
              CapNameTransfer; CapNameFinalize; CapNameUpdate; TypedIdentitySignature;
              NameMarket; CrossChainMarket; SwapSettlement] |}.
Next Obligation. solve_enum_nodup. Qed.
Next Obligation. solve_enum_elem. Qed.

#[global] Program Instance WorkflowKind_finite : Finite WorkflowKind :=
  {| enum := [WfHnsSend; WfNameTransfer; WfNameFinalize; WfNameUpdate; WfShakedexSeller;
              WfShakedexBuyer; WfShakedexSellerPlan; WfShakedexBuyerPlan;
              WfShakedexSellerOffer; WfShakedexValue; WfDirectOffer;
              WfDirectOfferAcceptance; WfAtomicSwap; WfRefund] |}.
Next Obligation. solve_enum_nodup. Qed.
Next Obligation. solve_enum_elem. Qed.

(** [PROVIDER_METHOD_WIRE_NAMES], in stable enum order. *)
Definition PROVIDER_METHOD_WIRE_NAMES : list string :=
  ["wallet_getCapabilities"; "wallet_getEnabledModules"; "wallet_enableModule";
   "wallet_disableModule"; "wallet_requestPermissions"; "wallet_getPermissions";
   "wallet_revokePermissions"; "wallet_lock"; "wallet_getStatus";
   "hns_requestAccounts"; "hns_accounts"; "hns_getBalance"; "hns_getTransactions";
   "hns_getReceiveAddress"; "hns_send"; "hns_getNames"; "hns_getName";
   "hns_importKnownName"; "hns_transferName"; "hns_finalizeName";
   "hns_signTypedMessage"; "asset_getAccount"; "asset_getBalance";
   "asset_getTransactions"; "asset_getReceiveTarget"; "asset_send";
   "nameMarket_listOffers"; "nameMarket_createFixedPriceOffer";
   "nameMarket_cancelOffer"; "nameMarket_acceptOffer"; "nameMarket_getSession";
   "nameMarket_finalizePurchase"; "nameMarket_recoverName";
   "swap_getSupportedPairs"; "swap_listDirectOffers"; "swap_publishDirectOffer";
   "swap_cancelDirectOffer"; "swap_acceptDirectOffer"; "swap_getSession";
   "swap_redeem"; "swap_refund"; "hns_updateName"; "nameMarket_listMyOffers";
   "nameMarket_getOffer"]%string.

(** ** Amounts *)

Inductive AmountError := Overflow | Underflow | AssetMismatch.

(** [BaseUnits(u128)]. *)
Record BaseUnits := mkBaseUnits { bu_get : N }.

#[global] Instance BaseUnits_eq_dec : EqDecision BaseUnits.
Proof. solve_decision. Defined.

Definition bu_checked_add (a b : BaseUnits) : result BaseUnits AmountError :=
  ok_or (mkBaseUnits <$> u128_add (bu_get a) (bu_get b)) Overflow.
Definition bu_checked_sub (a b : BaseUnits) : result BaseUnits AmountError :=
  ok_or (mkBaseUnits <$> checked_sub (bu_get a) (bu_get b)) Underflow.
Definition bu_is_zero (a : BaseUnits) : bool := bu_get a =? 0.

Record Amount := mkAmount { asset : WalletAsset; base_units : BaseUnits }.

#[global] Instance Amount_eq_dec : EqDecision Amount.
Proof. solve_decision. Defined.

Definition amount_checked_add (a b : Amount) : result Amount AmountError :=
  if negb (bool_decide (asset a = asset b)) then Err AssetMismatch
  else let* units := bu_checked_add (base_units a) (base_units b) in
       Ok (mkAmount (asset a) units).

(** The decimal form: [u128::to_string], most significant digit first, and
    [str::parse::<u128>], which accepts one leading [+], requires at least one
    digit, accepts leading zeros and rejects a value over [u128::MAX]. *)
Definition digit_byte (d : N) : u8 := byte_of_N (48 + d).

Fixpoint decimal_digits (fuel : nat) (n : N) (acc : bytes) : bytes :=
  match fuel with
  | O => acc
  | S fuel' =>
      let acc := digit_byte (n mod 10) :: acc in
      if n / 10 =? 0 then acc else decimal_digits fuel' (n / 10) acc
  end.

(** 2^128 has 39 decimal digits. *)
Definition u128_to_string (n : N) : bytes := decimal_digits 39 n [].

Definition digit_value (b : u8) : option N :=
  let v := Byte.to_N b in if (48 <=? v) && (v <=? 57) then Some (v - 48) else None.

Fixpoint parse_digits (acc : N) (bs : bytes) : option N :=
  match bs with
  | [] => Some acc
  | b :: rest =>
      match digit_value b with
      | None => None
      | Some d =>
          match checked_mul U128_MAX acc 10 with
          | None => None
          | Some acc => match u128_add acc d with
                        | None => None
                        | Some acc => parse_digits acc rest
                        end
          end
      end
  end.

Definition u128_parse (text : bytes) : option N :=
  match text with
  | [] => None
  | b :: rest =>
      if bool_decide (b = "+"%byte) then
        match rest with [] => None | _ => parse_digits 0 rest end
      else parse_digits 0 text
  end.

Definition bu_serialize (a : BaseUnits) : bytes := u128_to_string (bu_get a).
Definition bu_deserialize (text : bytes) : option BaseUnits := mkBaseUnits <$> u128_parse text.

(** ** Chain status and history *)

Inductive SyncPhase :=
| Disabled | Starting | Headers | Filters | WalletScan | Ready | Degraded.

Record SyncStatus := mkSyncStatus {
  phase : SyncPhase;
  validated_height : N;
  scanned_height : N;
  target_height : option N;
  last_error : option string;
}.

Inductive LocalTransactionStatus :=
| Prepared | Authorized | Broadcast | Mempool | Confirmed | Replaced | Conflicted
| Reorged | Dropped | Failed.

Record SignedBaseUnits := mkSigned { negative : bool; magnitude : BaseUnits }.

Record TransactionSummary := mkTransaction {
  tx_module : ModuleId;
  txid : bytes;
  tx_status : LocalTransactionStatus;
  net_amount : SignedBaseUnits;
  fee : option BaseUnits;
  block_height : option N;
  first_seen_unix : option N;
  confirmation_count : N;
}.

Inductive FinalityModel := ProofOfWorkConfirmations | EthereumFinalizedCheckpoint.

(** ** Receive targets *)

Inductive TypeError :=
| InvalidLength (field : string) (maximum : N)
| InvalidModule (field : string) (expected : string).

Record ReceiveTarget := {
  rt_module : ModuleId;
  rt_account : bytes;
  rt_display : string;
  rt_derivation_index : N;
}.

Definition receive_target_validate (t : ReceiveTarget) : result unit TypeError :=
  if bool_decide (rt_display t = EmptyString) || (512 <? str_len (rt_display t))
  then Err (InvalidLength "receive target" 512)
  else Ok tt.

(** [HnsNameReceiveTarget] has the same fields and a stricter validator. *)
Definition name_receive_target_validate (t : ReceiveTarget) : result unit TypeError :=
  if negb (bool_decide (rt_module t = Handshake))
  then Err (InvalidModule "HNS name receive target" "handshake")
  else if bool_decide (rt_display t = EmptyString) || (512 <? str_len (rt_display t))
  then Err (InvalidLength "HNS name receive target" 512)
  else Ok tt.

(** ** Wire identifiers *)

Module WireId.

Inductive WireIdError := NonCanonical | Zero.

Definition BASE64URL_ALPHABET : bytes :=
  str_bytes "ABCDEFGHIJKLMNOPQRSTUVWXYZabcdefghijklmnopqrstuvwxyz0123456789-_".

(** [BASE64URL_ALPHABET[i as usize]]; every index the encoder computes is below 64. *)
Definition alphabet (i : N) : u8 := nth (N.to_nat i) BASE64URL_ALPHABET Byte.x00.

(** [u8] shifts: the bits shifted out are lost. *)
Definition shl8 (x k : N) : N := N.shiftl x k mod 256.
Definition shr8 (x k : N) : N := N.shiftr x k.

(** The three bytes at [index] encoded as four characters. *)
Definition encode3 (first second third : N) : list N :=
  [shr8 first 2;
   N.lor (shl8 (N.land first 3) 4) (shr8 second 4);
   N.lor (shl8 (N.land second 15) 2) (shr8 third 6);
   N.land third 63].
Definition encode2 (first second : N) : list N :=
  [shr8 first 2;
   N.lor (shl8 (N.land first 3) 4) (shr8 second 4);
   shl8 (N.land second 15) 2].
Definition encode1 (first : N) : list N := [shr8 first 2; shl8 (N.land first 3) 4].

(** The [while index + 3 <= bytes.len()] loop consumes three bytes a turn; the
    argument is the slice that starts at [index]. *)
Fixpoint encode_wire_id (bs : bytes) : bytes :=
  match bs with
  | first :: second :: third :: rest =>
      map alphabet (encode3 (Byte.to_N first) (Byte.to_N second) (Byte.to_N third))
      ++ encode_wire_id rest
  | [first; second] => map alphabet (encode2 (Byte.to_N first) (Byte.to_N second))
  | [first] => map alphabet (encode1 (Byte.to_N first))
  | [] => []
  end.

(** The inner [fn value]. *)
Definition value (b : u8) : option N :=
  let v := Byte.to_N b in
  if (65 <=? v) && (v <=? 90) then Some (v - 65)
  else if (97 <=? v) && (v <=? 122) then Some (v - 97 + 26)
  else if (48 <=? v) && (v <=? 57) then Some (v - 48 + 52)
  else if v =? 45 then Some 62
  else if v =? 95 then Some 63
  else None.

(** [room] is [bytes.len() - output_index], what is left of the output buffer,
    and the result is what the loop writes from [output_index] on. *)
Fixpoint decode_loop (room : N) (input : bytes) : result bytes WireIdError :=
  match input with
  | c1 :: c2 :: c3 :: c4 :: rest =>
      let* first := ok_or (value c1) NonCanonical in
      let* second := ok_or (value c2) NonCanonical in
      let* third := ok_or (value c3) NonCanonical in
      let* fourth := ok_or (value c4) NonCanonical in
      if room <? 3 then Err NonCanonical else
      let* written := decode_loop (room - 3) rest in
      Ok (byte_of_N (N.lor (shl8 first 2) (shr8 second 4))
          :: byte_of_N (N.lor (shl8 second 4) (shr8 third 2))
          :: byte_of_N (N.lor (shl8 third 6) fourth) :: written)
  | [c1; c2] =>
      let* first := ok_or (value c1) NonCanonical in
      let* second := ok_or (value c2) NonCanonical in
      if negb (N.land second 15 =? 0) || (room =? 0) then Err NonCanonical else
      let* _ := if room - 1 =? 0 then Ok tt else Err NonCanonical in
      Ok [byte_of_N (N.lor (shl8 first 2) (shr8 second 4))]
  | [c1; c2; c3] =>
      let* first := ok_or (value c1) NonCanonical in
      let* second := ok_or (value c2) NonCanonical in
      let* third := ok_or (value c3) NonCanonical in
      if negb (N.land third 3 =? 0) || (room <? 2) then Err NonCanonical else
      let* _ := if room - 2 =? 0 then Ok tt else Err NonCanonical in
      Ok [byte_of_N (N.lor (shl8 first 2) (shr8 second 4));
          byte_of_N (N.lor (shl8 second 4) (shr8 third 2))]
  | [] => if room =? 0 then Ok [] else Err NonCanonical
  | _ => Err NonCanonical
  end.

Definition decode_wire_id (encoded : bytes) (size : N) : result bytes WireIdError :=
  decode_loop size encoded.

(** [ENCODED_LENGTH = (size * 4).div_ceil(3)]. *)
Definition ENCODED_LENGTH (size : N) : N := (size * 4 + 2) / 3.

Definition from_bytes (bs : bytes) : result bytes WireIdError :=
  if all_zero bs then Err Zero else Ok bs.

Definition parse (size : N) (encoded : bytes) : result bytes WireIdError :=
  if negb (len encoded =? ENCODED_LENGTH size) then Err NonCanonical else
  let* bs := decode_wire_id encoded size in
  from_bytes bs.

Definition serialize (id : bytes) : bytes := encode_wire_id id.

(** *** Arithmetic of the sextets *)

Lemma lor_disjoint x y k : y < 2 ^ k -> N.lor (x * 2 ^ k) y = x * 2 ^ k + y.
Proof.
  intros Hy. assert (N.land (x * 2 ^ k) y = 0) as Hland.
  { apply N.bits_inj_0. intros i. rewrite N.land_spec.
    destruct (N.lt_ge_cases i k) as [Hi|Hi].
    - by rewrite N.mul_pow2_bits_low.
    - rewrite andb_comm. replace (N.testbit y i) with false; [done|]. symmetry.
      destruct (N.eq_dec y 0) as [->|Hne]; [apply N.bits_0|].
      apply N.bits_above_log2, N.lt_le_trans with k; [|done].
      apply N.log2_lt_pow2; lia. }
  by rewrite <- N.lxor_lor, <- N.add_nocarry_lxor.
Qed.

Lemma shr8_div x k : shr8 x k = x / 2 ^ k.
Proof. apply N.shiftr_div_pow2. Qed.
Lemma shl8_mul x k : shl8 x k = x * 2 ^ k mod 256.
Proof. unfold shl8. by rewrite N.shiftl_mul_pow2. Qed.
Lemma land3 x : N.land x 3 = x mod 4. Proof. apply (N.land_ones x 2). Qed.
Lemma land15 x : N.land x 15 = x mod 16. Proof. apply (N.land_ones x 4). Qed.
Lemma land63 x : N.land x 63 = x mod 64. Proof. apply (N.land_ones x 6). Qed.

Ltac nat_div := zify; Z.to_euclidean_division_equations; lia.

(** The or of a masked left shift with what fits below it is their sum. *)
Lemma lor_shl8 x y k :
  x * 2 ^ k < 256 -> y < 2 ^ k -> N.lor (shl8 x k) y = x * 2 ^ k + y.
Proof. intros. rewrite shl8_mul, N.mod_small by done. by apply lor_disjoint. Qed.

Lemma lor_shl8_wrap x y k :
  k <= 8 -> y < 2 ^ k -> N.lor (shl8 x k) y = (x mod 2 ^ (8 - k)) * 2 ^ k + y.
Proof.
  intros Hk Hy. rewrite shl8_mul.
  replace 256 with (2 ^ (8 - k) * 2 ^ k) by (rewrite <- N.pow_add_r; by replace (8 - k + k) with 8 by lia).
  rewrite N.Div0.mul_mod_distr_r. by apply lor_disjoint.
Qed.

(** *** The alphabet is a bijection between sextets and its 64 characters *)

Lemma value_alphabet i : i < 64 -> value (alphabet i) = Some i.
Proof.
  intros Hi.
  assert (Forall (fun n => value (alphabet (N.of_nat n)) = Some (N.of_nat n)) (seq 0 64)) as Hall
    by (apply (bool_decide_unpack _); vm_compute; exact I).
  rewrite Forall_forall in Hall. specialize (Hall (N.to_nat i)).
  rewrite N2Nat.id in Hall. apply Hall, in_seq. lia.
Qed.

Lemma alphabet_value b i : value b = Some i -> alphabet i = b /\ i < 64.
Proof. destruct b; vm_compute; intros [= <-] || discriminate; done. Qed.

(** *** The codec *)

(** Each half of the codec as division and remainder. *)
Lemma sextet_high a b :
  a < 256 -> b < 256 -> N.lor (shl8 (N.land a 3) 4) (shr8 b 4) = a mod 4 * 16 + b / 16.
Proof. intros. rewrite shr8_div, land3, lor_shl8; [done| |]; simpl; nat_div. Qed.
Lemma sextet_mid b c :
  b < 256 -> c < 256 -> N.lor (shl8 (N.land b 15) 2) (shr8 c 6) = b mod 16 * 4 + c / 64.
Proof. intros. rewrite shr8_div, land15, lor_shl8; [done| |]; simpl; nat_div. Qed.
Lemma sextet_tail2 b : b < 256 -> shl8 (N.land b 15) 2 = b mod 16 * 4.
Proof. intros. rewrite shl8_mul, land15. simpl. nat_div. Qed.
Lemma sextet_tail1 a : a < 256 -> shl8 (N.land a 3) 4 = a mod 4 * 16.
Proof. intros. rewrite shl8_mul, land3. simpl. nat_div. Qed.
Lemma octet_first s1 s2 :
  s1 < 64 -> s2 < 64 -> N.lor (shl8 s1 2) (shr8 s2 4) = s1 * 4 + s2 / 16.
Proof. intros. rewrite shr8_div, lor_shl8; [done| |]; simpl; nat_div. Qed.
Lemma octet_second s2 s3 :
  s2 < 64 -> s3 < 64 -> N.lor (shl8 s2 4) (shr8 s3 2) = s2 mod 16 * 16 + s3 / 4.
Proof. intros. rewrite shr8_div, lor_shl8_wrap; [done|lia|]; simpl; nat_div. Qed.
Lemma octet_third s3 s4 :
  s3 < 64 -> s4 < 64 -> N.lor (shl8 s3 6) s4 = s3 mod 4 * 64 + s4.
Proof. intros. rewrite lor_shl8_wrap; [done|lia|]; simpl; lia. Qed.

Lemma value_alphabet_ok i : i < 64 -> ok_or (value (alphabet i)) NonCanonical = Ok i.
Proof. intros. by rewrite value_alphabet. Qed.

(** A byte rebuilt from the sextets that carry it. *)
Lemma octet_of a n : Byte.to_N a = n -> byte_of_N n = a.
Proof. intros <-. apply byte_of_N_to_N. Qed.
Lemma rebuild_first a x : a < 256 -> x < 16 -> a = a / 4 * 4 + (a mod 4 * 16 + x) / 16.
Proof. intros. nat_div. Qed.
Lemma rebuild_second y b x :
  b < 256 -> x < 4 -> b = (y * 16 + b / 16) mod 16 * 16 + (b mod 16 * 4 + x) / 4.
Proof. intros. nat_div. Qed.
Lemma rebuild_third y c : c < 256 -> c = (y * 4 + c / 64) mod 4 * 64 + c mod 64.
Proof. intros. nat_div. Qed.

Lemma div_lt_64 x : x < 256 -> x / 4 < 64. Proof. intros. nat_div. Qed.
Lemma div_lt_16 x : x < 256 -> x / 16 < 16. Proof. intros. nat_div. Qed.
Lemma div_lt_4 x : x < 256 -> x / 64 < 4. Proof. intros. nat_div. Qed.
Lemma mod_high_lt_64 a x : x < 16 -> a mod 4 * 16 + x < 64. Proof. intros. nat_div. Qed.
Lemma mod_mid_lt_64 b x : x < 4 -> b mod 16 * 4 + x < 64. Proof. intros. nat_div. Qed.
Lemma mod_lt_64 c : c mod 64 < 64. Proof. nat_div. Qed.
Lemma mod_tail1_lt_64 a : a mod 4 * 16 < 64. Proof. nat_div. Qed.
Lemma mod_tail2_lt_64 b : b mod 16 * 4 < 64. Proof. nat_div. Qed.
Lemma rebuild_tail1 a : a < 256 -> a = a / 4 * 4 + a mod 4 * 16 / 16. Proof. intros. nat_div. Qed.
Lemma rebuild_tail2 y b :
  b < 256 -> b = (y * 16 + b / 16) mod 16 * 16 + b mod 16 * 4 / 4.
Proof. intros. nat_div. Qed.
Lemma tail1_aligned a : (a mod 4 * 16) mod 16 = 0. Proof. nat_div. Qed.
Lemma tail2_aligned b : (b mod 16 * 4) mod 4 = 0. Proof. nat_div. Qed.

Create HintDb sextet discriminated.
#[local] Hint Resolve byte_to_N_bound mod_tail1_lt_64 mod_tail2_lt_64 div_lt_64 div_lt_16 div_lt_4 mod_high_lt_64
  mod_mid_lt_64 mod_lt_64 : sextet.

(** Encoding never fails to decode to what was encoded. *)
Lemma decode_encode bs : decode_wire_id (encode_wire_id bs) (len bs) = Ok bs.
Proof.
  unfold decode_wire_id, len.
  induction bs as [bs IH] using (induction_ltof1 _ (@length u8)); unfold ltof in IH.
  destruct bs as [|a [|b [|c rest]]]; [done|..].
  - cbn [encode_wire_id decode_loop map app encode1].
    rewrite sextet_tail1, shr8_div by auto with sextet. change (2 ^ 2) with 4.
    rewrite !value_alphabet_ok by auto with sextet.
    rewrite land15, tail1_aligned, octet_first by auto with sextet.
    simpl. do 2 f_equal. apply octet_of. apply rebuild_tail1; auto with sextet.
  - cbn [encode_wire_id decode_loop map app encode2].
    rewrite sextet_high, sextet_tail2, shr8_div by auto with sextet. change (2 ^ 2) with 4.
    rewrite !value_alphabet_ok by auto with sextet.
    rewrite land3, tail2_aligned, octet_first, octet_second by auto with sextet.
    simpl. f_equal. f_equal; [|f_equal]; apply octet_of.
    + apply rebuild_first; auto with sextet.
    + apply rebuild_tail2; auto with sextet.
  - cbn [encode_wire_id decode_loop map app encode3].
    rewrite sextet_high, sextet_mid, land63, shr8_div by auto with sextet. change (2 ^ 2) with 4.
    rewrite !value_alphabet_ok by auto with sextet.
    rewrite octet_first, octet_second, octet_third by auto with sextet.
    replace (N.of_nat _ - 3) with (N.of_nat (length rest)) by (simpl; lia).
    rewrite IH by (simpl; lia).
    destruct (N.ltb_spec (N.of_nat (length (a :: b :: c :: rest))) 3); [simpl in *; lia|].
    do 2 f_equal; [|f_equal; [|f_equal]]; apply octet_of.
    + apply rebuild_first; auto with sextet.
    + apply rebuild_second; auto with sextet.
    + apply rebuild_third; auto with sextet.
Qed.

(** The sextets a decoded byte carries. *)
Lemma octet_first_lt s1 s2 : s1 < 64 -> s2 < 64 -> s1 * 4 + s2 / 16 < 256. Proof. intros. nat_div. Qed.
Lemma octet_second_lt s2 s3 : s3 < 64 -> s2 mod 16 * 16 + s3 / 4 < 256. Proof. intros. nat_div. Qed.
Lemma octet_third_lt s3 s4 : s4 < 64 -> s3 mod 4 * 64 + s4 < 256. Proof. intros. nat_div. Qed.
Lemma split_first s1 s2 : s2 < 64 -> (s1 * 4 + s2 / 16) / 4 = s1. Proof. intros. nat_div. Qed.
Lemma split_high s1 s2 x :
  s2 < 64 -> x < 16 -> (s1 * 4 + s2 / 16) mod 4 * 16 + (s2 mod 16 * 16 + x) / 16 = s2.
Proof. intros. nat_div. Qed.
Lemma split_mid s2 s3 x :
  s3 < 64 -> x < 64 -> (s2 mod 16 * 16 + s3 / 4) mod 16 * 4 + (s3 mod 4 * 64 + x) / 64 = s3.
Proof. intros. nat_div. Qed.
Lemma split_last s3 s4 : s4 < 64 -> (s3 mod 4 * 64 + s4) mod 64 = s4. Proof. intros. nat_div. Qed.
Lemma split_tail1 s1 s2 : s2 < 64 -> s2 mod 16 = 0 -> (s1 * 4 + s2 / 16) mod 4 * 16 = s2.
Proof. intros. nat_div. Qed.
Lemma split_tail2 s2 s3 :
  s3 < 64 -> s3 mod 4 = 0 -> (s2 mod 16 * 16 + s3 / 4) mod 16 * 4 = s3.
Proof. intros. nat_div. Qed.
Lemma div4_lt_16 s : s < 64 -> s / 4 < 16. Proof. intros. nat_div. Qed.

#[local] Hint Resolve octet_first_lt octet_second_lt octet_third_lt div4_lt_16 : sextet.

Lemma to_N_octet n : n < 256 -> Byte.to_N (byte_of_N n) = n.
Proof. intros. by rewrite byte_to_N_of_N, N.mod_small. Qed.

(** Read off the characters of a decoding step. *)
Ltac decoded H :=
  run_in H; bool_prop;
  repeat match goal with
  | E : value _ = Some _ |- _ => apply alphabet_value in E as [<- ?]
  end.

(** Whatever decodes is the encoding of what it decodes to, and fills the buffer. *)
Lemma encode_decode room s bs :
  decode_wire_id s room = Ok bs -> encode_wire_id bs = s /\ len bs = room.
Proof.
  unfold decode_wire_id, len. revert room bs.
  induction s as [s IH] using (induction_ltof1 _ (@length u8)); unfold ltof in IH; intros room bs H.
  destruct s as [|c1 [|c2 [|c3 [|c4 rest]]]]; cbn [decode_loop] in H.
  - run_in H; bool_prop. by subst.
  - done.
  - decoded H. rewrite land15 in *. cbn [encode_wire_id map encode1].
    rewrite octet_first, to_N_octet, sextet_tail1, shr8_div by auto with sextet.
    change (2 ^ 2) with 4. rewrite split_first, split_tail1 by done. split; [done|]. simpl. lia.
  - decoded H. rewrite land3 in *. cbn [encode_wire_id map encode2].
    rewrite octet_first, octet_second, !to_N_octet, sextet_high, sextet_tail2, shr8_div
      by auto with sextet.
    change (2 ^ 2) with 4. rewrite split_first, split_high, split_tail2 by auto with sextet.
    split; [done|simpl; lia].
  - decoded H. apply IH in Heqr3 as [Henc Hlen]; [|simpl; lia].
    cbn [encode_wire_id map encode3 app]. rewrite Henc.
    rewrite octet_first, octet_second, octet_third, !to_N_octet, sextet_high, sextet_mid,
      land63, shr8_div by auto with sextet.
    change (2 ^ 2) with 4. rewrite split_first, split_high, split_mid, split_last by auto with sextet.
    split; [done|simpl; lia].
Qed.

Lemma encoded_length bs : len (encode_wire_id bs) = ENCODED_LENGTH (len bs).
Proof.
  unfold len, ENCODED_LENGTH.
  induction bs as [bs IH] using (induction_ltof1 _ (@length u8)); unfold ltof in IH.
  destruct bs as [|a [|b [|c rest]]]; [done..|].
  specialize (IH rest). cbn [encode_wire_id map encode3 app length] in *.
  rewrite !Nat2N.inj_succ. nat_div.
Qed.

(** The wire form of an identifier is canonical.  A text parses to an
    identifier of the given width exactly when it is that identifier's own
    serialization, the identifier has that width and is not the all-zero
    sentinel: parsing inverts serialization, no second spelling (padding, stray
    trailing bits, other alphabet, wrong width) is accepted, and zero is
    neither produced nor accepted.*)
Theorem wire_id_parse_canonical size s id :
  parse size s = Ok id <-> serialize id = s /\ len id = size /\ all_zero id = false.
Proof.
  unfold parse, serialize, from_bytes. split.
  - intros H. run_in H. bool_prop. by edestruct encode_decode.
  - intros (<- & <- & Hz). rewrite encoded_length, N.eqb_refl, decode_encode, Hz. done.
Qed.

End WireId.

(** A byte from its hexadecimal digits. *)
Lemma join_nibbles h l : h < 16 -> l < 16 ->
  Byte.to_N (byte_of_N (N.lor (N.shiftl h 4) l)) = h * 16 + l.
Proof.
  intros Hh Hl. rewrite byte_to_N_of_N, N.shiftl_mul_pow2.
  rewrite WireId.lor_disjoint by done. rewrite N.mod_small by (simpl; lia). simpl. lia.
Qed.

(** ** Decimal amounts *)

Lemma digit_value_byte d : d < 10 -> digit_value (digit_byte d) = Some d.
Proof.
  intros. unfold digit_value, digit_byte. rewrite byte_to_N_of_N, N.mod_small by lia.
  destruct (N.leb_spec 48 (48 + d)), (N.leb_spec (48 + d) 57); simpl; try lia. f_equal; lia.
Qed.

Lemma parse_digit a d bs :
  d < 10 -> a * 10 + d <= U128_MAX ->
  parse_digits a (digit_byte d :: bs) = parse_digits (a * 10 + d) bs.
Proof.
  intros Hd Hmax. cbn [parse_digits]. rewrite digit_value_byte by done.
  unfold checked_mul, checked_add.
  rewrite (proj2 (N.leb_le (a * 10) U128_MAX)), (proj2 (N.leb_le (a * 10 + d) U128_MAX)) by lia.
  done.
Qed.

(** Reading the digits of [n] from [a] shifts [a] and adds [n]. *)
Lemma parse_decimal_digits fuel n acc :
  n < 10 ^ N.of_nat (S fuel) ->
  exists k, forall a, a * 10 ^ k + n <= U128_MAX ->
    parse_digits a (decimal_digits (S fuel) n acc) = parse_digits (a * 10 ^ k + n) acc.
Proof.
  revert n acc. induction fuel as [|fuel IH]; intros n acc Hn; cbn [decimal_digits].
  - exists 1. intros a Ha. change (10 ^ 1) with 10 in *. simpl in Hn.
    rewrite N.div_small, N.mod_small by lia. simpl. apply parse_digit; lia.
  - rewrite Nat2N.inj_succ, N.pow_succ_r' in Hn. pose proof (N.div_mod' n 10) as Hdm.
    pose proof (N.mod_lt n 10 ltac:(lia)) as Hmod. destruct (N.eqb_spec (n / 10) 0) as [Hz|Hz].
    + exists 1. intros a Ha. change (10 ^ 1) with 10 in *. rewrite parse_digit; [|lia..].
      f_equal. lia.
    + destruct (IH (n / 10) (digit_byte (n mod 10) :: acc)) as [k Hk].
      { apply N.Div0.div_lt_upper_bound. lia. }
      exists (N.succ k). intros a Ha. rewrite N.pow_succ_r' in *. cbn [decimal_digits] in Hk.
      assert (a * (10 * 10 ^ k) = 10 * (a * 10 ^ k)) as Hmul by lia. rewrite Hmul in *.
      specialize (Hk a). clear Hmul. generalize dependent (a * 10 ^ k). intros x Hk Ha.
      rewrite Hk by WireId.nat_div. rewrite parse_digit by lia. f_equal. lia.
Qed.

Lemma decimal_digits_head fuel n acc :
  exists d rest, decimal_digits (S fuel) n acc = digit_byte d :: rest /\ d < 10.
Proof.
  revert n acc; induction fuel as [|fuel IH]; intros n acc; cbn [decimal_digits];
    pose proof (N.mod_lt n 10 ltac:(lia)); case_match; eauto.
Qed.

Lemma digit_byte_not_plus d : d < 10 -> digit_byte d <> "+"%byte.
Proof.
  intros Hd Heq. apply (f_equal Byte.to_N) in Heq.
  unfold digit_byte in Heq. rewrite byte_to_N_of_N, N.mod_small in Heq by lia.
  change (Byte.to_N "+"%byte) with 43 in Heq. lia.
Qed.

(** An amount survives its decimal-string JSON form at full [u128]
    precision: printing and reading back gives the same amount.*)
Theorem base_units_decimal_roundtrip a :
  bu_get a <= U128_MAX -> bu_deserialize (bu_serialize a) = Some a.
Proof.
  intros Ha. unfold bu_deserialize, bu_serialize, u128_to_string, u128_parse.
  destruct (decimal_digits_head 38 (bu_get a) []) as (d & rest & Heq & Hd).
  destruct (parse_decimal_digits 38 (bu_get a) []) as [k Hk].
  { eapply N.le_lt_trans; [exact Ha|]. vm_compute. done. }
  specialize (Hk 0). rewrite Heq in *. rewrite Hk by lia.
  rewrite bool_decide_eq_false_2 by (by apply digit_byte_not_plus).
  simpl. destruct a; done.
Qed.

Lemma base_units_decimal_roundtrip_witness :
  bu_get (mkBaseUnits U128_MAX) <= U128_MAX /\
  bu_deserialize (bu_serialize (mkBaseUnits U128_MAX)) = Some (mkBaseUnits U128_MAX).
Proof. split; [|apply base_units_decimal_roundtrip]; vm_compute; done. Defined.
