(* ===== verification/Provider.v ===== *)
(** * hns-wallet-provider: the hostile-page request, permission and approval core

    Models [crates/hns-wallet-provider/src/lib.rs].  [Module Method] holds the
    closed method vocabulary; the class [ProviderStateStore] is the source's
    trait of the same name, with the laws its implementations satisfy in
    [ProviderStateStoreLaws]; [MemoryProviderState] is one implementation, the
    wallet store is the other (file Store).  The policy core is the record
    [ProviderCore] with one definition per method of the source's [impl]; a
    method that takes [&mut self] returns the new core next to its result, also
    on the error path.

    Parameters: the JSON decoder of a request, the accessors of a JSON value,
    the URL parser and SHA-256, none of which is code of this repository. *)

From stdpp Require Import finite.
From Stdlib Require Import Strings.Byte.
From S2P Require Import Prelude Types.

Definition MAX_PROVIDER_REQUEST_BYTES : N := 64 * 1024.
Definition MAX_METHOD_BYTES : N := 96.
Definition MAX_ORIGIN_BYTES : N := 512.
Definition APPROVAL_LIFETIME_SECONDS : N := 90.
Definition RATE_WINDOW_SECONDS : N := 60.
Definition MAX_REGISTERED_AUTHORITIES : N := 256.
Definition MAX_PENDING_APPROVALS : N := 128.
Definition MAX_REPLAY_NONCES : N := 4096.
Definition MAX_APPROVED_ACCOUNTS : N := 16.
Definition MAX_APPROVED_NAMES : N := 128.

Inductive ProviderError :=
| InvalidOrigin | InsecureContext | AuthorityNotFound | DuplicateAuthority
| AuthorityCapacity | StaleContext | ClockRollback | RequestTooLarge
| MethodNotFound | ForbiddenMethod | InvalidParams | Unauthorized | WalletLocked
| RateLimited | Replay | StaleApproval | InvalidPermission | Persistence.

#[global] Instance ProviderError_eq_dec : EqDecision ProviderError.
Proof. solve_decision. Defined.

(** ** The method vocabulary *)

Module Method.

Inductive t :=
| WalletGetCapabilities | WalletGetEnabledModules | WalletEnableModule
| WalletDisableModule | WalletRequestPermissions | WalletGetPermissions
| WalletRevokePermissions | WalletLock | WalletGetStatus | HnsRequestAccounts
| HnsAccounts | HnsGetBalance | HnsGetTransactions | HnsGetReceiveAddress | HnsSend
| HnsGetNames | HnsGetName | HnsImportKnownName | HnsTransferName | HnsFinalizeName
| HnsSignTypedMessage | AssetGetAccount | AssetGetBalance | AssetGetTransactions
| AssetGetReceiveTarget | AssetSend | NameMarketListOffers
| NameMarketCreateFixedPriceOffer | NameMarketCancelOffer | NameMarketAcceptOffer
| NameMarketGetSession | NameMarketFinalizePurchase | NameMarketRecoverName
| SwapGetSupportedPairs | SwapListDirectOffers | SwapPublishDirectOffer
| SwapCancelDirectOffer | SwapAcceptDirectOffer | SwapGetSession | SwapRedeem
| SwapRefund | HnsUpdateName | NameMarketListMyOffers | NameMarketGetOffer.

#[global] Instance t_eq_dec : EqDecision t.
Proof. solve_decision. Defined.

Definition ALL : list t :=
  [WalletGetCapabilities; WalletGetEnabledModules; WalletEnableModule;
   WalletDisableModule; WalletRequestPermissions; WalletGetPermissions;
   WalletRevokePermissions; WalletLock; WalletGetStatus; HnsRequestAccounts;
   HnsAccounts; HnsGetBalance; HnsGetTransactions; HnsGetReceiveAddress; HnsSend;
   HnsGetNames; HnsGetName; HnsImportKnownName; HnsTransferName; HnsFinalizeName;
   HnsSignTypedMessage; AssetGetAccount; AssetGetBalance; AssetGetTransactions;
   AssetGetReceiveTarget; AssetSend; NameMarketListOffers;
   NameMarketCreateFixedPriceOffer; NameMarketCancelOffer; NameMarketAcceptOffer;
   NameMarketGetSession; NameMarketFinalizePurchase; NameMarketRecoverName;
   SwapGetSupportedPairs; SwapListDirectOffers; SwapPublishDirectOffer;
   SwapCancelDirectOffer; SwapAcceptDirectOffer; SwapGetSession; SwapRedeem;
   SwapRefund; HnsUpdateName; NameMarketListMyOffers; NameMarketGetOffer].

#[global] Program Instance t_finite : Finite t := {| enum := ALL |}.
Next Obligation. solve_enum_nodup. Qed.
Next Obligation. solve_enum_elem. Qed.

(** [self as usize]: the [repr(u8)] discriminant, in declaration order. *)
Definition index (m : t) : nat :=
  match m with
  | WalletGetCapabilities => 0 | WalletGetEnabledModules => 1 | WalletEnableModule => 2
  | WalletDisableModule => 3 | WalletRequestPermissions => 4 | WalletGetPermissions => 5
  | WalletRevokePermissions => 6 | WalletLock => 7 | WalletGetStatus => 8
  | HnsRequestAccounts => 9 | HnsAccounts => 10 | HnsGetBalance => 11
  | HnsGetTransactions => 12 | HnsGetReceiveAddress => 13 | HnsSend => 14
  | HnsGetNames => 15 | HnsGetName => 16 | HnsImportKnownName => 17
  | HnsTransferName => 18 | HnsFinalizeName => 19 | HnsSignTypedMessage => 20
  | AssetGetAccount => 21 | AssetGetBalance => 22 | AssetGetTransactions => 23
  | AssetGetReceiveTarget => 24 | AssetSend => 25 | NameMarketListOffers => 26
  | NameMarketCreateFixedPriceOffer => 27 | NameMarketCancelOffer => 28
  | NameMarketAcceptOffer => 29 | NameMarketGetSession => 30
  | NameMarketFinalizePurchase => 31 | NameMarketRecoverName => 32
  | SwapGetSupportedPairs => 33 | SwapListDirectOffers => 34
  | SwapPublishDirectOffer => 35 | SwapCancelDirectOffer => 36
  | SwapAcceptDirectOffer => 37 | SwapGetSession => 38 | SwapRedeem => 39
  | SwapRefund => 40 | HnsUpdateName => 41 | NameMarketListMyOffers => 42
  | NameMarketGetOffer => 43
  end%nat.

Definition wire_name (m : t) : string :=
  nth (index m) PROVIDER_METHOD_WIRE_NAMES EmptyString.

Definition FORBIDDEN_METHODS : list string :=
  ["eth_sendTransaction"; "eth_call"; "eth_estimateGas"; "eth_sign"; "personal_sign";
   "wallet_addEthereumChain"; "wallet_switchEthereumChain"; "bitcoin_signPsbt";
   "signRawTransaction"; "wallet_getSeed"; "wallet_getPrivateKey"]%string.

(** [iter().position(|candidate| *candidate == method)]. *)
Fixpoint position (names : list string) (method : string) : option nat :=
  match names with
  | [] => None
  | name :: rest =>
      if bool_decide (name = method) then Some O else S <$> position rest method
  end.

Definition parse (method : string) : result t ProviderError :=
  match position PROVIDER_METHOD_WIRE_NAMES method with
  | Some i => ok_or (ALL !! i) MethodNotFound
  | None => if bool_decide (method ∈ FORBIDDEN_METHODS) then Err ForbiddenMethod
            else Err MethodNotFound
  end.

Definition requires_hns_namespace (m : t) : bool :=
  match m with
  | HnsRequestAccounts | HnsAccounts | HnsGetBalance | HnsGetTransactions
  | HnsGetReceiveAddress | HnsSend | HnsGetNames | HnsGetName | HnsImportKnownName
  | HnsTransferName | HnsFinalizeName | HnsUpdateName | HnsSignTypedMessage
  | NameMarketListOffers | NameMarketListMyOffers | NameMarketGetOffer
  | NameMarketCreateFixedPriceOffer | NameMarketCancelOffer | NameMarketAcceptOffer
  | NameMarketGetSession | NameMarketFinalizePurchase | NameMarketRecoverName => true
  | _ => false
  end.

Definition permission (m : t) : option PermissionCapability :=
  match m with
  | WalletGetCapabilities | WalletGetEnabledModules | WalletRequestPermissions
  | WalletGetPermissions | WalletRevokePermissions | WalletLock | WalletGetStatus
  | HnsRequestAccounts | SwapGetSupportedPairs => None
  | HnsAccounts | AssetGetAccount => Some Accounts
  | HnsGetBalance | AssetGetBalance => Some Balance
  | HnsGetTransactions | AssetGetTransactions => Some Transactions
  | HnsGetReceiveAddress | AssetGetReceiveTarget => Some CapReceiveTarget
  | HnsSend | AssetSend => Some CapSend
  | HnsGetNames | HnsGetName | HnsImportKnownName => Some Names
  | HnsTransferName => Some CapNameTransfer
  | HnsFinalizeName => Some CapNameFinalize
  | HnsUpdateName => Some CapNameUpdate
  | HnsSignTypedMessage => Some TypedIdentitySignature
  | NameMarketListOffers | NameMarketListMyOffers | NameMarketGetOffer
  | NameMarketCreateFixedPriceOffer | NameMarketCancelOffer | NameMarketAcceptOffer
  | NameMarketGetSession | NameMarketFinalizePurchase | NameMarketRecoverName =>
      Some NameMarket
  | SwapListDirectOffers | SwapPublishDirectOffer | SwapCancelDirectOffer
  | SwapAcceptDirectOffer => Some CrossChainMarket
  | SwapGetSession | SwapRedeem | SwapRefund => Some SwapSettlement
  | WalletEnableModule | WalletDisableModule => None
  end.

Definition approval (m : t) : option ApprovalKind :=
  match m with
  | WalletEnableModule | WalletDisableModule => Some ModuleEnablement
  | WalletRequestPermissions | HnsRequestAccounts => Some Permission
  | HnsSend | AssetSend => Some KindSend
  | HnsTransferName => Some KindNameTransfer
  | HnsFinalizeName => Some KindNameFinalize
  | HnsUpdateName => Some KindNameUpdate
  | HnsSignTypedMessage => Some TypedSignature
  | NameMarketCreateFixedPriceOffer | NameMarketCancelOffer => Some NameMarketOffer
  | NameMarketAcceptOffer | NameMarketFinalizePurchase => Some NameMarketPurchase
  | NameMarketRecoverName => Some NameMarketOffer
  | SwapPublishDirectOffer | SwapCancelDirectOffer => Some DirectOffer
  | SwapAcceptDirectOffer => Some DirectOfferAcceptance
  | SwapRedeem => Some Types.SwapRedeem
  | SwapRefund => Some Types.SwapRefund
  | _ => None
  end.

Definition rate_limit (m : t) : N := if is_some (approval m) then 10 else 120.

End Method.

(** ** Origins *)

Inductive Host := Domain (name : string) | Ipv4 (loopback : bool) | Ipv6 (loopback : bool).

(** What [Origin::parse] reads of a [url::Url]. *)
Record ParsedUrl := {
  url_username : string;
  url_password : option string;
  url_query : option string;
  url_fragment : option string;
  url_path : string;
  url_host : option Host;
  url_scheme : string;
  url_port_or_known_default : option N;
  url_host_str : option string;
}.

(** The decimal form of a port. *)
Definition port_string (port : N) : string :=
  String.string_of_list_byte (u128_to_string port).

Section Origin.
Context (url_parse : string -> option ParsedUrl).

Definition origin_parse (input : string) : result string ProviderError :=
  if bool_decide (input = EmptyString) || (MAX_ORIGIN_BYTES <? str_len input)
     || negb (is_ascii input)
  then Err InvalidOrigin else
  let* parsed := ok_or (url_parse input) InvalidOrigin in
  if negb (bool_decide (url_username parsed = EmptyString))
     || is_some (url_password parsed) || is_some (url_query parsed)
     || is_some (url_fragment parsed) || negb (bool_decide (url_path parsed = "/"%string))
  then Err InvalidOrigin else
  let* host := ok_or (url_host parsed) InvalidOrigin in
  let loopback := match host with
                  | Domain domain => bool_decide (domain = "localhost"%string)
                  | Ipv4 l => l
                  | Ipv6 l => l
                  end in
  let https := bool_decide (url_scheme parsed = "https"%string) in
  let http := bool_decide (url_scheme parsed = "http"%string) in
  if negb (https || (http && loopback)) then Err InsecureContext else
  let* port := ok_or (url_port_or_known_default parsed) InvalidOrigin in
  let default_port := (https && (port =? 443)) || (http && (port =? 80)) in
  let* serialized_host := ok_or (url_host_str parsed) InvalidOrigin in
  Ok (if default_port then url_scheme parsed +:+ "://" +:+ serialized_host
      else url_scheme parsed +:+ "://" +:+ serialized_host +:+ ":" +:+ port_string port).
End Origin.

(** ** Authority facts, permission records and pending approvals *)

Inductive SelectedNamespace := NsHns | NsIcann.

#[global] Instance SelectedNamespace_eq_dec : EqDecision SelectedNamespace.
Proof. solve_decision. Defined.

Record HostAuthorityRegistration := {
  origin : string;
  namespace : SelectedNamespace;
  runtime_session : bytes;
  runtime_generation : N;
  policy_generation : N;
  navigation_generation : N;
  decision_fingerprint : bytes;
  valid_until_unix_ms : N;
}.

Definition registration_validate (f : HostAuthorityRegistration) (now_unix_ms : N) :
  result unit ProviderError :=
  if (runtime_generation f =? 0) || (policy_generation f =? 0)
     || (navigation_generation f =? 0) || (valid_until_unix_ms f <=? now_unix_ms)
  then Err StaleContext else Ok tt.

Record PermissionRecord := {
  perm_origin : string;
  perm_namespace : SelectedNamespace;
  generation : N;
  capabilities : gset PermissionCapability;
  approved_accounts : gset bytes;
  approved_names : gset bytes;
  created_at_unix : N;
  perm_expires_at_unix : option N;
}.

Definition permits (r : PermissionRecord) (capability : PermissionCapability) (now_unix : N) : bool :=
  bool_decide (capability ∈ capabilities r)
  && is_none_or (perm_expires_at_unix r) (fun expiry => now_unix <? expiry).

Record PermissionSnapshot := {
  snap_generation : N;
  snap_record : option PermissionRecord;
}.

Definition set_count (s : gset bytes) : N := N.of_nat (size s).
Definition set_is_empty {A} `{Countable A} (s : gset A) : bool := bool_decide (s = ∅).

Definition has_zero_account (accounts : gset bytes) : bool :=
  existsb all_zero (elements accounts).

(** The code not in this repository that the core calls. *)
Class ProviderEnv := {
  Value : Type;
  (** [params.as_object()?.get(key)?.as_str()] of [serde_json::Value]. *)
  value_get_str : Value -> string -> option string;
  (** [serde_json::from_slice::<ProviderRequest>]: method and parameters. *)
  decode_request : bytes -> option (string * Value);
  sha256 : bytes -> bytes;
}.

(** ** The persistent permission store, an interface *)

(** The trait [ProviderStateStore]. *)
Class ProviderStateStore (S : Type) := {
  pss_permission : S -> string -> result (option PermissionRecord) ProviderError;
  pss_permission_generation : S -> string -> result (option N) ProviderError;
  pss_save_permission : S -> string -> PermissionRecord -> S * result unit ProviderError;
  pss_revoke_permission : S -> string -> N -> N -> N -> S * result unit ProviderError;
}.

(** What the core relies on: a successful write is read back and moves the
    scope's generation to its successor; to every other scope the store answers
    as before or, when it cannot tell the scopes apart, with an error; a failed
    write changes no answer. *)
Class ProviderStateStoreLaws (S : Type) `{ProviderStateStore S} := {
  pss_save_ok : forall s scope r s',
    pss_save_permission s scope r = (s', Ok tt) ->
    pss_permission s' scope = Ok (Some r) /\
    pss_permission_generation s' scope = Ok (Some (generation r)) /\
    (forall g, pss_permission_generation s scope = Ok (Some g) -> generation r = g + 1);
  pss_save_other : forall s scope r s' scope',
    pss_save_permission s scope r = (s', Ok tt) -> scope' <> scope ->
    pss_permission s' scope' = pss_permission s scope' \/
    exists e, pss_permission s' scope' = Err e;
  pss_save_err : forall s scope r s' e scope',
    pss_save_permission s scope r = (s', Err e) ->
    pss_permission s' scope' = pss_permission s scope' /\
    pss_permission_generation s' scope' = pss_permission_generation s scope';
  pss_revoke_ok : forall s scope expected next now s',
    pss_revoke_permission s scope expected next now = (s', Ok tt) ->
    pss_permission s' scope = Ok None /\
    pss_permission_generation s' scope = Ok (Some next) /\
    next = expected + 1 /\
    pss_permission_generation s scope = Ok (Some expected);
  pss_revoke_other : forall s scope expected next now s' scope',
    pss_revoke_permission s scope expected next now = (s', Ok tt) -> scope' <> scope ->
    pss_permission s' scope' = pss_permission s scope' \/
    exists e, pss_permission s' scope' = Err e;
  pss_revoke_err : forall s scope expected next now s' e scope',
    pss_revoke_permission s scope expected next now = (s', Err e) ->
    pss_permission s' scope' = pss_permission s scope' /\
    pss_permission_generation s' scope' = pss_permission_generation s scope';
}.

(** *** The in-memory implementation *)

Record MemoryProviderState := mkMemory {
  mem_permissions : gmap string PermissionRecord;
  mem_permission_generations : gmap string N;
}.

Definition memory_default : MemoryProviderState := mkMemory ∅ ∅.

Definition memory_save_permission (m : MemoryProviderState) (scope : string)
    (r : PermissionRecord) : MemoryProviderState * result unit ProviderError :=
  let! m, expected :=
    (m, match mem_permission_generations m !! scope with
        | Some current => ok_or (u64_add current 1) StaleContext
        | None => Ok (generation r)
        end) in
  if negb (generation r =? expected) then (m, Err StaleContext) else
  (mkMemory (<[scope := r]> (mem_permissions m))
            (<[scope := generation r]> (mem_permission_generations m)), Ok tt).

Definition memory_revoke_permission (m : MemoryProviderState) (scope : string)
    (expected_generation next_generation now : N) :
    MemoryProviderState * result unit ProviderError :=
  if negb (bool_decide (mem_permission_generations m !! scope = Some expected_generation))
  then (m, Err StaleContext) else
  let! m, successor := (m, ok_or (u64_add expected_generation 1) StaleContext) in
  if negb (next_generation =? successor) then (m, Err StaleContext) else
  (mkMemory (delete scope (mem_permissions m))
            (<[scope := next_generation]> (mem_permission_generations m)), Ok tt).

#[global] Instance MemoryProviderState_store : ProviderStateStore MemoryProviderState := {|
  pss_permission m scope := Ok (mem_permissions m !! scope);
  pss_permission_generation m scope := Ok (mem_permission_generations m !! scope);
  pss_save_permission := memory_save_permission;
  pss_revoke_permission := memory_revoke_permission;
|}.

#[global] Instance MemoryProviderState_laws : ProviderStateStoreLaws MemoryProviderState.
Proof.
  split; simpl; unfold memory_save_permission, memory_revoke_permission.
  - intros s scope r s' H. run_in H; bool_prop; subst; simplify_map_eq;
      split_and!; try done; intros; simplify_eq; congruence.
  - intros s scope r s' scope' H Hne. run_in H; left; simpl; by simplify_map_eq.
  - intros s scope r s' e scope' H. by run_in H.
  - intros s scope expected next now s' H. run_in H; bool_prop; subst. simplify_map_eq.
    split_and!; congruence.
  - intros s scope expected next now s' scope' H Hne. run_in H; left; simpl; by simplify_map_eq.
  - intros s scope expected next now s' e scope' H. by run_in H.
Qed.

(** ** The policy core *)

Record RegisteredAuthority := { facts : HostAuthorityRegistration; revision : N }.

Record RateWindow := { starts_at_unix : N; rate_count : N }.

Section Core.
Context {env : ProviderEnv} {S : Type} {store : ProviderStateStore S}.

Record ApprovedCall := {
  call_origin : string;
  call_namespace : SelectedNamespace;
  call_method : Method.t;
  call_params : Value;
  call_request_nonce : N;
}.

Record PendingApproval := {
  ap_id : bytes;
  ap_kind : ApprovalKind;
  ap_call : ApprovedCall;
  ap_authority_handle : bytes;
  ap_authority_revision : N;
  ap_wallet_session : bytes;
  ap_permission_generation : N;
  ap_expires_at_unix : N;
}.

Inductive ProviderAction :=
| Execute (call : ApprovedCall)
| ApprovalRequired (approval : PendingApproval).

Record ProviderCore := mkCore {
  state : S;
  authorities : gmap bytes RegisteredAuthority;
  wallet_session : bytes;
  wallet_locked : bool;
  last_now_unix_ms : N;
  pending : gmap bytes PendingApproval;
  replay : gmap (bytes * N) N;
  rate : gmap (bytes * Method.t) RateWindow;
}.

Definition core_new (st : S) (session : bytes) (locked : bool) : ProviderCore :=
  mkCore st ∅ session locked 0 ∅ ∅ ∅.

(** Field assignments. *)
Definition set_state (c : ProviderCore) (st : S) : ProviderCore :=
  mkCore st (authorities c) (wallet_session c) (wallet_locked c)
         (last_now_unix_ms c) (pending c) (replay c) (rate c).
Definition set_authorities (c : ProviderCore) (a : gmap bytes RegisteredAuthority) : ProviderCore :=
  mkCore (state c) a (wallet_session c) (wallet_locked c)
         (last_now_unix_ms c) (pending c) (replay c) (rate c).
Definition set_last_now (c : ProviderCore) (now : N) : ProviderCore :=
  mkCore (state c) (authorities c) (wallet_session c) (wallet_locked c)
         now (pending c) (replay c) (rate c).
Definition set_pending (c : ProviderCore) (p : gmap bytes PendingApproval) : ProviderCore :=
  mkCore (state c) (authorities c) (wallet_session c) (wallet_locked c)
         (last_now_unix_ms c) p (replay c) (rate c).
Definition set_replay (c : ProviderCore) (r : gmap (bytes * N) N) : ProviderCore :=
  mkCore (state c) (authorities c) (wallet_session c) (wallet_locked c)
         (last_now_unix_ms c) (pending c) r (rate c).
Definition set_rate (c : ProviderCore) (r : gmap (bytes * Method.t) RateWindow) : ProviderCore :=
  mkCore (state c) (authorities c) (wallet_session c) (wallet_locked c)
         (last_now_unix_ms c) (pending c) (replay c) r.

Definition accept_time (c : ProviderCore) (now_unix_ms : N) :
    ProviderCore * result unit ProviderError :=
  if now_unix_ms <? last_now_unix_ms c then (c, Err ClockRollback)
  else (set_last_now c now_unix_ms, Ok tt).

Definition authority (c : ProviderCore) (handle : bytes) (authority_revision now_unix_ms : N) :
    result RegisteredAuthority ProviderError :=
  let* a := ok_or (authorities c !! handle) AuthorityNotFound in
  if (authority_revision =? 0) || negb (revision a =? authority_revision)
     || (valid_until_unix_ms (facts a) <=? now_unix_ms)
  then Err StaleContext else Ok a.

(** The three [retain] calls that drop what a handle had. *)
Definition forget_handle (c : ProviderCore) (handle : bytes) : ProviderCore :=
  let c := set_pending c
    (retain (fun _ a => negb (bool_decide (ap_authority_handle a = handle))) (pending c)) in
  let c := set_rate c (retain (fun k _ => negb (bool_decide (k.1 = handle))) (rate c)) in
  set_replay c (retain (fun k _ => negb (bool_decide (k.1 = handle))) (replay c)).

Definition expired_handles (c : ProviderCore) (now_unix_ms : N) : list bytes :=
  omap (fun '(handle, a) =>
          if valid_until_unix_ms (facts a) <=? now_unix_ms then Some handle else None)
       (map_to_list (authorities c)).

Definition prune_one (c : ProviderCore) (handle : bytes) : ProviderCore :=
  forget_handle (set_authorities c (delete handle (authorities c))) handle.

Definition prune_expired_authorities (c : ProviderCore) (now_unix_ms : N) : ProviderCore :=
  fold_left prune_one (expired_handles c now_unix_ms) c.

Definition register_authority (c : ProviderCore) (handle : bytes)
    (f : HostAuthorityRegistration) (now_unix_ms : N) : ProviderCore * result N ProviderError :=
  let! c, _ := accept_time c now_unix_ms in
  let! c, _ := (c, registration_validate f now_unix_ms) in
  let c := prune_expired_authorities c now_unix_ms in
  if is_some (authorities c !! handle) then (c, Err DuplicateAuthority) else
  if MAX_REGISTERED_AUTHORITIES <=? count (authorities c) then (c, Err AuthorityCapacity) else
  (set_authorities c (<[handle := {| facts := f; revision := 1 |}]> (authorities c)), Ok 1).

Definition replace_authority (c : ProviderCore) (handle : bytes) (expected_revision : N)
    (replacement : HostAuthorityRegistration) (now_unix_ms : N) :
    ProviderCore * result N ProviderError :=
  let! c, _ := accept_time c now_unix_ms in
  let! c, _ := (c, registration_validate replacement now_unix_ms) in
  let! c, current := (c, ok_or (authorities c !! handle) AuthorityNotFound) in
  if (expected_revision =? 0) || negb (revision current =? expected_revision)
     || (valid_until_unix_ms (facts current) <=? now_unix_ms)
     || negb (bool_decide (origin replacement = origin (facts current)))
     || negb (bool_decide (namespace replacement = namespace (facts current)))
     || negb (bool_decide (runtime_session replacement = runtime_session (facts current)))
     || (runtime_generation replacement <? runtime_generation (facts current))
     || (policy_generation replacement <? policy_generation (facts current))
     || (navigation_generation replacement <? navigation_generation (facts current))
  then (c, Err StaleContext) else
  let! c, next := (c, ok_or (u64_add (revision current) 1) StaleContext) in
  let c := set_authorities c
    (<[handle := {| facts := replacement; revision := next |}]> (authorities c)) in
  (forget_handle c handle, Ok next).

Definition revoke_authority (c : ProviderCore) (handle : bytes) (expected_revision : N) :
    ProviderCore * result unit ProviderError :=
  let! c, a := (c, ok_or (authorities c !! handle) AuthorityNotFound) in
  if (expected_revision =? 0) || negb (revision a =? expected_revision)
  then (c, Err StaleContext) else
  (prune_one c handle, Ok tt).

Definition set_wallet_state (c : ProviderCore) (session : bytes) (locked : bool) : ProviderCore :=
  let c := if negb (bool_decide (session = wallet_session c))
              || negb (Bool.eqb locked (wallet_locked c))
           then mkCore (state c) (authorities c) (wallet_session c) (wallet_locked c)
                       (last_now_unix_ms c) ∅ ∅ ∅
           else c in
  mkCore (state c) (authorities c) session locked (last_now_unix_ms c)
         (pending c) (replay c) (rate c).

Definition consume_nonce (c : ProviderCore) (handle : bytes) (nonce now_unix expires_at_unix : N) :
    ProviderCore * result unit ProviderError :=
  let c := set_replay c (retain (fun _ expiry => now_unix <? expiry) (replay c)) in
  if is_some (replay c !! (handle, nonce)) then (c, Err Replay) else
  if MAX_REPLAY_NONCES <=? count (replay c) then (c, Err RateLimited) else
  (set_replay c (<[(handle, nonce) := expires_at_unix]> (replay c)), Ok tt).

(** The window [entry(..).or_insert(..)] yields, restarted once it is over. *)
Definition current_window (c : ProviderCore) (handle : bytes) (method : Method.t)
    (now_unix : N) : RateWindow :=
  let fresh := {| starts_at_unix := now_unix; rate_count := 0 |} in
  let window := default fresh (rate c !! (handle, method)) in
  if RATE_WINDOW_SECONDS <=? saturating_sub now_unix (starts_at_unix window)
  then fresh else window.

(** The window is stored before it is tested. *)
Definition enforce_rate (c : ProviderCore) (handle : bytes) (method : Method.t) (now_unix : N) :
    ProviderCore * result unit ProviderError :=
  let window := current_window c handle method now_unix in
  if Method.rate_limit method <=? rate_count window
  then (set_rate c (<[(handle, method) := window]> (rate c)), Err RateLimited)
  else (set_rate c (<[(handle, method) :=
          {| starts_at_unix := starts_at_unix window; rate_count := rate_count window + 1 |}]>
          (rate c)), Ok tt).

(** *** Identity of a permission scope and of an approval *)

Definition namespace_bytes (ns : SelectedNamespace) : bytes :=
  match ns with NsHns => str_bytes "hns" | NsIcann => str_bytes "icann" end.

(** What [permission_scope] feeds to SHA-256. *)
Definition permission_scope_message (f : HostAuthorityRegistration) : bytes :=
  str_bytes "hns-provider-permission-scope/v2" ++ [Byte.x00]
  ++ namespace_bytes (namespace f) ++ [Byte.x00] ++ str_bytes (origin f).

Definition HEX : bytes := str_bytes "0123456789abcdef".
Definition hex_digit (i : N) : u8 := nth (N.to_nat i) HEX Byte.x00.
Definition hex_encode (bs : bytes) : bytes :=
  concat (map (fun b => [hex_digit (N.shiftr (Byte.to_N b) 4);
                         hex_digit (N.land (Byte.to_N b) 15)]) bs).

Definition permission_scope (f : HostAuthorityRegistration) : string :=
  "hns-provider-permission-v2:"
  +:+ (match namespace f with NsHns => "hns:" | NsIcann => "icann:" end)
  +:+ String.string_of_list_byte (hex_encode (sha256 (permission_scope_message f))).

(** What [approval_id] feeds to SHA-256. *)
Definition approval_id_message (handle : bytes) (authority_revision : N) (session : bytes)
    (request_nonce : N) (method : Method.t) (ns : SelectedNamespace) (o : string) : bytes :=
  str_bytes "hns-provider-approval/v2" ++ handle ++ to_be_bytes 8 authority_revision
  ++ session ++ to_be_bytes 8 request_nonce
  ++ [match ns with NsHns => Byte.x00 | NsIcann => Byte.x01 end]
  ++ to_be_bytes 8 (str_len o) ++ str_bytes o ++ str_bytes (Method.wire_name method).

Definition approval_id (handle : bytes) (authority_revision : N) (session : bytes)
    (request_nonce : N) (method : Method.t) (ns : SelectedNamespace) (o : string) : bytes :=
  take 16 (sha256 (approval_id_message handle authority_revision session request_nonce
                                       method ns o)).

(** The shape every stored permission must have under its authority. *)
Definition validate_permission_identity (p : option PermissionRecord)
    (f : HostAuthorityRegistration) (now_unix : N) :
    result (option PermissionRecord) ProviderError :=
  match p with
  | None => Ok None
  | Some p =>
      if negb (bool_decide (perm_origin p = origin f))
         || negb (bool_decide (perm_namespace p = namespace f))
         || (generation p =? 0)
         || set_is_empty (capabilities p)
         || (MAX_APPROVED_ACCOUNTS <? set_count (approved_accounts p))
         || (MAX_APPROVED_NAMES <? set_count (approved_names p))
         || has_zero_account (approved_accounts p)
         || Bool.eqb (bool_decide (Accounts ∈ capabilities p))
                     (set_is_empty (approved_accounts p))
         || (negb (set_is_empty (approved_accounts p))
             && negb (bool_decide (perm_namespace p = NsHns)))
         || (negb (set_is_empty (approved_names p))
             && (negb (bool_decide (Names ∈ capabilities p))
                 || negb (bool_decide (Accounts ∈ capabilities p))
                 || set_is_empty (approved_accounts p)
                 || negb (bool_decide (perm_namespace p = NsHns))))
         || (now_unix <? created_at_unix p)
         || is_some_and (perm_expires_at_unix p) (fun expiry => expiry <=? created_at_unix p)
      then Err Persistence
      else if is_some_and (perm_expires_at_unix p) (fun expiry => expiry <=? now_unix)
      then Ok None else Ok (Some p)
  end.

Definition is_asset_method (m : Method.t) : bool :=
  match m with
  | Method.AssetGetAccount | Method.AssetGetBalance | Method.AssetGetTransactions
  | Method.AssetGetReceiveTarget | Method.AssetSend => true
  | _ => false
  end.

Definition validate_module_params (method : Method.t) (params : Value) :
    result unit ProviderError :=
  if negb (is_asset_method method) then Ok tt else
  let* module := ok_or (value_get_str params "module") InvalidParams in
  if bool_decide (module = "bitcoin"%string) || bool_decide (module = "ethereum"%string)
  then Ok tt else Err InvalidParams.

Definition request_decode (input : bytes) : result (string * Value) ProviderError :=
  if (len input =? 0) || (MAX_PROVIDER_REQUEST_BYTES <? len input)
  then Err RequestTooLarge else
  let* request := ok_or (decode_request input) InvalidParams in
  if bool_decide (request.1 = EmptyString) || (MAX_METHOD_BYTES <? str_len request.1)
  then Err MethodNotFound else Ok request.

(** The permission test [request] and [approve] share; [denied] is the error
    each of them reports. *)
Definition check_permission (c : ProviderCore) (f : HostAuthorityRegistration)
    (method : Method.t) (permission_generation now_unix : N) (denied : ProviderError) :
    result unit ProviderError :=
  match Method.permission method with
  | None => Ok tt
  | Some required =>
      let* stored := pss_permission (state c) (permission_scope f) in
      let* valid := validate_permission_identity stored f now_unix in
      let* permission := ok_or valid denied in
      if negb (generation permission =? permission_generation)
         || negb (permits permission required now_unix)
      then Err denied else Ok tt
  end.

Definition current_generation (c : ProviderCore) (f : HostAuthorityRegistration) :
    result N ProviderError :=
  let* g := pss_permission_generation (state c) (permission_scope f) in
  Ok (default 0 g).

(** *** Requests *)

Definition request (c : ProviderCore) (handle : bytes)
    (authority_revision request_nonce now_unix_ms : N) (request_bytes : bytes) :
    ProviderCore * result ProviderAction ProviderError :=
  let! c, _ := accept_time c now_unix_ms in
  let! c, req := (c, request_decode request_bytes) in
  let! c, a := (c, authority c handle authority_revision now_unix_ms) in
  if request_nonce =? 0 then (c, Err Replay) else
  let! c, method := (c, Method.parse req.1) in
  if Method.requires_hns_namespace method && negb (bool_decide (namespace (facts a) = NsHns))
  then (c, Err Unauthorized) else
  let! c, _ := (c, validate_module_params method req.2) in
  let now_unix := now_unix_ms / 1000 in
  let! c, _ := enforce_rate c handle method now_unix in
  let! c, deadline :=
    (c, ok_or (u64_add now_unix_ms (APPROVAL_LIFETIME_SECONDS * 1000)) StaleContext) in
  let expires_at_unix := deadline / 1000 in
  let! c, _ := consume_nonce c handle request_nonce now_unix expires_at_unix in
  if wallet_locked c
     && negb (bool_decide (method = Method.WalletGetStatus)
              || bool_decide (method = Method.WalletGetCapabilities))
  then (c, Err WalletLocked) else
  let! c, permission_generation := (c, current_generation c (facts a)) in
  let! c, _ :=
    (c, check_permission c (facts a) method permission_generation now_unix Unauthorized) in
  let call := {| call_origin := origin (facts a); call_namespace := namespace (facts a);
                 call_method := method; call_params := req.2;
                 call_request_nonce := request_nonce |} in
  match Method.approval method with
  | None => (c, Ok (Execute call))
  | Some kind =>
      let c := set_pending c (retain (fun _ p => now_unix <? ap_expires_at_unix p) (pending c)) in
      if MAX_PENDING_APPROVALS <=? count (pending c) then (c, Err RateLimited) else
      let approval := {|
        ap_id := approval_id handle authority_revision (wallet_session c) request_nonce
                             method (namespace (facts a)) (origin (facts a));
        ap_kind := kind; ap_call := call; ap_authority_handle := handle;
        ap_authority_revision := authority_revision;
        ap_wallet_session := wallet_session c;
        ap_permission_generation := permission_generation;
        ap_expires_at_unix := expires_at_unix |} in
      (set_pending c (<[ap_id approval := approval]> (pending c)),
       Ok (ApprovalRequired approval))
  end.

(** The staleness test [approve] and [reject] share. *)
Definition approval_is_stale (c : ProviderCore) (p : PendingApproval) (a : RegisteredAuthority)
    (handle : bytes) (authority_revision now_unix_ms permission_generation : N) : bool :=
  (ap_expires_at_unix p <=? now_unix_ms / 1000)
  || negb (bool_decide (call_origin (ap_call p) = origin (facts a)))
  || negb (bool_decide (call_namespace (ap_call p) = namespace (facts a)))
  || negb (bool_decide (ap_authority_handle p = handle))
  || negb (ap_authority_revision p =? authority_revision)
  || negb (bool_decide (ap_wallet_session p = wallet_session c))
  || negb (ap_permission_generation p =? permission_generation).

Definition approve (c : ProviderCore) (handle : bytes) (authority_revision : N) (id : bytes)
    (now_unix_ms : N) : ProviderCore * result ApprovedCall ProviderError :=
  let! c, _ := accept_time c now_unix_ms in
  let! c, a := (c, authority c handle authority_revision now_unix_ms) in
  let! c, p := (c, ok_or (pending c !! id) StaleApproval) in
  let now_unix := now_unix_ms / 1000 in
  let! c, permission_generation := (c, current_generation c (facts a)) in
  if approval_is_stale c p a handle authority_revision now_unix_ms permission_generation
  then (c, Err StaleApproval) else
  let! c, _ := (c, check_permission c (facts a) (call_method (ap_call p))
                                    permission_generation now_unix StaleApproval) in
  (set_pending c (delete id (pending c)), Ok (ap_call p)).

Definition reject (c : ProviderCore) (handle : bytes) (authority_revision : N) (id : bytes)
    (now_unix_ms : N) : ProviderCore * result unit ProviderError :=
  let! c, _ := accept_time c now_unix_ms in
  let! c, a := (c, authority c handle authority_revision now_unix_ms) in
  let! c, p := (c, ok_or (pending c !! id) StaleApproval) in
  let! c, permission_generation := (c, current_generation c (facts a)) in
  if approval_is_stale c p a handle authority_revision now_unix_ms permission_generation
  then (c, Err StaleApproval) else
  (set_pending c (delete id (pending c)), Ok tt).

(** *** Permissions *)

Definition permission_snapshot (c : ProviderCore) (handle : bytes)
    (authority_revision now_unix_ms : N) :
    ProviderCore * result PermissionSnapshot ProviderError :=
  let! c, _ := accept_time c now_unix_ms in
  let! c, a := (c, authority c handle authority_revision now_unix_ms) in
  let! c, g := (c, current_generation c (facts a)) in
  let! c, stored := (c, pss_permission (state c) (permission_scope (facts a))) in
  if is_some_and stored (fun p => negb (generation p =? g)) then (c, Err Persistence) else
  let! c, record := (c, validate_permission_identity stored (facts a) (now_unix_ms / 1000)) in
  (c, Ok {| snap_generation := g; snap_record := record |}).

Definition permission (c : ProviderCore) (handle : bytes)
    (authority_revision now_unix_ms : N) :
    ProviderCore * result (option PermissionRecord) ProviderError :=
  let! c, snapshot := permission_snapshot c handle authority_revision now_unix_ms in
  (c, Ok (snap_record snapshot)).

(** [pending.retain(..)] after a permission change. *)
Definition forget_scope (c : ProviderCore) (f : HostAuthorityRegistration) : ProviderCore :=
  set_pending c (retain (fun _ p => negb (bool_decide (call_origin (ap_call p) = origin f))
                                    || negb (bool_decide (call_namespace (ap_call p) = namespace f)))
                        (pending c)).

Definition grant_scoped_permissions_inner (c : ProviderCore) (handle : bytes)
    (authority_revision : N) (expected_generation : option N)
    (caps : gset PermissionCapability) (accounts names : gset bytes)
    (now_unix_ms : N) (expires_at_unix : option N) :
    ProviderCore * result PermissionRecord ProviderError :=
  let! c, _ := accept_time c now_unix_ms in
  let now_unix := now_unix_ms / 1000 in
  let! c, a := (c, authority c handle authority_revision now_unix_ms) in
  let binds_accounts := negb (set_is_empty accounts) in
  let is_hns := bool_decide (namespace (facts a) = NsHns) in
  if set_is_empty caps
     || (MAX_APPROVED_ACCOUNTS <? set_count accounts)
     || (MAX_APPROVED_NAMES <? set_count names)
     || has_zero_account accounts
     || negb (Bool.eqb (bool_decide (Accounts ∈ caps)) binds_accounts)
     || (binds_accounts && negb is_hns)
     || (negb (set_is_empty names)
         && (negb (bool_decide (Names ∈ caps)) || negb (bool_decide (Accounts ∈ caps))
             || set_is_empty accounts || negb is_hns))
     || is_some_and expires_at_unix (fun expiry => expiry <=? now_unix)
  then (c, Err InvalidPermission) else
  let! c, current := (c, current_generation c (facts a)) in
  if is_some_and expected_generation (fun expected => negb (expected =? current))
  then (c, Err StaleApproval) else
  let! c, next := (c, ok_or (u64_add current 1) StaleContext) in
  let record := {| perm_origin := origin (facts a); perm_namespace := namespace (facts a);
                   generation := next; capabilities := caps; approved_accounts := accounts;
                   approved_names := names; created_at_unix := now_unix;
                   perm_expires_at_unix := expires_at_unix |} in
  let '(st, saved) := pss_save_permission (state c) (permission_scope (facts a)) record in
  let! c, _ := (set_state c st, saved) in
  (forget_scope c (facts a), Ok record).

Definition grant_scoped_permissions (c : ProviderCore) (handle : bytes)
    (authority_revision : N) (caps : gset PermissionCapability) (accounts names : gset bytes)
    (now_unix_ms : N) (expires_at_unix : option N) :=
  grant_scoped_permissions_inner c handle authority_revision None caps accounts names
                                 now_unix_ms expires_at_unix.

Definition grant_scoped_permissions_at_generation (c : ProviderCore) (handle : bytes)
    (authority_revision expected_generation : N) (caps : gset PermissionCapability)
    (accounts names : gset bytes) (now_unix_ms : N) (expires_at_unix : option N) :=
  grant_scoped_permissions_inner c handle authority_revision (Some expected_generation)
                                 caps accounts names now_unix_ms expires_at_unix.

Definition grant_permissions (c : ProviderCore) (handle : bytes) (authority_revision : N)
    (caps : gset PermissionCapability) (names : gset bytes) (now_unix_ms : N)
    (expires_at_unix : option N) :=
  grant_scoped_permissions c handle authority_revision caps ∅ names now_unix_ms expires_at_unix.

Definition revoke_permissions (c : ProviderCore) (handle : bytes)
    (authority_revision now_unix_ms : N) : ProviderCore * result N ProviderError :=
  let! c, _ := accept_time c now_unix_ms in
  let now_unix := now_unix_ms / 1000 in
  let! c, a := (c, authority c handle authority_revision now_unix_ms) in
  let scope := permission_scope (facts a) in
  let! c, g := (c, pss_permission_generation (state c) scope) in
  let! c, expected := (c, ok_or g InvalidPermission) in
  let! c, next := (c, ok_or (u64_add expected 1) StaleContext) in
  let '(st, revoked) := pss_revoke_permission (state c) scope expected next now_unix in
  let! c, _ := (set_state c st, revoked) in
  (forget_scope c (facts a), Ok next).
End Core.

Arguments ProviderCore {env} S.
Arguments core_new {env S}.
