(* ===== verification/ProviderProofs.v ===== *)
(** * The provider core: invariant, authorisation, replay and revocation

    The core's public methods as one operation type, the invariant every
    sequence of operations keeps, and the guarantees of
    [crates/hns-wallet-provider/src/lib.rs] proved from it.  The store behind
    the core is any instance of [ProviderStateStore]; theorems that need its
    write behaviour take [ProviderStateStoreLaws]. *)

From Stdlib Require Import Strings.Byte.
From S2P Require Import Prelude Types Provider.

Section Operations.
Context {env : ProviderEnv} {S : Type} {store : ProviderStateStore S}.

Implicit Types (c : ProviderCore S) (h : bytes).

(** The public methods with their arguments. *)
Inductive op :=
| OpRegister (handle : bytes) (f : HostAuthorityRegistration) (now : N)
| OpReplace (handle : bytes) (expected : N) (f : HostAuthorityRegistration) (now : N)
| OpRevoke (handle : bytes) (expected : N)
| OpSetWallet (session : bytes) (locked : bool)
| OpRequest (handle : bytes) (revision nonce now : N) (input : bytes)
| OpApprove (handle : bytes) (revision : N) (id : bytes) (now : N)
| OpReject (handle : bytes) (revision : N) (id : bytes) (now : N)
| OpSnapshot (handle : bytes) (revision now : N)
| OpGrant (handle : bytes) (revision : N) (expected : option N)
    (caps : gset PermissionCapability) (accounts names : gset bytes)
    (now : N) (expires : option N)
| OpRevokePermissions (handle : bytes) (revision now : N).

Inductive output :=
| OutRevision (r : result N ProviderError)
| OutUnit (r : result unit ProviderError)
| OutAction (r : result ProviderAction ProviderError)
| OutCall (r : result ApprovedCall ProviderError)
| OutSnapshot (r : result PermissionSnapshot ProviderError)
| OutRecord (r : result PermissionRecord ProviderError).

Definition exec (c : ProviderCore S) (o : op) : ProviderCore S * output :=
  match o with
  | OpRegister h f now => let '(c, r) := register_authority c h f now in (c, OutRevision r)
  | OpReplace h e f now => let '(c, r) := replace_authority c h e f now in (c, OutRevision r)
  | OpRevoke h e => let '(c, r) := revoke_authority c h e in (c, OutUnit r)
  | OpSetWallet s l => (set_wallet_state c s l, OutUnit (Ok tt))
  | OpRequest h r n now input => let '(c, r) := request c h r n now input in (c, OutAction r)
  | OpApprove h r id now => let '(c, r) := approve c h r id now in (c, OutCall r)
  | OpReject h r id now => let '(c, r) := reject c h r id now in (c, OutUnit r)
  | OpSnapshot h r now => let '(c, r) := permission_snapshot c h r now in (c, OutSnapshot r)
  | OpGrant h r e caps accs names now ex =>
      let '(c, r) := grant_scoped_permissions_inner c h r e caps accs names now ex in
      (c, OutRecord r)
  | OpRevokePermissions h r now =>
      let '(c, r) := revoke_permissions c h r now in (c, OutRevision r)
  end.

Fixpoint run (c : ProviderCore S) (ops : list op) : ProviderCore S * list output :=
  match ops with
  | [] => (c, [])
  | o :: rest =>
      let '(c, out) := exec c o in
      let '(c, outs) := run c rest in (c, out :: outs)
  end.

(** ** The invariant *)

(** A pending approval was issued under the wallet session in force, to an
    authority that is still registered at the revision it was issued under. *)
Record pending_ok (c : ProviderCore S) (id : bytes) (p : PendingApproval) : Prop := {
  pok_id : id = ap_id p;
  pok_session : ap_wallet_session p = wallet_session c;
  pok_unlocked : wallet_locked c = false;
  pok_kind : Method.approval (call_method (ap_call p)) = Some (ap_kind p);
  pok_hns : Method.requires_hns_namespace (call_method (ap_call p)) = true ->
            call_namespace (ap_call p) = NsHns;
  pok_authority : exists a, authorities c !! ap_authority_handle p = Some a /\
    revision a = ap_authority_revision p /\
    origin (facts a) = call_origin (ap_call p) /\
    namespace (facts a) = call_namespace (ap_call p);
}.

Record core_inv (c : ProviderCore S) : Prop := {
  inv_authorities : count (authorities c) <= MAX_REGISTERED_AUTHORITIES;
  inv_pending_cap : count (pending c) <= MAX_PENDING_APPROVALS;
  inv_replay_cap : count (replay c) <= MAX_REPLAY_NONCES;
  inv_pending : forall id p, pending c !! id = Some p -> pending_ok c id p;
  inv_replay : forall h n e, replay c !! (h, n) = Some e -> is_Some (authorities c !! h);
  inv_rate : forall h m w, rate c !! (h, m) = Some w ->
    rate_count w <= Method.rate_limit m /\ is_Some (authorities c !! h);
}.

(** ** Lemmas on the building blocks *)

Lemma accept_time_ok c now c' u :
  accept_time c now = (c', Ok u) -> c' = set_last_now c now /\ last_now_unix_ms c <= now.
Proof. unfold accept_time. intros H. run_in H. bool_prop. done. Qed.

Lemma accept_time_err c now c' e : accept_time c now = (c', Err e) -> c' = c.
Proof. unfold accept_time. intros H. by run_in H. Qed.

Lemma authority_ok c h r now a :
  authority c h r now = Ok a ->
  authorities c !! h = Some a /\ revision a = r /\ r <> 0 /\
  now < valid_until_unix_ms (facts a).
Proof. unfold authority. intros H. run_in H. bool_prop. auto. Qed.

(** The fields [forget_handle] and [prune_one] leave alone. *)
Lemma forget_handle_fields c h :
  let c' := forget_handle c h in
  state c' = state c /\ authorities c' = authorities c /\
  wallet_session c' = wallet_session c /\ wallet_locked c' = wallet_locked c /\
  last_now_unix_ms c' = last_now_unix_ms c.
Proof. done. Qed.

Lemma forget_handle_pending c h id p :
  pending (forget_handle c h) !! id = Some p <->
  pending c !! id = Some p /\ ap_authority_handle p <> h.
Proof.
  unfold forget_handle; simpl. rewrite lookup_retain_Some.
  by rewrite negb_true_iff, bool_decide_eq_false.
Qed.

Lemma forget_handle_replay c h k e :
  replay (forget_handle c h) !! k = Some e <-> replay c !! k = Some e /\ k.1 <> h.
Proof.
  unfold forget_handle; simpl. rewrite lookup_retain_Some.
  by rewrite negb_true_iff, bool_decide_eq_false.
Qed.

Lemma forget_handle_rate c h k w :
  rate (forget_handle c h) !! k = Some w <-> rate c !! k = Some w /\ k.1 <> h.
Proof.
  unfold forget_handle; simpl. rewrite lookup_retain_Some.
  by rewrite negb_true_iff, bool_decide_eq_false.
Qed.

(** ** Preservation *)

Lemma core_new_inv st session locked : core_inv (core_new st session locked).
Proof. split; simpl; try (intros; simplify_map_eq); done. Qed.

(** The invariant does not mention the clock or the store. *)
Lemma set_last_now_inv c now : core_inv c -> core_inv (set_last_now c now).
Proof. intros []. split; simpl; auto. intros id p Hp. by destruct (inv_pending0 id p Hp). Qed.

Lemma set_state_inv c st : core_inv c -> core_inv (set_state c st).
Proof. intros []. split; simpl; auto. intros id p Hp. by destruct (inv_pending0 id p Hp). Qed.

(** Dropping pending approvals and nonces keeps it. *)
Lemma set_pending_inv c p : p ⊆ pending c -> core_inv c -> core_inv (set_pending c p).
Proof.
  intros Hsub []. split; simpl; auto.
  - pose proof (count_subseteq _ _ Hsub). lia.
  - intros id q Hq. by destruct (inv_pending0 id q (lookup_weaken _ _ _ _ Hq Hsub)).
Qed.

(** Writing an authority entry [h] and then forgetting [h] keeps it. *)
Lemma reset_handle_inv c h au :
  count au <= MAX_REGISTERED_AUTHORITIES ->
  (forall h', h' <> h -> au !! h' = authorities c !! h') ->
  core_inv c -> core_inv (forget_handle (set_authorities c au) h).
Proof.
  intros Hcount Hother []. split.
  - done.
  - etrans; [apply count_retain|]. done.
  - etrans; [apply count_retain|]. done.
  - intros id p [Hp Hne]%forget_handle_pending. destruct (inv_pending0 id p Hp).
    split; simpl; auto. by rewrite Hother.
  - intros h' n e [Hr Hne]%forget_handle_replay. simpl. rewrite Hother by done. eauto.
  - intros h' m w [Hr Hne]%forget_handle_rate. simpl. rewrite Hother by done. eauto.
Qed.

Lemma prune_one_inv c h : core_inv c -> core_inv (prune_one c h).
Proof.
  intros Hc. apply reset_handle_inv; [|by intros; rewrite lookup_delete_ne|done].
  etrans; [apply count_subseteq, delete_subseteq|]. apply Hc.
Qed.

Lemma fold_prune_inv hs c : core_inv c -> core_inv (fold_left prune_one hs c).
Proof. revert c; induction hs; simpl; auto using prune_one_inv. Qed.

(** Insertion of a fresh authority. *)
Lemma insert_authority_inv c h a :
  authorities c !! h = None -> count (authorities c) < MAX_REGISTERED_AUTHORITIES ->
  core_inv c -> core_inv (set_authorities c (<[h := a]> (authorities c))).
Proof.
  intros Hnone Hlt []. split; simpl; auto.
  - pose proof (count_insert_le (authorities c) h a). lia.
  - intros id p Hp. destruct (inv_pending0 id p Hp) as [? ? ? ? ? (a' & Ha & ?)].
    split; simpl; auto. exists a'. by rewrite lookup_insert_ne by congruence.
  - intros h' n e Hr. destruct (inv_replay0 _ _ _ Hr) as [a' Ha].
    rewrite lookup_insert_ne by congruence. eauto.
  - intros h' m w Hr. destruct (inv_rate0 _ _ _ Hr) as [? [a' Ha]].
    rewrite lookup_insert_ne by congruence. eauto.
Qed.

Lemma consume_nonce_inv c h n now e c' r :
  is_Some (authorities c !! h) -> consume_nonce c h n now e = (c', r) ->
  core_inv c -> core_inv c'.
Proof.
  intros Ha H []. unfold consume_nonce in H.
  pose proof (count_retain (fun _ expiry => now <? expiry) (replay c)) as Hcount.
  assert (Hold : forall h' n' e', retain (fun _ expiry => now <? expiry) (replay c) !! (h', n') = Some e' ->
            is_Some (authorities c !! h')) by (intros h' n' e' [? _]%lookup_retain_Some; eauto).
  run_in H; bool_prop; (split; simpl in *; auto; try lia;
    try (intros id p Hp; by destruct (inv_pending0 id p Hp))).
  - etrans; [apply count_insert_le|]. lia.
  - intros h' n' e'. destruct (decide ((h, n) = (h', n'))) as [[= <- <-]|Hne]; [done|].
    rewrite lookup_insert_ne by done. apply Hold.
Qed.

Lemma current_window_bound c h m now :
  (forall w, rate c !! (h, m) = Some w -> rate_count w <= Method.rate_limit m) ->
  rate_count (current_window c h m now) <= Method.rate_limit m.
Proof.
  intros Hw. unfold current_window. case_match; [apply N.le_0_l|].
  destruct (rate c !! (h, m)); [by apply Hw|apply N.le_0_l].
Qed.

Lemma enforce_rate_inv c h m now c' r :
  is_Some (authorities c !! h) -> enforce_rate c h m now = (c', r) ->
  core_inv c -> core_inv c'.
Proof.
  intros Ha H []. unfold enforce_rate in H.
  assert (Hw : rate_count (current_window c h m now) <= Method.rate_limit m)
    by (apply current_window_bound; intros; by eapply inv_rate0).
  run_in H; bool_prop; (split; simpl; auto;
    [intros id p Hp; by destruct (inv_pending0 id p Hp)|]);
    intros h' m' w'; destruct (decide ((h, m) = (h', m'))) as [[= <- <-]|Hne];
    rewrite ?lookup_insert_eq, ?lookup_insert_ne by done; intros; simplify_eq; simpl;
    eauto; split; auto; lia.
Qed.

(** A request's new approval. *)
Lemma insert_pending_inv c p :
  count (pending c) < MAX_PENDING_APPROVALS -> pending_ok c (ap_id p) p ->
  core_inv c -> core_inv (set_pending c (<[ap_id p := p]> (pending c))).
Proof.
  intros Hlt Hp []. split; simpl; auto.
  - pose proof (count_insert_le (pending c) (ap_id p) p). lia.
  - intros id q. destruct (decide (ap_id p = id)) as [<-|Hne].
    + rewrite lookup_insert_eq. intros; simplify_eq. by destruct Hp.
    + rewrite lookup_insert_ne by done. intros Hq. by destruct (inv_pending0 id q Hq).
Qed.

Lemma set_wallet_state_inv c session locked :
  core_inv c -> core_inv (set_wallet_state c session locked).
Proof.
  intros []. unfold set_wallet_state. case_match eqn:E.
  - split; simpl; auto; try done; intros; simplify_map_eq.
  - bool_prop. apply Bool.eqb_prop in H0. subst. split; simpl; auto.
    intros id p Hp. by destruct (inv_pending0 id p Hp).
Qed.

Lemma enforce_rate_frame c h m now c' r :
  enforce_rate c h m now = (c', r) -> c' = set_rate c (rate c').
Proof. unfold enforce_rate. intros H. by run_in H. Qed.

Lemma consume_nonce_frame c h n now e c' r :
  consume_nonce c h n now e = (c', r) -> c' = set_replay c (replay c').
Proof. unfold consume_nonce. intros H. by run_in H. Qed.

(** Every outcome of a request after the clock and the authority test, up to
    the permission checks: the core differs by its rate and replay tables. *)
Lemma rate_and_nonce_inv c h m now n e c1 r1 c2 r2 :
  is_Some (authorities c !! h) -> core_inv c ->
  enforce_rate c h m now = (c1, r1) -> consume_nonce c1 h n now e = (c2, r2) ->
  core_inv c2 /\ c2 = set_replay (set_rate c (rate c1)) (replay c2).
Proof.
  intros Ha Hc H1 H2.
  pose proof (enforce_rate_inv _ _ _ _ _ _ Ha H1 Hc) as Hc1.
  pose proof (enforce_rate_frame _ _ _ _ _ _ H1) as F1. rewrite F1 in H2.
  pose proof (consume_nonce_frame _ _ _ _ _ _ _ H2) as F2. split; [|done].
  eapply consume_nonce_inv; [|exact H2|by rewrite <- F1]. done.
Qed.

(** The first step of every timed operation. *)
Ltac accept_clock :=
  match goal with
  | Hc : core_inv ?c |- context [accept_time ?c ?now] =>
      let Ht := fresh "Ht" in
      destruct (accept_time c now) as [? [[]|?]] eqn:Ht;
      [apply accept_time_ok in Ht as [-> _]; apply (set_last_now_inv _ now) in Hc
      |apply accept_time_err in Ht as ->; exact Hc]
  end.

Lemma register_inv c h f now : core_inv c -> core_inv (register_authority c h f now).1.
Proof.
  intros Hc. unfold register_authority.
  accept_clock.
  destruct (registration_validate f now); [|done].
  apply (fold_prune_inv (expired_handles (set_last_now c now) now)) in Hc.
  fold (prune_expired_authorities (set_last_now c now) now) in Hc.
  case_match eqn:E1; [done|]. case_match eqn:E2; [done|]. bool_prop.
  by apply insert_authority_inv.
Qed.

Lemma replace_inv c h e f now : core_inv c -> core_inv (replace_authority c h e f now).1.
Proof.
  intros Hc. unfold replace_authority.
  accept_clock.
  destruct (registration_validate f now); [|done].
  destruct (ok_or _ AuthorityNotFound) as [cur|] eqn:Ha; [|done]. case_match; [done|].
  destruct (ok_or (u64_add _ _) _); [|done]. bool_prop.
  apply reset_handle_inv; [|by intros; rewrite lookup_insert_ne|done].
  unfold count. rewrite map_size_insert_Some by done. apply Hc.
Qed.

Lemma revoke_inv c h e : core_inv c -> core_inv (revoke_authority c h e).1.
Proof.
  intros Hc. unfold revoke_authority. destruct (ok_or _ _); [|done].
  case_match; [done|]. by apply prune_one_inv.
Qed.

(** The operations that start with the clock and then touch only the pending
    approvals and the store. *)
Lemma approve_inv c h r id now : core_inv c -> core_inv (approve c h r id now).1.
Proof.
  intros Hc. unfold approve.
  accept_clock.
  repeat (case_match; try done). apply set_pending_inv; [apply delete_subseteq|].
  by simplify_eq.
Qed.

Lemma reject_inv c h r id now : core_inv c -> core_inv (reject c h r id now).1.
Proof.
  intros Hc. unfold reject.
  accept_clock.
  repeat (case_match; try done). apply set_pending_inv; [apply delete_subseteq|].
  by simplify_eq.
Qed.

Lemma snapshot_inv c h r now : core_inv c -> core_inv (permission_snapshot c h r now).1.
Proof.
  intros Hc. unfold permission_snapshot.
  accept_clock.
  repeat (case_match; simplify_eq; try done).
Qed.

Lemma grant_inv c h r e caps accs names now ex :
  core_inv c -> core_inv (grant_scoped_permissions_inner c h r e caps accs names now ex).1.
Proof.
  intros Hc. unfold grant_scoped_permissions_inner.
  accept_clock.
  repeat (case_match; simplify_eq; try done); try by apply set_state_inv.
  apply set_pending_inv; [apply retain_subseteq|]. by apply set_state_inv.
Qed.

Lemma revoke_permissions_inv c h r now : core_inv c -> core_inv (revoke_permissions c h r now).1.
Proof.
  intros Hc. unfold revoke_permissions.
  accept_clock.
  repeat (case_match; simplify_eq; try done); try by apply set_state_inv.
  apply set_pending_inv; [apply retain_subseteq|]. by apply set_state_inv.
Qed.

(** ** The course of a request *)

(** The part of [request] up to the two tables it always updates. *)
Record admitted (c : ProviderCore S) h r n now input (a : RegisteredAuthority) (m : Method.t)
    (params : Value) (c3 : ProviderCore S) : Prop := {
  ad_clock : last_now_unix_ms c <= now;
  ad_authority : authorities c !! h = Some a;
  ad_revision : revision a = r /\ r <> 0;
  ad_live : now < valid_until_unix_ms (facts a);
  ad_nonce : n <> 0;
  ad_method : exists wire, decode_request input = Some (wire, params) /\ Method.parse wire = Ok m;
  ad_namespace : Method.requires_hns_namespace m = true -> namespace (facts a) = NsHns;
  ad_params : validate_module_params m params = Ok tt;
  ad_tables : exists c2 u2, enforce_rate (set_last_now c now) h m (now / 1000) = (c2, Ok u2) /\
    consume_nonce c2 h n (now / 1000) ((now + APPROVAL_LIFETIME_SECONDS * 1000) / 1000)
      = (c3, Ok tt);
}.

(** The tests that follow, all on the core [c3] reached there. *)
Record authorised (c3 : ProviderCore S) now (a : RegisteredAuthority) (m : Method.t) (g : N) :
    Prop := {
  au_unlocked : wallet_locked c3 = true ->
    m = Method.WalletGetStatus \/ m = Method.WalletGetCapabilities;
  au_generation : current_generation c3 (facts a) = Ok g;
  au_permission : check_permission c3 (facts a) m g (now / 1000) Unauthorized = Ok tt;
}.

Definition approval_of (c3 : ProviderCore S) h r n now (a : RegisteredAuthority) m kind call g :
    PendingApproval :=
  {| ap_id := approval_id h r (wallet_session c3) n m (namespace (facts a)) (origin (facts a));
     ap_kind := kind; ap_call := call; ap_authority_handle := h; ap_authority_revision := r;
     ap_wallet_session := wallet_session c3; ap_permission_generation := g;
     ap_expires_at_unix := (now + APPROVAL_LIFETIME_SECONDS * 1000) / 1000 |}.

Definition call_of (a : RegisteredAuthority) m params n : ApprovedCall :=
  {| call_origin := origin (facts a); call_namespace := namespace (facts a);
     call_method := m; call_params := params; call_request_nonce := n |}.

(** [pending.retain(..)] of a request. *)
Definition drop_expired (c3 : ProviderCore S) now : ProviderCore S :=
  set_pending c3 (retain (fun _ p => now / 1000 <? ap_expires_at_unix p) (pending c3)).

(** Every way a request can end, with the core it leaves. *)
Inductive request_case (c : ProviderCore S) h r n now input :
    ProviderCore S -> result ProviderAction ProviderError -> Prop :=
| RqClock : now < last_now_unix_ms c -> request_case c h r n now input c (Err ClockRollback)
| RqEarly e : last_now_unix_ms c <= now ->
    request_case c h r n now input (set_last_now c now) (Err e)
| RqRate a m c2 r2 e : last_now_unix_ms c <= now -> authorities c !! h = Some a ->
    enforce_rate (set_last_now c now) h m (now / 1000) = (c2, r2) ->
    request_case c h r n now input c2 (Err e)
| RqNonce a m c2 u2 c3 r3 x e : last_now_unix_ms c <= now -> authorities c !! h = Some a ->
    enforce_rate (set_last_now c now) h m (now / 1000) = (c2, Ok u2) ->
    consume_nonce c2 h n (now / 1000) x = (c3, r3) ->
    request_case c h r n now input c3 (Err e)
| RqExecute a m params c3 g : admitted c h r n now input a m params c3 ->
    authorised c3 now a m g -> Method.approval m = None ->
    request_case c h r n now input c3 (Ok (Execute (call_of a m params n)))
| RqFull a m params c3 : admitted c h r n now input a m params c3 ->
    request_case c h r n now input (drop_expired c3 now) (Err RateLimited)
| RqApproval a m params c3 g kind (p := approval_of c3 h r n now a m kind (call_of a m params n) g) :
    admitted c h r n now input a m params c3 -> authorised c3 now a m g ->
    Method.approval m = Some kind ->
    count (pending (drop_expired c3 now)) < MAX_PENDING_APPROVALS ->
    request_case c h r n now input
      (set_pending c3 (<[ap_id p := p]> (pending (drop_expired c3 now)))) (Ok (ApprovalRequired p)).

Lemma request_decode_ok input req :
  request_decode input = Ok req -> decode_request input = Some req.
Proof. unfold request_decode. intros H. run_in H. by bool_prop. Qed.

Lemma request_cases c h r n now input c' res :
  request c h r n now input = (c', res) -> request_case c h r n now input c' res.
Proof.
  unfold request. intros H.
  destruct (accept_time c now) as [c1 [[]|e]] eqn:Ht.
  2:{ unfold accept_time in Ht. run_in Ht. bool_prop. by constructor. }
  apply accept_time_ok in Ht as [-> Hclock].
  destruct (request_decode input) as [[wire params]|] eqn:Hd; [|simplify_eq; by constructor].
  apply request_decode_ok in Hd.
  destruct (authority _ h r now) as [a|] eqn:Ha; [|simplify_eq; by constructor].
  apply authority_ok in Ha as (Ha & Hr & Hr0 & Hl).
  destruct (n =? 0) eqn:Hn; [simplify_eq; by constructor|].
  destruct (Method.parse _) as [m|] eqn:Hm; [|simplify_eq; by constructor].
  destruct (_ && _) eqn:Hns; [simplify_eq; by constructor|].
  destruct (validate_module_params m _) as [[]|] eqn:Hp; [|simplify_eq; by constructor].
  destruct (enforce_rate _ h m _) as [c2 [u2|]] eqn:Hrate; [|simplify_eq; by econstructor].
  destruct (ok_or (u64_add now _) _) as [deadline|] eqn:Hdl; [|simplify_eq; by econstructor].
  bool_prop. subst deadline.
  destruct (consume_nonce _ h n _ _) as [c3 [[]|]] eqn:Hc; [|simplify_eq; by econstructor].
  assert (Had : admitted c h r n now input a m params c3).
  { split; eauto. intros E. rewrite E in Hns. simpl in Hns. by bool_prop. }
  destruct (wallet_locked c3 && _) eqn:Hlock; [simplify_eq; by econstructor|].
  destruct (current_generation c3 _) as [g|] eqn:Hg; [|simplify_eq; by econstructor].
  destruct (check_permission c3 _ m g _ _) as [[]|] eqn:Hperm; [|simplify_eq; by econstructor].
  assert (Hau : authorised c3 now a m g).
  { split; try done. intros Hw. rewrite Hw in Hlock. simpl in Hlock.
    apply negb_false_iff, orb_true_iff in Hlock as [?|?]; bool_prop; auto. }
  destruct (Method.approval m) as [kind|] eqn:Hap; [|simplify_eq; by econstructor].
  destruct (MAX_PENDING_APPROVALS <=? _) eqn:Hcap; simplify_eq.
  - by eapply RqFull.
  - bool_prop. exact (RqApproval c h _ n now input a m params c3 g kind Had Hau Hap Hcap).
Qed.

Lemma consume_nonce_ok c h n now e c' u :
  consume_nonce c h n now e = (c', Ok u) ->
  (forall e', replay c !! (h, n) = Some e' -> e' <= now) /\ replay c' !! (h, n) = Some e.
Proof.
  unfold consume_nonce. intros H. run_in H. bool_prop. simpl in *. split.
  - intros e' He'. match goal with E : retain _ _ !! _ = None |- _ =>
      apply lookup_retain_None in E as [?|(v & ? & Hv)] end; simplify_eq. by apply N.ltb_ge.
  - apply lookup_insert_eq.
Qed.

(** An unexpired nonce outlives [consume_nonce]. *)
Lemma consume_nonce_keeps c h n now e c' r k e' :
  consume_nonce c h n now e = (c', r) -> replay c !! k = Some e' -> now < e' ->
  replay c' !! k = Some e'.
Proof.
  unfold consume_nonce. intros H Hk Hlt.
  assert (Hr : retain (fun _ expiry => now <? expiry) (replay c) !! k = Some e')
    by (apply lookup_retain_Some; split; [done|by apply N.ltb_lt]).
  run_in H; simpl in *; bool_prop; try done.
  by rewrite lookup_insert_ne by congruence.
Qed.

(** What the core of an admitted request has in common with the one before. *)
Lemma admitted_frame c h r n now input a m params c3 :
  admitted c h r n now input a m params c3 ->
  exists rt, c3 = set_replay (set_rate (set_last_now c now) rt) (replay c3).
Proof.
  intros []. destruct ad_tables0 as (c2 & u2 & H1 & H2).
  apply enforce_rate_frame in H1. apply consume_nonce_frame in H2.
  exists (rate c2). by rewrite H2, H1 at 1.
Qed.

Lemma admitted_inv c h r n now input a m params c3 :
  admitted c h r n now input a m params c3 -> core_inv c -> core_inv c3.
Proof.
  intros [] Hc. destruct ad_tables0 as (c2 & u2 & H1 & H2).
  eapply rate_and_nonce_inv; [|by apply set_last_now_inv|exact H1|exact H2]. by exists a.
Qed.

Lemma request_inv c h r n now input : core_inv c -> core_inv (request c h r n now input).1.
Proof.
  intros Hc. destruct (request c h r n now input) as [c' res] eqn:Hreq. simpl.
  pose proof (set_last_now_inv c now Hc) as Hc1.
  apply request_cases in Hreq as [| |a m c2 r2 e _ Ha H1|a m c2 u2 c3 r3 x e _ Ha H1 H2| |
    |a m params c3 g kind p Had Hau Hap Hcap]; try done.
  - eapply enforce_rate_inv; [|done..]. by exists a.
  - eapply (rate_and_nonce_inv (set_last_now c now)); [|done..]. by exists a.
  - by eapply admitted_inv.
  - apply set_pending_inv; [apply retain_subseteq|]. by eapply admitted_inv.
  - pose proof (admitted_inv _ _ _ _ _ _ _ _ _ _ Had Hc) as Hc3.
    destruct (admitted_frame _ _ _ _ _ _ _ _ _ _ Had) as [rt F].
    eapply (set_pending_inv _ (pending (drop_expired c3 now))) in Hc3; [|apply retain_subseteq].
    apply (insert_pending_inv _ p) in Hc3; [exact Hc3|done|].
    split; try done.
    + simpl. destruct (wallet_locked c3) eqn:Hw; [|done].
      by destruct (au_unlocked _ _ _ _ _ Hau Hw) as [-> | ->].
    + apply Had.
    + exists a. rewrite F. split_and!; try done; apply Had.
Qed.

(** What the theorems read off an accepted request. *)
Record request_accepted (c : ProviderCore S) h r n now input c' action
    (a : RegisteredAuthority) (m : Method.t) (params : Value) (g : N) : Prop := {
  ra_admitted : exists c3, admitted c h r n now input a m params c3;
  ra_authorised : authorised c now a m g;
  ra_state : state c' = state c;
  ra_fresh : forall e, replay c !! (h, n) = Some e -> e <= now / 1000;
  ra_consumed : replay c' !! (h, n) = Some ((now + APPROVAL_LIFETIME_SECONDS * 1000) / 1000);
  ra_action :
    match Method.approval m with
    | None => action = Execute (call_of a m params n)
    | Some kind =>
        let p := approval_of c h r n now a m kind (call_of a m params n) g in
        action = ApprovalRequired p /\ pending c' !! ap_id p = Some p
    end;
}.

Lemma admitted_nonce c h r n now input a m params c3 :
  admitted c h r n now input a m params c3 ->
  (forall e, replay c !! (h, n) = Some e -> e <= now / 1000) /\
  replay c3 !! (h, n) = Some ((now + APPROVAL_LIFETIME_SECONDS * 1000) / 1000).
Proof.
  intros []. destruct ad_tables0 as (c2 & u2 & H1 & H2).
  apply enforce_rate_frame in H1. apply consume_nonce_ok in H2. by rewrite H1 in H2.
Qed.

Lemma request_ok c h r n now input c' action :
  request c h r n now input = (c', Ok action) ->
  exists a m params g, request_accepted c h r n now input c' action a m params g.
Proof.
  intros Hreq. apply request_cases in Hreq. inversion Hreq as
    [| | | |a m params c3 g Had Hau Hap| |a m params c3 g kind p Had Hau Hap Hcap]; subst;
    exists a, m, params, g;
    destruct (admitted_frame _ _ _ _ _ _ _ _ _ _ Had) as [rt F];
    destruct (admitted_nonce _ _ _ _ _ _ _ _ _ _ Had) as [Hf Hin].
  - split; eauto; [|by rewrite F|by rewrite Hap].
    destruct Hau. rewrite F in *. by split.
  - split; eauto; [|by rewrite F|rewrite Hap].
    + destruct Hau. rewrite F in *. by split.
    + assert (Hs : wallet_session c3 = wallet_session c) by (by rewrite F).
      unfold approval_of. rewrite <- Hs. split; [done|]. apply lookup_insert_eq.
Qed.


Lemma exec_inv c o : core_inv c -> core_inv (exec c o).1.
Proof.
  intros Hc. destruct o; simpl.
  all: match goal with |- context [let '(_, _) := ?f in _] =>
    assert (core_inv f.1) as H; [|by destruct f] | |- _ => idtac end.
  - by apply register_inv.
  - by apply replace_inv.
  - by apply revoke_inv.
  - by apply set_wallet_state_inv.
  - by apply request_inv.
  - by apply approve_inv.
  - by apply reject_inv.
  - by apply snapshot_inv.
  - by apply grant_inv.
  - by apply revoke_permissions_inv.
Qed.

Lemma run_inv ops c : core_inv c -> core_inv (run c ops).1.
Proof.
  revert c; induction ops as [|o ops IH]; intros c Hc; simpl; [done|].
  pose proof (exec_inv c o Hc). destruct (exec c o) as [c1 out]. simpl in *.
  pose proof (IH c1 H). by destruct (run c1 ops).
Qed.
(** ** Where pending approvals come from *)

Lemma approve_ok c h r id now c' call :
  approve c h r id now = (c', Ok call) ->
  exists p a g, pending c !! id = Some p /\ authorities c !! h = Some a /\ revision a = r /\
    ap_call p = call /\ ap_authority_handle p = h /\ ap_authority_revision p = r /\
    now / 1000 < ap_expires_at_unix p /\ ap_permission_generation p = g /\
    call_origin call = origin (facts a) /\ call_namespace call = namespace (facts a) /\
    current_generation c (facts a) = Ok g /\
    check_permission c (facts a) (call_method call) g (now / 1000) StaleApproval = Ok tt /\
    now < valid_until_unix_ms (facts a) /\
    c' = set_pending (set_last_now c now) (delete id (pending c)).
Proof.
  unfold approve. intros H.
  destruct (accept_time c now) as [? [[]|?]] eqn:Ht; [|done].
  apply accept_time_ok in Ht as [-> _].
  destruct (authority _ h r now) as [a|] eqn:Ha; [|done].
  apply authority_ok in Ha as (Ha & Hr & _ & Hl).
  destruct (ok_or _ StaleApproval) as [p|] eqn:Hp; [|done]. bool_prop.
  destruct (current_generation _ _) as [g|] eqn:Hg; [|done].
  destruct (approval_is_stale _ _ _ _ _ _ _) eqn:Hs; [done|].
  destruct (check_permission _ _ _ _ _ _) as [[]|] eqn:Hperm; [|done]. simplify_eq.
  unfold approval_is_stale in Hs. bool_prop. exists p, a, g. split_and!; done.
Qed.

(** ** What each operation leaves alone *)

Lemma fold_prune_frame hs c :
  let c' := fold_left prune_one hs c in
  state c' = state c /\ last_now_unix_ms c' = last_now_unix_ms c /\ pending c' ⊆ pending c.
Proof.
  revert c; induction hs as [|h hs IH]; intros c; simpl; [done|].
  destruct (IH (prune_one c h)) as (-> & -> & Hp). split_and!; try done.
  etrans; [exact Hp|]. apply retain_subseteq.
Qed.

(** Everything but a request only drops pending approvals; the clock never
    moves back; only grants and revocations write the store. *)
Definition is_request (o : op) : bool := match o with OpRequest _ _ _ _ _ => true | _ => false end.
Definition writes_store (o : op) : bool :=
  match o with OpGrant _ _ _ _ _ _ _ _ | OpRevokePermissions _ _ _ => true | _ => false end.

Record quiet_step (c c' : ProviderCore S) : Prop := {
  qs_pending : pending c' ⊆ pending c;
  qs_clock : last_now_unix_ms c <= last_now_unix_ms c';
}.

Ltac quiet_clock :=
  match goal with
  | |- context [accept_time ?c ?now] =>
      let Ht := fresh "Ht" in
      destruct (accept_time c now) as [? [[]|?]] eqn:Ht;
      [apply accept_time_ok in Ht as [-> Ht]|apply accept_time_err in Ht as ->; simpl; first [assumption | by split]]
  end.

Lemma exec_quiet c o : is_request o = false -> quiet_step c (exec c o).1.
Proof.
  destruct o; try done; intros _; simpl;
    unfold register_authority, replace_authority, revoke_authority, set_wallet_state, approve,
      reject, permission_snapshot, grant_scoped_permissions_inner, revoke_permissions;
    try quiet_clock; repeat (case_match; simplify_eq; try done);
    try (split; simpl; first [done | apply retain_subseteq | apply delete_subseteq
                             | apply map_empty_subseteq]).
  all: destruct (fold_prune_frame (expired_handles (set_last_now c now) now) (set_last_now c now))
    as (_ & Hl & Hp); fold (prune_expired_authorities (set_last_now c now) now) in Hl, Hp;
    split; simpl; [exact Hp|rewrite Hl; exact Ht].
Qed.
(** A request writes its own handle's tables and files at most the approval it
    returns. *)
Record request_step (c : ProviderCore S) h r c' (res : result ProviderAction ProviderError) : Prop := {
  rs_state : state c' = state c;
  rs_authorities : authorities c' = authorities c;
  rs_clock : last_now_unix_ms c <= last_now_unix_ms c';
  rs_replay : forall k e, replay c !! k = Some e -> last_now_unix_ms c' / 1000 < e ->
    replay c' !! k = Some e;
  rs_pending : forall id p, pending c' !! id = Some p -> pending c !! id = Some p \/
    (res = Ok (ApprovalRequired p) /\ ap_authority_handle p = h /\
     ap_authority_revision p = r /\ id = ap_id p);
}.

Lemma tables_step c h r m n now x c2 r2 c3 r3 res :
  last_now_unix_ms c <= now -> enforce_rate (set_last_now c now) h m (now / 1000) = (c2, r2) ->
  consume_nonce c2 h n (now / 1000) x = (c3, r3) -> request_step c h r c3 res.
Proof.
  intros Hle H1 H2. pose proof (enforce_rate_frame _ _ _ _ _ _ H1) as F1.
  pose proof (consume_nonce_frame _ _ _ _ _ _ _ H2) as F2. rewrite F1 in F2.
  rewrite F2. split; simpl; auto.
  intros k e Hk Hlt. eapply consume_nonce_keeps; [exact H2| |exact Hlt]. by rewrite F1.
Qed.

Lemma admitted_step c h r n now input a m params c3 res :
  admitted c h r n now input a m params c3 -> request_step c h r c3 res.
Proof. intros []. destruct ad_tables0 as (c2 & u2 & H1 & H2). by eapply tables_step. Qed.

Lemma request_frame c h r n now input c' res :
  request c h r n now input = (c', res) -> request_step c h r c' res.
Proof.
  intros H. apply request_cases in H.
  destruct H as [| |a m c2 r2 e Hle Ha H1|a m c2 u2 c3 r3 x e Hle Ha H1 H2|
    |a m params c3 Had|a m params c3 g kind p Had Hau Hap Hcap].
  - split; auto.
  - split; simpl; auto.
  - apply enforce_rate_frame in H1. rewrite H1. split; simpl; auto.
  - by eapply tables_step.
  - by eapply admitted_step.
  - destruct (admitted_step _ _ _ _ _ _ _ _ _ _ (Err RateLimited) Had). split; simpl; auto.
    intros id p [Hp _]%lookup_retain_Some. destruct (rs_pending0 _ _ Hp); auto.
  - destruct (admitted_step _ _ _ _ _ _ _ _ _ _ (Err RateLimited) Had). split; simpl; auto.
    intros id q. destruct (decide (ap_id p = id)) as [<-|Hne].
    + rewrite lookup_insert_eq. intros [= <-]. right. done.
    + rewrite lookup_insert_ne by done. intros [Hp _]%lookup_retain_Some.
      destruct (rs_pending0 _ _ Hp) as [?|[? _]]; [by left|done].
Qed.

(** An operation adds no pending approval except the one a request returns. *)
Lemma exec_pending c o id p :
  pending (exec c o).1 !! id = Some p ->
  pending c !! id = Some p \/
  exists n now input, o = OpRequest (ap_authority_handle p) (ap_authority_revision p) n now input /\
    (exec c o).2 = OutAction (Ok (ApprovalRequired p)) /\ id = ap_id p.
Proof.
  intros Hp. destruct (is_request o) eqn:Ho.
  - destruct o; try done. simpl in *.
    destruct (request c handle revision nonce now input) as [c' res] eqn:Hreq. simpl in Hp.
    destruct (rs_pending _ _ _ _ _ (request_frame _ _ _ _ _ _ _ _ Hreq) _ _ Hp)
      as [?|(-> & <- & <- & ->)]; [by left|right]. by eexists _, _, _.
  - left. eapply lookup_weaken; [exact Hp|]. by apply exec_quiet.
Qed.

Lemma exec_clock c o : last_now_unix_ms c <= last_now_unix_ms (exec c o).1.
Proof.
  destruct (is_request o) eqn:Ho; [|by apply exec_quiet]. destruct o; try done. simpl.
  destruct (request c handle revision nonce now input) as [c' res] eqn:Hreq.
  by apply request_frame in Hreq as [].
Qed.

Lemma exec_state c o : writes_store o = false -> state (exec c o).1 = state c.
Proof.
  destruct o; try done; intros _; simpl.
  5:{ destruct (request _ _ _ _ _ _) as [c' res] eqn:Hreq. by apply request_frame in Hreq as []. }
  all: unfold register_authority, replace_authority, revoke_authority, set_wallet_state, approve,
         reject, permission_snapshot;
    try quiet_clock; repeat (case_match; simplify_eq; try done); simpl.
  all: apply (fold_prune_frame (expired_handles (set_last_now c now) now) (set_last_now c now)).
Qed.
(** ** Traces *)

Lemma run_snoc c ops o :
  run c (ops ++ [o]) =
  ((exec (run c ops).1 o).1, (run c ops).2 ++ [(exec (run c ops).1 o).2]).
Proof.
  revert c; induction ops as [|o' ops IH]; intros c; simpl.
  - by destruct (exec c o).
  - destruct (exec c o') as [c1 out]. rewrite IH. by destruct (run c1 ops).
Qed.

Lemma run_length c ops : length (run c ops).2 = length ops.
Proof.
  revert c; induction ops as [|o ops IH]; intros c; simpl; [done|].
  destruct (exec c o) as [c1 out]. specialize (IH c1). destruct (run c1 ops). simpl in *. lia.
Qed.

(** An approval leaves the pending table when it is approved or rejected. *)
Definition settles (o : op) (out : output) (id : bytes) : Prop :=
  match o, out with
  | OpApprove _ _ id' _, OutCall (Ok _) => id' = id
  | OpReject _ _ id' _, OutUnit (Ok _) => id' = id
  | _, _ => False
  end.

Lemma settles_removes c o id : settles o (exec c o).2 id -> pending (exec c o).1 !! id = None.
Proof.
  destruct o; simpl; try (by case_match).
  - destruct (approve c handle revision id0 now) as [c' [call|]] eqn:E; simpl; [intros ->|done].
    apply approve_ok in E as (? & ? & ? & _ & _ & _ & _ & _ & _ & _ & _ & _ & _ & _ & _ & _ & ->).
    apply lookup_delete_eq.
  - destruct (reject c handle revision id0 now) as [c' [[]|]] eqn:E; simpl; [intros ->|done].
    unfold reject in E. run_in E. apply lookup_delete_eq.
Qed.

(** A request answered with the approval [p], at position [i] of a run, that
    nothing after it settled. *)
Definition requested_at (ops : list op) (outs : list output) (i : nat) (p : PendingApproval) : Prop :=
  (exists n now input,
    ops !! i = Some (OpRequest (ap_authority_handle p) (ap_authority_revision p) n now input)) /\
  outs !! i = Some (OutAction (Ok (ApprovalRequired p))) /\
  forall j o out, (i < j)%nat -> ops !! j = Some o -> outs !! j = Some out ->
    ~ settles o out (ap_id p).

Lemma requested_at_snoc ops outs i p o out :
  length outs = length ops -> ~ settles o out (ap_id p) ->
  requested_at ops outs i p -> requested_at (ops ++ [o]) (outs ++ [out]) i p.
Proof.
  intros Hlen Hns ((n & now & input & Hi) & Hout & Hlater). split_and!.
  - exists n, now, input. by apply lookup_app_l_Some.
  - by apply lookup_app_l_Some.
  - intros j o' out' Hij Ho' Hout'. apply lookup_snoc_Some in Ho'. apply lookup_snoc_Some in Hout'.
    destruct Ho' as [[? ?]|[-> <-]], Hout' as [[? ?]|[? <-]]; try lia; eauto.
Qed.

Lemma pending_was_requested st session locked ops id p :
  pending (run (core_new st session locked) ops).1 !! id = Some p ->
  id = ap_id p /\
  exists i, requested_at ops (run (core_new st session locked) ops).2 i p.
Proof.
  revert id p. induction ops as [|o ops IH] using rev_ind; intros id p; [done|].
  rewrite run_snoc. simpl. set (c := (run _ ops).1) in *. set (outs := (run _ ops).2) in *.
  intros Hp. assert (Hlen : length outs = length ops) by apply run_length.
  destruct (exec_pending c o id p Hp) as [Hold|(n & now & input & -> & Hout & ->)].
  - destruct (IH _ _ Hold) as (-> & i & Hi). split; [done|]. exists i.
    apply requested_at_snoc; [done| |done]. intros Hs%settles_removes. congruence.
  - split; [done|]. exists (length ops). split_and!.
    + exists n, now, input. by rewrite lookup_snoc_Some; right.
    + rewrite Hout, <- Hlen. by rewrite lookup_snoc_Some; right.
    + intros j o out Hj Ho. apply lookup_lt_Some in Ho. rewrite length_app in Ho. simpl in Ho. lia.
Qed.
(** ** Nonces across operations *)

(** The operations that start a handle's replay table afresh. *)
Definition resets_nonces (h : bytes) (o : op) : bool :=
  match o with
  | OpRegister h' _ _ | OpReplace h' _ _ _ => bool_decide (h' = h)
  | OpSetWallet _ _ => true
  | _ => false
  end.

(** The nonce [n] of [h], good until [e], cannot be accepted now. *)
Definition nonce_spent (c : ProviderCore S) h n e : Prop :=
  authorities c !! h = None \/ replay c !! (h, n) = Some e \/ e <= last_now_unix_ms c / 1000.

Lemma nonce_spent_tables c c' h n e :
  nonce_spent c h n e -> last_now_unix_ms c <= last_now_unix_ms c' ->
  (authorities c !! h = None -> authorities c' !! h = None) ->
  (replay c !! (h, n) = Some e -> replay c' !! (h, n) = Some e \/ authorities c' !! h = None) ->
  nonce_spent c' h n e.
Proof.
  intros [Ha|[Hr|He]] Hle HA HR.
  - left; auto.
  - destruct (HR Hr); [right; by left|by left].
  - do 2 right. etrans; [exact He|]. apply N.Div0.div_le_mono, Hle.
Qed.

Lemma prune_one_spent c h h' n e : nonce_spent c h n e -> nonce_spent (prune_one c h') h n e.
Proof.
  intros Hs. eapply nonce_spent_tables; [exact Hs|done|..]; simpl.
  - intros Ha. by apply lookup_delete_None; right.
  - intros Hr. destruct (decide (h' = h)) as [->|Hne].
    + right. apply lookup_delete_eq.
    + left. by apply forget_handle_replay.
Qed.

Lemma fold_prune_spent hs c h n e :
  nonce_spent c h n e -> nonce_spent (fold_left prune_one hs c) h n e.
Proof. revert c; induction hs; simpl; auto using prune_one_spent. Qed.

Lemma nonce_spent_clock c h n e now :
  last_now_unix_ms c <= now -> nonce_spent c h n e -> nonce_spent (set_last_now c now) h n e.
Proof. intros Hle Hs. eapply nonce_spent_tables; [exact Hs|done|auto..]. Qed.

Lemma exec_spent c o h n e :
  resets_nonces h o = false -> nonce_spent c h n e -> nonce_spent (exec c o).1 h n e.
Proof.
  destruct o; simpl; intros Ho Hs; try done; bool_prop.
  - unfold register_authority. quiet_clock. apply (nonce_spent_clock _ _ _ _ now Ht) in Hs.
    destruct (registration_validate f now); [|done].
    apply (fold_prune_spent (expired_handles (set_last_now c now) now)) in Hs.
    fold (prune_expired_authorities (set_last_now c now) now) in Hs.
    repeat (case_match; simplify_eq; try done); simpl.
    eapply nonce_spent_tables; [exact Hs|done|..]; simpl; [|auto].
    by rewrite lookup_insert_ne by done.
  - unfold replace_authority. quiet_clock. apply (nonce_spent_clock _ _ _ _ now Ht) in Hs.
    repeat (case_match; simplify_eq; try done); simpl.
    eapply nonce_spent_tables; [exact Hs|done|..]; simpl; [by rewrite lookup_insert_ne by done|].
    intros Hr. left. apply lookup_retain_Some. split; [done|]. simpl. by rewrite bool_decide_false.
  - unfold revoke_authority. repeat (case_match; simplify_eq; try done). by apply prune_one_spent.
  - destruct (request _ _ _ _ _ _) as [c' res] eqn:Hreq. apply request_frame in Hreq as []. simpl.
    destruct (decide (e <= last_now_unix_ms c' / 1000)) as [?|Hlt]; [by do 2 right|].
    eapply nonce_spent_tables; [exact Hs|done|by rewrite rs_authorities0|].
    intros Hr. left. apply rs_replay0; [done|lia].
  - unfold approve. quiet_clock. apply (nonce_spent_clock _ _ _ _ now Ht) in Hs.
    by repeat (case_match; simplify_eq; try done).
  - unfold reject. quiet_clock. apply (nonce_spent_clock _ _ _ _ now Ht) in Hs.
    by repeat (case_match; simplify_eq; try done).
  - unfold permission_snapshot. quiet_clock. apply (nonce_spent_clock _ _ _ _ now Ht) in Hs.
    by repeat (case_match; simplify_eq; try done).
  - unfold grant_scoped_permissions_inner. quiet_clock. apply (nonce_spent_clock _ _ _ _ now Ht) in Hs.
    by repeat (case_match; simplify_eq; try done).
  - unfold revoke_permissions. quiet_clock. apply (nonce_spent_clock _ _ _ _ now Ht) in Hs.
    by repeat (case_match; simplify_eq; try done).
Qed.

Lemma run_spent ops c h n e :
  Forall (fun o => resets_nonces h o = false) ops ->
  nonce_spent c h n e -> nonce_spent (run c ops).1 h n e.
Proof.
  induction ops as [|o ops IH] using rev_ind; intros Hops Hs; [done|].
  apply Forall_app in Hops as [Hops Ho]. rewrite Forall_singleton in Ho.
  rewrite run_snoc. apply exec_spent; [exact Ho|exact (IH Hops Hs)].
Qed.

Lemma spent_rejected c h n e r now input c' action :
  nonce_spent c h n e -> now / 1000 < e ->
  request c h r n now input <> (c', Ok action).
Proof.
  intros Hs Hlt (a & m & params & g & [[c3 []] _ _ Hf _ _])%request_ok.
  destruct Hs as [?|[Hr|He]]; [congruence| |].
  - apply Hf in Hr. lia.
  - pose proof (N.Div0.div_le_mono _ _ 1000 ad_clock0). lia.
Qed.

(** ** Permissions across operations *)

Definition grants (o : op) : bool := match o with OpGrant _ _ _ _ _ _ _ _ => true | _ => false end.

Lemma revoke_permissions_ok c h r now c' g :
  revoke_permissions c h r now = (c', Ok g) ->
  exists a st expected, authorities c !! h = Some a /\ revision a = r /\
    pss_permission_generation (state c) (permission_scope (facts a)) = Ok (Some expected) /\
    g = expected + 1 /\
    pss_revoke_permission (state c) (permission_scope (facts a)) expected g (now / 1000)
      = (st, Ok tt) /\
    c' = forget_scope (set_state (set_last_now c now) st) (facts a).
Proof.
  unfold revoke_permissions. intros H.
  destruct (accept_time c now) as [? [[]|?]] eqn:Ht; [|done].
  apply accept_time_ok in Ht as [-> _].
  destruct (authority _ h r now) as [a|] eqn:Ha; [|done].
  apply authority_ok in Ha as (Ha & Hr & _ & Hl).
  destruct (pss_permission_generation _ _) as [og|] eqn:Hg; [|done].
  destruct (ok_or og _) as [expected|] eqn:Hog; [|done]. bool_prop. subst og.
  destruct (ok_or (u64_add _ _) _) as [next|] eqn:Hn; [|done]. bool_prop.
  destruct (pss_revoke_permission _ _ _ _ _) as [st [[]|]] eqn:Hrv; [|done]. simplify_eq.
  by exists a, st, expected.
Qed.

(** The store grants a scope nothing. *)
Definition no_permission (c : ProviderCore S) (scope : string) : Prop :=
  forall rec, pss_permission (state c) scope <> Ok (Some rec).

(** A scope without a permission keeps having none until a grant. *)
Lemma exec_no_permission `{!ProviderStateStoreLaws S} c o scope :
  grants o = false -> no_permission c scope -> no_permission (exec c o).1 scope.
Proof.
  unfold no_permission. intros Hg Hnone.
  destruct (writes_store o) eqn:Hw; [|by rewrite exec_state].
  destruct o; try done. simpl. destruct (revoke_permissions _ _ _ _) as [c' res] eqn:H. simpl.
  unfold revoke_permissions in H.
  destruct (accept_time c now) as [? [[]|?]] eqn:Ht;
    [apply accept_time_ok in Ht as [-> _]|apply accept_time_err in Ht as ->; by simplify_eq].
  repeat (case_match; simplify_eq; try done); simpl;
    match goal with E : pss_revoke_permission _ ?sc _ _ _ = (_, ?r) |- _ =>
      destruct r as [[]|]; simplify_eq; [|by destruct (pss_revoke_err _ _ _ _ _ _ _ scope E) as [-> _]];
      destruct (decide (scope = sc)) as [->|Hne];
      [by destruct (pss_revoke_ok _ _ _ _ _ _ E) as [-> _]|];
      destruct (pss_revoke_other _ _ _ _ _ _ _ E Hne) as [->|[? ->]]; done end.
Qed.

Lemma run_no_permission `{!ProviderStateStoreLaws S} ops c scope :
  Forall (fun o => grants o = false) ops -> no_permission c scope ->
  no_permission (run c ops).1 scope.
Proof.
  induction ops as [|o ops IH] using rev_ind; intros Hops Hs; [done|].
  apply Forall_app in Hops as [Hops Ho]. rewrite Forall_singleton in Ho.
  rewrite run_snoc. apply exec_no_permission; [exact Ho|exact (IH Hops Hs)].
Qed.

(** Without a stored record no capability is granted. *)
Lemma no_permission_check c f m g now denied :
  no_permission c (permission_scope f) ->
  check_permission c f m g now denied = Ok tt -> Method.permission m = None.
Proof.
  unfold check_permission. intros Hs H. destruct (Method.permission m); [|done].
  unfold no_permission in Hs. destruct (pss_permission _ _) as [[rec|]|]; [by destruct (Hs rec)|done..].
Qed.

Lemma grant_ok c h r e caps accs names now ex c' rec :
  grant_scoped_permissions_inner c h r e caps accs names now ex = (c', Ok rec) ->
  exists a st g, authorities c !! h = Some a /\ revision a = r /\
    current_generation c (facts a) = Ok g /\
    (forall g', e = Some g' -> g' = g) /\
    rec = {| perm_origin := origin (facts a); perm_namespace := namespace (facts a);
             generation := g + 1; capabilities := caps; approved_accounts := accs;
             approved_names := names; created_at_unix := now / 1000;
             perm_expires_at_unix := ex |} /\
    pss_save_permission (state c) (permission_scope (facts a)) rec = (st, Ok tt) /\
    validate_permission_identity (Some rec) (facts a) (now / 1000) = Ok (Some rec) /\
    c' = forget_scope (set_state (set_last_now c now) st) (facts a).
Proof.
  unfold grant_scoped_permissions_inner. intros H.
  destruct (accept_time c now) as [? [[]|?]] eqn:Ht; [|done].
  apply accept_time_ok in Ht as [-> _].
  destruct (authority _ h r now) as [a|] eqn:Ha; [|done].
  apply authority_ok in Ha as (Ha & Hr & _ & Hl).
  destruct (_ || _) eqn:Hv; [done|]. rewrite !orb_false_iff in Hv.
  destruct Hv as (((((((Hcaps & Haccs) & Hnames) & Hzero) & Hacc) & Hhns) & Hnm) & Hx).
  destruct (current_generation _ _) as [g|] eqn:Hg; [|done].
  destruct (is_some_and e _) eqn:He; [done|].
  destruct (ok_or (u64_add _ _) _) as [next|] eqn:Hn; [|done].
  apply ok_or_Ok, checked_add_Some in Hn as [-> Hmax].
  destruct (pss_save_permission _ _ _) as [st [[]|]] eqn:Hs; [|done]. simplify_eq.
  exists a, st, g. split_and!; try done.
  - intros g' ->. simpl in He. by bool_prop.
  - simpl. rewrite !(bool_decide_true (_ = _)) by done. simpl.
    apply negb_false_iff, Bool.eqb_prop in Hacc.
    rewrite Hcaps, Haccs, Hnames, Hzero, Hhns, Hnm, Hacc, N.ltb_irrefl. simpl.
    replace (Bool.eqb (negb (set_is_empty accs)) (set_is_empty accs)) with false
      by (by destruct (set_is_empty accs)).
    destruct (g + 1 =? 0) eqn:E0; [apply N.eqb_eq in E0; lia|]. simpl. by rewrite Hx.
Qed.

(** A record that is valid stays so until it expires. *)
Lemma validate_later rec f now now2 :
  validate_permission_identity (Some rec) f now = Ok (Some rec) ->
  now <= now2 -> (forall x, perm_expires_at_unix rec = Some x -> now2 < x) ->
  validate_permission_identity (Some rec) f now2 = Ok (Some rec).
Proof.
  unfold validate_permission_identity. intros H Hle Hx.
  destruct (_ || _) eqn:E in H; [done|]. rewrite !orb_false_iff in E.
  destruct E as (((((((((((? & ?) & ?) & ?) & ?) & ?) & ?) & ?) & ?) & ?) & Hcr) & ?).
  repeat match goal with E : ?b = false |- context [?b] => rewrite E end. simpl.
  apply N.ltb_ge in Hcr. rewrite (proj2 (N.ltb_ge now2 (created_at_unix rec))) by lia. simpl.
  destruct (perm_expires_at_unix rec) as [x|]; simpl; [|done].
  by rewrite (proj2 (N.leb_gt x now2)) by eauto.
Qed.
End Operations.
