(* ===== verification/ProviderTheorems.v ===== *)
(** * The guarantees of the provider core

    The properties of [crates/hns-wallet-provider/src/lib.rs], over every
    sequence of public operations: what an accepted request and an approved call
    imply, single use of nonces and approvals, the effect of a grant and of a
    revocation, and the unambiguity of what is hashed into approval identifiers
    and permission scopes.  Witnesses run the core on the in-memory store with
    a concrete environment ([Demo]). *)

From Stdlib Require Import Strings.Byte.
From S2P Require Import Prelude Types Provider ProviderProofs.

(** ** A concrete environment *)

Module Demo.

(** A request is its method name in ASCII, without parameters. *)
Definition demo_env : ProviderEnv := {|
  Value := unit;
  value_get_str _ _ := None;
  decode_request input := Some (String.string_of_list_byte input, tt);
  sha256 input := take 32 (input ++ repeat Byte.x00 32);
|}.
#[global] Existing Instance demo_env | 100.

Definition handle : bytes := [Byte.x01].
Definition site : HostAuthorityRegistration := {|
  origin := "https://a"; namespace := NsHns; runtime_session := [Byte.x02];
  runtime_generation := 1; policy_generation := 1; navigation_generation := 1;
  decision_fingerprint := []; valid_until_unix_ms := 10000000 |}.
Definition ops0 : list op :=
  [OpRegister handle site 1000;
   OpGrant handle 1 None {[CapSend; Accounts]} {[ [Byte.x05] ]} ∅ 2000 None].
Definition core0 : ProviderCore MemoryProviderState :=
  (run (core_new memory_default [Byte.x07] false) ops0).1.
Definition send : bytes := str_bytes "hns_send".

Definition core1 : ProviderCore MemoryProviderState * result ProviderAction ProviderError :=
  request core0 handle 1 9 3000 send.
End Demo.

Section Guarantees.
Context {env : ProviderEnv} {S : Type} {store : ProviderStateStore S}.
Implicit Types (c : ProviderCore S) (h : bytes).

(** C31: the core's invariant.  After any sequence of public operations the
    tables respect their capacities; every pending approval is filed under its
    own identifier, was issued under the wallet session in force with the
    wallet unlocked, asks for a method that does need that kind of approval and
    only from the handshake namespace where the method demands it, and belongs
    to an authority still registered at the same revision, origin and
    namespace; nonces and rate windows belong to registered authorities and no
    window exceeds its method's limit. *)
Theorem provider_invariant (st : S) session locked ops :
  core_inv (run (core_new st session locked) ops).1.
Proof. apply run_inv, core_new_inv. Qed.

(** ** Authorisation *)

Lemma check_permission_ok c f m g now denied cap :
  check_permission c f m g now denied = Ok tt -> Method.permission m = Some cap ->
  exists rec, pss_permission (state c) (permission_scope f) = Ok (Some rec) /\
    generation rec = g /\ cap ∈ capabilities rec /\
    perm_origin rec = origin f /\ perm_namespace rec = namespace f /\
    created_at_unix rec <= now /\
    (forall e, perm_expires_at_unix rec = Some e -> now < e).
Proof.
  unfold check_permission. intros H Hm. rewrite Hm in H.
  destruct (pss_permission _ _) as [stored|] eqn:Hs; [|done].
  unfold validate_permission_identity in H. run_in H. bool_prop. unfold permits in *. bool_prop.
  simplify_eq. eexists; split_and!; try done.
  intros e He. unfold is_none_or in *. rewrite He in *. by apply N.ltb_lt.
Qed.

(** C15: an accepted request was authorised.  The named authority is
    registered at the presented revision and not expired, the clock did not
    move back, the method is in the vocabulary, runs in the handshake namespace
    if it must, and while the wallet is locked it is one of the two status
    methods.  When the method needs a capability, the store holds a permission
    record for this very origin and namespace, of the current generation, not
    expired and listing the capability.  A method that needs an approval is
    never executed directly: the answer is then a pending approval. *)
Theorem request_authorised c h r n now input c' action :
  request c h r n now input = (c', Ok action) ->
  exists a m params,
    authorities c !! h = Some a /\ revision a = r /\ now < valid_until_unix_ms (facts a) /\
    last_now_unix_ms c <= now /\
    (exists wire, decode_request input = Some (wire, params) /\ Method.parse wire = Ok m) /\
    (Method.requires_hns_namespace m = true -> namespace (facts a) = NsHns) /\
    (wallet_locked c = true -> m = Method.WalletGetStatus \/ m = Method.WalletGetCapabilities) /\
    (forall cap, Method.permission m = Some cap ->
       exists rec, pss_permission (state c) (permission_scope (facts a)) = Ok (Some rec) /\
         current_generation c (facts a) = Ok (generation rec) /\
         cap ∈ capabilities rec /\ perm_origin rec = origin (facts a) /\
         perm_namespace rec = namespace (facts a) /\
         (forall e, perm_expires_at_unix rec = Some e -> now / 1000 < e)) /\
    (Method.approval m = None <-> exists call, action = Execute call) /\
    (forall call, action = Execute call ->
       call = {| call_origin := origin (facts a); call_namespace := namespace (facts a);
                 call_method := m; call_params := params; call_request_nonce := n |}).
Proof.
  intros (a & m & params & g & [[c3 []] [] _ _ _ ra_action])%request_ok. exists a, m, params.
  destruct ad_revision as [Hr _].
  split_and!; try done.
  - intros cap Hcap. destruct (check_permission_ok _ _ _ _ _ _ _ au_permission Hcap)
      as (rec & ? & <- & ?). exists rec. tauto.
  - destruct (Method.approval m); simpl in ra_action.
    + destruct ra_action as [-> _]. by split; [|intros [? ?]].
    + subst. split; [by eexists|done].
  - intros call ->. destruct (Method.approval m); simpl in ra_action.
    + by destruct ra_action.
    + by simplify_eq.
Qed.

(** C5: an approved call was asked for.  After any sequence of operations, a
    successful [approve] hands out the very call that an earlier request of the
    same authority at the same revision was answered with under that approval
    identifier.  Nothing since has approved or rejected it, so an approval is
    used once; it has not expired; the wallet is unlocked and in the session
    the approval was issued under; and the permission it was issued under is
    still the current generation of the site's scope. *)
Theorem approved_call_was_requested st session locked ops h r id now c' call :
  approve (run (core_new st session locked) ops).1 h r id now = (c', Ok call) ->
  let c := (run (core_new st session locked) ops).1 in
  exists i p a, requested_at ops (run (core_new st session locked) ops).2 i p /\
    ap_id p = id /\ ap_call p = call /\
    ap_authority_handle p = h /\ ap_authority_revision p = r /\
    now / 1000 < ap_expires_at_unix p /\
    wallet_locked c = false /\ ap_wallet_session p = wallet_session c /\
    authorities c !! h = Some a /\
    current_generation c (facts a) = Ok (ap_permission_generation p).
Proof.
  intros Ha c. subst c. set (c := (run _ ops).1) in *.
  apply approve_ok in Ha as (p & a & g & Hp & Hau & Hrev & Hcall & Hh & Hr & Hexp & Hg & _ & _ & Hgen & _).
  pose proof (run_inv ops _ (core_new_inv st session locked)) as [_ _ _ Hpend _ _].
  destruct (Hpend _ _ Hp).
  destruct (pending_was_requested _ _ _ _ _ _ Hp) as (-> & i & Hi).
  exists i, p, a. subst. split_and!; done.
Qed.

(** A nonce is accepted once.  When a request with nonce [n] of authority
    [h] has been accepted, no later request with the same nonce is, at any
    revision and for any method, until the nonce's lifetime is over, whatever
    other operations run in between, except those that start the authority
    afresh (registering or replacing this handle, or a change of wallet
    state).*)
Theorem nonce_not_replayed c h r n now input c1 action ops r2 now2 input2 c3 action2 :
  request c h r n now input = (c1, Ok action) ->
  Forall (fun o => resets_nonces h o = false) ops ->
  now2 / 1000 < (now + APPROVAL_LIFETIME_SECONDS * 1000) / 1000 ->
  request (run c1 ops).1 h r2 n now2 input2 <> (c3, Ok action2).
Proof.
  intros (a & m & params & g & [_ _ _ _ Hin _])%request_ok Hops Hlt.
  eapply spent_rejected; [|exact Hlt]. apply run_spent; [done|]. right. by left.
Qed.

(** Revocation takes effect.  After a successful [revoke_permissions] the
    site's scope is one generation further and holds no record, and none of the
    site's approvals is pending.  From then on, until something is granted
    again, whatever operations run, a request or an approval of any authority
    with that scope succeeds only for methods that need no capability.*)
Theorem revocation_takes_effect `{!ProviderStateStoreLaws S} c h r now c1 g a :
  authorities c !! h = Some a ->
  revoke_permissions c h r now = (c1, Ok g) ->
  current_generation c1 (facts a) = Ok g /\
  (exists expected, current_generation c (facts a) = Ok expected /\ g = expected + 1) /\
  (forall id p, pending c1 !! id = Some p ->
     call_origin (ap_call p) <> origin (facts a) \/
     call_namespace (ap_call p) <> namespace (facts a)) /\
  forall ops c2 h2 a2, Forall (fun o => grants o = false) ops -> c2 = (run c1 ops).1 ->
    authorities c2 !! h2 = Some a2 -> permission_scope (facts a2) = permission_scope (facts a) ->
    (forall r2 n now2 input c3 call, request c2 h2 r2 n now2 input = (c3, Ok (Execute call)) ->
       Method.permission (call_method call) = None) /\
    (forall r2 n now2 input c3 p, request c2 h2 r2 n now2 input = (c3, Ok (ApprovalRequired p)) ->
       Method.permission (call_method (ap_call p)) = None) /\
    (forall r2 id now2 c3 call, approve c2 h2 r2 id now2 = (c3, Ok call) ->
       Method.permission (call_method call) = None).
Proof.
  intros Ha H. apply revoke_permissions_ok in H as (a' & st & expected & Ha' & _ & Hg & Hnext & Hrev & ->).
  simplify_eq. destruct (pss_revoke_ok _ _ _ _ _ _ Hrev) as (Hnone & Hgen & _ & _).
  unfold current_generation. simpl. rewrite Hgen, Hg. split_and!; eauto.
  - intros id p [_ Hp]%lookup_retain_Some. apply orb_true_iff in Hp as [Hp|Hp]; bool_prop; auto.
  - intros ops c2 h2 a2 Hops -> Ha2 Hscope. set (c2 := (run _ ops).1) in *.
    assert (Hno : no_permission c2 (permission_scope (facts a2))).
    { rewrite Hscope. apply run_no_permission; [done|]. intros rec. simpl. by rewrite Hnone. }
    split_and!.
    + intros r2 n now2 input c3 call (a3 & m & ps & g & [[c4 []] [] _ _ _ Hact])%request_ok.
      simplify_eq. apply (no_permission_check _ _ _ _ _ _ Hno) in au_permission.
      destruct (Method.approval m); [by destruct Hact|by simplify_eq].
    + intros r2 n now2 input c3 p (a3 & m & ps & g & [[c4 []] [] _ _ _ Hact])%request_ok.
      simplify_eq. apply (no_permission_check _ _ _ _ _ _ Hno) in au_permission.
      destruct (Method.approval m); [by destruct Hact; simplify_eq|by simplify_eq].
    + intros r2 id now2 c3 call
        (p & a3 & g & _ & Ha3 & _ & _ & _ & _ & _ & _ & _ & _ & _ & Hc & _)%approve_ok.
      simplify_eq. by apply (no_permission_check _ _ _ _ _ _ Hno) in Hc.
Qed.

(** A grant takes effect.  A successful grant stores a record one
    generation further than the scope's current one (the one the caller
    expected, when it named one), and the record is one the core accepts when
    it reads it back: until it expires, the capability check of every method
    whose capability was granted passes.  The site's pending approvals, issued
    under the old generation, are dropped.*)
Theorem grant_takes_effect `{!ProviderStateStoreLaws S} c h r e caps accs names now ex c1 rec a :
  authorities c !! h = Some a ->
  grant_scoped_permissions_inner c h r e caps accs names now ex = (c1, Ok rec) ->
  (exists g, current_generation c (facts a) = Ok g /\ generation rec = g + 1 /\
     forall g', e = Some g' -> g' = g) /\
  current_generation c1 (facts a) = Ok (generation rec) /\
  (forall id p, pending c1 !! id = Some p ->
     call_origin (ap_call p) <> origin (facts a) \/
     call_namespace (ap_call p) <> namespace (facts a)) /\
  forall m cap now2 denied, Method.permission m = Some cap -> cap ∈ caps ->
    now / 1000 <= now2 -> (forall x, ex = Some x -> now2 < x) ->
    check_permission c1 (facts a) m (generation rec) now2 denied = Ok tt.
Proof.
  intros Ha H. apply grant_ok in H as (a' & st & g & Ha' & _ & Hg & He & Hrec & Hs & Hv & ->).
  simplify_eq. destruct (pss_save_ok _ _ _ _ Hs) as (Hp & Hgen & _). split_and!.
  - by exists g.
  - unfold current_generation. simpl. by rewrite Hgen.
  - intros id p [_ Hp']%lookup_retain_Some. apply orb_true_iff in Hp' as [Hp'|Hp']; bool_prop; auto.
  - intros m cap now2 denied Hm Hcap Hle Hx. unfold check_permission. rewrite Hm. simpl state.
    rewrite Hp.
    rewrite (validate_later _ _ _ now2 Hv) by done. simpl.
    rewrite N.eqb_refl. unfold permits. simpl. rewrite bool_decide_true by done.
    destruct ex as [x|]; simpl; [|done]. rewrite (proj2 (N.ltb_lt _ _)) by eauto. done.
Qed.

(** ** Identifiers *)

Lemma parse_wire_name m : Method.parse (Method.wire_name m) = Ok m.
Proof. by destruct m. Qed.

Lemma wire_name_inj m1 m2 : Method.wire_name m1 = Method.wire_name m2 -> m1 = m2.
Proof.
  intros H. pose proof (parse_wire_name m1) as P. rewrite H, parse_wire_name in P. by simplify_eq.
Qed.

(** What identifies an approval is hashed without ambiguity.  Two
    approvals hash the same message only when authority, revision, wallet
    session, nonce, method, namespace and origin all agree, for handles and
    sessions of fixed width: an approval identifier shown for one call cannot,
    short of a SHA-256 collision on its first 16 bytes, stand for another.*)
Theorem approval_id_message_injective h1 r1 s1 n1 m1 ns1 o1 h2 r2 s2 n2 m2 ns2 o2 :
  length h1 = length h2 -> length s1 = length s2 ->
  r1 <= U64_MAX -> r2 <= U64_MAX -> n1 <= U64_MAX -> n2 <= U64_MAX ->
  str_len o1 <= U64_MAX -> str_len o2 <= U64_MAX ->
  approval_id_message h1 r1 s1 n1 m1 ns1 o1 = approval_id_message h2 r2 s2 n2 m2 ns2 o2 ->
  h1 = h2 /\ r1 = r2 /\ s1 = s2 /\ n1 = n2 /\ m1 = m2 /\ ns1 = ns2 /\ o1 = o2.
Proof.
  intros Hh Hs Hr1 Hr2 Hn1 Hn2 Hl1 Hl2. unfold approval_id_message. intros H.
  apply app_inj_length_l in H as [_ H]; [|done].
  apply app_inj_length_l in H as [-> H]; [|done].
  apply app_inj_length_l in H as [Hr H]; [|by rewrite !length_to_be_bytes].
  apply app_inj_length_l in H as [-> H]; [|done].
  apply app_inj_length_l in H as [Hn H]; [|by rewrite !length_to_be_bytes].
  apply app_inj_length_l in H as [Hns H]; [|done].
  apply app_inj_length_l in H as [Hl H]; [|by rewrite !length_to_be_bytes].
  apply to_be_bytes_inj in Hr, Hn, Hl; try (unfold U64_MAX in *; simpl; lia).
  apply app_inj_length_l in H as [Ho Hm]; [|rewrite !str_bytes_length; unfold str_len in *; lia].
  apply str_bytes_inj in Ho, Hm. apply wire_name_inj in Hm.
  destruct ns1, ns2; simplify_eq; done.
Qed.

(** Two sites share a permission scope message only when they are the same
    origin in the same namespace, so a permission granted to one is never
    looked up for another, short of a SHA-256 collision; and the namespace
    stays in clear in the scope's name, so scopes of different namespaces
    differ whatever the hash.*)
Theorem permission_scope_separates f1 f2 :
  (permission_scope_message f1 = permission_scope_message f2 <->
     namespace f1 = namespace f2 /\ origin f1 = origin f2) /\
  (namespace f1 <> namespace f2 -> permission_scope f1 <> permission_scope f2).
Proof.
  split; [split|].
  - unfold permission_scope_message. intros H. apply app_inj_length_l in H as [_ H]; [|done].
    destruct (namespace f1), (namespace f2); simpl in H; simplify_eq; split; try done;
      by apply str_bytes_inj.
  - intros [Hn Ho]. unfold permission_scope_message. by rewrite Hn, Ho.
  - unfold permission_scope. intros Hne. by destruct (namespace f1), (namespace f2).
Qed.
End Guarantees.

(** ** The vocabulary *)

Lemma position_spec names s i :
  Method.position names s = Some i -> names !! i = Some s.
Proof.
  revert i; induction names as [|n names IH]; intros i; simpl; [done|].
  case_bool_decide as Hn; [intros [= <-]; by subst|].
  destruct (Method.position names s); simpl; [|done]. intros [= <-]. simpl. auto.
Qed.

(** The request vocabulary is closed.  A text names a method exactly when it
    is that method's wire name; the refused Ethereum, Bitcoin and key-export
    names parse to none; and a method that acts for the user (sends, signs,
    transfers, trades, settles, enables a module) is one that asks for an
    approval, at ten requests per minute instead of 120.*)
Theorem method_vocabulary (s : string) (m : Method.t) :
  (Method.parse s = Ok m <-> s = Method.wire_name m) /\
  (s ∈ Method.FORBIDDEN_METHODS -> Method.parse s = Err ForbiddenMethod) /\
  (Method.permission m ∈ [Some CapSend; Some CapNameTransfer; Some CapNameFinalize;
     Some CapNameUpdate; Some TypedIdentitySignature] ->
   is_some (Method.approval m) = true /\ Method.rate_limit m = 10).
Proof.
  split_and!.
  - split; [|intros ->; apply parse_wire_name].
    unfold Method.parse. destruct (Method.position _ s) as [i|] eqn:Hp; [|by case_bool_decide].
    apply position_spec in Hp. intros Hi. apply ok_or_Ok in Hi.
    assert (i < 44)%nat as Hlt by (apply lookup_lt_Some in Hi; exact Hi).
    do 44 (destruct i as [|i]; [simpl in Hi, Hp; by simplify_eq|]). lia.
  - rewrite list_elem_of_In. intros Hin. simpl in Hin.
    repeat (destruct Hin as [<-|Hin]; [reflexivity|]). done.
  - destruct m; simpl; intros Hin; (split; [reflexivity|reflexivity]) || (exfalso;
      repeat (apply elem_of_cons in Hin as [Hin|Hin]; [done|]); by apply elem_of_nil in Hin).
Qed.


(** The site asks to send under a granted capability. *)
Lemma request_authorised_witness :
  exists c' action, request Demo.core0 Demo.handle 1 9 3000 Demo.send = (c', Ok action) /\
  exists a m params,
    authorities Demo.core0 !! Demo.handle = Some a /\ revision a = 1 /\
    (exists wire, decode_request Demo.send = Some (wire, params) /\ Method.parse wire = Ok m).
Proof.
  destruct (run_is_ok (request Demo.core0 Demo.handle 1 9 3000 Demo.send)) as (c' & action & H);
    [vm_compute; reflexivity|].
  exists c', action. split; [exact H|].
  destruct (request_authorised Demo.core0 Demo.handle 1 9 3000 Demo.send _ _ H)
    as (a & m & params & ? & ? & ? & ? & ? & _).
  exists a, m, params. auto.
Defined.

(** The user approves the request of [core1]. *)
Definition Demo_ops : list op := Demo.ops0 ++ [OpRequest Demo.handle 1 9 3000 Demo.send].
Definition Demo_approval_id : bytes :=
  @approval_id Demo.demo_env Demo.handle 1 [Byte.x07] 9 Method.HnsSend NsHns "https://a".

Lemma approved_call_was_requested_witness :
  exists c' call,
    approve (run (core_new memory_default [Byte.x07] false) Demo_ops).1
            Demo.handle 1 Demo_approval_id 4000 = (c', Ok call) /\
    exists i p, requested_at Demo_ops
                  (run (core_new memory_default [Byte.x07] false) Demo_ops).2 i p /\
                ap_id p = Demo_approval_id /\ ap_call p = call.
Proof.
  destruct (run_is_ok (approve (run (core_new memory_default [Byte.x07] false) Demo_ops).1
            Demo.handle 1 Demo_approval_id 4000)) as (c' & call & H); [vm_compute; reflexivity|].
  exists c', call. split; [exact H|].
  destruct (approved_call_was_requested _ _ _ _ _ _ _ _ _ _ H) as (i & p & a & ? & ? & ? & _).
  exists i, p. auto.
Defined.

(** The nonce of [core1] is refused ten seconds later, after a rejection of the
    first request and a look at the permissions. *)
Definition Demo_between : list op :=
  [OpReject Demo.handle 1 Demo_approval_id 4000; OpSnapshot Demo.handle 1 5000].

Lemma nonce_not_replayed_witness :
  is_ok (request Demo.core0 Demo.handle 1 9 3000 Demo.send).2 = true /\
  forall c3 action, request (run (request Demo.core0 Demo.handle 1 9 3000 Demo.send).1 Demo_between).1
    Demo.handle 1 9 13000 Demo.send <> (c3, Ok action).
Proof.
  split; [vm_compute; reflexivity|]. intros c3 action.
  destruct (run_is_ok (request Demo.core0 Demo.handle 1 9 3000 Demo.send)) as (c1 & act & H);
    [vm_compute; reflexivity|].
  rewrite H. eapply (nonce_not_replayed _ _ _ _ _ _ _ _ Demo_between); [exact H| |reflexivity].
  repeat constructor.
Defined.

Lemma revocation_takes_effect_witness :
  exists c1 g a, authorities Demo.core0 !! Demo.handle = Some a /\
    revoke_permissions Demo.core0 Demo.handle 1 3000 = (c1, Ok g) /\
    current_generation c1 (facts a) = Ok g.
Proof.
  destruct (run_is_ok (revoke_permissions Demo.core0 Demo.handle 1 3000)) as (c1 & g & H);
    [vm_compute; reflexivity|].
  exists c1, g, {| facts := Demo.site; revision := 1 |}.
  assert (Ha : authorities Demo.core0 !! Demo.handle = Some {| facts := Demo.site; revision := 1 |})
    by (vm_compute; reflexivity).
  split; [exact Ha|]. split; [exact H|].
  exact (proj1 (revocation_takes_effect _ _ _ _ _ _ _ Ha H)).
Defined.

Lemma grant_takes_effect_witness :
  exists c1 rec a, authorities Demo.core0 !! Demo.handle = Some a /\
    grant_scoped_permissions_inner Demo.core0 Demo.handle 1 (Some 1) {[Balance]} ∅ ∅ 3000 (Some 50)
      = (c1, Ok rec) /\
    check_permission c1 (facts a) Method.HnsGetBalance (generation rec) 20 Unauthorized = Ok tt.
Proof.
  destruct (run_is_ok (grant_scoped_permissions_inner Demo.core0 Demo.handle 1 (Some 1) {[Balance]}
    ∅ ∅ 3000 (Some 50))) as (c1 & rec & H); [vm_compute; reflexivity|].
  exists c1, rec, {| facts := Demo.site; revision := 1 |}.
  assert (Ha : authorities Demo.core0 !! Demo.handle = Some {| facts := Demo.site; revision := 1 |})
    by (vm_compute; reflexivity).
  split; [exact Ha|]. split; [exact H|].
  destruct (grant_takes_effect _ _ _ _ _ _ _ _ _ _ _ _ Ha H) as (_ & _ & _ & Hc).
  apply (Hc _ Balance); [reflexivity|set_solver|vm_compute; discriminate|].
  intros x [= <-]. reflexivity.
Defined.

Lemma approval_id_message_injective_witness :
  approval_id_message [Byte.x01] 1 [Byte.x07] 9 Method.HnsSend NsHns "https://a" <>
  approval_id_message [Byte.x01] 1 [Byte.x07] 9 Method.HnsSend NsHns "https://b".
Proof.
  intros H.
  refine (match approval_id_message_injective [Byte.x01] 1 [Byte.x07] 9 Method.HnsSend NsHns
            "https://a" [Byte.x01] 1 [Byte.x07] 9 Method.HnsSend NsHns "https://b"
            eq_refl eq_refl _ _ _ _ _ _ H with
          | conj _ (conj _ (conj _ (conj _ (conj _ (conj _ Ho))))) => _
          end); [vm_compute; discriminate..|discriminate Ho].
Defined.
