(* ===== verification/Codec.v ===== *)
(** * hns-wallet-store: record identities and authenticated records

    Models the codec part of [crates/hns-wallet-store/src/lib.rs]: the storage
    namespaces and their labels, the associated data every ciphertext is bound
    to, the record identifiers of permissions, approvals and nonces, the
    origin-prefixed payload, and [encrypt_record]/[decrypt_record].

    Parameters ([StoreEnv]): XChaCha20-Poly1305, HMAC-SHA-256, the operating
    system's randomness (the [k]-th draw) and the test by which SQLite accepts
    a 64-bit integer; none of them is code of this repository.  What the store
    relies on is [StoreEnvLaws]. *)

From stdpp Require Import finite.
From Stdlib Require Import Strings.Byte.
From S2P Require Import Prelude Types.

Definition MAX_RECORD_ID_BYTES : N := 128.
Definition MAX_SECRET_BYTES : N := 1048576.
Definition MAX_STATE_BYTES : N := 1048576.
Definition MAX_REPLAY_ROWS_PER_ORIGIN : N := 4096.
Definition MAX_PROVIDER_PERMISSIONS : N := 4096.
Definition MAX_PENDING_APPROVALS : N := 4096.
Definition MAX_REPLAY_ORIGINS : N := 4096.
Definition MAX_REPLAY_ROWS : N := 65536.
Definition MAX_REPLAY_LIFETIME_SECONDS : N := 86400.
Definition MAX_APPROVAL_LIFETIME_SECONDS : N := 3600.
Definition MAX_ENTITY_BATCH_OPERATIONS : N := 16384.

Definition NONCE_BYTES : nat := 24.
Definition TAG_BYTES : nat := 16.
Definition MAX_ENCRYPTED_RECORD_BYTES : N := MAX_SECRET_BYTES + 24 + 16.
Definition AAD_DOMAIN : bytes := str_bytes "hns-wallet-store/record/v1".
Definition ORIGIN_TOKEN_DOMAIN : bytes := str_bytes "hns-wallet-store/origin-token/v1".

(** The payloads of the wrapped third-party errors are dropped. *)
Inductive StoreError :=
| Io | Sqlite | Json | AlreadyInitialized | DatabaseExists | NotInitialized | Locked
| InvalidPassphrase | PassphraseChangedCheckpointPending | UnsafeKdfParameters
| KeyDerivation | Randomness | Encryption | KindMismatch | ProtectedSecret
| InvalidRecoverySeed | BootstrapConflict | WorkflowKindMismatch | InvalidRecordId
| InvalidOrigin | RecordTooLarge | CorruptMetadata | NewerSchema (version : N)
| StaleRevision (expected actual : N) | StaleEntitySet | InvalidEntityPrefixLease
| RevisionOverflow | Replay | InvalidReplayWindow | InvalidApprovalWindow
| ReplayCapacity | ReplayGlobalCapacity | ReplayOriginCapacity | ProviderCapacity
| ApprovalCapacity | InvalidGeneration | StaleGeneration (expected actual : N)
| InvalidListLimit | ListCapacity | InvalidRevision | ProtectedEntity
| DuplicateBatchEntity | BatchCapacity | LegacyEncryptionPending
| LegacyEntityMigrationRequired (table : string) | WalCheckpointBusy
| UnsafeFilesystemBoundary | UnsupportedFilesystemBoundary | Concurrency.

(** ** Namespaces *)

Module EntityKind.

Inductive t :=
| WalletAccount | NativeHnsReadProfile | DerivedAddress | HnsUtxo | HnsTransaction
| HnsLightChain | HnsLightWallet | KnownName | NameOwnerOutpoint | NameTransfer
| Shakedex | HnsShakedexKeyAllocation | HnsaHnsrPublisherSequence
| ShakescapeBoardObject | BitcoinHeader | BitcoinFilterHeader | BitcoinPeer
| BitcoinWalletState | BitcoinWalletChangeSet | BitcoinScanState
| BitcoinSwapKeyAllocation | BitcoinSwapWatch | CrossChainSwapKeyAllocation
| BitcoinUtxo | BitcoinTransaction | EthereumAccount | EthereumTransaction
| SwapSession | SwapFundingAuthorization | RefundTransaction | HnsRecoveryState
| HnsShakescapeWatch | HnsVerifiedSettlement | PendingApproval | InputReservation.

#[global] Instance t_eq_dec : EqDecision t.
Proof. solve_decision. Defined.

Definition label (k : t) : string :=
  match k with
  | WalletAccount => "wallet_account"
  | NativeHnsReadProfile => "native_hns_read_profile"
  | DerivedAddress => "derived_address"
  | HnsUtxo => "hns_utxo"
  | HnsTransaction => "hns_transaction"
  | HnsLightChain => "hns_light_chain"
  | HnsLightWallet => "hns_light_wallet"
  | KnownName => "known_name"
  | NameOwnerOutpoint => "name_owner_outpoint"
  | NameTransfer => "name_transfer"
  | Shakedex => "shakedex"
  | HnsShakedexKeyAllocation => "hns_shakedex_key_allocation"
  | HnsaHnsrPublisherSequence => "hnsa_hnsr_publisher_sequence"
  | ShakescapeBoardObject => "shakescape_board_object"
  | BitcoinHeader => "bitcoin_header"
  | BitcoinFilterHeader => "bitcoin_filter_header"
  | BitcoinPeer => "bitcoin_peer"
  | BitcoinWalletState => "bitcoin_wallet_state"
  | BitcoinWalletChangeSet => "bitcoin_wallet_changeset"
  | BitcoinScanState => "bitcoin_scan_state"
  | BitcoinSwapKeyAllocation => "bitcoin_swap_key_allocation"
  | BitcoinSwapWatch => "bitcoin_swap_watch"
  | CrossChainSwapKeyAllocation => "cross_chain_swap_key_allocation"
  | BitcoinUtxo => "bitcoin_utxo"
  | BitcoinTransaction => "bitcoin_transaction"
  | EthereumAccount => "ethereum_account"
  | EthereumTransaction => "ethereum_transaction"
  | SwapSession => "swap_session"
  | SwapFundingAuthorization => "swap_funding_authorization"
  | RefundTransaction => "refund_transaction"
  | HnsRecoveryState => "hns_recovery_state"
  | HnsShakescapeWatch => "hns_shakescape_watch"
  | HnsVerifiedSettlement => "hns_verified_settlement"
  | PendingApproval => "pending_approval"
  | InputReservation => "input_reservation"
  end%string.

Definition deletion_protected (k : t) : bool :=
  match k with
  | NativeHnsReadProfile | HnsShakedexKeyAllocation | HnsaHnsrPublisherSequence
  | BitcoinWalletState | BitcoinSwapKeyAllocation | CrossChainSwapKeyAllocation => true
  | _ => false
  end.

End EntityKind.

Definition workflow_kind (k : WorkflowKind) : string :=
  match k with
  | WfHnsSend => "hns_send"
  | WfNameTransfer => "name_transfer"
  | WfNameFinalize => "name_finalize"
  | WfNameUpdate => "name_update"
  | WfShakedexSeller => "shakedex_seller"
  | WfShakedexBuyer => "shakedex_buyer"
  | WfShakedexSellerPlan => "shakedex_seller_plan"
  | WfShakedexBuyerPlan => "shakedex_buyer_plan"
  | WfShakedexSellerOffer => "shakedex_seller_offer"
  | WfShakedexValue => "shakedex_value"
  | WfDirectOffer => "direct_offer"
  | WfDirectOfferAcceptance => "direct_offer_acceptance"
  | WfAtomicSwap => "atomic_swap"
  | WfRefund => "refund"
  end%string.

Definition parse_workflow_kind (value : string) : result WorkflowKind StoreError :=
  let matches s := bool_decide (value = s) in
  if matches "hns_send"%string then Ok WfHnsSend else
  if matches "name_transfer"%string then Ok WfNameTransfer else
  if matches "name_finalize"%string then Ok WfNameFinalize else
  if matches "name_update"%string then Ok WfNameUpdate else
  if matches "shakedex_seller"%string then Ok WfShakedexSeller else
  if matches "shakedex_buyer"%string then Ok WfShakedexBuyer else
  if matches "shakedex_seller_plan"%string then Ok WfShakedexSellerPlan else
  if matches "shakedex_buyer_plan"%string then Ok WfShakedexBuyerPlan else
  if matches "shakedex_seller_offer"%string then Ok WfShakedexSellerOffer else
  if matches "shakedex_value"%string then Ok WfShakedexValue else
  if matches "direct_offer"%string then Ok WfDirectOffer else
  if matches "direct_offer_acceptance"%string then Ok WfDirectOfferAcceptance else
  if matches "atomic_swap"%string then Ok WfAtomicSwap else
  if matches "refund"%string then Ok WfRefund else
  Err CorruptMetadata.

Definition entity_label (k : EntityKind.t) : string := "entity/" +:+ EntityKind.label k.
Definition workflow_label (k : WorkflowKind) : string := "workflow/" +:+ workflow_kind k.

(** ** Identifiers and associated data *)

Definition validate_id (id : bytes) : result unit StoreError :=
  if is_empty id || (MAX_RECORD_ID_BYTES <? len id) then Err InvalidRecordId else Ok tt.

Definition validate_origin (origin : string) : result unit StoreError :=
  if bool_decide (origin = EmptyString) || (512 <? str_len origin) || negb (is_ascii origin)
  then Err InvalidOrigin else Ok tt.

Definition bool_byte (b : bool) : u8 := if b then Byte.x01 else Byte.x00.

Definition revisioned_aad_id (id : bytes) (revision updated_at_unix : N)
    (broadcast_prepared : option bool) : result bytes StoreError :=
  let* _ := validate_id id in
  Ok (id ++ to_be_bytes 8 revision ++ to_be_bytes 8 updated_at_unix
      ++ match broadcast_prepared with Some b => [bool_byte b] | None => [] end).

Definition record_aad (database_id : bytes) (kind : string) (id : bytes) :
    result bytes StoreError :=
  if is_empty id || (MAX_RECORD_ID_BYTES + 64 <? len id) then Err InvalidRecordId else
  if bool_decide (kind = EmptyString) || (64 <? str_len kind) then Err InvalidRecordId else
  Ok (AAD_DOMAIN ++ database_id ++ str_bytes kind ++ [Byte.x00] ++ id).

Definition permission_record_id (origin_token : bytes) (generation : N) (revoked : bool)
    (updated_at_unix : N) : bytes :=
  origin_token ++ to_be_bytes 8 generation ++ [bool_byte revoked] ++ to_be_bytes 8 updated_at_unix.

Definition approval_record_id (id origin_token : bytes) (expires_at_unix : N) : bytes :=
  id ++ origin_token ++ to_be_bytes 8 expires_at_unix.

Definition replay_record_id (origin_token : bytes) (nonce expires_at_unix : N) : bytes :=
  origin_token ++ to_be_bytes 8 nonce ++ to_be_bytes 8 expires_at_unix.

(** ** The origin-prefixed payload *)

Definition encode_origin_payload (origin : string) (payload : bytes) : result bytes StoreError :=
  let* _ := validate_origin origin in
  if is_empty payload then Err RecordTooLarge else
  if 65535 <? str_len origin then Err InvalidOrigin else
  if MAX_SECRET_BYTES <? 2 + str_len origin + len payload then Err RecordTooLarge else
  Ok (to_be_bytes 2 (str_len origin) ++ str_bytes origin ++ payload).

(** A byte string that is not UTF-8 is not ASCII, so the two errors coincide. *)
Definition decode_origin_payload (encoded : bytes) : result (string * bytes) StoreError :=
  if (len encoded <? 3) || (MAX_SECRET_BYTES <? len encoded) then Err Encryption else
  let origin_len := N.to_nat (from_be_bytes (take 2 encoded)) in
  let payload_offset := (2 + origin_len)%nat in
  if len encoded <=? N.of_nat payload_offset then Err Encryption else
  let origin := String.string_of_list_byte (take origin_len (drop 2 encoded)) in
  let* _ := map_err (fun _ => Encryption) (validate_origin origin) in
  Ok (origin, drop payload_offset encoded).

(** ** Authenticated records *)

Class StoreEnv := {
  aead_seal : bytes -> bytes -> bytes -> bytes -> option bytes; (* key nonce aad msg *)
  aead_open : bytes -> bytes -> bytes -> bytes -> option bytes; (* key nonce aad ciphertext *)
  hmac_sha256 : bytes -> bytes -> option bytes;                  (* key message *)
  fill_random : N -> option bytes;                               (* the k-th nonce drawn *)
  sql_binds : N -> bool;                                         (* u64 accepted as INTEGER *)
}.

Class StoreEnvLaws `{StoreEnv} := {
  aead_open_seal : forall k n a m c, aead_seal k n a m = Some c -> aead_open k n a c = Some m;
  aead_seal_length : forall k n a m c, aead_seal k n a m = Some c ->
    length c = (length m + TAG_BYTES)%nat;
  fill_random_length : forall i n, fill_random i = Some n -> length n = NONCE_BYTES;
}.

Section Records.
Context {env : StoreEnv}.

Definition origin_lookup_token (key database_id : bytes) (origin : string) :
    result bytes StoreError :=
  ok_or (hmac_sha256 key (ORIGIN_TOKEN_DOMAIN ++ database_id ++ str_bytes origin)) KeyDerivation.

Definition validate_encrypted_record_length (length : N) : result unit StoreError :=
  if (length <=? N.of_nat NONCE_BYTES) || (MAX_ENCRYPTED_RECORD_BYTES <? length)
  then Err Encryption else Ok tt.

(** [draw] numbers the call to the random source. *)
Definition encrypt_record (draw : N) (key database_id : bytes) (kind : string)
    (id cleartext : bytes) : result bytes StoreError :=
  if is_empty cleartext || (MAX_SECRET_BYTES <? len cleartext) then Err RecordTooLarge else
  let* nonce := ok_or (fill_random draw) Randomness in
  let* aad := record_aad database_id kind id in
  let* ciphertext := ok_or (aead_seal key nonce aad cleartext) Encryption in
  Ok (nonce ++ ciphertext).

Definition decrypt_record (key database_id : bytes) (kind : string) (id envelope : bytes) :
    result bytes StoreError :=
  let* _ := validate_encrypted_record_length (len envelope) in
  let nonce := take NONCE_BYTES envelope in
  let ciphertext := drop NONCE_BYTES envelope in
  let* aad := record_aad database_id kind id in
  ok_or (aead_open key nonce aad ciphertext) Encryption.
End Records.

(** ** Round trips *)

Lemma validate_id_ok id : validate_id id = Ok tt -> (0 < length id)%nat /\ len id <= MAX_RECORD_ID_BYTES.
Proof. unfold validate_id. intros H. run_in H. bool_prop. destruct id; simpl in *; [done|]. split; [lia|done]. Qed.

Lemma decrypt_encrypt `{StoreEnvLaws} draw key db kind id m c :
  encrypt_record draw key db kind id m = Ok c -> decrypt_record key db kind id c = Ok m.
Proof.
  unfold encrypt_record, decrypt_record. intros Hc. run_in Hc. bool_prop.
  match goal with E : fill_random _ = Some _ |- _ => pose proof (fill_random_length _ _ E) as Hn end.
  match goal with E : aead_seal _ _ _ _ = Some _ |- _ =>
    pose proof (aead_seal_length _ _ _ _ _ E) as Hl; pose proof (aead_open_seal _ _ _ _ _ E) as Ho end.
  rewrite take_app_length', drop_app_length' by done.
  assert (Hlen : validate_encrypted_record_length (len (a ++ a1)) = Ok tt).
  { unfold validate_encrypted_record_length, MAX_ENCRYPTED_RECORD_BYTES, len in *.
    rewrite length_app, Hn, Hl. unfold NONCE_BYTES, TAG_BYTES, MAX_SECRET_BYTES in *.
    rewrite (proj2 (N.leb_gt _ _)) by lia. rewrite (proj2 (N.ltb_ge _ _)) by lia. done. }
  rewrite Hlen, Ho. done.
Qed.

(** A permission or approval record keeps its origin. *)
Lemma decode_encode_origin origin payload encoded :
  encode_origin_payload origin payload = Ok encoded ->
  decode_origin_payload encoded = Ok (origin, payload).
Proof.
  unfold encode_origin_payload, decode_origin_payload. intros H.
  destruct (validate_origin origin) as [[]|] eqn:Ho; [|done].
  destruct payload as [|b payload]; [done|]. cbn [is_empty] in H.
  destruct (65535 <? _) eqn:Hu; [done|]. destruct (MAX_SECRET_BYTES <? _) eqn:Hm; [done|].
  apply Ok_inj in H. subst encoded. bool_prop.
  rewrite (take_app_length' (to_be_bytes 2 _)) by (by rewrite length_to_be_bytes).
  rewrite (drop_app_length' (to_be_bytes 2 _)) by (by rewrite length_to_be_bytes).
  rewrite from_to_be_bytes by (simpl; lia).
  unfold len, str_len in *. rewrite !length_app, length_to_be_bytes, str_bytes_length in *.
  rewrite Nat2N.id. simpl length in *.
  rewrite (proj2 (N.ltb_ge _ 3)) by lia. rewrite (proj2 (N.ltb_ge MAX_SECRET_BYTES _)) by lia.
  rewrite (proj2 (N.leb_gt _ _)) by lia. simpl orb. cbv iota.
  rewrite take_app_length' by (by rewrite str_bytes_length).
  change (String.string_of_list_byte (str_bytes origin)) with
    (String.string_of_list_byte (String.list_byte_of_string origin)).
  rewrite String.string_of_list_byte_of_string, Ho. simpl map_err. cbv iota.
  rewrite app_assoc, drop_app_length'; [done|].
  rewrite length_app, length_to_be_bytes, str_bytes_length. done.
Qed.

Lemma parse_workflow_kind_ok k : parse_workflow_kind (workflow_kind k) = Ok k.
Proof. by destruct k. Qed.

(** ** What a ciphertext is bound to *)

Module SecretKind.
Inductive t :=
| RecoverySeed | PrivateKey | MetadataKey | HtlcPreimage | ProviderCapability
| SessionAuthorization.

#[global] Instance t_eq_dec : EqDecision t.
Proof. solve_decision. Defined.

Definition label (k : t) : string :=
  match k with
  | RecoverySeed => "recovery_seed"
  | PrivateKey => "private_key"
  | MetadataKey => "metadata_key"
  | HtlcPreimage => "htlc_preimage"
  | ProviderCapability => "provider_capability"
  | SessionAuthorization => "session_authorization"
  end%string.
End SecretKind.

(** The records the store keeps, with everything their associated data covers. *)
Inductive RecordName :=
| SecretRecord (kind : SecretKind.t) (id : bytes)
| EntityRecord (kind : EntityKind.t) (id : bytes) (revision updated_at : N)
| WorkflowRecord (kind : WorkflowKind) (id : bytes) (revision updated_at : N) (prepared : bool)
| PermissionRow (token : bytes) (generation : N) (revoked : bool) (updated_at : N)
| ApprovalRow (id token : bytes) (expires_at : N)
| ReplayRow (token : bytes) (nonce expires_at : N).

(** The associated data of a record, as the operations build it. *)
Definition aad_of (database_id : bytes) (r : RecordName) : result bytes StoreError :=
  match r with
  | SecretRecord k id => record_aad database_id (SecretKind.label k) id
  | EntityRecord k id rev upd =>
      let* aad_id := revisioned_aad_id id rev upd None in
      record_aad database_id (entity_label k) aad_id
  | WorkflowRecord k id rev upd prepared =>
      let* aad_id := revisioned_aad_id id rev upd (Some prepared) in
      record_aad database_id (workflow_label k) aad_id
  | PermissionRow token g revoked upd =>
      record_aad database_id "provider_permission" (permission_record_id token g revoked upd)
  | ApprovalRow id token exp =>
      record_aad database_id "pending_approval" (approval_record_id id token exp)
  | ReplayRow token nonce exp =>
      record_aad database_id "replay_origin" (replay_record_id token nonce exp)
  end.

(** The widths Rust's types give the fields. *)
Definition record_sized (r : RecordName) : Prop :=
  match r with
  | SecretRecord _ _ => True
  | EntityRecord _ _ rev upd | WorkflowRecord _ _ rev upd _ => rev <= U64_MAX /\ upd <= U64_MAX
  | PermissionRow token g _ upd => length token = 32%nat /\ g <= U64_MAX /\ upd <= U64_MAX
  | ApprovalRow id token exp =>
      length id = 16%nat /\ length token = 32%nat /\ exp <= U64_MAX
  | ReplayRow token nonce exp => length token = 32%nat /\ nonce <= U64_MAX /\ exp <= U64_MAX
  end.

Definition record_kind (r : RecordName) : string :=
  match r with
  | SecretRecord k _ => SecretKind.label k
  | EntityRecord k _ _ _ => entity_label k
  | WorkflowRecord k _ _ _ _ => workflow_label k
  | PermissionRow _ _ _ _ => "provider_permission"
  | ApprovalRow _ _ _ => "pending_approval"
  | ReplayRow _ _ _ => "replay_origin"
  end.

Definition record_id (r : RecordName) : bytes :=
  match r with
  | SecretRecord _ id => id
  | EntityRecord _ id rev upd => id ++ to_be_bytes 8 rev ++ to_be_bytes 8 upd ++ []
  | WorkflowRecord _ id rev upd b => id ++ to_be_bytes 8 rev ++ to_be_bytes 8 upd ++ [bool_byte b]
  | PermissionRow token g revoked upd => permission_record_id token g revoked upd
  | ApprovalRow id token exp => approval_record_id id token exp
  | ReplayRow token nonce exp => replay_record_id token nonce exp
  end.

Lemma aad_of_ok db r a :
  aad_of db r = Ok a -> a = AAD_DOMAIN ++ db ++ str_bytes (record_kind r) ++ [Byte.x00] ++ record_id r.
Proof.
  destruct r; simpl; unfold revisioned_aad_id, record_aad; intros H; run_in H; done.
Qed.

(** No label holds the separator. *)
Lemma record_kind_no_nul r : Byte.x00 ∉ str_bytes (record_kind r).
Proof.
  assert (H : bool_decide (Byte.x00 ∈ str_bytes (record_kind r)) = false);
    [|by apply bool_decide_eq_false in H].
  destruct r as [k ?|k ? ? ?|k ? ? ? ?| | |]; [destruct k|destruct k|destruct k|..]; vm_compute; reflexivity.
Qed.

Lemma entity_label_inj k1 k2 : entity_label k1 = entity_label k2 -> k1 = k2.
Proof. destruct k1; destruct k2; first [reflexivity | intros H; vm_compute in H; discriminate H]. Qed.

Lemma workflow_label_inj k1 k2 : workflow_label k1 = workflow_label k2 -> k1 = k2.
Proof. destruct k1; destruct k2; first [reflexivity | intros H; vm_compute in H; discriminate H]. Qed.

Lemma secret_label_inj k1 k2 : SecretKind.label k1 = SecretKind.label k2 -> k1 = k2.
Proof. by destruct k1, k2. Qed.

Lemma bool_byte_inj b1 b2 : bool_byte b1 = bool_byte b2 -> b1 = b2.
Proof. by destruct b1, b2. Qed.

(** Cut a fixed-width tail, then a fixed-width word. *)
Lemma tail_words_inj (id1 id2 t1 t2 : bytes) (a1 a2 b1 b2 : N) :
  length t1 = length t2 -> a1 <= U64_MAX -> a2 <= U64_MAX -> b1 <= U64_MAX -> b2 <= U64_MAX ->
  id1 ++ to_be_bytes 8 a1 ++ to_be_bytes 8 b1 ++ t1 = id2 ++ to_be_bytes 8 a2 ++ to_be_bytes 8 b2 ++ t2 ->
  id1 = id2 /\ a1 = a2 /\ b1 = b2 /\ t1 = t2.
Proof.
  intros Ht Ha1 Ha2 Hb1 Hb2 H.
  apply app_inj_length_r in H as [-> H]; [|rewrite !length_app, !length_to_be_bytes, Ht; done].
  apply app_inj_length_l in H as [Ha H]; [|by rewrite !length_to_be_bytes].
  apply app_inj_length_l in H as [Hb ->]; [|by rewrite !length_to_be_bytes].
  apply u64_be_inj in Ha, Hb; auto.
Qed.

Lemma record_id_inj r1 r2 :
  record_sized r1 -> record_sized r2 -> record_kind r1 = record_kind r2 ->
  record_id r1 = record_id r2 -> r1 = r2.
Proof.
  destruct r1 as [k1 i1|k1 i1 v1 u1|k1 i1 v1 u1 b1|t1 g1 x1 u1|i1 t1 e1|t1 n1 e1];
    destruct r2 as [k2 i2|k2 i2 v2 u2|k2 i2 v2 u2 b2|t2 g2 x2 u2|i2 t2 e2|t2 n2 e2];
    intros S1 S2 Hk H; cbn [record_sized record_kind record_id] in *;
    try (exfalso; revert Hk; try destruct k1; try destruct k2; vm_compute; discriminate).
  - apply secret_label_inj in Hk as ->. by subst.
  - apply entity_label_inj in Hk as ->.
    apply tail_words_inj in H as (-> & -> & -> & _); tauto.
  - apply workflow_label_inj in Hk as ->.
    apply tail_words_inj in H as (-> & -> & -> & [= ->%bool_byte_inj]); tauto.
  - unfold permission_record_id in H. destruct S1 as (L1 & ? & ?), S2 as (L2 & ? & ?).
    apply app_inj_length_l in H as [-> H]; [|congruence].
    apply app_inj_length_l in H as [Hg H]; [|by rewrite !length_to_be_bytes].
    apply app_inj_length_l in H as [[= ->%bool_byte_inj] Hu]; [|done].
    apply u64_be_inj in Hg, Hu; auto. by subst.
  - unfold approval_record_id in H. destruct S1 as (L1 & L1' & ?), S2 as (L2 & L2' & ?).
    apply app_inj_length_l in H as [-> H]; [|congruence].
    apply app_inj_length_l in H as [-> H]; [|congruence].
    apply u64_be_inj in H; auto. by subst.
  - unfold replay_record_id in H. destruct S1 as (L1 & ? & ?), S2 as (L2 & ? & ?).
    apply app_inj_length_l in H as [-> H]; [|congruence].
    apply app_inj_length_l in H as [Hn H]; [|by rewrite !length_to_be_bytes].
    apply u64_be_inj in H, Hn; auto. by subst.
Qed.

Lemma aad_of_inj db1 db2 r1 r2 a :
  length db1 = length db2 -> record_sized r1 -> record_sized r2 ->
  aad_of db1 r1 = Ok a -> aad_of db2 r2 = Ok a -> db1 = db2 /\ r1 = r2.
Proof.
  intros Hdb S1 S2 H1%aad_of_ok H2%aad_of_ok. rewrite H1 in H2.
  apply app_inj_length_l in H2 as [_ H2]; [|done].
  apply app_inj_length_l in H2 as [-> H2]; [|done]. split; [done|].
  apply app_cons_inj in H2 as [Hk Hi]; try apply record_kind_no_nul.
  apply record_id_inj; auto. by apply str_bytes_inj.
Qed.
