(* ===== verification/Store.v ===== *)
(** * hns-wallet-store: the encrypted transactional store

    Models the record operations of [crates/hns-wallet-store/src/lib.rs]:
    entities, workflows, entity batches with their guards, provider
    permissions, pending approvals, replay nonces and secrets.

    The SQLite tables are finite maps from primary key to row, an
    [INSERT .. ON CONFLICT DO UPDATE] is an insertion, and a transaction that
    ends in an error leaves every table as it found it ([transaction]).  A
    method returns the store next to its result; the store also counts the
    nonces drawn so far, which an error does not give back.  [JsonCodec] is the
    serde_json encoding of a value type.  Failures of SQLite itself, other than
    its refusal of an integer, are not modelled. *)

From stdpp Require Import sorting.
From Stdlib Require Import Strings.Byte.
From S2P Require Import Prelude Types Codec.

(** ** Rows and tables *)

Record EntityRow := { er_revision : N; er_encrypted_value : bytes; er_updated_at : N }.

Record WorkflowRow := {
  wr_kind : string;
  wr_revision : N;
  wr_state_json : bytes;
  wr_broadcast_prepared : bool;
  wr_updated_at : N;
  wr_encryption_version : N;
}.

Record PermissionTableRow := {
  pr_generation : N;
  pr_encrypted_record : bytes;
  pr_updated_at : N;
  pr_revoked : bool;
}.

Record ApprovalTableRow := { ar_origin_token : bytes; ar_encrypted_record : bytes; ar_expires_at : N }.

Record ReplayTableRow := { rr_encrypted_origin : bytes; rr_expires_at : N }.

Record SecretRow := { sr_kind : string; sr_encrypted_value : bytes; sr_updated_at : N }.

Record WalletStore := mkStore {
  key : option bytes;
  database_id : bytes;
  draws : N;
  encrypted_entities : gmap (string * bytes) EntityRow;
  workflows : gmap bytes WorkflowRow;
  private_provider_permissions : gmap bytes PermissionTableRow;
  private_pending_approvals : gmap bytes ApprovalTableRow;
  private_replay_protection : gmap (bytes * N) ReplayTableRow;
  secrets : gmap bytes SecretRow;
}.

Definition set_draws (st : WalletStore) (n : N) : WalletStore :=
  mkStore (key st) (database_id st) n (encrypted_entities st) (workflows st)
    (private_provider_permissions st) (private_pending_approvals st)
    (private_replay_protection st) (secrets st).
Definition set_entities (st : WalletStore) (t : gmap (string * bytes) EntityRow) : WalletStore :=
  mkStore (key st) (database_id st) (draws st) t (workflows st)
    (private_provider_permissions st) (private_pending_approvals st)
    (private_replay_protection st) (secrets st).
Definition set_workflows (st : WalletStore) (t : gmap bytes WorkflowRow) : WalletStore :=
  mkStore (key st) (database_id st) (draws st) (encrypted_entities st) t
    (private_provider_permissions st) (private_pending_approvals st)
    (private_replay_protection st) (secrets st).
Definition set_permissions (st : WalletStore) (t : gmap bytes PermissionTableRow) : WalletStore :=
  mkStore (key st) (database_id st) (draws st) (encrypted_entities st) (workflows st)
    t (private_pending_approvals st) (private_replay_protection st) (secrets st).
Definition set_approvals (st : WalletStore) (t : gmap bytes ApprovalTableRow) : WalletStore :=
  mkStore (key st) (database_id st) (draws st) (encrypted_entities st) (workflows st)
    (private_provider_permissions st) t (private_replay_protection st) (secrets st).
Definition set_replays (st : WalletStore) (t : gmap (bytes * N) ReplayTableRow) : WalletStore :=
  mkStore (key st) (database_id st) (draws st) (encrypted_entities st) (workflows st)
    (private_provider_permissions st) (private_pending_approvals st) t (secrets st).
Definition set_secrets (st : WalletStore) (t : gmap bytes SecretRow) : WalletStore :=
  mkStore (key st) (database_id st) (draws st) (encrypted_entities st) (workflows st)
    (private_provider_permissions st) (private_pending_approvals st)
    (private_replay_protection st) t.

Definition lock (st : WalletStore) : WalletStore :=
  mkStore None (database_id st) (draws st) (encrypted_entities st) (workflows st)
    (private_provider_permissions st) (private_pending_approvals st)
    (private_replay_protection st) (secrets st).

(** A transaction that is not committed is rolled back. *)
Definition transaction {A} (st : WalletStore)
    (body : WalletStore -> WalletStore * result A StoreError) :
    WalletStore * result A StoreError :=
  match body st with
  | (st', Ok a) => (st', Ok a)
  | (st', Err e) => (set_draws st (draws st'), Err e)
  end.

Record StoredEntity (T : Type) := mkEntity {
  se_kind : EntityKind.t;
  se_id : bytes;
  se_revision : N;
  se_value : T;
  se_updated_at_unix : N;
}.
Arguments mkEntity {T}.
Arguments se_kind {T}.
Arguments se_id {T}.
Arguments se_revision {T}.
Arguments se_value {T}.
Arguments se_updated_at_unix {T}.

Record StoredWorkflow (T : Type) := mkWorkflow {
  wf_id : bytes;
  wf_kind : WorkflowKind;
  wf_revision : N;
  wf_state : T;
  irreversible_broadcast_prepared : bool;
  wf_updated_at_unix : N;
}.
Arguments mkWorkflow {T}.
Arguments wf_id {T}.
Arguments wf_kind {T}.
Arguments wf_revision {T}.
Arguments wf_state {T}.
Arguments irreversible_broadcast_prepared {T}.
Arguments wf_updated_at_unix {T}.

Record EntityBatchSave (T : Type) := mkSave {
  bs_id : bytes;
  bs_expected_revision : N;
  bs_value : T;
  bs_updated_at_unix : N;
}.
Arguments mkSave {T}.
Arguments bs_id {T}.
Arguments bs_expected_revision {T}.
Arguments bs_value {T}.
Arguments bs_updated_at_unix {T}.

Record EntityBatchDelete := mkDelete { bd_id : bytes; bd_expected_revision : N }.
Record EntityRevisionAssertion := mkAssertion { ea_id : bytes; ea_expected_revision : N }.
Record WorkflowRevisionAssertion := mkWorkflowAssertion {
  wa_id : bytes;
  wa_kind : WorkflowKind;
  wa_expected_revision : N;
}.

Record PendingApproval := mkApproval {
  pa_id : bytes;
  pa_origin : string;
  pa_request_json : bytes;
  pa_expires_at_unix : N;
}.

(** The rows of a table in primary-key order. *)
Fixpoint bytes_leb (a b : bytes) : bool :=
  match a, b with
  | [], _ => true
  | _ :: _, [] => false
  | x :: a, y :: b =>
      (Byte.to_N x <? Byte.to_N y) || ((Byte.to_N x =? Byte.to_N y) && bytes_leb a b)
  end.

Section Store.
Context {env : StoreEnv}.

(** The integers a statement binds. *)
Definition sql_params (ns : list N) : result unit StoreError :=
  if forallb sql_binds ns then Ok tt else Err Sqlite.

Definition unlocked (st : WalletStore) : result bytes StoreError := ok_or (key st) Locked.

(** [encrypt_record] under the store's identity, drawing the next nonce. *)
Definition encrypt (st : WalletStore) (k : bytes) (kind : string) (id cleartext : bytes) :
    WalletStore * result bytes StoreError :=
  (set_draws st (draws st + 1),
   encrypt_record (draws st) k (database_id st) kind id cleartext).

Definition encode_state {T} `{JsonCodec T} (value : T) : result bytes StoreError :=
  let* encoded := ok_or (json_to_vec value) Json in
  if is_empty encoded || (MAX_STATE_BYTES <? len encoded) then Err RecordTooLarge
  else Ok encoded.

(** The test of [unlock]: the key derived from the passphrase opens the key check. *)
Definition SENTINEL : bytes := str_bytes "hns-wallet-store-key-check-v1".
Definition check_key (k database_id encrypted : bytes) : result unit StoreError :=
  let* clear := map_err (fun _ => InvalidPassphrase)
    (decrypt_record k database_id (SecretKind.label SecretKind.MetadataKey) (str_bytes "key_check") encrypted) in
  if negb (bool_decide (clear = SENTINEL)) then Err InvalidPassphrase else Ok tt.

(** ** Secrets *)

Definition put_secret (st : WalletStore) (id : bytes) (kind : SecretKind.t) (cleartext : bytes)
    (updated_at_unix : N) : WalletStore * result unit StoreError :=
  let! st, _ := (st, validate_id id) in
  if is_empty cleartext || (MAX_SECRET_BYTES <? len cleartext) then (st, Err RecordTooLarge) else
  let! st, k := (st, unlocked st) in
  transaction st (fun st =>
    let write st :=
      let! st, encrypted := encrypt st k (SecretKind.label kind) id cleartext in
      let! st, _ := (st, sql_params [updated_at_unix]) in
      (set_secrets st (<[id := {| sr_kind := SecretKind.label kind;
                                  sr_encrypted_value := encrypted;
                                  sr_updated_at := updated_at_unix |}]> (secrets st)), Ok tt) in
    match secrets st !! id with
    | Some current =>
        if negb (bool_decide (sr_kind current = SecretKind.label kind))
        then (st, Err KindMismatch) else
        if bool_decide (kind = SecretKind.RecoverySeed) then
          let! st, current_clear :=
            (st, decrypt_record k (database_id st) (SecretKind.label kind) id
                                (sr_encrypted_value current)) in
          if bool_decide (current_clear = cleartext) then (st, Ok tt)
          else (st, Err ProtectedSecret)
        else write st
    | None => write st
    end).

Definition get_secret (st : WalletStore) (id : bytes) (expected_kind : SecretKind.t) :
    result (option bytes) StoreError :=
  let* _ := validate_id id in
  let* k := unlocked st in
  match secrets st !! id with
  | None => Ok None
  | Some row =>
      if negb (bool_decide (sr_kind row = SecretKind.label expected_kind))
      then Err KindMismatch else
      let* clear := decrypt_record k (database_id st) (SecretKind.label expected_kind) id
                                   (sr_encrypted_value row) in
      Ok (Some clear)
  end.

Definition delete_secret (st : WalletStore) (id : bytes) : WalletStore * result bool StoreError :=
  let! st, _ := (st, validate_id id) in
  let! st, _ := (st, unlocked st) in
  transaction st (fun st =>
    match secrets st !! id with
    | None => (st, Ok false)
    | Some row =>
        if bool_decide (sr_kind row = SecretKind.label SecretKind.RecoverySeed)
        then (st, Err ProtectedSecret)
        else (set_secrets st (delete id (secrets st)), Ok true)
    end).

(** ** Entities *)

Definition entity_key (kind : EntityKind.t) (id : bytes) : string * bytes :=
  (EntityKind.label kind, id).

(** Decrypt the row stored for an entity under the data it must be bound to. *)
Definition open_entity (st : WalletStore) (k : bytes) (kind : EntityKind.t) (id : bytes)
    (row : EntityRow) : result bytes StoreError :=
  let* aad_id := revisioned_aad_id id (er_revision row) (er_updated_at row) None in
  decrypt_record k (database_id st) (entity_label kind) aad_id (er_encrypted_value row).

Definition authenticated_entity_revision (st : WalletStore) (k : bytes) (kind : EntityKind.t)
    (id : bytes) : result (option N) StoreError :=
  match encrypted_entities st !! entity_key kind id with
  | None => Ok None
  | Some row => let* _ := open_entity st k kind id row in Ok (Some (er_revision row))
  end.

(** The revision a compare-and-swap sees: 0 for an absent row. *)
Definition entity_revision (st : WalletStore) (k : bytes) (kind : EntityKind.t) (id : bytes) :
    result N StoreError :=
  let* r := authenticated_entity_revision st k kind id in Ok (default 0 r).

Definition write_entity (st : WalletStore) (kind : EntityKind.t) (id : bytes) (revision : N)
    (encrypted : bytes) (updated_at : N) : WalletStore * result unit StoreError :=
  let! st, _ := (st, sql_params [revision; updated_at]) in
  (set_entities st (<[entity_key kind id :=
     {| er_revision := revision; er_encrypted_value := encrypted; er_updated_at := updated_at |}]>
     (encrypted_entities st)), Ok tt).

Definition remove_entity (st : WalletStore) (kind : EntityKind.t) (id : bytes) : WalletStore :=
  set_entities st (delete (entity_key kind id) (encrypted_entities st)).

Definition save_entity {T} `{JsonCodec T} (st : WalletStore) (kind : EntityKind.t) (id : bytes)
    (expected_revision : N) (value : T) (updated_at_unix : N) :
    WalletStore * result N StoreError :=
  let! st, _ := (st, validate_id id) in
  let! st, encoded := (st, encode_state value) in
  let! st, k := (st, unlocked st) in
  transaction st (fun st =>
    let! st, actual := (st, entity_revision st k kind id) in
    if negb (actual =? expected_revision)
    then (st, Err (StaleRevision expected_revision actual)) else
    let! st, next := (st, ok_or (u64_add actual 1) RevisionOverflow) in
    let! st, aad_id := (st, revisioned_aad_id id next updated_at_unix None) in
    let! st, encrypted := encrypt st k (entity_label kind) aad_id encoded in
    let! st, _ := write_entity st kind id next encrypted updated_at_unix in
    (st, Ok next)).

Definition load_entity {T} `{JsonCodec T} (st : WalletStore) (kind : EntityKind.t) (id : bytes) :
    result (option (StoredEntity T)) StoreError :=
  let* _ := validate_id id in
  let* k := unlocked st in
  match encrypted_entities st !! entity_key kind id with
  | None => Ok None
  | Some row =>
      let* clear := open_entity st k kind id row in
      let* value := ok_or (json_from_slice clear) Json in
      Ok (Some (mkEntity kind id (er_revision row) value (er_updated_at row)))
  end.

Definition delete_entity (st : WalletStore) (kind : EntityKind.t) (id : bytes)
    (expected_revision : N) : WalletStore * result bool StoreError :=
  let! st, _ := (st, validate_id id) in
  if EntityKind.deletion_protected kind then (st, Err ProtectedEntity) else
  let! st, k := (st, unlocked st) in
  if expected_revision =? 0 then (st, Err InvalidRevision) else
  transaction st (fun st =>
    match encrypted_entities st !! entity_key kind id with
    | None => (st, Ok false)
    | Some row =>
        let! st, _ := (st, open_entity st k kind id row) in
        if negb (er_revision row =? expected_revision)
        then (st, Err (StaleRevision expected_revision (er_revision row))) else
        (remove_entity st kind id, Ok true)
    end).

(** ** Entity batches *)

(** [BTreeSet::insert] as the batch validators use it. *)
Definition fresh_id (ids : list bytes) (id : bytes) : bool := negb (bool_decide (id ∈ ids)).

Record PreparedSave := {
  ps_id : bytes;
  ps_expected : N;
  ps_encoded : bytes;
  ps_updated_at : N;
}.

Fixpoint prepare_saves {E} `{JsonCodec E} (ids : list bytes) (saves : list (EntityBatchSave E)) :
    result (list bytes * list PreparedSave) StoreError :=
  match saves with
  | [] => Ok (ids, [])
  | save :: rest =>
      let* _ := validate_id (bs_id save) in
      if negb (fresh_id ids (bs_id save)) then Err DuplicateBatchEntity else
      let* encoded := encode_state (bs_value save) in
      let* out := prepare_saves (bs_id save :: ids) rest in
      Ok (out.1, {| ps_id := bs_id save; ps_expected := bs_expected_revision save;
                    ps_encoded := encoded; ps_updated_at := bs_updated_at_unix save |} :: out.2)
  end.

Fixpoint check_deletes (ids : list bytes) (deletes : list EntityBatchDelete) :
    result (list bytes) StoreError :=
  match deletes with
  | [] => Ok ids
  | d :: rest =>
      let* _ := validate_id (bd_id d) in
      if (bd_expected_revision d =? 0) || negb (fresh_id ids (bd_id d))
      then Err DuplicateBatchEntity else check_deletes (bd_id d :: ids) rest
  end.

Definition prepare_entity_batch {E} `{JsonCodec E} (saves : list (EntityBatchSave E))
    (deletes : list EntityBatchDelete) : result (list PreparedSave) StoreError :=
  if MAX_ENTITY_BATCH_OPERATIONS <? len saves + len deletes then Err BatchCapacity else
  let* out := prepare_saves [] saves in
  let* _ := check_deletes out.1 deletes in
  Ok out.2.

(** The ids of [saves] and [deletes] in [validate_entity_revision_assertions];
    a delete's revision is not looked at there. *)
Fixpoint check_ids (ids : list bytes) (new : list bytes) : result (list bytes) StoreError :=
  match new with
  | [] => Ok ids
  | id :: rest =>
      let* _ := validate_id id in
      if negb (fresh_id ids id) then Err DuplicateBatchEntity else check_ids (id :: ids) rest
  end.

Fixpoint check_assertions (ids : list bytes) (assertions : list EntityRevisionAssertion) :
    result unit StoreError :=
  match assertions with
  | [] => Ok tt
  | a :: rest =>
      let* _ := validate_id (ea_id a) in
      if ea_expected_revision a =? 0 then Err InvalidRevision else
      if negb (fresh_id ids (ea_id a)) then Err DuplicateBatchEntity else
      check_assertions (ea_id a :: ids) rest
  end.

Definition validate_entity_revision_assertions {E} (saves : list (EntityBatchSave E))
    (deletes : list EntityBatchDelete) (assertions : list EntityRevisionAssertion) :
    result unit StoreError :=
  if MAX_ENTITY_BATCH_OPERATIONS <? len saves + len deletes + len assertions
  then Err BatchCapacity else
  let* ids := check_ids [] (map bs_id saves) in
  let* ids := check_ids ids (map bd_id deletes) in
  check_assertions ids assertions.

Definition EncryptedSave : Type := bytes * N * bytes * N.

Fixpoint authenticate_saves (st : WalletStore) (k : bytes) (kind : EntityKind.t)
    (saves : list PreparedSave) : WalletStore * result (list EncryptedSave) StoreError :=
  match saves with
  | [] => (st, Ok [])
  | s :: rest =>
      let! st, actual := (st, entity_revision st k kind (ps_id s)) in
      if negb (actual =? ps_expected s)
      then (st, Err (StaleRevision (ps_expected s) actual)) else
      let! st, next := (st, ok_or (u64_add actual 1) RevisionOverflow) in
      let! st, aad_id := (st, revisioned_aad_id (ps_id s) next (ps_updated_at s) None) in
      let! st, encrypted := encrypt st k (entity_label kind) aad_id (ps_encoded s) in
      let! st, tail := authenticate_saves st k kind rest in
      (st, Ok ((ps_id s, next, encrypted, ps_updated_at s) :: tail))
  end.

(** Every named entity is at its expected revision. *)
Fixpoint check_revisions (st : WalletStore) (k : bytes) (kind : EntityKind.t)
    (expected : list (bytes * N)) : result unit StoreError :=
  match expected with
  | [] => Ok tt
  | (id, revision) :: rest =>
      let* actual := entity_revision st k kind id in
      if negb (actual =? revision) then Err (StaleRevision revision actual)
      else check_revisions st k kind rest
  end.

Definition delete_targets (deletes : list EntityBatchDelete) : list (bytes * N) :=
  map (fun d => (bd_id d, bd_expected_revision d)) deletes.

Definition authenticate_entity_batch (st : WalletStore) (k : bytes) (kind : EntityKind.t)
    (saves : list PreparedSave) (deletes : list EntityBatchDelete) :
    WalletStore * result (list EncryptedSave) StoreError :=
  if EntityKind.deletion_protected kind && negb (is_empty deletes)
  then (st, Err ProtectedEntity) else
  let! st, encrypted := authenticate_saves st k kind saves in
  let! st, _ := (st, check_revisions st k kind (delete_targets deletes)) in
  (st, Ok encrypted).

Definition authenticate_entity_revision_assertions (st : WalletStore) (k : bytes)
    (kind : EntityKind.t) (assertions : list EntityRevisionAssertion) : result unit StoreError :=
  check_revisions st k kind (map (fun a => (ea_id a, ea_expected_revision a)) assertions).

Fixpoint write_saves (st : WalletStore) (kind : EntityKind.t) (saves : list EncryptedSave) :
    WalletStore * result unit StoreError :=
  match saves with
  | [] => (st, Ok tt)
  | (id, revision, encrypted, updated_at) :: rest =>
      let! st, _ := write_entity st kind id revision encrypted updated_at in
      write_saves st kind rest
  end.

Definition write_entity_batch_in_transaction (st : WalletStore) (kind : EntityKind.t)
    (saves : list EncryptedSave) (deletes : list EntityBatchDelete) :
    WalletStore * result unit StoreError :=
  let! st, _ := write_saves st kind saves in
  (fold_left (fun st d => remove_entity st kind (bd_id d)) deletes st, Ok tt).

Definition apply_entity_batch_in_transaction (st : WalletStore) (k : bytes) (kind : EntityKind.t)
    (saves : list PreparedSave) (deletes : list EntityBatchDelete) :
    WalletStore * result unit StoreError :=
  let! st, encrypted := authenticate_entity_batch st k kind saves deletes in
  write_entity_batch_in_transaction st kind encrypted deletes.

Definition apply_entity_batch {E} `{JsonCodec E} (st : WalletStore) (kind : EntityKind.t)
    (saves : list (EntityBatchSave E)) (deletes : list EntityBatchDelete) :
    WalletStore * result unit StoreError :=
  let! st, prepared := (st, prepare_entity_batch saves deletes) in
  let! st, k := (st, unlocked st) in
  transaction st (fun st => apply_entity_batch_in_transaction st k kind prepared deletes).

Definition apply_entity_batch_with_assertions {E} `{JsonCodec E} (st : WalletStore)
    (kind : EntityKind.t) (saves : list (EntityBatchSave E)) (deletes : list EntityBatchDelete)
    (assertions : list EntityRevisionAssertion) : WalletStore * result unit StoreError :=
  let! st, prepared := (st, prepare_entity_batch saves deletes) in
  let! st, _ := (st, validate_entity_revision_assertions saves deletes assertions) in
  let! st, k := (st, unlocked st) in
  transaction st (fun st =>
    let! st, encrypted := authenticate_entity_batch st k kind prepared deletes in
    let! st, _ := (st, authenticate_entity_revision_assertions st k kind assertions) in
    write_entity_batch_in_transaction st kind encrypted deletes).

(** [delete_entities]: exact rows across namespaces. *)
Fixpoint check_delete_identities (seen : list (EntityKind.t * bytes))
    (deletes : list (EntityKind.t * EntityBatchDelete)) : result unit StoreError :=
  match deletes with
  | [] => Ok tt
  | (kind, d) :: rest =>
      let* _ := validate_id (bd_id d) in
      if EntityKind.deletion_protected kind then Err ProtectedEntity else
      if bd_expected_revision d =? 0 then Err InvalidRevision else
      if bool_decide ((kind, bd_id d) ∈ seen) then Err DuplicateBatchEntity else
      check_delete_identities ((kind, bd_id d) :: seen) rest
  end.

Fixpoint check_delete_revisions (st : WalletStore) (k : bytes)
    (deletes : list (EntityKind.t * EntityBatchDelete)) : result unit StoreError :=
  match deletes with
  | [] => Ok tt
  | (kind, d) :: rest =>
      let* actual := entity_revision st k kind (bd_id d) in
      if negb (actual =? bd_expected_revision d)
      then Err (StaleRevision (bd_expected_revision d) actual)
      else check_delete_revisions st k rest
  end.

Definition delete_entities (st : WalletStore) (deletes : list (EntityKind.t * EntityBatchDelete)) :
    WalletStore * result unit StoreError :=
  if is_empty deletes then (st, Err InvalidRevision) else
  if MAX_ENTITY_BATCH_OPERATIONS <? len deletes then (st, Err BatchCapacity) else
  let! st, _ := (st, check_delete_identities [] deletes) in
  let! st, k := (st, unlocked st) in
  transaction st (fun st =>
    let! st, _ := (st, check_delete_revisions st k deletes) in
    (fold_left (fun st d => remove_entity st d.1 (bd_id d.2)) deletes st, Ok tt)).

(** ** Workflows *)

Definition open_workflow (st : WalletStore) (k : bytes) (kind : WorkflowKind) (id : bytes)
    (row : WorkflowRow) : result bytes StoreError :=
  let* aad_id := revisioned_aad_id id (wr_revision row) (wr_updated_at row)
                                   (Some (wr_broadcast_prepared row)) in
  decrypt_record k (database_id st) (workflow_label kind) aad_id (wr_state_json row).

Definition authenticated_workflow_revision (st : WalletStore) (k : bytes) (id : bytes)
    (expected_kind : WorkflowKind) : result N StoreError :=
  match workflows st !! id with
  | None => Ok 0
  | Some row =>
      let* kind := parse_workflow_kind (wr_kind row) in
      if negb (bool_decide (kind = expected_kind)) then Err WorkflowKindMismatch else
      if negb (wr_encryption_version row =? 1) then Err LegacyEncryptionPending else
      let* _ := open_workflow st k kind id row in
      Ok (wr_revision row)
  end.

(** The [INSERT INTO workflows .. ON CONFLICT(id) DO UPDATE] statement, which
    leaves the kind of an existing row. *)
Definition write_workflow (st : WalletStore) (id : bytes) (kind : WorkflowKind) (revision : N)
    (encrypted : bytes) (prepared : bool) (updated_at : N) :
    WalletStore * result unit StoreError :=
  let! st, _ := (st, sql_params [revision; updated_at]) in
  let stored_kind := match workflows st !! id with
                     | Some row => wr_kind row
                     | None => workflow_kind kind
                     end in
  (set_workflows st (<[id :=
     {| wr_kind := stored_kind; wr_revision := revision; wr_state_json := encrypted;
        wr_broadcast_prepared := prepared; wr_updated_at := updated_at;
        wr_encryption_version := 1 |}]> (workflows st)), Ok tt).

(** Encrypt and write the successor revision of a workflow. *)
Definition advance_workflow (st : WalletStore) (k : bytes) (id : bytes) (kind : WorkflowKind)
    (actual : N) (encoded : bytes) (prepared : bool) (updated_at : N) :
    WalletStore * result N StoreError :=
  let! st, next := (st, ok_or (u64_add actual 1) RevisionOverflow) in
  let! st, aad_id := (st, revisioned_aad_id id next updated_at (Some prepared)) in
  let! st, encrypted := encrypt st k (workflow_label kind) aad_id encoded in
  let! st, _ := write_workflow st id kind next encrypted prepared updated_at in
  (st, Ok next).

Definition save_workflow {T} `{JsonCodec T} (st : WalletStore) (id : bytes) (kind : WorkflowKind)
    (expected_revision : N) (state : T) (prepared : bool) (updated_at_unix : N) :
    WalletStore * result N StoreError :=
  let! st, encoded := (st, ok_or (json_to_vec state) Json) in
  if MAX_STATE_BYTES <? len encoded then (st, Err RecordTooLarge) else
  let! st, k := (st, unlocked st) in
  transaction st (fun st =>
    let! st, actual := (st, authenticated_workflow_revision st k id kind) in
    if negb (actual =? expected_revision)
    then (st, Err (StaleRevision expected_revision actual)) else
    advance_workflow st k id kind actual encoded prepared updated_at_unix).

Definition save_workflow_with_entity_batch {W E} `{JsonCodec W, JsonCodec E} (st : WalletStore)
    (id : bytes) (kind : WorkflowKind) (expected_revision : N) (state : W) (prepared : bool)
    (updated_at_unix : N) (entity_kind : EntityKind.t) (saves : list (EntityBatchSave E))
    (deletes : list EntityBatchDelete) : WalletStore * result N StoreError :=
  let! st, encoded := (st, encode_state state) in
  let! st, prepared_entities := (st, prepare_entity_batch saves deletes) in
  let! st, k := (st, unlocked st) in
  transaction st (fun st =>
    let! st, actual := (st, authenticated_workflow_revision st k id kind) in
    if negb (actual =? expected_revision)
    then (st, Err (StaleRevision expected_revision actual)) else
    let! st, _ := apply_entity_batch_in_transaction st k entity_kind prepared_entities deletes in
    advance_workflow st k id kind actual encoded prepared updated_at_unix).

Definition load_workflow {T} `{JsonCodec T} (st : WalletStore) (id : bytes) :
    result (option (StoredWorkflow T)) StoreError :=
  let* k := unlocked st in
  match workflows st !! id with
  | None => Ok None
  | Some row =>
      if negb (wr_encryption_version row =? 1) then Err LegacyEncryptionPending else
      let* kind := parse_workflow_kind (wr_kind row) in
      let* clear := open_workflow st k kind id row in
      let* state := ok_or (json_from_slice clear) Json in
      Ok (Some (mkWorkflow id kind (wr_revision row) state (wr_broadcast_prepared row)
                           (wr_updated_at row)))
  end.

(** ** Guarded writes *)

(** Advance an entity without changing its plaintext: a consumption tombstone. *)
Definition consume_authenticated_entity_revision (st : WalletStore) (k : bytes)
    (kind : EntityKind.t) (assertion : EntityRevisionAssertion) (consumed_at_unix : N) :
    WalletStore * result unit StoreError :=
  match encrypted_entities st !! entity_key kind (ea_id assertion) with
  | None => (st, Err (StaleRevision (ea_expected_revision assertion) 0))
  | Some row =>
      if negb (er_revision row =? ea_expected_revision assertion)
      then (st, Err (StaleRevision (ea_expected_revision assertion) (er_revision row))) else
      let! st, plaintext := (st, open_entity st k kind (ea_id assertion) row) in
      let! st, next := (st, ok_or (u64_add (er_revision row) 1) RevisionOverflow) in
      let! st, aad_id := (st, revisioned_aad_id (ea_id assertion) next consumed_at_unix None) in
      let! st, encrypted := encrypt st k (entity_label kind) aad_id plaintext in
      write_entity st kind (ea_id assertion) next encrypted consumed_at_unix
  end.

(** An exact workflow revision, an exact entity revision. *)
Definition check_workflow_guard (st : WalletStore) (k : bytes) (guard : WorkflowRevisionAssertion) :
    result unit StoreError :=
  let* actual := authenticated_workflow_revision st k (wa_id guard) (wa_kind guard) in
  if negb (actual =? wa_expected_revision guard)
  then Err (StaleRevision (wa_expected_revision guard) actual) else Ok tt.

Definition check_entity_guard (st : WalletStore) (k : bytes) (kind : EntityKind.t)
    (guard : EntityRevisionAssertion) : result unit StoreError :=
  let* actual := entity_revision st k kind (ea_id guard) in
  if negb (actual =? ea_expected_revision guard)
  then Err (StaleRevision (ea_expected_revision guard) actual) else Ok tt.

(** The batch must not touch the guard itself. *)
Definition batch_touches {E} (saves : list (EntityBatchSave E)) (deletes : list EntityBatchDelete)
    (id : bytes) : bool :=
  existsb (fun s => bool_decide (bs_id s = id)) saves
  || existsb (fun d => bool_decide (bd_id d = id)) deletes.

Definition save_workflow_with_entity_batch_and_guards {W E} `{JsonCodec W, JsonCodec E}
    (st : WalletStore) (id : bytes) (kind : WorkflowKind) (expected_revision : N) (state : W)
    (prepared : bool) (updated_at_unix : N) (entity_kind : EntityKind.t)
    (saves : list (EntityBatchSave E)) (deletes : list EntityBatchDelete)
    (workflow_guard : WorkflowRevisionAssertion) (entity_guard_kind : EntityKind.t)
    (entity_guard : EntityRevisionAssertion) (consume_entity_guard : bool) :
    WalletStore * result N StoreError :=
  if (wa_expected_revision workflow_guard =? 0) || (ea_expected_revision entity_guard =? 0)
     || bool_decide (wa_id workflow_guard = id)
  then (st, Err InvalidRevision) else
  let! st, _ := (st, validate_id (ea_id entity_guard)) in
  if consume_entity_guard && EntityKind.deletion_protected entity_guard_kind
  then (st, Err ProtectedEntity) else
  if bool_decide (entity_guard_kind = entity_kind)
     && batch_touches saves deletes (ea_id entity_guard)
  then (st, Err DuplicateBatchEntity) else
  let! st, encoded := (st, encode_state state) in
  let! st, prepared_entities := (st, prepare_entity_batch saves deletes) in
  let! st, k := (st, unlocked st) in
  transaction st (fun st =>
    let! st, actual := (st, authenticated_workflow_revision st k id kind) in
    if negb (actual =? expected_revision)
    then (st, Err (StaleRevision expected_revision actual)) else
    let! st, _ := (st, check_workflow_guard st k workflow_guard) in
    let! st, _ := (st, check_entity_guard st k entity_guard_kind entity_guard) in
    let! st, _ := apply_entity_batch_in_transaction st k entity_kind prepared_entities deletes in
    let! st, _ :=
      if consume_entity_guard
      then consume_authenticated_entity_revision st k entity_guard_kind entity_guard updated_at_unix
      else (st, Ok tt) in
    advance_workflow st k id kind actual encoded prepared updated_at_unix).

Definition apply_entity_batch_with_workflow_guard_and_consumed_entity {E} `{JsonCodec E}
    (st : WalletStore) (entity_kind : EntityKind.t) (saves : list (EntityBatchSave E))
    (deletes : list EntityBatchDelete) (workflow_guard : WorkflowRevisionAssertion)
    (consumed_entity_kind : EntityKind.t) (consumed_entity : EntityRevisionAssertion)
    (consumed_at_unix : N) : WalletStore * result unit StoreError :=
  if (wa_expected_revision workflow_guard =? 0) || (ea_expected_revision consumed_entity =? 0)
     || EntityKind.deletion_protected consumed_entity_kind || (consumed_at_unix =? 0)
  then (st, Err InvalidRevision) else
  let! st, _ := (st, validate_id (ea_id consumed_entity)) in
  if bool_decide (consumed_entity_kind = entity_kind)
     && batch_touches saves deletes (ea_id consumed_entity)
  then (st, Err DuplicateBatchEntity) else
  let! st, prepared_entities := (st, prepare_entity_batch saves deletes) in
  let! st, k := (st, unlocked st) in
  transaction st (fun st =>
    let! st, _ := (st, check_workflow_guard st k workflow_guard) in
    let! st, _ := (st, check_entity_guard st k consumed_entity_kind consumed_entity) in
    let! st, _ := apply_entity_batch_in_transaction st k entity_kind prepared_entities deletes in
    consume_authenticated_entity_revision st k consumed_entity_kind consumed_entity consumed_at_unix).

(** ** Provider permissions *)

Definition open_permission (st : WalletStore) (k token : bytes) (origin : string)
    (row : PermissionTableRow) : result bytes StoreError :=
  let* clear := decrypt_record k (database_id st) "provider_permission"
    (permission_record_id token (pr_generation row) (pr_revoked row) (pr_updated_at row))
    (pr_encrypted_record row) in
  let* stored := decode_origin_payload clear in
  if negb (bool_decide (stored.1 = origin)) then Err Encryption else Ok stored.2.

Definition put_provider_permission (st : WalletStore) (origin : string) (generation : N)
    (permission_json : bytes) (updated_at_unix : N) : WalletStore * result unit StoreError :=
  let! st, _ := (st, validate_origin origin) in
  if generation =? 0 then (st, Err InvalidGeneration) else
  if is_empty permission_json || (MAX_STATE_BYTES <? len permission_json)
  then (st, Err RecordTooLarge) else
  let! st, k := (st, unlocked st) in
  let! st, token := (st, origin_lookup_token k (database_id st) origin) in
  let! st, clear := (st, encode_origin_payload origin permission_json) in
  transaction st (fun st =>
    let current := private_provider_permissions st !! token in
    let! st, current_generation :=
      (st, match current with
           | Some row => let* _ := open_permission st k token origin row in Ok (pr_generation row)
           | None => Ok 0
           end) in
    let! st, expected_generation :=
      (st, if is_none current then Ok generation
           else ok_or (u64_add current_generation 1) RevisionOverflow) in
    if negb (generation =? expected_generation)
    then (st, Err (StaleGeneration expected_generation generation)) else
    let! st, encrypted := encrypt st k "provider_permission"
      (permission_record_id token generation false updated_at_unix) clear in
    if is_none current
       && (MAX_PROVIDER_PERMISSIONS <=? count (private_provider_permissions st))
    then (st, Err ProviderCapacity) else
    let! st, _ := (st, sql_params [generation; updated_at_unix]) in
    (set_permissions st (<[token :=
       {| pr_generation := generation; pr_encrypted_record := encrypted;
          pr_updated_at := updated_at_unix; pr_revoked := false |}]>
       (private_provider_permissions st)), Ok tt)).

Definition provider_permission (st : WalletStore) (origin : string) :
    result (option (N * bytes)) StoreError :=
  let* _ := validate_origin origin in
  let* k := unlocked st in
  let* token := origin_lookup_token k (database_id st) origin in
  match private_provider_permissions st !! token with
  | None => Ok None
  | Some row =>
      let* permission_json := open_permission st k token origin row in
      Ok (if pr_revoked row then None else Some (pr_generation row, permission_json))
  end.

Definition provider_permission_generation (st : WalletStore) (origin : string) :
    result (option N) StoreError :=
  let* _ := validate_origin origin in
  let* k := unlocked st in
  let* token := origin_lookup_token k (database_id st) origin in
  match private_provider_permissions st !! token with
  | None => Ok None
  | Some row => let* _ := open_permission st k token origin row in Ok (Some (pr_generation row))
  end.

Definition revoke_provider_permission (st : WalletStore) (origin : string)
    (expected_generation next_generation updated_at_unix : N) :
    WalletStore * result unit StoreError :=
  let! st, _ := (st, validate_origin origin) in
  if expected_generation =? 0 then (st, Err InvalidGeneration) else
  let! st, successor := (st, ok_or (u64_add expected_generation 1) RevisionOverflow) in
  if negb (next_generation =? successor) then (st, Err InvalidGeneration) else
  let! st, k := (st, unlocked st) in
  let! st, token := (st, origin_lookup_token k (database_id st) origin) in
  transaction st (fun st =>
    match private_provider_permissions st !! token with
    | None => (st, Err (StaleGeneration expected_generation 0))
    | Some row =>
        if negb (pr_generation row =? expected_generation) || pr_revoked row
        then (st, Err (StaleGeneration expected_generation (pr_generation row))) else
        let! st, _ := (st, open_permission st k token origin row) in
        let! st, tombstone := (st, encode_origin_payload origin (str_bytes "revoked")) in
        let! st, encrypted := encrypt st k "provider_permission"
          (permission_record_id token next_generation true updated_at_unix) tombstone in
        let! st, _ := (st, sql_params [next_generation; updated_at_unix]) in
        (set_permissions st (<[token :=
           {| pr_generation := next_generation; pr_encrypted_record := encrypted;
              pr_updated_at := updated_at_unix; pr_revoked := true |}]>
           (private_provider_permissions st)), Ok tt)
    end).

(** ** Pending approvals *)

Definition open_approval (st : WalletStore) (k id : bytes) (row : ApprovalTableRow) :
    result (string * bytes) StoreError :=
  if negb (bool_decide (length (ar_origin_token row) = 32%nat)) then Err CorruptMetadata else
  let* clear := decrypt_record k (database_id st) "pending_approval"
    (approval_record_id id (ar_origin_token row) (ar_expires_at row)) (ar_encrypted_record row) in
  let* decoded := decode_origin_payload clear in
  let* expected_token := origin_lookup_token k (database_id st) decoded.1 in
  if negb (bool_decide (ar_origin_token row = expected_token)) then Err Encryption else Ok decoded.

Definition authenticated_pending_approval (st : WalletStore) (k id : bytes) :
    result (option PendingApproval) StoreError :=
  match private_pending_approvals st !! id with
  | None => Ok None
  | Some row =>
      let* decoded := open_approval st k id row in
      Ok (Some (mkApproval id decoded.1 decoded.2 (ar_expires_at row)))
  end.

(** The loop of [prune_expired_approvals]: every row is authenticated, the
    expired ones are deleted. *)
Fixpoint prune_approval_rows (st : WalletStore) (k : bytes) (now_unix : N)
    (rows : list (bytes * ApprovalTableRow)) : WalletStore * result unit StoreError :=
  match rows with
  | [] => (st, Ok tt)
  | (id, row) :: rest =>
      if negb (bool_decide (length id = 16%nat)) then (st, Err CorruptMetadata) else
      let! st, _ := (st, open_approval st k id row) in
      let st := if ar_expires_at row <=? now_unix
                then set_approvals st (delete id (private_pending_approvals st)) else st in
      prune_approval_rows st k now_unix rest
  end.

(** [ORDER BY id]. *)
#[local] Instance approval_order_dec :
  RelDecision (fun a b : bytes * ApprovalTableRow => bytes_leb a.1 b.1 = true) :=
  fun a b => decide (bytes_leb a.1 b.1 = true).
Definition approval_rows (st : WalletStore) : list (bytes * ApprovalTableRow) :=
  merge_sort (fun a b => bytes_leb a.1 b.1 = true) (map_to_list (private_pending_approvals st)).

Definition prune_expired_approvals (st : WalletStore) (k : bytes) (now_unix : N) :
    WalletStore * result unit StoreError :=
  let rows := approval_rows st in
  if MAX_PENDING_APPROVALS <? len rows then (st, Err ApprovalCapacity) else
  prune_approval_rows st k now_unix rows.

Definition put_pending_approval (st : WalletStore) (id : bytes) (origin : string)
    (request_json : bytes) (now_unix expires_at_unix : N) : WalletStore * result unit StoreError :=
  let! st, _ := (st, validate_origin origin) in
  if (expires_at_unix <=? now_unix)
     || (MAX_APPROVAL_LIFETIME_SECONDS <? expires_at_unix - now_unix)
  then (st, Err InvalidApprovalWindow) else
  if is_empty request_json || (MAX_STATE_BYTES <? len request_json)
  then (st, Err RecordTooLarge) else
  let! st, k := (st, unlocked st) in
  let! st, token := (st, origin_lookup_token k (database_id st) origin) in
  let! st, clear := (st, encode_origin_payload origin request_json) in
  let! st, encrypted := encrypt st k "pending_approval"
    (approval_record_id id token expires_at_unix) clear in
  transaction st (fun st =>
    let! st, _ := prune_expired_approvals st k now_unix in
    if MAX_PENDING_APPROVALS <=? count (private_pending_approvals st)
    then (st, Err ApprovalCapacity) else
    let! st, _ := (st, sql_params [expires_at_unix]) in
    if is_some (private_pending_approvals st !! id) then (st, Err Sqlite) else
    (set_approvals st (<[id :=
       {| ar_origin_token := token; ar_encrypted_record := encrypted;
          ar_expires_at := expires_at_unix |}]> (private_pending_approvals st)), Ok tt)).

Definition get_pending_approval (st : WalletStore) (id : bytes) (now_unix : N) :
    result (option PendingApproval) StoreError :=
  let* k := unlocked st in
  let* approval := authenticated_pending_approval st k id in
  Ok (match approval with
      | Some a => if now_unix <? pa_expires_at_unix a then Some a else None
      | None => None
      end).

Definition remove_approval (st : WalletStore) (id : bytes) : WalletStore :=
  set_approvals st (delete id (private_pending_approvals st)).

Definition take_pending_approval (st : WalletStore) (id : bytes) (now_unix : N) :
    WalletStore * result (option PendingApproval) StoreError :=
  let! st, k := (st, unlocked st) in
  transaction st (fun st =>
    let! st, found := (st, authenticated_pending_approval st k id) in
    match found with
    | None => (st, Ok None)
    | Some approval =>
        if pa_expires_at_unix approval <=? now_unix then (remove_approval st id, Ok None)
        else (remove_approval st id, Ok (Some approval))
    end).

Definition consume_approval_and_save_workflow_with_entity_batch {W E} `{JsonCodec W, JsonCodec E}
    (st : WalletStore) (expected_approval : PendingApproval) (now_unix : N) (id : bytes)
    (kind : WorkflowKind) (expected_revision : N) (state : W) (prepared : bool)
    (entity_kind : EntityKind.t) (saves : list (EntityBatchSave E))
    (deletes : list EntityBatchDelete) : WalletStore * result (option N) StoreError :=
  let! st, encoded := (st, encode_state state) in
  let! st, prepared_entities := (st, prepare_entity_batch saves deletes) in
  let! st, k := (st, unlocked st) in
  transaction st (fun st =>
    let! st, found := (st, authenticated_pending_approval st k (pa_id expected_approval)) in
    match found with
    | None => (st, Ok None)
    | Some current =>
        if pa_expires_at_unix current <=? now_unix
        then (remove_approval st (pa_id expected_approval), Ok None) else
        if negb (bool_decide (pa_origin current = pa_origin expected_approval))
           || negb (pa_expires_at_unix current =? pa_expires_at_unix expected_approval)
           || negb (bool_decide (pa_request_json current = pa_request_json expected_approval))
        then (st, Ok None) else
        let! st, actual := (st, authenticated_workflow_revision st k id kind) in
        if negb (actual =? expected_revision)
        then (st, Err (StaleRevision expected_revision actual)) else
        let! st, encrypted_entities :=
          authenticate_entity_batch st k entity_kind prepared_entities deletes in
        let! st, next := (st, ok_or (u64_add actual 1) RevisionOverflow) in
        let! st, aad_id := (st, revisioned_aad_id id next now_unix (Some prepared)) in
        let! st, encrypted_workflow := encrypt st k (workflow_label kind) aad_id encoded in
        let! st, _ := write_entity_batch_in_transaction st entity_kind encrypted_entities deletes in
        let st := remove_approval st (pa_id expected_approval) in
        let! st, _ := write_workflow st id kind next encrypted_workflow prepared now_unix in
        (st, Ok (Some next))
    end).

(** ** Replay nonces *)

Definition open_replay (st : WalletStore) (k token : bytes) (nonce : N) (row : ReplayTableRow) :
    result string StoreError :=
  if negb (bool_decide (length token = 32%nat)) then Err CorruptMetadata else
  let* clear := decrypt_record k (database_id st) "replay_origin"
    (replay_record_id token nonce (rr_expires_at row)) (rr_encrypted_origin row) in
  let origin := String.string_of_list_byte clear in
  let* _ := map_err (fun _ => Encryption) (validate_origin origin) in
  let* expected_token := origin_lookup_token k (database_id st) origin in
  if negb (bool_decide (expected_token = token)) then Err Encryption else Ok origin.

Fixpoint prune_replay_rows (st : WalletStore) (k : bytes) (now_unix : N)
    (rows : list ((bytes * N) * ReplayTableRow)) : WalletStore * result unit StoreError :=
  match rows with
  | [] => (st, Ok tt)
  | ((token, nonce), row) :: rest =>
      let! st, _ := (st, open_replay st k token nonce row) in
      let st := if rr_expires_at row <=? now_unix
                then set_replays st (delete (token, nonce) (private_replay_protection st))
                else st in
      prune_replay_rows st k now_unix rest
  end.

(** [ORDER BY origin_token, nonce]. *)
Definition replay_key_leb (a b : bytes * N) : bool :=
  if bool_decide (a.1 = b.1) then a.2 <=? b.2 else bytes_leb a.1 b.1.
#[local] Instance replay_order_dec :
  RelDecision (fun a b : (bytes * N) * ReplayTableRow => replay_key_leb a.1 b.1 = true) :=
  fun a b => decide (replay_key_leb a.1 b.1 = true).
Definition replay_rows (st : WalletStore) : list ((bytes * N) * ReplayTableRow) :=
  merge_sort (fun a b => replay_key_leb a.1 b.1 = true)
             (map_to_list (private_replay_protection st)).

Definition prune_expired_replay (st : WalletStore) (k : bytes) (now_unix : N) :
    WalletStore * result unit StoreError :=
  let rows := replay_rows st in
  if MAX_REPLAY_ROWS <? len rows then (st, Err ReplayGlobalCapacity) else
  prune_replay_rows st k now_unix rows.

(** [COUNT( * ) .. WHERE origin_token=?1] and [COUNT(DISTINCT origin_token)]. *)
Definition replay_count_for (st : WalletStore) (token : bytes) : N :=
  count (retain (fun k _ => bool_decide (k.1 = token)) (private_replay_protection st)).
Definition replay_origins (st : WalletStore) : N :=
  N.of_nat (size (list_to_set (C := gset bytes)
                    (map (fun r => r.1.1) (map_to_list (private_replay_protection st))))).

Definition consume_replay_nonce (st : WalletStore) (origin : string)
    (nonce now_unix expires_at_unix : N) : WalletStore * result unit StoreError :=
  let! st, _ := (st, validate_origin origin) in
  if (nonce =? 0) || (expires_at_unix <=? now_unix)
     || (MAX_REPLAY_LIFETIME_SECONDS <? expires_at_unix - now_unix)
  then (st, Err InvalidReplayWindow) else
  let! st, k := (st, unlocked st) in
  let! st, token := (st, origin_lookup_token k (database_id st) origin) in
  let! st, encrypted_origin := encrypt st k "replay_origin"
    (replay_record_id token nonce expires_at_unix) (str_bytes origin) in
  transaction st (fun st =>
    let! st, _ := prune_expired_replay st k now_unix in
    if MAX_REPLAY_ROWS_PER_ORIGIN <=? replay_count_for st token then (st, Err ReplayCapacity) else
    if MAX_REPLAY_ROWS <=? count (private_replay_protection st)
    then (st, Err ReplayGlobalCapacity) else
    if (replay_count_for st token =? 0) && (MAX_REPLAY_ORIGINS <=? replay_origins st)
    then (st, Err ReplayOriginCapacity) else
    let! st, _ := (st, sql_params [nonce; expires_at_unix]) in
    if is_some (private_replay_protection st !! (token, nonce)) then (st, Err Replay) else
    (set_replays st (<[(token, nonce) :=
       {| rr_encrypted_origin := encrypted_origin; rr_expires_at := expires_at_unix |}]>
       (private_replay_protection st)), Ok tt)).
End Store.
