(* ===== verification/StoreSpec.v ===== *)
(** * What the store promises: a plain table with revisions

    The specification of the entity and workflow operations of file Store,
    without keys, ciphertexts or nonces: a cell is a revision, a JSON text and
    its timestamps, every write is a compare-and-swap on the revision, and a
    number SQLite does not take is refused.
    [store_rel] relates an encrypted store to the cells its rows decrypt to;
    the refinement theorem is in file StoreRefine. *)

From Stdlib Require Import Strings.Byte.
From S2P Require Import Prelude Types Codec Store.

Record Cell := mkCell { cell_revision : N; cell_json : bytes; cell_updated_at : N }.

Record WorkflowCell := mkWorkflowCell {
  wcell_kind : WorkflowKind;
  wcell_revision : N;
  wcell_json : bytes;
  wcell_prepared : bool;
  wcell_updated_at : N;
}.

Record Spec := mkSpec {
  spec_entities : gmap (string * bytes) Cell;
  spec_workflows : gmap bytes WorkflowCell;
}.

Definition spec_empty : Spec := mkSpec ∅ ∅.

Definition spec_revision (a : Spec) (kind : EntityKind.t) (id : bytes) : N :=
  match spec_entities a !! entity_key kind id with Some c => cell_revision c | None => 0 end.

Definition spec_put (a : Spec) (kind : EntityKind.t) (id : bytes) (c : Cell) : Spec :=
  mkSpec (<[entity_key kind id := c]> (spec_entities a)) (spec_workflows a).
Definition spec_remove (a : Spec) (kind : EntityKind.t) (id : bytes) : Spec :=
  mkSpec (delete (entity_key kind id) (spec_entities a)) (spec_workflows a).
Definition spec_put_workflow (a : Spec) (id : bytes) (c : WorkflowCell) : Spec :=
  mkSpec (spec_entities a) (<[id := c]> (spec_workflows a)).

Section Table.
Context {env : StoreEnv}.

(** A row is written if SQLite takes its numbers. *)
Definition spec_write (a : Spec) (kind : EntityKind.t) (id : bytes) (c : Cell) : result Spec StoreError :=
  let* _ := sql_params [cell_revision c; cell_updated_at c] in Ok (spec_put a kind id c).

(** The successor of an expected revision. *)
Definition spec_cas (actual expected : N) : result N StoreError :=
  if negb (actual =? expected) then Err (StaleRevision expected actual)
  else ok_or (u64_add actual 1) RevisionOverflow.

Definition spec_save_entity (a : Spec) (kind : EntityKind.t) (id : bytes) (expected : N)
    (json : bytes) (updated_at : N) : result (N * Spec) StoreError :=
  let* next := spec_cas (spec_revision a kind id) expected in
  let* a := spec_write a kind id (mkCell next json updated_at) in
  Ok (next, a).

Definition spec_delete_entity (a : Spec) (kind : EntityKind.t) (id : bytes) (expected : N) :
    result (bool * Spec) StoreError :=
  match spec_entities a !! entity_key kind id with
  | None => Ok (false, a)
  | Some c =>
      if negb (cell_revision c =? expected)
      then Err (StaleRevision expected (cell_revision c))
      else Ok (true, spec_remove a kind id)
  end.

Definition spec_workflow_revision (a : Spec) (id : bytes) (kind : WorkflowKind) :
    result N StoreError :=
  match spec_workflows a !! id with
  | None => Ok 0
  | Some c => if negb (bool_decide (wcell_kind c = kind)) then Err WorkflowKindMismatch
              else Ok (wcell_revision c)
  end.

Definition spec_advance (a : Spec) (id : bytes) (kind : WorkflowKind) (actual : N) (json : bytes)
    (prepared : bool) (updated_at : N) : result (N * Spec) StoreError :=
  let* next := ok_or (u64_add actual 1) RevisionOverflow in
  let* _ := sql_params [next; updated_at] in
  Ok (next, spec_put_workflow a id (mkWorkflowCell kind next json prepared updated_at)).

Definition spec_save_workflow (a : Spec) (id : bytes) (kind : WorkflowKind) (expected : N)
    (json : bytes) (prepared : bool) (updated_at : N) : result (N * Spec) StoreError :=
  let* actual := spec_workflow_revision a id kind in
  if negb (actual =? expected) then Err (StaleRevision expected actual)
  else spec_advance a id kind actual json prepared updated_at.

(** A batch: first every expected revision is compared, then all is written. *)
Fixpoint spec_check_saves (a : Spec) (kind : EntityKind.t) (saves : list PreparedSave) :
    result (list (bytes * Cell)) StoreError :=
  match saves with
  | [] => Ok []
  | s :: rest =>
      let* next := spec_cas (spec_revision a kind (ps_id s)) (ps_expected s) in
      let* tail := spec_check_saves a kind rest in
      Ok ((ps_id s, mkCell next (ps_encoded s) (ps_updated_at s)) :: tail)
  end.

Fixpoint spec_check_revisions (a : Spec) (kind : EntityKind.t) (expected : list (bytes * N)) :
    result unit StoreError :=
  match expected with
  | [] => Ok tt
  | (id, revision) :: rest =>
      if negb (spec_revision a kind id =? revision)
      then Err (StaleRevision revision (spec_revision a kind id))
      else spec_check_revisions a kind rest
  end.

Fixpoint spec_write_saves (a : Spec) (kind : EntityKind.t) (writes : list (bytes * Cell)) : result Spec StoreError :=
  match writes with
  | [] => Ok a
  | w :: rest => let* a := spec_write a kind w.1 w.2 in spec_write_saves a kind rest
  end.

Definition spec_removals (a : Spec) (kind : EntityKind.t) (deletes : list EntityBatchDelete) : Spec :=
  fold_left (fun a d => spec_remove a kind (bd_id d)) deletes a.

(** A batch whose rows were compared, and the further rows it asserts. *)
Definition spec_apply_asserted (a : Spec) (kind : EntityKind.t) (saves : list PreparedSave)
    (deletes : list EntityBatchDelete) (assertions : list EntityRevisionAssertion) : result Spec StoreError :=
  if EntityKind.deletion_protected kind && negb (is_empty deletes) then Err ProtectedEntity else
  let* writes := spec_check_saves a kind saves in
  let* _ := spec_check_revisions a kind (delete_targets deletes) in
  let* _ := spec_check_revisions a kind (map (fun x => (ea_id x, ea_expected_revision x)) assertions) in
  let* a := spec_write_saves a kind writes in
  Ok (spec_removals a kind deletes).

Definition spec_apply_batch (a : Spec) (kind : EntityKind.t) (saves : list PreparedSave)
    (deletes : list EntityBatchDelete) : result Spec StoreError :=
  spec_apply_asserted a kind saves deletes [].

(** Rows of several kinds are deleted together. *)
Fixpoint spec_check_targets (a : Spec) (deletes : list (EntityKind.t * EntityBatchDelete)) : result unit StoreError :=
  match deletes with
  | [] => Ok tt
  | (kind, d) :: rest =>
      if negb (spec_revision a kind (bd_id d) =? bd_expected_revision d)
      then Err (StaleRevision (bd_expected_revision d) (spec_revision a kind (bd_id d)))
      else spec_check_targets a rest
  end.

Definition spec_delete_entities (a : Spec) (deletes : list (EntityKind.t * EntityBatchDelete)) : result Spec StoreError :=
  let* _ := spec_check_targets a deletes in
  Ok (fold_left (fun a d => spec_remove a d.1 (bd_id d.2)) deletes a).

Definition spec_save_workflow_with_batch (a : Spec) (id : bytes) (kind : WorkflowKind)
    (expected : N) (json : bytes) (prepared : bool) (updated_at : N) (entity_kind : EntityKind.t)
    (saves : list PreparedSave) (deletes : list EntityBatchDelete) :
    result (N * Spec) StoreError :=
  let* actual := spec_workflow_revision a id kind in
  if negb (actual =? expected) then Err (StaleRevision expected actual) else
  let* a := spec_apply_batch a entity_kind saves deletes in
  spec_advance a id kind actual json prepared updated_at.

(** Consuming an entity moves its revision on and keeps its content. *)
Definition spec_consume (a : Spec) (kind : EntityKind.t) (assertion : EntityRevisionAssertion)
    (consumed_at : N) : result Spec StoreError :=
  match spec_entities a !! entity_key kind (ea_id assertion) with
  | None => Err (StaleRevision (ea_expected_revision assertion) 0)
  | Some c =>
      let* next := spec_cas (cell_revision c) (ea_expected_revision assertion) in
      spec_write a kind (ea_id assertion) (mkCell next (cell_json c) consumed_at)
  end.

Definition spec_check_guards (a : Spec) (workflow_guard : WorkflowRevisionAssertion)
    (guard_kind : EntityKind.t) (guard : EntityRevisionAssertion) : result unit StoreError :=
  let* actual := spec_workflow_revision a (wa_id workflow_guard) (wa_kind workflow_guard) in
  if negb (actual =? wa_expected_revision workflow_guard)
  then Err (StaleRevision (wa_expected_revision workflow_guard) actual) else
  if negb (spec_revision a guard_kind (ea_id guard) =? ea_expected_revision guard)
  then Err (StaleRevision (ea_expected_revision guard) (spec_revision a guard_kind (ea_id guard)))
  else Ok tt.

Definition spec_save_guarded (a : Spec) (id : bytes) (kind : WorkflowKind) (expected : N)
    (json : bytes) (prepared : bool) (updated_at : N) (entity_kind : EntityKind.t)
    (saves : list PreparedSave) (deletes : list EntityBatchDelete)
    (workflow_guard : WorkflowRevisionAssertion) (guard_kind : EntityKind.t)
    (guard : EntityRevisionAssertion) (consume : bool) : result (N * Spec) StoreError :=
  let* actual := spec_workflow_revision a id kind in
  if negb (actual =? expected) then Err (StaleRevision expected actual) else
  let* _ := spec_check_guards a workflow_guard guard_kind guard in
  let* a := spec_apply_batch a entity_kind saves deletes in
  let* a := if consume then spec_consume a guard_kind guard updated_at else Ok a in
  spec_advance a id kind actual json prepared updated_at.

Definition spec_apply_guarded (a : Spec) (entity_kind : EntityKind.t) (saves : list PreparedSave)
    (deletes : list EntityBatchDelete) (workflow_guard : WorkflowRevisionAssertion) (consumed_kind : EntityKind.t)
    (consumed : EntityRevisionAssertion) (consumed_at : N) : result Spec StoreError :=
  let* _ := spec_check_guards a workflow_guard consumed_kind consumed in
  let* a := spec_apply_batch a entity_kind saves deletes in
  spec_consume a consumed_kind consumed consumed_at.
End Table.

(** ** The relation *)

(** A text [encrypt_record] takes. *)
Definition clear_ok (clear : bytes) : Prop :=
  is_empty clear = false /\ len clear <= MAX_SECRET_BYTES.

Section Relation.
Context {env : StoreEnv}.

Definition entity_rel (st : WalletStore) (k : bytes) (kind : EntityKind.t) (id : bytes)
    (row : EntityRow) (c : Cell) : Prop :=
  er_revision row = cell_revision c /\ er_updated_at row = cell_updated_at c /\
  open_entity st k kind id row = Ok (cell_json c).

Definition workflow_rel (st : WalletStore) (k : bytes) (id : bytes)
    (row : WorkflowRow) (c : WorkflowCell) : Prop :=
  wr_kind row = workflow_kind (wcell_kind c) /\ wr_revision row = wcell_revision c /\
  wr_broadcast_prepared row = wcell_prepared c /\ wr_updated_at row = wcell_updated_at c /\
  wr_encryption_version row = 1 /\ open_workflow st k (wcell_kind c) id row = Ok (wcell_json c).

(** The store is unlocked with [k] and every row decrypts to its cell. *)
Record store_rel (k : bytes) (st : WalletStore) (a : Spec) : Prop := {
  rel_key : key st = Some k;
  rel_clear : forall key c, spec_entities a !! key = Some c -> clear_ok (cell_json c);
  rel_entities : forall kind id,
    option_Forall2 (entity_rel st k kind id) (encrypted_entities st !! entity_key kind id)
                   (spec_entities a !! entity_key kind id);
  rel_workflows : forall id,
    option_Forall2 (workflow_rel st k id) (workflows st !! id) (spec_workflows a !! id);
}.

(** The errors only the environment causes: one of the draws from [i] on and below
    [j] gave no nonce, or the cipher refused to seal under it. *)
Definition crypto_fails (k : bytes) (i j : N) (e : StoreError) : Prop :=
  exists d, i <= d < j /\
    (e = Randomness /\ fill_random d = None
     \/ e = Encryption /\ exists nonce aad clear,
          fill_random d = Some nonce /\ clear_ok clear /\ aead_seal k nonce aad clear = None).

(** An outcome of the store that has made [i] draws against the outcome the
    specification gives. *)
Definition simulates {A} (k : bytes) (i : N) (a : Spec) (impl : WalletStore * result A StoreError)
    (spec : result (A * Spec) StoreError) : Prop :=
  i <= draws impl.1 /\
  (match spec with
   | Ok (r, a') => impl.2 = Ok r /\ store_rel k impl.1 a'
   | Err e => impl.2 = Err e /\ store_rel k impl.1 a
   end \/
   exists e, impl.2 = Err e /\ crypto_fails k i (draws impl.1) e /\ store_rel k impl.1 a).
End Relation.
