(* ===== verification/StoreRefine.v ===== *)
(** * The encrypted store refines its specification

    Every entity and workflow operation of file Store, run on a store whose
    rows decrypt to the cells of a specification state, gives the outcome the
    specification gives and ends in a related state, or fails because a nonce
    could not be drawn or a text not sealed, and changes nothing. *)

From Stdlib Require Import Strings.Byte.
From S2P Require Import Prelude Types Codec Store StoreSpec.

Section Refinement.
Context {env : StoreEnv} {laws : StoreEnvLaws}.

(** ** Keys *)

Lemma entity_key_inj k1 i1 k2 i2 : entity_key k1 i1 = entity_key k2 i2 -> k1 = k2 /\ i1 = i2.
Proof.
  unfold entity_key. intros H. injection H as Hl ->. split; [|done].
  apply entity_label_inj. unfold entity_label. by rewrite Hl.
Qed.

(** ** Encryption *)

Lemma revisioned_aad_id_ok id r u b :
  validate_id id = Ok tt -> exists aad, revisioned_aad_id id r u b = Ok aad /\
    is_empty aad = false /\ len aad <= MAX_RECORD_ID_BYTES + 64.
Proof.
  intros Hv. unfold revisioned_aad_id. rewrite Hv. eexists. split; [done|].
  apply validate_id_ok in Hv as [Hpos Hmax]. destruct id; [simpl in Hpos; lia|]. split; [done|].
  unfold len in *. rewrite !length_app, !length_to_be_bytes. unfold MAX_RECORD_ID_BYTES in *.
  destruct b; simpl in *; lia.
Qed.

Lemma label_sized s : bool_decide (s = EmptyString) = false -> str_len s <= 64 ->
  forall db id, is_empty id = false -> len id <= MAX_RECORD_ID_BYTES + 64 ->
  exists aad, record_aad db s id = Ok aad.
Proof.
  intros Hne Hlen db id Hid Hl. unfold record_aad. rewrite Hid, Hne.
  rewrite (proj2 (N.ltb_ge _ _)) by done. rewrite (proj2 (N.ltb_ge _ _)) by done. by eexists.
Qed.

Lemma entity_label_aad kind db id : is_empty id = false -> len id <= MAX_RECORD_ID_BYTES + 64 ->
  exists aad, record_aad db (entity_label kind) id = Ok aad.
Proof. apply label_sized; [by destruct kind|]. destruct kind; vm_compute; discriminate. Qed.

Lemma workflow_label_aad kind db id : is_empty id = false -> len id <= MAX_RECORD_ID_BYTES + 64 ->
  exists aad, record_aad db (workflow_label kind) id = Ok aad.
Proof. apply label_sized; [by destruct kind|]. destruct kind; vm_compute; discriminate. Qed.

Lemma crypto_fails_widen k i j i' j' e : i' <= i -> j <= j' -> crypto_fails k i j e -> crypto_fails k i' j' e.
Proof. intros Hi Hj (d & Hd & H). exists d. split; [lia|done]. Qed.

(** Encryption of an admissible text succeeds and decrypts to it, unless the
    environment fails. *)
Lemma encrypt_cases st k kind id clear aad :
  record_aad (database_id st) kind id = Ok aad -> clear_ok clear ->
  exists r, encrypt st k kind id clear = (set_draws st (draws st + 1), r) /\
    match r with
    | Ok c => decrypt_record k (database_id st) kind id c = Ok clear
    | Err e => crypto_fails k (draws st) (draws st + 1) e
    end.
Proof.
  intros Ha Hc. pose proof Hc as [Hne Hlen]. eexists. split; [done|].
  destruct (encrypt_record _ _ _ _ _ _) as [c|e] eqn:He; [by eapply decrypt_encrypt|].
  unfold encrypt_record in He. rewrite Hne in He.
  rewrite (proj2 (N.ltb_ge MAX_SECRET_BYTES (len clear)) Hlen) in He.
  simpl in He. rewrite Ha in He.
  exists (draws st). split; [lia|].
  destruct (fill_random _) as [n|] eqn:Hr; simpl in He; [right|left; by simplify_eq].
  destruct (aead_seal _ _ _ _) eqn:Hs; simpl in He; simplify_eq. split; [done|]. by exists n, aad, clear.
Qed.

#[local] Opaque encrypt.

(** ** The relation *)

Lemma store_rel_draws k st a n : store_rel k st a -> store_rel k (set_draws st n) a.
Proof. intros []. by split. Qed.

Lemma entity_revision_spec k st a kind id :
  store_rel k st a -> entity_revision st k kind id = Ok (spec_revision a kind id).
Proof.
  intros [Hkey Hcl Hent Hwf]. unfold entity_revision, authenticated_entity_revision, spec_revision.
  specialize (Hent kind id). destruct Hent as [row c (Hr & Hu & Ho)|]; [|done].
  rewrite Ho. simpl. by rewrite Hr.
Qed.

Lemma workflow_revision_spec k st a id kind :
  store_rel k st a ->
  authenticated_workflow_revision st k id kind = spec_workflow_revision a id kind.
Proof.
  intros [Hkey Hcl Hent Hwf]. unfold authenticated_workflow_revision, spec_workflow_revision.
  specialize (Hwf id).
  destruct Hwf as [row c (Hk & Hr & Hb & Hu & Hv & Ho)|]; [|done].
  rewrite Hk, parse_workflow_kind_ok. case_bool_decide; simpl; [|done]. subst.
  rewrite Hv, Ho. simpl. by rewrite Hr.
Qed.

(** Inside a transaction that started after [i] draws: a success matches the
    specification and keeps the relation; an error is the specification's or the
    environment's. *)
Definition body_sim {A} (k : bytes) (i : N) (impl : WalletStore * result A StoreError)
    (spec : result (A * Spec) StoreError) : Prop :=
  i <= draws impl.1 /\
  match impl.2 with
  | Ok r => exists a', spec = Ok (r, a') /\ store_rel k impl.1 a'
  | Err e => spec = Err e \/ crypto_fails k i (draws impl.1) e
  end.

Lemma transaction_sim {A} k i st a (body : WalletStore -> WalletStore * result A StoreError) spec :
  store_rel k st a -> body_sim k i (body st) spec -> simulates k i a (transaction st body) spec.
Proof.
  intros Hrel Hb. unfold transaction, body_sim, simulates in *.
  destruct (body st) as [st' [r|e]]; simpl in *; destruct Hb as [Hi Hb]; (split; [done|]).
  - destruct Hb as (a' & -> & Hr). by left.
  - destruct Hb as [->|He]; [left|right].
    + split; [done|]. by apply store_rel_draws.
    + exists e. split_and!; try done. by apply store_rel_draws.
Qed.

(** A pure step, an error the specification has too, an error of the environment. *)
Lemma body_ok {A} k i st (r : A) a : i <= draws st -> store_rel k st a -> body_sim k i (st, Ok r) (Ok (r, a)).
Proof. intros Hi Hrel. split; [done|]. by exists a. Qed.

Lemma body_err {A} k i st e : i <= draws st -> body_sim k i (st, @Err A StoreError e) (Err e).
Proof. intros Hi. split; [done|]. by left. Qed.

Lemma body_env {A} k i st e (spec : result (A * Spec) StoreError) :
  i <= draws st -> crypto_fails k i (draws st) e -> body_sim k i (st, Err e) spec.
Proof. intros Hi He. split; [done|]. by right. Qed.

Lemma body_widen {A} k i i' (impl : WalletStore * result A StoreError) spec :
  i' <= i -> body_sim k i impl spec -> body_sim k i' impl spec.
Proof.
  intros Hi [Hd H]. split; [lia|]. destruct impl.2; [done|]. destruct H as [?|?]; [by left|right].
  eapply crypto_fails_widen; [exact Hi|reflexivity|done].
Qed.

(** One step after another. *)
Lemma body_bind {A B} k i (impl : WalletStore * result A StoreError)
    (f : WalletStore -> A -> WalletStore * result B StoreError) spec g :
  body_sim k i impl spec ->
  (forall st r a', impl = (st, Ok r) -> spec = Ok (r, a') -> store_rel k st a' ->
     body_sim k (draws st) (f st r) (g r a')) ->
  body_sim k i (match impl with (st, Ok r) => f st r | (st, Err e) => (st, Err e) end)
               (match spec with Ok x => g x.1 x.2 | Err e => Err e end).
Proof.
  intros [Hi H1] H2. destruct impl as [st [r|e]]; simpl in *.
  - destruct H1 as (a' & -> & Hrel). eapply body_widen; [exact Hi|]. by apply H2.
  - split; [done|]. simpl. destruct H1 as [->|?]; [by left|by right].
Qed.

(** The same, for a step whose result is the specification's next state. *)
Lemma body_then {B} k i (impl : WalletStore * result unit StoreError)
    (f : WalletStore -> unit -> WalletStore * result B StoreError) spec g :
  body_sim k i impl (let* a := spec in Ok (tt, a)) ->
  (forall st a', spec = Ok a' -> store_rel k st a' -> body_sim k (draws st) (f st tt) (g a')) ->
  body_sim k i (match impl with (st, Ok r) => f st r | (st, Err e) => (st, Err e) end)
               (let* a := spec in g a).
Proof.
  intros H1 H2. destruct spec as [a|e].
  - refine (body_bind k i impl f (Ok (tt, a)) (fun _ a => g a) H1 _).
    intros st [] a' _ [= <-] Hrel. by apply H2.
  - refine (body_bind k i impl f (Err e) (fun _ a => g a) H1 _). intros; done.
Qed.

(** ** Writing one row *)

Lemma put_entity_rel k st a kind id r enc u json :
  store_rel k st a -> clear_ok json ->
  (exists aad, revisioned_aad_id id r u None = Ok aad /\
     decrypt_record k (database_id st) (entity_label kind) aad enc = Ok json) ->
  store_rel k (set_entities st (<[entity_key kind id :=
      {| er_revision := r; er_encrypted_value := enc; er_updated_at := u |}]> (encrypted_entities st)))
    (spec_put a kind id (mkCell r json u)).
Proof.
  intros [Hkey Hcl Hent Hwf] Hjson (aad & Haad & Hd). split; [done| | |done].
  { intros key c. simpl. rewrite lookup_insert_Some. intros [[_ <-]|[_ ?]]; [done|eauto]. }
  intros kind' id'. simpl.
  destruct (decide (entity_key kind id = entity_key kind' id')) as [E|Hne].
  - apply entity_key_inj in E as [<- <-]. rewrite !lookup_insert_eq. constructor.
    split_and!; [done|done|]. unfold open_entity. simpl. rewrite Haad. done.
  - rewrite !lookup_insert_ne by done. apply Hent.
Qed.

Lemma remove_entity_rel k st a kind id :
  store_rel k st a -> store_rel k (remove_entity st kind id) (spec_remove a kind id).
Proof.
  intros [Hkey Hcl Hent Hwf]. split; [done| | |done].
  { intros key c. simpl. rewrite lookup_delete_Some. intros [_ ?]. eauto. }
  intros kind' id'. simpl.
  destruct (decide (entity_key kind id = entity_key kind' id')) as [->|Hne].
  - rewrite !lookup_delete_eq. constructor.
  - rewrite !lookup_delete_ne by done. apply Hent.
Qed.

Lemma put_workflow_rel k st a id kind r enc prepared u json :
  store_rel k st a ->
  (forall c, spec_workflows a !! id = Some c -> wcell_kind c = kind) ->
  (exists aad, revisioned_aad_id id r u (Some prepared) = Ok aad /\
     decrypt_record k (database_id st) (workflow_label kind) aad enc = Ok json) ->
  store_rel k (set_workflows st (<[id :=
      {| wr_kind := match workflows st !! id with Some row => wr_kind row | None => workflow_kind kind end;
         wr_revision := r; wr_state_json := enc; wr_broadcast_prepared := prepared;
         wr_updated_at := u; wr_encryption_version := 1 |}]> (workflows st)))
    (spec_put_workflow a id (mkWorkflowCell kind r json prepared u)).
Proof.
  intros [Hkey Hcl Hent Hwf] Hkind (aad & Haad & Hd). split; [done|done|done|]. intros id'. simpl.
  destruct (decide (id = id')) as [<-|Hne].
  - rewrite !lookup_insert_eq. constructor. split_and!; try done; simpl.
    + pose proof (Hwf id) as Hw. destruct (workflows st !! id) as [row|] eqn:E; [|done].
      inversion Hw as [? c (Hk & _) Hx Hc|]; subst. rewrite Hk, (Hkind c); [done|]. by symmetry.
    + unfold open_workflow. simpl. rewrite Haad. done.
  - rewrite !lookup_insert_ne by done. apply Hwf.
Qed.

(** ** Encrypt and write *)

(** The encrypted form of a cell for entity [id]. *)
Definition seals (db k : bytes) (kind : EntityKind.t) (id : bytes) (r : N) (enc : bytes) (u : N)
    (json : bytes) : Prop :=
  clear_ok json /\
  exists aad, revisioned_aad_id id r u None = Ok aad /\
    decrypt_record k db (entity_label kind) aad enc = Ok json.

Lemma encrypt_entity st k kind id r u json :
  validate_id id = Ok tt -> clear_ok json ->
  exists aad res, revisioned_aad_id id r u None = Ok aad /\
    encrypt st k (entity_label kind) aad json = (set_draws st (draws st + 1), res) /\
    match res with
    | Ok enc => seals (database_id st) k kind id r enc u json
    | Err e => crypto_fails k (draws st) (draws st + 1) e
    end.
Proof.
  intros Hv Hc. destruct (revisioned_aad_id_ok id r u None Hv) as (aad & Haad & Hne & Hlen).
  destruct (entity_label_aad kind (database_id st) aad Hne Hlen) as [full Hfull].
  destruct (encrypt_cases st k _ _ json _ Hfull Hc) as (res & He & Hres).
  exists aad, res. split_and!; try done. destruct res; [|done]. split; [done|]. by exists aad.
Qed.

Lemma write_entity_sim k st a kind id r enc u json :
  store_rel k st a -> seals (database_id st) k kind id r enc u json ->
  body_sim k (draws st) (write_entity st kind id r enc u)
    (let* a := spec_write a kind id (mkCell r json u) in Ok (tt, a)).
Proof.
  intros Hrel Hs. unfold write_entity, spec_write. simpl.
  destruct (sql_params [r; u]) as [[]|]; [|by apply body_err].
  apply body_ok; [done|]. destruct Hs. by apply put_entity_rel.
Qed.

Lemma write_entity_db st kind id r enc u st' res :
  write_entity st kind id r enc u = (st', res) -> database_id st' = database_id st.
Proof. unfold write_entity. intros E. by run_in E. Qed.

(** A batch writes the entity table only. *)
Lemma write_saves_frame kind saves : forall st st' r,
  write_saves st kind saves = (st', r) -> st' = set_entities st (encrypted_entities st').
Proof.
  induction saves as [|[[[i n] c] u] saves IH]; intros st st' r H; cbn [write_saves] in H.
  { simplify_eq. by destruct st'. }
  unfold write_entity in H. destruct (sql_params _); [|simplify_eq; by destruct st'].
  apply IH in H. by rewrite H.
Qed.

Lemma write_batch_frame st kind saves deletes st' r :
  write_entity_batch_in_transaction st kind saves deletes = (st', r) ->
  st' = set_entities st (encrypted_entities st').
Proof.
  unfold write_entity_batch_in_transaction. intros H.
  destruct (write_saves st kind saves) as [st1 r1] eqn:E. apply write_saves_frame in E.
  destruct r1; simplify_eq; [|done]. rewrite E. generalize (encrypted_entities st1).
  induction deletes as [|d ds IH]; intros t; simpl; [done|]. apply IH.
Qed.

#[local] Opaque write_entity entity_revision.

Lemma advance_workflow_sim k st a id kind actual json prepared u :
  store_rel k st a -> validate_id id = Ok tt -> clear_ok json ->
  (forall c, spec_workflows a !! id = Some c -> wcell_kind c = kind) ->
  body_sim k (draws st) (advance_workflow st k id kind actual json prepared u)
             (spec_advance a id kind actual json prepared u).
Proof.
  intros Hrel Hv Hc Hkind. unfold advance_workflow, spec_advance.
  destruct (ok_or (u64_add actual 1) RevisionOverflow) as [next|e]; [|by apply body_err].
  destruct (revisioned_aad_id_ok id next u (Some prepared) Hv) as (aad & Haad & Hne & Hlen).
  destruct (workflow_label_aad kind (database_id st) aad Hne Hlen) as [full Hfull].
  destruct (encrypt_cases st k _ _ json _ Hfull Hc) as (res & He & Hres).
  rewrite Haad, He. destruct res as [enc|e]; [|apply body_env; simpl; [lia|done]].
  unfold write_workflow. destruct (sql_params [next; u]) as [[]|]; [|apply body_err; simpl; lia].
  apply body_ok; [simpl; lia|].
  apply (put_workflow_rel k (set_draws st (draws st + 1)));
    [by apply store_rel_draws|done|by exists aad].
Qed.

Lemma spec_workflow_kind a id kind r :
  spec_workflow_revision a id kind = Ok r ->
  forall c, spec_workflows a !! id = Some c -> wcell_kind c = kind.
Proof.
  unfold spec_workflow_revision. intros H c Hc. rewrite Hc in H. by case_bool_decide.
Qed.

(** ** Batches *)

Definition prepared_ok (s : PreparedSave) : Prop :=
  validate_id (ps_id s) = Ok tt /\ clear_ok (ps_encoded s).

(** An encrypted save against the cell it carries. *)
Definition save_rel (db k : bytes) (kind : EntityKind.t) (s : EncryptedSave)
    (w : bytes * Cell) : Prop :=
  let '(id, r, enc, u) := s in
  id = w.1 /\ r = cell_revision w.2 /\ u = cell_updated_at w.2 /\
  seals db k kind id r enc u (cell_json w.2).

Lemma authenticate_saves_sim k a kind saves : forall st st' res,
  store_rel k st a -> Forall prepared_ok saves ->
  authenticate_saves st k kind saves = (st', res) ->
  store_rel k st' a /\ database_id st' = database_id st /\ draws st <= draws st' /\
  match res with
  | Ok l => exists ws, spec_check_saves a kind saves = Ok ws /\
                       Forall2 (save_rel (database_id st) k kind) l ws
  | Err e => spec_check_saves a kind saves = Err e \/ crypto_fails k (draws st) (draws st') e
  end.
Proof.
  induction saves as [|s saves IH]; intros st st' res Hrel Hok H; simpl in *.
  { simplify_eq. split_and!; [done..|]. by exists []. }
  inversion Hok as [|? ? [Hv Hc] Hrest]; subst.
  rewrite (entity_revision_spec _ _ _ _ _ Hrel) in H. unfold spec_cas.
  destruct (negb _); [simplify_eq; by split_and!; [..|left]|].
  destruct (ok_or _ _) as [next|e]; [|simplify_eq; by split_and!; [..|left]].
  destruct (encrypt_entity st k kind (ps_id s) next (ps_updated_at s) (ps_encoded s) Hv Hc)
    as (aad & r & Haad & He & Hr). rewrite Haad, He in H. simpl.
  destruct r as [enc|e];
    [|simplify_eq; split_and!; [by apply store_rel_draws|done|simpl; lia|by right]].
  destruct (authenticate_saves _ k kind saves) as [st2 r2] eqn:H2.
  destruct (IH _ _ _ (store_rel_draws _ _ _ _ Hrel) Hrest H2) as (Hrel2 & Hdb & Hd & Hm). simpl in Hd.
  destruct r2 as [tail|e]; simplify_eq; (split_and!; [done..|lia|]).
  - destruct Hm as (ws & -> & HF). eexists. split; [done|]. constructor; [|done]. by split_and!.
  - destruct Hm as [->|?]; [by left|right]. eapply crypto_fails_widen; [|reflexivity|done]. simpl. lia.
Qed.

Lemma check_revisions_spec k st a kind expected :
  store_rel k st a ->
  check_revisions st k kind expected = spec_check_revisions a kind expected.
Proof.
  intros Hrel. induction expected as [|[id r] l IH]; simpl; [done|].
  rewrite (entity_revision_spec _ _ _ _ _ Hrel). by rewrite IH.
Qed.

Lemma write_saves_sim k kind ws : forall st a l,
  store_rel k st a -> Forall2 (save_rel (database_id st) k kind) l ws ->
  body_sim k (draws st) (write_saves st kind l) (let* a := spec_write_saves a kind ws in Ok (tt, a)).
Proof.
  induction ws as [|[id c] ws IH]; intros st a l Hrel HF.
  - inversion HF; subst. by apply body_ok.
  - inversion HF as [|[[[i r] enc] u] ? ? ? Hs HF']; subst. cbn [write_saves spec_write_saves fst snd].
    unfold save_rel in Hs. simpl in Hs. destruct Hs as (-> & -> & -> & Hseal).
    pose proof (write_entity_sim _ _ _ _ _ _ _ _ _ Hrel Hseal) as Hw. destruct c as [r json u]. simpl in Hw |- *.
    assert (forall st2 x, write_entity st kind id r enc u = (st2, x) -> database_id st2 = database_id st) as Hdb
      by (intros; by eapply write_entity_db).
    destruct (spec_write a kind id (mkCell r json u)) as [a'|e].
    + refine (body_bind k _ _ (fun st _ => write_saves st kind l0) (Ok (tt, a'))
        (fun _ a => let* a := spec_write_saves a kind ws in Ok (tt, a)) Hw _).
      intros st2 [] a2 E [= <-] Hrel2. apply IH; [done|]. by rewrite (Hdb _ _ E).
    + refine (body_bind k _ _ (fun st _ => write_saves st kind l0) (Err e) (fun _ a => Ok (tt, a)) Hw _). intros; done.
Qed.

Lemma fold_remove_rel k kind deletes : forall st a,
  store_rel k st a ->
  store_rel k (fold_left (fun st d => remove_entity st kind (bd_id d)) deletes st) (spec_removals a kind deletes).
Proof. induction deletes as [|d ds IH]; intros st a H; simpl; auto using remove_entity_rel. Qed.

Lemma fold_remove_draws kind deletes : forall st,
  draws (fold_left (fun st d => remove_entity st kind (bd_id d)) deletes st) = draws st.
Proof. induction deletes as [|d ds IH]; intros st; simpl; [done|]. by rewrite IH. Qed.

(** The writes of a batch whose rows were compared. *)
Lemma write_batch_sim k st a kind l ws deletes :
  store_rel k st a -> Forall2 (save_rel (database_id st) k kind) l ws ->
  body_sim k (draws st) (write_entity_batch_in_transaction st kind l deletes)
    (let* a := (let* a := spec_write_saves a kind ws in Ok (spec_removals a kind deletes)) in Ok (tt, a)).
Proof.
  intros Hrel HF. unfold write_entity_batch_in_transaction.
  pose proof (write_saves_sim k kind ws st a l Hrel HF) as Hw.
  destruct (spec_write_saves a kind ws) as [a'|e].
  - refine (body_bind k _ _ (fun st _ => (fold_left (fun st d => remove_entity st kind (bd_id d)) deletes st, Ok tt))
      (Ok (tt, a')) (fun _ a => Ok (tt, spec_removals a kind deletes)) Hw _).
    intros st2 [] a2 _ [= <-] Hrel2. apply body_ok; [by rewrite fold_remove_draws|]. by apply fold_remove_rel.
  - refine (body_bind k _ _ _ (Err e) (fun _ a => Ok (tt, a)) Hw _). intros; done.
Qed.

Lemma apply_asserted_sim k st a kind saves deletes assertions :
  store_rel k st a -> Forall prepared_ok saves ->
  body_sim k (draws st)
    (let! st, encrypted := authenticate_entity_batch st k kind saves deletes in
     let! st, _ := (st, authenticate_entity_revision_assertions st k kind assertions) in
     write_entity_batch_in_transaction st kind encrypted deletes)
    (let* a := spec_apply_asserted a kind saves deletes assertions in Ok (tt, a)).
Proof.
  intros Hrel Hok. unfold authenticate_entity_batch, authenticate_entity_revision_assertions, spec_apply_asserted.
  destruct (_ && _); [by apply body_err|].
  destruct (authenticate_saves st k kind saves) as [st2 r] eqn:H.
  destruct (authenticate_saves_sim _ _ _ _ _ _ _ Hrel Hok H) as (Hrel2 & Hdb & Hd & Hm).
  destruct r as [l|e]; [|destruct Hm as [->|?]; [by apply body_err|by apply body_env]].
  destruct Hm as (ws & -> & HF).
  rewrite (check_revisions_spec _ _ _ _ (delete_targets deletes) Hrel2).
  destruct (spec_check_revisions a kind (delete_targets deletes)) as [[]|e]; [|by apply body_err].
  rewrite (check_revisions_spec _ _ _ _ _ Hrel2).
  destruct (spec_check_revisions a kind _) as [[]|e]; [|by apply body_err].
  eapply body_widen; [exact Hd|]. rewrite <- Hdb in HF. by apply (write_batch_sim k st2 a kind l ws deletes).
Qed.

Lemma apply_batch_sim k st a kind saves deletes :
  store_rel k st a -> Forall prepared_ok saves ->
  body_sim k (draws st) (apply_entity_batch_in_transaction st k kind saves deletes)
             (let* a := spec_apply_batch a kind saves deletes in Ok (tt, a)).
Proof. intros Hrel Hok. exact (apply_asserted_sim k st a kind saves deletes [] Hrel Hok). Qed.

Lemma authenticate_batch_sim k st a kind saves deletes st1 l :
  store_rel k st a -> Forall prepared_ok saves ->
  authenticate_entity_batch st k kind saves deletes = (st1, Ok l) ->
  exists ws, store_rel k st1 a /\ Forall2 (save_rel (database_id st1) k kind) l ws /\
    spec_apply_batch a kind saves deletes =
      let* a := spec_write_saves a kind ws in Ok (spec_removals a kind deletes).
Proof.
  intros Hrel Hok H. unfold authenticate_entity_batch in H. unfold spec_apply_batch, spec_apply_asserted.
  destruct (_ && _); [done|]. destruct (authenticate_saves st k kind saves) as [st2 [l2|]] eqn:Hs; [|done].
  destruct (authenticate_saves_sim _ _ _ _ _ _ _ Hrel Hok Hs) as (Hrel2 & Hdb & _ & ws & -> & HF).
  rewrite (check_revisions_spec _ _ _ _ _ Hrel2) in H.
  destruct (spec_check_revisions a kind (delete_targets deletes)) as [[]|]; [|done].
  simplify_eq. rewrite <- Hdb in HF. by exists ws.
Qed.

(** ** Deleting across kinds *)

Lemma check_targets_spec k st a deletes :
  store_rel k st a -> check_delete_revisions st k deletes = spec_check_targets a deletes.
Proof.
  intros Hrel. induction deletes as [|[kind d] l IH]; simpl; [done|].
  rewrite (entity_revision_spec _ _ _ _ _ Hrel). by rewrite IH.
Qed.

Lemma delete_entities_body k st a deletes :
  store_rel k st a ->
  body_sim k (draws st)
    (let! st, _ := (st, check_delete_revisions st k deletes) in
     (fold_left (fun st d => remove_entity st d.1 (bd_id d.2)) deletes st, Ok tt))
    (let* a := spec_delete_entities a deletes in Ok (tt, a)).
Proof.
  intros Hrel. unfold spec_delete_entities. rewrite (check_targets_spec _ _ _ _ Hrel).
  destruct (spec_check_targets a deletes) as [[]|e]; [|by apply body_err].
  assert (forall st, draws (fold_left (fun st d => remove_entity st d.1 (bd_id d.2)) deletes st) = draws st) as Hd.
  { induction deletes as [|d ds IH]; intros x; simpl; [done|]. by rewrite IH. }
  apply body_ok; [by rewrite Hd|]. clear Hd. revert st a Hrel.
  induction deletes as [|d ds IH]; intros st a Hrel; simpl; auto using remove_entity_rel.
Qed.

(** ** Guards *)

Lemma check_guards_spec k st a wg ek g :
  store_rel k st a ->
  (let* _ := check_workflow_guard st k wg in check_entity_guard st k ek g)
  = spec_check_guards a wg ek g.
Proof.
  intros Hrel. unfold check_workflow_guard, check_entity_guard, spec_check_guards.
  rewrite (workflow_revision_spec _ _ _ _ _ Hrel), (entity_revision_spec _ _ _ _ _ Hrel).
  by destruct (spec_workflow_revision _ _ _) as [r|]; [destruct (negb (r =? _))|].
Qed.

Lemma consume_sim k st a kind g u :
  store_rel k st a -> validate_id (ea_id g) = Ok tt ->
  body_sim k (draws st) (consume_authenticated_entity_revision st k kind g u)
             (let* a := spec_consume a kind g u in Ok (tt, a)).
Proof.
  intros Hrel Hv. unfold consume_authenticated_entity_revision, spec_consume.
  pose proof (rel_entities _ _ _ Hrel kind (ea_id g)) as He.
  pose proof (rel_clear _ _ _ Hrel (entity_key kind (ea_id g))) as Hclear.
  destruct He as [row c (Hr & Hu & Ho)|]; [|by apply body_err]. unfold spec_cas. rewrite <- Hr.
  destruct (negb _); [by apply body_err|]. rewrite Ho.
  destruct (ok_or _ _) as [next|e]; [|by apply body_err].
  destruct (encrypt_entity st k kind (ea_id g) next u (cell_json c) Hv (Hclear c eq_refl))
    as (aad & res & Haad & Henc & Hres). rewrite Haad, Henc.
  destruct res as [enc|e]; [|apply body_env; simpl; [lia|done]].
  eapply body_widen; [|apply (write_entity_sim k (set_draws st (draws st + 1))); [by apply store_rel_draws|done]].
  simpl. lia.
Qed.

(** ** Inputs *)

Lemma encode_state_ok {T} `{JsonCodec T} (v : T) b : encode_state v = Ok b -> clear_ok b.
Proof. unfold encode_state, clear_ok. intros Hb. run_in Hb. bool_prop. done. Qed.

Lemma prepare_saves_ok {E} `{JsonCodec E} (saves : list (EntityBatchSave E)) : forall ids out,
  prepare_saves ids saves = Ok out -> Forall prepared_ok out.2.
Proof.
  induction saves as [|s saves IH]; intros ids out Ho; simpl in Ho; [by simplify_eq|].
  destruct (validate_id (bs_id s)) as [[]|] eqn:Hv; [|done].
  destruct (negb _); [done|]. destruct (encode_state _) as [b|] eqn:Hb; [|done].
  destruct (prepare_saves _ saves) as [tail|] eqn:Ht; [|done]. simplify_eq. simpl.
  constructor; [|by eapply IH]. split; [done|]. by eapply encode_state_ok.
Qed.

Lemma prepare_batch_ok {E} `{JsonCodec E} (saves : list (EntityBatchSave E)) deletes out :
  prepare_entity_batch saves deletes = Ok out -> Forall prepared_ok out.
Proof.
  unfold prepare_entity_batch. intros Ho. destruct (_ <? _); [done|].
  destruct (prepare_saves [] saves) as [o|] eqn:Hp; [|done].
  destruct (check_deletes _ _); [|done]. simplify_eq. by eapply prepare_saves_ok.
Qed.

(** ** Public operations *)

Section Operations.
Context {T : Type} {codec : JsonCodec T} {codec_laws : JsonLaws T}.

Inductive store_op :=
| SaveEntity (kind : EntityKind.t) (id : bytes) (expected : N) (value : T) (updated_at : N)
| DeleteEntity (kind : EntityKind.t) (id : bytes) (expected : N)
| ApplyBatch (kind : EntityKind.t) (saves : list (EntityBatchSave T))
    (deletes : list EntityBatchDelete)
| SaveWorkflow (id : bytes) (kind : WorkflowKind) (expected : N) (value : T) (prepared : bool)
    (updated_at : N)
| SaveWorkflowBatch (id : bytes) (kind : WorkflowKind) (expected : N) (value : T)
    (prepared : bool) (updated_at : N) (entity_kind : EntityKind.t)
    (saves : list (EntityBatchSave T)) (deletes : list EntityBatchDelete)
| SaveGuarded (id : bytes) (kind : WorkflowKind) (expected : N) (value : T) (prepared : bool)
    (updated_at : N) (entity_kind : EntityKind.t) (saves : list (EntityBatchSave T))
    (deletes : list EntityBatchDelete) (workflow_guard : WorkflowRevisionAssertion)
    (guard_kind : EntityKind.t) (guard : EntityRevisionAssertion) (consume : bool)
| DeleteEntities (deletes : list (EntityKind.t * EntityBatchDelete))
| ApplyAsserted (kind : EntityKind.t) (saves : list (EntityBatchSave T))
    (deletes : list EntityBatchDelete) (assertions : list EntityRevisionAssertion)
| ApplyGuarded (kind : EntityKind.t) (saves : list (EntityBatchSave T))
    (deletes : list EntityBatchDelete) (workflow_guard : WorkflowRevisionAssertion)
    (consumed_kind : EntityKind.t) (consumed : EntityRevisionAssertion) (consumed_at : N)
| LoadEntity (kind : EntityKind.t) (id : bytes)
| LoadWorkflow (id : bytes).

Inductive store_out :=
| OutRevision (n : N)
| OutBool (b : bool)
| OutUnit
| OutEntity (e : option (StoredEntity T))
| OutWorkflow (w : option (StoredWorkflow T)).

(** The result of an operation under a name. *)
Definition named {A B} (f : A -> B) (p : WalletStore * result A StoreError) :
    WalletStore * result B StoreError :=
  match p with (st, Ok a) => (st, Ok (f a)) | (st, Err e) => (st, Err e) end.
Definition spec_named {A B} (f : A -> B) (p : result (A * Spec) StoreError) :
    result (B * Spec) StoreError :=
  let* x := p in Ok (f x.1, x.2).

Definition store_exec (st : WalletStore) (o : store_op) : WalletStore * result store_out StoreError :=
  match o with
  | SaveEntity kind id e v u => named OutRevision (save_entity st kind id e v u)
  | DeleteEntity kind id e => named OutBool (delete_entity st kind id e)
  | ApplyBatch kind saves deletes =>
      named (fun _ => OutUnit) (apply_entity_batch st kind saves deletes)
  | SaveWorkflow id kind e v b u => named OutRevision (save_workflow st id kind e v b u)
  | SaveWorkflowBatch id kind e v b u ek saves deletes =>
      named OutRevision (save_workflow_with_entity_batch st id kind e v b u ek saves deletes)
  | SaveGuarded id kind e v b u ek saves deletes wg gk g c =>
      named OutRevision (save_workflow_with_entity_batch_and_guards st id kind e v b u ek saves
                           deletes wg gk g c)
  | DeleteEntities deletes => named (fun _ => OutUnit) (delete_entities st deletes)
  | ApplyAsserted kind saves deletes assertions =>
      named (fun _ => OutUnit) (apply_entity_batch_with_assertions st kind saves deletes assertions)
  | ApplyGuarded kind saves deletes wg ck c at_unix =>
      named (fun _ => OutUnit)
        (apply_entity_batch_with_workflow_guard_and_consumed_entity st kind saves deletes wg ck c at_unix)
  | LoadEntity kind id => named OutEntity (st, load_entity st kind id)
  | LoadWorkflow id => named OutWorkflow (st, load_workflow st id)
  end.

(** Reading a cell. *)
Definition spec_load_entity (a : Spec) (kind : EntityKind.t) (id : bytes) : result (option (StoredEntity T)) StoreError :=
  let* _ := validate_id id in
  match spec_entities a !! entity_key kind id with
  | None => Ok None
  | Some c => let* v := ok_or (json_from_slice (cell_json c)) Json in
              Ok (Some (mkEntity kind id (cell_revision c) v (cell_updated_at c)))
  end.

Definition spec_load_workflow (a : Spec) (id : bytes) : result (option (StoredWorkflow T)) StoreError :=
  match spec_workflows a !! id with
  | None => Ok None
  | Some c => let* v := ok_or (json_from_slice (wcell_json c)) Json in
              Ok (Some (mkWorkflow id (wcell_kind c) (wcell_revision c) v (wcell_prepared c) (wcell_updated_at c)))
  end.

(** The same operation on the specification: the checks of the arguments, then
    the abstract effect. *)
Definition spec_exec (a : Spec) (o : store_op) : result (store_out * Spec) StoreError :=
  match o with
  | SaveEntity kind id e v u =>
      let* _ := validate_id id in
      let* json := encode_state v in
      spec_named OutRevision (spec_save_entity a kind id e json u)
  | DeleteEntity kind id e =>
      let* _ := validate_id id in
      if EntityKind.deletion_protected kind then Err ProtectedEntity else
      if e =? 0 then Err InvalidRevision else
      spec_named OutBool (spec_delete_entity a kind id e)
  | ApplyBatch kind saves deletes =>
      let* prepared := prepare_entity_batch saves deletes in
      let* a' := spec_apply_batch a kind prepared deletes in Ok (OutUnit, a')
  | SaveWorkflow id kind e v b u =>
      let* json := ok_or (json_to_vec v) Json in
      if MAX_STATE_BYTES <? len json then Err RecordTooLarge else
      spec_named OutRevision (spec_save_workflow a id kind e json b u)
  | SaveWorkflowBatch id kind e v b u ek saves deletes =>
      let* json := encode_state v in
      let* prepared := prepare_entity_batch saves deletes in
      spec_named OutRevision (spec_save_workflow_with_batch a id kind e json b u ek prepared deletes)
  | SaveGuarded id kind e v b u ek saves deletes wg gk g c =>
      if (wa_expected_revision wg =? 0) || (ea_expected_revision g =? 0)
         || bool_decide (wa_id wg = id) then Err InvalidRevision else
      let* _ := validate_id (ea_id g) in
      if c && EntityKind.deletion_protected gk then Err ProtectedEntity else
      if bool_decide (gk = ek) && batch_touches saves deletes (ea_id g)
      then Err DuplicateBatchEntity else
      let* json := encode_state v in
      let* prepared := prepare_entity_batch saves deletes in
      spec_named OutRevision (spec_save_guarded a id kind e json b u ek prepared deletes wg gk g c)
  | DeleteEntities deletes =>
      if is_empty deletes then Err InvalidRevision else
      if MAX_ENTITY_BATCH_OPERATIONS <? len deletes then Err BatchCapacity else
      let* _ := check_delete_identities [] deletes in
      let* a' := spec_delete_entities a deletes in Ok (OutUnit, a')
  | ApplyAsserted kind saves deletes assertions =>
      let* prepared := prepare_entity_batch saves deletes in
      let* _ := validate_entity_revision_assertions saves deletes assertions in
      let* a' := spec_apply_asserted a kind prepared deletes assertions in Ok (OutUnit, a')
  | ApplyGuarded kind saves deletes wg ck c at_unix =>
      if (wa_expected_revision wg =? 0) || (ea_expected_revision c =? 0)
         || EntityKind.deletion_protected ck || (at_unix =? 0) then Err InvalidRevision else
      let* _ := validate_id (ea_id c) in
      if bool_decide (ck = kind) && batch_touches saves deletes (ea_id c) then Err DuplicateBatchEntity else
      let* prepared := prepare_entity_batch saves deletes in
      let* a' := spec_apply_guarded a kind prepared deletes wg ck c at_unix in Ok (OutUnit, a')
  | LoadEntity kind id => let* e := spec_load_entity a kind id in Ok (OutEntity e, a)
  | LoadWorkflow id => let* w := spec_load_workflow a id in Ok (OutWorkflow w, a)
  end.

(** [WorkflowId] is 16 bytes. *)
Definition op_sized (o : store_op) : Prop :=
  match o with
  | SaveWorkflow id _ _ _ _ _ | SaveWorkflowBatch id _ _ _ _ _ _ _ _
  | SaveGuarded id _ _ _ _ _ _ _ _ _ _ _ _ => length id = 16%nat
  | _ => True
  end.

Lemma workflow_id_valid id : length id = 16%nat -> validate_id id = Ok tt.
Proof.
  intros Hl. unfold validate_id, len. rewrite Hl. by destruct id; [|].
Qed.

Lemma named_sim {A B} k i a (f : A -> B) impl spec :
  simulates k i a impl spec -> simulates k i a (named f impl) (spec_named f spec).
Proof.
  unfold simulates. destruct impl as [st [r|e]]; simpl;
    destruct spec as [[r' a']|e']; simpl; intros [Hi [[He Hr]|(e0 & He & Henv & Hr)]]; simplify_eq;
    (split; [done|]); try (left; done); right; eauto.
Qed.

(** An operation that returns nothing. *)
Lemma unit_sim k i a impl spec :
  simulates k i a impl (let* a := spec in Ok (tt, a)) ->
  simulates k i a (named (fun _ => OutUnit) impl) (let* a := spec in Ok (OutUnit, a)).
Proof. intros H%(named_sim _ _ _ (fun _ => OutUnit)). by destruct spec. Qed.

Lemma pure_error {A} k st a e : store_rel k st a ->
  simulates k (draws st) a (st, @Err A StoreError e) (Err e).
Proof. intros Hrel. split; [done|]. by left. Qed.

Lemma save_entity_body k st a kind id e json u :
  store_rel k st a -> validate_id id = Ok tt -> clear_ok json ->
  body_sim k (draws st)
    (let! st, actual := (st, entity_revision st k kind id) in
     if negb (actual =? e) then (st, Err (StaleRevision e actual)) else
     let! st, next := (st, ok_or (u64_add actual 1) RevisionOverflow) in
     let! st, aad_id := (st, revisioned_aad_id id next u None) in
     let! st, encrypted := encrypt st k (entity_label kind) aad_id json in
     let! st, _ := write_entity st kind id next encrypted u in
     (st, Ok next))
    (spec_save_entity a kind id e json u).
Proof.
  intros Hrel Hv Hc. rewrite (entity_revision_spec _ _ _ _ _ Hrel).
  unfold spec_save_entity, spec_cas. destruct (negb _); [by apply body_err|].
  destruct (ok_or _ _) as [next|]; [|by apply body_err].
  destruct (encrypt_entity st k kind id next u json Hv Hc) as (aad & res & Haad & Henc & Hres).
  rewrite Haad, Henc. destruct res as [enc|]; [|apply body_env; simpl; [lia|done]].
  eapply body_widen; [|refine (body_then k _ _ (fun st _ => (st, Ok next)) _ (fun a => Ok (next, a))
    (write_entity_sim k (set_draws st (draws st + 1)) a kind id next enc u json (store_rel_draws _ _ _ _ Hrel) Hres) _)].
  - simpl. lia.
  - intros st' a' _ Hrel'. by apply body_ok.
Qed.

Lemma save_workflow_body k st a id kind e json b u :
  store_rel k st a -> validate_id id = Ok tt -> clear_ok json ->
  body_sim k (draws st)
    (let! st, actual := (st, authenticated_workflow_revision st k id kind) in
     if negb (actual =? e) then (st, Err (StaleRevision e actual)) else
     advance_workflow st k id kind actual json b u)
    (spec_save_workflow a id kind e json b u).
Proof.
  intros Hrel Hv Hc. rewrite (workflow_revision_spec _ _ _ _ _ Hrel). unfold spec_save_workflow.
  destruct (spec_workflow_revision a id kind) as [actual|] eqn:Hw; [|by apply body_err].
  destruct (negb _); [by apply body_err|]. apply advance_workflow_sim; try done.
  by eapply spec_workflow_kind.
Qed.

Lemma delete_entity_body k st a kind id e :
  store_rel k st a ->
  body_sim k (draws st)
    (match encrypted_entities st !! entity_key kind id with
     | None => (st, Ok false)
     | Some row =>
         let! st, _ := (st, open_entity st k kind id row) in
         if negb (er_revision row =? e) then (st, Err (StaleRevision e (er_revision row))) else
         (remove_entity st kind id, Ok true)
     end) (spec_delete_entity a kind id e).
Proof.
  intros Hrel. unfold spec_delete_entity.
  destruct (rel_entities _ _ _ Hrel kind id) as [row c (Hr & Hu & Ho)|]; [|by apply body_ok].
  rewrite Ho, <- Hr. destruct (negb _); [by apply body_err|].
  apply body_ok; [done|]. by apply remove_entity_rel.
Qed.

(** The batch does not touch the workflows. *)
Lemma spec_write_workflows a kind id c a' : spec_write a kind id c = Ok a' -> spec_workflows a' = spec_workflows a.
Proof. unfold spec_write. intros H. by run_in H. Qed.

Lemma spec_apply_batch_workflows a kind saves deletes a' :
  spec_apply_batch a kind saves deletes = Ok a' -> spec_workflows a' = spec_workflows a.
Proof.
  unfold spec_apply_batch, spec_apply_asserted. intros H. destruct (_ && _); [done|].
  destruct (spec_check_saves a kind saves) as [ws|]; [|done]. destruct (spec_check_revisions _ _ _); [|done].
  simpl in H. destruct (spec_write_saves a kind ws) as [a1|] eqn:Hw; [|done]. apply Ok_inj in H as <-.
  assert (forall ds a, spec_workflows (spec_removals a kind ds) = spec_workflows a) as ->.
  { induction ds as [|d ds IH]; intros x; simpl; [done|]. by rewrite IH. }
  revert a Hw. induction ws as [|w ws IH]; intros a Hw; simpl in Hw; [by simplify_eq|].
  destruct (spec_write a kind w.1 w.2) as [a2|] eqn:Hp; [|done]. rewrite (IH _ Hw). by eapply spec_write_workflows.
Qed.

Lemma spec_consume_workflows a kind g u a' :
  spec_consume a kind g u = Ok a' -> spec_workflows a' = spec_workflows a.
Proof. unfold spec_consume. intros H. run_in H. by eapply spec_write_workflows. Qed.

Lemma save_workflow_batch_body k st a id kind e json b u ek prepared deletes :
  store_rel k st a -> validate_id id = Ok tt -> clear_ok json -> Forall prepared_ok prepared ->
  body_sim k (draws st)
    (let! st, actual := (st, authenticated_workflow_revision st k id kind) in
     if negb (actual =? e) then (st, Err (StaleRevision e actual)) else
     let! st, _ := apply_entity_batch_in_transaction st k ek prepared deletes in
     advance_workflow st k id kind actual json b u)
    (spec_save_workflow_with_batch a id kind e json b u ek prepared deletes).
Proof.
  intros Hrel Hv Hc Hp. rewrite (workflow_revision_spec _ _ _ _ _ Hrel).
  unfold spec_save_workflow_with_batch.
  destruct (spec_workflow_revision a id kind) as [actual|] eqn:Hw; [|by apply body_err].
  destruct (negb _); [by apply body_err|].
  apply (body_then k _ _ (fun st _ => advance_workflow st k id kind actual json b u) _ _
    (apply_batch_sim k st a ek prepared deletes Hrel Hp)).
  intros st' a' Ha Hrel'. apply advance_workflow_sim; try done.
  rewrite (spec_apply_batch_workflows _ _ _ _ _ Ha). by eapply spec_workflow_kind.
Qed.

(** The step a pending approval pays for, once the approval was found. *)
Lemma spend_approval_body k st a id kind e json b u ek prepared deletes pid :
  store_rel k st a -> validate_id id = Ok tt -> clear_ok json -> Forall prepared_ok prepared ->
  forall st' n,
  (let! st, actual := (st, authenticated_workflow_revision st k id kind) in
   if negb (actual =? e) then (st, Err (StaleRevision e actual)) else
   let! st, encrypted_entities := authenticate_entity_batch st k ek prepared deletes in
   let! st, next := (st, ok_or (u64_add actual 1) RevisionOverflow) in
   let! st, aad_id := (st, revisioned_aad_id id next u (Some b)) in
   let! st, encrypted_workflow := encrypt st k (workflow_label kind) aad_id json in
   let! st, _ := write_entity_batch_in_transaction st ek encrypted_entities deletes in
   let st := remove_approval st pid in
   let! st, _ := write_workflow st id kind next encrypted_workflow b u in
   (st, Ok (Some next))) = (st', Ok (Some n)) ->
  exists a', spec_save_workflow_with_batch a id kind e json b u ek prepared deletes = Ok (n, a') /\ store_rel k st' a'.
Proof.
  intros Hrel Hv Hc Hp st' n H. rewrite (workflow_revision_spec _ _ _ _ _ Hrel) in H.
  unfold spec_save_workflow_with_batch.
  destruct (spec_workflow_revision a id kind) as [actual|] eqn:Hw; [|done]. simpl.
  destruct (negb _); [done|].
  destruct (authenticate_entity_batch st k ek prepared deletes) as [st1 [l|]] eqn:Hb; [|done].
  destruct (authenticate_batch_sim k st a ek prepared deletes st1 l Hrel Hp Hb) as (ws & Hrel1 & HF & Hws).
  destruct (ok_or (u64_add actual 1) RevisionOverflow) as [next|] eqn:Hn; [|done].
  destruct (revisioned_aad_id_ok id next u (Some b) Hv) as (aad & Haad & Hne & Hlen).
  destruct (workflow_label_aad kind (database_id st1) aad Hne Hlen) as [full Hfull].
  destruct (encrypt_cases st1 k _ _ json _ Hfull Hc) as (res & He & Hres).
  rewrite Haad, He in H. destruct res as [enc|]; [|done].
  pose proof (write_batch_sim k (set_draws st1 (draws st1 + 1)) a ek l ws deletes (store_rel_draws _ _ _ _ Hrel1) HF) as [_ Hs].
  rewrite <- Hws in Hs.
  destruct (write_entity_batch_in_transaction _ ek l deletes) as [st2 [[]|]] eqn:Hb2; [|done].
  apply write_batch_frame in Hb2. destruct Hs as (a1 & Ha1 & Hrel2).
  destruct (spec_apply_batch a ek prepared deletes) as [a2|] eqn:Hab; [|done]. simpl in *. simplify_eq.
  unfold spec_advance. rewrite Hn. simpl. unfold write_workflow in H.
  destruct (sql_params [next; u]) as [[]|]; [|done]. simpl in *. simplify_eq. eexists. split; [done|].
  apply (put_workflow_rel k (remove_approval st2 pid) a1); [by destruct Hrel2; split| |].
  - rewrite (spec_apply_batch_workflows _ _ _ _ _ Hab). by eapply spec_workflow_kind.
  - exists aad. split; [done|]. by rewrite Hb2.
Qed.

Lemma save_guarded_body k st a id kind e json b u ek prepared deletes wg gk g (c : bool) :
  store_rel k st a -> validate_id id = Ok tt -> clear_ok json -> Forall prepared_ok prepared ->
  validate_id (ea_id g) = Ok tt ->
  body_sim k (draws st)
    (let! st, actual := (st, authenticated_workflow_revision st k id kind) in
     if negb (actual =? e) then (st, Err (StaleRevision e actual)) else
     let! st, _ := (st, check_workflow_guard st k wg) in
     let! st, _ := (st, check_entity_guard st k gk g) in
     let! st, _ := apply_entity_batch_in_transaction st k ek prepared deletes in
     let! st, _ := if c then consume_authenticated_entity_revision st k gk g u else (st, Ok tt) in
     advance_workflow st k id kind actual json b u)
    (spec_save_guarded a id kind e json b u ek prepared deletes wg gk g c).
Proof.
  intros Hrel Hv Hc Hp Hg. rewrite (workflow_revision_spec _ _ _ _ _ Hrel).
  unfold spec_save_guarded. rewrite <- (check_guards_spec k st a wg gk g Hrel).
  destruct (spec_workflow_revision a id kind) as [actual|] eqn:Hw; [|by apply body_err].
  destruct (negb _); [by apply body_err|].
  destruct (check_workflow_guard st k wg) as [[]|]; [|by apply body_err].
  destruct (check_entity_guard st k gk g) as [[]|]; [|by apply body_err].
  apply (body_then k _ _ (fun st _ => let! st, _ := if c then consume_authenticated_entity_revision st k gk g u else (st, Ok tt) in
      advance_workflow st k id kind actual json b u) _ _ (apply_batch_sim k st a ek prepared deletes Hrel Hp)).
  intros st' a' Ha Hrel'.
  assert (Hk : forall x, spec_workflows a' !! id = Some x -> wcell_kind x = kind)
    by (rewrite (spec_apply_batch_workflows _ _ _ _ _ Ha); by eapply spec_workflow_kind).
  destruct c; [|by apply advance_workflow_sim].
  apply (body_then k _ _ (fun st _ => advance_workflow st k id kind actual json b u) _ _ (consume_sim k st' a' gk g u Hrel' Hg)).
  intros st2 a2 Hsc Hrel2. apply advance_workflow_sim; try done. by rewrite (spec_consume_workflows _ _ _ _ _ Hsc).
Qed.

Lemma apply_guarded_body k st a ek prepared deletes wg gk g u :
  store_rel k st a -> Forall prepared_ok prepared -> validate_id (ea_id g) = Ok tt ->
  body_sim k (draws st)
    (let! st, _ := (st, check_workflow_guard st k wg) in
     let! st, _ := (st, check_entity_guard st k gk g) in
     let! st, _ := apply_entity_batch_in_transaction st k ek prepared deletes in
     consume_authenticated_entity_revision st k gk g u)
    (let* a := spec_apply_guarded a ek prepared deletes wg gk g u in Ok (tt, a)).
Proof.
  intros Hrel Hp Hg. unfold spec_apply_guarded. rewrite <- (check_guards_spec k st a wg gk g Hrel).
  destruct (check_workflow_guard st k wg) as [[]|]; [|by apply body_err].
  destruct (check_entity_guard st k gk g) as [[]|]; [|by apply body_err].
  pose proof (body_then k _ _ (fun st _ => consume_authenticated_entity_revision st k gk g u) _
    (fun a => let* a := spec_consume a gk g u in Ok (tt, a)) (apply_batch_sim k st a ek prepared deletes Hrel Hp)) as H.
  destruct (spec_apply_batch a ek prepared deletes) as [a'|]; (apply H; [|done..]) || apply H;
    intros st' a2 Ha Hrel'; simplify_eq; by apply consume_sim.
Qed.

(** ** Reading *)

Lemma load_entity_spec k st a kind id : store_rel k st a -> load_entity (T := T) st kind id = spec_load_entity a kind id.
Proof.
  intros Hrel. unfold load_entity, spec_load_entity, unlocked. destruct (validate_id id) as [[]|]; [|done].
  rewrite (rel_key _ _ _ Hrel). simpl.
  destruct (rel_entities _ _ _ Hrel kind id) as [row c (Hr & Hu & Ho)|]; [|done].
  rewrite Ho, Hr, Hu. done.
Qed.

Lemma load_workflow_spec k st a id : store_rel k st a -> load_workflow (T := T) st id = spec_load_workflow a id.
Proof.
  intros Hrel. unfold load_workflow, spec_load_workflow, unlocked. rewrite (rel_key _ _ _ Hrel). simpl.
  destruct (rel_workflows _ _ _ Hrel id) as [row c (Hk & Hr & Hb & Hu & Hv & Ho)|]; [|done].
  rewrite Hv, Hk, parse_workflow_kind_ok, Ho, Hr, Hb, Hu. done.
Qed.

Lemma read_sim {A B} k st a (f : A -> B) (r : result A StoreError) : store_rel k st a ->
  simulates k (draws st) a (named f (st, r)) (let* x := r in Ok (f x, a)).
Proof. intros Hrel. split; [by destruct r|]. left. by destruct r. Qed.

Lemma store_exec_sim k st a o :
  store_rel k st a -> op_sized o -> simulates k (draws st) a (store_exec st o) (spec_exec a o).
Proof.
  intros Hrel Hsz. pose proof (rel_key _ _ _ Hrel) as Hkey.
  destruct o as [kind id e v u|kind id e|kind saves deletes|id kind e v b u
    |id kind e v b u ek saves deletes|id kind e v b u ek saves deletes wg gk g c|deletes|kind saves deletes assertions
    |kind saves deletes wg ck c u|kind id|id]; simpl in *.
  - unfold save_entity, unlocked. rewrite Hkey. simpl.
    destruct (validate_id id) as [[]|] eqn:Hv; [|by apply pure_error].
    destruct (encode_state v) as [json|] eqn:Hj; [|by apply pure_error].
    apply named_sim, transaction_sim; [done|].
    apply save_entity_body; try done. by eapply encode_state_ok.
  - unfold delete_entity, unlocked. rewrite Hkey. simpl.
    destruct (validate_id id) as [[]|] eqn:Hv; [|by apply pure_error].
    destruct (EntityKind.deletion_protected kind); [by apply pure_error|].
    destruct (e =? 0); [by apply pure_error|].
    apply named_sim, transaction_sim; [done|]. by apply delete_entity_body.
  - unfold apply_entity_batch, unlocked. rewrite Hkey. simpl.
    destruct (prepare_entity_batch saves deletes) as [prepared|] eqn:Hp; [|by apply pure_error].
    apply unit_sim, transaction_sim; [done|]. apply apply_batch_sim; eauto using prepare_batch_ok.
  - unfold save_workflow, unlocked. rewrite Hkey. simpl.
    destruct (json_to_vec v) as [json|] eqn:Hj; simpl; [|by apply pure_error].
    destruct (MAX_STATE_BYTES <? len json) eqn:Hl; [by apply pure_error|]. bool_prop.
    apply named_sim, transaction_sim; [done|].
    apply save_workflow_body; [done|by apply workflow_id_valid|].
    split; [by eapply json_nonempty|done].
  - unfold save_workflow_with_entity_batch, unlocked. rewrite Hkey. simpl.
    destruct (encode_state v) as [json|] eqn:Hj; [|by apply pure_error].
    destruct (prepare_entity_batch saves deletes) as [prepared|] eqn:Hp; [|by apply pure_error].
    apply named_sim, transaction_sim; [done|]. apply save_workflow_batch_body;
      eauto using workflow_id_valid, encode_state_ok, prepare_batch_ok.
  - unfold save_workflow_with_entity_batch_and_guards, unlocked. rewrite Hkey. simpl.
    destruct (_ || _); [by apply pure_error|].
    destruct (validate_id (ea_id g)) as [[]|] eqn:Hv; [|by apply pure_error].
    destruct (c && _); [by apply pure_error|].
    destruct (bool_decide (gk = ek) && _); [by apply pure_error|].
    destruct (encode_state v) as [json|] eqn:Hj; [|by apply pure_error].
    destruct (prepare_entity_batch saves deletes) as [prepared|] eqn:Hp; [|by apply pure_error].
    apply named_sim, transaction_sim; [done|]. apply save_guarded_body;
      eauto using workflow_id_valid, encode_state_ok, prepare_batch_ok.
  - unfold delete_entities, unlocked. rewrite Hkey. simpl.
    destruct (is_empty deletes); [by apply pure_error|]. destruct (_ <? _); [by apply pure_error|].
    destruct (check_delete_identities [] deletes) as [[]|]; [|by apply pure_error].
    apply unit_sim, transaction_sim; [done|]. by apply delete_entities_body.
  - unfold apply_entity_batch_with_assertions, unlocked. rewrite Hkey. simpl.
    destruct (prepare_entity_batch saves deletes) as [prepared|] eqn:Hp; [|by apply pure_error].
    destruct (validate_entity_revision_assertions saves deletes assertions) as [[]|]; [|by apply pure_error].
    apply unit_sim, transaction_sim; [done|]. apply apply_asserted_sim; eauto using prepare_batch_ok.
  - unfold apply_entity_batch_with_workflow_guard_and_consumed_entity, unlocked. rewrite Hkey. simpl.
    destruct (_ || _); [by apply pure_error|].
    destruct (validate_id (ea_id c)) as [[]|] eqn:Hv; [|by apply pure_error].
    destruct (bool_decide (ck = kind) && _); [by apply pure_error|].
    destruct (prepare_entity_batch saves deletes) as [prepared|] eqn:Hp; [|by apply pure_error].
    apply unit_sim, transaction_sim; [done|]. apply apply_guarded_body; eauto using prepare_batch_ok.
  - rewrite (load_entity_spec _ _ _ _ _ Hrel). by apply read_sim.
  - rewrite (load_workflow_spec _ _ _ _ Hrel). by apply read_sim.
Qed.
End Operations.
End Refinement.
