(* ===== verification/StoreTheorems.v ===== *)
(** * The guarantees of the wallet store

    Sequences of operations against the specification, reading back what was
    written, compare-and-swap exclusion, single use of a consumed authority
    row, of a pending approval and of a replay nonce.  Witnesses run a store
    under a transparent toy cipher ([Toy]). *)

From stdpp Require Import sorting.
From Stdlib Require Import Strings.Byte.
From S2P Require Import Prelude Types Codec Store StoreSpec StoreRefine.

(** ** A transparent environment *)

Module Toy.

(** "Sealing" appends a tag of 16 zero bytes, an HMAC is its message. *)
Definition tag : bytes := repeat Byte.x00 TAG_BYTES.
Definition toy_env : StoreEnv := {|
  aead_seal _ _ _ m := Some (m ++ tag);
  aead_open _ _ _ c := Some (take (length c - TAG_BYTES) c);
  hmac_sha256 _ m := Some (take 32 (drop 48 m ++ repeat Byte.x00 32));
  fill_random _ := Some (repeat Byte.x00 NONCE_BYTES);
  sql_binds _ := true;
|}.
#[global] Existing Instance toy_env | 100.

#[global] Instance toy_laws : StoreEnvLaws.
Proof.
  split; simpl.
  - intros k n a m c [= <-]. rewrite length_app. f_equal.
    replace (length m + length tag - TAG_BYTES)%nat with (length m)
      by (unfold tag; rewrite repeat_length; lia).
    by rewrite take_app_length.
  - intros k n a m c [= <-]. by rewrite length_app.
  - intros i n [= <-]. done.
Qed.

(** A one-byte document. *)
Definition toy_json : JsonCodec u8 := {|
  json_to_vec b := Some [b];
  json_from_slice bs := head bs;
|}.
#[global] Existing Instance toy_json | 100.
#[global] Instance toy_json_laws : JsonLaws u8.
Proof. split; simpl; intros v b [= <-]; done. Qed.

Definition store0 : WalletStore :=
  mkStore (Some [Byte.x09]) (repeat Byte.x07 16) 0 ∅ ∅ ∅ ∅ ∅ ∅.
Definition wf : bytes := repeat Byte.x05 16.

(** The number of a record, least significant bit first, a byte a bit. *)
Fixpoint pos_bytes (p : positive) : bytes :=
  match p with
  | xH => [Byte.x02]
  | xO q => Byte.x00 :: pos_bytes q
  | xI q => Byte.x01 :: pos_bytes q
  end.

Fixpoint bytes_pos (b : bytes) : positive :=
  match b with
  | Byte.x00 :: r => xO (bytes_pos r)
  | Byte.x01 :: r => xI (bytes_pos r)
  | _ => xH
  end.

Lemma bytes_pos_bytes p : bytes_pos (pos_bytes p) = p.
Proof. by induction p as [q IH|q IH|]; simpl; rewrite ?IH. Qed.
End Toy.

(** ** Sequences of operations *)

Section Traces.
Context {env : StoreEnv} {laws : StoreEnvLaws}.
Context {T : Type} {codec : JsonCodec T} {codec_laws : JsonLaws T}.







End Traces.




(** ** Reading back *)

Section Guarantees.
Context {env : StoreEnv} {laws : StoreEnvLaws}.
Context {T : Type} {codec : JsonCodec T} {codec_laws : JsonLaws T}.

(** What a successful operation did to the related specification. *)
Lemma store_exec_ok k st a o st' out :
  store_rel k st a -> op_sized o -> store_exec st o = (st', Ok out) ->
  exists a', spec_exec a o = Ok (out, a') /\ store_rel k st' a'.
Proof.
  intros Hrel Hsz H. destruct (store_exec_sim k st a o Hrel Hsz) as [_ [Hs|(e & He & _)]];
    rewrite H in *; simpl in *; [|done].
  destruct (spec_exec a o) as [[r a']|e]; destruct Hs as [Hr Hrel']; [|done].
  simplify_eq. eauto.
Qed.

(** What was saved is read back.  After a successful [save_entity] or
    [save_workflow] at revision [n], a load of that record gives the saved
    value under revision [n], the successor of the revision it replaced, with
    the saved timestamp and broadcast flag; every other entity and workflow
    loads as before.*)
Theorem save_then_load k st a :
  store_rel k st a ->
  (forall kind id e (v : T) u st' n, save_entity st kind id e v u = (st', Ok n) ->
     n = e + 1 /\ load_entity st' kind id = Ok (Some (mkEntity kind id n v u)) /\
     (forall kind' id', validate_id id' = Ok tt -> entity_key kind' id' <> entity_key kind id ->
        load_entity (T := T) st' kind' id' = load_entity st kind' id') /\
     (forall id', load_workflow (T := T) st' id' = load_workflow st id')) /\
  (forall id kind e (v : T) b u st' n, length id = 16%nat ->
     save_workflow st id kind e v b u = (st', Ok n) ->
     n = e + 1 /\ load_workflow st' id = Ok (Some (mkWorkflow id kind n v b u)) /\
     (forall id', id' <> id -> load_workflow (T := T) st' id' = load_workflow st id') /\
     (forall kind' id', validate_id id' = Ok tt ->
        load_entity (T := T) st' kind' id' = load_entity st kind' id')).
Proof.
  intros Hrel. split.
  - intros kind id e v u st' n H.
    destruct (store_exec_ok k st a (SaveEntity kind id e v u) st' (OutRevision n)) as (a' & Hs & Hrel');
      [done|done|simpl; by rewrite H|]. simpl in Hs.
    destruct (validate_id id) as [[]|] eqn:Hv; [|done].
    destruct (encode_state v) as [json|] eqn:Hj; [|done].
    unfold spec_named, spec_save_entity, spec_cas, spec_write in Hs. simpl in Hs. run_in Hs. bool_prop. subst.
    simpl in *. simplify_eq.
    assert (Hjson : json_to_vec v = Some json) by (unfold encode_state in Hj; run_in Hj; by bool_prop).
    split; [done|]. split_and!.
    + rewrite (load_entity_spec _ _ _ _ _ Hrel'). unfold spec_load_entity. simpl. rewrite Hv, lookup_insert_eq. simpl.
      by rewrite (json_roundtrip _ _ Hjson).
    + intros kind' id' Hv' Hne. rewrite (load_entity_spec _ _ _ _ _ Hrel'),
        (load_entity_spec _ _ _ _ _ Hrel). unfold spec_load_entity. simpl. by rewrite lookup_insert_ne.
    + intros id'. by rewrite (load_workflow_spec _ _ _ _ Hrel'), (load_workflow_spec _ _ _ _ Hrel).
  - intros id kind e v b u st' n Hlen H.
    destruct (store_exec_ok k st a (SaveWorkflow id kind e v b u) st' (OutRevision n))
      as (a' & Hs & Hrel'); [done|done|simpl; by rewrite H|]. simpl in Hs.
    destruct (json_to_vec v) as [json|] eqn:Hj; [|done]. simpl in Hs.
    destruct (MAX_STATE_BYTES <? _); [done|].
    unfold spec_named, spec_save_workflow, spec_advance in Hs. run_in Hs. bool_prop. simpl in *. simplify_eq.
    split; [done|]. split_and!.
    + rewrite (load_workflow_spec _ _ _ _ Hrel'). unfold spec_load_workflow. simpl. rewrite lookup_insert_eq. simpl.
      by rewrite (json_roundtrip _ _ Hj).
    + intros id' Hne. rewrite (load_workflow_spec _ _ _ _ Hrel'), (load_workflow_spec _ _ _ _ Hrel).
      unfold spec_load_workflow. simpl. by rewrite lookup_insert_ne.
    + intros kind' id' Hv'. by rewrite (load_entity_spec _ _ _ _ _ Hrel'),
        (load_entity_spec _ _ _ _ _ Hrel).
Qed.

(** ** Revisions only grow *)

(** The operation does not delete the entity. *)
Definition keeps_entity (kind : EntityKind.t) (id : bytes) (o : store_op (T := T)) : Prop :=
  match o with
  | DeleteEntity kind' id' _ => entity_key kind' id' <> entity_key kind id
  | DeleteEntities deletes => Forall (fun d => entity_key d.1 (bd_id d.2) <> entity_key kind id) deletes
  | ApplyBatch kind' _ deletes | SaveWorkflowBatch _ _ _ _ _ _ kind' _ deletes
  | SaveGuarded _ _ _ _ _ _ kind' _ deletes _ _ _ _ | ApplyAsserted kind' _ deletes _
  | ApplyGuarded kind' _ deletes _ _ _ _ =>
      Forall (fun d => entity_key kind' (bd_id d) <> entity_key kind id) deletes
  | _ => True
  end.

Lemma spec_write_revision a kind id c a' kind' id' r :
  spec_write a kind id c = Ok a' -> r <= spec_revision a kind' id' ->
  (entity_key kind id = entity_key kind' id' -> r <= cell_revision c) -> r <= spec_revision a' kind' id'.
Proof.
  unfold spec_write. intros H Hr Hc. run_in H. unfold spec_revision, spec_put. simpl.
  destruct (decide (entity_key kind id = entity_key kind' id')) as [E|Hne].
  - rewrite E, lookup_insert_eq. auto.
  - rewrite lookup_insert_ne by done. done.
Qed.

Lemma spec_remove_revision a kind id kind' id' :
  entity_key kind id <> entity_key kind' id' ->
  spec_revision (spec_remove a kind id) kind' id' = spec_revision a kind' id'.
Proof. intros Hne. unfold spec_revision, spec_remove. simpl. by rewrite lookup_delete_ne. Qed.

Lemma spec_revision_key a kind id kind' id' :
  entity_key kind id = entity_key kind' id' -> spec_revision a kind id = spec_revision a kind' id'.
Proof. intros E. unfold spec_revision. by rewrite E. Qed.

Lemma spec_cas_ok actual e n : spec_cas actual e = Ok n -> actual = e /\ n = actual + 1.
Proof. unfold spec_cas. intros H. run_in H. by bool_prop. Qed.

Lemma spec_check_saves_revision a kind saves ws :
  spec_check_saves a kind saves = Ok ws ->
  Forall (fun w => cell_revision w.2 = spec_revision a kind w.1 + 1) ws.
Proof.
  revert ws; induction saves as [|s saves IH]; intros ws H; simpl in H; [by simplify_eq|].
  destruct (spec_cas _ _) as [n|] eqn:Hc; [|done].
  destruct (spec_check_saves a kind saves) as [tail|]; [|done]. simplify_eq.
  apply spec_cas_ok in Hc as [_ ->]. constructor; [done|auto].
Qed.

Lemma spec_write_saves_revision a kind ek ws : forall id b a',
  Forall (fun w => cell_revision w.2 = spec_revision a ek w.1 + 1) ws ->
  spec_write_saves b ek ws = Ok a' -> spec_revision a kind id <= spec_revision b kind id ->
  spec_revision a kind id <= spec_revision a' kind id.
Proof.
  intros id b a' Hs. revert b. induction Hs as [|[i c] ws Hc _ IH]; intros b H Hb; simpl in *; [by simplify_eq|].
  destruct (spec_write b ek i c) as [b'|] eqn:Hw; [|done]. apply (IH b' H).
  eapply spec_write_revision; [done|done|]. intros E. rewrite Hc, (spec_revision_key _ _ _ _ _ E). lia.
Qed.

Lemma spec_removals_revision ek kind id deletes : forall a,
  Forall (fun d => entity_key ek (bd_id d) <> entity_key kind id) deletes ->
  spec_revision (spec_removals a ek deletes) kind id = spec_revision a kind id.
Proof.
  induction deletes as [|d ds IH]; intros a Hd; simpl; [done|]. inversion Hd; subst.
  change (fold_left _ ds ?x) with (spec_removals x ek ds). rewrite IH by done. by apply spec_remove_revision.
Qed.

Lemma spec_apply_asserted_revision a ek saves deletes assertions a' kind id :
  spec_apply_asserted a ek saves deletes assertions = Ok a' ->
  Forall (fun d => entity_key ek (bd_id d) <> entity_key kind id) deletes ->
  spec_revision a kind id <= spec_revision a' kind id.
Proof.
  unfold spec_apply_asserted. intros H Hd. destruct (_ && _); [done|].
  destruct (spec_check_saves a ek saves) as [ws|] eqn:Hs; [|done].
  destruct (spec_check_revisions a ek (delete_targets deletes)); [|done].
  destruct (spec_check_revisions _ _ _); [|done]. simpl in H.
  destruct (spec_write_saves a ek ws) as [b|] eqn:Hw; [|done]. apply Ok_inj in H as <-.
  rewrite spec_removals_revision by done.
  eapply spec_write_saves_revision; [by eapply spec_check_saves_revision|done|done].
Qed.

Lemma spec_consume_revision a gk g u a' :
  spec_consume a gk g u = Ok a' ->
  (forall kind id, spec_revision a kind id <= spec_revision a' kind id) /\
  spec_revision a' gk (ea_id g) = ea_expected_revision g + 1.
Proof.
  unfold spec_consume. intros H.
  destruct (spec_entities a !! _) as [c|] eqn:Hc; [|done].
  destruct (spec_cas _ _) as [n|] eqn:Hn; [|done]. simpl in H.
  apply spec_cas_ok in Hn as [Hr ->]. split.
  - intros kind id. eapply spec_write_revision; [done|done|]. intros E. simpl.
    rewrite <- (spec_revision_key _ _ _ _ _ E). unfold spec_revision. rewrite Hc. lia.
  - unfold spec_write in H. run_in H. unfold spec_revision, spec_put. simpl. rewrite lookup_insert_eq. simpl. by rewrite Hr.
Qed.

Lemma spec_delete_entities_revision a deletes a' kind id :
  spec_delete_entities a deletes = Ok a' ->
  Forall (fun d => entity_key d.1 (bd_id d.2) <> entity_key kind id) deletes ->
  spec_revision a' kind id = spec_revision a kind id.
Proof.
  unfold spec_delete_entities. destruct (spec_check_targets a deletes); [|done]. intros H Hd.
  apply Ok_inj in H as <-. revert a.
  induction Hd as [|d ds Hne _ IH]; intros a; simpl; [done|]. rewrite IH. by apply spec_remove_revision.
Qed.

Lemma spec_advance_revision a i wk actual json b u p kind id :
  spec_advance a i wk actual json b u = Ok p -> spec_revision p.2 kind id = spec_revision a kind id.
Proof. unfold spec_advance. intros H. by run_in H. Qed.

Lemma spec_exec_revision a o out a' kind id :
  spec_exec a o = Ok (out, a') -> keeps_entity kind id o ->
  spec_revision a kind id <= spec_revision a' kind id.
Proof.
  intros H Hk. destruct o as [ek i e v u|ek i e|ek saves deletes|i wk e v b u
    |i wk e v b u ek saves deletes|i wk e v b u ek saves deletes wg gk g c|deletes|ek saves deletes assertions
    |ek saves deletes wg ck g u|ek i|i]; simpl in H, Hk;
    unfold spec_named, spec_save_entity, spec_delete_entity, spec_save_workflow,
      spec_save_workflow_with_batch, spec_save_guarded, spec_apply_guarded, spec_apply_batch in H; run_in H; try done.
  - eapply spec_write_revision; [done|done|]. intros E. simpl.
    match goal with X : spec_cas _ _ = Ok _ |- _ => apply spec_cas_ok in X as [_ ->] end.
    rewrite (spec_revision_key _ _ _ _ _ E). lia.
  - by rewrite spec_remove_revision.
  - by eapply spec_apply_asserted_revision.
  - by erewrite spec_advance_revision by done.
  - erewrite spec_advance_revision by done. by eapply spec_apply_asserted_revision.
  - erewrite spec_advance_revision by done.
    etrans; [by eapply spec_apply_asserted_revision|by eapply spec_consume_revision].
  - erewrite spec_advance_revision by done. by eapply spec_apply_asserted_revision.
  - match goal with X : spec_delete_entities _ _ = Ok _ |- _ => by rewrite (spec_delete_entities_revision _ _ _ _ _ X Hk) end.
  - by eapply spec_apply_asserted_revision.
  - etrans; [by eapply spec_apply_asserted_revision|by eapply spec_consume_revision].
Qed.

(** An entity or workflow operation, or the one that spends a pending approval
    with a workflow step and its batch. *)
Inductive any_op :=
| Op (o : store_op (T := T))
| SpendApproval (approval : PendingApproval) (now_unix : N) (id : bytes) (kind : WorkflowKind)
    (expected : N) (value : T) (prepared : bool) (entity_kind : EntityKind.t)
    (saves : list (EntityBatchSave T)) (deletes : list EntityBatchDelete).

Definition any_exec (st : WalletStore) (o : any_op) : WalletStore :=
  match o with
  | Op o => (store_exec st o).1
  | SpendApproval p now id kind e v b ek saves deletes =>
      (consume_approval_and_save_workflow_with_entity_batch st p now id kind e v b ek saves deletes).1
  end.

Definition any_sized (o : any_op) : Prop :=
  match o with Op o => op_sized o | SpendApproval _ _ id _ _ _ _ _ _ _ => length id = 16%nat end.

Definition any_keeps (kind : EntityKind.t) (id : bytes) (o : any_op) : Prop :=
  match o with
  | Op o => keeps_entity kind id o
  | SpendApproval _ _ _ _ _ _ _ kind' _ deletes =>
      Forall (fun d => entity_key kind' (bd_id d) <> entity_key kind id) deletes
  end.

Lemma store_exec_revision k st a o kind id :
  store_rel k st a -> op_sized o -> keeps_entity kind id o ->
  exists a', store_rel k (store_exec st o).1 a' /\ spec_revision a kind id <= spec_revision a' kind id.
Proof.
  intros Hrel Hsz Hk. destruct (store_exec_sim k st a o Hrel Hsz) as [_ [Hs|(e & _ & _ & Hr)]]; [|by exists a].
  destruct (spec_exec a o) as [[out a']|e] eqn:He; destruct Hs as [_ Hr]; [|by exists a].
  exists a'. split; [done|]. by eapply spec_exec_revision.
Qed.

Lemma spend_approval_revision k st a p now wid wk e (v : T) b ek saves deletes kind id :
  store_rel k st a -> any_sized (SpendApproval p now wid wk e v b ek saves deletes) ->
  any_keeps kind id (SpendApproval p now wid wk e v b ek saves deletes) ->
  exists a', store_rel k (any_exec st (SpendApproval p now wid wk e v b ek saves deletes)) a' /\
    spec_revision a kind id <= spec_revision a' kind id.
Proof.
  intros Hrel Hsz Hk. simpl. unfold consume_approval_and_save_workflow_with_entity_batch, unlocked.
  destruct (encode_state v) as [json|] eqn:Hj; [|by exists a].
  destruct (prepare_entity_batch saves deletes) as [prep|] eqn:Hp; [|by exists a].
  rewrite (rel_key _ _ _ Hrel). simpl. unfold transaction.
  assert (Hset : forall st', store_rel k (set_draws st (draws st')) a) by (intros; by apply store_rel_draws).
  destruct (authenticated_pending_approval st k (pa_id p)) as [[cur|]|]; [|by exists a|exists a; split; [apply (Hset st)|done]].
  destruct (pa_expires_at_unix cur <=? now); [exists a; split; [by destruct Hrel; split|done]|].
  match goal with |- context [if ?c then (st, Ok None) else _] => destruct c; [by exists a|] end.
  match goal with |- context [match ?x with _ => _ end] =>
    destruct x as [st' [r|err]] eqn:H end; [|exists a; split; [apply (Hset st')|done]].
  assert (exists n, r = Some n) as [n ->] by (clear - H; by run_in H; eauto).
  eapply spend_approval_body in H as (a' & Hs & Hrel');
    [|done|by apply workflow_id_valid|by eapply encode_state_ok|by eapply prepare_batch_ok].
  exists a'. split; [done|]. unfold spec_save_workflow_with_batch, spec_apply_batch in Hs. run_in Hs.
  erewrite (spec_advance_revision _ _ _ _ _ _ _ (n, a')) by done. by eapply spec_apply_asserted_revision.
Qed.

Lemma any_run_revision k ops kind id : forall st a,
  store_rel k st a -> Forall any_sized ops -> Forall (any_keeps kind id) ops ->
  exists a', store_rel k (fold_left any_exec ops st) a' /\ spec_revision a kind id <= spec_revision a' kind id.
Proof.
  induction ops as [|o ops IH]; intros st a Hrel Hsz Hk; [by exists a|].
  inversion Hsz; inversion Hk; subst. cbn [fold_left].
  assert (exists a1, store_rel k (any_exec st o) a1 /\ spec_revision a kind id <= spec_revision a1 kind id)
    as (a1 & Hrel1 & Hle) by (destruct o; [by apply store_exec_revision|by apply spend_approval_revision]).
  destruct (IH _ a1 Hrel1) as (a2 & Hrel2 & Hle2); try done. exists a2. split; [done|lia].
Qed.

(** An operation the specification refuses is refused. *)
Lemma store_exec_refused k st a o e :
  store_rel k st a -> op_sized o -> spec_exec a o = Err e -> is_ok (store_exec st o).2 = false.
Proof.
  intros Hrel Hsz He. destruct (store_exec_sim k st a o Hrel Hsz) as [_ [Hs|(e' & -> & _)]]; [|done].
  rewrite He in Hs. by destruct Hs as [-> _].
Qed.






(** A stale writer loses.  When a save of an entity at revision [e] has
    succeeded, no other save that still expects [e] does, whatever operations
    run in between short of deleting the entity: of two writers that read the
    same revision, one wins.*)
Theorem stale_writer_loses k st a kind id e (v : T) u st1 n ops (v2 : T) u2 :
  store_rel k st a -> save_entity st kind id e v u = (st1, Ok n) ->
  Forall any_sized ops -> Forall (any_keeps kind id) ops ->
  is_ok (save_entity (fold_left any_exec ops st1) kind id e v2 u2).2 = false.
Proof.
  intros Hrel H Hsz Hk.
  destruct (store_exec_ok k st a (SaveEntity kind id e v u) st1 (OutRevision n)) as (a1 & Hs & Hrel1);
    [done|done|simpl; by rewrite H|].
  assert (Hrev : spec_revision a1 kind id = e + 1).
  { simpl in Hs. unfold spec_named, spec_save_entity, spec_write in Hs. run_in Hs.
    match goal with X : spec_cas _ _ = Ok _ |- _ => apply spec_cas_ok in X as [-> ->] end.
    unfold spec_revision, spec_put. simpl. by rewrite lookup_insert_eq. }
  destruct (any_run_revision k ops kind id st1 a1) as (a2 & Hrel2 & Hle); try done.
  assert (Herr : exists err, spec_exec a2 (SaveEntity kind id e v2 u2) = Err err).
  { destruct (spec_exec a2 (SaveEntity kind id e v2 u2)) as [[o a3]|err] eqn:X; [exfalso|by exists err].
    cbn [spec_exec] in X. destruct (validate_id id); [|done]. destruct (encode_state v2); [|done].
    unfold spec_named, spec_save_entity in X.
    destruct (spec_cas (spec_revision a2 kind id) e) eqn:Y; [|done]. apply spec_cas_ok in Y. lia. }
  destruct Herr as [err Herr].
  pose proof (store_exec_refused k _ a2 (SaveEntity kind id e v2 u2) err Hrel2 I Herr) as Hr.
  simpl in Hr. by destruct (save_entity _ kind id e v2 u2) as [? [?|?]].
Qed.
End Guarantees.

(** ** Approvals and nonces *)

Section SingleUse.
Context {env : StoreEnv}.

Lemma encrypt_frame st k kind id m st' r :
  encrypt st k kind id m = (st', r) -> st' = set_draws st (draws st').
Proof. unfold encrypt. intros H. by simplify_eq. Qed.

Lemma authenticate_saves_frame k kind saves : forall st st' r,
  authenticate_saves st k kind saves = (st', r) -> st' = set_draws st (draws st').
Proof.
  induction saves as [|s saves IH]; intros st st' r H; cbn [authenticate_saves] in H.
  { simplify_eq. by destruct st'. }
  destruct (entity_revision st k kind (ps_id s)); [|simplify_eq; by destruct st'].
  destruct (negb _); [simplify_eq; by destruct st'|].
  destruct (ok_or _ _); [|simplify_eq; by destruct st'].
  destruct (revisioned_aad_id _ _ _ _); [|simplify_eq; by destruct st'].
  destruct (encrypt _ _ _ _ _) as [st1 r1] eqn:E1. apply encrypt_frame in E1.
  destruct r1; [|simplify_eq; done].
  destruct (authenticate_saves st1 k kind saves) as [st2 r2] eqn:E2. apply IH in E2.
  destruct r2; simplify_eq; by rewrite E2, E1.
Qed.

Lemma authenticate_batch_frame st k kind saves deletes st' r :
  authenticate_entity_batch st k kind saves deletes = (st', r) -> st' = set_draws st (draws st').
Proof.
  unfold authenticate_entity_batch. intros H.
  destruct (_ && _); [simplify_eq; by destruct st'|].
  destruct (authenticate_saves st k kind saves) as [st1 r1] eqn:E. apply authenticate_saves_frame in E.
  destruct r1; [|by simplify_eq]. destruct (check_revisions _ _ _ _); by simplify_eq.
Qed.

Lemma consume_missing {W E} `{JsonCodec W, JsonCodec E} st p now id kind e (v : W) b
    ek (saves : list (EntityBatchSave E)) deletes st1 n :
  private_pending_approvals st !! pa_id p = None ->
  consume_approval_and_save_workflow_with_entity_batch st p now id kind e v b ek saves deletes
    <> (st1, Ok (Some n)).
Proof.
  intros Hp. unfold consume_approval_and_save_workflow_with_entity_batch.
  destruct (encode_state v); [|done]. destruct (prepare_entity_batch saves deletes); [|done].
  destruct (unlocked st); [|done]. unfold transaction, authenticated_pending_approval. by rewrite Hp.
Qed.

(** An approval is spent together with the step it approves.  When the
    combined operation reports a new workflow revision, that revision is the
    successor of the expected one and is in the store, the approval was there,
    unexpired and equal to the one shown to the user, and its row is gone: a
    second attempt with the same approval advances nothing.  When it reports
    anything else, workflows and entities are as before, and an error leaves
    the approval too.*)
Theorem approval_spent_with_workflow {W E} `{JsonCodec W, JsonCodec E} st p now id kind e (v : W) b
    ek (saves : list (EntityBatchSave E)) deletes st1 res :
  consume_approval_and_save_workflow_with_entity_batch st p now id kind e v b ek saves deletes
    = (st1, res) ->
  match res with
  | Ok (Some n) =>
      n = e + 1 /\ wr_revision <$> (workflows st1 !! id) = Some n /\
      (exists k row, key st = Some k /\ private_pending_approvals st !! pa_id p = Some row /\
         authenticated_pending_approval st k (pa_id p) = Ok (Some p) /\ now < pa_expires_at_unix p) /\
      private_pending_approvals st1 = delete (pa_id p) (private_pending_approvals st) /\
      forall now2 id2 kind2 e2 (v2 : W) b2 ek2 (saves2 : list (EntityBatchSave E)) deletes2 st2 n2,
        consume_approval_and_save_workflow_with_entity_batch st1 p now2 id2 kind2 e2 v2 b2 ek2
          saves2 deletes2 <> (st2, Ok (Some n2))
  | Ok None => workflows st1 = workflows st /\ encrypted_entities st1 = encrypted_entities st
  | Err _ => st1 = set_draws st (draws st1)
  end.
Proof.
  unfold consume_approval_and_save_workflow_with_entity_batch at 1. intros Hc.
  destruct (encode_state v) as [json|]; [|simplify_eq; by destruct st1].
  destruct (prepare_entity_batch saves deletes) as [prep|]; [|simplify_eq; by destruct st1].
  unfold unlocked in Hc. destruct (key st) as [k|] eqn:Hkey; simpl in Hc; [|simplify_eq; by destruct st1].
  unfold transaction in Hc.
  destruct (authenticated_pending_approval st k (pa_id p)) as [found|] eqn:Hp;
    [|simplify_eq; by destruct st].
  destruct found as [cur|]; [|by simplify_eq].
  destruct (pa_expires_at_unix cur <=? now) eqn:Hexp; [by simplify_eq|].
  destruct (_ || _) eqn:Heq; [by simplify_eq|]. bool_prop.
  assert (Hcur : cur = p).
  { unfold authenticated_pending_approval in Hp. run_in Hp. destruct p; simpl in *. by simplify_eq. }
  subst cur.
  destruct (authenticated_workflow_revision st k id kind) as [actual|]; [|simplify_eq; by destruct st].
  destruct (negb (actual =? e)) eqn:He; [simplify_eq; by destruct st|]. bool_prop. subst actual.
  destruct (authenticate_entity_batch st k ek prep deletes) as [sa ra] eqn:Ea.
  apply authenticate_batch_frame in Ea. destruct ra as [enc|]; [|by simplify_eq].
  destruct (ok_or _ _) as [next|] eqn:Hn; [|by simplify_eq]. apply ok_or_Ok, checked_add_Some in Hn as [-> _].
  destruct (revisioned_aad_id _ _ _ _); [|by simplify_eq].
  unfold encrypt in Hc. destruct (encrypt_record _ _ _ _ _ _) as [ct|]; [|by simplify_eq].
  destruct (write_entity_batch_in_transaction _ ek enc deletes) as [sc rc] eqn:Ec.
  apply write_batch_frame in Ec. destruct rc; [|by simplify_eq].
  unfold write_workflow in Hc. destruct (sql_params _); [|by simplify_eq].
  simplify_eq. simpl. rewrite Ec, Ea. simpl. split_and!; try done.
  - by rewrite lookup_insert_eq.
  - assert (Hrow : is_Some (private_pending_approvals st !! pa_id p)).
    { unfold authenticated_pending_approval in Hp. by destruct (_ !! _). }
    destruct Hrow as [row Hrow]. by exists k, row.
  - intros now2 id2 kind2 e2 v2 b2 ek2 saves2 deletes2 st2 n2. apply consume_missing. simpl.
    apply lookup_delete_eq.
Qed.

Lemma prune_replay_rows_ids k now rows : forall st st' r,
  prune_replay_rows st k now rows = (st', r) -> key st' = key st /\ database_id st' = database_id st.
Proof.
  induction rows as [|[[tok n] row] rows IH]; intros st st' r H; simpl in H; [by simplify_eq|].
  destruct (open_replay st k tok n row); [|by simplify_eq].
  apply IH in H as [-> ->]. by destruct (_ <=? _).
Qed.

Lemma prune_replay_rows_keeps k now rows : forall st st' r key,
  prune_replay_rows st k now rows = (st', r) ->
  (forall row, (key, row) ∈ rows -> now < rr_expires_at row) ->
  private_replay_protection st' !! key = private_replay_protection st !! key.
Proof.
  induction rows as [|[[tok n] row] rows IH]; intros st st' r key H Hkeep; simpl in H.
  { by simplify_eq. }
  destruct (open_replay st k tok n row); [|by simplify_eq].
  apply (IH _ _ _ key) in H as ->; [|intros row' Hr; apply Hkeep; by right].
  destruct (rr_expires_at row <=? now) eqn:He; [|done]. bool_prop. simpl.
  apply lookup_delete_ne. intros <-. specialize (Hkeep row ltac:(left)). lia.
Qed.

Lemma replay_rows_lookup st key row :
  (key, row) ∈ replay_rows st -> private_replay_protection st !! key = Some row.
Proof.
  unfold replay_rows. intros Hin. rewrite merge_sort_Permutation in Hin.
  by apply elem_of_map_to_list.
Qed.

Lemma consume_replay_ok st origin n now e st' :
  consume_replay_nonce st origin n now e = (st', Ok tt) ->
  exists k token, key st = Some k /\ key st' = Some k /\ database_id st' = database_id st /\
    origin_lookup_token k (database_id st) origin = Ok token /\
    (forall row, private_replay_protection st !! (token, n) = Some row -> rr_expires_at row <= now) /\
    exists row, private_replay_protection st' !! (token, n) = Some row /\ rr_expires_at row = e.
Proof.
  unfold consume_replay_nonce. intros H. destruct (validate_origin origin); [|done].
  destruct (_ || _); [done|]. unfold unlocked in H. destruct (key st) as [k|] eqn:Hk; [|done]. simpl in H.
  destruct (origin_lookup_token k (database_id st) origin) as [token|] eqn:Ht; [|done].
  unfold encrypt in H. destruct (encrypt_record _ _ _ _ _ _) as [c|]; [|done].
  unfold transaction, prune_expired_replay in H.
  destruct (MAX_REPLAY_ROWS <? _); [done|].
  destruct (prune_replay_rows _ k now _) as [st1 [[]|]] eqn:Hp; [|done].
  exists k, token.
  assert (Hfree : private_replay_protection st1 !! (token, n) = None /\
    st' = set_replays st1 (<[(token, n) := {| rr_encrypted_origin := c; rr_expires_at := e |}]>
                             (private_replay_protection st1))).
  { run_in H; by bool_prop. }
  destruct Hfree as [Hfree ->]. simpl.
  destruct (prune_replay_rows_ids _ _ _ _ _ _ Hp) as [Hkey Hdb]. rewrite Hkey, Hdb.
  split_and!; try done.
  - intros row Hrow. apply N.nlt_ge. intros Hlt.
    assert (Heq : private_replay_protection st1 !! (token, n) = private_replay_protection st !! (token, n)).
    { apply (prune_replay_rows_keeps _ _ _ _ _ _ (token, n) Hp).
      intros row' Hin%replay_rows_lookup. simpl in Hin. by simplify_eq. }
    congruence.
  - eexists. rewrite lookup_insert_eq. done.
Qed.

(** A replay nonce is consumed once.  When the store has accepted a nonce
    for an origin, it accepts that nonce for that origin again only after the
    recorded expiry; pruning expired nonces on the way never drops it early.*)
Theorem replay_nonce_single_use st origin n now e st1 now2 e2 st2 :
  consume_replay_nonce st origin n now e = (st1, Ok tt) ->
  consume_replay_nonce st1 origin n now2 e2 = (st2, Ok tt) -> e <= now2.
Proof.
  intros H1 H2. apply consume_replay_ok in H1 as (k & tok & _ & Hk & Hdb & Ht & _ & row & Hrow & <-).
  apply consume_replay_ok in H2 as (k2 & tok2 & Hk2 & _ & _ & Ht2 & Hold & _).
  rewrite Hk in Hk2. injection Hk2 as <-. rewrite Hdb, Ht in Ht2. injection Ht2 as <-. auto.
Qed.
End SingleUse.

(** ** Witnesses *)

Lemma toy_rel : store_rel [Byte.x09] Toy.store0 spec_empty.
Proof. split; [done|by intros ? ? ?|..]; intros; constructor. Qed.

Lemma save_then_load_witness :
  exists st1, save_entity Toy.store0 EntityKind.SwapSession [Byte.x01] 0 Byte.x41 10 = (st1, Ok 1) /\
    load_entity st1 EntityKind.SwapSession [Byte.x01]
      = Ok (Some (mkEntity EntityKind.SwapSession [Byte.x01] 1 Byte.x41 10)).
Proof.
  eexists. split; [reflexivity|].
  destruct (save_then_load (T := u8) [Byte.x09] Toy.store0 spec_empty toy_rel) as [H _].
  exact (proj1 (proj2 (H EntityKind.SwapSession [Byte.x01] 0 Byte.x41 10 _ 1 eq_refl))).
Defined.

Lemma stale_writer_loses_witness :
  let st1 := (save_entity Toy.store0 EntityKind.SwapSession [Byte.x01] 0 Byte.x41 10).1 in
  is_ok (save_entity (fold_left any_exec [Op (SaveWorkflow Toy.wf WfRefund 0 Byte.x42 true 11)] st1)
           EntityKind.SwapSession [Byte.x01] 0 Byte.x43 12).2 = false.
Proof.
  intros st1.
  apply (stale_writer_loses [Byte.x09] Toy.store0 spec_empty _ _ _ Byte.x41 10 st1 1).
  - exact toy_rel.
  - reflexivity.
  - repeat constructor.
  - repeat constructor.
Defined.



(** An approval shown, then spent with a send. *)
Definition toy_approval : PendingApproval := mkApproval (repeat Byte.x03 16) "a" [Byte.x50] 100.
Definition toy_store1 : WalletStore :=
  (put_pending_approval Toy.store0 (pa_id toy_approval) "a" [Byte.x50] 10 100).1.

Lemma approval_spent_with_workflow_witness :
  exists st1, consume_approval_and_save_workflow_with_entity_batch (W := u8) (E := u8) toy_store1
      toy_approval 20 Toy.wf WfHnsSend 0 Byte.x41 true EntityKind.InputReservation [] []
    = (st1, Ok (Some 1)) /\
  private_pending_approvals st1 = delete (pa_id toy_approval) (private_pending_approvals toy_store1).
Proof.
  destruct (consume_approval_and_save_workflow_with_entity_batch (W := u8) (E := u8) toy_store1
      toy_approval 20 Toy.wf WfHnsSend 0 Byte.x41 true EntityKind.InputReservation [] [])
    as [st1 res] eqn:H.
  assert (Hres : res = Ok (Some 1)).
  { transitivity (consume_approval_and_save_workflow_with_entity_batch (W := u8) (E := u8) toy_store1
      toy_approval 20 Toy.wf WfHnsSend 0 Byte.x41 true EntityKind.InputReservation [] []).2;
      [rewrite H; reflexivity|vm_compute; reflexivity]. }
  subst res. exists st1. split; [reflexivity|].
  exact (proj1 (proj2 (proj2 (proj2 (approval_spent_with_workflow _ _ _ _ _ _ _ _ _ _ _ _ _ H))))).
Defined.

Lemma replay_nonce_single_use_witness :
  exists st1 st2, consume_replay_nonce Toy.store0 "a" 7 10 100 = (st1, Ok tt) /\
    consume_replay_nonce st1 "a" 7 200 300 = (st2, Ok tt) /\ 100 <= 200.
Proof.
  destruct (run_is_ok (consume_replay_nonce Toy.store0 "a" 7 10 100)) as (st1 & [] & H1);
    [vm_compute; reflexivity|].
  destruct (run_is_ok (consume_replay_nonce st1 "a" 7 200 300)) as (st2 & [] & H2).
  { replace st1 with (consume_replay_nonce Toy.store0 "a" 7 10 100).1 by (by rewrite H1).
    vm_compute. reflexivity. }
  exists st1, st2. split; [exact H1|]. split; [exact H2|].
  exact (replay_nonce_single_use _ _ _ _ _ _ _ _ _ H1 H2).
Defined.
