(* ===== verification/StoreRows.v ===== *)
(** * Single rows and secrets

    What one write to the store leaves: the row that was written, and everything else
    as it was; and the associated data every row is read under. *)

From Stdlib Require Import Strings.Byte.
From S2P Require Import Prelude Types Codec Store StoreRefine StoreTheorems.

(** ** One row of the store *)

Section Rows.
Context {senv : StoreEnv} {slaws : StoreEnvLaws}.

(** The secrets of the two stores are the same. *)
Definition same_secrets (st st' : WalletStore) : Prop :=
  key st' = key st /\ database_id st' = database_id st /\ secrets st' = secrets st.

Lemma same_secrets_get st st' id kind : same_secrets st st' -> get_secret st' id kind = get_secret st id kind.
Proof. intros (Hk & Hd & Hs). unfold get_secret, unlocked. by rewrite Hk, Hd, Hs. Qed.

Lemma save_entity_row {T} {codec : JsonCodec T} {codec_laws : JsonLaws T} st kind id e (v : T) u st' r : save_entity st kind id e v u = (st', r) ->
  same_secrets st st'
  /\ match r with
     | Ok n => n = e + 1 /\ load_entity st' kind id = Ok (Some (mkEntity kind id n v u))
         /\ forall key', key' <> entity_key kind id -> encrypted_entities st' !! key' = encrypted_entities st !! key'
     | Err _ => encrypted_entities st' = encrypted_entities st
     end.
Proof.
  unfold save_entity, transaction, encrypt, write_entity. intros H.
  destruct (validate_id id) as [[]|] eqn:Hid; [|by simplify_eq].
  destruct (encode_state v) as [json|] eqn:Hj; [|by simplify_eq].
  destruct (unlocked st) as [k|] eqn:Hk; [|by simplify_eq]. cbn in H.
  destruct (entity_revision st k kind id) as [actual|]; cbn in H; [|by simplify_eq].
  destruct (negb _) eqn:Hne in H; [by simplify_eq|]. bool_prop. subst actual.
  destruct (ok_or _ _) as [next|] eqn:Hn in H; [|by simplify_eq]. apply ok_or_Ok, checked_add_Some in Hn as [-> _].
  destruct (revisioned_aad_id _ _ _ None) as [aad|] eqn:Haad; cbn in H; [|by simplify_eq].
  destruct (encrypt_record _ _ _ _ _ _) as [enc|] eqn:He; cbn in H; [|by simplify_eq].
  destruct (sql_params _); cbn in H; [|by simplify_eq]. injection H as <- <-. split; [done|]. split; [done|]. split.
  - unfold load_entity, unlocked in *. rewrite Hid. cbn. rewrite Hk. cbn. rewrite lookup_insert_eq.
    unfold open_entity. cbn. rewrite Haad. rewrite (decrypt_encrypt _ _ _ _ _ _ _ He). cbn.
    unfold encode_state in Hj. destruct (json_to_vec v) as [b|] eqn:Hb; [|done]. cbn in Hj.
    destruct (_ || _) in Hj; [done|]. simplify_eq. by rewrite (json_roundtrip _ _ Hb).
  - intros key' Hne. cbn. by rewrite lookup_insert_ne.
Qed.

(** Reading a row depends on that row alone. *)
Lemma load_entity_same {T} `{JsonCodec T} st st' kind id : key st' = key st -> database_id st' = database_id st ->
  encrypted_entities st' !! entity_key kind id = encrypted_entities st !! entity_key kind id ->
  load_entity (T := T) st' kind id = load_entity st kind id.
Proof. intros Hk Hd He. unfold load_entity, unlocked, open_entity. by rewrite Hk, Hd, He. Qed.

Lemma get_secret_same st st' id kind : key st' = key st -> database_id st' = database_id st ->
  secrets st' !! id = secrets st !! id -> get_secret st' id kind = get_secret st id kind.
Proof. intros Hk Hd Hs. unfold get_secret, unlocked. by rewrite Hk, Hd, Hs. Qed.

(** Storing a secret changes no other secret and no row. *)
Lemma put_secret_frame st id kind clear now st' r : put_secret st id kind clear now = (st', r) ->
  key st' = key st /\ database_id st' = database_id st /\ encrypted_entities st' = encrypted_entities st
  /\ (forall id', id' <> id -> secrets st' !! id' = secrets st !! id')
  /\ (forall e, r = Err e -> secrets st' = secrets st).
Proof.
  unfold put_secret, transaction, encrypt. intros H. destruct (validate_id id); [|by simplify_eq].
  destruct (_ || _); [by simplify_eq|]. destruct (unlocked st) as [k|]; [|by simplify_eq].
  destruct (encrypt_record _ _ _ _ _ _) as [enc|]; cbn in H; [destruct (sql_params _); cbn in H|].
  all: destruct (secrets st !! id) as [row|]; [|simplify_eq; cbn; split_and!; try done; intros; by rewrite lookup_insert_ne].
  all: repeat (case_match; simplify_eq; try done); cbn; split_and!; try done; intros; by rewrite lookup_insert_ne.
Qed.
End Rows.

(** ** The names rows are read under *)

Section Names.
Context {env : StoreEnv}.

(** Open an envelope under the associated data of a record's name. *)
Definition open_record (k db : bytes) (r : RecordName) (envelope : bytes) : result bytes StoreError :=
  let* _ := validate_encrypted_record_length (len envelope) in
  let* aad := aad_of db r in
  ok_or (aead_open k (take NONCE_BYTES envelope) aad (drop NONCE_BYTES envelope)) Encryption.

(** The key check is kept under the name of a secret. *)
Definition key_check_record : RecordName := SecretRecord SecretKind.MetadataKey (str_bytes "key_check").

(** The store reads each row through the cipher under the name of that row: the
    result of a read is that of opening the row's envelope under it, or an error. *)
Record rows_read_by_name (st : WalletStore) (k : bytes) : Prop := {
  rn_secret : forall id kind row clear, key st = Some k -> secrets st !! id = Some row ->
    get_secret st id kind = Ok (Some clear) ->
    open_record k (database_id st) (SecretRecord kind id) (sr_encrypted_value row) = Ok clear;
  rn_key_check : forall encrypted, check_key k (database_id st) encrypted = Ok tt ->
    open_record k (database_id st) key_check_record encrypted = Ok SENTINEL;
  rn_entity : forall kind id row clear, open_entity st k kind id row = Ok clear ->
    open_record k (database_id st) (EntityRecord kind id (er_revision row) (er_updated_at row))
      (er_encrypted_value row) = Ok clear;
  rn_workflow : forall kind id row clear, open_workflow st k kind id row = Ok clear ->
    open_record k (database_id st)
      (WorkflowRecord kind id (wr_revision row) (wr_updated_at row) (wr_broadcast_prepared row))
      (wr_state_json row) = Ok clear;
  rn_permission : forall token origin row payload, open_permission st k token origin row = Ok payload ->
    exists clear, decode_origin_payload clear = Ok (origin, payload) /\
      open_record k (database_id st) (PermissionRow token (pr_generation row) (pr_revoked row) (pr_updated_at row))
        (pr_encrypted_record row) = Ok clear;
  rn_approval : forall id row shown, open_approval st k id row = Ok shown ->
    exists clear, decode_origin_payload clear = Ok shown /\
      open_record k (database_id st) (ApprovalRow id (ar_origin_token row) (ar_expires_at row))
        (ar_encrypted_record row) = Ok clear;
  rn_replay : forall token nonce row origin, open_replay st k token nonce row = Ok origin ->
    exists clear, origin = String.string_of_list_byte clear /\
      open_record k (database_id st) (ReplayRow token nonce (rr_expires_at row)) (rr_encrypted_origin row) = Ok clear;
}.

Lemma reads_by_name st k : rows_read_by_name st k.
Proof.
  split.
  - intros id kind row clear Hk Hrow H. unfold get_secret, unlocked in H. rewrite Hk, Hrow in H. cbn [ok_or] in H.
    destruct (validate_id id); [|done]. destruct (negb _); [done|].
    destruct (decrypt_record _ _ _ _ _) as [c|] eqn:Hd; [|done]. simplify_eq. exact Hd.
  - intros encrypted H. unfold check_key in H.
    destruct (decrypt_record _ _ _ _ _) as [c|] eqn:Hd; [|done]. cbn in H. case_bool_decide; [|done]. by subst.
  - intros kind id row clear H. unfold open_entity, decrypt_record in H. unfold open_record, aad_of.
    destruct (revisioned_aad_id _ _ _ _); [|done]. exact H.
  - intros kind id row clear H. unfold open_workflow, decrypt_record in H. unfold open_record, aad_of.
    destruct (revisioned_aad_id _ _ _ _); [|done]. exact H.
  - intros token origin row payload H. unfold open_permission in H.
    destruct (decrypt_record _ _ _ _ _) as [clear|] eqn:Hd; [|done]. cbn in H.
    destruct (decode_origin_payload clear) as [[o p]|] eqn:Ho; [|done]. cbn in H. case_bool_decide; [|done].
    simplify_eq/=. by exists clear.
  - intros id row shown H. unfold open_approval in H. destruct (negb _); [done|].
    destruct (decrypt_record _ _ _ _ _) as [clear|] eqn:Hd; [|done]. cbn in H.
    destruct (decode_origin_payload clear) as [d|] eqn:Ho; [|done]. cbn in H.
    destruct (origin_lookup_token _ _ _); [|done]. cbn in H. destruct (negb _); [done|]. injection H as <-.
    exists clear. split; [done|exact Hd].
  - intros token nonce row origin H. unfold open_replay in H. destruct (negb _); [done|].
    destruct (decrypt_record _ _ _ _ _) as [clear|] eqn:Hd; [|done]. cbn in H.
    destruct (map_err _ (validate_origin _)); [|done]. cbn in H.
    destruct (origin_lookup_token _ _ _); [|done]. cbn in H. destruct (negb _); [done|]. injection H as <-.
    exists clear. split; [done|exact Hd].
Qed.

(** C37: a ciphertext is read in one place only.  Whatever the store reads from a
    row, it got from the cipher under the associated data of that row's name: for
    an entity or workflow its kind, identifier, revision, timestamp and flag; for a
    permission, approval or nonce its token, identifier, generation, nonce, expiry,
    timestamp and flag; for a secret its kind and identifier, and nothing more.
    And these data determine the wallet database and the name: two rows, of one
    wallet or of two, whose names differ never share associated data.  So a
    ciphertext moved or relabelled inside the database, copied from another wallet
    or, but for secrets, rolled back is presented to the cipher with other
    associated data than it was sealed with.  The key check [unlock] opens with a
    derived key has the name of a metadata-key secret and is read under it.
    (Fields are within the widths of their types.) *)
Theorem ciphertext_bound_to_record st1 st2 k1 k2 r1 r2 :
  length (database_id st1) = length (database_id st2) -> record_sized r1 -> record_sized r2 ->
  rows_read_by_name st1 k1 /\ rows_read_by_name st2 k2 /\
  forall a, aad_of (database_id st1) r1 = Ok a -> aad_of (database_id st2) r2 = Ok a ->
    database_id st1 = database_id st2 /\ r1 = r2.
Proof.
  intros Hdb S1 S2. split_and!; [apply reads_by_name..|]. intros a H1 H2. by eapply aad_of_inj.
Qed.
End Names.

(** An older revision of the same row. *)
Lemma ciphertext_bound_to_record_witness :
  let row n := aad_of (database_id Toy.store0) (EntityRecord EntityKind.SwapSession [Byte.x01] n 5) in
  is_ok (row 1) = true /\ row 1 <> row 2.
Proof.
  intros row. split; [vm_compute; reflexivity|]. intros E.
  destruct (row 1) as [a|] eqn:H1; [|vm_compute in H1; discriminate H1].
  assert (S1 : forall n, n <= 2 ->
    record_sized (EntityRecord EntityKind.SwapSession [Byte.x01] n 5)).
  { intros n Hn. unfold record_sized, U64_MAX. lia. }
  destruct (ciphertext_bound_to_record Toy.store0 Toy.store0 [Byte.x09] [Byte.x09] _ _ eq_refl (S1 1 ltac:(lia)) (S1 2 ltac:(lia)))
    as (_ & _ & H). destruct (H a H1 (eq_sym E)) as [_ H']. discriminate H'.
Defined.
