(* ===== verification/StoreProvider.v ===== *)
(** * The wallet store behind the provider core

    [impl ProviderStateStore for WalletStore] of
    [crates/hns-wallet-provider/src/lib.rs], over the permission table of file
    Store, and the proof that it satisfies the laws the provider core's
    guarantees were proved from.  So every theorem of file ProviderTheorems
    holds of a provider that keeps its permissions in the encrypted wallet. *)

From Stdlib Require Import Strings.Byte.
From S2P Require Import Prelude Types Codec Store Provider ProviderProofs StoreTheorems.

(** [From<StoreError> for ProviderError]. *)
Definition provider_error (e : StoreError) : ProviderError :=
  match e with
  | Codec.Replay => Provider.Replay
  | Codec.Locked => WalletLocked
  | _ => Persistence
  end.

Section Instance_.
Context {env : StoreEnv} {laws : StoreEnvLaws}.
Context {codec : JsonCodec PermissionRecord} {codec_laws : JsonLaws PermissionRecord}.

Definition wallet_permission (st : WalletStore) (scope : string) :
    result (option PermissionRecord) ProviderError :=
  let* found := map_err provider_error (provider_permission st scope) in
  match found with
  | None => Ok None
  | Some (_, json) => let* record := ok_or (json_from_slice json) Persistence in Ok (Some record)
  end.

Definition wallet_permission_generation (st : WalletStore) (scope : string) :
    result (option N) ProviderError :=
  map_err provider_error (provider_permission_generation st scope).

Definition wallet_save_permission (st : WalletStore) (scope : string) (record : PermissionRecord) :
    WalletStore * result unit ProviderError :=
  let! st, json := (st, ok_or (json_to_vec record) Persistence) in
  let '(st, r) := put_provider_permission st scope (generation record) json (created_at_unix record) in
  (st, map_err provider_error r).

Definition wallet_revoke_permission (st : WalletStore) (scope : string)
    (expected_generation next_generation now_unix : N) : WalletStore * result unit ProviderError :=
  let '(st, r) := revoke_provider_permission st scope expected_generation next_generation now_unix in
  (st, map_err provider_error r).

#[global] Instance WalletStore_provider_state : ProviderStateStore WalletStore := {|
  pss_permission := wallet_permission;
  pss_permission_generation := wallet_permission_generation;
  pss_save_permission := wallet_save_permission;
  pss_revoke_permission := wallet_revoke_permission;
|}.

(** ** What a read sees of the table *)

(** What a write of the permission table did: the row of [scope]'s token now
    decrypts to [scope] with [json], everything else is as before. *)
Record permission_written (st st' : WalletStore) (scope : string) (g : N) (revoked : bool)
    (json : bytes) : Prop := {
  pw_origin : validate_origin scope = Ok tt;
  pw_ids : key st' = key st /\ database_id st' = database_id st;
  pw_row : exists k token row, key st = Some k /\
    origin_lookup_token k (database_id st) scope = Ok token /\
    private_provider_permissions st' = <[token := row]> (private_provider_permissions st) /\
    pr_generation row = g /\ pr_revoked row = revoked /\
    open_permission st' k token scope row = Ok json /\
    (forall scope', scope' <> scope -> open_permission st' k token scope' row = Err Encryption);
}.

(** A freshly encrypted row opens for its own scope only. *)
Lemma sealed_row_opens st k token scope json clear n enc g revoked u :
  encode_origin_payload scope json = Ok clear ->
  encrypt_record n k (database_id st) "provider_permission" (permission_record_id token g revoked u) clear
    = Ok enc ->
  let row := {| pr_generation := g; pr_encrypted_record := enc; pr_updated_at := u;
                pr_revoked := revoked |} in
  open_permission st k token scope row = Ok json /\
  (forall scope', scope' <> scope -> open_permission st k token scope' row = Err Encryption).
Proof.
  intros Hc He row. unfold open_permission. simpl.
  rewrite (decrypt_encrypt _ _ _ _ _ _ _ He), (decode_encode_origin _ _ _ Hc). simpl. split.
  - by rewrite bool_decide_true.
  - intros scope' Hne. by rewrite bool_decide_false.
Qed.

Lemma put_written st scope g json u st' :
  put_provider_permission st scope g json u = (st', Ok tt) ->
  permission_written st st' scope g false json /\
  (forall g', provider_permission_generation st scope = Ok (Some g') -> g = g' + 1).
Proof.
  unfold put_provider_permission. intros H.
  destruct (validate_origin scope) as [[]|] eqn:Ho; [|done].
  destruct (g =? 0); [done|]. destruct (is_empty json || _); [done|].
  unfold unlocked in H. destruct (key st) as [k|] eqn:Hk; [|done]. simpl in H.
  destruct (origin_lookup_token k (database_id st) scope) as [token|] eqn:Ht; [|done].
  destruct (encode_origin_payload scope json) as [clear|] eqn:Hc; [|done].
  unfold transaction, encrypt in H.
  destruct (match private_provider_permissions st !! token with Some _ => _ | None => _ end)
    as [cur|] eqn:Hcur; [|done].
  destruct (if is_none _ then _ else _) as [expected|] eqn:Hexp; [|done].
  destruct (negb (g =? expected)) eqn:Hg; [done|]. bool_prop. subst expected.
  destruct (encrypt_record _ _ _ _ _ _) as [enc|] eqn:He; [|done].
  destruct (is_none _ && _); [done|]. destruct (sql_params _); [|done]. simplify_eq. split.
  - split; [done|done|]. eexists k, token, _. split_and!; try done;
      apply (sealed_row_opens (set_draws st (draws st + 1)) k token scope json clear _ enc g false u Hc He).
  - unfold provider_permission_generation, unlocked. rewrite Ho, Hk. simpl. rewrite Ht.
    intros g'. destruct (private_provider_permissions st !! token) as [row|]; [|done].
    destruct (open_permission st k token scope row); [|done]. simpl in *. simplify_eq. intros [= <-].
    by apply ok_or_Ok, checked_add_Some in Hexp as [-> _].
Qed.

Lemma revoke_written st scope e n u st' :
  revoke_provider_permission st scope e n u = (st', Ok tt) ->
  permission_written st st' scope n true (str_bytes "revoked") /\ n = e + 1 /\
  provider_permission_generation st scope = Ok (Some e).
Proof.
  unfold revoke_provider_permission. intros H.
  destruct (validate_origin scope) as [[]|] eqn:Ho; [|done].
  destruct (e =? 0); [done|]. destruct (ok_or (u64_add e 1) _) as [s|] eqn:Hs; [|done].
  apply ok_or_Ok, checked_add_Some in Hs as [-> _].
  destruct (negb (n =? e + 1)) eqn:Hn; [done|]. bool_prop. subst n.
  unfold unlocked in H. destruct (key st) as [k|] eqn:Hk; [|done]. simpl in H.
  destruct (origin_lookup_token k (database_id st) scope) as [token|] eqn:Ht; [|done].
  unfold transaction, encrypt in H.
  destruct (private_provider_permissions st !! token) as [row|] eqn:Hrow; [|done].
  destruct (negb (pr_generation row =? e) || pr_revoked row) eqn:Hg; [done|].
  apply orb_false_elim in Hg as [Hg Hrv]. bool_prop.
  destruct (open_permission st k token scope row) as [old|] eqn:Hopen; [|done].
  destruct (encode_origin_payload scope (str_bytes "revoked")) as [tomb|] eqn:Hc; [|done].
  destruct (encrypt_record _ _ _ _ _ _) as [enc|] eqn:He; [|done].
  destruct (sql_params _); [|done]. simplify_eq. split_and!.
  - split; [done|done|]. eexists k, token, _. split_and!; try done;
      apply (sealed_row_opens (set_draws st (draws st + 1)) k token scope _ tomb _ enc _ true u Hc He).
  - done.
  - unfold provider_permission_generation, unlocked. rewrite Ho, Hk. simpl. rewrite Ht, Hrow, Hopen. done.
Qed.

Lemma read_written st st' scope g revoked json :
  permission_written st st' scope g revoked json ->
  provider_permission st' scope = Ok (if revoked then None else Some (g, json)) /\
  provider_permission_generation st' scope = Ok (Some g).
Proof.
  intros [Ho [Hk Hdb] (k & token & row & Hkey & Ht & Hrow & <- & <- & Hopen & _)].
  unfold provider_permission, provider_permission_generation, unlocked.
  rewrite Ho, Hk, Hkey, Hdb. simpl. rewrite Ht, Hrow, lookup_insert_eq, Hopen. done.
Qed.

Lemma read_other st st' scope g revoked json scope' :
  permission_written st st' scope g revoked json -> scope' <> scope ->
  provider_permission st' scope' = provider_permission st scope' \/
  exists e, provider_permission st' scope' = Err e.
Proof.
  intros [Ho [Hk Hdb] (k & token & row & Hkey & Ht & Hrow & _ & _ & _ & Herr)] Hne.
  unfold provider_permission, unlocked. rewrite Hk, Hkey, Hdb. simpl.
  destruct (validate_origin scope'); [|by left].
  destruct (origin_lookup_token k (database_id st) scope') as [token'|]; [|by left].
  rewrite Hrow. destruct (decide (token = token')) as [<-|Htok].
  - right. rewrite lookup_insert_eq, (Herr scope' Hne). by eexists.
  - left. rewrite lookup_insert_ne by done.
    destruct (private_provider_permissions st !! token'); [|done].
    unfold open_permission. by rewrite Hdb.
Qed.

(** A failed write only drew a nonce. *)
Lemma put_err st scope g json u st' e :
  put_provider_permission st scope g json u = (st', Err e) -> st' = set_draws st (draws st').
Proof.
  unfold put_provider_permission, transaction. intros H.
  repeat (case_match; simplify_eq; try (by destruct st')); done.
Qed.

Lemma revoke_err st scope e n u st' err :
  revoke_provider_permission st scope e n u = (st', Err err) -> st' = set_draws st (draws st').
Proof.
  unfold revoke_provider_permission, transaction. intros H.
  repeat (case_match; simplify_eq; try (by destruct st')); done.
Qed.

(** The laws the provider core relies on. *)
#[global] Instance wallet_store_laws : ProviderStateStoreLaws WalletStore.
Proof.
  split; simpl; unfold wallet_permission, wallet_permission_generation, wallet_save_permission,
    wallet_revoke_permission.
  - intros s scope r s' H. destruct (json_to_vec r) as [json|] eqn:Hj; [|done]. simpl in H.
    destruct (put_provider_permission _ _ _ _ _) as [st1 [[]|]] eqn:Hp; simplify_eq.
    destruct (put_written _ _ _ _ _ _ Hp) as [Hw Hg]. destruct (read_written _ _ _ _ _ _ Hw) as [-> ->].
    simpl. rewrite (json_roundtrip _ _ Hj). split_and!; try done. intros g Hr. apply Hg.
    revert Hr. by destruct (provider_permission_generation s scope); intros; simplify_eq/=.
  - intros s scope r s' scope' H Hne. destruct (json_to_vec r) as [json|] eqn:Hj; [|done]. simpl in H.
    destruct (put_provider_permission _ _ _ _ _) as [st1 [[]|]] eqn:Hp; simplify_eq.
    destruct (put_written _ _ _ _ _ _ Hp) as [Hw _].
    destruct (read_other _ _ _ _ _ _ scope' Hw Hne) as [->|[e ->]]; [by left|right; simpl; eauto].
  - intros s scope r s' e scope' H. destruct (json_to_vec r) as [json|]; [|by simplify_eq/=]. simpl in H.
    destruct (put_provider_permission _ _ _ _ _) as [st1 [[]|]] eqn:Hp; simplify_eq.
    by rewrite (put_err _ _ _ _ _ _ _ Hp).
  - intros s scope e n u s' H. destruct (revoke_provider_permission _ _ _ _ _) as [st1 [[]|]] eqn:Hp; simplify_eq.
    destruct (revoke_written _ _ _ _ _ _ Hp) as (Hw & -> & ->).
    by destruct (read_written _ _ _ _ _ _ Hw) as [-> ->].
  - intros s scope e n u s' scope' H Hne.
    destruct (revoke_provider_permission _ _ _ _ _) as [st1 [[]|]] eqn:Hp; simplify_eq.
    destruct (revoke_written _ _ _ _ _ _ Hp) as (Hw & _ & _).
    destruct (read_other _ _ _ _ _ _ scope' Hw Hne) as [->|[err ->]]; [by left|right; simpl; eauto].
  - intros s scope e n u s' err scope' H.
    destruct (revoke_provider_permission _ _ _ _ _) as [st1 [[]|]] eqn:Hp; simplify_eq.
    by rewrite (revoke_err _ _ _ _ _ _ _ Hp).
Qed.
(** C38: the wallet store keeps the provider's contract.  Permissions written to
    the encrypted store are read back exactly, under a generation that is the
    successor of the previous one, a revocation leaves a tombstone of the next
    generation and no permission, a write never makes the store answer another
    site's scope with a different record (at worst, on a collision of lookup
    tokens, with an error), and a failed write changes no answer. *)
Theorem wallet_store_keeps_provider_contract : ProviderStateStoreLaws WalletStore.
Proof. apply wallet_store_laws. Qed.
End Instance_.

(** ** A concrete document format, for the witness *)

Definition record_tuple (r : PermissionRecord) :=
  (perm_origin r, bool_decide (perm_namespace r = NsHns), generation r, capabilities r, approved_accounts r,
   approved_names r, created_at_unix r, perm_expires_at_unix r).

Definition numbered : JsonCodec PermissionRecord := {|
  json_to_vec r := Some (Toy.pos_bytes (encode (record_tuple r)));
  json_from_slice b :=
    match decode (Toy.bytes_pos b) with
    | Some (o, ns, g, caps, accs, names, c, e) =>
        Some (Build_PermissionRecord o (if ns : bool then NsHns else NsIcann) g caps accs names c e)
    | None => None
    end;
|}.
#[local] Existing Instance numbered.

#[local] Instance numbered_laws : JsonLaws PermissionRecord.
Proof.
  split; intros v b; simpl; intros [= <-].
  - rewrite Toy.bytes_pos_bytes, decode_encode. by destruct v as [? []].
  - by destruct (encode (record_tuple v)).
Qed.

Definition demo_record : PermissionRecord :=
  Build_PermissionRecord "https://a" NsHns 1 {[Balance]} ∅ ∅ 5 (Some 50).

Lemma wallet_store_keeps_provider_contract_witness :
  exists st', wallet_save_permission Toy.store0 "s" demo_record = (st', Ok tt) /\
    wallet_permission st' "s" = Ok (Some demo_record) /\
    wallet_permission_generation st' "s" = Ok (Some 1).
Proof.
  destruct (run_is_ok (wallet_save_permission Toy.store0 "s" demo_record)) as (st' & [] & H);
    [vm_compute; reflexivity|].
  exists st'. split; [exact H|].
  destruct (@pss_save_ok _ _ wallet_store_keeps_provider_contract _ _ _ _ H) as (Hp & Hg & _).
  split; [exact Hp|exact Hg].
Defined.
