(* ===== verification/Swap.v ===== *)
(** * hns-wallet-market: the atomic-swap state machine

    Models the swap part of [crates/hns-wallet-market/src/lib.rs]:
    [VerifiedQuote], [TimeoutPlan], [SwapSession] with its queries,
    [SwapSession::transition], [SwapSession::apply] over the trait
    [SwapJournal], and [MemoryJournal].

    A swap locks coins on two chains under one hash.  The "first" chain is
    funded first; the redeemer of the second chain's lock reveals the preimage
    ([first_redemption]), which the counterparty then uses on the first chain
    ([second_redemption]).  A leg that is not redeemed is refunded after its
    timeout.  The session journals only evidence a wallet verified itself. *)

From stdpp Require Import finite.
From Stdlib Require Import Strings.Byte.
From S2P Require Import Prelude Types Codec.

(** ** Errors *)

Module MarketError.

(** The payload of [StoreFailure] is the store error whose text the source
    keeps. *)
Inductive t :=
| InvalidQuote | InvalidShakescapeDirectOfferPolicy | InvalidShakescapeDirectOffer
| ShakescapeDirectOfferConflict | CorruptShakescapeDirectOfferBoard
| ShakescapeDirectOfferCapacity | UnknownShakescapeDirectOffer
| InvalidShakescapeDirectSwapPolicy | InvalidShakescapeDirectSwap
| UnknownShakescapeDirectSwap | ShakescapeDirectSwapConflict
| ShakescapeDirectSwapCapacity | CorruptShakescapeDirectSwap
| CorruptShakescapeDirectSwapDetail (detail : string)
| InvalidShakescapePeerMessage | InvalidPair | UnsafeTimeouts | InvalidTransition
| InvalidEvidence | PeerHintNotEvidence | Invariant | StaleRevision | Persistence
| StoreFailure (error : StoreError).

(** [From<StoreError> for MarketError]. *)
Definition from_store (e : StoreError) : t :=
  match e with
  | Codec.StaleRevision _ _ => StaleRevision
  | _ => StoreFailure e
  end.
End MarketError.

Definition PREFUNDING_DEADLINE_FAILURE : string :=
  "funding deadline expired before first-chain authorization".
Definition PREFUNDING_BITCOIN_ABSENCE_FAILURE : string :=
  "funding deadline expired with verified absence of a Bitcoin lock".

(** ** Quotes and timeouts *)

Record VerifiedQuote := mkQuote {
  quote_terms_id : bytes;
  quote_offered : Amount;
  quote_received : Amount;
  valid_until_unix : N;
}.

Definition quote_validate (q : VerifiedQuote) (now_unix : N) : result unit MarketError.t :=
  if bool_decide (asset (quote_offered q) = asset (quote_received q))
     || bu_is_zero (base_units (quote_offered q))
     || bu_is_zero (base_units (quote_received q))
     || (valid_until_unix q <=? now_unix)
  then Err MarketError.InvalidQuote
  else Ok tt.

Record TimeoutPlan := mkTimeouts {
  first_chain_refund_at : N;
  second_chain_refund_at : N;
  minimum_safety_margin : N;
}.

Definition timeout_validate (p : TimeoutPlan) (now : N) : result unit MarketError.t :=
  if (second_chain_refund_at p <=? now)
     || (first_chain_refund_at p <=? second_chain_refund_at p)
     || is_none_or (u64_add (second_chain_refund_at p) (minimum_safety_margin p))
          (fun minimum => first_chain_refund_at p <? minimum)
  then Err MarketError.UnsafeTimeouts
  else Ok tt.

Record SecondFundingAuthorization := mkAuthorization {
  auth_id : bytes;
  auth_module : ModuleId;
  auth_first_funding : bytes;
  auth_first_funding_observation_generation : N;
  auth_expires_at_unix : N;
}.

#[global] Instance SecondFundingAuthorization_eq_dec : EqDecision SecondFundingAuthorization.
Proof. solve_decision. Defined.

(** ** The session *)

Inductive SwapState :=
| OfferPublished | OfferAcceptanceReceived | OfferReserved | TermsFrozen
| RefundsPrepared | FirstFundingPending | FirstFunded | SecondFundingPending
| BothFunded | FirstRedeemed | SecretObserved | SecondRedeemed | Completed
| RefundEligible | RefundBroadcast | Refunded | Failed.

#[global] Instance SwapState_eq_dec : EqDecision SwapState.
Proof. solve_decision. Defined.

Record SwapSession := mkSession {
  sess_id : bytes;
  sess_revision : N;
  sess_state : SwapState;
  first_module : ModuleId;
  second_module : ModuleId;
  offered : Amount;
  received : Amount;
  terms_id : bytes;
  hashlock : bytes;
  accepted_shakescape_terms : option bytes;
  timeouts : TimeoutPlan;
  first_funding : option bytes;
  first_funding_revoked : bool;
  first_funding_observation_generation : N;
  first_funding_confirmed_generation : option N;
  second_funding_authorization : option SecondFundingAuthorization;
  second_funding : option bytes;
  first_redemption : option bytes;
  second_redemption : option bytes;
  refund : option bytes;
  first_refund : option bytes;
  second_refund : option bytes;
  last_verified_at_unix : N;
  failure_reason : option string;
}.

Definition set_revision (s : SwapSession) (x : N) : SwapSession :=
  let 'mkSession i _ st m1 m2 off rcv ti hl terms tp ff rk og cg au sf r1 r2 rf u1 u2 lv fr := s in
  mkSession i x st m1 m2 off rcv ti hl terms tp ff rk og cg au sf r1 r2 rf u1 u2 lv fr.
Definition set_state (s : SwapSession) (x : SwapState) : SwapSession :=
  let 'mkSession i rev _ m1 m2 off rcv ti hl terms tp ff rk og cg au sf r1 r2 rf u1 u2 lv fr := s in
  mkSession i rev x m1 m2 off rcv ti hl terms tp ff rk og cg au sf r1 r2 rf u1 u2 lv fr.
Definition set_accepted_shakescape_terms (s : SwapSession) (x : option bytes) : SwapSession :=
  let 'mkSession i rev st m1 m2 off rcv ti hl _ tp ff rk og cg au sf r1 r2 rf u1 u2 lv fr := s in
  mkSession i rev st m1 m2 off rcv ti hl x tp ff rk og cg au sf r1 r2 rf u1 u2 lv fr.
Definition set_first_funding (s : SwapSession) (x : option bytes) : SwapSession :=
  let 'mkSession i rev st m1 m2 off rcv ti hl terms tp _ rk og cg au sf r1 r2 rf u1 u2 lv fr := s in
  mkSession i rev st m1 m2 off rcv ti hl terms tp x rk og cg au sf r1 r2 rf u1 u2 lv fr.
Definition set_first_funding_revoked (s : SwapSession) (x : bool) : SwapSession :=
  let 'mkSession i rev st m1 m2 off rcv ti hl terms tp ff _ og cg au sf r1 r2 rf u1 u2 lv fr := s in
  mkSession i rev st m1 m2 off rcv ti hl terms tp ff x og cg au sf r1 r2 rf u1 u2 lv fr.
Definition set_first_funding_observation_generation (s : SwapSession) (x : N) : SwapSession :=
  let 'mkSession i rev st m1 m2 off rcv ti hl terms tp ff rk _ cg au sf r1 r2 rf u1 u2 lv fr := s in
  mkSession i rev st m1 m2 off rcv ti hl terms tp ff rk x cg au sf r1 r2 rf u1 u2 lv fr.
Definition set_first_funding_confirmed_generation (s : SwapSession) (x : option N) : SwapSession :=
  let 'mkSession i rev st m1 m2 off rcv ti hl terms tp ff rk og _ au sf r1 r2 rf u1 u2 lv fr := s in
  mkSession i rev st m1 m2 off rcv ti hl terms tp ff rk og x au sf r1 r2 rf u1 u2 lv fr.
Definition set_second_funding_authorization (s : SwapSession) (x : option SecondFundingAuthorization) : SwapSession :=
  let 'mkSession i rev st m1 m2 off rcv ti hl terms tp ff rk og cg _ sf r1 r2 rf u1 u2 lv fr := s in
  mkSession i rev st m1 m2 off rcv ti hl terms tp ff rk og cg x sf r1 r2 rf u1 u2 lv fr.
Definition set_second_funding (s : SwapSession) (x : option bytes) : SwapSession :=
  let 'mkSession i rev st m1 m2 off rcv ti hl terms tp ff rk og cg au _ r1 r2 rf u1 u2 lv fr := s in
  mkSession i rev st m1 m2 off rcv ti hl terms tp ff rk og cg au x r1 r2 rf u1 u2 lv fr.
Definition set_first_redemption (s : SwapSession) (x : option bytes) : SwapSession :=
  let 'mkSession i rev st m1 m2 off rcv ti hl terms tp ff rk og cg au sf _ r2 rf u1 u2 lv fr := s in
  mkSession i rev st m1 m2 off rcv ti hl terms tp ff rk og cg au sf x r2 rf u1 u2 lv fr.
Definition set_second_redemption (s : SwapSession) (x : option bytes) : SwapSession :=
  let 'mkSession i rev st m1 m2 off rcv ti hl terms tp ff rk og cg au sf r1 _ rf u1 u2 lv fr := s in
  mkSession i rev st m1 m2 off rcv ti hl terms tp ff rk og cg au sf r1 x rf u1 u2 lv fr.
Definition set_refund (s : SwapSession) (x : option bytes) : SwapSession :=
  let 'mkSession i rev st m1 m2 off rcv ti hl terms tp ff rk og cg au sf r1 r2 _ u1 u2 lv fr := s in
  mkSession i rev st m1 m2 off rcv ti hl terms tp ff rk og cg au sf r1 r2 x u1 u2 lv fr.
Definition set_first_refund (s : SwapSession) (x : option bytes) : SwapSession :=
  let 'mkSession i rev st m1 m2 off rcv ti hl terms tp ff rk og cg au sf r1 r2 rf _ u2 lv fr := s in
  mkSession i rev st m1 m2 off rcv ti hl terms tp ff rk og cg au sf r1 r2 rf x u2 lv fr.
Definition set_second_refund (s : SwapSession) (x : option bytes) : SwapSession :=
  let 'mkSession i rev st m1 m2 off rcv ti hl terms tp ff rk og cg au sf r1 r2 rf u1 _ lv fr := s in
  mkSession i rev st m1 m2 off rcv ti hl terms tp ff rk og cg au sf r1 r2 rf u1 x lv fr.
Definition set_last_verified_at_unix (s : SwapSession) (x : N) : SwapSession :=
  let 'mkSession i rev st m1 m2 off rcv ti hl terms tp ff rk og cg au sf r1 r2 rf u1 u2 _ fr := s in
  mkSession i rev st m1 m2 off rcv ti hl terms tp ff rk og cg au sf r1 r2 rf u1 u2 x fr.
Definition set_failure_reason (s : SwapSession) (x : option string) : SwapSession :=
  let 'mkSession i rev st m1 m2 off rcv ti hl terms tp ff rk og cg au sf r1 r2 rf u1 u2 lv _ := s in
  mkSession i rev st m1 m2 off rcv ti hl terms tp ff rk og cg au sf r1 r2 rf u1 u2 lv x.

Definition session_new (id : bytes) (m1 m2 : ModuleId) (quote : VerifiedQuote)
    (lock : bytes) (plan : TimeoutPlan) (now_unix : N) : result SwapSession MarketError.t :=
  let* _ := quote_validate quote now_unix in
  let* _ := timeout_validate plan now_unix in
  let quoted m := bool_decide (module_asset m = asset (quote_offered quote))
                  || bool_decide (module_asset m = asset (quote_received quote)) in
  if bool_decide (m1 = m2) || negb (quoted m1) || negb (quoted m2)
  then Err MarketError.InvalidPair
  else Ok {|
    sess_id := id; sess_revision := 0; sess_state := OfferPublished;
    first_module := m1; second_module := m2;
    offered := quote_offered quote; received := quote_received quote;
    terms_id := quote_terms_id quote; hashlock := lock;
    accepted_shakescape_terms := None; timeouts := plan;
    first_funding := None; first_funding_revoked := false;
    first_funding_observation_generation := 0;
    first_funding_confirmed_generation := None;
    second_funding_authorization := None; second_funding := None;
    first_redemption := None; second_redemption := None; refund := None;
    first_refund := None; second_refund := None;
    last_verified_at_unix := now_unix; failure_reason := None |}.

(** *** Queries *)

Definition refund_for_module (s : SwapSession) (m : ModuleId) : option bytes :=
  if bool_decide (m = first_module s) then first_refund s
  else if bool_decide (m = second_module s) then second_refund s
  else None.

Definition first_funding_is_current (s : SwapSession) : bool :=
  is_some (first_funding s)
  && negb (first_funding_revoked s)
  && ((first_funding_observation_generation s =? 0)
      || bool_decide (first_funding_confirmed_generation s
                      = Some (first_funding_observation_generation s))).

Definition can_refund_module (s : SwapSession) (m : ModuleId) : bool :=
  if bool_decide (m = first_module s) then
    first_funding_is_current s && is_none (first_refund s) && is_none (second_redemption s)
  else if bool_decide (m = second_module s) then
    is_some (second_funding s) && is_none (second_refund s) && is_none (first_redemption s)
  else false.

Definition can_record_refund_for_module (s : SwapSession) (m : ModuleId) : bool :=
  if bool_decide (m = first_module s) then
    is_some (first_funding s) && is_none (first_refund s) && is_none (second_redemption s)
  else if bool_decide (m = second_module s) then
    is_some (second_funding s) && is_none (second_refund s) && is_none (first_redemption s)
  else false.

Definition module_is_funded (s : SwapSession) (m : ModuleId) : bool :=
  if bool_decide (m = first_module s) then is_some (first_funding s)
  else if bool_decide (m = second_module s) then is_some (second_funding s)
  else false.

Definition funded_module_is_settled (s : SwapSession) (m : ModuleId) : bool :=
  if bool_decide (m = first_module s) then
    is_some (first_funding s) && (is_some (first_refund s) || is_some (second_redemption s))
  else if bool_decide (m = second_module s) then
    is_some (second_funding s) && (is_some (second_refund s) || is_some (first_redemption s))
  else false.

Definition has_confirmed_refund (s : SwapSession) : bool :=
  is_some (first_refund s) || is_some (second_refund s).

Definition all_funded_legs_settled (s : SwapSession) : bool :=
  let any_funded := is_some (first_funding s) || is_some (second_funding s) in
  let first_settled := is_none (first_funding s) || is_some (first_refund s)
                       || is_some (second_redemption s) in
  let second_settled := is_none (second_funding s) || is_some (second_refund s)
                        || is_some (first_redemption s) in
  any_funded && first_settled && second_settled.

(** ** Evidence and the transition function *)

Module VerifiedEvidence.

Inductive t :=
| OfferAcceptanceValidated
| OfferReserved
| TermsApproved (terms_id : bytes)
| RefundsValidated
| FundingReady
| FirstFundingObservationStarted (module : ModuleId) (generation : N)
| FirstFundingConfirmed (evidence : bytes)
| FirstFundingConfirmedAtGeneration (evidence : bytes) (module : ModuleId) (generation : N)
| FirstFundingInvalidated (evidence : bytes)
| SecondFundingReady
| SecondFundingAuthorizationIssued (authorization : SecondFundingAuthorization)
| SecondFundingConfirmed (evidence : bytes)
| FirstRedemptionConfirmed (evidence : bytes)
| SecretExtracted (hashlock : bytes)
| SecondRedemptionConfirmed (evidence : bytes)
| CompletionValidated
| RefundEligibilityValidated
| RefundBroadcast (evidence : bytes)
| RefundConfirmed (evidence : bytes)
| ChainRefundConfirmed (module : ModuleId) (evidence : bytes)
| TerminalFailure (reason : string).
End VerifiedEvidence.
Abbreviation Evidence := VerifiedEvidence.t.

(** The alternatives of the source's patterns. *)
Definition invalidatable_state (st : SwapState) : bool :=
  match st with
  | SecondFundingPending | BothFunded | FirstRedeemed | SecretObserved | RefundEligible
  | RefundBroadcast | Refunded | Failed => true
  | _ => false
  end.

Definition refreshable_state (st : SwapState) : bool :=
  match st with FirstFunded => true | _ => invalidatable_state st end.

Definition observable_state (st : SwapState) : bool :=
  match st with FirstFundingPending => true | _ => refreshable_state st end.

(** [matches!(self.failure_reason.as_deref(), Some(PREFUNDING_DEADLINE_FAILURE |
    PREFUNDING_BITCOIN_ABSENCE_FAILURE))]. *)
Definition prefunding_failure (s : SwapSession) : bool :=
  is_some_and (failure_reason s) (fun reason =>
    bool_decide (reason = PREFUNDING_DEADLINE_FAILURE)
    || bool_decide (reason = PREFUNDING_BITCOIN_ABSENCE_FAILURE)).

(** A pattern alternative on the current state. *)
Definition at_state (s : SwapSession) (st : SwapState) : bool := bool_decide (sess_state s = st).

(** The four assignments every first-funding arm makes. *)
Definition record_first_funding (s : SwapSession) (ff : option bytes) (confirmed : option N) :
    SwapSession :=
  let s := set_first_funding s ff in
  let s := set_first_funding_revoked s false in
  let s := set_first_funding_confirmed_generation s confirmed in
  set_second_funding_authorization s None.

(** The arms of [transition]'s [match], by evidence, in the source's order; an
    arm whose pattern or guard fails falls through to the next, and at last to
    [InvalidTransition].  The result is the mutated session and [next]. *)
Definition transition_arm (s : SwapSession) (ev : Evidence) (now_unix : N) :
    result (SwapSession * SwapState) MarketError.t :=
  let st := sess_state s in
  let reject := Err MarketError.InvalidTransition in
  let restored := match st with Refunded | Failed => RefundEligible | _ => st end in
  match ev with
  | VerifiedEvidence.OfferAcceptanceValidated =>
      if at_state s OfferPublished then Ok (s, OfferAcceptanceReceived) else reject
  | VerifiedEvidence.OfferReserved =>
      if at_state s OfferAcceptanceReceived then Ok (s, OfferReserved) else reject
  | VerifiedEvidence.TermsApproved tid =>
      if at_state s OfferReserved && bool_decide (tid = terms_id s)
      then Ok (s, TermsFrozen) else reject
  | VerifiedEvidence.RefundsValidated =>
      if at_state s TermsFrozen then Ok (s, RefundsPrepared) else reject
  | VerifiedEvidence.FundingReady =>
      if at_state s RefundsPrepared then Ok (s, FirstFundingPending) else reject
  | VerifiedEvidence.FirstFundingObservationStarted m g =>
      if observable_state st
         && bool_decide (first_module s = m)
         && (at_state s FirstFundingPending
             || is_some (first_funding s)
             || (at_state s Failed && is_none (second_funding s) && prefunding_failure s))
         && is_none (second_redemption s)
         && is_none (first_refund s)
         && bool_decide (u64_add (first_funding_observation_generation s) 1 = Some g)
      then
        let s := set_first_funding_observation_generation s g in
        let s := set_first_funding_confirmed_generation s None in
        Ok (set_second_funding_authorization s None, st)
      else reject
  | VerifiedEvidence.FirstFundingConfirmed e =>
      if at_state s FirstFundingPending then
        Ok (record_first_funding s (Some e) None, FirstFunded)
      else if at_state s Failed && is_none (first_funding s) && is_none (second_funding s)
              && prefunding_failure s then
        Ok (set_failure_reason (record_first_funding s (Some e) None) None, FirstFunded)
      else if refreshable_state st && is_some (first_funding s)
              && negb (first_funding_revoked s) && is_none (second_funding s) then
        Ok (record_first_funding s (Some e) None, restored)
      else reject
  | VerifiedEvidence.FirstFundingConfirmedAtGeneration e m g =>
      if at_state s FirstFundingPending && bool_decide (first_module s = m)
         && (first_funding_observation_generation s =? g)
         && is_none (first_refund s) && is_none (second_redemption s) then
        Ok (record_first_funding s (Some e) (Some g), FirstFunded)
      else if at_state s Failed && bool_decide (first_module s = m)
              && (first_funding_observation_generation s =? g)
              && is_none (first_funding s) && is_none (second_funding s)
              && prefunding_failure s then
        Ok (set_failure_reason (record_first_funding s (Some e) (Some g)) None, FirstFunded)
      else if refreshable_state st && bool_decide (first_module s = m)
              && (first_funding_observation_generation s =? g)
              && is_none (first_refund s) && is_none (second_redemption s) then
        Ok (record_first_funding s (Some e) (Some g), restored)
      else reject
  | VerifiedEvidence.FirstFundingInvalidated e =>
      if at_state s FirstFunded && bool_decide (first_funding s = Some e)
         && is_none (second_funding s) then
        Ok (record_first_funding s None None, FirstFundingPending)
      else if invalidatable_state st && bool_decide (first_funding s = Some e)
              && is_none (second_redemption s) && is_none (first_refund s) then
        let s := set_first_funding_revoked s true in
        let s := set_first_funding_confirmed_generation s None in
        Ok (set_second_funding_authorization s None,
            if bool_decide (st = Refunded) then RefundEligible else st)
      else reject
  | VerifiedEvidence.SecondFundingReady =>
      if at_state s FirstFunded then Ok (s, SecondFundingPending) else reject
  | VerifiedEvidence.SecondFundingAuthorizationIssued a =>
      if at_state s SecondFundingPending
         && bool_decide (first_funding s = Some (auth_first_funding a))
         && negb (first_funding_revoked s)
         && is_none (second_funding s)
         && bool_decide (second_module s = auth_module a)
         && (first_funding_observation_generation s
             =? auth_first_funding_observation_generation a)
         && bool_decide (first_funding_confirmed_generation s
                         = Some (auth_first_funding_observation_generation a))
         && negb (all_zero (auth_id a))
         && (now_unix <? auth_expires_at_unix a)
      then Ok (set_second_funding_authorization s (Some a), SecondFundingPending)
      else reject
  | VerifiedEvidence.SecondFundingConfirmed e =>
      if at_state s SecondFundingPending
      then Ok (set_second_funding s (Some e), BothFunded) else reject
  | VerifiedEvidence.FirstRedemptionConfirmed e =>
      if (at_state s BothFunded || at_state s RefundEligible)
         && is_some (second_funding s) && is_none (second_refund s)
         && is_none (first_redemption s)
      then Ok (set_first_redemption s (Some e), FirstRedeemed) else reject
  | VerifiedEvidence.SecretExtracted h =>
      if at_state s FirstRedeemed && bool_decide (h = hashlock s)
      then Ok (s, if all_funded_legs_settled s then Refunded else SecretObserved)
      else reject
  | VerifiedEvidence.SecondRedemptionConfirmed e =>
      if at_state s SecretObserved
      then Ok (set_second_redemption s (Some e), SecondRedeemed) else reject
  | VerifiedEvidence.CompletionValidated =>
      if at_state s SecondRedeemed then Ok (s, Completed) else reject
  | VerifiedEvidence.RefundEligibilityValidated =>
      if (at_state s FirstFunded || at_state s SecondFundingPending)
         && is_some (first_funding s) && is_none (second_funding s)
      then Ok (s, RefundEligible) else reject
  | VerifiedEvidence.RefundBroadcast e =>
      if at_state s RefundEligible
      then Ok (set_refund s (Some e), RefundBroadcast) else reject
  | VerifiedEvidence.RefundConfirmed e =>
      if at_state s RefundBroadcast && bool_decide (refund s = Some e)
         && is_some (first_funding s) && is_none (second_funding s)
      then Ok (set_first_refund s (Some e), Refunded) else reject
  | VerifiedEvidence.ChainRefundConfirmed m e =>
      if refreshable_state st && can_record_refund_for_module s m then
        let s := if bool_decide (m = first_module s) then set_first_refund s (Some e)
                 else set_second_refund s (Some e) in
        let s := set_refund s (Some e) in
        Ok (s, if all_funded_legs_settled s then Refunded else RefundEligible)
      else reject
  | VerifiedEvidence.TerminalFailure reason =>
      if negb (at_state s Completed || at_state s Refunded) then
        if (str_len reason =? 0) || (256 <? str_len reason)
        then Err MarketError.InvalidEvidence
        else Ok (set_failure_reason s (Some reason), Failed)
      else reject
  end.

(** [SwapSession::transition]. *)
Definition transition (s : SwapSession) (ev : Evidence) (now_unix : N) :
    result SwapSession MarketError.t :=
  let* (s, next) := transition_arm s ev now_unix in
  let s := if negb (bool_decide (next = SecondFundingPending))
           then set_second_funding_authorization s None else s in
  Ok (set_last_verified_at_unix (set_state s next) now_unix).

(** ** The journal *)

(** The trait [SwapJournal]. *)
Class SwapJournal (J : Type) :=
  journal_save : J -> SwapSession -> N -> J * result unit MarketError.t.

(** [SwapSession::apply]: the session is replaced only after the journal took
    the successor. *)
Definition apply {J} `{SwapJournal J} (s : SwapSession) (ev : Evidence) (now_unix : N) (j : J) :
    SwapSession * J * result unit MarketError.t :=
  match transition s ev now_unix with
  | Err e => (s, j, Err e)
  | Ok next =>
      match ok_or (u64_add (sess_revision s) 1) MarketError.Invariant with
      | Err e => (s, j, Err e)
      | Ok next_revision =>
          let next := set_revision next next_revision in
          match journal_save j next (sess_revision s) with
          | (j, Ok _) => (next, j, Ok tt)
          | (j, Err e) => (s, j, Err e)
          end
      end
  end.

Inductive PeerHint := FundingClaimed | RedeemedClaimed | RefundedClaimed.

Definition observe_peer_hint (s : SwapSession) (hint : PeerHint) : result unit MarketError.t :=
  Err MarketError.PeerHintNotEvidence.

(** [MemoryJournal]; [saved] is a [Vec], extended at its end. *)
Record MemoryJournal := mkMemoryJournal { saved : list SwapSession }.

#[global] Instance MemoryJournal_journal : SwapJournal MemoryJournal := fun j s expected_revision =>
  if negb (sess_revision s =? expected_revision + 1)
  then (j, Err MarketError.StaleRevision)
  else (mkMemoryJournal (saved j ++ [s]), Ok tt).

(** A run of [apply]: the first error stops it, as the callers' [?] does. *)
Fixpoint apply_all {J} `{SwapJournal J} (s : SwapSession) (evs : list (Evidence * N)) (j : J) :
    SwapSession * J * result unit MarketError.t :=
  match evs with
  | [] => (s, j, Ok tt)
  | (ev, now) :: rest =>
      match apply s ev now j with
      | (s, j, Ok _) => apply_all s rest j
      | (s, j, Err e) => (s, j, Err e)
      end
  end.
