(* ===== verification/SwapProofs.v ===== *)
(** * The swap state machine: invariant and step lemmas

    [session_inv] ties the state of a session to the evidence it has journaled;
    [transition_inv] shows that every accepted piece of evidence preserves it. *)

From S2P Require Import Prelude Types Codec Swap.

(** ** What a state says about the journaled evidence

    The flags say which evidence is present: funding of the first and second
    chain, first and second redemption, refund of the first and second lock. *)

Definition legs_ok (ff sf r1 r2 u1 u2 : bool) : bool :=
  implb sf ff && implb r1 sf && implb r2 r1 && implb u1 ff && implb u2 sf
  && negb (u1 && r2) && negb (u2 && r1).

Definition state_ok (st : SwapState) (ff sf r1 r2 u1 u2 : bool) : bool :=
  match st with
  | OfferPublished | OfferAcceptanceReceived | OfferReserved | TermsFrozen
  | RefundsPrepared | FirstFundingPending => negb ff
  | FirstFunded | SecondFundingPending => ff && negb sf && negb u1
  | BothFunded => sf && negb r1 && negb u1 && negb u2
  | FirstRedeemed => r1 && negb r2
  | SecretObserved => r1 && negb r2 && negb u1
  | SecondRedeemed | Completed => r2
  | RefundEligible | RefundBroadcast => ff && negb r2
  | Refunded => ff && (u1 || r2) && (negb sf || u2 || r1)
  | Failed => true
  end.

Definition shape (s : SwapSession) : bool :=
  let ff := is_some (first_funding s) in let sf := is_some (second_funding s) in
  let r1 := is_some (first_redemption s) in let r2 := is_some (second_redemption s) in
  let u1 := is_some (first_refund s) in let u2 := is_some (second_refund s) in
  legs_ok ff sf r1 r2 u1 u2 && state_ok (sess_state s) ff sf r1 r2 u1 u2.

(** A second-funding authorization is bound to the first-chain evidence that is
    current, and is still unspent and unexpired at the last verified time. *)
Record auth_bound (s : SwapSession) (a : SecondFundingAuthorization) : Prop := {
  ab_state : sess_state s = SecondFundingPending;
  ab_first : first_funding s = Some (auth_first_funding a);
  ab_revoked : first_funding_revoked s = false;
  ab_second : second_funding s = None;
  ab_module : second_module s = auth_module a;
  ab_observed : first_funding_observation_generation s = auth_first_funding_observation_generation a;
  ab_confirmed : first_funding_confirmed_generation s
                 = Some (auth_first_funding_observation_generation a);
  ab_id : all_zero (auth_id a) = false;
  ab_expiry : last_verified_at_unix s < auth_expires_at_unix a;
}.

Record session_inv (s : SwapSession) : Prop := {
  inv_shape : shape s = true;
  inv_confirmed : forall g, first_funding_confirmed_generation s = Some g ->
    g = first_funding_observation_generation s /\ is_some (first_funding s) = true /\
    first_funding_revoked s = false;
  inv_revoked : first_funding_revoked s = true -> is_some (first_funding s) = true;
  inv_authorization : forall a, second_funding_authorization s = Some a -> auth_bound s a;
}.

(** ** Transitions *)

(** What [transition] does after its [match]. *)
Definition finish (s : SwapSession) (next : SwapState) (now : N) : SwapSession :=
  set_last_verified_at_unix (set_state
    (if negb (bool_decide (next = SecondFundingPending))
     then set_second_funding_authorization s None else s) next) now.

Lemma transition_ok s ev now s' :
  transition s ev now = Ok s' ->
  exists s1 next, transition_arm s ev now = Ok (s1, next) /\ s' = finish s1 next now.
Proof.
  unfold transition. destruct (transition_arm s ev now) as [[s1 next]|]; [|done].
  intros <-%Ok_inj. by eexists _, _.
Qed.

(** [finish] writes the state, the time and perhaps the authorization. *)
Lemma finish_fields s next now (s' := finish s next now) :
  sess_state s' = next /\ last_verified_at_unix s' = now /\
  first_funding s' = first_funding s /\ second_funding s' = second_funding s /\
  first_redemption s' = first_redemption s /\ second_redemption s' = second_redemption s /\
  first_refund s' = first_refund s /\ second_refund s' = second_refund s /\
  first_funding_revoked s' = first_funding_revoked s /\
  first_funding_observation_generation s' = first_funding_observation_generation s /\
  first_funding_confirmed_generation s' = first_funding_confirmed_generation s /\
  first_module s' = first_module s /\ second_module s' = second_module s /\
  second_funding_authorization s' =
    (if bool_decide (next = SecondFundingPending) then second_funding_authorization s else None) /\
  sess_revision s' = sess_revision s /\ sess_id s' = sess_id s /\ hashlock s' = hashlock s /\
  terms_id s' = terms_id s /\ timeouts s' = timeouts s /\
  accepted_shakescape_terms s' = accepted_shakescape_terms s /\ refund s' = refund s /\
  failure_reason s' = failure_reason s.
Proof. subst s'. unfold finish. destruct s. by case_bool_decide. Qed.

(** Split an accepted piece of evidence into the arm that took it, with the
    arm's guards as hypotheses and the session's fields as variables. *)
Ltac arm H :=
  unfold transition_arm in H; run_in H; unfold at_state, record_first_funding in *;
  cbn in *; bool_prop; subst.

(** Decide a boolean statement about which evidence is present: the boolean
    hypotheses become premises of an [implb], whose truth table is evaluated. *)
Lemma bool_imp_true a b : implb a b = true -> a = true -> b = true.
Proof. by destruct a. Qed.
Lemma bool_imp_false a b : implb (negb a) b = true -> a = false -> b = true.
Proof. by destruct a. Qed.
Lemma is_none_negb {A} (o : option A) : is_none o = negb (is_some o).
Proof. by destruct o. Qed.

Ltac flags :=
  repeat match goal with
  | H : ?a = true |- _ => revert H; apply bool_imp_true
  | H : ?a = false |- _ => revert H; apply bool_imp_false
  end;
  rewrite ?is_none_negb;
  repeat match goal with |- context [is_some ?x] => is_var x; generalize (is_some x) end;
  repeat match goal with
  | |- context [prefunding_failure ?x] => generalize (prefunding_failure x)
  | |- context [?a =? ?b] => generalize (a =? b)
  | |- context [all_zero ?x] => generalize (all_zero x)
  | |- context [bool_decide ?P] => generalize (bool_decide P)
  end;
  repeat match goal with b : bool |- context [?c] => constr_eq b c; revert b end;
  clear; repeat intros []; reflexivity.

Definition shape_at (st : SwapState) (s : SwapSession) : bool := shape (set_state s st).

Lemma arm_shape s ev now s1 next :
  transition_arm s ev now = Ok (s1, next) -> shape s = true -> shape_at next s1 = true.
Proof.
  intros H Hs. destruct s, ev; arm H; unfold shape_at, shape, can_record_refund_for_module, all_funded_legs_settled in *;
    cbn in *; repeat case_bool_decide; try discriminate; try contradiction;
    try match goal with st : SwapState |- _ => destruct st; try discriminate end; flags.
Qed.

Lemma finish_shape s next now : shape (finish s next now) = shape_at next s.
Proof. unfold finish. destruct s. by case_bool_decide. Qed.

Lemma transition_shape s ev now s' :
  transition s ev now = Ok s' -> shape s = true -> shape s' = true.
Proof.
  intros (s1 & next & H & ->)%transition_ok Hs. rewrite finish_shape. by eapply arm_shape.
Qed.

(** A confirmed generation is the latest one and speaks for a lock that is
    recorded and not revoked. *)
Definition confirmation_ok (s : SwapSession) : Prop :=
  (forall g, first_funding_confirmed_generation s = Some g ->
     g = first_funding_observation_generation s /\ is_some (first_funding s) = true /\
     first_funding_revoked s = false) /\
  (first_funding_revoked s = true -> is_some (first_funding s) = true).

Lemma arm_confirmation s ev now s1 next :
  transition_arm s ev now = Ok (s1, next) -> confirmation_ok s -> confirmation_ok s1.
Proof.
  intros H [Hc Hr]. destruct s, ev; arm H; unfold confirmation_ok; cbn in *;
    split; intros; simplify_eq; eauto;
    try match goal with H : context [if ?c then _ else _] |- _ => destruct c; cbn in * end; eauto.
Qed.

Definition authorization_ok (s : SwapSession) : Prop :=
  forall a, second_funding_authorization s = Some a -> auth_bound s a.

Lemma transition_authorization s ev now s' :
  transition s ev now = Ok s' -> authorization_ok s -> authorization_ok s'.
Proof.
  intros (s1 & next & H & ->)%transition_ok Ha a.
  destruct (finish_fields s1 next now) as (_ & _ & _ & _ & _ & _ & _ & _ & _ & _ & _ & _ & _ & -> & _).
  case_bool_decide as Hnext; [|done]. subst next. intros Hs1.
  destruct s, ev; arm H; try discriminate Hs1; cbn in *.
  - by destruct (Ha a eq_refl).
  - injection Hs1 as <-. by split.
Qed.

Lemma transition_inv s ev now s' :
  transition s ev now = Ok s' -> session_inv s -> session_inv s'.
Proof.
  intros H [Hs Hc Hr Ha]. pose proof (transition_shape _ _ _ _ H Hs) as Hs'.
  pose proof (transition_authorization _ _ _ _ H Ha) as Ha'.
  apply transition_ok in H as (s1 & next & H & ->).
  apply arm_confirmation in H as [Hc1 Hr1]; [|done].
  split; try done; unfold finish in *; destruct s1, next; done.
Qed.

(** ** Steps, runs and reachable sessions *)

(** One successful [apply], whatever the journal. *)
Definition step (s : SwapSession) (ev : Evidence) (now : N) (s' : SwapSession) : Prop :=
  exists n, transition s ev now = Ok n /\ sess_revision s + 1 <= U64_MAX /\
    s' = set_revision n (sess_revision s + 1).

Inductive steps : SwapSession -> list (Evidence * N) -> SwapSession -> Prop :=
| steps_nil s : steps s [] s
| steps_snoc s evs s1 ev now s2 :
    steps s evs s1 -> step s1 ev now s2 -> steps s (evs ++ [(ev, now)]) s2.

(** A session at the baseline an accepted direct swap is journaled at. *)
Definition opened (s : SwapSession) (terms : bytes) (now : N) : SwapSession :=
  set_last_verified_at_unix (set_accepted_shakescape_terms
    (set_revision (set_state s TermsFrozen) 1) (Some terms)) now.

(** The sessions the wallet can hold: created by [session_new], or opened at the
    frozen terms of an accepted swap, and advanced by accepted evidence. *)
Inductive reachable : SwapSession -> Prop :=
| reach_new id m1 m2 q h p now s :
    session_new id m1 m2 q h p now = Ok s -> reachable s
| reach_opened id m1 m2 q h p now s terms now' :
    session_new id m1 m2 q h p now = Ok s -> reachable (opened s terms now')
| reach_step s ev now s' : reachable s -> step s ev now s' -> reachable s'.

Lemma set_revision_inv s r : session_inv s -> session_inv (set_revision s r).
Proof. destruct s. intros [Hs Hc Hr Ha]. split; try done. intros a H. by destruct (Ha a H). Qed.

Lemma step_inv s ev now s' : step s ev now s' -> session_inv s -> session_inv s'.
Proof. intros (n & H & _ & ->) Hs. by eapply set_revision_inv, transition_inv. Qed.

Lemma session_new_ok id m1 m2 q h p now s :
  session_new id m1 m2 q h p now = Ok s ->
  quote_validate q now = Ok tt /\ timeout_validate p now = Ok tt /\ m1 <> m2 /\
  (module_asset m1 = asset (quote_offered q) \/ module_asset m1 = asset (quote_received q)) /\
  (module_asset m2 = asset (quote_offered q) \/ module_asset m2 = asset (quote_received q)) /\
  s = mkSession id 0 OfferPublished m1 m2 (quote_offered q) (quote_received q)
        (quote_terms_id q) h None p None false 0 None None None None None None None None now None.
Proof.
  unfold session_new. intros H.
  destruct (quote_validate q now) as [[]|]; [|done]. destruct (timeout_validate p now) as [[]|]; [|done].
  destruct (_ || _ || _) eqn:Hg in H; [done|]. apply Ok_inj in H as <-.
  apply orb_false_elim in Hg as [[Hne H1]%orb_false_elim H2]. bool_prop.
  apply orb_true_iff in H1, H2. rewrite !bool_decide_eq_true in H1, H2. done.
Qed.

Lemma reachable_inv s : reachable s -> session_inv s.
Proof.
  induction 1 as [id m1 m2 q h p now s H|id m1 m2 q h p now s terms now' H|s ev now s' _ IH Hstep].
  - apply session_new_ok in H as (_ & _ & _ & _ & _ & ->). by split.
  - apply session_new_ok in H as (_ & _ & _ & _ & _ & ->). by split.
  - by eapply step_inv.
Qed.

Lemma steps_reachable s evs s' : steps s evs s' -> reachable s -> reachable s'.
Proof.
  induction 1 as [|s evs s1 ev now s2 _ IH Hstep]; [done|]. intros Hs.
  by apply (reach_step s1 ev now), Hstep; apply IH.
Qed.

(** *** What a transition leaves alone *)

Lemma arm_frame s ev now s1 next :
  transition_arm s ev now = Ok (s1, next) ->
  sess_id s1 = sess_id s /\ sess_revision s1 = sess_revision s /\
  first_module s1 = first_module s /\ second_module s1 = second_module s /\
  terms_id s1 = terms_id s /\ hashlock s1 = hashlock s /\ timeouts s1 = timeouts s /\
  offered s1 = offered s /\ received s1 = received s /\
  accepted_shakescape_terms s1 = accepted_shakescape_terms s.
Proof. intros H. destruct s, ev; arm H; done. Qed.

(** *** Evidence is permanent *)

Definition kept (o o' : option bytes) : Prop := forall e, o = Some e -> o' = Some e.

(** The evidence of [s'] extends that of [s]: the second lock and the settlement
    of each leg never change once recorded; a recorded refund of the first lock
    is never erased. *)
Record extends (s s' : SwapSession) : Prop := {
  ext_second_funding : kept (second_funding s) (second_funding s');
  ext_first_redemption : kept (first_redemption s) (first_redemption s');
  ext_second_redemption : kept (second_redemption s) (second_redemption s');
  ext_second_refund : kept (second_refund s) (second_refund s');
  ext_first_refund : is_some (first_refund s) = true -> is_some (first_refund s') = true;
  ext_generation : first_funding_observation_generation s <= first_funding_observation_generation s';
}.

#[global] Instance extends_preorder : PreOrder extends.
Proof.
  split.
  - intros s. split; unfold kept; auto.
  - intros s1 s2 s3 [A1 A2 A3 A4 A5 A6] [B1 B2 B3 B4 B5 B6]. split; unfold kept; auto. lia.
Qed.

Lemma arm_extends s ev now s1 next :
  transition_arm s ev now = Ok (s1, next) -> shape s = true -> extends s s1.
Proof.
  intros H Hs. destruct s, ev; arm H; unfold can_record_refund_for_module in *; cbn in *;
    repeat case_bool_decide; try discriminate; bool_prop; subst;
    split; unfold kept; cbn; intros; simplify_eq; try done; try lia;
    enough (false = true) by done; unfold shape in Hs; cbn in *; flags.
Qed.

Lemma set_revision_extends s r : extends s (set_revision s r).
Proof. destruct s. split; unfold kept; cbn; auto using N.le_refl. Qed.

Lemma finish_extends s next now : extends s (finish s next now).
Proof. unfold finish. destruct s; case_bool_decide; split; unfold kept; cbn; auto using N.le_refl. Qed.

Lemma step_extends s ev now s' : step s ev now s' -> shape s = true -> extends s s'.
Proof.
  intros (n & (s1 & next & H & ->)%transition_ok & _ & ->) Hs.
  etrans; [by eapply arm_extends|]. etrans; [apply finish_extends|apply set_revision_extends].
Qed.

Lemma steps_extends s evs s' : steps s evs s' -> reachable s -> extends s s'.
Proof.
  induction 1 as [|s evs s1 ev now s2 Hsteps IH Hstep]; [done|]. intros Hs. etrans; [by apply IH|].
  eapply step_extends; [done|]. by apply reachable_inv; eapply steps_reachable.
Qed.

(** *** Generations and the currency of the first lock *)

(** Only a result of the latest read confirms, and only the latest read's
    result is accepted. *)
Lemma arm_confirmed s ev now s1 next g :
  transition_arm s ev now = Ok (s1, next) -> first_funding_confirmed_generation s1 = Some g ->
  (exists e, ev = VerifiedEvidence.FirstFundingConfirmedAtGeneration e (first_module s) g /\
     first_funding s1 = Some e) \/
  (first_funding_confirmed_generation s = Some g /\ first_funding s1 = first_funding s).
Proof. intros H Hg. destruct s, ev; arm H; try discriminate; try injection Hg as <-; eauto. Qed.

Lemma arm_at_generation s e m g now s1 next :
  transition_arm s (VerifiedEvidence.FirstFundingConfirmedAtGeneration e m g) now = Ok (s1, next) ->
  m = first_module s /\ g = first_funding_observation_generation s /\ first_funding s1 = Some e /\
  first_funding_confirmed_generation s1 = Some g.
Proof. intros H. destruct s; arm H; done. Qed.

Lemma arm_at_generation_keeps s e m g now s1 next :
  transition_arm s (VerifiedEvidence.FirstFundingConfirmedAtGeneration e m g) now = Ok (s1, next) ->
  first_funding_observation_generation s1 = g.
Proof. intros H. destruct s; arm H; done. Qed.

Lemma arm_observation s m g now s1 next :
  transition_arm s (VerifiedEvidence.FirstFundingObservationStarted m g) now = Ok (s1, next) ->
  m = first_module s /\ g = first_funding_observation_generation s + 1 /\ g <= U64_MAX /\
  first_funding_observation_generation s1 = g /\ first_funding_confirmed_generation s1 = None /\
  second_funding_authorization s1 = None.
Proof. intros H. destruct s; arm H; done. Qed.

Lemma steps_modules s evs s' :
  steps s evs s' -> first_module s' = first_module s /\ second_module s' = second_module s.
Proof.
  induction 1 as [|s evs s1 ev now s2 _ [<- <-] (n & (s3 & next & H & ->)%transition_ok & _ & ->)];
    [done|].
  apply arm_frame in H as (_ & _ & H1 & H2 & _).
  unfold finish. destruct s3; case_bool_decide; cbn in *; by rewrite H1, H2.
Qed.

(** *** Authorizations *)

(** Every accepted piece of evidence revokes the authorization in force, except
    one that issues a new one. *)
Lemma step_authorization s ev now s' a :
  step s ev now s' -> authorization_ok s -> second_funding_authorization s' = Some a ->
  ev = VerifiedEvidence.SecondFundingAuthorizationIssued a.
Proof.
  intros (n & (s1 & next & H & ->)%transition_ok & _ & ->) Hok Ha.
  assert (second_funding_authorization s1 = Some a /\ next = SecondFundingPending) as [Ha1 ->].
  { unfold finish in Ha. destruct s1; case_bool_decide; cbn in *; done. }
  destruct s, ev; arm H; try done.
  - exfalso. by destruct (Hok a eq_refl).
  - congruence.
Qed.
