(* ===== verification/SwapTheorems.v ===== *)
(** * The swap state machine: guarantees

    What a wallet can rely on of every session it holds, whatever evidence
    arrived and in whatever order: the two legs are settled at most once each
    and in the order the protocol needs, the authority to fund the second chain
    is bound to a current proof of the first and revoked by any other news,
    results of outdated reads are rejected, and no funded leg is stuck. *)

From Stdlib Require Import Strings.Byte.
From S2P Require Import Prelude Types Codec Swap SwapProofs.

(** ** Concrete sessions, for the witnesses *)

Module Trade.

Definition hash (b : u8) : bytes := repeat b 32.
Definition quote : VerifiedQuote :=
  mkQuote (hash Byte.x0a) (mkAmount Btc (mkBaseUnits 5)) (mkAmount Hns (mkBaseUnits 700)) 5000.
Definition plan : TimeoutPlan := mkTimeouts 9000 5000 3600.
Definition created : result SwapSession MarketError.t :=
  session_new (hash Byte.x01) Bitcoin Handshake quote (hash Byte.x0c) plan 100.

Definition session0 : SwapSession :=
  mkSession (hash Byte.x01) 0 OfferPublished Bitcoin Handshake (quote_offered quote)
    (quote_received quote) (hash Byte.x0a) (hash Byte.x0c) None plan None false 0 None None None
    None None None None None 100 None.

Definition setup : list (Evidence * N) :=
  [(VerifiedEvidence.OfferAcceptanceValidated, 101); (VerifiedEvidence.OfferReserved, 102);
   (VerifiedEvidence.TermsApproved (hash Byte.x0a), 103); (VerifiedEvidence.RefundsValidated, 104);
   (VerifiedEvidence.FundingReady, 105)].
Definition fund_first : list (Evidence * N) :=
  setup ++ [(VerifiedEvidence.FirstFundingObservationStarted Bitcoin 1, 106);
            (VerifiedEvidence.FirstFundingConfirmedAtGeneration (hash Byte.x11) Bitcoin 1, 107)].
Definition authorization : SecondFundingAuthorization :=
  mkAuthorization (hash Byte.x21) Handshake (hash Byte.x11) 1 4000.
Definition authorized : list (Evidence * N) :=
  fund_first ++ [(VerifiedEvidence.SecondFundingReady, 108);
                 (VerifiedEvidence.SecondFundingAuthorizationIssued authorization, 109)].

(** The session after the evidence [evs]. *)
Definition after (evs : list (Evidence * N)) : SwapSession :=
  (apply_all session0 evs (mkMemoryJournal [])).1.1.
Definition accepts (evs : list (Evidence * N)) : bool :=
  is_ok (apply_all session0 evs (mkMemoryJournal [])).2.
End Trade.

(** ** From [apply] to steps *)

Section Apply.
Context {J : Type} {journal : SwapJournal J}.

Lemma apply_ok s ev now (j : J) s' j' :
  apply s ev now j = (s', j', Ok tt) ->
  step s ev now s' /\ journal_save j s' (sess_revision s) = (j', Ok tt).
Proof.
  unfold apply, step. intros H. destruct (transition s ev now) as [n|]; [|done].
  destruct (ok_or _ _) as [r|] eqn:Hr in H; [|done].
  apply ok_or_Ok, checked_add_Some in Hr as [-> Hr].
  destruct (journal_save j _ _) as [j1 [[]|]] eqn:Hj; simplify_eq. eauto 10.
Qed.

Lemma apply_err s ev now (j : J) s' j' e :
  apply s ev now j = (s', j', Err e) -> s' = s.
Proof.
  unfold apply. intros H. destruct (transition s ev now) as [n|]; [|congruence].
  destruct (ok_or _ _) as [r|] in H; [|congruence].
  by destruct (journal_save j _ _) as [j1 [[]|]]; simplify_eq.
Qed.

Lemma steps_cons s ev now s1 evs s2 :
  step s ev now s1 -> steps s1 evs s2 -> steps s ((ev, now) :: evs) s2.
Proof.
  intros Hs. induction 1 as [s1|s1 evs s3 ev' now' s4 _ IH Hs4].
  - apply (steps_snoc s [] s); [apply steps_nil|done].
  - apply (steps_snoc s ((ev, now) :: evs) s3); auto.
Qed.

Lemma apply_all_steps evs s (j : J) s' j' :
  apply_all s evs j = (s', j', Ok tt) -> steps s evs s'.
Proof.
  revert s j. induction evs as [|[ev now] evs IH]; intros s j H; simpl in H.
  - simplify_eq. apply steps_nil.
  - destruct (apply s ev now j) as [[s1 j1] [[]|]] eqn:Ha; [|done].
    apply apply_ok in Ha as [Ha _]. eapply steps_cons; eauto.
Qed.
End Apply.

Lemma after_steps evs : Trade.accepts evs = true -> steps Trade.session0 evs (Trade.after evs).
Proof.
  unfold Trade.accepts, Trade.after. intros H.
  destruct (apply_all _ _ _) as [[s j] [[]|]] eqn:Ha; [|done]. by eapply apply_all_steps.
Qed.

Lemma session0_reachable : reachable Trade.session0.
Proof. by eapply (reach_new _ _ _ _ _ _ _ _ (eq_refl : Trade.created = Ok Trade.session0)). Qed.

Lemma after_reachable evs : Trade.accepts evs = true -> reachable (Trade.after evs).
Proof. intros H. eapply steps_reachable; [by apply after_steps|apply session0_reachable]. Qed.

(** ** Safety *)

(** C1: what every session the wallet can hold guarantees.  Evidence is recorded
    in the order the protocol needs (the second lock after the first, the
    redemption that reveals the preimage after the second lock, the redemption
    of the first lock after that); no leg is both redeemed and refunded; a
    completed swap has both redemptions; a refunded one has every funded leg
    settled; and an authorization to fund the second chain is held only while
    that is the pending step, for exactly the first-chain evidence on record,
    confirmed by the latest read, not revoked and not expired at the last
    verified time. *)
Theorem swap_safety s :
  reachable s ->
  (is_some (second_funding s) = true -> is_some (first_funding s) = true) /\
  (is_some (first_redemption s) = true -> is_some (second_funding s) = true) /\
  (is_some (second_redemption s) = true -> is_some (first_redemption s) = true) /\
  is_some (first_refund s) && is_some (second_redemption s) = false /\
  is_some (second_refund s) && is_some (first_redemption s) = false /\
  (sess_state s = Completed ->
     is_some (first_redemption s) = true /\ is_some (second_redemption s) = true) /\
  (sess_state s = Refunded -> all_funded_legs_settled s = true) /\
  (forall a, second_funding_authorization s = Some a -> auth_bound s a).
Proof.
  intros [Hs _ _ Ha]%reachable_inv. unfold shape in Hs. unfold all_funded_legs_settled.
  rewrite !is_none_negb.
  destruct (is_some (first_funding s)), (is_some (second_funding s)), (is_some (first_redemption s)),
    (is_some (second_redemption s)), (is_some (first_refund s)), (is_some (second_refund s));
    try discriminate Hs; split_and!; try done; intros Hst; rewrite Hst in Hs; done.
Qed.

(** Evidence is permanent.  Along any run from a session the wallet can
    hold, the second lock, the two redemptions and the refund of the second lock
    stay exactly as first recorded, a refund of the first lock is never
    forgotten, and the observation generation never decreases.*)
Theorem evidence_permanent s evs s' :
  reachable s -> steps s evs s' -> extends s s'.
Proof. intros Hr Hs. by eapply steps_extends. Qed.

(** Authority to fund the second chain is revoked by any news.  Whatever
    evidence a session accepts next, an authorization it holds afterwards is the
    one that very evidence issued; so a fresh read of the first chain, its
    result, its invalidation, a refund or a failure all revoke the authority in
    force.*)
Theorem authorization_revoked_by_any_evidence s ev now s' a :
  reachable s -> step s ev now s' -> second_funding_authorization s' = Some a ->
  ev = VerifiedEvidence.SecondFundingAuthorizationIssued a.
Proof.
  intros [_ _ _ Hok]%reachable_inv Hs Ha. by eapply step_authorization.
Qed.

(** A run that starts after [s1]'s confirmation was cleared. *)
Lemma steps_confirmed s1 evs s2 g :
  steps s1 evs s2 -> first_funding_confirmed_generation s1 = None ->
  first_funding_confirmed_generation s2 = Some g ->
  exists e now, (VerifiedEvidence.FirstFundingConfirmedAtGeneration e (first_module s1) g, now) ∈ evs /\
    first_funding s2 = Some e.
Proof.
  intros Hs Hnone. revert g. induction Hs as [|s1 evs s2 ev now s3 Hs IH Hstep]; intros g Hg.
  - congruence.
  - destruct Hstep as (n & (s4 & next & H & ->)%transition_ok & _ & ->).
    destruct (steps_modules _ _ _ Hs) as [Hm _].
    assert (first_funding_confirmed_generation s4 = Some g) as Hg4
      by (unfold finish in Hg; destruct s4; case_bool_decide; done).
    assert (forall e, first_funding s4 = Some e ->
      first_funding (set_revision (finish s4 next now) (sess_revision s2 + 1)) = Some e) as Hff
      by (intros e <-; unfold finish; destruct s4; case_bool_decide; done).
    destruct (arm_confirmed _ _ _ _ _ _ H Hg4) as [(e & -> & He)|[Hg2 He]].
    + exists e, now. rewrite <- Hm. split; [|auto]. apply elem_of_app. right. by left.
    + destruct (IH Hnone g Hg2) as (e & now' & Hin & He2). exists e, now'.
      split; [apply elem_of_app; by left|]. apply Hff. congruence.
Qed.

(** Results of outdated reads are rejected.  Once a read of the first chain
    has been started under generation [g], then whatever happens afterwards: a
    later generation-scoped result is accepted only for a generation at least
    [g], the latest one; and the first lock counts as current again only if a
    result of exactly the latest generation arrived since, and it is that
    result's evidence the session then records.*)
Theorem stale_observation_rejected s m g now s1 evs s2 :
  reachable s ->
  step s (VerifiedEvidence.FirstFundingObservationStarted m g) now s1 -> steps s1 evs s2 ->
  (forall e m' g' now' n,
     transition s2 (VerifiedEvidence.FirstFundingConfirmedAtGeneration e m' g') now' = Ok n ->
     g <= g' /\ g' = first_funding_observation_generation s2) /\
  (first_funding_is_current s2 = true ->
   exists e now', first_funding s2 = Some e /\
     (VerifiedEvidence.FirstFundingConfirmedAtGeneration e m
        (first_funding_observation_generation s2), now') ∈ evs).
Proof.
  intros Hr Hstep Hs.
  assert (Hr1 : reachable s1) by (by eapply reach_step).
  pose proof (ext_generation _ _ (steps_extends _ _ _ Hs Hr1)) as Hmono.
  destruct Hstep as (n1 & (s3 & next & H & ->)%transition_ok & _ & ->).
  pose proof (arm_frame _ _ _ _ _ H) as (_ & _ & Hm3 & _).
  apply arm_observation in H as (-> & Hg & _ & Hobs & Hnone & _).
  assert (Hflds : forall r, first_funding_observation_generation (set_revision (finish s3 next now) r) = g /\
    first_funding_confirmed_generation (set_revision (finish s3 next now) r) = None /\
    first_module (set_revision (finish s3 next now) r) = first_module s3)
    by (intros r; unfold finish; destruct s3; case_bool_decide; done).
  destruct (Hflds (sess_revision s + 1)) as (Ho & Hn & Hm). rewrite Ho in Hmono. split.
  - intros e m' g' now' n (s5 & next' & H5 & _)%transition_ok.
    apply arm_at_generation in H5 as (_ & -> & _). done.
  - unfold first_funding_is_current. intros Hc. bool_prop.
    match goal with H : _ || _ = true |- _ => apply orb_true_iff in H as [H|H] end; bool_prop; [lia|].
    match goal with H : first_funding_confirmed_generation s2 = Some _ |- _ =>
      destruct (steps_confirmed _ _ _ _ Hs Hn H) as (e & now' & Hin & He) end.
    exists e, now'. rewrite <- Hm3, <- Hm. done.
Qed.

(** ** Progress *)

Lemma can_refund_state s m :
  shape s = true -> can_record_refund_for_module s m = true -> refreshable_state (sess_state s) = true.
Proof.
  unfold shape, can_record_refund_for_module. intros Hs Hc.
  destruct s as [i rev st m1 m2 off rcv ti hl terms tp ff rk og cg au sf r1 r2 rf u1 u2 lv fr].
  cbn in *. repeat case_bool_decide; try discriminate; destruct st; try reflexivity; flags.
Qed.

(** C30: no funded leg is stuck.  In every session the wallet can hold, a leg
    that is funded and not yet settled can be settled: the confirmed refund of
    that leg's lock is accepted (revisions permitting), is recorded for that leg
    and settles it.  All other evidence of the swap stays as it was, of this leg
    and of the other: the fundings and the generations of their observation, the
    redemptions and the refund of the other leg. *)
Theorem funded_leg_can_be_settled s m e now :
  reachable s -> module_is_funded s m = true -> funded_module_is_settled s m = false ->
  sess_revision s < U64_MAX ->
  exists s', step s (VerifiedEvidence.ChainRefundConfirmed m e) now s' /\
    refund_for_module s' m = Some e /\ funded_module_is_settled s' m = true /\
    (forall m', m' <> m -> refund_for_module s' m' = refund_for_module s m' /\
       module_is_funded s' m' = module_is_funded s m') /\
    first_funding s' = first_funding s /\ second_funding s' = second_funding s /\
    first_funding_observation_generation s' = first_funding_observation_generation s /\
    first_funding_confirmed_generation s' = first_funding_confirmed_generation s /\
    first_redemption s' = first_redemption s /\ second_redemption s' = second_redemption s.
Proof.
  intros [Hs _ _ _]%reachable_inv Hf Hns Hrev.
  assert (Hc : can_record_refund_for_module s m = true).
  { unfold can_record_refund_for_module, module_is_funded, funded_module_is_settled in *.
    repeat case_bool_decide; try done; rewrite !is_none_negb;
      repeat match goal with H : @eq bool _ _ |- _ => revert H end;
      destruct (is_some _), (is_some _), (is_some _); done. }
  pose proof (can_refund_state _ _ Hs Hc) as Hst.
  eexists. split.
  { exists (finish (set_refund (if bool_decide (m = first_module s) then set_first_refund s (Some e)
                                else set_second_refund s (Some e)) (Some e))
      (if all_funded_legs_settled (set_refund (if bool_decide (m = first_module s)
          then set_first_refund s (Some e) else set_second_refund s (Some e)) (Some e))
       then Refunded else RefundEligible) now).
    split; [|split; [lia|reflexivity]].
    unfold transition, transition_arm. by rewrite Hst, Hc. }
  unfold can_record_refund_for_module, refund_for_module, funded_module_is_settled, module_is_funded in *.
  destruct s. unfold finish. cbn in *.
  destruct (all_funded_legs_settled _); repeat (case_bool_decide; cbn in *); simplify_eq;
    split_and!; try done; bool_prop; subst; try done;
    intros m' Hm'; repeat (case_bool_decide; cbn); done.
Qed.

(** ** A complete swap *)

(** The evidence of an undisturbed swap whose locks and spends are [e1], [e2],
    [r1], [r2], all seen at time [t]. *)
Definition honest_evidence (s : SwapSession) (e1 e2 r1 r2 : bytes) (a : SecondFundingAuthorization) :
    list Evidence :=
  [VerifiedEvidence.OfferAcceptanceValidated; VerifiedEvidence.OfferReserved;
   VerifiedEvidence.TermsApproved (terms_id s); VerifiedEvidence.RefundsValidated;
   VerifiedEvidence.FundingReady;
   VerifiedEvidence.FirstFundingObservationStarted (first_module s) 1;
   VerifiedEvidence.FirstFundingConfirmedAtGeneration e1 (first_module s) 1;
   VerifiedEvidence.SecondFundingReady;
   VerifiedEvidence.SecondFundingAuthorizationIssued a;
   VerifiedEvidence.SecondFundingConfirmed e2;
   VerifiedEvidence.FirstRedemptionConfirmed r1;
   VerifiedEvidence.SecretExtracted (hashlock s);
   VerifiedEvidence.SecondRedemptionConfirmed r2;
   VerifiedEvidence.CompletionValidated].

Lemma apply_all_cons s ev t rest (j : MemoryJournal) s1 j1 :
  apply s ev t j = (s1, j1, Ok tt) -> apply_all s ((ev, t) :: rest) j = apply_all s1 rest j1.
Proof. simpl. by intros ->. Qed.

(** Evaluate one [apply] whose guards hold by reflexivity or by hypothesis. *)
Ltac eval_guards :=
  repeat (cbn; match goal with
    | |- context [bool_decide ?P] =>
        first [rewrite (bool_decide_true P) by done | rewrite (bool_decide_false P) by done]
    | H : ?c = ?b |- context [?c] => constr_eq b true; rewrite H
    | H : ?c = ?b |- context [?c] => constr_eq b false; rewrite H
    end).
Ltac take_step :=
  etrans; [apply apply_all_cons; unfold apply, transition, transition_arm, at_state; eval_guards;
           reflexivity|].

(** An undisturbed swap completes.  From a fresh session the evidence of a
    swap that goes as planned is accepted piece by piece, the journal holds
    every revision, and the session ends completed with both locks and both
    redemptions recorded.*)
Theorem honest_swap_completes id m1 m2 q h p now s e1 e2 r1 r2 aid expires t :
  session_new id m1 m2 q h p now = Ok s ->
  all_zero aid = false -> t < expires ->
  let a := mkAuthorization aid m2 e1 1 expires in
  exists s' j', apply_all s (map (fun ev => (ev, t)) (honest_evidence s e1 e2 r1 r2 a))
                  (mkMemoryJournal []) = (s', j', Ok tt) /\
    sess_state s' = Completed /\ all_funded_legs_settled s' = true /\
    first_funding s' = Some e1 /\ second_funding s' = Some e2 /\
    first_redemption s' = Some r1 /\ second_redemption s' = Some r2 /\
    has_confirmed_refund s' = false /\
    map sess_revision (saved j') = [1; 2; 3; 4; 5; 6; 7; 8; 9; 10; 11; 12; 13; 14] /\
    saved j' !! 13%nat = Some s'.
Proof.
  intros (_ & _ & _ & _ & _ & ->)%session_new_ok Hid Ht%N.ltb_lt a. subst a. unfold all_zero in Hid.
  unfold honest_evidence. cbn [map hashlock terms_id first_module].
  eexists _, _. split; [do 14 take_step; reflexivity|]. done.
Qed.

(** ** The journal *)

(** The revisions after [r], [k] of them. *)
Fixpoint revisions_after (r : N) (k : nat) : list N :=
  match k with O => [] | S k => (r + 1) :: revisions_after (r + 1) k end.

(** The journal holds every revision.  A run of [apply] over the in-memory
    journal, successful or stopped by an error, appends one entry per accepted
    piece of evidence with consecutive revisions, and the session in memory is
    always the last entry written (or the initial one); a run that succeeds
    wrote one entry per piece of evidence.*)
Theorem journal_holds_every_revision evs s j s' j' r :
  apply_all s evs j = (s', j', r) ->
  exists l, saved j' = saved j ++ l /\
    map sess_revision l = revisions_after (sess_revision s) (length l) /\
    s' = default s (l !! pred (length l)) /\
    (r = Ok tt -> length l = length evs).
Proof.
  revert s j. induction evs as [|[ev now] evs IH]; intros s j H; simpl in H.
  - simplify_eq. exists []. by rewrite app_nil_r.
  - destruct (apply s ev now j) as [[s1 j1] [[]|e]] eqn:Ha.
    + apply apply_ok in Ha as [(n & _ & _ & Hs1) Hj].
      unfold journal_save, MemoryJournal_journal in Hj.
      destruct (negb _) eqn:Hrev; simplify_eq. bool_prop.
      destruct (IH _ _ H) as (l & Hl & Hr & -> & Hok). simpl in Hl.
      rewrite <- app_assoc in Hl. eexists (_ :: l). split; [exact Hl|].
      simpl. rewrite Hrev in Hr |- *. rewrite Hr. split_and!; try done.
      * destruct l as [|x l]; [done|]. simpl.
        destruct (lookup_lt_is_Some_2 (x :: l) (length l)) as [y Hy]; [simpl; lia|]. by rewrite Hy.
      * intros Hr'. by rewrite Hok.
    + pose proof (apply_err _ _ _ _ _ _ _ Ha) as ->. simplify_eq.
      assert (Hj : j' = j).
      { unfold apply in Ha. run_in Ha; try done.
        unfold journal_save, MemoryJournal_journal in *. by case_match; simplify_eq. }
      subst j'. exists []. by rewrite app_nil_r.
Qed.

(** ** Creation *)

(** What a session is created with.  [session_new] accepts a swap only
    between the two different chains of the quote, for positive amounts of both
    assets under a quote still valid, with the second chain's refund in the
    future and the first chain's refund later than it by at least the plan's
    safety margin.*)
Theorem session_new_safe id m1 m2 q h p now s :
  session_new id m1 m2 q h p now = Ok s ->
  first_module s <> second_module s /\ asset (offered s) <> asset (received s) /\
  (forall a, a = module_asset (first_module s) \/ a = module_asset (second_module s) <->
             a = asset (offered s) \/ a = asset (received s)) /\
  0 < bu_get (base_units (offered s)) /\ 0 < bu_get (base_units (received s)) /\
  now < valid_until_unix q /\
  now < second_chain_refund_at (timeouts s) /\
  second_chain_refund_at (timeouts s) < first_chain_refund_at (timeouts s) /\
  second_chain_refund_at (timeouts s) + minimum_safety_margin (timeouts s)
    <= first_chain_refund_at (timeouts s).
Proof.
  intros (Hq & Hp & Hne & H1 & H2 & ->)%session_new_ok.
  unfold quote_validate, bu_is_zero in Hq. unfold timeout_validate, is_none_or in Hp.
  run_in Hq. run_in Hp; bool_prop; try done. cbn.
  split_and!; try done; try lia.
  intros a. assert (module_asset m1 <> module_asset m2) by (by destruct m1, m2).
  split; intros [->| ->]; destruct H1, H2; naive_solver congruence.
Qed.

(** ** Final states *)

(** Settled sessions are final.  A completed session accepts no evidence
    whatsoever.  A refunded one accepts only a confirmation without a
    generation, and that only when nothing was ever locked on the second chain:
    no settlement can be recorded twice.*)
Theorem settled_session_is_final s ev now n :
  reachable s -> transition s ev now = Ok n ->
  sess_state s <> Completed /\
  (sess_state s = Refunded ->
   second_funding s = None /\ exists e, ev = VerifiedEvidence.FirstFundingConfirmed e).
Proof.
  intros [Hs _ _ _]%reachable_inv (s1 & next & H & _)%transition_ok. split.
  - intros Hst. destruct s; cbn in *; subst. destruct ev; arm H; done.
  - intros Hst. destruct s; cbn in *; subst. destruct ev; arm H; eauto; exfalso;
      enough (false = true) by done; unfold shape, can_record_refund_for_module, all_funded_legs_settled in *; cbn in *;
      repeat case_bool_decide; try discriminate; try contradiction; flags.
Qed.

(** ** Failures *)

(** A failed session is not terminal, whatever its failure reason.  As long
    as the first lock is neither refunded nor redeemed, a failed session accepts
    a confirmation scoped to its current observation generation, records the
    lock and leaves the failed state.*)
Theorem failed_session_is_revived s e now :
  sess_state s = Failed -> first_refund s = None -> second_redemption s = None ->
  exists n, transition s (VerifiedEvidence.FirstFundingConfirmedAtGeneration e (first_module s)
                            (first_funding_observation_generation s)) now = Ok n /\
    first_funding n = Some e /\ first_funding_is_current n = true /\
    sess_state n = (if is_none (first_funding s) && is_none (second_funding s) && prefunding_failure s
                    then FirstFunded else RefundEligible).
Proof.
  intros Hst Hu Hr. unfold transition, transition_arm, at_state, first_funding_is_current.
  rewrite Hst, Hu, Hr, N.eqb_refl. generalize (prefunding_failure s). intros pf.
  destruct s as [i rev st m1 m2 off rcv ti hl terms tp ff rk og cg au sf r1 r2 rf u1 u2 lv fr].
  destruct ff, sf, pf; eval_guards; eexists; (split; [reflexivity|]); eval_guards;
    by rewrite orb_true_r.
Qed.

(** The preimage is out, the first lock is unredeemed, and the session has left
    the states that wait for its redemption. *)
Definition stranded (s : SwapSession) : Prop :=
  is_some (first_redemption s) = true /\ second_redemption s = None /\
  sess_state s <> FirstRedeemed /\ sess_state s <> SecretObserved.

Lemma step_stranded s ev now s' : step s ev now s' -> stranded s -> stranded s'.
Proof.
  intros (n & (s1 & next & H & ->)%transition_ok & _ & ->) (H1 & H2 & H3 & H4).
  assert (is_some (first_redemption s1) = true /\ second_redemption s1 = None /\
          next <> FirstRedeemed /\ next <> SecretObserved) as Hs1.
  { destruct s, ev; cbn in *; subst; arm H; try done; try discriminate;
      repeat case_match; split_and!; try done. }
  destruct (finish_fields s1 next now) as (E1 & _ & _ & _ & E2 & E3 & _).
  unfold stranded. destruct (finish s1 next now). cbn in *. by rewrite E1, E2, E3.
Qed.

(** Once a session with a revealed preimage has left the states that wait
    for the redemption of the first lock (a failure, or a recovery after one,
    takes it there), that redemption is never recorded again, whatever evidence
    arrives.*)
Theorem late_redemption_not_recorded s evs s' :
  stranded s -> steps s evs s' -> second_redemption s' = None.
Proof.
  intros Hs Hsteps.
  assert (Hs' : stranded s') by (induction Hsteps; [done|eapply step_stranded; eauto]).
  apply Hs'.
Qed.

(** ** Witnesses *)

(** A step of a concrete run. *)
Lemma after_step evs ev now :
  Trade.accepts (evs ++ [(ev, now)]) = true -> step (Trade.after evs) ev now (Trade.after (evs ++ [(ev, now)])).
Proof.
  unfold Trade.accepts, Trade.after. generalize Trade.session0, (mkMemoryJournal []).
  induction evs as [|[ev' now'] evs IH]; intros s j H; simpl in *.
  - destruct (apply s ev now j) as [[s1 j1] [[]|]] eqn:Ha; [|done]. by apply apply_ok in Ha as [Ha _].
  - destruct (apply s ev' now' j) as [[s1 j1] [[]|]]; [|done]. by apply IH.
Qed.

Lemma swap_safety_witness :
  exists s, reachable s /\ second_funding_authorization s = Some Trade.authorization /\
    auth_bound s Trade.authorization.
Proof.
  assert (Hr : reachable (Trade.after Trade.authorized))
    by (apply after_reachable; vm_compute; reflexivity).
  assert (Ha : second_funding_authorization (Trade.after Trade.authorized) = Some Trade.authorization)
    by (vm_compute; reflexivity).
  exists (Trade.after Trade.authorized). split; [exact Hr|]. split; [exact Ha|].
  apply (swap_safety _ Hr), Ha.
Defined.

Lemma evidence_permanent_witness :
  exists s s', reachable s /\ steps s Trade.authorized s' /\ extends s s'.
Proof.
  assert (Hs : steps Trade.session0 Trade.authorized (Trade.after Trade.authorized))
    by (apply after_steps; vm_compute; reflexivity).
  exists Trade.session0, (Trade.after Trade.authorized).
  split; [exact session0_reachable|]. split; [exact Hs|].
  exact (evidence_permanent _ _ _ session0_reachable Hs).
Defined.

Definition Trade_read : Evidence * N := (VerifiedEvidence.FirstFundingObservationStarted Bitcoin 2, 110).

Lemma authorization_revoked_by_any_evidence_witness :
  exists s s', reachable s /\ second_funding_authorization s = Some Trade.authorization /\
    step s Trade_read.1 Trade_read.2 s' /\ forall a, second_funding_authorization s' <> Some a.
Proof.
  assert (Hr : reachable (Trade.after Trade.authorized))
    by (apply after_reachable; vm_compute; reflexivity).
  assert (Hs : step (Trade.after Trade.authorized) Trade_read.1 Trade_read.2
                 (Trade.after (Trade.authorized ++ [Trade_read])))
    by (apply after_step; vm_compute; reflexivity).
  exists (Trade.after Trade.authorized), (Trade.after (Trade.authorized ++ [Trade_read])).
  split; [exact Hr|]. split; [vm_compute; reflexivity|]. split; [exact Hs|]. intros a Ha.
  discriminate (authorization_revoked_by_any_evidence _ _ _ _ _ Hr Hs Ha).
Defined.

Lemma stale_observation_rejected_witness :
  exists s, reachable s /\ sess_state s = SecondFundingPending /\
    forall e now n,
      transition s (VerifiedEvidence.FirstFundingConfirmedAtGeneration e Bitcoin 1) now <> Ok n.
Proof.
  assert (Hr : reachable (Trade.after Trade.authorized))
    by (apply after_reachable; vm_compute; reflexivity).
  assert (Hs : step (Trade.after Trade.authorized) Trade_read.1 Trade_read.2
                 (Trade.after (Trade.authorized ++ [Trade_read])))
    by (apply after_step; vm_compute; reflexivity).
  exists (Trade.after (Trade.authorized ++ [Trade_read])).
  split; [exact (reach_step _ _ _ _ Hr Hs)|]. split; [vm_compute; reflexivity|].
  intros e now n H.
  destruct (proj1 (stale_observation_rejected _ _ _ _ _ [] _ Hr Hs (steps_nil _)) _ _ _ _ _ H) as [Hle _].
  exact (Hle eq_refl).
Defined.

Definition Trade_both : list (Evidence * N) :=
  Trade.authorized ++ [(VerifiedEvidence.SecondFundingConfirmed (Trade.hash Byte.x12), 111)].

Lemma funded_leg_can_be_settled_witness :
  exists s s', reachable s /\ sess_state s = BothFunded /\
    step s (VerifiedEvidence.ChainRefundConfirmed Handshake (Trade.hash Byte.x31)) 6000 s' /\
    refund_for_module s' Handshake = Some (Trade.hash Byte.x31).
Proof.
  assert (Hr : reachable (Trade.after Trade_both)) by (apply after_reachable; vm_compute; reflexivity).
  destruct (funded_leg_can_be_settled (Trade.after Trade_both) Handshake (Trade.hash Byte.x31) 6000)
    as (s' & Hs & Hm & _); [exact Hr|vm_compute; reflexivity..|].
  exists (Trade.after Trade_both), s'. split; [exact Hr|]. split; [vm_compute; reflexivity|].
  split; [exact Hs|exact Hm].
Defined.

Lemma honest_swap_completes_witness :
  exists s', sess_state s' = Completed /\ second_redemption s' = Some (Trade.hash Byte.x14).
Proof.
  destruct (honest_swap_completes (Trade.hash Byte.x01) Bitcoin Handshake Trade.quote
    (Trade.hash Byte.x0c) Trade.plan 100 Trade.session0 (Trade.hash Byte.x11) (Trade.hash Byte.x12)
    (Trade.hash Byte.x13) (Trade.hash Byte.x14) (Trade.hash Byte.x21) 4000 200)
    as (s' & j' & _ & Hst & _ & _ & _ & _ & Hr2 & _); [vm_compute; reflexivity..|].
  exists s'. split; [exact Hst|exact Hr2].
Defined.

Lemma journal_holds_every_revision_witness :
  exists s' j', apply_all Trade.session0 Trade.authorized (mkMemoryJournal []) = (s', j', Ok tt) /\
    length (saved j') = 9%nat.
Proof.
  destruct (apply_all Trade.session0 Trade.authorized (mkMemoryJournal [])) as [[s' j'] r] eqn:H.
  assert (Hr : (apply_all Trade.session0 Trade.authorized (mkMemoryJournal [])).2 = Ok tt)
    by (vm_compute; reflexivity).
  rewrite H in Hr. simpl in Hr. subst r.
  exists s', j'. split; [reflexivity|].
  destruct (journal_holds_every_revision _ _ _ _ _ _ H) as (l & Hl & _ & _ & Hn).
  rewrite Hl. exact (Hn eq_refl).
Defined.

Lemma session_new_safe_witness :
  session_new (Trade.hash Byte.x01) Bitcoin Handshake Trade.quote (Trade.hash Byte.x0c) Trade.plan 100
    = Ok Trade.session0 /\ first_module Trade.session0 <> second_module Trade.session0.
Proof.
  assert (H : session_new (Trade.hash Byte.x01) Bitcoin Handshake Trade.quote (Trade.hash Byte.x0c)
    Trade.plan 100 = Ok Trade.session0) by (vm_compute; reflexivity).
  split; [exact H|]. exact (proj1 (session_new_safe _ _ _ _ _ _ _ _ H)).
Defined.

Lemma settled_session_is_final_witness :
  exists s n, reachable s /\ transition s VerifiedEvidence.SecondFundingReady 300 = Ok n /\
    sess_state s <> Completed.
Proof.
  assert (Hr : reachable (Trade.after Trade.fund_first)) by (apply after_reachable; vm_compute; reflexivity).
  destruct (transition (Trade.after Trade.fund_first) VerifiedEvidence.SecondFundingReady 300)
    as [n|e] eqn:H; [|vm_compute in H; discriminate H].
  exists (Trade.after Trade.fund_first), n. split; [exact Hr|]. split; [exact H|].
  exact (proj1 (settled_session_is_final _ _ _ _ Hr H)).
Defined.

Definition Trade_failed : list (Evidence * N) :=
  Trade.setup ++ [(VerifiedEvidence.TerminalFailure "peer vanished", 120)].

Lemma failed_session_is_revived_witness :
  exists s n, reachable s /\ failure_reason s = Some "peer vanished"%string /\ first_funding s = None /\
    transition s (VerifiedEvidence.FirstFundingConfirmedAtGeneration (Trade.hash Byte.x11)
                    (first_module s) (first_funding_observation_generation s)) 200 = Ok n /\
    sess_state n = RefundEligible.
Proof.
  assert (Hr : reachable (Trade.after Trade_failed)) by (apply after_reachable; vm_compute; reflexivity).
  destruct (failed_session_is_revived (Trade.after Trade_failed) (Trade.hash Byte.x11) 200)
    as (n & H & _ & _ & Hst); [vm_compute; reflexivity..|].
  exists (Trade.after Trade_failed), n. split; [exact Hr|]. do 2 (split; [vm_compute; reflexivity|]).
  split; [exact H|exact Hst].
Defined.

Definition Trade_stranded : list (Evidence * N) :=
  Trade_both ++ [(VerifiedEvidence.FirstRedemptionConfirmed (Trade.hash Byte.x13), 112);
                 (VerifiedEvidence.SecretExtracted (Trade.hash Byte.x0c), 113);
                 (VerifiedEvidence.TerminalFailure "operator abort", 114)].
Definition Trade_revived : Evidence * N :=
  (VerifiedEvidence.FirstFundingConfirmedAtGeneration (Trade.hash Byte.x11) Bitcoin 1, 115).

Lemma late_redemption_not_recorded_witness :
  exists s s', reachable s /\ steps s [Trade_revived] s' /\ first_funding_is_current s' = true /\
    second_redemption s' = None.
Proof.
  assert (Hr : reachable (Trade.after Trade_stranded)) by (apply after_reachable; vm_compute; reflexivity).
  assert (Hs : steps (Trade.after Trade_stranded) [Trade_revived]
                 (Trade.after (Trade_stranded ++ [Trade_revived]))).
  { apply (steps_snoc _ [] _ _ _ _ (steps_nil _)). apply after_step. vm_compute. reflexivity. }
  exists (Trade.after Trade_stranded), (Trade.after (Trade_stranded ++ [Trade_revived])).
  split; [exact Hr|]. split; [exact Hs|]. split; [vm_compute; reflexivity|].
  refine (late_redemption_not_recorded _ _ _ _ Hs).
  split; [vm_compute; reflexivity|]. split; [vm_compute; reflexivity|].
  split; vm_compute; discriminate.
Defined.
