(* ===== verification/Terms.v ===== *)
(** * Swap terms and their locks

    The accepted terms of a direct HNS/BTC swap and what the wallet derives from
    them: the Bitcoin lock ([BitcoinHtlc], [build_shakescape_bitcoin_htlc] and
    the lock commitment of [crates/hns-wallet-bitcoin-kyoto/src/lib.rs]), the
    checks of [crates/hns-wallet-market/src/lib.rs] on refund times and on
    locally verified funding, the identifiers of funding and spend evidence, and
    the session a countersigned agreement opens.

    Parameters ([TermsEnv]): the marketplace protocol crate (the signed
    [SwapSessionHello], its codec, its signature checks, its handshake lock and
    its time-lock encoding), Bitcoin public keys and the Bitcoin script
    serialiser, and SHA-256. *)

From Stdlib Require Import Strings.Byte.
From S2P Require Import Prelude Types Codec Swap SwapProofs.

Definition MIN_EFFECTIVE_REFUND_SAFETY_MARGIN_SECONDS : N := 60 * 60.
Definition MIN_SECOND_CHAIN_REDEMPTION_WINDOW_SECONDS : N := 60 * 60.
Definition SHAKESCAPE_BITCOIN_MINIMUM_CONFIRMATIONS : N := 1.
Definition SHAKESCAPE_HNS_MINIMUM_CONFIRMATIONS : N := 2.
Definition SHAKESCAPE_MAX_SETTLEMENT_HORIZON_SECONDS : N := 7 * 24 * 60 * 60.
Definition MIN_HTLC_DUST_SATS : N := 330.
Definition BITCOIN_TIMESTAMP_LOCKTIME_THRESHOLD : N := 500000000.
Definition MAX_HTLC_SCRIPT_BYTES : N := 256.
Definition SHAKESCAPE_BITCOIN_HTLC_COMMITMENT_DOMAIN : bytes :=
  str_bytes "hns-wallet-rs/shakescape-bitcoin-htlc/v1".

(** ** The protocol's types *)

(** [SwapAssetSide]: the protocol names the two sides of the agreement. *)
Inductive SwapAssetSide := Offered | Received.

(** What the wallet pushes on a [bitcoin::script::Builder]. *)
Inductive ScriptItem (Key : Type) :=
| OP_IF | OP_SHA256 | OP_EQUALVERIFY | OP_CHECKSIG | OP_ELSE | OP_CLTV | OP_DROP | OP_ENDIF
| push_slice (data : bytes)
| push_key (key : Key)
| push_int (value : N).
Arguments OP_IF {Key}.
Arguments OP_SHA256 {Key}.
Arguments OP_EQUALVERIFY {Key}.
Arguments OP_CHECKSIG {Key}.
Arguments OP_ELSE {Key}.
Arguments OP_CLTV {Key}.
Arguments OP_DROP {Key}.
Arguments OP_ENDIF {Key}.
Arguments push_slice {Key} data.
Arguments push_key {Key} key.
Arguments push_int {Key} value.

(** The handshake lock the protocol builds from the terms. *)
Record HnsHtlc := mkHnsHtlc {
  hns_value : N;
  hns_hashlock : bytes;
  hns_refund_locktime : N;
}.
Record HnsHtlcBinding := mkHnsBinding { descriptor : HnsHtlc; descriptor_hash : bytes }.

Class TermsEnv := {
  sha256 : bytes -> bytes;
  (* hns_marketplace_protocol *)
  AssetId : Type;
  AssetId_eq_dec :: EqDecision AssetId;
  ASSET_HNS : AssetId;
  ASSET_BTC : AssetId;
  ChainId : Type;
  ChainId_eq_dec :: EqDecision ChainId;
  CHAIN_HANDSHAKE : ChainId;
  CHAIN_BITCOIN : ChainId;
  asset_chain : AssetId -> ChainId;
  NetworkBinding : Type;
  network_valid_for_hns_btc : NetworkBinding -> bool;
  network_encode : NetworkBinding -> option bytes;
  SettlementDeadline : Type;
  deadline_is_unix_time : SettlementDeadline -> bool;
  deadline_value : SettlementDeadline -> N;
  (* hns_refund_time_lock(..).map(|lock| lock.effective_time_seconds) *)
  hns_refund_time_lock : SettlementDeadline -> option N;
  SwapSessionHello : Type;
  hello_decode : bytes -> option SwapSessionHello;
  hello_encode : SwapSessionHello -> option bytes;
  verify_agreement : SwapSessionHello -> NetworkBinding -> bool;
  verify_new_funding_at : SwapSessionHello -> NetworkBinding -> N -> bool;
  build_hns_htlc : SwapSessionHello -> SwapAssetSide -> bytes -> bytes -> option HnsHtlcBinding;
  header_network : SwapSessionHello -> NetworkBinding;
  header_created_at : SwapSessionHello -> N;
  header_expires_at : SwapSessionHello -> N;
  hello_swap_session_id : SwapSessionHello -> bytes;
  hello_direct_offer_id : SwapSessionHello -> bytes;
  hello_hashlock : SwapSessionHello -> bytes;
  hello_first_funding_chain : SwapSessionHello -> ChainId;
  hello_asset : SwapSessionHello -> SwapAssetSide -> AssetId;
  hello_amount : SwapSessionHello -> SwapAssetSide -> N;
  hello_refund_deadline : SwapSessionHello -> SwapAssetSide -> SettlementDeadline;
  hello_minimum_confirmations : SwapSessionHello -> SwapAssetSide -> N;
  hello_lock_commitment : SwapSessionHello -> SwapAssetSide -> bytes;
  maker_settlement_public_key : SwapSessionHello -> bytes;
  taker_settlement_public_key : SwapSessionHello -> bytes;
  (* bitcoin *)
  PublicKey : Type;
  public_key_from_slice : bytes -> option PublicKey;
  public_key_to_bytes : PublicKey -> bytes;
  into_script : list (ScriptItem PublicKey) -> bytes;
  new_p2wsh : bytes -> bytes;
}.

(** Documented behaviour of the protocol and Bitcoin crates. *)
Class TermsEnvLaws `{TermsEnv} := {
  asset_distinct : ASSET_HNS <> ASSET_BTC;
  chain_distinct : CHAIN_HANDSHAKE <> CHAIN_BITCOIN;
  asset_chain_hns : asset_chain ASSET_HNS = CHAIN_HANDSHAKE;
  asset_chain_btc : asset_chain ASSET_BTC = CHAIN_BITCOIN;
  public_key_roundtrip : forall k, public_key_from_slice (public_key_to_bytes k) = Some k;
  hello_roundtrip : forall h b, hello_encode h = Some b -> hello_decode b = Some h;
}.

Section Terms.
Context {env : TermsEnv}.
Implicit Types (hello : SwapSessionHello) (side : SwapAssetSide).

(** ** The Bitcoin lock *)

(** The errors of [BitcoinWalletError] these functions return. *)
Inductive BitcoinHtlcError := InvalidHtlc | InvalidAmount.

Record BitcoinHtlc := mkBitcoinHtlc {
  htlc_hashlock : bytes;
  receiver_public_key : bytes;
  refund_public_key : bytes;
  refund_locktime : N;
  witness_script : bytes;
  script_pubkey : bytes;
}.

#[global] Instance BitcoinHtlc_eq_dec : EqDecision BitcoinHtlc.
Proof. solve_decision. Defined.

Record ShakescapeBitcoinHtlcBinding := mkBitcoinBinding {
  bb_htlc : BitcoinHtlc;
  bb_commitment : bytes;
  bb_value_sats : N;
}.

Definition htlc_script (lock : bytes) (receiver refund : PublicKey) (locktime : N) :
    list (ScriptItem PublicKey) :=
  [OP_IF; OP_SHA256; push_slice lock; OP_EQUALVERIFY; push_key receiver; OP_CHECKSIG;
   OP_ELSE; push_int locktime; OP_CLTV; OP_DROP; push_key refund; OP_CHECKSIG; OP_ENDIF].

Definition htlc_new (lock : bytes) (receiver refund : PublicKey) (locktime : N) :
    result BitcoinHtlc BitcoinHtlcError :=
  if bool_decide (lock = repeat Byte.x00 32) || (locktime =? 0) then Err InvalidHtlc else
  let script := into_script (htlc_script lock receiver refund locktime) in
  if MAX_HTLC_SCRIPT_BYTES <? len script then Err InvalidHtlc else
  Ok (mkBitcoinHtlc lock (public_key_to_bytes receiver) (public_key_to_bytes refund) locktime
        script (new_p2wsh script)).

Definition htlc_validate (h : BitcoinHtlc) : result unit BitcoinHtlcError :=
  let* receiver := ok_or (public_key_from_slice (receiver_public_key h)) InvalidHtlc in
  let* refund := ok_or (public_key_from_slice (refund_public_key h)) InvalidHtlc in
  let* expected := htlc_new (htlc_hashlock h) receiver refund (refund_locktime h) in
  if bool_decide (expected = h) then Ok tt else Err InvalidHtlc.

(** The bytes [shakescape_bitcoin_htlc_commitment] hashes. *)
Definition commitment_message (network : bytes) (value_sats : N) (script : bytes) : bytes :=
  SHAKESCAPE_BITCOIN_HTLC_COMMITMENT_DOMAIN ++ network ++ to_le_bytes 8 value_sats
  ++ to_le_bytes 2 (len script) ++ script.

Definition shakescape_bitcoin_htlc_commitment (network : NetworkBinding) (h : BitcoinHtlc)
    (value_sats : N) : result bytes BitcoinHtlcError :=
  if negb (network_valid_for_hns_btc network) then Err InvalidHtlc else
  let* _ := htlc_validate h in
  if value_sats <? MIN_HTLC_DUST_SATS then Err InvalidAmount else
  let* network := ok_or (network_encode network) InvalidHtlc in
  if U16_MAX <? len (witness_script h) then Err InvalidHtlc else
  Ok (sha256 (commitment_message network value_sats (witness_script h))).

(** The redeem key of a lock is the other party's, the refund key the party's
    whose side is locked. *)
Definition receiver_key hello side : bytes :=
  match side with
  | Offered => taker_settlement_public_key hello
  | Received => maker_settlement_public_key hello
  end.
Definition refund_key hello side : bytes :=
  match side with
  | Offered => maker_settlement_public_key hello
  | Received => taker_settlement_public_key hello
  end.

Definition build_shakescape_bitcoin_htlc hello side :
    result ShakescapeBitcoinHtlcBinding BitcoinHtlcError :=
  if negb (bool_decide (hello_asset hello side = ASSET_BTC)) then Err InvalidHtlc else
  let value_sats := hello_amount hello side in
  if U64_MAX <? value_sats then Err InvalidAmount else
  let deadline := deadline_value (hello_refund_deadline hello side) in
  if U32_MAX <? deadline then Err InvalidHtlc else
  if deadline <? BITCOIN_TIMESTAMP_LOCKTIME_THRESHOLD then Err InvalidHtlc else
  let* receiver := ok_or (public_key_from_slice (receiver_key hello side)) InvalidHtlc in
  let* refund := ok_or (public_key_from_slice (refund_key hello side)) InvalidHtlc in
  let* h := htlc_new (hello_hashlock hello) receiver refund deadline in
  let* commitment := shakescape_bitcoin_htlc_commitment (header_network hello) h value_sats in
  Ok (mkBitcoinBinding h commitment value_sats).

(** ** Sides and chains *)

Definition hns_side hello : result SwapAssetSide MarketError.t :=
  if bool_decide (hello_asset hello Offered = ASSET_HNS) then Ok Offered
  else if bool_decide (hello_asset hello Received = ASSET_HNS) then Ok Received
  else Err MarketError.InvalidPair.

Definition bitcoin_side hello : result SwapAssetSide MarketError.t :=
  if bool_decide (hello_asset hello Offered = ASSET_BTC) then Ok Offered
  else if bool_decide (hello_asset hello Received = ASSET_BTC) then Ok Received
  else Err MarketError.InvalidPair.

Definition canonical_hns_descriptor hello side : result HnsHtlc MarketError.t :=
  let* binding := ok_or (build_hns_htlc hello side (receiver_key hello side) (refund_key hello side))
                    MarketError.InvalidShakescapeDirectSwap in
  Ok (descriptor binding).

Definition confirmation_minimum hello side : N := hello_minimum_confirmations hello side.

Definition wallet_asset_for_protocol_asset (a : AssetId) : result WalletAsset MarketError.t :=
  if bool_decide (a = ASSET_HNS) then Ok Hns
  else if bool_decide (a = ASSET_BTC) then Ok Btc
  else Err MarketError.InvalidPair.

Definition module_for_chain (c : ChainId) : result ModuleId MarketError.t :=
  if bool_decide (c = CHAIN_HANDSHAKE) then Ok Handshake
  else if bool_decide (c = CHAIN_BITCOIN) then Ok Bitcoin
  else Err MarketError.InvalidPair.

Definition other_chain (c : ChainId) : result ChainId MarketError.t :=
  if bool_decide (c = CHAIN_HANDSHAKE) then Ok CHAIN_BITCOIN
  else if bool_decide (c = CHAIN_BITCOIN) then Ok CHAIN_HANDSHAKE
  else Err MarketError.InvalidPair.

(** ** Lock commitments *)

Definition verify_canonical_shakescape_lock_commitment hello side : result unit MarketError.t :=
  let* computed :=
    if bool_decide (hello_asset hello side = ASSET_HNS) then
      let* binding := ok_or (build_hns_htlc hello side (receiver_key hello side) (refund_key hello side))
                        MarketError.InvalidShakescapeDirectSwap in
      Ok (descriptor_hash binding)
    else if bool_decide (hello_asset hello side = ASSET_BTC) then
      let* binding := map_err (fun _ => MarketError.InvalidShakescapeDirectSwap)
                        (build_shakescape_bitcoin_htlc hello side) in
      Ok (bb_commitment binding)
    else Err MarketError.InvalidPair in
  if negb (bool_decide (computed = hello_lock_commitment hello side))
  then Err MarketError.InvalidShakescapeDirectSwap
  else Ok tt.

Definition verify_canonical_shakescape_lock_commitments hello : result unit MarketError.t :=
  let* _ := verify_canonical_shakescape_lock_commitment hello Offered in
  verify_canonical_shakescape_lock_commitment hello Received.

(** ** Refund times *)

Definition shakescape_effective_refund_at (a : AssetId) (deadline : SettlementDeadline) :
    result N MarketError.t :=
  if negb (deadline_is_unix_time deadline) then Err MarketError.UnsafeTimeouts else
  if bool_decide (a = ASSET_HNS) then ok_or (hns_refund_time_lock deadline) MarketError.UnsafeTimeouts
  else if bool_decide (a = ASSET_BTC) then Ok (deadline_value deadline)
  else Err MarketError.InvalidPair.

Definition expected_confirmations (a : AssetId) : result N MarketError.t :=
  if bool_decide (a = ASSET_BTC) then Ok SHAKESCAPE_BITCOIN_MINIMUM_CONFIRMATIONS
  else if bool_decide (a = ASSET_HNS) then Ok SHAKESCAPE_HNS_MINIMUM_CONFIRMATIONS
  else Err MarketError.InvalidPair.

Definition validate_shakescape_effective_refund_safety hello : result unit MarketError.t :=
  if negb (bool_decide (hello_first_funding_chain hello = asset_chain (hello_asset hello Offered)))
  then Err MarketError.InvalidPair else
  let* offered_expected := expected_confirmations (hello_asset hello Offered) in
  if negb (hello_minimum_confirmations hello Offered =? offered_expected)
  then Err MarketError.UnsafeTimeouts else
  let* received_expected := expected_confirmations (hello_asset hello Received) in
  if negb (hello_minimum_confirmations hello Received =? received_expected)
  then Err MarketError.UnsafeTimeouts else
  let* first_refund := shakescape_effective_refund_at (hello_asset hello Offered)
                         (hello_refund_deadline hello Offered) in
  let* second_refund := shakescape_effective_refund_at (hello_asset hello Received)
                          (hello_refund_deadline hello Received) in
  let* maximum_refund :=
    ok_or (u64_add (header_created_at hello) SHAKESCAPE_MAX_SETTLEMENT_HORIZON_SECONDS)
      MarketError.UnsafeTimeouts in
  let* minimum_second_refund :=
    ok_or (u64_add (header_expires_at hello) MIN_SECOND_CHAIN_REDEMPTION_WINDOW_SECONDS)
      MarketError.UnsafeTimeouts in
  if (maximum_refund <? first_refund)
     || (maximum_refund <? second_refund)
     || (second_refund <? minimum_second_refund)
     || is_none_or (checked_sub first_refund second_refund)
          (fun margin => margin <? MIN_EFFECTIVE_REFUND_SAFETY_MARGIN_SECONDS)
  then Err MarketError.UnsafeTimeouts
  else Ok tt.

(** ** The session an agreement opens *)

Definition swap_session_from_accepted_hello hello (now_unix : N) : result SwapSession MarketError.t :=
  let off := hello_asset hello Offered in
  let rcv := hello_asset hello Received in
  let known a := bool_decide (a = ASSET_HNS) || bool_decide (a = ASSET_BTC) in
  if negb (known off) || negb (known rcv) || bool_decide (off = rcv)
     || negb (deadline_is_unix_time (hello_refund_deadline hello Offered))
     || negb (deadline_is_unix_time (hello_refund_deadline hello Received))
  then Err MarketError.InvalidPair else
  let* offered_asset := wallet_asset_for_protocol_asset off in
  let offered := mkAmount offered_asset (mkBaseUnits (hello_amount hello Offered)) in
  let* received_asset := wallet_asset_for_protocol_asset rcv in
  let received := mkAmount received_asset (mkBaseUnits (hello_amount hello Received)) in
  let chain := hello_first_funding_chain hello in
  let* m1 := module_for_chain chain in
  let* second_chain := other_chain chain in
  let* m2 := module_for_chain second_chain in
  let offered_at := deadline_value (hello_refund_deadline hello Offered) in
  let received_at := deadline_value (hello_refund_deadline hello Received) in
  let* (first_refund_at, second_refund_at) :=
    if bool_decide (chain = asset_chain off) then Ok (offered_at, received_at)
    else if bool_decide (chain = asset_chain rcv) then Ok (received_at, offered_at)
    else Err MarketError.InvalidPair in
  let* safety_margin := ok_or (checked_sub first_refund_at second_refund_at)
                          MarketError.UnsafeTimeouts in
  let* session := session_new (hello_swap_session_id hello) m1 m2
    (mkQuote (hello_direct_offer_id hello) offered received received_at)
    (hello_hashlock hello)
    (mkTimeouts first_refund_at second_refund_at safety_margin)
    now_unix in
  Ok (set_revision (set_state session TermsFrozen) 1).

(** ** Locally verified chain evidence *)

(** [hns_wallet_chain_api::VerifiedLock]. *)
Record VerifiedLock := mkVerifiedLock {
  vl_module : ModuleId;
  vl_session_id : bytes;
  vl_funding_id : bytes;
  vl_amount : Amount;
  vl_hashlock : bytes;
  vl_absolute_timelock : N;
  vl_confirmation_count : N;
  vl_evidence_hash : bytes;
}.

Record VerifiedBitcoinLock := mkVerifiedBitcoinLock {
  vb_funding_txid : bytes;
  vb_output_index : N;
  vb_value_sats : N;
  vb_confirmation_count : N;
  vb_htlc : BitcoinHtlc;
}.

Inductive LocallyVerifiedSwapFunding :=
| FundingHns (lock : VerifiedLock)
| FundingBitcoin (lock : VerifiedBitcoinLock).

Definition funding_module (f : LocallyVerifiedSwapFunding) : ModuleId :=
  match f with FundingHns _ => Handshake | FundingBitcoin _ => Bitcoin end.

(** [VerifiedNativeHtlcSpend]. *)
Inductive VerifiedNativeHtlcSpend :=
| NativeRedeem (transaction : bytes) (confirmation_count : N) (preimage : bytes)
| NativeRefund (transaction : bytes) (confirmation_count : N).

Inductive HtlcSpendBranch := BranchRedeem | BranchRefund.

(** [VerifiedBitcoinHtlcSpendObservation] with its [VerifiedBitcoinHtlcChainSpend]. *)
Record BitcoinSpendObservation := mkBitcoinSpend {
  spend_txid : bytes;
  spend_wtxid : bytes;
  spend_branch : HtlcSpendBranch;
  revealed_preimage : option bytes;
  observation_confirmation_count : N;
}.

Inductive LocallyVerifiedSwapSpend :=
| SpendHns (spend : VerifiedNativeHtlcSpend)
| SpendBitcoin (observation : BitcoinSpendObservation).

Definition spend_module (s : LocallyVerifiedSwapSpend) : ModuleId :=
  match s with SpendHns _ => Handshake | SpendBitcoin _ => Bitcoin end.

Definition redeem_preimage (s : LocallyVerifiedSwapSpend) : result bytes MarketError.t :=
  match s with
  | SpendHns (NativeRedeem _ _ preimage) => Ok preimage
  | SpendBitcoin {| spend_branch := BranchRedeem; revealed_preimage := Some preimage |} => Ok preimage
  | _ => Err MarketError.InvalidEvidence
  end.

Definition is_refund (s : LocallyVerifiedSwapSpend) : bool :=
  match s with
  | SpendHns (NativeRefund _ _) => true
  | SpendBitcoin {| spend_branch := BranchRefund |} => true
  | _ => false
  end.

Definition confirmation_count (s : LocallyVerifiedSwapSpend) : N :=
  match s with
  | SpendHns (NativeRedeem _ c _) => c
  | SpendHns (NativeRefund _ c) => c
  | SpendBitcoin o => observation_confirmation_count o
  end.

(** The bytes [spend_evidence_id] and [funding_evidence_id] hash. *)
Definition spend_message (s : LocallyVerifiedSwapSpend) : bytes :=
  str_bytes "hns-wallet-rs/verified-shakescape-spend/v1" ++
  match s with
  | SpendHns (NativeRedeem tx _ _) => [Byte.x00; Byte.x00] ++ tx
  | SpendHns (NativeRefund tx _) => [Byte.x00; Byte.x01] ++ tx
  | SpendBitcoin o =>
      [Byte.x01] ++ spend_txid o ++ spend_wtxid o
      ++ match spend_branch o with BranchRedeem => [Byte.x00] | BranchRefund => [Byte.x01] end
  end.

Definition spend_evidence_id (s : LocallyVerifiedSwapSpend) : bytes := sha256 (spend_message s).

Definition funding_message (f : LocallyVerifiedSwapFunding) : bytes :=
  str_bytes "hns-wallet-rs/verified-shakescape-funding/v1" ++
  match f with
  | FundingHns lock => [Byte.x00] ++ vl_funding_id lock ++ vl_evidence_hash lock
  | FundingBitcoin lock =>
      [Byte.x01] ++ vb_funding_txid lock ++ to_be_bytes 4 (vb_output_index lock)
  end.

Definition funding_evidence_id (f : LocallyVerifiedSwapFunding) : bytes := sha256 (funding_message f).

Definition verify_local_funding_against_shakescape_terms hello (f : LocallyVerifiedSwapFunding) :
    result unit MarketError.t :=
  match f with
  | FundingHns lock =>
      let* sd := hns_side hello in
      let* d := canonical_hns_descriptor hello sd in
      if negb (bool_decide (vl_module lock = Handshake))
         || negb (bool_decide (vl_session_id lock = hello_swap_session_id hello))
         || negb (bool_decide (asset (vl_amount lock) = Hns))
         || negb (bu_get (base_units (vl_amount lock)) =? hns_value d)
         || negb (bool_decide (vl_hashlock lock = hns_hashlock d))
         || negb (vl_absolute_timelock lock =? hns_refund_locktime d)
         || (vl_confirmation_count lock <? confirmation_minimum hello sd)
      then Err MarketError.InvalidEvidence
      else Ok tt
  | FundingBitcoin lock =>
      let* sd := bitcoin_side hello in
      let* d := map_err (fun _ => MarketError.InvalidShakescapeDirectSwap)
                  (build_shakescape_bitcoin_htlc hello sd) in
      if negb (vb_value_sats lock =? bb_value_sats d)
         || (vb_confirmation_count lock <? confirmation_minimum hello sd)
         || negb (bool_decide (vb_htlc lock = bb_htlc d))
      then Err MarketError.InvalidEvidence
      else Ok tt
  end.
End Terms.
