(* ===== verification/TermsTheorems.v ===== *)
(** * Swap terms: guarantees

    What the checks on the signed terms establish: room for the second chain to
    be redeemed and for the preimage to be used before the first lock can be
    refunded, a session whose modules and refund times are those of the chains
    the agreement names, and lock and evidence identifiers that determine what
    they identify. *)

From Stdlib Require Import Strings.Byte.
From S2P Require Import Prelude Types Codec Swap SwapProofs Terms.

(** ** A concrete protocol, for the witnesses *)

Module ToyTerms.

Definition hash (b : u8) : bytes := repeat b 32.
(** One agreement: 5000 satoshi for 700 dollarydoos, Bitcoin funded first; the
    hash is truncation, so the preimage of the hashlock is the hashlock. *)
Definition toy_terms : TermsEnv := {|
  sha256 m := take 32 (m ++ repeat Byte.x00 32);
  AssetId := bool; ASSET_HNS := true; ASSET_BTC := false;
  ChainId := bool; CHAIN_HANDSHAKE := true; CHAIN_BITCOIN := false;
  asset_chain a := a;
  NetworkBinding := unit;
  network_valid_for_hns_btc _ := true;
  network_encode _ := Some [Byte.x09];
  SettlementDeadline := N;
  deadline_is_unix_time _ := true;
  deadline_value d := d;
  hns_refund_time_lock d := Some d;
  SwapSessionHello := unit;
  hello_decode _ := Some tt;
  hello_encode _ := Some [Byte.x0f];
  verify_agreement _ _ := true;
  verify_new_funding_at _ _ _ := true;
  build_hns_htlc _ _ _ _ := Some (mkHnsBinding (mkHnsHtlc 700 (hash Byte.x07) 600010000) (hash Byte.x44));
  header_network _ := tt;
  header_created_at _ := 600000000;
  header_expires_at _ := 600003600;
  hello_swap_session_id _ := hash Byte.x01;
  hello_direct_offer_id _ := hash Byte.x0a;
  hello_hashlock _ := hash Byte.x07;
  hello_first_funding_chain _ := false;
  hello_asset _ side := match side with Offered => false | Received => true end;
  hello_amount _ side := match side with Offered => 5000 | Received => 700 end;
  hello_refund_deadline _ side := match side with Offered => 600020000 | Received => 600010000 end;
  hello_minimum_confirmations _ side := match side with Offered => 1 | Received => 2 end;
  hello_lock_commitment _ _ := [];
  maker_settlement_public_key _ := [Byte.x02];
  taker_settlement_public_key _ := [Byte.x03];
  PublicKey := bytes;
  public_key_from_slice b := Some b;
  public_key_to_bytes k := k;
  into_script items := flat_map (fun i => match i with push_key k => k | push_slice d => d | _ => [] end) items;
  new_p2wsh script := script;
|}.
#[global] Existing Instance toy_terms | 100.

#[global] Instance toy_terms_laws : TermsEnvLaws.
Proof. split; try done. intros [] b _. done. Qed.
End ToyTerms.

Section Guarantees.
Context {env : TermsEnv} {laws : TermsEnvLaws}.
Implicit Types (hello : SwapSessionHello).

(** ** Refund times *)

(** C36: the effective refund times leave room to settle.  If the terms pass the
    check, then (with each chain's time-lock encoding applied) the first lock is
    refundable at least an hour after the second, the second not before an hour
    after the funding window closes, and neither later than a week after the
    agreement was created; the first-funded chain is the offered asset's, both
    assets are ones the wallet settles, and each side waits for exactly the
    wallet's confirmation policy. *)
Theorem refund_safety_sound hello :
  validate_shakescape_effective_refund_safety hello = Ok tt ->
  exists first second,
    shakescape_effective_refund_at (hello_asset hello Offered) (hello_refund_deadline hello Offered)
      = Ok first /\
    shakescape_effective_refund_at (hello_asset hello Received) (hello_refund_deadline hello Received)
      = Ok second /\
    second + 3600 <= first /\ header_expires_at hello + 3600 <= second /\
    first <= header_created_at hello + 604800 /\
    hello_first_funding_chain hello = asset_chain (hello_asset hello Offered) /\
    forall side, (hello_asset hello side = ASSET_BTC /\ hello_minimum_confirmations hello side = 1) \/
                 (hello_asset hello side = ASSET_HNS /\ hello_minimum_confirmations hello side = 2).
Proof.
  unfold validate_shakescape_effective_refund_safety. intros H.
  destruct (negb (bool_decide _)) eqn:Hchain in H; [done|]. bool_prop.
  destruct (expected_confirmations (hello_asset hello Offered)) as [co|] eqn:Ho; [|done].
  destruct (negb (_ =? co)) eqn:Hco in H; [done|].
  destruct (expected_confirmations (hello_asset hello Received)) as [cr|] eqn:Hr; [|done].
  destruct (negb (_ =? cr)) eqn:Hcr in H; [done|]. bool_prop.
  destruct (shakescape_effective_refund_at (hello_asset hello Offered) _) as [first|]; [|done].
  destruct (shakescape_effective_refund_at (hello_asset hello Received) _) as [second|]; [|done].
  destruct (ok_or (u64_add (header_created_at hello) _) _) as [top|] eqn:Htop in H; [|done].
  destruct (ok_or (u64_add (header_expires_at hello) _) _) as [low|] eqn:Hlow in H; [|done].
  destruct (_ || _) eqn:Hbad in H; [done|]. bool_prop. subst top low.
  destruct (checked_sub first second) as [m|] eqn:Hm; simpl in *; [|done]. bool_prop.
  unfold MIN_EFFECTIVE_REFUND_SAFETY_MARGIN_SECONDS, MIN_SECOND_CHAIN_REDEMPTION_WINDOW_SECONDS,
    SHAKESCAPE_MAX_SETTLEMENT_HORIZON_SECONDS in *.
  exists first, second. split_and!; try done; try lia.
  intros []; unfold expected_confirmations in *; repeat case_bool_decide; simplify_eq; auto.
Qed.

(** ** The session of an agreement *)

Lemma agreement_reachable hello now s :
  swap_session_from_accepted_hello hello now = Ok s -> forall terms now', reachable (opened s terms now').
Proof.
  unfold swap_session_from_accepted_hello. intros H terms now'.
  destruct (negb _ || _ || _ || _ || _) in H; [done|].
  do 2 (destruct (wallet_asset_for_protocol_asset _) in H; [|done]).
  destruct (module_for_chain _) in H; [|done]. destruct (other_chain _) in H; [|done].
  destruct (module_for_chain _) in H; [|done].
  destruct (if bool_decide _ then _ else _) as [[t1 t2]|] in H; [|done].
  destruct (ok_or (checked_sub t1 t2) _) in H; [|done].
  destruct (session_new _ _ _ _ _ _ _) as [s0|] eqn:Hs0; [|done]. apply Ok_inj in H as <-.
  pose proof (reach_opened _ _ _ _ _ _ _ _ terms now' Hs0) as Hr. revert Hr. unfold opened. by destruct s0.
Qed.

(** The session an agreement opens is the agreement's.  It is a session
    [session_new] accepted, put at the frozen terms under revision 1, with the
    agreement's identifier and hashlock; for the side whose chain is funded
    first, the first module is that side's asset and the first refund time that
    side's deadline, and likewise for the other side and the second module; and
    the second refund time is in the future and earlier than the first.*)
Theorem agreement_session_sound hello now s :
  swap_session_from_accepted_hello hello now = Ok s ->
  sess_state s = TermsFrozen /\ sess_revision s = 1 /\
  sess_id s = hello_swap_session_id hello /\ hashlock s = hello_hashlock hello /\
  (forall terms now', reachable (opened s terms now')) /\
  (exists first_side second_side, first_side <> second_side /\
     asset_chain (hello_asset hello first_side) = hello_first_funding_chain hello /\
     wallet_asset_for_protocol_asset (hello_asset hello first_side)
       = Ok (module_asset (first_module s)) /\
     wallet_asset_for_protocol_asset (hello_asset hello second_side)
       = Ok (module_asset (second_module s)) /\
     first_chain_refund_at (timeouts s) = deadline_value (hello_refund_deadline hello first_side) /\
     second_chain_refund_at (timeouts s) = deadline_value (hello_refund_deadline hello second_side)) /\
  now < second_chain_refund_at (timeouts s) /\
  second_chain_refund_at (timeouts s) < first_chain_refund_at (timeouts s).
Proof.
  intros H. pose proof (agreement_reachable _ _ _ H) as Hreach. unfold swap_session_from_accepted_hello in H.
  destruct (negb _ || _ || _ || _ || _) eqn:Hg in H; [done|].
  apply orb_false_elim in Hg as [[[[Ko Kr]%orb_false_elim Hne]%orb_false_elim _]%orb_false_elim _].
  apply negb_false_iff, orb_true_iff in Ko, Kr. rewrite !bool_decide_eq_true in Ko, Kr. bool_prop.
  destruct (wallet_asset_for_protocol_asset (hello_asset hello Offered)) as [wo|] eqn:Ho; [|done].
  destruct (wallet_asset_for_protocol_asset (hello_asset hello Received)) as [wr|] eqn:Hr; [|done].
  destruct (module_for_chain (hello_first_funding_chain hello)) as [m1|] eqn:Hm1; [|done].
  destruct (other_chain _) as [c2|] eqn:Hc2; [|done].
  destruct (module_for_chain c2) as [m2|] eqn:Hm2; [|done].
  destruct (if bool_decide _ then _ else _) as [[t1 t2]|] eqn:Ht; [|done].
  destruct (ok_or (checked_sub t1 t2) _) as [margin|] eqn:Hmargin; [|done].
  destruct (session_new _ _ _ _ _ _ _) as [s0|] eqn:Hs0; [|done]. apply Ok_inj in H as <-.
  apply session_new_ok in Hs0 as (Hq & Hp & _ & _ & _ & ->).
  unfold timeout_validate in Hp. destruct (_ || _) eqn:Hto in Hp; [done|]. cbn in *. bool_prop.
  split_and!; try done.
  pose proof asset_distinct. pose proof chain_distinct.
  pose proof asset_chain_hns as Eh. pose proof asset_chain_btc as Eb.
  unfold module_for_chain, other_chain, wallet_asset_for_protocol_asset in *.
  destruct Ko as [Ko|Ko], Kr as [Kr|Kr]; rewrite Ko, Kr in *; try done;
    rewrite ?Eh, ?Eb in *; repeat case_bool_decide; simplify_eq;
    first [exists Offered, Received; rewrite Ko, Kr; split_and!; repeat case_bool_decide; done || congruence
          |exists Received, Offered; rewrite Ko, Kr; split_and!; repeat case_bool_decide; done || congruence].

Qed.

(** ** Locks and evidence identifiers *)

Lemma commitment_message_inj network v1 s1 v2 s2 :
  v1 <= U64_MAX -> v2 <= U64_MAX ->
  commitment_message network v1 s1 = commitment_message network v2 s2 -> v1 = v2 /\ s1 = s2.
Proof.
  intros H1 H2 Heq. do 2 apply app_inv_head in Heq.
  apply app_inj_length_l in Heq as [Hv Heq]; [|by rewrite !length_to_le_bytes].
  apply app_inj_length_l in Heq as [_ Heq]; [|by rewrite !length_to_le_bytes].
  split; [|done]. apply (to_le_bytes_inj 8); [..|done]; unfold U64_MAX in *; simpl; lia.
Qed.

(** The Bitcoin lock of an agreement.  When the terms yield a Bitcoin lock,
    it carries the agreement's hashlock, the refund time of that side as a
    timestamp lock, the other party's key on the redeem branch and the locking
    party's on the refund branch, a value above dust, and it passes the lock's
    own validation; its commitment is the hash of a message from which, for one
    network, no other value or witness script can be read.*)
Theorem bitcoin_lock_sound hello side b :
  build_shakescape_bitcoin_htlc hello side = Ok b ->
  hello_asset hello side = ASSET_BTC /\
  htlc_hashlock (bb_htlc b) = hello_hashlock hello /\
  refund_locktime (bb_htlc b) = deadline_value (hello_refund_deadline hello side) /\
  500000000 <= refund_locktime (bb_htlc b) <= U32_MAX /\
  bb_value_sats b = hello_amount hello side /\ 330 <= bb_value_sats b <= U64_MAX /\
  (exists receiver refund, public_key_from_slice (receiver_key hello side) = Some receiver /\
     public_key_from_slice (refund_key hello side) = Some refund /\
     witness_script (bb_htlc b)
       = into_script (htlc_script (hello_hashlock hello) receiver refund (refund_locktime (bb_htlc b))) /\
     script_pubkey (bb_htlc b) = new_p2wsh (witness_script (bb_htlc b))) /\
  htlc_validate (bb_htlc b) = Ok tt /\
  exists network, network_encode (header_network hello) = Some network /\
    bb_commitment b = sha256 (commitment_message network (bb_value_sats b) (witness_script (bb_htlc b))) /\
    forall value script, value <= U64_MAX ->
      commitment_message network (bb_value_sats b) (witness_script (bb_htlc b))
        = commitment_message network value script ->
      value = bb_value_sats b /\ script = witness_script (bb_htlc b).
Proof.
  unfold build_shakescape_bitcoin_htlc. intros H.
  destruct (negb (bool_decide _)) eqn:Ha in H; [done|]. destruct (U64_MAX <? _) eqn:Hv; [done|].
  destruct (U32_MAX <? _) eqn:Ht; [done|]. destruct (_ <? BITCOIN_TIMESTAMP_LOCKTIME_THRESHOLD) eqn:Hts; [done|].
  destruct (public_key_from_slice (receiver_key hello side)) as [rk|]; [|done].
  destruct (public_key_from_slice (refund_key hello side)) as [fk|]; [|done]. simpl in H.
  destruct (htlc_new _ _ _ _) as [h|] eqn:Hh; [|done].
  destruct (shakescape_bitcoin_htlc_commitment _ _ _) as [c|] eqn:Hc; [|done]. apply Ok_inj in H as <-.
  unfold shakescape_bitcoin_htlc_commitment in Hc. destruct (negb _) in Hc; [done|].
  destruct (htlc_validate h) as [[]|] eqn:Hval; [|done].
  destruct (_ <? MIN_HTLC_DUST_SATS) eqn:Hd in Hc; [done|].
  destruct (network_encode (header_network hello)) as [net|]; [|done]. simpl in Hc.
  destruct (U16_MAX <? len (witness_script h)) eqn:Hl; [done|]. apply Ok_inj in Hc as <-.
  unfold htlc_new in Hh. destruct (_ || _) in Hh; [done|]. destruct (MAX_HTLC_SCRIPT_BYTES <? _) in Hh; [done|].
  apply Ok_inj in Hh as <-.
  cbn [bb_htlc bb_value_sats bb_commitment htlc_hashlock refund_locktime witness_script script_pubkey] in *.
  bool_prop.
  unfold BITCOIN_TIMESTAMP_LOCKTIME_THRESHOLD, MIN_HTLC_DUST_SATS in *.
  split_and!; try done; [by eexists _, _|]. exists net. split_and!; try done.
  intros value script Hv2 Heq. by apply commitment_message_inj in Heq as [-> ->].
Qed.

(** The transaction a spend or a funding names, at the lengths the chains use. *)
Definition spend_txs (s : LocallyVerifiedSwapSpend) : bytes * bytes :=
  match s with
  | SpendHns (NativeRedeem tx _ _) | SpendHns (NativeRefund tx _) => (tx, [])
  | SpendBitcoin o => (spend_txid o, spend_wtxid o)
  end.
Definition spend_sized (s : LocallyVerifiedSwapSpend) : bool :=
  match s with
  | SpendHns (NativeRedeem tx _ _) | SpendHns (NativeRefund tx _) => Nat.eqb (length tx) 32
  | SpendBitcoin o => Nat.eqb (length (spend_txid o)) 32 && Nat.eqb (length (spend_wtxid o)) 32
  end.

(** A spend's identifier determines the spend.  The message that is hashed
    into it fixes the chain, the branch (redeem or refund) and the transaction
    identifiers, so evidence of a refund can never pass for evidence of a
    redemption, nor one chain's spend for the other's.*)
Theorem spend_message_determines_spend (a b : LocallyVerifiedSwapSpend) :
  spend_sized a = true -> spend_sized b = true -> spend_message a = spend_message b ->
  spend_module a = spend_module b /\ is_refund a = is_refund b /\ spend_txs a = spend_txs b.
Proof.
  intros Ha Hb H%app_inv_head.
  destruct a as [[]|[ta wa [] pa ca]], b as [[]|[tb wb [] pb cb]]; cbn in *; simplify_eq; try done;
    apply andb_prop in Ha as [Ha1%Nat.eqb_eq Ha2%Nat.eqb_eq], Hb as [Hb1%Nat.eqb_eq Hb2%Nat.eqb_eq];
    apply app_inj_length_l in H as [-> H]; try congruence;
    apply app_inj_length_l in H as [-> H]; try congruence; done.
Qed.
End Guarantees.

(** ** Witnesses *)

Lemma refund_safety_sound_witness :
  exists first second, second + 3600 <= first /\
    shakescape_effective_refund_at ASSET_BTC (600020000 : SettlementDeadline (TermsEnv := ToyTerms.toy_terms))
      = Ok first.
Proof.
  destruct (refund_safety_sound (env := ToyTerms.toy_terms) tt) as (first & second & H1 & _ & Hm & _);
    [vm_compute; reflexivity|].
  exists first, second. split; [exact Hm|exact H1].
Defined.

Lemma agreement_session_sound_witness :
  exists s, swap_session_from_accepted_hello (env := ToyTerms.toy_terms) tt 600000001 = Ok s /\
    sess_state s = TermsFrozen.
Proof.
  destruct (swap_session_from_accepted_hello (env := ToyTerms.toy_terms) tt 600000001) as [s|e] eqn:H;
    [|vm_compute in H; discriminate H].
  exists s. split; [reflexivity|].
  exact (proj1 (agreement_session_sound _ _ _ H)).
Defined.

Lemma bitcoin_lock_sound_witness :
  exists b, build_shakescape_bitcoin_htlc (env := ToyTerms.toy_terms) tt Offered = Ok b /\
    bb_value_sats b = 5000.
Proof.
  destruct (build_shakescape_bitcoin_htlc (env := ToyTerms.toy_terms) tt Offered) as [b|e] eqn:H;
    [|vm_compute in H; discriminate H].
  exists b. split; [reflexivity|].
  destruct (bitcoin_lock_sound _ _ _ H) as (_ & _ & _ & _ & Hv & _). exact Hv.
Defined.

Lemma spend_message_determines_spend_witness :
  let redeem := SpendHns (NativeRedeem (ToyTerms.hash Byte.x01) 1 []) in
  let refund := SpendHns (NativeRefund (ToyTerms.hash Byte.x01) 1) in
  spend_sized redeem = true /\ spend_sized refund = true /\ spend_message redeem <> spend_message refund.
Proof.
  intros redeem refund. split; [reflexivity|]. split; [reflexivity|]. intros H.
  destruct (spend_message_determines_spend redeem refund eq_refl eq_refl H) as (_ & Hr & _).
  discriminate Hr.
Defined.
