(* ===== verification/SwapExec.v ===== *)
(** * The durable swap execution

    Models the execution layer of [crates/hns-wallet-market/src/lib.rs]: the
    [WalletStoreJournal] that writes a session and its second-funding
    authorization row in one transaction, the re-authentication of a stored
    execution, and the operations that advance it with locally verified
    evidence: beginning a first-chain read, applying or invalidating funding,
    issuing a second-funding authorization and reading the guard that a
    broadcast must consume, the two redemptions and the refund.

    [ShakescapeDirectSwapPolicy] enters only through [policy.network()], so the
    operations take the network. *)

From Stdlib Require Import Strings.Byte.
From S2P Require Import Prelude Types Codec Store Swap SwapProofs Terms.

Definition SHAKESCAPE_EXECUTION_WORKFLOW_DOMAIN : bytes :=
  str_bytes "hns-wallet-rs/shakescape-execution-workflow/v1".
Definition SHAKESCAPE_OBSERVED_PREIMAGE_DOMAIN : bytes :=
  str_bytes "hns-wallet-rs/shakescape-observed-preimage/v1".
Definition SHAKESCAPE_SECOND_FUNDING_AUTHORIZATION_DOMAIN : bytes :=
  str_bytes "hns-wallet-rs/shakescape-second-funding-authorization/v1" ++ [Byte.x00].
Definition SHAKESCAPE_SECOND_FUNDING_AUTHORIZATION_SCHEMA_VERSION : N := 1.
Definition PREIMAGE_LENGTH : N := 32.

(** The row that a broadcast of the second lock consumes. *)
Record PersistedSecondFundingAuthorization := mkPersisted {
  schema_version : N;
  psa_session_id : bytes;
  psa_execution_workflow_id : bytes;
  psa_execution_revision : N;
  issued_entity_revision : N;
  psa_authorization : SecondFundingAuthorization;
}.

Record SecondFundingBroadcastGuard := mkGuard {
  guard_session_id : bytes;
  guard_execution_workflow_id : bytes;
  guard_execution_revision : N;
  guard_authorization_entity_id : bytes;
  guard_authorization_entity_revision : N;
  guard_authorization : SecondFundingAuthorization;
}.

Definition workflow_assertion (g : SecondFundingBroadcastGuard) : WorkflowRevisionAssertion :=
  mkWorkflowAssertion (guard_execution_workflow_id g) WfAtomicSwap (guard_execution_revision g).

Definition authorization_assertion (g : SecondFundingBroadcastGuard) : EntityRevisionAssertion :=
  mkAssertion (guard_authorization_entity_id g) (guard_authorization_entity_revision g).

(** A store call's [?] in a function that returns [MarketError]. *)
Definition lift {A} (r : result A StoreError) : result A MarketError.t :=
  map_err MarketError.from_store r.

Record WalletStoreJournal := mkJournal {
  journal_store : WalletStore;
  journal_workflow_id : bytes;
  journal_updated_at_unix : N;
}.

(** A reference to the store with the journal's own fields dropped. *)
Definition in_store (j : WalletStoreJournal) (st : WalletStore) : WalletStoreJournal :=
  mkJournal st (journal_workflow_id j) (journal_updated_at_unix j).

Section Exec.
Context {senv : StoreEnv} {env : TermsEnv}.
Context {session_codec : JsonCodec SwapSession}.
Context {auth_codec : JsonCodec PersistedSecondFundingAuthorization}.

(** ** Identifiers *)

Definition shakescape_execution_workflow_id (session_id : bytes) : bytes :=
  take 16 (sha256 (SHAKESCAPE_EXECUTION_WORKFLOW_DOMAIN ++ session_id)).

Definition second_funding_authorization_entity_id (session_id : bytes) : bytes :=
  SHAKESCAPE_SECOND_FUNDING_AUTHORIZATION_DOMAIN ++ session_id.

Definition shakescape_observed_preimage_id (session_id : bytes) : bytes :=
  SHAKESCAPE_OBSERVED_PREIMAGE_DOMAIN ++ session_id.

(** ** The authorization row *)

Definition persisted_second_funding_authorization (s : SwapSession)
    (a : SecondFundingAuthorization) (issued : N) : PersistedSecondFundingAuthorization :=
  mkPersisted SHAKESCAPE_SECOND_FUNDING_AUTHORIZATION_SCHEMA_VERSION (sess_id s)
    (shakescape_execution_workflow_id (sess_id s)) (sess_revision s) issued a.

Definition validate_persisted_second_funding_authorization
    (r : PersistedSecondFundingAuthorization) (s : SwapSession) : result unit MarketError.t :=
  if negb (schema_version r =? SHAKESCAPE_SECOND_FUNDING_AUTHORIZATION_SCHEMA_VERSION)
     || negb (bool_decide (psa_session_id r = sess_id s))
     || negb (bool_decide (psa_execution_workflow_id r
                           = shakescape_execution_workflow_id (sess_id s)))
     || negb (psa_execution_revision r =? sess_revision s)
     || (issued_entity_revision r =? 0)
     || negb (bool_decide (second_funding_authorization s = Some (psa_authorization r)))
     || negb (bool_decide (auth_module (psa_authorization r) = second_module s))
  then Err MarketError.ShakescapeDirectSwapConflict else
  let* ff := ok_or (first_funding s) MarketError.InvalidTransition in
  if negb (bool_decide (auth_first_funding (psa_authorization r) = ff))
     || negb (auth_first_funding_observation_generation (psa_authorization r)
              =? first_funding_observation_generation s)
  then Err MarketError.ShakescapeDirectSwapConflict
  else Ok tt.

Definition validate_previous_second_funding_authorization
    (r : PersistedSecondFundingAuthorization) (stored_entity_revision : N)
    (session_id workflow_id : bytes) (expected_execution_revision : N) : result unit MarketError.t :=
  let consumed_revision := saturating_add U64_MAX (issued_entity_revision r) 1 in
  if negb (schema_version r =? SHAKESCAPE_SECOND_FUNDING_AUTHORIZATION_SCHEMA_VERSION)
     || negb (bool_decide (psa_session_id r = session_id))
     || negb (bool_decide (psa_execution_workflow_id r = workflow_id))
     || (issued_entity_revision r =? 0)
     || ((stored_entity_revision =? issued_entity_revision r)
         && negb (psa_execution_revision r =? expected_execution_revision))
     || ((stored_entity_revision =? consumed_revision)
         && (expected_execution_revision <? psa_execution_revision r))
     || (negb (stored_entity_revision =? issued_entity_revision r)
         && negb (stored_entity_revision =? consumed_revision))
     || all_zero (auth_id (psa_authorization r))
     || (auth_expires_at_unix (psa_authorization r) =? 0)
  then Err MarketError.ShakescapeDirectSwapConflict
  else Ok tt.

(** ** The journal *)

Definition irreversible_state (st : SwapState) : bool :=
  match st with
  | FirstFundingPending | FirstFunded | SecondFundingPending | BothFunded | FirstRedeemed
  | SecretObserved | SecondRedeemed | RefundEligible | RefundBroadcast => true
  | _ => false
  end.

(** What [save] does to the authorization row: the entity saves and deletes that
    accompany the session's write. *)
Definition authorization_batch (s : SwapSession) (updated_at_unix : N) (entity_id : bytes)
    (stored : option (StoredEntity PersistedSecondFundingAuthorization)) :
    result (list (EntityBatchSave PersistedSecondFundingAuthorization) * list EntityBatchDelete)
           MarketError.t :=
  match second_funding_authorization s with
  | Some authorization =>
      if is_some_and stored (fun e => negb (se_revision e =? issued_entity_revision (se_value e)))
      then Err MarketError.InvalidTransition else
      let expected_entity_revision :=
        match stored with Some e => se_revision e | None => 0 end in
      let* issued := ok_or (u64_add expected_entity_revision 1) MarketError.Invariant in
      Ok ([mkSave entity_id expected_entity_revision
             (persisted_second_funding_authorization s authorization issued) updated_at_unix], [])
  | None =>
      match stored with
      | Some e =>
          let consumed := negb (se_revision e =? issued_entity_revision (se_value e)) in
          if negb consumed || is_some (second_funding s)
          then Ok ([], [mkDelete entity_id (se_revision e)])
          else Ok ([], [])
      | None => Ok ([], [])
      end
  end.

(** [WalletStoreJournal::save]. *)
Definition wallet_journal_save (j : WalletStoreJournal) (s : SwapSession) (expected_revision : N) :
    WalletStoreJournal * result unit MarketError.t :=
  let st := journal_store j in
  let id := journal_workflow_id j in
  let now := journal_updated_at_unix j in
  let irreversible := irreversible_state (sess_state s) in
  let check (r : WalletStore * result N StoreError) :=
    let '(st, r) := r in
    match lift r with
    | Err e => (in_store j st, Err e)
    | Ok next => if negb (next =? sess_revision s) then (in_store j st, Err MarketError.Invariant)
                 else (in_store j st, Ok tt)
    end in
  if is_none (accepted_shakescape_terms s) then
    check (save_workflow st id WfAtomicSwap expected_revision s irreversible now)
  else
  if negb (bool_decide (id = shakescape_execution_workflow_id (sess_id s)))
  then (j, Err MarketError.Invariant) else
  let entity_id := second_funding_authorization_entity_id (sess_id s) in
  let! j, stored := (j, lift (load_entity (T := PersistedSecondFundingAuthorization) st
                                EntityKind.SwapFundingAuthorization entity_id)) in
  let! j, _ := (j, match stored with
                   | Some e => validate_previous_second_funding_authorization (se_value e)
                                 (se_revision e) (sess_id s) id expected_revision
                   | None => Ok tt
                   end) in
  let! j, batch := (j, authorization_batch s now entity_id stored) in
  let '(saves, deletes) := batch in
  if is_empty saves && is_empty deletes then
    check (save_workflow st id WfAtomicSwap expected_revision s irreversible now)
  else
    check (save_workflow_with_entity_batch st id WfAtomicSwap expected_revision s irreversible now
             EntityKind.SwapFundingAuthorization saves deletes).

#[global] Instance WalletStoreJournal_journal : SwapJournal WalletStoreJournal :=
  wallet_journal_save.

(** [session.apply(evidence, now, &mut WalletStoreJournal {..})?]. *)
Definition apply_in (st : WalletStore) (workflow_id : bytes) (s : SwapSession) (ev : Evidence)
    (now_unix : N) : WalletStore * result SwapSession MarketError.t :=
  match apply s ev now_unix (mkJournal st workflow_id now_unix) with
  | (s, j, Ok _) => (journal_store j, Ok s)
  | (_, j, Err e) => (journal_store j, Err e)
  end.

(** ** Loading an execution *)

Definition validate_shakescape_execution_record (network : NetworkBinding)
    (session_id workflow_id : bytes) (stored : StoredWorkflow SwapSession) :
    result unit MarketError.t :=
  let s := wf_state stored in
  if negb (bool_decide (wf_kind stored = WfAtomicSwap))
     || negb (bool_decide (wf_id stored = workflow_id))
     || negb (bool_decide (sess_id s = session_id))
     || negb (wf_revision stored =? sess_revision s)
     || negb (wf_updated_at_unix stored =? last_verified_at_unix s)
     || (first_funding_revoked s && is_none (first_funding s))
     || is_some_and (first_funding_confirmed_generation s) (fun generation =>
          (generation =? 0) || negb (generation =? first_funding_observation_generation s))
  then Err MarketError.ShakescapeDirectSwapConflict else
  let* terms := ok_or (accepted_shakescape_terms s) MarketError.InvalidShakescapeDirectSwap in
  let* hello := ok_or (hello_decode terms) MarketError.CorruptShakescapeDirectSwap in
  if negb (bool_decide (hello_encode hello = Some terms))
     || negb (bool_decide (hello_swap_session_id hello = session_id))
     || negb (verify_agreement hello network)
  then Err MarketError.CorruptShakescapeDirectSwap else
  if is_some_and (second_funding_authorization s) (fun a =>
       negb (bool_decide (sess_state s = SecondFundingPending))
       || negb (bool_decide (second_module s = auth_module a))
       || negb (bool_decide (first_funding s = Some (auth_first_funding a)))
       || first_funding_revoked s
       || negb (first_funding_observation_generation s
                =? auth_first_funding_observation_generation a)
       || negb (bool_decide (first_funding_confirmed_generation s
                             = Some (auth_first_funding_observation_generation a)))
       || is_some (second_funding s)
       || all_zero (auth_id a)
       || (header_expires_at hello <? auth_expires_at_unix a))
  then Err MarketError.ShakescapeDirectSwapConflict
  else Ok tt.

Definition validate_shakescape_execution (network : NetworkBinding) (session_id workflow_id : bytes)
    (stored : StoredWorkflow SwapSession) : result SwapSession MarketError.t :=
  let* _ := validate_shakescape_execution_record network session_id workflow_id stored in
  Ok (wf_state stored).

Definition load_shakescape_execution (st : WalletStore) (network : NetworkBinding)
    (session_id : bytes) : result (option SwapSession) MarketError.t :=
  let workflow_id := shakescape_execution_workflow_id session_id in
  let* found := lift (load_workflow st workflow_id) in
  match found with
  | None => Ok None
  | Some stored =>
      let* s := validate_shakescape_execution network session_id workflow_id stored in Ok (Some s)
  end.

Definition load_shakescape_execution_for_local_evidence (st : WalletStore) (network : NetworkBinding)
    (session_id workflow_id : bytes) : result (StoredWorkflow SwapSession) MarketError.t :=
  let* found := lift (load_workflow st workflow_id) in
  let* stored := ok_or found MarketError.UnknownShakescapeDirectSwap in
  let* _ := validate_shakescape_execution_record network session_id workflow_id stored in
  Ok stored.

(** [let Some(mut session) = load_shakescape_execution(..)? else { .. }]. *)
Definition load_known (st : WalletStore) (network : NetworkBinding) (session_id : bytes) :
    result SwapSession MarketError.t :=
  let* found := load_shakescape_execution st network session_id in
  ok_or found MarketError.UnknownShakescapeDirectSwap.

(** ** First-chain observations *)

Definition begin_shakescape_first_funding_observation (st : WalletStore) (network : NetworkBinding)
    (session_id : bytes) (module : ModuleId) (now_unix : N) :
    WalletStore * result N MarketError.t :=
  let! st, s := (st, load_known st network session_id) in
  if negb (observable_state (sess_state s))
     || negb (bool_decide (first_module s = module))
     || (negb (at_state s FirstFundingPending)
         && is_none (first_funding s)
         && negb (at_state s Failed && is_none (second_funding s) && prefunding_failure s))
     || is_some (second_redemption s)
     || is_some (first_refund s)
  then (st, Err MarketError.InvalidTransition) else
  let! st, generation := (st, ok_or (u64_add (first_funding_observation_generation s) 1)
                                MarketError.Invariant) in
  let! st, _ := apply_in st (shakescape_execution_workflow_id session_id) s
    (VerifiedEvidence.FirstFundingObservationStarted module generation) now_unix in
  (st, Ok generation).

(** The evidence a verified first lock yields, with or without a generation. *)
Definition first_funding_evidence (e : bytes) (module : ModuleId)
    (observation_generation : option N) : Evidence :=
  match observation_generation with
  | Some generation => VerifiedEvidence.FirstFundingConfirmedAtGeneration e module generation
  | None => VerifiedEvidence.FirstFundingConfirmed e
  end.

(** The [match stored.state.state] that turns verified funding into evidence. *)
Definition funding_steps (s : SwapSession) (module : ModuleId) (e : bytes)
    (observation_generation : option N) : option (list Evidence) :=
  let first := bool_decide (module = first_module s) in
  let second := bool_decide (module = second_module s) in
  if at_state s FirstFundingPending && first then
    Some [first_funding_evidence e module observation_generation]
  else if at_state s Failed && (first && is_none (first_funding s) && is_none (second_funding s)
                                && prefunding_failure s) then
    Some [first_funding_evidence e module observation_generation]
  else if refreshable_state (sess_state s)
          && (first && (is_some observation_generation || is_none (second_funding s)
                        || first_funding_revoked s)) then
    Some [first_funding_evidence e module observation_generation]
  else if at_state s SecondFundingPending && second then
    Some [VerifiedEvidence.SecondFundingConfirmed e]
  else if at_state s FirstFunded && second then
    Some [VerifiedEvidence.SecondFundingReady; VerifiedEvidence.SecondFundingConfirmed e]
  else None.

(** [for evidence in evidence { session.apply(..)?; }]. *)
Fixpoint apply_each (st : WalletStore) (workflow_id : bytes) (s : SwapSession)
    (evs : list Evidence) (now_unix : N) : WalletStore * result SwapSession MarketError.t :=
  match evs with
  | [] => (st, Ok s)
  | ev :: rest =>
      let! st, s := apply_in st workflow_id s ev now_unix in
      apply_each st workflow_id s rest now_unix
  end.

Definition apply_locally_verified_shakescape_funding_inner (st : WalletStore)
    (network : NetworkBinding) (session_id : bytes) (funding : LocallyVerifiedSwapFunding)
    (observation_generation : option N) (now_unix : N) :
    WalletStore * result SwapSession MarketError.t :=
  let workflow_id := shakescape_execution_workflow_id session_id in
  let! st, found := (st, lift (load_workflow (T := SwapSession) st workflow_id)) in
  let! st, stored := (st, ok_or found MarketError.UnknownShakescapeDirectSwap) in
  let s := wf_state stored in
  if negb (bool_decide (wf_kind stored = WfAtomicSwap)) || negb (bool_decide (sess_id s = session_id))
  then (st, Err MarketError.ShakescapeDirectSwapConflict) else
  let! st, terms := (st, ok_or (accepted_shakescape_terms s)
                           MarketError.InvalidShakescapeDirectSwap) in
  let! st, hello := (st, ok_or (hello_decode terms) MarketError.CorruptShakescapeDirectSwap) in
  if negb (bool_decide (hello_encode hello = Some terms))
     || negb (bool_decide (hello_swap_session_id hello = session_id))
     || negb (verify_agreement hello network)
  then (st, Err MarketError.CorruptShakescapeDirectSwap) else
  let! st, _ := (st, verify_local_funding_against_shakescape_terms hello funding) in
  let module := funding_module funding in
  if is_none observation_generation && bool_decide (module = first_module s)
     && negb (first_funding_observation_generation s =? 0)
  then (st, Err MarketError.InvalidTransition) else
  if is_some_and observation_generation (fun generation =>
       negb (bool_decide (module = first_module s))
       || negb (first_funding_observation_generation s =? generation)
       || is_some (first_refund s)
       || is_some (second_redemption s)
       || negb (observable_state (sess_state s)))
  then (st, Err MarketError.InvalidTransition) else
  let e := funding_evidence_id funding in
  let refreshes_unsettled_first_funding :=
    bool_decide (module = first_module s)
    && bool_decide (first_funding s = Some e)
    && (is_some observation_generation || is_none (second_funding s) || first_funding_revoked s)
    && refreshable_state (sess_state s) in
  if negb refreshes_unsettled_first_funding
     && ((bool_decide (module = first_module s) && bool_decide (first_funding s = Some e))
         || (bool_decide (module = second_module s) && bool_decide (second_funding s = Some e)))
  then (st, Ok s) else
  let! st, evs := (st, ok_or (funding_steps s module e observation_generation)
                         MarketError.InvalidTransition) in
  apply_each st workflow_id s evs now_unix.

Definition apply_locally_verified_shakescape_funding (st : WalletStore) (network : NetworkBinding)
    (session_id : bytes) (funding : LocallyVerifiedSwapFunding) (now_unix : N) :=
  apply_locally_verified_shakescape_funding_inner st network session_id funding None now_unix.

Definition apply_locally_verified_shakescape_funding_at_generation (st : WalletStore)
    (network : NetworkBinding) (session_id : bytes) (funding : LocallyVerifiedSwapFunding)
    (observation_generation now_unix : N) :=
  apply_locally_verified_shakescape_funding_inner st network session_id funding
    (Some observation_generation) now_unix.

Definition invalidate_locally_verified_shakescape_first_funding_inner (st : WalletStore)
    (network : NetworkBinding) (session_id : bytes) (observation_generation : option N)
    (now_unix : N) : WalletStore * result SwapSession MarketError.t :=
  let! st, s := (st, load_known st network session_id) in
  if is_some_and observation_generation (fun generation =>
       negb (first_funding_observation_generation s =? generation)
       || negb (observable_state (sess_state s)))
  then (st, Err MarketError.InvalidTransition) else
  if (at_state s FirstFundingPending && is_none (first_funding s) && is_none (second_funding s))
     || (at_state s Failed && is_none (first_funding s) && is_none (second_funding s)
         && prefunding_failure s)
     || (first_funding_revoked s && is_some (first_funding s) && is_none (first_refund s)
         && is_none (second_redemption s))
  then (st, Ok s) else
  if negb (refreshable_state (sess_state s)) || is_some (first_refund s)
     || is_some (second_redemption s)
  then (st, Err MarketError.InvalidTransition) else
  let! st, evidence := (st, ok_or (first_funding s) MarketError.InvalidTransition) in
  apply_in st (shakescape_execution_workflow_id session_id) s
    (VerifiedEvidence.FirstFundingInvalidated evidence) now_unix.

Definition invalidate_locally_verified_shakescape_first_funding (st : WalletStore)
    (network : NetworkBinding) (session_id : bytes) (now_unix : N) :=
  invalidate_locally_verified_shakescape_first_funding_inner st network session_id None now_unix.

Definition invalidate_locally_verified_shakescape_first_funding_at_generation (st : WalletStore)
    (network : NetworkBinding) (session_id : bytes) (observation_generation now_unix : N) :=
  invalidate_locally_verified_shakescape_first_funding_inner st network session_id
    (Some observation_generation) now_unix.

(** ** Second funding *)

Definition issue_shakescape_second_funding_authorization (st : WalletStore)
    (network : NetworkBinding) (session_id : bytes) (module : ModuleId) (authorization_id : bytes)
    (expires_at_unix now_unix : N) : WalletStore * result SwapSession MarketError.t :=
  let! st, s := (st, load_known st network session_id) in
  if negb (bool_decide (sess_state s = SecondFundingPending))
     || negb (bool_decide (second_module s = module))
     || is_none (first_funding s)
     || first_funding_revoked s
     || negb (bool_decide (first_funding_confirmed_generation s
                           = Some (first_funding_observation_generation s)))
     || is_some (second_funding s)
     || all_zero authorization_id
     || (expires_at_unix <=? now_unix)
  then (st, Err MarketError.InvalidTransition) else
  let! st, terms := (st, ok_or (accepted_shakescape_terms s)
                           MarketError.InvalidShakescapeDirectSwap) in
  let! st, hello := (st, ok_or (hello_decode terms) MarketError.CorruptShakescapeDirectSwap) in
  if negb (verify_new_funding_at hello network now_unix)
  then (st, Err MarketError.InvalidShakescapeDirectSwap) else
  let! st, _ := (st, validate_shakescape_effective_refund_safety hello) in
  if header_expires_at hello <? expires_at_unix then (st, Err MarketError.InvalidTransition) else
  let! st, ff := (st, ok_or (first_funding s) MarketError.InvalidTransition) in
  let a := mkAuthorization authorization_id module ff
             (first_funding_observation_generation s) expires_at_unix in
  apply_in st (shakescape_execution_workflow_id session_id) s
    (VerifiedEvidence.SecondFundingAuthorizationIssued a) now_unix.

Definition shakescape_second_funding_broadcast_guard (st : WalletStore) (network : NetworkBinding)
    (session_id : bytes) (module : ModuleId) (authorization_id : bytes) (now_unix : N) :
    result SecondFundingBroadcastGuard MarketError.t :=
  let* s := load_known st network session_id in
  let entity_id := second_funding_authorization_entity_id session_id in
  let* found := lift (load_entity (T := PersistedSecondFundingAuthorization) st
                        EntityKind.SwapFundingAuthorization entity_id) in
  let* stored := ok_or found MarketError.InvalidTransition in
  let* _ := validate_persisted_second_funding_authorization (se_value stored) s in
  if negb (se_revision stored =? issued_entity_revision (se_value stored))
  then Err MarketError.InvalidTransition else
  let a := psa_authorization (se_value stored) in
  if negb (bool_decide (sess_state s = SecondFundingPending))
     || negb (first_funding_is_current s)
     || is_some (second_funding s)
     || negb (bool_decide (auth_id a = authorization_id))
     || negb (bool_decide (auth_module a = module))
     || (auth_expires_at_unix a <=? now_unix)
  then Err MarketError.InvalidTransition else
  Ok (mkGuard session_id (psa_execution_workflow_id (se_value stored))
        (psa_execution_revision (se_value stored)) (se_id stored) (se_revision stored) a).

(** ** Redemptions and refunds *)

Definition apply_locally_verified_shakescape_first_redemption (st : WalletStore)
    (network : NetworkBinding) (session_id : bytes) (spend : LocallyVerifiedSwapSpend)
    (now_unix : N) : WalletStore * result SwapSession MarketError.t :=
  let workflow_id := shakescape_execution_workflow_id session_id in
  let! st, stored := (st, load_shakescape_execution_for_local_evidence st network session_id
                            workflow_id) in
  let s := wf_state stored in
  if negb (bool_decide (spend_module spend = second_module s))
     || (confirmation_count spend =? 0) || is_some (second_refund s)
  then (st, Err MarketError.InvalidTransition) else
  let! st, preimage := (st, redeem_preimage spend) in
  if negb (bool_decide (sha256 preimage = hashlock s)) then (st, Err MarketError.InvalidEvidence) else
  let evidence := spend_evidence_id spend in
  let! st, _ :=
    (st, match first_redemption s with
         | Some existing =>
             if negb (bool_decide (existing = evidence)) then Err MarketError.InvalidEvidence else Ok tt
         | None =>
             if negb (at_state s BothFunded || at_state s RefundEligible)
             then Err MarketError.InvalidTransition else Ok tt
         end) in
  let preimage_id := shakescape_observed_preimage_id session_id in
  let! st, secret := (st, lift (get_secret st preimage_id SecretKind.HtlcPreimage)) in
  let! st, _ :=
    match secret with
    | Some persisted =>
        (st, if negb (bool_decide (persisted = preimage)) then Err MarketError.InvalidEvidence
             else Ok tt)
    | None =>
        if is_none (first_redemption s) then
          let '(st, r) := put_secret st preimage_id SecretKind.HtlcPreimage preimage now_unix in
          (st, lift r)
        else (st, Err MarketError.InvalidEvidence)
    end in
  let! st, s :=
    if is_none (first_redemption s)
    then apply_in st workflow_id s (VerifiedEvidence.FirstRedemptionConfirmed evidence) now_unix
    else (st, Ok s) in
  if at_state s FirstRedeemed
  then apply_in st workflow_id s (VerifiedEvidence.SecretExtracted (hashlock s)) now_unix
  else (st, Ok s).

Definition apply_locally_verified_shakescape_second_redemption (st : WalletStore)
    (network : NetworkBinding) (session_id : bytes) (spend : LocallyVerifiedSwapSpend)
    (now_unix : N) : WalletStore * result SwapSession MarketError.t :=
  let workflow_id := shakescape_execution_workflow_id session_id in
  let! st, stored := (st, load_shakescape_execution_for_local_evidence st network session_id
                            workflow_id) in
  let s := wf_state stored in
  if negb (bool_decide (spend_module spend = first_module s)) || (confirmation_count spend =? 0)
  then (st, Err MarketError.InvalidTransition) else
  let! st, preimage := (st, redeem_preimage spend) in
  if negb (bool_decide (sha256 preimage = hashlock s)) then (st, Err MarketError.InvalidEvidence) else
  let! st, secret := (st, lift (get_secret st (shakescape_observed_preimage_id session_id)
                                  SecretKind.HtlcPreimage)) in
  if is_none_or secret (fun persisted => negb (bool_decide (persisted = preimage)))
  then (st, Err MarketError.InvalidEvidence) else
  let evidence := spend_evidence_id spend in
  let! st, _ :=
    (st, match second_redemption s with
         | Some existing =>
             if negb (bool_decide (existing = evidence)) then Err MarketError.InvalidEvidence else Ok tt
         | None =>
             if negb (at_state s SecretObserved) then Err MarketError.InvalidTransition else Ok tt
         end) in
  let! st, s :=
    if is_none (second_redemption s)
    then apply_in st workflow_id s (VerifiedEvidence.SecondRedemptionConfirmed evidence) now_unix
    else (st, Ok s) in
  if at_state s SecondRedeemed
  then apply_in st workflow_id s VerifiedEvidence.CompletionValidated now_unix
  else (st, Ok s).

Definition apply_locally_verified_shakescape_refund (st : WalletStore) (network : NetworkBinding)
    (session_id : bytes) (spend : LocallyVerifiedSwapSpend) (now_unix : N) :
    WalletStore * result SwapSession MarketError.t :=
  let workflow_id := shakescape_execution_workflow_id session_id in
  let! st, stored := (st, load_shakescape_execution_for_local_evidence st network session_id
                            workflow_id) in
  let s := wf_state stored in
  let module := spend_module spend in
  if negb (is_refund spend)
     || (negb (bool_decide (module = first_module s)) && negb (bool_decide (module = second_module s)))
     || (confirmation_count spend =? 0)
  then (st, Err MarketError.InvalidEvidence) else
  let evidence := spend_evidence_id spend in
  let! st, _ :=
    (st, match refund_for_module s module with
         | Some existing =>
             if negb (bool_decide (existing = evidence)) then Err MarketError.InvalidEvidence else Ok tt
         | None =>
             if negb (can_record_refund_for_module s module) then Err MarketError.InvalidTransition
             else Ok tt
         end) in
  if is_none (refund_for_module s module)
  then apply_in st workflow_id s (VerifiedEvidence.ChainRefundConfirmed module evidence) now_unix
  else (st, Ok s).

Definition load_locally_verified_shakescape_preimage (st : WalletStore) (session_id : bytes) :
    result (option bytes) MarketError.t :=
  let* found := lift (get_secret st (shakescape_observed_preimage_id session_id)
                        SecretKind.HtlcPreimage) in
  match found with
  | None => Ok None
  | Some value =>
      if negb (len value =? PREIMAGE_LENGTH) then Err MarketError.InvalidEvidence
      else Ok (Some value)
  end.
End Exec.
