(* ===== verification/SwapExecProofs.v ===== *)
(** * The durable swap execution: store lemmas

    What a journal write does to the wallet store: a successful one leaves the
    session readable under the next revision, a failed one changes nothing that
    a reader sees (or, when it notices too late that the revisions disagree,
    only moves the revision forward), and neither touches the secrets. *)

From S2P Require Import Prelude Types Codec Store Swap SwapProofs SwapTheorems Terms SwapExec.

Section Writes.
Context {senv : StoreEnv} {slaws : StoreEnvLaws}.

(** ** Entity batches leave workflows and secrets alone *)

Record entity_only (st st' : WalletStore) : Prop := {
  eo_key : key st' = key st;
  eo_db : database_id st' = database_id st;
  eo_workflows : workflows st' = workflows st;
  eo_secrets : secrets st' = secrets st;
}.

#[global] Instance entity_only_preorder : PreOrder entity_only.
Proof.
  split.
  - by intros st.
  - intros a b c [] []. split; congruence.
Qed.

Lemma entity_only_draws st n : entity_only st (set_draws st n).
Proof. by split. Qed.

Lemma write_entity_only st kind id r enc u st' res :
  write_entity st kind id r enc u = (st', res) -> entity_only st st'.
Proof. unfold write_entity. intros H. by run_in H. Qed.

Lemma authenticate_saves_only k kind saves : forall st st' res,
  authenticate_saves st k kind saves = (st', res) -> entity_only st st'.
Proof.
  induction saves as [|s saves IH]; intros st st' res H; simpl in H; [by simplify_eq|].
  unfold encrypt in H. destruct (entity_revision st k kind (ps_id s)); [|by simplify_eq].
  destruct (negb _); [by simplify_eq|]. destruct (ok_or _ _); [|by simplify_eq].
  destruct (revisioned_aad_id _ _ _ _); [|by simplify_eq].
  destruct (encrypt_record _ _ _ _ _ _); [|by simplify_eq].
  destruct (authenticate_saves _ k kind saves) as [st1 r1] eqn:Ha. apply IH in Ha.
  transitivity (set_draws st (draws st + 1)); [apply entity_only_draws|].
  by destruct r1; simplify_eq.
Qed.

Lemma write_saves_only kind saves : forall st st' res,
  write_saves st kind saves = (st', res) -> entity_only st st'.
Proof.
  induction saves as [|[[[id r] enc] u] saves IH]; intros st st' res H; simpl in H; [by simplify_eq|].
  destruct (write_entity st kind id r enc u) as [st1 r1] eqn:Hw. apply write_entity_only in Hw.
  destruct r1; [|by simplify_eq]. by etrans; [|eapply IH].
Qed.

Lemma fold_remove_only kind deletes : forall st,
  entity_only st (fold_left (fun st d => remove_entity st kind (bd_id d)) deletes st).
Proof.
  induction deletes as [|d deletes IH]; intros st; simpl; [done|].
  by etrans; [|apply IH].
Qed.

Lemma apply_batch_only st k kind saves deletes st' res :
  apply_entity_batch_in_transaction st k kind saves deletes = (st', res) -> entity_only st st'.
Proof.
  unfold apply_entity_batch_in_transaction, authenticate_entity_batch, write_entity_batch_in_transaction.
  intros H. destruct (_ && _); [by simplify_eq|].
  destruct (authenticate_saves st k kind saves) as [st1 r1] eqn:Ha. apply authenticate_saves_only in Ha.
  destruct r1; [|by simplify_eq]. destruct (check_revisions _ _ _ _); [|by simplify_eq].
  destruct (write_saves st1 kind _) as [st2 r2] eqn:Hw. apply write_saves_only in Hw.
  destruct r2; simplify_eq; [|by etrans]. etrans; [done|]. etrans; [done|]. apply fold_remove_only.
Qed.

(** ** Workflow writes *)

(** The workflow [id] of [st'] is the only one that differs from [st]; its row
    decrypts to [encoded]. *)
Record workflow_written (st st' : WalletStore) (k id : bytes) (kind : WorkflowKind) (next : N)
    (encoded : bytes) (prepared : bool) (now : N) : Prop := {
  ww_key : key st' = key st;
  ww_db : database_id st' = database_id st;
  ww_secrets : secrets st' = secrets st;
  ww_row : exists row, workflows st' = <[id := row]> (workflows st) /\
    parse_workflow_kind (wr_kind row) = Ok kind /\ wr_revision row = next /\
    wr_broadcast_prepared row = prepared /\ wr_updated_at row = now /\
    wr_encryption_version row = 1 /\ open_workflow st' k kind id row = Ok encoded;
}.

Lemma written_after_entities st st1 st' k id kind next encoded prepared now :
  entity_only st st1 -> workflow_written st1 st' k id kind next encoded prepared now ->
  workflow_written st st' k id kind next encoded prepared now.
Proof. intros [Hk Hd Hw Hs] [Hk' Hd' Hs' Hr]. split; try congruence. by rewrite <- Hw. Qed.

Lemma advance_written st k id kind actual encoded prepared now st' next :
  authenticated_workflow_revision st k id kind = Ok actual ->
  advance_workflow st k id kind actual encoded prepared now = (st', Ok next) ->
  next = actual + 1 /\ workflow_written st st' k id kind next encoded prepared now.
Proof.
  unfold advance_workflow, encrypt, write_workflow. intros Hrev H.
  destruct (ok_or (u64_add actual 1) _) as [n|] eqn:Hn; [|done].
  apply ok_or_Ok, checked_add_Some in Hn as [-> _].
  destruct (revisioned_aad_id id (actual + 1) now (Some prepared)) as [aad|] eqn:Haad; [|done].
  destruct (encrypt_record _ _ _ _ _ _) as [enc|] eqn:He; [|done].
  destruct (sql_params _); [|done]. simplify_eq. split; [done|]. split; try done.
  eexists. split; [reflexivity|]. simpl. split_and!; try done.
  - unfold authenticated_workflow_revision in Hrev. destruct (workflows st !! id) as [row|].
    + destruct (parse_workflow_kind (wr_kind row)) as [kind'|]; [|done].
      destruct (negb (bool_decide (kind' = kind))) eqn:Hkind; [done|]. bool_prop. by subst.
    + apply parse_workflow_kind_ok.
  - unfold open_workflow. simpl. rewrite Haad. by eapply decrypt_encrypt.
Qed.

Lemma save_workflow_written {T} `{JsonCodec T} st id kind expected (v : T) prepared now st' next :
  save_workflow st id kind expected v prepared now = (st', Ok next) ->
  exists k encoded, key st = Some k /\ json_to_vec v = Some encoded /\ next = expected + 1 /\
    authenticated_workflow_revision st k id kind = Ok expected /\
    workflow_written st st' k id kind next encoded prepared now.
Proof.
  unfold save_workflow, unlocked, transaction. intros Hs.
  destruct (json_to_vec v) as [encoded|]; [|done]. simpl in Hs. destruct (_ <? _); [done|].
  destruct (key st) as [k|]; [|done]. simpl in Hs.
  destruct (authenticated_workflow_revision st k id kind) as [actual|] eqn:Hr; [|done].
  destruct (negb _) eqn:He in Hs; [done|]. bool_prop. subst.
  destruct (advance_workflow _ _ _ _ _ _ _ _) as [st1 [n|]] eqn:Ha; simplify_eq.
  apply advance_written in Ha as [-> Hw]; [|done]. exists k, encoded. done.
Qed.

Lemma save_workflow_batch_written {W E} `{JsonCodec W, JsonCodec E} st id kind expected (v : W) prepared now
    ek (saves : list (EntityBatchSave E)) deletes st' next :
  save_workflow_with_entity_batch st id kind expected v prepared now ek saves deletes = (st', Ok next) ->
  exists k encoded, key st = Some k /\ json_to_vec v = Some encoded /\ next = expected + 1 /\
    authenticated_workflow_revision st k id kind = Ok expected /\
    workflow_written st st' k id kind next encoded prepared now.
Proof.
  unfold save_workflow_with_entity_batch, encode_state, unlocked, transaction. intros Hs.
  destruct (json_to_vec v) as [encoded|]; [|done]. simpl in Hs. destruct (_ || _); [done|].
  destruct (prepare_entity_batch saves deletes); [|done]. destruct (key st) as [k|]; [|done]. simpl in Hs.
  destruct (authenticated_workflow_revision st k id kind) as [actual|] eqn:Hr; [|done].
  destruct (negb _) eqn:He in Hs; [done|]. bool_prop. subst.
  destruct (apply_entity_batch_in_transaction _ _ _ _ _) as [st1 [[]|]] eqn:Hb; simplify_eq.
  apply apply_batch_only in Hb.
  destruct (advance_workflow _ _ _ _ _ _ _ _) as [st2 [n|]] eqn:Ha; simplify_eq.
  apply advance_written in Ha as [-> Hw].
  - exists k, encoded. split_and!; try done. by eapply written_after_entities.
  - revert Hr. unfold authenticated_workflow_revision, open_workflow. destruct Hb as [_ -> -> _]. done.
Qed.

(** A failed write rolls back. *)
Lemma save_workflow_failed {T} `{JsonCodec T} st id kind expected (v : T) prepared now st' e :
  save_workflow st id kind expected v prepared now = (st', Err e) -> st' = set_draws st (draws st').
Proof.
  unfold save_workflow, transaction. intros Hs.
  repeat (case_match; simplify_eq; try (by destruct st')); done.
Qed.

Lemma save_workflow_batch_failed {W E} `{JsonCodec W, JsonCodec E} st id kind expected (v : W) prepared now
    ek (saves : list (EntityBatchSave E)) deletes st' e :
  save_workflow_with_entity_batch st id kind expected v prepared now ek saves deletes = (st', Err e) ->
  st' = set_draws st (draws st').
Proof.
  unfold save_workflow_with_entity_batch, transaction. intros Hs.
  repeat (case_match; simplify_eq; try (by destruct st')); done.
Qed.

Lemma load_written {T} `{JsonCodec T, !JsonLaws T} st st' k id kind next encoded prepared now (v : T) :
  key st = Some k -> json_to_vec v = Some encoded ->
  workflow_written st st' k id kind next encoded prepared now ->
  load_workflow st' id = Ok (Some (mkWorkflow id kind next v prepared now)).
Proof.
  intros Hk Hj [Hk' Hd Hs (row & Hw & Hkind & <- & <- & <- & Hv & Hopen)].
  unfold load_workflow, unlocked. rewrite Hk', Hk. simpl. rewrite Hw, lookup_insert_eq, Hv. simpl.
  rewrite Hkind, Hopen. by rewrite (json_roundtrip _ _ Hj).
Qed.

(** The revision of a workflow's row. *)
Definition workflow_rev (st : WalletStore) (id : bytes) : N :=
  match workflows st !! id with Some row => wr_revision row | None => 0 end.

Lemma authenticated_rev st k id kind r :
  authenticated_workflow_revision st k id kind = Ok r -> r = workflow_rev st id.
Proof.
  unfold authenticated_workflow_revision, workflow_rev. intros H.
  destruct (workflows st !! id) as [row|]; [|by simplify_eq]. by run_in H.
Qed.
End Writes.

Section Journal.
Context {senv : StoreEnv} {slaws : StoreEnvLaws} {env : TermsEnv}.
Context {session_codec : JsonCodec SwapSession}.
Context {auth_codec : JsonCodec PersistedSecondFundingAuthorization}.

(** What any journal write preserves. *)
Record journal_frame (id : bytes) (st st' : WalletStore) : Prop := {
  jf_key : key st' = key st;
  jf_db : database_id st' = database_id st;
  jf_secrets : secrets st' = secrets st;
  jf_rev : workflow_rev st id <= workflow_rev st' id;
}.

#[global] Instance journal_frame_preorder id : PreOrder (journal_frame id).
Proof.
  split.
  - intros st. split; try done.
  - intros a b c [] []. split; try congruence. lia.
Qed.

Lemma journal_frame_draws id st n : journal_frame id st (set_draws st n).
Proof. split; try done. Qed.

Lemma written_frame st st' k id kind expected encoded prepared now :
  authenticated_workflow_revision st k id kind = Ok expected ->
  workflow_written st st' k id kind (expected + 1) encoded prepared now -> journal_frame id st st'.
Proof.
  intros Hr%authenticated_rev [Hk Hd Hs (row & Hw & _ & Hrev & _)]. split; try done.
  unfold workflow_rev in *. rewrite Hw, lookup_insert_eq, Hrev, <- Hr. lia.
Qed.

(** The two outcomes of the store call that ends a journal write. *)
Lemma saved_cases (r : WalletStore * result N StoreError) j s st' res :
  (let '(st, r) := r in
   match lift r with
   | Err e => (in_store j st, Err e)
   | Ok next => if negb (next =? sess_revision s) then (in_store j st, Err MarketError.Invariant)
                else (in_store j st, Ok tt)
   end) = (st', res) ->
  st' = in_store j r.1 /\
  match r.2 with
  | Ok next => res = Ok tt /\ next = sess_revision s \/ res = Err MarketError.Invariant
  | Err e => res = Err (MarketError.from_store e)
  end.
Proof.
  destruct r as [st [next|e]]; simpl; [|by intros; simplify_eq].
  destruct (negb _) eqn:H; intros; simplify_eq; bool_prop; auto.
Qed.

(** Writing the session [s] over revision [expected] ended in [r]. *)
Definition session_save (st : WalletStore) (id : bytes) (s : SwapSession) (expected now : N)
    (r : WalletStore * result N StoreError) : Prop :=
  r = save_workflow st id WfAtomicSwap expected s (irreversible_state (sess_state s)) now \/
  exists saves deletes,
    r = save_workflow_with_entity_batch (E := PersistedSecondFundingAuthorization) st id WfAtomicSwap
          expected s (irreversible_state (sess_state s)) now EntityKind.SwapFundingAuthorization
          saves deletes.

(** A journal write is refused before it reaches the store, or ends in one
    store call. *)
Lemma journal_cases j s expected j' res :
  wallet_journal_save j s expected = (j', res) ->
  (j' = j /\ is_ok res = false) \/
  exists r, session_save (journal_store j) (journal_workflow_id j) s expected (journal_updated_at_unix j) r /\
    j' = in_store j r.1 /\
    match r.2 with
    | Ok next => res = Ok tt /\ next = sess_revision s \/ res = Err MarketError.Invariant
    | Err e => res = Err (MarketError.from_store e)
    end.
Proof.
  unfold wallet_journal_save. intros H.
  destruct (is_none (accepted_shakescape_terms s)).
  { apply saved_cases in H as [-> Hr]. right. eexists. split; [by left|done]. }
  destruct (negb _) in H; [left; by simplify_eq|].
  destruct (lift _) as [stored|]; [|left; by simplify_eq].
  destruct (match stored with Some e => _ | None => _ end) as [[]|] in H; [|left; by simplify_eq].
  destruct (authorization_batch _ _ _ _) as [[saves deletes]|]; [|left; by simplify_eq].
  destruct (is_empty saves && is_empty deletes); apply saved_cases in H as [-> Hr]; right; eexists;
    (split; [|done]); [by left|right; by eexists _, _].
Qed.

Lemma session_save_ok st id s expected now st' next :
  session_save st id s expected now (st', Ok next) ->
  exists k encoded, key st = Some k /\ json_to_vec s = Some encoded /\ next = expected + 1 /\
    authenticated_workflow_revision st k id WfAtomicSwap = Ok expected /\
    workflow_written st st' k id WfAtomicSwap next encoded (irreversible_state (sess_state s)) now.
Proof.
  intros [H|(saves & deletes & H)]; symmetry in H;
    [by apply save_workflow_written|by eapply save_workflow_batch_written].
Qed.

Lemma session_save_frame st id s expected now r :
  session_save st id s expected now r -> journal_frame id st r.1.
Proof.
  destruct r as [st' [next|e]]; intros H.
  - apply session_save_ok in H as (k & encoded & _ & _ & -> & Hr & Hw). by eapply written_frame.
  - assert (Hst : st' = set_draws st (draws st')).
    { destruct H as [H|(saves & deletes & H)]; symmetry in H;
        [exact (save_workflow_failed _ _ _ _ _ _ _ _ _ H)
        |exact (save_workflow_batch_failed _ _ _ _ _ _ _ _ _ _ _ _ H)]. }
    simpl. rewrite Hst. apply journal_frame_draws.
Qed.

(** ** [apply_in] *)

Lemma apply_in_frame st id s ev now st' res :
  apply_in st id s ev now = (st', res) -> journal_frame id st st'.
Proof.
  unfold apply_in, apply. intros H.
  destruct (transition s ev now) as [n|]; [|by simplify_eq/=].
  destruct (ok_or _ _) as [r|] in H; [|by simplify_eq/=].
  destruct (journal_save _ _ _) as [j' res'] eqn:Hj.
  assert (Hst : st' = journal_store j') by (destruct res'; simplify_eq/=; done). subst st'.
  apply journal_cases in Hj as [[-> _]|(p & Hp & -> & _)]; [done|].
  by apply session_save_frame in Hp.
Qed.

Lemma apply_in_ok st id s ev now st' s' :
  apply_in st id s ev now = (st', Ok s') ->
  step s ev now s' /\
  exists k encoded, key st = Some k /\ json_to_vec s' = Some encoded /\
    authenticated_workflow_revision st k id WfAtomicSwap = Ok (sess_revision s) /\
    workflow_written st st' k id WfAtomicSwap (sess_revision s') encoded
      (irreversible_state (sess_state s')) now.
Proof.
  unfold apply_in. intros H.
  destruct (apply s ev now _) as [[s1 j1] [[]|]] eqn:Ha; simplify_eq.
  apply apply_ok in Ha as [Hstep Hj]. split; [done|].
  apply journal_cases in Hj as [[_ Hf]|(p & Hp & -> & Hr)]; [done|].
  destruct p as [st' [next|e]]; simpl in Hr; [|done]. destruct Hr as [[_ ->]|Hr]; [|done].
  apply session_save_ok in Hp as (k & encoded & Hk & Hj & _ & Hrev & Hw). eauto 10.
Qed.

Lemma step_revision s ev now s' : step s ev now s' -> sess_revision s' = sess_revision s + 1.
Proof. intros (n & _ & _ & ->). by destruct n. Qed.

Lemma apply_in_rev st id s ev now st' s' :
  apply_in st id s ev now = (st', Ok s') ->
  workflow_rev st id = sess_revision s /\ workflow_rev st' id = sess_revision s + 1.
Proof.
  intros (Hstep & k & encoded & _ & _ & Hr & [_ _ _ (row & Hw & _ & Hrev & _)])%apply_in_ok.
  apply authenticated_rev in Hr. split; [done|].
  unfold workflow_rev. by rewrite Hw, lookup_insert_eq, Hrev, (step_revision _ _ _ _ Hstep).
Qed.
End Journal.

(** ** Secrets *)

Section Secrets.
Context {senv : StoreEnv} {slaws : StoreEnvLaws}.

Lemma get_secret_frame id st st' sid kind :
  journal_frame id st st' -> get_secret st' sid kind = get_secret st sid kind.
Proof. intros [Hk Hd Hs _]. unfold get_secret, unlocked. by rewrite Hk, Hd, Hs. Qed.

(** A stored secret reads back; workflows are untouched whatever the outcome. *)
Lemma put_secret_cases st id kind clear now st' r :
  put_secret st id kind clear now = (st', r) ->
  workflows st' = workflows st /\
  (r = Ok tt -> kind <> SecretKind.RecoverySeed -> get_secret st' id kind = Ok (Some clear)).
Proof.
  unfold put_secret, transaction, encrypt. intros H.
  destruct (validate_id id) as [[]|] eqn:Hid; [|by simplify_eq]. destruct (_ || _); [by simplify_eq|].
  destruct (unlocked st) as [k|] eqn:Hk; [|by simplify_eq].
  assert (Hread : forall enc n, encrypt_record n k (database_id st) (SecretKind.label kind) id clear = Ok enc ->
    get_secret (set_secrets (set_draws st (n + 1)) (<[id := {| sr_kind := SecretKind.label kind;
      sr_encrypted_value := enc; sr_updated_at := now |}]> (secrets st))) id kind = Ok (Some clear)).
  { intros enc n He. unfold get_secret. rewrite Hid. unfold unlocked in *. simpl.
    rewrite Hk, lookup_insert_eq. simpl. rewrite bool_decide_true by done. simpl.
    by rewrite (decrypt_encrypt _ _ _ _ _ _ _ He). }
  destruct (encrypt_record _ _ _ _ _ _) as [enc|] eqn:He; [|repeat (case_match; simplify_eq); bool_prop; split; done || (intros; done)].
  destruct (sql_params _); [|repeat (case_match; simplify_eq); bool_prop; split; done || (intros; done)]. apply Hread in He.
  destruct (secrets st !! id) as [row|]; [|by simplify_eq].
  destruct (negb _) in H; [by simplify_eq|]. case_bool_decide as Hrs; [|by simplify_eq].
  repeat (case_match; simplify_eq); bool_prop; split; done || (intros; done).
Qed.
End Secrets.

(** ** A batch of one save *)

Section SingleSave.
Context {senv : StoreEnv} {slaws : StoreEnvLaws}.

Lemma apply_single_save st k kind ps st' :
  apply_entity_batch_in_transaction st k kind [ps] [] = (st', Ok tt) ->
  exists row, encrypted_entities st' !! entity_key kind (ps_id ps) = Some row /\
    er_revision row = ps_expected ps + 1 /\ er_updated_at row = ps_updated_at ps /\
    open_entity st' k kind (ps_id ps) row = Ok (ps_encoded ps).
Proof.
  unfold apply_entity_batch_in_transaction, authenticate_entity_batch, write_entity_batch_in_transaction.
  rewrite andb_false_r. simpl. unfold encrypt, write_entity. intros H.
  destruct (entity_revision st k kind (ps_id ps)) as [actual|]; [|done].
  destruct (negb _) eqn:Hne in H; [done|]. bool_prop. subst actual.
  destruct (ok_or _ _) as [next|] eqn:Hn in H; [|done]. apply ok_or_Ok, checked_add_Some in Hn as [-> _].
  destruct (revisioned_aad_id _ _ _ None) as [aad|] eqn:Haad; [|done].
  destruct (encrypt_record _ _ _ _ _ _) as [enc|] eqn:He; [|done]. simpl in H. unfold write_entity in H.
  destruct (sql_params _); [|done]. simplify_eq. eexists. split; [apply lookup_insert_eq|].
  split_and!; try done. unfold open_entity. simpl. rewrite Haad. by eapply decrypt_encrypt.
Qed.

Lemma advance_entities st k id kind actual encoded prepared now st' r :
  advance_workflow st k id kind actual encoded prepared now = (st', r) ->
  key st' = key st /\ database_id st' = database_id st /\ encrypted_entities st' = encrypted_entities st.
Proof. unfold advance_workflow, encrypt, write_workflow. intros H. by run_in H. Qed.

(** The row a one-save batch wrote with a workflow loads back. *)
Lemma save_with_single_loads {W E} `{JsonCodec W, JsonCodec E, !JsonLaws E} st id kind expected (v : W)
    prepared now ek eid er (e : E) u st' next :
  save_workflow_with_entity_batch st id kind expected v prepared now ek [mkSave eid er e u] []
    = (st', Ok next) ->
  load_entity st' ek eid = Ok (Some (mkEntity ek eid (er + 1) e u)).
Proof.
  unfold save_workflow_with_entity_batch, transaction. intros Hs.
  destruct (encode_state v); [|done].
  destruct (prepare_entity_batch _ _) as [prep|] eqn:Hp; [|done].
  destruct (unlocked st) as [k|] eqn:Hk; [|done].
  destruct (authenticated_workflow_revision _ _ _ _); [|done]. destruct (negb _) in Hs; [done|].
  destruct (apply_entity_batch_in_transaction _ _ _ _ _) as [st1 [[]|]] eqn:Hb; [|done].
  destruct (advance_workflow _ _ _ _ _ _ _ _) as [st2 [n|]] eqn:Ha; simplify_eq.
  apply advance_entities in Ha as (Hk2 & Hd2 & He2).
  unfold prepare_entity_batch in Hp. destruct (_ <? _) in Hp; [done|]. simpl in Hp.
  destruct (validate_id eid) as [[]|] eqn:Hid; [|done]. simpl in Hp.
  destruct (encode_state e) as [enc|] eqn:Henc; [|done]. simpl in Hp. simplify_eq.
  pose proof (apply_batch_only _ _ _ _ _ _ _ Hb) as [Hk1 Hd1 _ _].
  apply apply_single_save in Hb as (row & Hrow & Hr & Hu & Ho). simpl in *.
  unfold load_entity, unlocked in *. rewrite Hid, Hk2, Hk1, Hk, He2, Hrow. simpl.
  unfold open_entity in *. rewrite Hd2, Ho. simpl.
  unfold encode_state in Henc. destruct (json_to_vec e) as [b|] eqn:Hj; [|done]. simpl in Henc.
  destruct (_ || _) in Henc; [done|]. simplify_eq. by rewrite (json_roundtrip _ _ Hj), Hr.
Qed.
End SingleSave.
