(* ===== verification/SwapExecTheorems.v ===== *)
(** * The durable swap execution: guarantees

    The authority to broadcast the second lock dies with any change of the
    execution, what an operation returned is what a later load returns, the
    preimage is in the wallet before the redemption is journaled. *)

From Stdlib Require Import Strings.Byte.
From S2P Require Import Prelude Types Codec Store Swap SwapProofs SwapTheorems Terms TermsTheorems.
From S2P Require Import SwapExec SwapExecProofs StoreTheorems.

#[local] Arguments str_bytes : simpl never.
#[local] Arguments second_funding_authorization_entity_id : simpl never.
#[local] Arguments shakescape_execution_workflow_id : simpl never.
#[local] Arguments shakescape_observed_preimage_id : simpl never.
#[local] Arguments load_entity : simpl never.
#[local] Arguments save_workflow_with_entity_batch : simpl never.

Section Guarantees.
Context {senv : StoreEnv} {slaws : StoreEnvLaws} {env : TermsEnv}.
Context {session_codec : JsonCodec SwapSession} {session_laws : JsonLaws SwapSession}.
Context {auth_codec : JsonCodec PersistedSecondFundingAuthorization}.

(** ** Loading *)

Lemma load_workflow_rev {T} `{JsonCodec T} st id (stored : StoredWorkflow T) :
  load_workflow st id = Ok (Some stored) -> workflow_rev st id = wf_revision stored /\ wf_id stored = id.
Proof.
  unfold load_workflow, workflow_rev. intros Hl. destruct (unlocked st); [|done].
  destruct (workflows st !! id) as [row|]; [|done]. by run_in Hl.
Qed.

Lemma load_known_ok st network sid s :
  load_known st network sid = Ok s ->
  exists stored, load_workflow st (shakescape_execution_workflow_id sid) = Ok (Some stored) /\
    wf_state stored = s /\
    validate_shakescape_execution_record network sid (shakescape_execution_workflow_id sid) stored = Ok tt.
Proof.
  unfold load_known, load_shakescape_execution, validate_shakescape_execution, lift. intros H.
  destruct (load_workflow _ _) as [[stored|]|]; [|done..]. simpl in H. exists stored.
  destruct (validate_shakescape_execution_record _ _ _ _) as [[]|] eqn:Hv; [|done].
  simpl in H. by simplify_eq.
Qed.

Record valid_execution (network : NetworkBinding) (sid : bytes) (s : SwapSession) : Prop := {
  ve_id : sess_id s = sid;
  ve_revoked : first_funding_revoked s = true -> is_some (first_funding s) = true;
  ve_confirmed : forall g, first_funding_confirmed_generation s = Some g ->
    g <> 0 /\ g = first_funding_observation_generation s;
  ve_terms : exists terms hello, accepted_shakescape_terms s = Some terms /\
    hello_decode terms = Some hello /\ hello_encode hello = Some terms /\
    hello_swap_session_id hello = sid /\ verify_agreement hello network = true /\
    (forall a, second_funding_authorization s = Some a ->
       sess_state s = SecondFundingPending /\ second_module s = auth_module a /\
       first_funding s = Some (auth_first_funding a) /\ first_funding_revoked s = false /\
       first_funding_observation_generation s = auth_first_funding_observation_generation a /\
       first_funding_confirmed_generation s = Some (auth_first_funding_observation_generation a) /\
       second_funding s = None /\ all_zero (auth_id a) = false /\
       auth_expires_at_unix a <= header_expires_at hello);
}.

(** [validate_shakescape_execution_record] accepts exactly the rows that agree
    with their session and hold a valid execution. *)
Lemma validate_record_ok network sid wid stored :
  validate_shakescape_execution_record network sid wid stored = Ok tt ->
  wf_kind stored = WfAtomicSwap /\ wf_id stored = wid /\
  wf_revision stored = sess_revision (wf_state stored) /\
  wf_updated_at_unix stored = last_verified_at_unix (wf_state stored) /\
  valid_execution network sid (wf_state stored).
Proof.
  unfold validate_shakescape_execution_record. intros H.
  destruct (_ || _) eqn:Hb in H; [done|].
  do 6 (apply orb_false_elim in Hb as [Hb ?]). bool_prop.
  destruct (ok_or (accepted_shakescape_terms _) _) as [terms|] eqn:Ht; [|done].
  destruct (ok_or (hello_decode terms) _) as [hello|] eqn:Hd; [|done].
  destruct (_ || _) eqn:He in H; [done|]. destruct (is_some_and (second_funding_authorization _) _) eqn:Ha; [done|].
  bool_prop. split_and!; try done. split; try done.
  - intros Hr. destruct (first_funding (wf_state stored)); [done|].
    match goal with E : _ && _ = false |- _ => by rewrite Hr in E end.
  - intros g Hg. match goal with E : is_some_and (first_funding_confirmed_generation _) _ = false |- _ => rewrite Hg in E; simpl in E end.
    by bool_prop.
  - exists terms, hello. split_and!; try done. intros a Hsa. rewrite Hsa in Ha. simpl in Ha. by bool_prop.
Qed.

Lemma validate_record_accepts network sid wid s prepared :
  valid_execution network sid s ->
  validate_shakescape_execution_record network sid wid
    (mkWorkflow wid WfAtomicSwap (sess_revision s) s prepared (last_verified_at_unix s)) = Ok tt.
Proof.
  intros [Hid Hrev Hc (terms & hello & Ht & Hd & He & Hs & Hv & Ha)].
  unfold validate_shakescape_execution_record. simpl.
  rewrite !bool_decide_true by done. rewrite !N.eqb_refl. simpl.
  assert (first_funding_revoked s && is_none (first_funding s) = false) as ->.
  { destruct (first_funding_revoked s); [|done]. simpl. rewrite is_none_negb.
    by rewrite Hrev. }
  assert (is_some_and (first_funding_confirmed_generation s) (fun g => (g =? 0)
    || negb (g =? first_funding_observation_generation s)) = false) as ->.
  { destruct (first_funding_confirmed_generation s) as [g|]; [|done]. simpl.
    destruct (Hc g eq_refl) as [Hg ->]. rewrite N.eqb_refl, orb_false_r. by apply N.eqb_neq. }
  rewrite Ht. simpl. rewrite Hd. simpl. rewrite He, Hs, Hv, !bool_decide_true by done. simpl.
  destruct (second_funding_authorization s) as [a|]; [|done]. simpl.
  destruct (Ha a eq_refl) as (H1 & H2 & H3 & H4 & H5 & H6 & H7 & H8 & H9).
  rewrite H1, H2, H3, H4, H5, H6, H7, H8, !bool_decide_true by done. rewrite N.eqb_refl.
  apply N.ltb_ge in H9. simpl. by rewrite H9.
Qed.

(** What was journaled is what loads. *)
Lemma written_loads st id s' sid network k encoded st' now :
  id = shakescape_execution_workflow_id sid ->
  key st = Some k -> json_to_vec s' = Some encoded -> last_verified_at_unix s' = now ->
  workflow_written st st' k id WfAtomicSwap (sess_revision s') encoded
    (irreversible_state (sess_state s')) now ->
  valid_execution network sid s' -> load_known st' network sid = Ok s'.
Proof.
  intros -> Hk Hj <- Hw Hv. unfold load_known, load_shakescape_execution, validate_shakescape_execution.
  rewrite (load_written _ _ _ _ _ _ _ _ _ _ Hk Hj Hw). simpl.
  by rewrite validate_record_accepts.
Qed.

Lemma step_frame s ev now s' :
  step s ev now s' ->
  sess_id s' = sess_id s /\ accepted_shakescape_terms s' = accepted_shakescape_terms s /\
  last_verified_at_unix s' = now /\ hashlock s' = hashlock s.
Proof.
  intros (n & (s1 & next & H & ->)%transition_ok & _ & ->).
  apply arm_frame in H as (H1 & _ & _ & _ & _ & H3 & _ & _ & _ & H2).
  unfold finish. destruct s1; case_bool_decide; cbn in *; done.
Qed.

(** A valid execution stays valid under every step but the two the signed terms
    do not allow. *)
Lemma step_valid network sid s ev now s' :
  reachable s -> valid_execution network sid s -> step s ev now s' ->
  (forall e m, ev <> VerifiedEvidence.FirstFundingConfirmedAtGeneration e m 0) ->
  (forall a terms hello, ev = VerifiedEvidence.SecondFundingAuthorizationIssued a ->
     accepted_shakescape_terms s = Some terms -> hello_decode terms = Some hello ->
     auth_expires_at_unix a <= header_expires_at hello) ->
  valid_execution network sid s'.
Proof.
  intros Hr [Hid _ Hc (terms & hello & Ht & Hd & He & Hs & Hv & _)] Hstep Hgen Hexp.
  assert (Hr' : reachable s') by (by eapply reach_step).
  pose proof (reachable_inv _ Hr') as [_ Hc' Hrev' Ha'].
  destruct (step_frame _ _ _ _ Hstep) as (Hid' & Ht' & _ & _).
  split; [congruence|done| |].
  - intros g Hg. split; [|by destruct (Hc' g Hg)].
    destruct Hstep as (n & (s1 & next & H & ->)%transition_ok & _ & ->).
    destruct (arm_confirmed _ _ _ _ _ g H) as [(e & -> & _)|[Hg0 _]].
    + revert Hg. unfold finish. destruct s1; by case_bool_decide.
    + intros ->. by eapply Hgen.
    + by destruct (Hc g Hg0).
  - exists terms, hello. split_and!; try congruence. intros a Ha.
    destruct (Ha' a Ha). split_and!; try done.
    eapply Hexp; try done. eapply step_authorization; try done. exact (inv_authorization _ (reachable_inv _ Hr)).
Qed.

Lemma apply_in_loads st network sid s ev now st' s' :
  load_known st network sid = Ok s -> reachable s ->
  apply_in st (shakescape_execution_workflow_id sid) s ev now = (st', Ok s') ->
  (forall e m, ev <> VerifiedEvidence.FirstFundingConfirmedAtGeneration e m 0) ->
  (forall a terms hello, ev = VerifiedEvidence.SecondFundingAuthorizationIssued a ->
     accepted_shakescape_terms s = Some terms -> hello_decode terms = Some hello ->
     auth_expires_at_unix a <= header_expires_at hello) ->
  load_known st' network sid = Ok s' /\ sess_revision s' = sess_revision s + 1 /\
  step s ev now s'.
Proof.
  intros (stored & Hl & <- & Hv)%load_known_ok Hr Ha Hgen Hexp.
  apply validate_record_ok in Hv as (_ & _ & _ & _ & Hv).
  apply apply_in_ok in Ha as (Hstep & k & encoded & Hk & Hj & _ & Hw).
  split_and!; [|by apply step_revision in Hstep|done].
  destruct (step_frame _ _ _ _ Hstep) as (_ & _ & Hnow & _).
  refine (written_loads _ _ _ _ _ _ _ _ _ eq_refl Hk Hj Hnow Hw _). by eapply step_valid.
Qed.

(** C33: what an operation journaled is what the next load returns.  When a
    loaded execution of the wallet accepts evidence and the write succeeds, the
    execution loads back, after any restart, exactly as returned: the stored row
    passes every check of the loader.  Two kinds of evidence the loader would
    not accept back are excluded: a confirmation under generation zero, and an
    authorization that outlives the signed terms. *)
Theorem journaled_execution_loads st network sid s ev now st' s' :
  load_known st network sid = Ok s -> reachable s ->
  apply_in st (shakescape_execution_workflow_id sid) s ev now = (st', Ok s') ->
  (forall e m, ev <> VerifiedEvidence.FirstFundingConfirmedAtGeneration e m 0) ->
  (forall a terms hello, ev = VerifiedEvidence.SecondFundingAuthorizationIssued a ->
     accepted_shakescape_terms s = Some terms -> hello_decode terms = Some hello ->
     auth_expires_at_unix a <= header_expires_at hello) ->
  load_known st' network sid = Ok s' /\ sess_revision s' = sess_revision s + 1 /\
  step s ev now s'.
Proof. apply apply_in_loads. Qed.

(** The two stores are unlocked alike and hold the same row of a workflow. *)
Definition row_kept (id : bytes) (st st2 : WalletStore) : Prop :=
  key st2 = key st /\ database_id st2 = database_id st /\ workflows st2 !! id = workflows st !! id.

Lemma load_known_same st st2 network sid : row_kept (shakescape_execution_workflow_id sid) st st2 ->
  load_known st2 network sid = load_known st network sid.
Proof.
  intros (Hk & Hd & Hw). unfold load_known, load_shakescape_execution, load_workflow, unlocked, open_workflow.
  by rewrite Hk, Hd, Hw.
Qed.

Lemma written_refused st id s' sid network k encoded st' now :
  id = shakescape_execution_workflow_id sid ->
  key st = Some k -> json_to_vec s' = Some encoded ->
  first_funding_confirmed_generation s' = Some 0 ->
  workflow_written st st' k id WfAtomicSwap (sess_revision s') encoded
    (irreversible_state (sess_state s')) now ->
  forall st2, row_kept (shakescape_execution_workflow_id sid) st' st2 ->
  load_known st2 network sid = Err MarketError.ShakescapeDirectSwapConflict.
Proof.
  intros -> Hk Hj Hc Hw st2 Hs. rewrite (load_known_same _ _ _ _ Hs). unfold load_known, load_shakescape_execution, validate_shakescape_execution.
  rewrite (load_written _ _ _ _ _ _ _ _ _ _ Hk Hj Hw). simpl.
  unfold validate_shakescape_execution_record. simpl. rewrite Hc. simpl. by rewrite orb_true_r.
Qed.

(** A generation-scoped result of the first chain yields one piece of evidence. *)
Lemma funding_steps_at_generation s e g :
  observable_state (sess_state s) = true ->
  funding_steps s (first_module s) e (Some g) =
    Some [VerifiedEvidence.FirstFundingConfirmedAtGeneration e (first_module s) g].
Proof.
  intros Ho. unfold funding_steps, at_state. rewrite (bool_decide_true (first_module s = _)) by done. simpl.
  destruct (sess_state s); try done.
  by destruct (is_none (first_funding s)), (is_none (second_funding s)), (prefunding_failure s).
Qed.

(** C39: a confirmation under generation zero makes the execution unloadable.
    While no read of the first chain was ever begun the operation accepts a funding
    result for generation zero.  Unless it changes nothing, it journals it, and the
    loader refuses what was journaled as corrupt: at once, and in every later state
    of the unlocked store, until the row of this execution is written again. *)
Theorem generation_zero_unloadable st network sid funding now st' s' :
  apply_locally_verified_shakescape_funding_at_generation st network sid funding 0 now = (st', Ok s') ->
  st' = st \/
  first_funding_observation_generation s' = 0 /\ first_funding_confirmed_generation s' = Some 0 /\
  forall st2, row_kept (shakescape_execution_workflow_id sid) st' st2 ->
    load_known st2 network sid = Err MarketError.ShakescapeDirectSwapConflict.
Proof.
  unfold apply_locally_verified_shakescape_funding_at_generation,
    apply_locally_verified_shakescape_funding_inner. intros H.
  destruct (lift _) as [found|]; [|done]. destruct (ok_or found _) as [stored|]; [|done].
  destruct (_ || _) in H; [done|]. destruct (ok_or (accepted_shakescape_terms _) _) as [terms|]; [|done].
  destruct (ok_or (hello_decode terms) _) as [hello|]; [|done]. destruct (_ || _ || _) in H; [done|].
  destruct (verify_local_funding_against_shakescape_terms _ _); [|done]. simpl in H.
  set (s := wf_state stored) in *. set (e := funding_evidence_id funding) in *.
  destruct (_ || _) eqn:Hg in H; [done|]. bool_prop.
  destruct (negb _ && _) in H; [left; by simplify_eq|]. right.
  match goal with Hm : funding_module funding = _ |- _ => rewrite Hm in H end.
  rewrite funding_steps_at_generation in H by done. simpl in H.
  destruct (apply_in _ _ _ _ _) as [st1 [s1|]] eqn:Ha; simplify_eq/=.
  apply apply_in_ok in Ha as (Hstep & k & encoded & Hk & Hj & _ & Hw).
  destruct Hstep as (n & (s2 & next & H & ->)%transition_ok & _ & ->).
  pose proof (arm_at_generation_keeps _ _ _ _ _ _ _ H) as Ho. apply arm_at_generation in H as (_ & _ & _ & Hc).
  match type of Hw with workflow_written _ _ _ _ _ (sess_revision ?x) _ _ _ =>
    assert (first_funding_observation_generation x = 0 /\ first_funding_confirmed_generation x = Some 0) as [Ho' Hc']
      by (unfold finish; destruct s2; case_bool_decide; simpl in *; split; congruence) end.
  split_and!; [done|done|]. by eapply written_refused.
Qed.

(** ** The broadcast guard *)

Lemma guard_ok st network sid module aid now g :
  shakescape_second_funding_broadcast_guard st network sid module aid now = Ok g ->
  exists s, load_known st network sid = Ok s /\
    sess_state s = SecondFundingPending /\ first_funding_is_current s = true /\
    second_funding s = None /\
    second_funding_authorization s = Some (guard_authorization g) /\
    auth_id (guard_authorization g) = aid /\ auth_module (guard_authorization g) = module /\
    second_module s = module /\ first_funding s = Some (auth_first_funding (guard_authorization g)) /\
    now < auth_expires_at_unix (guard_authorization g) /\
    guard_execution_workflow_id g = shakescape_execution_workflow_id sid /\
    guard_execution_revision g = sess_revision s.
Proof.
  unfold shakescape_second_funding_broadcast_guard. intros H.
  destruct (load_known st network sid) as [s|] eqn:Hs; [|done].
  destruct (lift _) as [found|]; [|done]. destruct (ok_or found _) as [stored|]; [|done].
  destruct (validate_persisted_second_funding_authorization _ s) as [[]|] eqn:Hv; [|done].
  destruct (negb _) in H; [done|]. destruct (_ || _) eqn:Hg in H; [done|]. apply Ok_inj in H as <-. simpl.
  unfold validate_persisted_second_funding_authorization in Hv. destruct (_ || _) eqn:Hb in Hv; [done|].
  destruct (ok_or (first_funding s) _) as [ff|] eqn:Hff; [|done]. destruct (_ || _) eqn:Hb2 in Hv; [done|].
  destruct (load_known_ok _ _ _ _ Hs) as (wf & _ & Hwf & Hvalid).
  apply validate_record_ok in Hvalid as (_ & _ & _ & _ & [Hid _ _ _]).
  bool_prop. exists s. split_and!; try done; congruence.
Qed.

(** A broadcast guard is current authority.  The guard a chain runtime gets
    names the execution as stored, at its stored revision: the execution waits
    for the second lock, its first lock is currently proven, nothing is locked
    on the second chain yet, and the authorization it holds is the one asked
    for, for the second chain, issued for exactly the first lock on record, and
    not expired.*)
Theorem broadcast_guard_is_current st network sid module aid now g :
  shakescape_second_funding_broadcast_guard st network sid module aid now = Ok g ->
  exists s, load_known st network sid = Ok s /\
    sess_state s = SecondFundingPending /\ first_funding_is_current s = true /\
    second_funding s = None /\
    second_funding_authorization s = Some (guard_authorization g) /\
    auth_id (guard_authorization g) = aid /\ auth_module (guard_authorization g) = module /\
    second_module s = module /\ first_funding s = Some (auth_first_funding (guard_authorization g)) /\
    now < auth_expires_at_unix (guard_authorization g) /\
    guard_execution_workflow_id g = shakescape_execution_workflow_id sid /\
    guard_execution_revision g = sess_revision s /\
    workflow_rev st (shakescape_execution_workflow_id sid) = guard_execution_revision g.
Proof.
  intros H. apply guard_ok in H as (s & Hs & H). exists s. split; [done|].
  destruct (load_known_ok _ _ _ _ Hs) as (stored & Hl & <- & Hv).
  apply validate_record_ok in Hv as (_ & _ & Hrev & _ & _).
  destruct (load_workflow_rev _ _ _ Hl) as [Hw _].
  destruct H as (H1 & H2 & H3 & H4 & H5 & H6 & H7 & H8 & H9 & H10 & H11). split_and!; try done.
  congruence.
Qed.

(** Attempts to advance the execution [id], successful or not. *)
Definition attempts (st : WalletStore) (id : bytes) (ops : list (SwapSession * Evidence * N)) :
    WalletStore :=
  fold_left (fun st '(s, ev, now) => (apply_in st id s ev now).1) ops st.

Lemma attempts_frame id ops : forall st, journal_frame id st (attempts st id ops).
Proof.
  induction ops as [|[[s ev] now] ops IH]; intros st; simpl; [done|].
  destruct (apply_in st id s ev now) as [st' r] eqn:Ha. apply apply_in_frame in Ha.
  by etrans; [|apply IH].
Qed.

Lemma guard_check_fails st k g :
  guard_execution_revision g < workflow_rev st (guard_execution_workflow_id g) ->
  is_ok (check_workflow_guard st k (workflow_assertion g)) = false.
Proof.
  intros Hlt. unfold check_workflow_guard. simpl.
  destruct (authenticated_workflow_revision _ _ _ _) as [r|] eqn:Hr; [|done].
  apply authenticated_rev in Hr as ->. destruct (negb _) eqn:Hn; [done|]. bool_prop. lia.
Qed.

(** C19: a broadcast guard dies with any change of the execution.  Once a guard
    was handed out, if any evidence is journaled for the execution (a fresh
    read, a result, an invalidation, another authorization), then, whatever else
    is attempted before and after, no guarded write of the chain runtime that
    presents this guard succeeds: neither the one that checkpoints a signed
    transaction nor the one that consumes the authorization row. *)
Theorem guard_dies_with_execution_change {W E} `{JsonCodec W, JsonCodec E}
    st network sid module aid now g before s ev t st2 s' after
    id kind expected (v : W) prepared u ek (saves : list (EntityBatchSave E)) deletes gk c :
  shakescape_second_funding_broadcast_guard st network sid module aid now = Ok g ->
  apply_in (attempts st (shakescape_execution_workflow_id sid) before)
    (shakescape_execution_workflow_id sid) s ev t = (st2, Ok s') ->
  let st3 := attempts st2 (shakescape_execution_workflow_id sid) after in
  is_ok (save_workflow_with_entity_batch_and_guards st3 id kind expected v prepared u ek saves deletes
           (workflow_assertion g) gk (authorization_assertion g) c).2 = false /\
  is_ok (apply_entity_batch_with_workflow_guard_and_consumed_entity st3 ek saves deletes
           (workflow_assertion g) gk (authorization_assertion g) u).2 = false.
Proof.
  intros Hg Ha st3.
  assert (Hlt : forall k, is_ok (check_workflow_guard st3 k (workflow_assertion g)) = false).
  { intros k. apply guard_check_fails.
    apply guard_ok in Hg as (s0 & Hs0 & _ & _ & _ & _ & _ & _ & _ & _ & _ & -> & ->).
    destruct (load_known_ok _ _ _ _ Hs0) as (stored & Hl & <- & Hv).
    apply validate_record_ok in Hv as (_ & _ & Hrev & _ & _).
    destruct (load_workflow_rev _ _ _ Hl) as [Hw _].
    pose proof (jf_rev _ _ _ (attempts_frame (shakescape_execution_workflow_id sid) before st)).
    pose proof (jf_rev _ _ _ (attempts_frame (shakescape_execution_workflow_id sid) after st2)).
    apply apply_in_rev in Ha as [Ha1 Ha2]. subst st3. rewrite Hw in *. lia. }
  split.
  - destruct (is_ok _) eqn:Hok; [|done]. exfalso. apply run_is_ok in Hok as (st4 & n & Hok).
    unfold save_workflow_with_entity_batch_and_guards, transaction in Hok.
    destruct (_ || _) in Hok; [done|]. destruct (validate_id _); [|done].
    destruct (_ && _) in Hok; [done|]. destruct (_ && _) in Hok; [done|].
    destruct (encode_state v); [|done]. destruct (prepare_entity_batch saves deletes); [|done].
    destruct (unlocked st3) as [k|]; [|done].
    destruct (authenticated_workflow_revision st3 k id kind); [|done]. destruct (negb _) in Hok; [done|].
    specialize (Hlt k). by destruct (check_workflow_guard st3 k _).
  - destruct (is_ok _) eqn:Hok; [|done]. exfalso. apply run_is_ok in Hok as (st4 & n & Hok).
    unfold apply_entity_batch_with_workflow_guard_and_consumed_entity, transaction in Hok.
    destruct (_ || _) in Hok; [done|]. destruct (validate_id _); [|done].
    destruct (_ && _) in Hok; [done|]. destruct (prepare_entity_batch saves deletes); [|done].
    destruct (unlocked st3) as [k|]; [|done].
    specialize (Hlt k). by destruct (check_workflow_guard st3 k _).
Qed.

(** ** The preimage *)

Lemma rev_of_workflows st st' id : workflows st' = workflows st -> workflow_rev st' id = workflow_rev st id.
Proof. unfold workflow_rev. by intros ->. Qed.

(** The two journal writes that end the first redemption. *)
Lemma redemption_tail_frame st id s evidence now st' r :
  (let! st, s :=
     if is_none (first_redemption s)
     then apply_in st id s (VerifiedEvidence.FirstRedemptionConfirmed evidence) now
     else (st, Ok s) in
   if at_state s FirstRedeemed
   then apply_in st id s (VerifiedEvidence.SecretExtracted (hashlock s)) now
   else (st, Ok s)) = (st', r) ->
  journal_frame id st st' /\ (forall s', r = Ok s' -> hashlock s' = hashlock s).
Proof.
  intros H.
  destruct (if is_none (first_redemption s) then _ else _) as [st1 r1] eqn:H1.
  assert (journal_frame id st st1 /\ forall s1, r1 = Ok s1 -> hashlock s1 = hashlock s) as [Hf Hh].
  { destruct (is_none _); [|simplify_eq; split; [done|]; intros; by simplify_eq].
    split; [by eapply apply_in_frame|]. intros s1 ->. apply apply_in_ok in H1 as [Hs _].
    by destruct (step_frame _ _ _ _ Hs) as (_ & _ & _ & ?). }
  destruct r1 as [s1|]; [|by simplify_eq]. specialize (Hh s1 eq_refl).
  destruct (at_state s1 FirstRedeemed); [|simplify_eq; split; [done|]; intros; by simplify_eq].
  split; [etrans; [done|by eapply apply_in_frame]|]. intros s' ->. apply apply_in_ok in H as [Hs _].
  destruct (step_frame _ _ _ _ Hs) as (_ & _ & _ & ?). congruence.
Qed.

(** C20: the preimage is kept before the redemption is journaled.  Whenever the
    first-redemption operation has journaled anything, and whether or not it
    then failed or was cut short before its second write, the wallet holds the
    preimage the spend revealed, and it hashes to the hashlock of the execution;
    so the first lock stays redeemable. *)
Theorem preimage_kept_before_redemption st network sid spend now st' r :
  apply_locally_verified_shakescape_first_redemption st network sid spend now = (st', r) ->
  is_ok r = true \/
  workflow_rev st' (shakescape_execution_workflow_id sid)
    <> workflow_rev st (shakescape_execution_workflow_id sid) ->
  exists preimage s, redeem_preimage spend = Ok preimage /\ load_known st network sid = Ok s /\
    sha256 preimage = hashlock s /\
    get_secret st' (shakescape_observed_preimage_id sid) SecretKind.HtlcPreimage = Ok (Some preimage) /\
    (forall s', r = Ok s' -> hashlock s' = hashlock s).
Proof.
  unfold apply_locally_verified_shakescape_first_redemption. intros H Hw.
  destruct (load_shakescape_execution_for_local_evidence _ _ _ _) as [stored|] eqn:Hl;
    [|simplify_eq; by destruct Hw].
  assert (Hload : load_known st network sid = Ok (wf_state stored)).
  { unfold load_shakescape_execution_for_local_evidence in Hl.
    unfold load_known, load_shakescape_execution, validate_shakescape_execution.
    destruct (lift _) as [[x|]|]; [|done..]. simpl in Hl |- *.
    destruct (validate_shakescape_execution_record _ _ _ _); [|done]. by simplify_eq. }
  set (s := wf_state stored) in *.
  destruct (_ || _) in H; [simplify_eq; by destruct Hw|].
  destruct (redeem_preimage spend) as [pre|]; [|simplify_eq; by destruct Hw].
  destruct (negb _) eqn:Hhash in H; [simplify_eq; by destruct Hw|]. bool_prop.
  destruct (match first_redemption s with Some _ => _ | None => _ end); [|simplify_eq; by destruct Hw].
  destruct (lift (get_secret _ _ _)) as [secret|] eqn:Hsec; [|simplify_eq; by destruct Hw].
  destruct (match secret with Some _ => _ | None => _ end) as [st1 r1] eqn:Hput.
  exists pre, s. split; [done|]. split; [done|]. split; [done|].
  assert (Hst1 : workflows st1 = workflows st /\ (is_ok r1 = true ->
    get_secret st1 (shakescape_observed_preimage_id sid) SecretKind.HtlcPreimage = Ok (Some pre))).
  { destruct secret as [p|].
    - destruct (negb _) eqn:Hp in Hput; simplify_eq; (split; [done|]); [done|]. bool_prop. subst p.
      unfold lift in Hsec. by destruct (get_secret _ _ _); simplify_eq/=.
    - destruct (is_none _) in Hput; [|by simplify_eq].
      destruct (put_secret _ _ _ _ _) as [st2 r2] eqn:Hps. apply put_secret_cases in Hps as [Hp1 Hp2].
      injection Hput as -> <-. split; [exact Hp1|]. destruct r2 as [[]|]; [|intros [=]].
      intros _. by apply Hp2. }
  destruct Hst1 as [Hwf Hget]. destruct r1 as [[]|].
  - destruct (redemption_tail_frame _ _ _ _ _ _ _ H) as [Hf Hh].
    split; [|done]. rewrite (get_secret_frame _ _ _ _ _ Hf). by apply Hget.
  - simplify_eq. destruct Hw as [|Hw]; [done|]. by rewrite (rev_of_workflows _ _ _ Hwf) in Hw.
Qed.

(** ** Issuing an authorization *)

Context {auth_laws : JsonLaws PersistedSecondFundingAuthorization}.

(** A session journaled with an authorization leaves the row to consume. *)
Lemma journal_issued j s expected j' a :
  wallet_journal_save j s expected = (j', Ok tt) ->
  is_some (accepted_shakescape_terms s) = true -> second_funding_authorization s = Some a ->
  exists er, load_entity (journal_store j') EntityKind.SwapFundingAuthorization
    (second_funding_authorization_entity_id (sess_id s)) =
    Ok (Some (mkEntity EntityKind.SwapFundingAuthorization
      (second_funding_authorization_entity_id (sess_id s)) (er + 1)
      (persisted_second_funding_authorization s a (er + 1)) (journal_updated_at_unix j))).
Proof.
  unfold wallet_journal_save. intros H Ht Ha.
  destruct (is_none (accepted_shakescape_terms s)) eqn:Hn in H;
    [rewrite is_none_negb, Ht in Hn; discriminate|].
  destruct (negb _) in H; [done|]. destruct (lift _) as [stored|] in H; [|done].
  destruct (match stored with Some e => _ | None => _ end) as [[]|] in H; [|done].
  destruct (authorization_batch _ _ _ _) as [[saves deletes]|] eqn:Hb in H; [|done].
  unfold authorization_batch in Hb. rewrite Ha in Hb. destruct (is_some_and _ _) in Hb; [done|].
  destruct (ok_or _ _) as [issued|] eqn:Hi in Hb; [|done]. apply ok_or_Ok, checked_add_Some in Hi as [-> _].
  apply Ok_inj in Hb. injection Hb as <- <-. simpl in H.
  destruct (save_workflow_with_entity_batch _ _ _ _ _ _ _ _ _ _) as [st' [n|]] eqn:Hs; [|done].
  simpl in H. destruct (negb _) in H; [done|]. injection H as <-. eexists.
  exact (save_with_single_loads _ _ _ _ _ _ _ _ _ _ _ _ _ _ Hs).
Qed.

Lemma guard_of_row st network sid s a er u now :
  load_known st network sid = Ok s -> auth_bound s a -> second_funding_authorization s = Some a ->
  load_entity st EntityKind.SwapFundingAuthorization (second_funding_authorization_entity_id (sess_id s)) =
    Ok (Some (mkEntity EntityKind.SwapFundingAuthorization
      (second_funding_authorization_entity_id (sess_id s)) (er + 1)
      (persisted_second_funding_authorization s a (er + 1)) u)) ->
  now < auth_expires_at_unix a ->
  exists g, shakescape_second_funding_broadcast_guard st network sid (auth_module a) (auth_id a) now = Ok g /\
    guard_authorization g = a.
Proof.
  intros Hs [B1 B2 B3 B4 B5 B6 B7 B8 B9] Ha He Hnow.
  destruct (load_known_ok _ _ _ _ Hs) as (wf & _ & Hwf & Hvalid).
  apply validate_record_ok in Hvalid as (_ & _ & _ & _ & [Hid _ _ _]). rewrite Hwf in Hid.
  rewrite Hid in He. unfold shakescape_second_funding_broadcast_guard.
  rewrite Hs, He. cbn [lift map_err ok_or se_value se_revision].
  assert (validate_persisted_second_funding_authorization
    (persisted_second_funding_authorization s a (er + 1)) s = Ok tt) as ->.
  { unfold validate_persisted_second_funding_authorization.
    cbn [persisted_second_funding_authorization schema_version psa_session_id psa_execution_workflow_id
         psa_execution_revision issued_entity_revision psa_authorization].
    rewrite B2, B5, B6, Ha, !N.eqb_refl, !bool_decide_true by done. cbn [negb orb].
    replace (er + 1 =? 0) with false by (symmetry; apply N.eqb_neq; lia).
    cbn [orb ok_or]. by rewrite bool_decide_true. }
  cbn [issued_entity_revision persisted_second_funding_authorization psa_authorization].
  rewrite N.eqb_refl. cbn [negb]. unfold first_funding_is_current.
  rewrite B1, B2, B3, B4, B6, B7, !bool_decide_true by done.
  replace (auth_expires_at_unix a <=? now) with false by (symmetry; by apply N.leb_gt).
  cbn [is_some andb negb orb]. rewrite orb_true_r. cbn [andb negb orb]. by eexists.
Qed.

(** An issued authorization can be used.  After an authorization was issued
    for a loaded execution, the execution and the authorization row are both in
    the store, and until the authorization expires the broadcast guard for it is
    handed out.*)
Theorem issued_authorization_yields_guard st network sid s module aid expires now st' s' now' :
  load_known st network sid = Ok s -> reachable s ->
  issue_shakescape_second_funding_authorization st network sid module aid expires now = (st', Ok s') ->
  now' < expires ->
  load_known st' network sid = Ok s' /\
  exists g, shakescape_second_funding_broadcast_guard st' network sid module aid now' = Ok g /\
    auth_expires_at_unix (guard_authorization g) = expires.
Proof.
  intros Hs Hr H Hnow. unfold issue_shakescape_second_funding_authorization in H. rewrite Hs in H.
  destruct (_ || _) in H; [done|].
  destruct (ok_or (accepted_shakescape_terms s) _) as [terms|] eqn:Ht; [|done].
  destruct (ok_or (hello_decode terms) _) as [hello|] eqn:Hd; [|done].
  destruct (negb _) in H; [done|]. destruct (validate_shakescape_effective_refund_safety hello) as [[]|]; [|done].
  destruct (_ <? _) eqn:Hx in H; [done|]. destruct (ok_or (first_funding s) _) as [ff|]; [|done]. bool_prop.
  set (a := mkAuthorization aid module ff (first_funding_observation_generation s) expires) in *.
  assert (Hload : load_known st' network sid = Ok s' /\ sess_revision s' = sess_revision s + 1 /\
    step s (VerifiedEvidence.SecondFundingAuthorizationIssued a) now s').
  { eapply apply_in_loads; try done. intros a' terms' hello' Ha' Ht' Hd'. injection Ha' as <-.
    assert (hello' = hello) as -> by congruence. done. }
  destruct Hload as (Hload & _ & Hstep). split; [done|].
  assert (Ha : second_funding_authorization s' = Some a).
  { destruct Hstep as (n & (s1 & next & Harm & ->)%transition_ok & _ & ->).
    destruct s; unfold finish; arm Harm; done. }
  pose proof (inv_authorization _ (reachable_inv _ (reach_step _ _ _ _ Hr Hstep)) a Ha) as Hb.
  destruct (step_frame _ _ _ _ Hstep) as (_ & Hterms & _ & _).
  unfold apply_in in H. destruct (apply _ _ _ _) as [[s1 j1] [[]|]] eqn:Hap; simplify_eq.
  apply apply_ok in Hap as [_ Hj].
  apply (journal_issued _ _ _ _ a) in Hj as [er He]; [|by rewrite Hterms, Ht|done].
  destruct (guard_of_row _ _ _ _ _ _ _ now' Hload Hb Ha He) as (g & Hg & Hga); [done|].
  exists g. split; [done|]. by rewrite Hga.
Qed.
End Guarantees.

(** ** Concrete executions, for the witnesses *)

Module ToyExec.

#[global] Instance TimeoutPlan_eq_dec : EqDecision TimeoutPlan.
Proof. solve_decision. Defined.
#[global] Instance SwapSession_eq_dec : EqDecision SwapSession.
Proof. solve_decision. Defined.

Definition states : list SwapState :=
  [OfferPublished; OfferAcceptanceReceived; OfferReserved; TermsFrozen; RefundsPrepared;
   FirstFundingPending; FirstFunded; SecondFundingPending; BothFunded; FirstRedeemed;
   SecretObserved; SecondRedeemed; Completed; RefundEligible; RefundBroadcast; Refunded; Failed].
Definition modules : list ModuleId := [Handshake; Bitcoin; Ethereum].
Definition assets : list WalletAsset := [Hns; Btc; Eth].

(** The position of an element of a listing. *)
Fixpoint index {A} `{EqDecision A} (l : list A) (x : A) : nat :=
  match l with [] => O | y :: l => if bool_decide (x = y) then O else S (index l x) end.

(** A document is the number of a tuple, a byte a bit. *)
Definition amount_tuple (a : Amount) := (index assets (asset a), bu_get (base_units a)).
Definition auth_tuple (a : SecondFundingAuthorization) :=
  (auth_id a, index modules (auth_module a), auth_first_funding a,
   auth_first_funding_observation_generation a, auth_expires_at_unix a).
Definition session_tuple (s : SwapSession) :=
  ((sess_id s, sess_revision s, index states (sess_state s), index modules (first_module s),
    index modules (second_module s), amount_tuple (offered s), amount_tuple (received s)),
   (terms_id s, hashlock s, accepted_shakescape_terms s,
    (first_chain_refund_at (timeouts s), second_chain_refund_at (timeouts s),
     minimum_safety_margin (timeouts s))),
   (first_funding s, first_funding_revoked s, first_funding_observation_generation s,
    first_funding_confirmed_generation s, auth_tuple <$> second_funding_authorization s),
   (second_funding s, first_redemption s, second_redemption s, refund s, first_refund s,
    second_refund s, last_verified_at_unix s, failure_reason s)).

Definition amount_of (t : nat * N) : option Amount :=
  a ← assets !! t.1; Some (mkAmount a (mkBaseUnits t.2)).
Definition auth_of (t : bytes * nat * bytes * N * N) : option SecondFundingAuthorization :=
  let '(i, m, f, g, e) := t in m ← modules !! m; Some (mkAuthorization i m f g e).
Definition session_of (t : _) : option SwapSession :=
  let '((i, r, st, m1, m2, off, rcv), (tid, hl, terms, (t1, t2, t3)), (ff, rk, og, cg, au),
        (sf, r1, r2, rf, u1, u2, lv, fr)) := t in
  st ← states !! st; m1 ← modules !! m1; m2 ← modules !! m2;
  off ← amount_of off; rcv ← amount_of rcv;
  au ← match au with None => Some None | Some a => a ← auth_of a; Some (Some a) end;
  Some (mkSession i r st m1 m2 off rcv tid hl terms (mkTimeouts t1 t2 t3) ff rk og cg au sf r1 r2
          rf u1 u2 lv fr).

Lemma amount_roundtrip a : amount_of (amount_tuple a) = Some a.
Proof. by destruct a as [[] []]. Qed.
Lemma auth_roundtrip a : auth_of (auth_tuple a) = Some a.
Proof. by destruct a as [? [] ? ? ?]. Qed.
Lemma session_roundtrip s : session_of (session_tuple s) = Some s.
Proof.
  destruct s as [i r st m1 m2 off rcv ti hl terms [t1 t2 t3] ff rk og cg au sf r1 r2 rf u1 u2 lv fr].
  unfold session_tuple, session_of. cbn -[amount_tuple amount_of auth_tuple auth_of states modules].
  rewrite !amount_roundtrip.
  destruct st, m1, m2, au as [a|]; cbn -[auth_tuple auth_of]; rewrite ?auth_roundtrip; done.
Qed.

Definition session_json : JsonCodec SwapSession := {|
  json_to_vec s := Some (Toy.pos_bytes (encode (session_tuple s)));
  json_from_slice b := t ← decode (Toy.bytes_pos b); session_of t;
|}.
#[global] Existing Instance session_json | 100.
#[global] Instance session_json_laws : JsonLaws SwapSession.
Proof.
  split; intros v b; simpl; intros [= <-].
  - rewrite Toy.bytes_pos_bytes, decode_encode. simpl. apply session_roundtrip.
  - by destruct (encode (session_tuple v)).
Qed.

Definition persisted_tuple (p : PersistedSecondFundingAuthorization) :=
  (schema_version p, psa_session_id p, psa_execution_workflow_id p, psa_execution_revision p,
   issued_entity_revision p, auth_tuple (psa_authorization p)).
Definition persisted_json : JsonCodec PersistedSecondFundingAuthorization := {|
  json_to_vec p := Some (Toy.pos_bytes (encode (persisted_tuple p)));
  json_from_slice b :=
    t ← decode (Toy.bytes_pos b);
    let '(v, s, w, r, i, a) := t in a ← auth_of a; Some (mkPersisted v s w r i a);
|}.
#[global] Existing Instance persisted_json | 100.
#[global] Instance persisted_json_laws : JsonLaws PersistedSecondFundingAuthorization.
Proof.
  split; intros v b; simpl; intros [= <-].
  - rewrite Toy.bytes_pos_bytes, decode_encode. cbn -[auth_of auth_tuple]. rewrite auth_roundtrip. by destruct v.
  - by destruct (encode (persisted_tuple v)).
Qed.

Definition net : NetworkBinding (TermsEnv := ToyTerms.toy_terms) := tt.
Definition sid : bytes := ToyTerms.hash Byte.x01.
Definition wid : bytes := shakescape_execution_workflow_id sid.
Definition t0 : N := 600000010.
Definition frozen : result SwapSession MarketError.t := swap_session_from_accepted_hello tt 600000001.

(** The agreement's session, stored at revision 1 as opening it does. *)
Definition session0 : SwapSession :=
  match frozen with Ok s => opened s [Byte.x0f] t0 | Err _ => Trade.session0 end.
Definition store0 : WalletStore := (save_workflow Toy.store0 wid WfAtomicSwap 0 session0 false t0).1.

Definition to_first_read : list Evidence :=
  [VerifiedEvidence.RefundsValidated; VerifiedEvidence.FundingReady].
Definition to_second_funding : list Evidence :=
  to_first_read ++
  [VerifiedEvidence.FirstFundingObservationStarted Bitcoin 1;
   VerifiedEvidence.FirstFundingConfirmedAtGeneration (ToyTerms.hash Byte.x11) Bitcoin 1;
   VerifiedEvidence.SecondFundingReady].
Definition to_both_funded : list Evidence :=
  to_second_funding ++ [VerifiedEvidence.SecondFundingConfirmed (ToyTerms.hash Byte.x12)].

(** The store and the session after [evs]. *)
Definition drive (evs : list Evidence) : WalletStore * result SwapSession MarketError.t :=
  apply_each store0 wid session0 evs t0.
Definition store_at (evs : list Evidence) : WalletStore := (drive evs).1.
Definition session_at (evs : list Evidence) : SwapSession :=
  match (drive evs).2 with Ok s => s | Err _ => session0 end.

Lemma toy_session0_reachable : reachable session0.
Proof.
  unfold session0. destruct frozen as [s|e] eqn:H; [|exact SwapTheorems.session0_reachable].
  exact (agreement_reachable _ _ _ H _ _).
Qed.

Lemma apply_each_reachable evs : forall st s st' s',
  apply_each st wid s evs t0 = (st', Ok s') -> reachable s -> reachable s'.
Proof.
  induction evs as [|ev evs IH]; intros st s st' s' H Hr; cbn [apply_each] in H; [by simplify_eq|].
  destruct (apply_in st wid s ev t0) as [st1 [s1|]] eqn:Ha; [|done].
  apply apply_in_ok in Ha as [Hs _]. eapply IH; [done|]. by eapply reach_step.
Qed.

Lemma session_at_reachable evs : reachable (session_at evs).
Proof.
  unfold session_at. destruct (drive evs) as [st [s|]] eqn:H; [|apply toy_session0_reachable].
  by eapply apply_each_reachable, toy_session0_reachable.
Qed.

(** The store after [evs] loads the session after [evs]. *)
Definition loads (evs : list Evidence) : bool :=
  match load_known (store_at evs) net sid with
  | Ok s => bool_decide (s = session_at evs)
  | Err _ => false
  end.
Lemma loads_ok evs : loads evs = true -> load_known (store_at evs) net sid = Ok (session_at evs).
Proof. unfold loads. destruct (load_known _ _ _) as [s|]; [|done]. intros H. bool_prop. by subst. Qed.

Definition redeem : LocallyVerifiedSwapSpend :=
  SpendHns (NativeRedeem (ToyTerms.hash Byte.x33) 2 (ToyTerms.hash Byte.x07)).
Definition bitcoin_lock : LocallyVerifiedSwapFunding :=
  match build_shakescape_bitcoin_htlc tt Offered with
  | Ok b => FundingBitcoin (mkVerifiedBitcoinLock (ToyTerms.hash Byte.x55) 0 5000 1 (bb_htlc b))
  | Err _ => FundingHns (mkVerifiedLock Bitcoin [] [] (mkAmount Btc (mkBaseUnits 0)) [] 0 0 [])
  end.
Definition issued : WalletStore * result SwapSession MarketError.t :=
  issue_shakescape_second_funding_authorization (store_at to_second_funding) net sid Handshake
    (ToyTerms.hash Byte.x21) 600002000 t0.

(** An operation that drew randomness left another store. *)
Lemma moved {A} (p : WalletStore * A) st st' r :
  p = (st', r) -> bool_decide (draws p.1 = draws st) = false -> st' <> st.
Proof. intros -> Hd ->. rewrite bool_decide_true in Hd; [discriminate Hd|reflexivity]. Qed.
End ToyExec.

Lemma journaled_execution_loads_witness :
  exists st' s', apply_in (ToyExec.store_at ToyExec.to_first_read) ToyExec.wid
      (ToyExec.session_at ToyExec.to_first_read)
      (VerifiedEvidence.FirstFundingObservationStarted Bitcoin 1) 600000020 = (st', Ok s') /\
    load_known st' ToyExec.net ToyExec.sid = Ok s'.
Proof.
  destruct (run_is_ok (apply_in (ToyExec.store_at ToyExec.to_first_read) ToyExec.wid
      (ToyExec.session_at ToyExec.to_first_read)
      (VerifiedEvidence.FirstFundingObservationStarted Bitcoin 1) 600000020)) as (st' & s' & H);
    [vm_compute; reflexivity|].
  exists st', s'. split; [exact H|].
  apply (journaled_execution_loads (ToyExec.store_at ToyExec.to_first_read) ToyExec.net ToyExec.sid
    (ToyExec.session_at ToyExec.to_first_read)
    (VerifiedEvidence.FirstFundingObservationStarted Bitcoin 1) 600000020 st' s');
    [apply ToyExec.loads_ok; vm_compute; reflexivity|apply ToyExec.session_at_reachable|exact H
    |intros e m He; discriminate He|intros a terms hello Ha; discriminate Ha].
Defined.

Lemma generation_zero_unloadable_witness :
  exists st' s', apply_locally_verified_shakescape_funding_at_generation
      (ToyExec.store_at ToyExec.to_first_read) ToyExec.net ToyExec.sid ToyExec.bitcoin_lock 0 600000020
      = (st', Ok s') /\ load_known st' ToyExec.net ToyExec.sid = Err MarketError.ShakescapeDirectSwapConflict.
Proof.
  destruct (run_is_ok (apply_locally_verified_shakescape_funding_at_generation
      (ToyExec.store_at ToyExec.to_first_read) ToyExec.net ToyExec.sid ToyExec.bitcoin_lock 0 600000020))
    as (st' & s' & H); [vm_compute; reflexivity|].
  exists st', s'. split; [exact H|].
  destruct (generation_zero_unloadable _ _ _ _ _ _ _ H) as [Hst|(_ & _ & Herr)]; [|exact (Herr st' (conj eq_refl (conj eq_refl eq_refl)))].
  exfalso. apply (ToyExec.moved _ (ToyExec.store_at ToyExec.to_first_read) _ _ H); [vm_compute; reflexivity|exact Hst].
Defined.

Lemma issued_authorization_yields_guard_witness :
  exists st' s' g, issue_shakescape_second_funding_authorization (ToyExec.store_at ToyExec.to_second_funding)
      ToyExec.net ToyExec.sid Handshake (ToyTerms.hash Byte.x21) 600002000 ToyExec.t0 = (st', Ok s') /\
    shakescape_second_funding_broadcast_guard st' ToyExec.net ToyExec.sid Handshake (ToyTerms.hash Byte.x21)
      600001999 = Ok g.
Proof.
  destruct (run_is_ok (issue_shakescape_second_funding_authorization (ToyExec.store_at ToyExec.to_second_funding)
      ToyExec.net ToyExec.sid Handshake (ToyTerms.hash Byte.x21) 600002000 ToyExec.t0))
    as (st' & s' & H); [vm_compute; reflexivity|].
  exists st', s'.
  destruct (issued_authorization_yields_guard (ToyExec.store_at ToyExec.to_second_funding) ToyExec.net ToyExec.sid
    (ToyExec.session_at ToyExec.to_second_funding) Handshake (ToyTerms.hash Byte.x21) 600002000
    ToyExec.t0 st' s' 600001999) as (_ & g & Hg & _);
    [apply ToyExec.loads_ok; vm_compute; reflexivity|apply ToyExec.session_at_reachable|exact H
    |reflexivity|].
  exists g. split; [exact H|exact Hg].
Defined.

(** The guard of an issued authorization. *)
Notation toy_guard :=
  (shakescape_second_funding_broadcast_guard ToyExec.issued.1 ToyExec.net ToyExec.sid Handshake
    (ToyTerms.hash Byte.x21) 600001000).

Lemma broadcast_guard_is_current_witness :
  exists g s, toy_guard = Ok g /\ load_known ToyExec.issued.1 ToyExec.net ToyExec.sid = Ok s /\
    second_funding_authorization s = Some (guard_authorization g).
Proof.
  destruct (is_ok_ex toy_guard) as [g Hg]; [vm_compute; reflexivity|].
  destruct (broadcast_guard_is_current ToyExec.issued.1 ToyExec.net ToyExec.sid Handshake
    (ToyTerms.hash Byte.x21) 600001000 g Hg) as (s & Hs & _ & _ & _ & Ha & _).
  exists g, s. split; [exact Hg|]. split; [exact Hs|exact Ha].
Defined.

(** A fresh read of the first chain after the guard was handed out. *)
Definition ToyExec_session1 : SwapSession :=
  match ToyExec.issued.2 with Ok s => s | Err _ => ToyExec.session0 end.
Notation toy_reread :=
  (apply_in ToyExec.issued.1 (shakescape_execution_workflow_id ToyExec.sid) ToyExec_session1
    (VerifiedEvidence.FirstFundingObservationStarted Bitcoin 2) 600000030).

Lemma guard_dies_with_execution_change_witness :
  exists g st2 s', toy_guard = Ok g /\ toy_reread = (st2, Ok s') /\
    is_ok (apply_entity_batch_with_workflow_guard_and_consumed_entity (E := u8) st2
             EntityKind.InputReservation [] [] (workflow_assertion g)
             EntityKind.SwapFundingAuthorization (authorization_assertion g) 600000040).2 = false.
Proof.
  destruct (is_ok_ex toy_guard) as [g Hg]; [vm_compute; reflexivity|].
  destruct (run_is_ok toy_reread) as (st2 & s' & H); [vm_compute; reflexivity|].
  exists g, st2, s'. split; [exact Hg|]. split; [exact H|].
  apply (guard_dies_with_execution_change (W := u8) ToyExec.issued.1 ToyExec.net ToyExec.sid Handshake
    (ToyTerms.hash Byte.x21) 600001000 g [] ToyExec_session1
    (VerifiedEvidence.FirstFundingObservationStarted Bitcoin 2) 600000030 st2 s' []
    [] WfHnsSend 0 Byte.x00 false 600000040 EntityKind.InputReservation [] []
    EntityKind.SwapFundingAuthorization false); [exact Hg|exact H].
Defined.

(** Before the second read the same guard is accepted. *)
Example guard_accepted_while_current :
  match toy_guard with
  | Ok g => is_ok (apply_entity_batch_with_workflow_guard_and_consumed_entity (E := u8) ToyExec.issued.1
              EntityKind.InputReservation [] [] (workflow_assertion g)
              EntityKind.SwapFundingAuthorization (authorization_assertion g) 600000040).2
  | Err _ => false
  end = true.
Proof. vm_compute. reflexivity. Qed.

Lemma preimage_kept_before_redemption_witness :
  exists st' s', apply_locally_verified_shakescape_first_redemption
      (ToyExec.store_at ToyExec.to_both_funded) ToyExec.net ToyExec.sid ToyExec.redeem 600000050 = (st', Ok s') /\
    get_secret st' (shakescape_observed_preimage_id ToyExec.sid) SecretKind.HtlcPreimage
      = Ok (Some (ToyTerms.hash Byte.x07)).
Proof.
  destruct (run_is_ok (apply_locally_verified_shakescape_first_redemption
      (ToyExec.store_at ToyExec.to_both_funded) ToyExec.net ToyExec.sid ToyExec.redeem 600000050))
    as (st' & s' & H); [vm_compute; reflexivity|].
  exists st', s'. split; [exact H|].
  destruct (preimage_kept_before_redemption _ _ _ _ _ _ _ H (or_introl eq_refl))
    as (pre & s & Hp & _ & _ & Hget & _).
  injection Hp as <-. exact Hget.
Defined.
