(* ===== verification/BlockGraph.v ===== *)
(** * The tree of Bitcoin block headers

    [BlockTree] of [crates/hns-wallet-bip157/src/chain/graph.rs]: the headers the
    compact-filter client has accepted, the chain of most work among them, the
    index of that chain by height, the tips of the forks, and the flags that
    record which compact filters were committed to and checked.

    Parameters ([BitcoinEnv]): the [bitcoin] crate's headers, their hash, their
    work, and the parameters of the network.  Block and filter hashes are byte
    strings.  Accumulated work is a natural number (the crate's 256-bit [Work]
    is far from full for any chain of valid targets).

    The loops that walk from a block to its ancestors take fuel; every loop is
    called with the number of headers, which is enough because the ancestors of a
    block are distinct ([BlockGraphProofs.chain_from_complete]). *)

From S2P Require Import Prelude.

Class BitcoinEnv := {
  Header : Type;
  Header_eq_dec :: EqDecision Header;
  block_hash : Header -> bytes;
  prev_blockhash : Header -> bytes;
  bits : Header -> N;
  header_work : Header -> N;
  (* Params of the network *)
  no_pow_retargeting : bool;
  allow_min_difficulty_blocks : bool;
  difficulty_adjustment_interval : N;
  (* CompactTarget::from_header_difficulty_adjustment on that network *)
  from_header_difficulty_adjustment : Header -> Header -> N;
  genesis_header : Header;
}.

(** [HeightExt] for [u32]; the release build wraps around. *)
Definition increment (height : N) : N := if height =? U32_MAX then 0 else height + 1.
Definition from_u64_checked (height : N) : option N :=
  if height <=? U32_MAX then Some height else None.

(** [Vec::swap_remove]. *)
Definition swap_remove {A} (i : nat) (l : list A) : list A :=
  match l !! (length l - 1)%nat with
  | Some x => take (length l - 1) (<[i := x]> l)
  | None => l
  end.

Record FilterCommitment := mkCommitment { fc_header : bytes; fc_filter_hash : bytes }.

#[global] Instance FilterCommitment_eq_dec : EqDecision FilterCommitment.
Proof. solve_decision. Defined.

Record Tip := mkTip { tip_hash : bytes; tip_height : N; next_work_required : option N }.

Section BlockGraph.
Context {env : BitcoinEnv}.

Record IndexedHeader := mkIndexed { ih_height : N; ih_header : Header }.

#[global] Instance IndexedHeader_eq_dec : EqDecision IndexedHeader.
Proof. solve_decision. Defined.

Inductive HeaderRejection :=
| InvalidPow (expected got : N)
| UnknownPrevHash (hash : bytes).

Inductive AcceptHeaderChanges :=
| Accepted (connected_at : IndexedHeader)
| Duplicate
| ExtendedFork (connected_at : IndexedHeader)
| Reorganization (accepted disconnected : list IndexedHeader)
| Rejected (rejection : HeaderRejection).

Record BlockNode := mkNode {
  node_height : N;
  node_header : Header;
  acc_work : N;
  node_filter_commitment : option FilterCommitment;
  filter_checked : bool;
}.

Definition node_new (height : N) (header : Header) (work : N) : BlockNode :=
  mkNode height header work None false.
Definition with_commitment (n : BlockNode) (c : option FilterCommitment) : BlockNode :=
  mkNode (node_height n) (node_header n) (acc_work n) c (filter_checked n).
Definition with_checked (n : BlockNode) (b : bool) : BlockNode :=
  mkNode (node_height n) (node_header n) (acc_work n) (node_filter_commitment n) b.
Definition node_prev (n : BlockNode) : bytes := prev_blockhash (node_header n).

Record BlockTree := mkTree {
  canonical_hashes : gmap N bytes;
  headers : gmap bytes BlockNode;
  active_tip : Tip;
  candidate_forks : list Tip;
}.

Definition set_headers (t : BlockTree) (hs : gmap bytes BlockNode) : BlockTree :=
  mkTree (canonical_hashes t) hs (active_tip t) (candidate_forks t).
Definition set_forks (t : BlockTree) (fs : list Tip) : BlockTree :=
  mkTree (canonical_hashes t) (headers t) (active_tip t) fs.

Definition tip_from_checkpoint (height : N) (hash : bytes) : Tip := mkTip hash height None.

Definition tree_new (tip : Tip) : BlockTree := mkTree ∅ ∅ tip [].

Definition from_genesis : BlockTree :=
  tree_new (mkTip (block_hash genesis_header) 0 (Some (bits genesis_header))).

(** ** Accepting a header *)

Definition is_adjustment_multiple (height : N) : bool :=
  height mod difficulty_adjustment_interval =? 0.

Definition compute_next_work_required (t : BlockTree) (new_height : N) : option N :=
  if allow_min_difficulty_blocks then None else
  adjustment_period ← from_u64_checked difficulty_adjustment_interval;
  epoch_start ← checked_sub new_height adjustment_period;
  epoch_end ← checked_sub new_height 1;
  epoch_start_hash ← canonical_hashes t !! epoch_start;
  epoch_end_hash ← canonical_hashes t !! epoch_end;
  epoch_start_node ← headers t !! epoch_start_hash;
  epoch_end_node ← headers t !! epoch_end_hash;
  Some (from_header_difficulty_adjustment (node_header epoch_start_node) (node_header epoch_end_node)).

(** The target the next block must carry: recomputed at an adjustment height,
    otherwise the one inherited. *)
Definition next_work (t : BlockTree) (new_height : N) (inherited : option N) : option N :=
  if negb no_pow_retargeting && negb allow_min_difficulty_blocks
     && is_adjustment_multiple new_height
  then compute_next_work_required t new_height else inherited.

Definition bits_rejected (required : option N) (h : Header) : option HeaderRejection :=
  work ← required;
  if bits h =? work then None else Some (InvalidPow work (bits h)).

(** The accumulated work of a block, zero for one that is not in the tree. *)
Definition work_of (hs : gmap bytes BlockNode) (hash : bytes) : N :=
  match hs !! hash with Some n => acc_work n | None => 0 end.

(** [switch_to_fork]: walk from the new tip to the first block already on the
    canonical chain. *)
Fixpoint switch_loop (fuel : nat) (hs : gmap bytes BlockNode) (canonical : gmap N bytes)
    (curr : bytes) (connections disconnections : list IndexedHeader) :
    gmap N bytes * (list IndexedHeader * list IndexedHeader) :=
  match fuel with
  | O => (canonical, (connections, disconnections))
  | S fuel =>
      match hs !! curr with
      | None => (canonical, (connections, disconnections))
      | Some node =>
          let connections' := connections ++ [mkIndexed (node_height node) (node_header node)] in
          let canonical' := <[node_height node := curr]> canonical in
          match canonical !! node_height node with
          | Some reorged_hash =>
              if bool_decide (reorged_hash = curr)
              then (canonical, (connections, disconnections)) else
              let disconnections' :=
                match hs !! reorged_hash with
                | Some reorged =>
                    disconnections ++ [mkIndexed (node_height reorged) (node_header reorged)]
                | None => disconnections
                end in
              switch_loop fuel hs canonical' (node_prev node) connections' disconnections'
          | None => switch_loop fuel hs canonical' (node_prev node) connections' disconnections
          end
      end
  end.

Definition switch_to_fork (t : BlockTree) (new_best : Tip) :
    BlockTree * (list IndexedHeader * list IndexedHeader) :=
  let '(canonical, changes) :=
    switch_loop (size (headers t)) (headers t) (canonical_hashes t) (tip_hash new_best) [] [] in
  (mkTree canonical (headers t) (active_tip t) (candidate_forks t), changes).

(** The index of the first fork whose tip is [prev]. *)
Fixpoint fork_position (forks : list Tip) (prev : bytes) : option nat :=
  match forks with
  | [] => None
  | f :: forks =>
      if bool_decide (tip_hash f = prev) then Some O else S <$> fork_position forks prev
  end.

(** The header extends the active chain. *)
Definition extend_active (t : BlockTree) (new_header : Header) : BlockTree * AcceptHeaderChanges :=
  let new_hash := block_hash new_header in
  let prev_hash := prev_blockhash new_header in
  let new_height := increment (tip_height (active_tip t)) in
  let required := next_work t new_height (next_work_required (active_tip t)) in
  match bits_rejected required new_header with
  | Some r => (t, Rejected r)
  | None =>
      let new_work := work_of (headers t) prev_hash + header_work new_header in
      (mkTree (<[new_height := new_hash]> (canonical_hashes t))
              (<[new_hash := node_new new_height new_header new_work]> (headers t))
              (mkTip new_hash new_height required) (candidate_forks t),
       Accepted (mkIndexed new_height new_header))
  end.

(** The header extends the fork [fork] whose tip is [node]; the fork has been
    taken out of the candidates of [t]. *)
Definition extend_fork (t : BlockTree) (fork : Tip) (node : BlockNode) (new_header : Header) :
    BlockTree * AcceptHeaderChanges :=
  let new_hash := block_hash new_header in
  let new_height := increment (node_height node) in
  let required := next_work t new_height (next_work_required fork) in
  match bits_rejected required new_header with
  | Some r => (t, Rejected r)
  | None =>
      let work := acc_work node + header_work new_header in
      let new_tip := mkTip new_hash new_height required in
      let hs := <[new_hash := node_new new_height new_header work]> (headers t) in
      if work_of hs (tip_hash (active_tip t)) <? work then
        let t := mkTree (canonical_hashes t) hs new_tip (candidate_forks t ++ [active_tip t]) in
        let '(t, (accepted, disconnected)) := switch_to_fork t new_tip in
        (t, Reorganization accepted disconnected)
      else
        (mkTree (canonical_hashes t) hs (active_tip t) (candidate_forks t ++ [new_tip]),
         ExtendedFork (mkIndexed new_height new_header))
  end.

(** The header starts a fork at a block of the tree, or hangs in the air. *)
Definition new_fork (t : BlockTree) (new_header : Header) : BlockTree * AcceptHeaderChanges :=
  let new_hash := block_hash new_header in
  match headers t !! prev_blockhash new_header with
  | Some node =>
      let new_height := increment (node_height node) in
      let required := next_work t new_height (Some (bits (node_header node))) in
      match bits_rejected required new_header with
      | Some r => (t, Rejected r)
      | None =>
          let work := acc_work node + header_work new_header in
          (mkTree (canonical_hashes t)
                  (<[new_hash := node_new new_height new_header work]> (headers t))
                  (active_tip t) (candidate_forks t ++ [mkTip new_hash new_height required]),
           ExtendedFork (mkIndexed new_height new_header))
      end
  | None => (t, Rejected (UnknownPrevHash (prev_blockhash new_header)))
  end.

Definition accept_header (t : BlockTree) (new_header : Header) : BlockTree * AcceptHeaderChanges :=
  let prev_hash := prev_blockhash new_header in
  if bool_decide (tip_hash (active_tip t) = prev_hash) then extend_active t new_header else
  if is_some (headers t !! block_hash new_header) then (t, Duplicate) else
  match fork_position (candidate_forks t) prev_hash with
  | Some i =>
      match candidate_forks t !! i with
      | Some fork =>
          let t := set_forks t (swap_remove i (candidate_forks t)) in
          match headers t !! tip_hash fork with
          | Some node => extend_fork t fork node new_header
          | None => new_fork t new_header
          end
      | None => new_fork t new_header
      end
  | None => new_fork t new_header
  end.

(** ** Reading the tree *)

Definition block_hash_at_height (t : BlockTree) (height : N) : option bytes :=
  if tip_height (active_tip t) =? height then Some (tip_hash (active_tip t))
  else canonical_hashes t !! height.

Definition header_at_height (t : BlockTree) (height : N) : option Header :=
  hash ← canonical_hashes t !! height; node_header <$> headers t !! hash.

Definition height_of_hash (t : BlockTree) (hash : bytes) : option N :=
  node_height <$> headers t !! hash.

Definition height_of_hash_canonical_only (t : BlockTree) (hash : bytes) : option N :=
  height ← height_of_hash t hash;
  canonical ← block_hash_at_height t height;
  if bool_decide (canonical = hash) then Some height else None.

Definition header_at_hash (t : BlockTree) (hash : bytes) : option Header :=
  node_header <$> headers t !! hash.

Definition contains (t : BlockTree) (hash : bytes) : bool :=
  is_some (headers t !! hash) || bool_decide (tip_hash (active_tip t) = hash).

Definition filter_commitment (t : BlockTree) (hash : bytes) : option FilterCommitment :=
  n ← headers t !! hash; node_filter_commitment n.

Definition filter_hash (t : BlockTree) (hash : bytes) : option bytes :=
  fc_filter_hash <$> filter_commitment t hash.

Definition filter_hash_at_height (t : BlockTree) (height : N) : option bytes :=
  hash ← canonical_hashes t !! height; filter_hash t hash.

Definition is_filter_checked (t : BlockTree) (hash : bytes) : bool :=
  match headers t !! hash with Some n => filter_checked n | None => false end.

(** A block and its ancestors in the tree, newest first. *)
Fixpoint chain_from (fuel : nat) (hs : gmap bytes BlockNode) (curr : bytes) :
    list (bytes * BlockNode) :=
  match fuel with
  | O => []
  | S fuel =>
      match hs !! curr with
      | None => []
      | Some node => (curr, node) :: chain_from fuel hs (node_prev node)
      end
  end.

Definition active_chain (t : BlockTree) : list (bytes * BlockNode) :=
  chain_from (size (headers t)) (headers t) (tip_hash (active_tip t)).

(** [BlockNodeIterator] and [BlockHeaderIterator]. *)
Definition iter_data (t : BlockTree) : list BlockNode := (active_chain t).*2.
Definition iter_headers (t : BlockTree) : list IndexedHeader :=
  (fun n => mkIndexed (node_height n) (node_header n)) <$> iter_data t.

Definition filter_headers_synced (t : BlockTree) : bool :=
  forallb (fun n => is_some (node_filter_commitment n)) (iter_data t).
Definition filters_synced (t : BlockTree) : bool := forallb filter_checked (iter_data t).
Definition total_filters_synced (t : BlockTree) : N :=
  len (List.filter filter_checked (iter_data t)).
Definition total_filter_headers_synced (t : BlockTree) : N :=
  len (List.filter (fun n => is_some (node_filter_commitment n)) (iter_data t)).

Definition LOCATOR_INDEX : list N := [1; 2; 4; 8; 16; 32; 64; 128; 256; 512; 1024].

Fixpoint locators_loop (t : BlockTree) (index : list N) (acc : list bytes) : list bytes :=
  match index with
  | [] => acc
  | locator :: index =>
      match checked_sub (tip_height (active_tip t)) locator with
      | Some height =>
          match block_hash_at_height t height with
          | Some hash => locators_loop t index (acc ++ [hash])
          | None => acc
          end
      | None => acc
      end
  end.
Definition locators (t : BlockTree) : list bytes :=
  rev (locators_loop t LOCATOR_INDEX [tip_hash (active_tip t)]).

(** ** Filter flags *)

Definition set_commitment (t : BlockTree) (commitment : FilterCommitment) (hash : bytes) : BlockTree :=
  match headers t !! hash with
  | Some n => set_headers t (<[hash := with_commitment n (Some commitment)]> (headers t))
  | None => t
  end.

Definition check_filter (t : BlockTree) (hash : bytes) : BlockTree :=
  match headers t !! hash with
  | Some n => set_headers t (<[hash := with_checked n true]> (headers t))
  | None => t
  end.

Fixpoint assume_checked_loop (fuel : nat) (hs : gmap bytes BlockNode) (curr : bytes)
    (assumed_height : N) : gmap bytes BlockNode :=
  match fuel with
  | O => hs
  | S fuel =>
      match hs !! curr with
      | None => hs
      | Some node =>
          let hs := if node_height node <=? assumed_height
                    then <[curr := with_checked node true]> hs else hs in
          assume_checked_loop fuel hs (node_prev node) assumed_height
      end
  end.
Definition assume_checked_to (t : BlockTree) (assumed_height : N) : BlockTree :=
  set_headers t (assume_checked_loop (size (headers t)) (headers t) (tip_hash (active_tip t))
                   assumed_height).

(** [reset_all_filters]: the active chain to its end, each fork down to the
    first block that is not marked. *)
Fixpoint reset_active_loop (fuel : nat) (hs : gmap bytes BlockNode) (curr : bytes) :
    gmap bytes BlockNode :=
  match fuel with
  | O => hs
  | S fuel =>
      match hs !! curr with
      | None => hs
      | Some node => reset_active_loop fuel (<[curr := with_checked node false]> hs) (node_prev node)
      end
  end.
Fixpoint reset_fork_loop (fuel : nat) (hs : gmap bytes BlockNode) (curr : bytes) :
    gmap bytes BlockNode :=
  match fuel with
  | O => hs
  | S fuel =>
      match hs !! curr with
      | None => hs
      | Some node =>
          if negb (filter_checked node) then hs else
          reset_fork_loop fuel (<[curr := with_checked node false]> hs) (node_prev node)
      end
  end.
Definition reset_all_filters (t : BlockTree) : BlockTree :=
  let n := size (headers t) in
  let hs := reset_active_loop n (headers t) (tip_hash (active_tip t)) in
  set_headers t (fold_left (fun hs fork => reset_fork_loop n hs (tip_hash fork))
                           (candidate_forks t) hs).

(** ** The loops themselves

    One turn of each loop that follows parent links: the next state, or the
    result where the loop is left. *)

Definition walk_turn (hs : gmap bytes BlockNode) (s : bytes * list (bytes * BlockNode)) :
    bytes * list (bytes * BlockNode) + list (bytes * BlockNode) :=
  let '(curr, seen) := s in
  match hs !! curr with
  | None => inr seen
  | Some node => inl (node_prev node, seen ++ [(curr, node)])
  end.

Definition switch_turn (hs : gmap bytes BlockNode)
    (s : gmap N bytes * bytes * (list IndexedHeader * list IndexedHeader)) :
    gmap N bytes * bytes * (list IndexedHeader * list IndexedHeader)
    + gmap N bytes * (list IndexedHeader * list IndexedHeader) :=
  let '(canonical, curr, (connections, disconnections)) := s in
  match hs !! curr with
  | None => inr (canonical, (connections, disconnections))
  | Some node =>
      let reorged := canonical !! node_height node in
      if bool_decide (reorged = Some curr) then inr (canonical, (connections, disconnections)) else
      inl (<[node_height node := curr]> canonical, node_prev node,
           (connections ++ [mkIndexed (node_height node) (node_header node)],
            disconnections ++
              match (x ← reorged; hs !! x) with
              | Some old => [mkIndexed (node_height old) (node_header old)]
              | None => []
              end))
  end.

Definition assume_turn (assumed_height : N) (s : gmap bytes BlockNode * bytes) :
    gmap bytes BlockNode * bytes + gmap bytes BlockNode :=
  let '(hs, curr) := s in
  match hs !! curr with
  | None => inr hs
  | Some node =>
      inl (if node_height node <=? assumed_height then <[curr := with_checked node true]> hs else hs, node_prev node)
  end.

Definition reset_active_turn (s : gmap bytes BlockNode * bytes) : gmap bytes BlockNode * bytes + gmap bytes BlockNode :=
  let '(hs, curr) := s in
  match hs !! curr with
  | None => inr hs
  | Some node => inl (<[curr := with_checked node false]> hs, node_prev node)
  end.

Definition reset_fork_turn (s : gmap bytes BlockNode * bytes) : gmap bytes BlockNode * bytes + gmap bytes BlockNode :=
  let '(hs, curr) := s in
  match hs !! curr with
  | None => inr hs
  | Some node => if negb (filter_checked node) then inr hs else inl (<[curr := with_checked node false]> hs, node_prev node)
  end.
End BlockGraph.
