(* ===== verification/BlockGraphProofs.v ===== *)
(** * Invariant of the header tree

    Lemmas about [BlockGraph]: the chain of a block, the switch to a fork, and
    the invariant every accepted header preserves. *)

From S2P Require Import Prelude BlockGraph.

Section Chains.
Context {env : BitcoinEnv}.
Implicit Types (hs : gmap bytes BlockNode) (l : list (bytes * BlockNode)).

(** Every block is filed under its hash and hangs, one height up and with its
    work added, under the block it names: one of the tree or the start block. *)
Definition linked (start : Tip) hs : Prop :=
  forall x n, hs !! x = Some n ->
    block_hash (node_header n) = x /\
    ((node_prev n = tip_hash start /\ node_height n = tip_height start + 1 /\
      acc_work n = header_work (node_header n)) \/
     exists p, hs !! node_prev n = Some p /\ node_height n = node_height p + 1 /\
       acc_work n = acc_work p + header_work (node_header n)).

(** [l] is the block [x] with all its ancestors in the tree. *)
Inductive is_chain hs : bytes -> list (bytes * BlockNode) -> Prop :=
| chain_end x : hs !! x = None -> is_chain hs x []
| chain_step x n l : hs !! x = Some n -> is_chain hs (node_prev n) l -> is_chain hs x ((x, n) :: l).

Lemma is_chain_unique hs x l l' : is_chain hs x l -> is_chain hs x l' -> l = l'.
Proof.
  intros H. revert l'. induction H as [x Hx|x n l Hx H IH]; intros l' H'; inversion H'; simplify_eq; auto.
  f_equal. auto.
Qed.

Lemma is_chain_lookup hs x l y n : is_chain hs x l -> (y, n) ∈ l -> hs !! y = Some n.
Proof.
  induction 1 as [|x m l Hx H IH]; intros Hin; [by apply not_elem_of_nil in Hin|].
  apply elem_of_cons in Hin as [[= -> ->]|Hin]; auto.
Qed.

(** The chain of a block of a chain is a suffix of it. *)
Lemma is_chain_suffix hs x l y n :
  is_chain hs x l -> (y, n) ∈ l -> exists l1 l2, l = l1 ++ l2 /\ is_chain hs y l2.
Proof.
  induction 1 as [|x m l Hx H IH]; intros Hin; [by apply not_elem_of_nil in Hin|].
  apply elem_of_cons in Hin as [[= -> ->]|Hin].
  - exists [], ((x, m) :: l). split; [done|]. by constructor.
  - destruct (IH Hin) as (l1 & l2 & -> & ?). by exists ((x, m) :: l1), l2.
Qed.

Lemma chain_from_is_chain hs x l fuel :
  is_chain hs x l -> (length l <= fuel)%nat -> chain_from fuel hs x = l.
Proof.
  intros H. revert fuel. induction H as [x Hx|x n l Hx H IH]; intros fuel Hf; simpl in Hf.
  - destruct fuel; simpl; by rewrite ?Hx.
  - destruct fuel as [|fuel]; [lia|]. simpl. rewrite Hx, IH by lia. done.
Qed.

(** Chains only depend on the links. *)
Lemma is_chain_insert hs x l y n : is_chain hs x l -> hs !! y = None ->
  (forall z m, hs !! z = Some m -> node_prev m <> y) -> x <> y -> is_chain (<[y := n]> hs) x l.
Proof.
  intros H Hy Hno. induction H as [x Hx|x m l Hx H IH]; intros Hxy.
  - constructor. by rewrite lookup_insert_ne by done.
  - econstructor; [by rewrite lookup_insert_ne by congruence|]. eauto.
Qed.

Context (start : Tip).

(** The height of the first block of a chain. *)
Definition top l : N := match l with (_, n) :: _ => node_height n | [] => tip_height start end.

(** The block of the chain at a height. *)
Definition at_height l (h : N) (x : bytes) : Prop := exists n, (x, n) ∈ l /\ node_height n = h.

Context (hs : gmap bytes BlockNode) (Hlink : linked start hs) (Hstart : hs !! tip_hash start = None).

Lemma linked_height x n : hs !! x = Some n -> tip_height start < node_height n.
Proof.
  assert (forall k x n, hs !! x = Some n -> node_height n < k -> tip_height start < node_height n) as H.
  { intros k. induction k as [|k IH] using N.peano_ind; [lia|]. intros y m Hy Hk.
    destruct (Hlink _ _ Hy) as [_ [(_ & Hh & _)|(p & Hp & Hh & _)]]; [lia|].
    specialize (IH _ _ Hp). lia. }
  intros Hx. eapply (H (node_height n + 1)); [done|lia].
Qed.

Lemma is_chain_exists x : exists l, is_chain hs x l.
Proof.
  destruct (hs !! x) as [n|] eqn:Hx; [|exists []; by constructor].
  assert (forall k x n, hs !! x = Some n -> node_height n < k -> exists l, is_chain hs x l) as H;
    [|by apply (H (node_height n + 1) _ _ Hx); lia].
  intros k. induction k as [|k IH] using N.peano_ind; [lia|]. intros y m Hy Hk.
  destruct (Hlink _ _ Hy) as [_ [(Hp & Hh & _)|(p & Hp & Hh & _)]].
  - exists [(y, m)]. econstructor; [done|]. constructor. by rewrite Hp.
  - destruct (IH _ _ Hp) as [l Hl]; [lia|]. exists ((y, m) :: l). by econstructor.
Qed.

Lemma chain_tail x n l : hs !! x = Some n -> is_chain hs (node_prev n) l -> top l + 1 = node_height n.
Proof.
  intros Hx Hl. destruct (Hlink _ _ Hx) as [_ [(Hp & Hh & _)|(p & Hp & Hh & _)]].
  - inversion Hl; simplify_eq; simpl; [lia|]. congruence.
  - inversion Hl; simplify_eq; simpl; lia.
Qed.

Lemma chain_heights x l i y n :
  is_chain hs x l -> l !! i = Some (y, n) -> node_height n + N.of_nat i = top l.
Proof.
  intros H. revert i. induction H as [|x m l Hx H IH]; intros i Hi; [done|].
  destruct i as [|i]; simpl in *; simplify_eq; [lia|].
  rewrite <- (chain_tail _ _ _ Hx H). specialize (IH _ Hi). lia.
Qed.

Lemma chain_length x l : is_chain hs x l -> top l = tip_height start + len l.
Proof.
  unfold len. induction 1 as [|x n l Hx H IH]; simpl; [lia|].
  rewrite <- (chain_tail _ _ _ Hx H). lia.
Qed.

Lemma chain_top_le x l y n : is_chain hs x l -> (y, n) ∈ l -> node_height n <= top l.
Proof. intros H [i Hi]%list_elem_of_lookup. pose proof (chain_heights _ _ _ _ _ H Hi). lia. Qed.

Lemma chain_NoDup x l : is_chain hs x l -> NoDup l.*1.
Proof.
  intros H. apply NoDup_alt. intros i j y Hi Hj. rewrite list_lookup_fmap in Hi, Hj.
  apply fmap_Some in Hi as ([y1 n1] & Hi & ->). apply fmap_Some in Hj as ([y2 n2] & Hj & ?).
  simpl in *; subst y2.
  assert (hs !! y1 = Some n1) by (eapply is_chain_lookup; [done|]; by eapply list_elem_of_lookup_2).
  assert (hs !! y1 = Some n2) by (eapply is_chain_lookup; [done|]; by eapply list_elem_of_lookup_2).
  pose proof (chain_heights _ _ _ _ _ H Hi). pose proof (chain_heights _ _ _ _ _ H Hj).
  simplify_eq. lia.
Qed.

Lemma chain_size x l : is_chain hs x l -> (length l <= size hs)%nat.
Proof.
  intros H. rewrite <- (length_fmap fst l), <- (size_list_to_set (C := gset bytes)) by by eapply chain_NoDup.
  rewrite <- (size_dom (D := gset bytes)). apply subseteq_size. intros y Hy.
  apply elem_of_list_to_set, list_elem_of_fmap in Hy as ([z n] & -> & Hin).
  apply elem_of_dom. exists n. by eapply is_chain_lookup.
Qed.

(** The fuel of the loops is enough. *)
Lemma chain_from_complete x : is_chain hs x (chain_from (size hs) hs x).
Proof.
  destruct (is_chain_exists x) as [l Hl]. erewrite chain_from_is_chain; [done..|]. by eapply chain_size.
Qed.

Lemma at_height_unique x l h y z : is_chain hs x l -> at_height l h y -> at_height l h z -> y = z.
Proof.
  intros H (n & [i Hi]%list_elem_of_lookup & <-) (m & [j Hj]%list_elem_of_lookup & Hh).
  pose proof (chain_heights _ _ _ _ _ H Hi). pose proof (chain_heights _ _ _ _ _ H Hj).
  assert (i = j) as -> by lia. congruence.
Qed.

Lemma at_height_cons x n l h y :
  is_chain hs x ((x, n) :: l) ->
  at_height ((x, n) :: l) h y <-> (h = node_height n /\ y = x) \/ (h < node_height n /\ at_height l h y).
Proof.
  intros H. inversion H as [|? ? ? Hx Hl]; simplify_eq. pose proof (chain_tail _ _ _ Hx Hl). split.
  - intros (m & [[= -> ->]|Hin]%elem_of_cons & <-); [by left|right].
    pose proof (chain_top_le _ _ _ _ Hl Hin). split; [lia|]. by exists m.
  - intros [[-> ->]|[_ (m & Hin & <-)]]; [exists n|exists m]; (split; [|done]); set_solver.
Qed.
Lemma at_height_below x l h y : is_chain hs x l -> at_height l h y -> h <= top l.
Proof. intros H (n & Hin & <-). by eapply chain_top_le. Qed.

Lemma chain_hash_height x l y n :
  is_chain hs x l -> y ∈ l.*1 -> hs !! y = Some n -> node_height n <= top l.
Proof.
  intros H ([z m] & -> & Hin)%list_elem_of_fmap Hy.
  pose proof (is_chain_lookup _ _ _ _ _ H Hin). simplify_eq/=. by eapply chain_top_le.
Qed.

(** The block at the top height of a chain is its first. *)
Lemma at_height_top x l h y : is_chain hs x l -> at_height l h y -> top l <= h ->
  exists n l', l = (y, n) :: l' /\ x = y /\ node_height n = h.
Proof.
  intros H (n & [i Hi]%list_elem_of_lookup & <-) Hle.
  pose proof (chain_heights _ _ _ _ _ H Hi). assert (i = O) as -> by lia.
  inversion H; simplify_eq/=. eauto.
Qed.

Definition indexed_of (p : bytes * BlockNode) : IndexedHeader :=
  mkIndexed (node_height p.2) (node_header p.2).

(** The index [c] names the blocks of [l], at least up to height [b]. *)
Definition index_upto (b : N) (c : gmap N bytes) l : Prop :=
  forall h x, h <= b -> c !! h = Some x <-> at_height l h x.

Lemma index_upto_insert x n l (c c' : gmap N bytes) :
  is_chain hs x ((x, n) :: l) -> index_upto (top l) c' l ->
  (forall h, top l < h -> c' !! h = <[node_height n := x]> c !! h) ->
  index_upto (node_height n) c' ((x, n) :: l) /\ (forall h, node_height n < h -> c' !! h = c !! h).
Proof.
  intros Hch Hi Ha. inversion Hch as [|? ? ? Hx Hl]; simplify_eq.
  pose proof (chain_tail _ _ _ Hx Hl) as Ht. split.
  - intros h y Hh. rewrite at_height_cons by done.
    destruct (decide (h = node_height n)) as [->|Hne].
    + rewrite Ha, lookup_insert_eq by lia. split; [intros [= <-]; by left|].
      intros [[_ ->]|[? _]]; [done|lia].
    + pose proof (Hi h y ltac:(lia)) as ->. split; [intros ?; right; split; [lia|done]|].
      intros [[? _]|[_ ?]]; [done|done].
  - intros h Hh. rewrite Ha by lia. by rewrite lookup_insert_ne by lia.
Qed.

Lemma index_upto_weaken b b' (c c' : gmap N bytes) l : b' <= b ->
  index_upto b c l -> (forall h, h <= b' -> c' !! h = c !! h) -> index_upto b' c' l.
Proof. intros Hb Hi Hc h x Hh. rewrite Hc by done. apply Hi. lia. Qed.

Lemma top_start x l : is_chain hs x l -> top l <= tip_height start -> l = [].
Proof.
  intros H Hle. destruct H as [|x n l Hx H]; [done|]. apply linked_height in Hx. simpl in Hle. lia.
Qed.

(** Where the index has no block, the chain is over. *)
Lemma index_upto_free x l (c : gmap N bytes) h : is_chain hs x l -> top l <= h ->
  tip_height start < h -> index_upto h c l -> c !! h = None -> top l < h.
Proof.
  intros H Hle Hs Hi Hc. destruct (decide (top l = h)) as [He|]; [|lia].
  destruct l as [|[r m] l]; simpl in *; [lia|].
  assert (c !! h = Some r); [|congruence]. apply Hi; [lia|]. exists m. split; [left|done].
Qed.

(** The walk of [switch_to_fork]: it indexes the new chain and reports what
    was left and what was joined, down to the common part. *)
Lemma switch_loop_spec curr lnew : is_chain hs curr lnew ->
  forall oldtip lold (c : gmap N bytes) fuel conns disc,
  is_chain hs oldtip lold -> top lold <= top lnew -> (length lnew <= fuel)%nat ->
  index_upto (top lnew) c lold ->
  exists anew aold common c',
    lnew = anew ++ common /\ lold = aold ++ common /\
    (forall y, y ∈ anew.*1 -> y ∉ aold.*1) /\
    switch_loop fuel hs c curr conns disc
      = (c', (conns ++ (indexed_of <$> anew), disc ++ (indexed_of <$> aold))) /\
    index_upto (top lnew) c' lnew /\ (forall h, top lnew < h -> c' !! h = c !! h).
Proof.
  induction 1 as [x Hx|x n l Hx H IH]; intros oldtip lold c fuel conns disc Hold Htop Hfuel Hidx.
  - assert (lold = []) as -> by by eapply top_start.
    exists [], [], [], c. simpl. rewrite !app_nil_r. repeat split_and!; auto; [set_solver|].
    destruct fuel; simpl; by rewrite ?Hx.
  - destruct fuel as [|fuel]; simpl in Hfuel; [lia|].
    assert (Hch : is_chain hs x ((x, n) :: l)) by by constructor.
    pose proof (chain_tail _ _ _ Hx H) as Ht. cbn [top] in Htop, Hidx. cbn [switch_loop]. rewrite Hx.
    destruct (c !! node_height n) as [r|] eqn:Hr.
    + apply Hidx in Hr as Ha; [|lia].
      destruct (at_height_top _ _ _ _ Hold Ha) as (m & lold' & -> & -> & Hm); [lia|].
      case_bool_decide as Hrx.
      * subst r. assert (lold' = l) as ->.
        { inversion Hold; simplify_eq. by eapply is_chain_unique. }
        assert (m = n) as -> by (inversion Hold; congruence).
        exists [], [], ((x, n) :: l), c. simpl. rewrite !app_nil_r. repeat split_and!; auto. set_solver.
      * inversion Hold as [|? ? ? Hrm Hold']; simplify_eq. rewrite Hrm.
        pose proof (chain_tail _ _ _ Hrm Hold') as Ht'.
        destruct (IH (node_prev m) lold' (<[node_height n := x]> c) fuel
          (conns ++ [indexed_of (x, n)]) (disc ++ [indexed_of (r, m)]) Hold')
          as (anew & aold & common & c' & -> & -> & Hdis & Hrun & Hi & Ha'); [lia|lia|..].
        { intros h y Hh. rewrite lookup_insert_ne by lia.
          pose proof (Hidx h y ltac:(lia)) as ->. rewrite at_height_cons by done.
          split; [intros [[? _]|[_ ?]]; [lia|done]|intros ?; right; split; [lia|done]]. }
        destruct (index_upto_insert _ _ _ _ _ Hch Hi Ha') as [Hi2 Ha2].
        exists ((x, n) :: anew), ((r, m) :: aold), common, c'. repeat split_and!; auto.
        -- intros y [->|Hy]%elem_of_cons [Hyr|Hy']%elem_of_cons; simpl in *; [by subst| | |by eapply Hdis].
           ++ eapply chain_hash_height in Hx; [|exact Hold'|rewrite fmap_app; set_solver]. lia.
           ++ subst y. eapply chain_hash_height in Hrm; [|exact H|rewrite fmap_app; set_solver]. lia.
        -- unfold indexed_of in Hrun at 1 2. simpl in Hrun. rewrite Hrun. by rewrite <- !app_assoc.
    + assert (Hlt : top lold < node_height n).
      { eapply index_upto_free; eauto. by eapply linked_height. }
      destruct (IH oldtip lold (<[node_height n := x]> c) fuel (conns ++ [indexed_of (x, n)]) disc Hold)
        as (anew & aold & common & c' & -> & -> & Hdis & Hrun & Hi & Ha'); [lia|lia|..].
      { intros h y Hh. rewrite lookup_insert_ne by lia. apply Hidx. lia. }
      destruct (index_upto_insert _ _ _ _ _ Hch Hi Ha') as [Hi2 Ha2].
      exists ((x, n) :: anew), aold, common, c'. repeat split_and!; auto.
      * intros y [->|Hy]%elem_of_cons Hy'; simpl in *; [|by eapply Hdis].
        eapply chain_hash_height in Hx; [|exact Hold|rewrite fmap_app; set_solver]. lia.
      * unfold indexed_of in Hrun at 1. simpl in Hrun. rewrite Hrun. by rewrite <- !app_assoc.
Qed.
End Chains.

(** ** The invariant *)

(** Searching and removing forks. *)
Lemma fork_position_Some forks prev i : fork_position forks prev = Some i ->
  exists f, forks !! i = Some f /\ tip_hash f = prev.
Proof.
  revert i. induction forks as [|f forks IH]; intros i; simpl; [done|].
  case_bool_decide; [intros [= <-]; eauto|]. intros (j & Hj & ->)%fmap_Some. by apply IH.
Qed.

Lemma fork_position_None forks prev : fork_position forks prev = None ->
  forall f, f ∈ forks -> tip_hash f <> prev.
Proof.
  induction forks as [|f forks IH]; simpl; intros H g Hg; [by apply not_elem_of_nil in Hg|].
  case_bool_decide; [done|]. apply fmap_None in H. apply elem_of_cons in Hg as [->|Hg]; [done|]. by apply IH.
Qed.

Lemma swap_remove_subseteq {A} i (l : list A) x : x ∈ swap_remove i l -> x ∈ l.
Proof.
  unfold swap_remove. destruct (l !! _) as [y|] eqn:Hy; [|done].
  intros [j Hj]%list_elem_of_lookup. apply lookup_take_Some in Hj as [Hj _].
  apply list_lookup_insert_Some in Hj as [(_ & <- & _)|[_ Hj]]; by eapply list_elem_of_lookup_2.
Qed.

Lemma swap_remove_Permutation {A} i (l : list A) x : l !! i = Some x -> l ≡ₚ x :: swap_remove i l.
Proof.
  intros Hi. pose proof (lookup_lt_Some _ _ _ Hi) as Hlt. unfold swap_remove.
  destruct (l !! (length l - 1)%nat) as [y|] eqn:Hy; [|apply lookup_ge_None in Hy; lia].
  set (k := (length l - 1)%nat) in *.
  assert (Hl : l = take k l ++ [y]).
  { rewrite <- (take_drop_middle l k y Hy) at 1. f_equal. rewrite drop_ge by lia. done. }
  destruct (decide (i = k)) as [->|Hne].
  - rewrite list_insert_id by done. rewrite Hl at 1. rewrite Permutation_app_comm. simpl.
    by replace x with y by congruence.
  - rewrite take_insert_lt by lia.
    assert (Hi' : take k l !! i = Some x) by (rewrite lookup_take_lt by lia; done).
    rewrite (insert_take_drop _ _ y) by (by eapply lookup_lt_Some).
    rewrite Hl at 1. rewrite <- (take_drop_middle _ _ _ Hi') at 1.
    rewrite <- app_assoc. simpl. rewrite <- !Permutation_middle.
    by rewrite app_nil_r.
Qed.

Lemma swap_remove_submseteq {A} i (l : list A) : swap_remove i l ⊆+ l.
Proof.
  destruct (l !! i) as [x|] eqn:Hi.
  - rewrite (swap_remove_Permutation i l x Hi) at 2. apply submseteq_cons. reflexivity.
  - unfold swap_remove. destruct (l !! (length l - 1)%nat) as [y|] eqn:Hy; [|reflexivity].
    rewrite list_insert_ge by (by apply lookup_ge_None in Hi). apply sublist_submseteq, sublist_take.
Qed.

Lemma NoDup_fmap_submseteq {A B} (f : A -> B) l k : NoDup (f <$> k) -> l ⊆+ k -> NoDup (f <$> l).
Proof.
  intros Hk [m Hm]%submseteq_Permutation. rewrite Hm, fmap_app in Hk.
  eapply sublist_NoDup; [exact Hk|]. by apply sublist_inserts_r.
Qed.

Lemma swap_remove_keeps {A} i j (l : list A) x : l !! j = Some x -> j <> i -> (i < length l)%nat ->
  x ∈ swap_remove i l.
Proof.
  intros Hj Hne Hi. pose proof (lookup_lt_Some _ _ _ Hj) as Hlt. unfold swap_remove.
  destruct (l !! (length l - 1)%nat) as [y|] eqn:Hy; [|apply lookup_ge_None in Hy; lia].
  apply list_elem_of_lookup. destruct (decide (j = (length l - 1)%nat)) as [->|Hl].
  - exists i. rewrite lookup_take_lt by lia. rewrite list_lookup_insert_eq by done. congruence.
  - exists j. rewrite lookup_take_lt by lia. by rewrite list_lookup_insert_ne by done.
Qed.

Section Tree.
Context {env : BitcoinEnv} (start : Tip) (pool : list Header).
Implicit Types (t : BlockTree) (hs : gmap bytes BlockNode).

(** The blocks that descend from the start block through the headers shown. *)
Inductive descends : bytes -> Prop :=
| descends_start : descends (tip_hash start)
| descends_next h : h ∈ pool -> descends (prev_blockhash h) -> descends (block_hash h).

(** What the hash function is relied on for, of the headers a client is shown:
    two of them do not collide, and no descendant of the start block is the start
    block. *)
Record hashes_distinct : Prop := {
  no_collision : forall h h', h ∈ pool -> h' ∈ pool -> block_hash h = block_hash h' -> h = h';
  no_cycle : forall h, h ∈ pool -> descends (prev_blockhash h) -> block_hash h <> tip_hash start;
}.

Definition index_ok (c : gmap N bytes) (l : list (bytes * BlockNode)) : Prop :=
  forall h x, c !! h = Some x <-> at_height l h x.

Record tree_ok t : Prop := {
  ok_linked : linked start (headers t);
  ok_start : headers t !! tip_hash start = None;
  ok_pool : forall x n, headers t !! x = Some n -> node_header n ∈ pool;
  ok_tip : tip_hash (active_tip t) = tip_hash start \/ is_Some (headers t !! tip_hash (active_tip t));
  ok_tip_height : tip_height (active_tip t) = top start (active_chain t);
  ok_forks : forall f, f ∈ candidate_forks t -> is_Some (headers t !! tip_hash f);
  ok_tips_distinct : NoDup (tip_hash (active_tip t) :: (tip_hash <$> candidate_forks t));
  ok_leaf : forall x n, headers t !! x = Some n -> node_prev n <> tip_hash (active_tip t);
}.

Lemma tree_new_ok : tree_ok (tree_new start).
Proof.
  split; simpl.
  - intros x n. by rewrite lookup_empty.
  - done.
  - intros x n. by rewrite lookup_empty.
  - by left.
  - done.
  - intros f Hf. by apply not_elem_of_nil in Hf.
  - apply NoDup_singleton.
  - intros x n. by rewrite lookup_empty.
Qed.

(** The index names the active chain. *)
Definition tree_indexed t : Prop := index_ok (canonical_hashes t) (active_chain t).

Lemma tree_new_indexed : tree_indexed (tree_new start).
Proof.
  intros h x. unfold active_chain. simpl. rewrite lookup_empty. split; [done|].
  intros (n & Hin & _). by apply not_elem_of_nil in Hin.
Qed.

Lemma active_is_chain t : tree_ok t ->
  is_chain (headers t) (tip_hash (active_tip t)) (active_chain t).
Proof. intros Ht. eapply chain_from_complete; apply Ht. Qed.

Lemma active_chain_eq t l : tree_ok t -> is_chain (headers t) (tip_hash (active_tip t)) l ->
  active_chain t = l.
Proof. intros Ht Hl. eapply is_chain_unique; [by apply active_is_chain|done]. Qed.

(** Inserting a block whose hash is new. *)
Section Insert.
Context hs x (n : BlockNode) (Hl : linked start hs) (Hs : hs !! tip_hash start = None)
  (Hx : hs !! x = None) (Hxs : x <> tip_hash start).

Lemma fresh_no_child y m : hs !! y = Some m -> node_prev m <> x.
Proof. intros Hy <-. destruct (Hl _ _ Hy) as [_ [(? & _)|(p & ? & _)]]; congruence. Qed.

Lemma linked_insert : block_hash (node_header n) = x ->
  (node_prev n = tip_hash start /\ node_height n = tip_height start + 1 /\
   acc_work n = header_work (node_header n)) \/
  (exists p, hs !! node_prev n = Some p /\ node_height n = node_height p + 1 /\
   acc_work n = acc_work p + header_work (node_header n)) ->
  linked start (<[x := n]> hs).
Proof.
  intros Hb Hp y m [[<- <-]|[Hne Hy]]%lookup_insert_Some.
  - split; [done|]. destruct Hp as [?|(p & Hp & ?)]; [by left|right].
    exists p. rewrite lookup_insert_ne by congruence. done.
  - destruct (Hl _ _ Hy) as [? [?|(p & Hp' & ?)]]; (split; [done|]); [by left|right].
    exists p. rewrite lookup_insert_ne by congruence. done.
Qed.

Lemma chain_insert_other y l : is_chain hs y l -> y <> x -> is_chain (<[x := n]> hs) y l.
Proof. intros. by apply is_chain_insert; [| |exact fresh_no_child|]. Qed.

Lemma chain_insert_new l : is_chain hs (node_prev n) l -> node_prev n <> x ->
  is_chain (<[x := n]> hs) x ((x, n) :: l).
Proof. intros. constructor; [apply lookup_insert_eq|]. by apply chain_insert_other. Qed.
End Insert.

Lemma index_ok_upto (c : gmap N bytes) l hs x : linked start hs -> hs !! tip_hash start = None ->
  is_chain hs x l ->
  index_ok c l <-> index_upto (top start l) c l /\ (forall h, top start l < h -> c !! h = None).
Proof.
  intros Hl Hs Hc. split.
  - intros Hi. split; [intros h y _; apply Hi|]. intros h Hh.
    destruct (c !! h) as [y|] eqn:Hy; [|done]. apply Hi in Hy.
    eapply at_height_below in Hy; eauto. lia.
  - intros [Hu Hn] h y. destruct (decide (h <= top start l)); [by apply Hu|].
    rewrite Hn by lia. split; [done|]. intros Hy. eapply at_height_below in Hy; eauto. lia.
Qed.

Lemma chain_work t x n : tree_ok t -> headers t !! x = Some n -> work_of (headers t) x = acc_work n.
Proof. intros _ Hx. unfold work_of. by rewrite Hx. Qed.

Context (Hd : hashes_distinct).

Lemma tree_descends t x l : tree_ok t -> is_chain (headers t) x l -> is_Some (headers t !! x) -> descends x.
Proof.
  intros Ht Hl. induction Hl as [x Hx|x n l Hx Hl IH]; intros Hs; [by rewrite Hx in Hs; destruct Hs|].
  destruct (ok_linked _ Ht _ _ Hx) as [<- Hp]. apply descends_next; [by eapply ok_pool|].
  destruct Hp as [(Hp & _)|(p & Hp & _)]; unfold node_prev in *; [rewrite Hp; constructor|apply IH; eauto].
Qed.

(** A header that hangs under a block of the tree is not the start block. *)
Lemma fresh_not_start t h : tree_ok t -> h ∈ pool ->
  prev_blockhash h = tip_hash start \/ is_Some (headers t !! prev_blockhash h) ->
  block_hash h <> tip_hash start.
Proof.
  intros Ht Hh Hp. apply (no_cycle Hd h Hh). destruct Hp as [->|Hp]; [constructor|].
  destruct (is_chain_exists start _ (ok_linked _ Ht) (ok_start _ Ht) (prev_blockhash h)) as [l Hl].
  by eapply tree_descends.
Qed.

(** A header that extends the active chain is new. *)
Lemma fresh_extension t h : tree_ok t -> h ∈ pool -> prev_blockhash h = tip_hash (active_tip t) ->
  headers t !! block_hash h = None.
Proof.
  intros Ht Hh Hp. destruct (headers t !! block_hash h) as [n|] eqn:Hn; [|done]. exfalso.
  assert (node_header n = h) as Heq.
  { apply (no_collision Hd); [by eapply ok_pool|done|]. by apply (ok_linked _ Ht _ _ Hn). }
  apply (ok_leaf _ Ht _ _ Hn). unfold node_prev. by rewrite Heq.
Qed.

Lemma chain_top_bound t x l : tree_ok t -> is_chain (headers t) x l ->
  top start l <= tip_height start + N.of_nat (size (headers t)).
Proof.
  intros Ht Hl. rewrite (chain_length start _ (ok_linked _ Ht) (ok_start _ Ht) _ _ Hl).
  pose proof (chain_size start _ (ok_linked _ Ht) (ok_start _ Ht) _ _ Hl). unfold len. lia.
Qed.

Lemma node_height_bound t x n : tree_ok t -> headers t !! x = Some n ->
  node_height n <= tip_height start + N.of_nat (size (headers t)).
Proof.
  intros Ht Hx. destruct (is_chain_exists start _ (ok_linked _ Ht) (ok_start _ Ht) x) as [l Hl].
  pose proof (chain_top_bound _ _ _ Ht Hl). by inversion Hl; simplify_eq/=.
Qed.

Lemma increment_small k : k < U32_MAX -> increment k = k + 1.
Proof. intros Hk. unfold increment. destruct (N.eqb_spec k U32_MAX); lia. Qed.

(** The tree after a block [n] was filed under the fresh hash [x]: what holds
    whichever tip is active afterwards. *)
Lemma inserted_ok t x n c tip forks : tree_ok t ->
  headers t !! x = None -> x <> tip_hash start -> block_hash (node_header n) = x ->
  node_header n ∈ pool ->
  (node_prev n = tip_hash start /\ node_height n = tip_height start + 1 /\
   acc_work n = header_work (node_header n)) \/
  (exists p, headers t !! node_prev n = Some p /\ node_height n = node_height p + 1 /\
   acc_work n = acc_work p + header_work (node_header n)) ->
  let hs := <[x := n]> (headers t) in
  (forall f, f ∈ forks -> is_Some (hs !! tip_hash f)) ->
  (tip_hash tip = tip_hash (active_tip t) /\ node_prev n <> tip_hash (active_tip t) \/ tip_hash tip = x) ->
  tip_height tip = top start (active_chain (mkTree c hs tip forks)) ->
  NoDup (tip_hash tip :: (tip_hash <$> forks)) ->
  tree_ok (mkTree c hs tip forks).
Proof.
  intros Ht Hx Hxs Hb Hpool Hp hs Hf Htip Hth Hnd. subst hs.
  assert (node_prev n <> x) as Hnx.
  { intros He. rewrite He in Hp. destruct Hp as [(? & _)|(p & ? & _)]; congruence. }
  split; simpl; auto.
  - eapply linked_insert; eauto; apply Ht.
  - rewrite lookup_insert_ne by done. apply Ht.
  - intros y m [[<- <-]|[? Hy]]%lookup_insert_Some; [done|]. by eapply ok_pool.
  - destruct Htip as [[-> _]| ->]; [|right; rewrite lookup_insert_eq; eauto].
    destruct (ok_tip _ Ht) as [?|[m Hm]]; [by left|right]. exists m.
    rewrite lookup_insert_ne; [done|congruence].
  - intros y m [[<- <-]|[? Hy]]%lookup_insert_Some.
    + by destruct Htip as [[-> ?]| ->].
    + destruct Htip as [[-> _]| ->]; [by eapply ok_leaf|].
      eapply fresh_no_child; [apply Ht|done|done|exact Hy].
Qed.

Lemma active_chain_of t l : linked start (headers t) -> headers t !! tip_hash start = None ->
  is_chain (headers t) (tip_hash (active_tip t)) l -> active_chain t = l.
Proof. intros Hl Hs Hc. eapply is_chain_unique; [|done]. by eapply chain_from_complete. Qed.

(** The place in the tree a new header gets. *)
Definition placed t h (n : BlockNode) : Prop :=
  node_header n = h /\
  ((prev_blockhash h = tip_hash start /\ node_height n = tip_height start + 1 /\
    acc_work n = header_work h) \/
   exists p, headers t !! prev_blockhash h = Some p /\ node_height n = node_height p + 1 /\
     acc_work n = acc_work p + header_work h).

(** The chains of a tree with one more block. *)
Lemma placed_chains t h n : tree_ok t -> h ∈ pool -> placed t h n ->
  headers t !! block_hash h = None ->
  let hs := <[block_hash h := n]> (headers t) in
  linked start hs /\ hs !! tip_hash start = None /\ block_hash h <> tip_hash start /\
  block_hash h <> tip_hash (active_tip t) /\
  is_chain hs (tip_hash (active_tip t)) (active_chain t) /\
  (forall l, is_chain (headers t) (prev_blockhash h) l -> is_chain hs (block_hash h) ((block_hash h, n) :: l)).
Proof.
  intros Ht Hh [Hn Hp] Hx hs. subst h.
  assert (Hs : block_hash (node_header n) <> tip_hash start).
  { apply (fresh_not_start t); [done..|]. destruct Hp as [(? & _)|(p & ? & _)]; [by left|right; eauto]. }
  assert (block_hash (node_header n) <> tip_hash (active_tip t)) as Hnt.
  { intros He. destruct (ok_tip _ Ht) as [?|[m ?]]; congruence. }
  repeat split_and!; auto.
  - eapply linked_insert; eauto; apply Ht.
  - subst hs. rewrite lookup_insert_ne by done. apply Ht.
  - eapply chain_insert_other; eauto; [apply Ht|by apply active_is_chain].
  - intros l Hl. eapply chain_insert_new; eauto; [apply Ht|].
    unfold node_prev. intros He. rewrite He in Hp. destruct Hp as [(? & _)|(p & ? & _)]; congruence.
Qed.

Lemma fresh_not_fork t x : tree_ok t -> headers t !! x = None -> x ∉ tip_hash <$> candidate_forks t.
Proof.
  intros Ht Hx (f & -> & Hf)%list_elem_of_fmap. destruct (ok_forks _ Ht f Hf). congruence.
Qed.

(** Extending the active chain. *)
Lemma extend_active_spec t h : tree_ok t -> h ∈ pool ->
  prev_blockhash h = tip_hash (active_tip t) ->
  tip_height start + N.of_nat (size (headers t)) < U32_MAX ->
  (exists r, extend_active t h = (t, Rejected r)) \/
  exists n t' required, placed t h n /\ headers t !! block_hash h = None /\
    extend_active t h = (t', Accepted (mkIndexed (node_height n) h)) /\
    node_height n = tip_height (active_tip t) + 1 /\
    acc_work n = work_of (headers t) (tip_hash (active_tip t)) + header_work h /\
    t' = mkTree (<[node_height n := block_hash h]> (canonical_hashes t))
           (<[block_hash h := n]> (headers t)) (mkTip (block_hash h) (node_height n) required)
           (candidate_forks t) /\
    tree_ok t' /\ active_chain t' = (block_hash h, n) :: active_chain t.
Proof.
  intros Ht Hh Hp Hb. unfold extend_active.
  destruct (bits_rejected _ _) as [r|]; [left; eauto|right].
  pose proof (fresh_extension _ _ Ht Hh Hp) as Hx. pose proof (active_is_chain _ Ht) as Hl.
  pose proof (chain_top_bound _ _ _ Ht Hl) as Hle. rewrite <- (ok_tip_height _ Ht) in Hle.
  rewrite increment_small by lia.
  set (n := node_new (tip_height (active_tip t) + 1) h
              (work_of (headers t) (prev_blockhash h) + header_work h)).
  assert (Hpl : placed t h n).
  { split; [done|]. simpl. rewrite Hp, (ok_tip_height _ Ht). unfold work_of.
    inversion Hl as [? Hnone|? m l Hm Hrest]; [left|right].
    - destruct (ok_tip _ Ht) as [Hs|[? ?]]; [|congruence]. by rewrite Hnone.
    - exists m. simpl. by rewrite Hm. }
  destruct (placed_chains _ _ _ Ht Hh Hpl Hx) as (Hk & Hs & Hxs & Hxt & Ho & Hnew).
  rewrite Hp in Hnew. specialize (Hnew _ Hl).
  eexists n, _, _. do 2 (split; [done|]). split; [reflexivity|]. split; [done|].
  split; [simpl; by rewrite Hp|]. split; [reflexivity|].
  split; [|by eapply active_chain_of].
  apply inserted_ok; auto; simpl.
  - destruct Hpl as [_ Hpl]. exact Hpl.
  - intros f Hf. apply (ok_forks _ Ht) in Hf as [m Hm]. exists m. by rewrite lookup_insert_ne by congruence.
  - erewrite active_chain_of; [|exact Hk|exact Hs|exact Hnew]. done.
  - pose proof (ok_tips_distinct _ Ht) as [_ Hnd]%list.NoDup_cons.
    apply list.NoDup_cons. split; [by apply fresh_not_fork|done].
Qed.

Lemma tree_indexed_upto t : tree_ok t ->
  tree_indexed t <->
  index_upto (tip_height (active_tip t)) (canonical_hashes t) (active_chain t) /\
  (forall h, tip_height (active_tip t) < h -> canonical_hashes t !! h = None).
Proof.
  intros Ht. rewrite (ok_tip_height _ Ht).
  eapply index_ok_upto; [apply Ht|apply Ht|by apply active_is_chain].
Qed.

(** Indexing the block that extends the active chain. *)
Lemma extended_indexed t t' x n : tree_ok t -> tree_ok t' -> tree_indexed t ->
  active_chain t' = (x, n) :: active_chain t ->
  canonical_hashes t' = <[node_height n := x]> (canonical_hashes t) ->
  node_height n = tip_height (active_tip t) + 1 -> tree_indexed t'.
Proof.
  intros Ht Ht' Hi Hac Hc Hh. pose proof (active_is_chain _ Ht') as Hch.
  assert (Hth := ok_tip_height _ Ht'). rewrite Hac in Hch, Hth. simpl in Hth.
  assert (tip_hash (active_tip t') = x) as Hx by (by inversion Hch). rewrite Hx in Hch.
  apply tree_indexed_upto in Hi as [Hi Hfree]; [|done].
  apply tree_indexed_upto; [done|]. rewrite Hth, Hac, Hc.
  pose proof (ok_tip_height _ Ht) as Htt.
  destruct (index_upto_insert start _ (ok_linked _ Ht') (ok_start _ Ht') x n _ (canonical_hashes t)
    (<[node_height n := x]> (canonical_hashes t)) Hch) as [H1 H2].
  - intros k y Hk. rewrite lookup_insert_ne by lia. apply Hi. lia.
  - done.
  - split; [exact H1|]. intros k Hk. rewrite H2 by done. apply Hfree. lia.
Qed.

(** A tree with a block has a tip in it. *)
Lemma active_in_headers t x n : tree_ok t -> headers t !! x = Some n ->
  is_Some (headers t !! tip_hash (active_tip t)).
Proof.
  intros Ht Hx. destruct (ok_tip _ Ht) as [Hs|?]; [|done]. exfalso. revert Hx.
  assert (forall k x n, headers t !! x = Some n -> node_height n < k -> False) as H;
    [|intros Hx; apply (H (node_height n + 1) _ _ Hx); lia].
  intros k. induction k as [|k IH] using N.peano_ind; [lia|]. intros y m Hy Hk.
  destruct (ok_linked _ Ht _ _ Hy) as [_ [(Hp & _)|(p & Hp & Hh & _)]].
  - apply (ok_leaf _ Ht _ _ Hy). congruence.
  - eapply IH; [exact Hp|lia].
Qed.

(** A block filed beside the active chain. *)
Lemma side_block_ok t h n fs tip : tree_ok t -> h ∈ pool -> placed t h n ->
  headers t !! block_hash h = None -> prev_blockhash h <> tip_hash (active_tip t) ->
  fs ⊆+ candidate_forks t -> tip_hash tip = block_hash h ->
  let t' := mkTree (canonical_hashes t) (<[block_hash h := n]> (headers t)) (active_tip t)
              (fs ++ [tip]) in
  tree_ok t' /\ active_chain t' = active_chain t.
Proof.
  intros Ht Hh Hpl Hx Hne Hfs Htip t'.
  destruct (placed_chains _ _ _ Ht Hh Hpl Hx) as (Hk & Hs & Hxs & Hxt & Ho & _).
  assert (Hac : active_chain t' = active_chain t) by by eapply active_chain_of.
  destruct Hpl as [Hnh Hpl]. split; [|done]. unfold t' in *.
  apply inserted_ok; auto; simpl.
  - by rewrite Hnh.
  - by rewrite Hnh.
  - unfold node_prev. by rewrite Hnh.
  - intros f [Hf|Hf%list_elem_of_singleton]%elem_of_app.
    + destruct (ok_forks _ Ht f) as [m Hm]; [by eapply elem_of_submseteq|]. exists m. by rewrite lookup_insert_ne by congruence.
    + subst f. rewrite Htip, lookup_insert_eq. eauto.
  - left. split; [done|]. unfold node_prev. by rewrite Hnh.
  - rewrite Hac. apply Ht.
  - pose proof (fresh_not_fork _ _ Ht Hx) as Hnf. pose proof (ok_tips_distinct _ Ht) as [Ha Hnd]%list.NoDup_cons.
    rewrite fmap_app. simpl. rewrite Htip, (Permutation_app_comm _ [_]). simpl.
    assert (Hsub : tip_hash <$> fs ⊆+ tip_hash <$> candidate_forks t) by by apply fmap_submseteq.
    repeat (apply list.NoDup_cons; split);
      [intros [?|Hin]%elem_of_cons; [congruence|]; by eapply Ha, elem_of_submseteq
      |intros Hin; by eapply Hnf, elem_of_submseteq|by eapply NoDup_fmap_submseteq].
Qed.

Lemma switch_frame t tip : let t' := (switch_to_fork t tip).1 in
  active_tip t' = active_tip t /\ headers t' = headers t /\ candidate_forks t' = candidate_forks t.
Proof. unfold switch_to_fork. by destruct (switch_loop _ _ _ _ _ _) as [? [? ?]]. Qed.

(** A block that becomes the tip of another branch. *)
Lemma switch_ok t h n fs tip : tree_ok t -> h ∈ pool -> placed t h n ->
  headers t !! block_hash h = None -> is_Some (headers t !! prev_blockhash h) ->
  fs ⊆+ candidate_forks t -> tip_hash tip = block_hash h ->
  tip_height tip = node_height n ->
  let t' := (switch_to_fork (mkTree (canonical_hashes t) (<[block_hash h := n]> (headers t)) tip
              (fs ++ [active_tip t])) tip).1 in
  tree_ok t' /\
  exists l, is_chain (headers t) (prev_blockhash h) l /\ active_chain t' = (block_hash h, n) :: l.
Proof.
  intros Ht Hh Hpl Hx [p Hp] Hfs Htip Hth t'.
  destruct (placed_chains _ _ _ Ht Hh Hpl Hx) as (Hk & Hs & Hxs & Hxt & Ho & Hnew).
  destruct (is_chain_exists start _ (ok_linked _ Ht) (ok_start _ Ht) (prev_blockhash h)) as [l Hl].
  specialize (Hnew _ Hl).
  unfold t', switch_to_fork. destruct (switch_loop _ _ _ _ _ _) as [c' [? ?]]. simpl.
  assert (Hac : active_chain (mkTree c' (<[block_hash h := n]> (headers t)) tip (fs ++ [active_tip t]))
                 = (block_hash h, n) :: l).
  { eapply active_chain_of; [exact Hk|exact Hs|]. simpl. by rewrite Htip. }
  split; [|exists l; done]. destruct Hpl as [Hnh Hpl].
  apply inserted_ok; auto; simpl.
  - by rewrite Hnh.
  - by rewrite Hnh.
  - unfold node_prev. by rewrite Hnh.
  - intros f Hf. apply elem_of_app in Hf as [Hf|Hf%list_elem_of_singleton].
    + destruct (ok_forks _ Ht f) as [m Hm]; [by eapply elem_of_submseteq|]. exists m. by rewrite lookup_insert_ne by congruence.
    + subst f. destruct (active_in_headers _ _ _ Ht Hp) as [m Hm]. exists m.
      by rewrite lookup_insert_ne by congruence.
  - by rewrite Hac.
  - pose proof (fresh_not_fork _ _ Ht Hx) as Hnf. pose proof (ok_tips_distinct _ Ht) as [Ha Hnd]%list.NoDup_cons.
    rewrite fmap_app. simpl. rewrite Htip, (Permutation_app_comm _ [_]). simpl.
    assert (Hsub : tip_hash <$> fs ⊆+ tip_hash <$> candidate_forks t) by by apply fmap_submseteq.
    repeat (apply list.NoDup_cons; split);
      [intros [?|Hin]%elem_of_cons; [congruence|]; by eapply Hnf, elem_of_submseteq
      |intros Hin; by eapply Ha, elem_of_submseteq|by eapply NoDup_fmap_submseteq].
Qed.

(** When the new branch is at least as high as the old one, the index follows
    it and the blocks reported are those left and those joined. *)
Lemma switch_indexed t h n fs tip t' accepted disconnected :
  tree_ok t -> tree_indexed t -> h ∈ pool -> placed t h n ->
  headers t !! block_hash h = None -> is_Some (headers t !! prev_blockhash h) ->
  fs ⊆+ candidate_forks t -> tip_hash tip = block_hash h ->
  tip_height tip = node_height n -> tip_height (active_tip t) <= node_height n ->
  switch_to_fork (mkTree (canonical_hashes t) (<[block_hash h := n]> (headers t)) tip
    (fs ++ [active_tip t])) tip = (t', (accepted, disconnected)) ->
  tree_indexed t' /\
  exists anew aold common, accepted = indexed_of <$> anew /\ disconnected = indexed_of <$> aold /\
    active_chain t' = anew ++ common /\ active_chain t = aold ++ common /\
    (forall y, y ∈ anew.*1 -> y ∉ aold.*1).
Proof.
  intros Ht Hidx Hh Hpl Hx Hp Hfs Htip Hth Hgrow Hsw.
  destruct (switch_ok t h n fs tip) as [Ht' (l & Hl & Hac)]; auto. rewrite Hsw in Ht', Hac. simpl in *.
  destruct (placed_chains _ _ _ Ht Hh Hpl Hx) as (Hk & Hs & _ & _ & Ho & Hnew). specialize (Hnew _ Hl).
  apply tree_indexed_upto in Hidx as [Hi Hfree]; [|done]. pose proof (ok_tip_height _ Ht) as Htt.
  destruct (switch_loop_spec start _ Hk Hs _ _ Hnew _ _ (canonical_hashes t)
    (size (<[block_hash h := n]> (headers t))) [] [] Ho)
    as (anew & aold & common & c' & Hln & Hlo & Hdis & Hrun & Hi' & Ha').
  { simpl. lia. }
  { by eapply (chain_size start _ Hk Hs). }
  { intros k y Hky. destruct (decide (k <= tip_height (active_tip t))); [by apply Hi|].
    rewrite Hfree by lia. split; [done|]. intros Hy. eapply at_height_below in Hy; eauto. lia. }
  unfold switch_to_fork in Hsw. rewrite Htip in Hsw. simpl in Hsw, Hrun. rewrite Hrun in Hsw.
  injection Hsw as <- <- <-. split.
  - apply tree_indexed_upto; [done|]. rewrite Hac. simpl. rewrite Hth. simpl in Hi', Ha'.
    split; [done|]. intros k Hky. rewrite Ha' by done. apply Hfree. lia.
  - exists anew, aold, common. rewrite Hac. auto.
Qed.

Lemma set_forks_ok t fs : tree_ok t -> fs ⊆+ candidate_forks t -> tree_ok (set_forks t fs).
Proof.
  intros Ht Hf. split; try apply Ht.
  - intros f Hin. apply (ok_forks _ Ht). by eapply elem_of_submseteq.
  - pose proof (ok_tips_distinct _ Ht) as [Ha Hnd]%list.NoDup_cons. apply list.NoDup_cons.
    split; [|by eapply NoDup_fmap_submseteq]. intros Hin. eapply Ha, elem_of_submseteq; [done|].
    by apply fmap_submseteq.
Qed.

(** Which of its cases [accept_header] takes. *)
Lemma accept_header_cases t h : tree_ok t ->
  (prev_blockhash h = tip_hash (active_tip t) /\ accept_header t h = extend_active t h) \/
  prev_blockhash h <> tip_hash (active_tip t) /\
  ((is_Some (headers t !! block_hash h) /\ accept_header t h = (t, Duplicate)) \/
   headers t !! block_hash h = None /\
   ((exists i f node, candidate_forks t !! i = Some f /\ tip_hash f = prev_blockhash h /\
       headers t !! prev_blockhash h = Some node /\
       accept_header t h
         = extend_fork (set_forks t (swap_remove i (candidate_forks t))) f node h) \/
    (forall f, f ∈ candidate_forks t -> tip_hash f <> prev_blockhash h) /\
    accept_header t h = new_fork t h)).
Proof.
  intros Ht. unfold accept_header. case_bool_decide as Htip; [left; by rewrite Htip|right].
  split; [congruence|].
  destruct (headers t !! block_hash h) as [m|] eqn:Hm; simpl; [left; eauto|right; split; [done|]].
  destruct (fork_position _ _) as [i|] eqn:Hi.
  - apply fork_position_Some in Hi as (f & Hf & Hfh). rewrite Hf. cbn [set_forks headers].
    destruct (ok_forks _ Ht f) as [node Hnode]; [by eapply list_elem_of_lookup_2|].
    rewrite Hnode. left. exists i, f, node. rewrite <- Hfh. done.
  - right. split; [|done]. by apply fork_position_None.
Qed.

(** A header that hangs under a block of the tree. *)
Lemma placed_under t h p : tree_ok t -> headers t !! prev_blockhash h = Some p ->
  tip_height start + N.of_nat (size (headers t)) < U32_MAX ->
  placed t h (node_new (increment (node_height p)) h (acc_work p + header_work h)) /\
  increment (node_height p) = node_height p + 1.
Proof.
  intros Ht Hp Hb. pose proof (node_height_bound _ _ _ Ht Hp). rewrite increment_small by lia.
  split; [|done]. split; [done|]. right. exists p. done.
Qed.

(** What extending a fork does: the header is refused, or the fork stays a
    fork, or it has more work than the active chain and replaces it. *)
Lemma extend_fork_cases t i f p h : tree_ok t -> h ∈ pool ->
  headers t !! block_hash h = None -> prev_blockhash h <> tip_hash (active_tip t) ->
  candidate_forks t !! i = Some f -> tip_hash f = prev_blockhash h ->
  headers t !! prev_blockhash h = Some p ->
  tip_height start + N.of_nat (size (headers t)) < U32_MAX ->
  let t0 := set_forks t (swap_remove i (candidate_forks t)) in
  let n := node_new (node_height p + 1) h (acc_work p + header_work h) in
  let hs := <[block_hash h := n]> (headers t) in
  let required := next_work t0 (node_height p + 1) (next_work_required f) in
  let tip := mkTip (block_hash h) (node_height p + 1) required in
  (exists r, bits_rejected required h = Some r /\ extend_fork t0 f p h = (t0, Rejected r)) \/
  bits_rejected required h = None /\
  (acc_work n <= work_of (headers t) (tip_hash (active_tip t)) /\
   extend_fork t0 f p h
     = (mkTree (canonical_hashes t) hs (active_tip t) (candidate_forks t0 ++ [tip]),
        ExtendedFork (mkIndexed (node_height p + 1) h)) \/
   work_of (headers t) (tip_hash (active_tip t)) < acc_work n /\
   exists accepted disconnected,
     extend_fork t0 f p h
       = ((switch_to_fork (mkTree (canonical_hashes t) hs tip (candidate_forks t0 ++ [active_tip t])) tip).1,
          Reorganization accepted disconnected) /\
     (switch_to_fork (mkTree (canonical_hashes t) hs tip (candidate_forks t0 ++ [active_tip t])) tip).2
       = (accepted, disconnected)).
Proof.
  intros Ht Hh Hx Hne Hi Hf Hp Hb t0 n hs required tip.
  destruct (placed_under _ _ _ Ht Hp Hb) as [Hpl Hinc]. rewrite Hinc in Hpl.
  destruct (placed_chains _ _ _ Ht Hh Hpl Hx) as (_ & _ & _ & Hxt & _).
  unfold extend_fork. rewrite Hinc. fold required.
  destruct (bits_rejected required h) as [r|]; [left; by exists r|right; split; [done|]].
  assert (Hw : work_of (<[block_hash h := node_new (node_height p + 1) h (acc_work p + header_work h)]>
                 (headers t0)) (tip_hash (active_tip t0)) = work_of (headers t) (tip_hash (active_tip t))).
  { unfold work_of. simpl. by rewrite lookup_insert_ne by done. }
  rewrite Hw. destruct (N.ltb_spec (work_of (headers t) (tip_hash (active_tip t)))
                          (acc_work p + header_work h)) as [Hlt|Hge].
  - right. split; [done|].
    assert (Hq : forall q : BlockTree * (list IndexedHeader * list IndexedHeader),
      (let '(t, (accepted, disconnected)) := q in (t, Reorganization accepted disconnected))
      = (q.1, Reorganization q.2.1 q.2.2)) by by intros [? [? ?]].
    rewrite Hq. eexists _, _. split; [reflexivity|]. apply surjective_pairing.
  - left. done.
Qed.

Lemma accept_header_ok t h : tree_ok t -> h ∈ pool ->
  tip_height start + N.of_nat (size (headers t)) < U32_MAX ->
  tree_ok (accept_header t h).1 /\
  (tree_indexed t -> tip_height (active_tip t) <= tip_height (active_tip (accept_header t h).1) ->
   tree_indexed (accept_header t h).1).
Proof.
  intros Ht Hh Hb.
  destruct (accept_header_cases t h Ht) as [[Hp Heq]|[Hp [[_ Heq]|[Hx [Hfork|[_ Heq]]]]]].
  - rewrite Heq. destruct (extend_active_spec t h Ht Hh Hp Hb)
      as [[r ->]|(n & t' & req & _ & _ & -> & Hn & _ & Ht' & Hok & Hac)]; simpl; [done|].
    split; [done|]. intros Hi _. eapply (extended_indexed t t'); [done|done|done|exact Hac|by rewrite Ht'|exact Hn].
  - by rewrite Heq.
  - destruct Hfork as (i & f & p & Hi & Hf & Hpn & Heq). rewrite Heq.
    destruct (placed_under _ _ _ Ht Hpn Hb) as [Hpl Hinc]. rewrite Hinc in Hpl.
    pose proof (swap_remove_submseteq i (candidate_forks t)) as Hsub.
    destruct (extend_fork_cases t i f p h) as [(r & _ & He)|[_ [[_ He]|(_ & acc & dis & He & Hsw)]]]; auto;
      rewrite He; simpl.
    + split; [by apply set_forks_ok|done].
    + match goal with |- context [mkTree _ _ _ (?fs ++ [?tip])] =>
        destruct (side_block_ok t h _ fs tip Ht Hh Hpl Hx Hp Hsub eq_refl) as [Hok Hac] end.
      split; [exact Hok|].
      intros Hidx _ k x. rewrite Hac. apply Hidx.
    + split; [by apply (switch_ok t h _ _ _); eauto|].
      rewrite (proj1 (switch_frame _ _)). simpl. intros Hidx Hgrow.
      eapply (switch_indexed t h); [done|done|done|exact Hpl|done|eauto|exact Hsub|..|
        rewrite (surjective_pairing (switch_to_fork _ _)); f_equal; exact Hsw]; done.
  - rewrite Heq. unfold new_fork. destruct (headers t !! prev_blockhash h) as [p|] eqn:Hpn; [|done].
    destruct (bits_rejected _ _) as [r|]; [done|]. simpl.
    destruct (placed_under _ _ _ Ht Hpn Hb) as [Hpl Hinc].
    destruct (side_block_ok t h _ (candidate_forks t)
      (mkTip (block_hash h) (increment (node_height p))
         (next_work t (increment (node_height p)) (Some (bits (node_header p)))))
      Ht Hh Hpl Hx Hp (reflexivity _) eq_refl) as [Hok Hac].
    split; [exact Hok|]. intros Hidx _ k x. rewrite Hac. apply Hidx.
Qed.

Lemma accept_header_size t h :
  (size (headers (accept_header t h).1) <= S (size (headers t)))%nat.
Proof.
  assert (Hins : forall x n, (size (<[x := n]> (headers t)) <= S (size (headers t)))%nat).
  { intros x n. destruct (headers t !! x) eqn:Hx.
    - rewrite map_size_insert_Some by done. lia.
    - rewrite map_size_insert_None by done. lia. }
  unfold accept_header, extend_active, extend_fork, new_fork.
  repeat (case_match; simplify_eq/=; auto).
  match goal with H : switch_to_fork ?t1 ?tip = _ |- _ =>
    pose proof (switch_frame t1 tip) as (_ & Hh & _); rewrite H in Hh end.
  simpl in Hh. rewrite Hh. apply Hins.
Qed.
End Tree.

(** ** Flags

    Commitments and check marks change, links do not. *)

Section Flags.
Context {env : BitcoinEnv}.
Implicit Types (hs : gmap bytes BlockNode) (t : BlockTree).

Definition same_block (n m : BlockNode) : Prop :=
  node_height m = node_height n /\ node_header m = node_header n /\ acc_work m = acc_work n.

Definition same_links hs hs' : Prop := forall x, option_Forall2 same_block (hs !! x) (hs' !! x).

#[global] Instance same_block_equiv : Equivalence same_block.
Proof.
  split.
  - intros n. done.
  - intros n m (? & ? & ?). done.
  - intros n m k (? & ? & ?) (? & ? & ?). split_and!; congruence.
Qed.

#[global] Instance same_links_equiv : Equivalence same_links.
Proof.
  split.
  - intros hs x. by destruct (hs !! x); constructor.
  - intros hs hs' H x. specialize (H x). inversion H; constructor. by symmetry.
  - intros hs1 hs2 hs3 H1 H2 x. specialize (H1 x). specialize (H2 x).
    inversion H1; inversion H2; simplify_eq; try congruence; constructor; try congruence.
    etrans; [done|]. congruence.
Qed.

Lemma same_links_insert hs x n m : hs !! x = Some n -> same_block n m -> same_links hs (<[x := m]> hs).
Proof.
  intros Hx Hs y. destruct (decide (x = y)) as [<-|Hne].
  - rewrite Hx, lookup_insert_eq. by constructor.
  - rewrite lookup_insert_ne by done. by destruct (hs !! y); constructor.
Qed.

Lemma same_links_lookup hs hs' x n : same_links hs hs' -> hs !! x = Some n ->
  exists m, hs' !! x = Some m /\ same_block n m.
Proof. intros H Hx. specialize (H x). rewrite Hx in H. inversion H; simplify_eq. eauto. Qed.

Lemma same_links_None hs hs' x : same_links hs hs' -> hs !! x = None -> hs' !! x = None.
Proof. intros H Hx. specialize (H x). rewrite Hx in H. by inversion H. Qed.

Lemma same_block_prev n m : same_block n m -> node_prev m = node_prev n.
Proof. intros (_ & H & _). unfold node_prev. by rewrite H. Qed.

Lemma is_chain_same hs hs' x l : same_links hs hs' -> is_chain hs x l ->
  exists l', is_chain hs' x l' /\ Forall2 (fun p q => q.1 = p.1 /\ same_block p.2 q.2) l l'.
Proof.
  intros Hs. induction 1 as [x Hx|x n l Hx H (l' & Hl' & Hf)].
  - exists []. split; [|constructor]. constructor. by eapply same_links_None.
  - destruct (same_links_lookup _ _ _ _ Hs Hx) as (m & Hm & Hb). exists ((x, m) :: l').
    split; [|by constructor]. econstructor; [done|]. by rewrite (same_block_prev _ _ Hb).
Qed.

Lemma same_hashes (l l' : list (bytes * BlockNode)) :
  Forall2 (fun p q => q.1 = p.1 /\ same_block p.2 q.2) l l' -> l'.*1 = l.*1.
Proof. induction 1 as [|p q l l' [Hq _] _ IH]; [done|]. by rewrite !fmap_cons, Hq, IH. Qed.

Lemma linked_same start hs hs' : same_links hs hs' -> linked start hs -> linked start hs'.
Proof.
  intros Hs Hl x m Hx. symmetry in Hs.
  destruct (same_links_lookup _ _ _ _ Hs Hx) as (n & Hn & (Hh & He & Hw)).
  destruct (Hl _ _ Hn) as [Hb Hp]. unfold node_prev in *. rewrite He, Hh, Hw in *.
  split; [done|]. destruct Hp as [?|(p & Hp & ? & ?)]; [by left|right]. symmetry in Hs.
  destruct (same_links_lookup _ _ _ _ Hs Hp) as (q & Hq & (Hqh & _ & Hqw)). exists q.
  rewrite Hqh, Hqw. done.
Qed.

Lemma tree_ok_same start pool t hs' : same_links (headers t) hs' -> tree_ok start pool t ->
  tree_ok start pool (set_headers t hs') /\
  Forall2 (fun p q => q.1 = p.1 /\ same_block p.2 q.2) (active_chain t) (active_chain (set_headers t hs')).
Proof.
  intros Hs Ht.
  destruct (is_chain_same _ _ _ _ Hs (active_is_chain _ _ _ Ht)) as (l' & Hl' & Hf).
  assert (Hac : active_chain (set_headers t hs') = l').
  { eapply active_chain_of; simpl; [by eapply linked_same; [|apply Ht]|
      by eapply same_links_None; [|apply Ht]|done]. }
  rewrite Hac. split; [|done]. split; simpl.
  - eapply linked_same; [done|apply Ht].
  - eapply same_links_None; [done|apply Ht].
  - intros x m Hx. symmetry in Hs. destruct (same_links_lookup _ _ _ _ Hs Hx) as (n & Hn & (_ & <- & _)).
    by eapply ok_pool.
  - destruct (ok_tip _ _ _ Ht) as [?|[n Hn]]; [by left|right].
    destruct (same_links_lookup _ _ _ _ Hs Hn) as (m & Hm & _). eauto.
  - rewrite (ok_tip_height _ _ _ Ht), Hac. destruct Hf as [|[x n] [y m] l l' [_ (Hh & _)]]; simpl; auto.
  - intros f Hf'. destruct (ok_forks _ _ _ Ht f Hf') as [n Hn].
    destruct (same_links_lookup _ _ _ _ Hs Hn) as (m & Hm & _). eauto.
  - apply Ht.
  - intros x m Hx. symmetry in Hs. destruct (same_links_lookup _ _ _ _ Hs Hx) as (n & Hn & Hb).
    rewrite <- (same_block_prev _ _ Hb). by eapply ok_leaf.
Qed.

(** Loops that take marks away. *)
Definition unchecked_at hs x : Prop := exists n, hs !! x = Some n /\ filter_checked n = false.
Definition clears hs hs' : Prop :=
  same_links hs hs' /\ forall x, unchecked_at hs x -> unchecked_at hs' x.

#[global] Instance clears_preorder : PreOrder clears.
Proof.
  split.
  - intros hs. split; [reflexivity|auto].
  - intros h1 h2 h3 [H1 H1'] [H2 H2']. split; [by etrans|auto].
Qed.

Lemma clears_insert hs x n : hs !! x = Some n -> clears hs (<[x := with_checked n false]> hs).
Proof.
  intros Hx. split; [by eapply same_links_insert|]. intros y (m & Hm & Hc). unfold unchecked_at.
  destruct (decide (x = y)) as [<-|Hne].
  - rewrite lookup_insert_eq. eauto.
  - rewrite lookup_insert_ne by done. eauto.
Qed.

Lemma reset_fork_clears fuel : forall hs x, clears hs (reset_fork_loop fuel hs x).
Proof.
  induction fuel as [|fuel IH]; intros hs x; simpl; [reflexivity|].
  destruct (hs !! x) as [n|] eqn:Hx; [|reflexivity]. destruct (filter_checked n); simpl; [|reflexivity].
  etrans; [by apply clears_insert|apply IH].
Qed.

Lemma reset_active_clears fuel : forall hs x l, is_chain hs x l -> (length l <= fuel)%nat ->
  clears hs (reset_active_loop fuel hs x) /\
  forall y, y ∈ l.*1 -> unchecked_at (reset_active_loop fuel hs x) y.
Proof.
  induction fuel as [|fuel IH]; intros hs x l Hl Hf.
  - destruct l; simpl in *; [|lia]. split; [reflexivity|]. intros y Hy. by apply not_elem_of_nil in Hy.
  - simpl. destruct Hl as [x Hx|x n l Hx Hl]; rewrite Hx.
    { split; [reflexivity|]. intros y Hy. by apply not_elem_of_nil in Hy. }
    pose proof (clears_insert _ _ _ Hx) as Hc. pose proof Hc as [Hs _].
    destruct (is_chain_same _ _ _ _ Hs Hl) as (l' & Hl' & Hff).
    assert (Heq : l'.*1 = l.*1).
    { by apply same_hashes. }
    apply Forall2_length in Hff. simpl in Hf.
    destruct (IH _ _ _ Hl' ltac:(lia)) as [Hc' Hall]. split; [by etrans|].
    intros y [->|Hy]%elem_of_cons; [|apply Hall; by rewrite Heq].
    apply Hc'. exists (with_checked n false). by rewrite lookup_insert_eq.
Qed.

Lemma reset_all_clears start pool t : tree_ok start pool t ->
  clears (headers t) (headers (reset_all_filters t)) /\
  forall y, y ∈ (active_chain t).*1 -> unchecked_at (headers (reset_all_filters t)) y.
Proof.
  intros Ht. unfold reset_all_filters. simpl. pose proof (active_is_chain _ _ _ Ht) as Hl.
  destruct (reset_active_clears (size (headers t)) _ _ _ Hl) as [Hc Hall].
  { eapply chain_size; [apply Ht|apply Ht|exact Hl]. }
  generalize dependent (reset_active_loop (size (headers t)) (headers t) (tip_hash (active_tip t))).
  induction (candidate_forks t) as [|f fs IH]; intros hs Hc Hall; simpl; [done|].
  apply IH; [etrans; [done|apply reset_fork_clears]|].
  intros y Hy. by apply (reset_fork_clears (size (headers t)) hs (tip_hash f)), Hall.
Qed.

Lemma chain_same_length hs hs' x l : same_links hs hs' -> is_chain hs x l ->
  exists l', is_chain hs' x l' /\ length l' = length l.
Proof.
  intros Hs Hl. destruct (is_chain_same _ _ _ _ Hs Hl) as (l' & Hl' & Hf).
  exists l'. split; [done|]. symmetry. by eapply Forall2_length.
Qed.

(** A loop, a turn at a time, ends with a result. *)
Inductive ends {S R} (turn : S -> S + R) : S -> R -> Prop :=
| ends_now s r : turn s = inr r -> ends turn s r
| ends_later s s' r : turn s = inl s' -> ends turn s' r -> ends turn s r.

(** Each loop over the ancestors ends, with what the bounded definition computes. *)
Lemma walk_ends hs x l : is_chain hs x l -> forall seen, ends (walk_turn hs) (x, seen) (seen ++ l).
Proof.
  induction 1 as [x Hx|x n l Hx _ IH]; intros seen.
  - apply ends_now. simpl. by rewrite Hx, app_nil_r.
  - eapply ends_later; [simpl; by rewrite Hx|]. replace (seen ++ (x, n) :: l) with ((seen ++ [(x, n)]) ++ l)
      by by rewrite <- app_assoc. apply IH.
Qed.

Lemma switch_ends fuel : forall hs c x l conns disc, is_chain hs x l -> (length l <= fuel)%nat ->
  ends (switch_turn hs) (c, x, (conns, disc)) (switch_loop fuel hs c x conns disc).
Proof.
  induction fuel as [|fuel IH]; intros hs c x l conns disc Hl Hf;
    destruct Hl as [x Hx|x n l Hx Hl]; simpl in *; try lia.
  1,2: apply ends_now; simpl; by rewrite Hx.
  rewrite Hx. destruct (c !! node_height n) as [r|] eqn:Hr.
  - case_bool_decide as Hrx; [apply ends_now; simpl; by rewrite Hx, Hr, bool_decide_eq_true_2 by congruence|].
    eapply ends_later; [simpl; by rewrite Hx, Hr, bool_decide_eq_false_2 by congruence|]. simpl.
    destruct (hs !! r); rewrite ?app_nil_r; apply (IH _ _ _ l); auto; lia.
  - eapply ends_later; [simpl; by rewrite Hx, Hr, bool_decide_eq_false_2 by congruence|]. simpl.
    rewrite app_nil_r. apply (IH _ _ _ l); auto; lia.
Qed.

Lemma assume_ends h fuel : forall hs x l, is_chain hs x l -> (length l <= fuel)%nat ->
  ends (assume_turn h) (hs, x) (assume_checked_loop fuel hs x h).
Proof.
  induction fuel as [|fuel IH]; intros hs x l Hl Hf; destruct Hl as [x Hx|x n l Hx Hl]; simpl in *; try lia.
  1,2: apply ends_now; simpl; by rewrite Hx.
  rewrite Hx. eapply ends_later; [simpl; by rewrite Hx|]. destruct (_ <=? _); [|apply (IH _ _ l); auto; lia].
  assert (same_links hs (<[x := with_checked n true]> hs)) as Hs by by eapply same_links_insert.
  destruct (chain_same_length _ _ _ _ Hs Hl) as (l' & Hl' & He). apply (IH _ _ l'); auto; lia.
Qed.

Lemma reset_active_ends fuel : forall hs x l, is_chain hs x l -> (length l <= fuel)%nat ->
  ends reset_active_turn (hs, x) (reset_active_loop fuel hs x).
Proof.
  induction fuel as [|fuel IH]; intros hs x l Hl Hf; destruct Hl as [x Hx|x n l Hx Hl]; simpl in *; try lia.
  1,2: apply ends_now; simpl; by rewrite Hx.
  rewrite Hx. eapply ends_later; [simpl; by rewrite Hx|].
  destruct (chain_same_length hs _ _ _ (proj1 (clears_insert _ _ _ Hx)) Hl) as (l' & Hl' & He). apply (IH _ _ l'); auto; lia.
Qed.

Lemma reset_fork_ends fuel : forall hs x l, is_chain hs x l -> (length l <= fuel)%nat ->
  ends reset_fork_turn (hs, x) (reset_fork_loop fuel hs x).
Proof.
  induction fuel as [|fuel IH]; intros hs x l Hl Hf; destruct Hl as [x Hx|x n l Hx Hl]; simpl in *; try lia.
  1,2: apply ends_now; simpl; by rewrite Hx.
  rewrite Hx. destruct (filter_checked n) eqn:Hc; simpl; [|apply ends_now; simpl; by rewrite Hx, Hc].
  eapply ends_later; [simpl; by rewrite Hx, Hc|].
  destruct (chain_same_length hs _ _ _ (proj1 (clears_insert _ _ _ Hx)) Hl) as (l' & Hl' & He). apply (IH _ _ l'); auto; lia.
Qed.

(** The loop over the forks, each with its own loop. *)
Inductive forks_end : list Tip -> gmap bytes BlockNode -> gmap bytes BlockNode -> Prop :=
| forks_end_nil hs : forks_end [] hs hs
| forks_end_cons f fs hs hs1 hs2 :
    ends reset_fork_turn (hs, tip_hash f) hs1 -> forks_end fs hs1 hs2 -> forks_end (f :: fs) hs hs2.

Lemma same_links_size hs hs' : same_links hs hs' -> size hs' = size hs.
Proof.
  intros Hs. rewrite <- !(size_dom (D := gset bytes)). f_equal. apply set_eq. intros x.
  rewrite !elem_of_dom. specialize (Hs x). split; intros [n Hn]; rewrite Hn in Hs; inversion Hs; eauto.
Qed.

(** The operations on flags only change flags. *)
Lemma set_commitment_same t c x : exists hs, set_commitment t c x = set_headers t hs /\
  same_links (headers t) hs.
Proof.
  unfold set_commitment. destruct (headers t !! x) as [n|] eqn:Hx.
  - eexists. split; [done|]. by eapply same_links_insert.
  - exists (headers t). split; [by destruct t|reflexivity].
Qed.

Lemma check_filter_same t x : exists hs, check_filter t x = set_headers t hs /\
  same_links (headers t) hs.
Proof.
  unfold check_filter. destruct (headers t !! x) as [n|] eqn:Hx.
  - eexists. split; [done|]. by eapply same_links_insert.
  - exists (headers t). split; [by destruct t|reflexivity].
Qed.

Lemma assume_checked_same t h : exists hs, assume_checked_to t h = set_headers t hs /\
  same_links (headers t) hs.
Proof.
  eexists. split; [reflexivity|].
  generalize (size (headers t)) as fuel. intros fuel.
  generalize (tip_hash (active_tip t)) as x, (headers t) as hs. intros x hs. revert hs x.
  induction fuel as [|fuel IH]; intros hs x; simpl; [reflexivity|].
  destruct (hs !! x) as [n|] eqn:Hx; [|reflexivity].
  etrans; [|apply IH]. destruct (_ <=? _); [by eapply same_links_insert|reflexivity].
Qed.

Lemma reset_all_same t : exists hs, reset_all_filters t = set_headers t hs /\
  same_links (headers t) hs.
Proof.
  eexists. split; [reflexivity|]. generalize (size (headers t)) as fuel. intros fuel.
  assert (Ha : forall f hs x, same_links hs (reset_active_loop f hs x)).
  { intros f. induction f as [|f IH]; intros hs x; simpl; [reflexivity|].
    destruct (hs !! x) as [n|] eqn:Hx; [|reflexivity]. etrans; [|apply IH]. by eapply same_links_insert. }
  etrans; [apply (Ha fuel (headers t) (tip_hash (active_tip t)))|].
  generalize (reset_active_loop fuel (headers t) (tip_hash (active_tip t))).
  induction (candidate_forks t) as [|f fs IH]; intros hs; simpl; [reflexivity|].
  etrans; [apply reset_fork_clears|apply IH].
Qed.

Lemma tree_indexed_same start pool t hs' : same_links (headers t) hs' -> tree_ok start pool t ->
  tree_indexed t -> tree_indexed (set_headers t hs').
Proof.
  intros Hs Ht Hi h x. destruct (tree_ok_same _ _ _ _ Hs Ht) as [_ Hf]. simpl. rewrite (Hi h x).
  unfold at_height. split; intros (n & [i Hin]%list_elem_of_lookup & Hn).
  - destruct (Forall2_lookup_l _ _ _ _ _ Hf Hin) as ([y m] & Hm & Hy & (Hh & _)). simpl in *. subst y.
    exists m. split; [by eapply list_elem_of_lookup_2|congruence].
  - destruct (Forall2_lookup_r _ _ _ _ _ Hf Hin) as ([y m] & Hm & Hy & (Hh & _)). simpl in *. subst y.
    exists m. split; [by eapply list_elem_of_lookup_2|congruence].
Qed.
End Flags.
