(* ===== verification/BlockGraphTheorems.v ===== *)
(** * Properties of the header tree

    What [BlockGraph] guarantees after any sequence of headers, whichever peers
    sent them, and three places where it does less than its callers need. *)

From Stdlib Require Import Strings.Byte.
From S2P Require Import Prelude BlockGraph BlockGraphProofs.

Section Runs.
Context {env : BitcoinEnv}.
Implicit Types (t : BlockTree).

(** The operations that change a tree. *)
Inductive TreeOp :=
| OpHeader (h : Header)
| OpCommitment (c : FilterCommitment) (x : bytes)
| OpCheck (x : bytes)
| OpAssume (height : N)
| OpReset.

Definition apply_op t (op : TreeOp) : BlockTree :=
  match op with
  | OpHeader h => (accept_header t h).1
  | OpCommitment c x => set_commitment t c x
  | OpCheck x => check_filter t x
  | OpAssume h => assume_checked_to t h
  | OpReset => reset_all_filters t
  end.

(** The tree after a sequence of operations, and the headers among them. *)
Definition run t (ops : list TreeOp) : BlockTree := fold_left apply_op ops t.
Definition shown (ops : list TreeOp) : list Header :=
  omap (fun op => match op with OpHeader h => Some h | _ => None end) ops.

(** No reorganization of the run moves to a lower tip. *)
Fixpoint never_shrinks t (ops : list TreeOp) : bool :=
  match ops with
  | [] => true
  | op :: ops =>
      let t' := apply_op t op in
      (tip_height (active_tip t) <=? tip_height (active_tip t')) && never_shrinks t' ops
  end.

(** A header that extends a fork and is refused for its target. *)
Definition fork_refused t (op : TreeOp) : bool :=
  match op with
  | OpHeader h =>
      existsb (fun f => bool_decide (tip_hash f = prev_blockhash h)) (candidate_forks t)
      && match (accept_header t h).2 with Rejected (InvalidPow _ _) => true | _ => false end
  | _ => false
  end.
Fixpoint no_fork_refused t (ops : list TreeOp) : bool :=
  match ops with
  | [] => true
  | op :: ops => negb (fork_refused t op) && no_fork_refused (apply_op t op) ops
  end.

(** An operation is a header or changes flags only. *)
Lemma apply_op_flags t op : (exists h, op = OpHeader h) \/
  exists hs, apply_op t op = set_headers t hs /\ same_links (headers t) hs.
Proof.
  destruct op; simpl; [left; eauto|right..];
    [apply set_commitment_same|apply check_filter_same|apply assume_checked_same|apply reset_all_same].
Qed.

(** Headers with the same parent carry the same work. *)
Definition siblings_agree (hs : list Header) : Prop :=
  forall h h', h ∈ hs -> h' ∈ hs -> prev_blockhash h = prev_blockhash h' ->
    header_work h = header_work h'.

Section Run.
Context (start : Tip) (pool : list Header) (Hd : hashes_distinct start pool).

Lemma run_ok ops : forall t, tree_ok start pool t -> (forall h, h ∈ shown ops -> h ∈ pool) ->
  tip_height start + N.of_nat (size (headers t)) + len ops <= U32_MAX ->
  tree_ok start pool (run t ops) /\
  (tree_indexed t -> never_shrinks t ops = true -> tree_indexed (run t ops)) /\
  (size (headers (run t ops)) <= size (headers t) + length ops)%nat.
Proof.
  unfold len. induction ops as [|op ops IH]; intros t Ht Hin Hb; simpl in *; [split_and!; auto; lia|].
  assert (Hstep : tree_ok start pool (apply_op t op) /\
    (tree_indexed t -> tip_height (active_tip t) <= tip_height (active_tip (apply_op t op)) ->
     tree_indexed (apply_op t op)) /\ (size (headers (apply_op t op)) <= S (size (headers t)))%nat).
  { destruct (apply_op_flags t op) as [[h ->]|(hs & -> & Hs)].
    - destruct (accept_header_ok start pool Hd t h) as [Hok Hi]; [done|apply Hin; left|lia|].
      split_and!; auto. apply accept_header_size.
    - destruct (tree_ok_same _ _ _ _ Hs Ht) as [Hok _]. split_and!; auto.
      + intros Hi _. by eapply tree_indexed_same.
      + simpl. rewrite (same_links_size _ _ Hs). lia. }
  destruct Hstep as (Hok & Hi & Hsz).
  destruct (IH (apply_op t op)) as (H1 & H2 & H3); [done| |lia|].
  - intros h Hh. apply Hin. destruct op; simpl; auto. by right.
  - split_and!; auto; [|lia]. intros Hidx Hn. bool_prop. auto.
Qed.

(** The active chain has the most work. *)
Definition heaviest t : Prop :=
  forall x n, headers t !! x = Some n -> acc_work n <= work_of (headers t) (tip_hash (active_tip t)).

(** A block is the tip of the active chain, the tip of a fork, or has a child. *)
Definition tips_known t : Prop :=
  forall x n, headers t !! x = Some n ->
    x = tip_hash (active_tip t) \/ (exists f, f ∈ candidate_forks t /\ tip_hash f = x) \/
    exists y m, headers t !! y = Some m /\ node_prev m = x.

Lemma tips_known_insert t x (n : BlockNode) c tip forks :
  tips_known t -> headers t !! x = None ->
  (x = tip_hash tip \/ exists f, f ∈ forks /\ tip_hash f = x) ->
  (tip_hash (active_tip t) = node_prev n \/ tip_hash (active_tip t) = tip_hash tip \/
   exists f, f ∈ forks /\ tip_hash f = tip_hash (active_tip t)) ->
  (forall f, f ∈ candidate_forks t -> tip_hash f = node_prev n \/ f ∈ forks) ->
  tips_known (mkTree c (<[x := n]> (headers t)) tip forks).
Proof.
  intros Hk Hx Hnew Hact Hforks y m Hy. simpl in *.
  assert (Hchild : forall z, z = node_prev n -> exists y m, <[x := n]> (headers t) !! y = Some m /\ node_prev m = z)
    by (intros z ->; exists x, n; by rewrite lookup_insert_eq).
  apply lookup_insert_Some in Hy as [[<- <-]|[Hne Hy]]; [destruct Hnew; auto|].
  destruct (Hk _ _ Hy) as [->|[(f & Hf & <-)|(z & k & Hz & <-)]].
  - destruct Hact as [?|[?|?]]; auto.
  - destruct (Hforks _ Hf) as [?|?]; eauto.
  - right. right. exists z, k. split; [|done]. by rewrite lookup_insert_ne by congruence.
Qed.

(** Filing a block that is no heavier than the active tip. *)
Lemma heaviest_beside t x n c forks : heaviest t -> headers t !! x = None ->
  tip_hash (active_tip t) <> x ->
  acc_work n <= work_of (headers t) (tip_hash (active_tip t)) ->
  heaviest (mkTree c (<[x := n]> (headers t)) (active_tip t) forks).
Proof.
  intros Hh Hx Hne Hw y m Hy. unfold work_of. simpl in *. rewrite lookup_insert_ne by done.
  fold (work_of (headers t) (tip_hash (active_tip t))).
  apply lookup_insert_Some in Hy as [[<- <-]|[_ Hy]]; [done|]. by eapply Hh.
Qed.

(** Filing a block at least as heavy as the active tip and making it the tip. *)
Lemma heaviest_tip t x n c tip forks : heaviest t -> headers t !! x = None -> tip_hash tip = x ->
  work_of (headers t) (tip_hash (active_tip t)) <= acc_work n ->
  heaviest (mkTree c (<[x := n]> (headers t)) tip forks).
Proof.
  intros Hh Hx Ht Hw y m Hy. unfold work_of. simpl in *. rewrite Ht, lookup_insert_eq.
  apply lookup_insert_Some in Hy as [[<- <-]|[_ Hy]]; [done|]. apply Hh in Hy. lia.
Qed.

Lemma heaviest_ext t t' : headers t' = headers t -> active_tip t' = active_tip t ->
  candidate_forks t' = candidate_forks t ->
  heaviest t /\ tips_known t -> heaviest t' /\ tips_known t'.
Proof. unfold heaviest, tips_known. intros -> -> ->. done. Qed.

Lemma extend_fork_heaviest t i f p h : tree_ok start pool t -> h ∈ pool ->
  headers t !! block_hash h = None -> prev_blockhash h <> tip_hash (active_tip t) ->
  candidate_forks t !! i = Some f -> tip_hash f = prev_blockhash h ->
  headers t !! prev_blockhash h = Some p ->
  tip_height start + N.of_nat (size (headers t)) < U32_MAX ->
  (forall e g, (extend_fork (set_forks t (swap_remove i (candidate_forks t))) f p h).2
     <> Rejected (InvalidPow e g)) ->
  heaviest t -> tips_known t ->
  heaviest (extend_fork (set_forks t (swap_remove i (candidate_forks t))) f p h).1 /\
  tips_known (extend_fork (set_forks t (swap_remove i (candidate_forks t))) f p h).1.
Proof.
  intros Ht Hh Hx Hp Hi Hf Hpn Hb Hnr Hhv Hk.
  destruct (placed_under start pool t h p) as [Hpl Hinc]; [done..|]. rewrite Hinc in Hpl.
  destruct (placed_chains start pool Hd t h _ Ht Hh Hpl Hx) as (_ & _ & _ & Hxt & _).
  assert (Hkeep : forall g, g ∈ candidate_forks t ->
    tip_hash g = prev_blockhash h \/ g ∈ swap_remove i (candidate_forks t)).
  { intros g [j Hj]%list_elem_of_lookup. destruct (decide (j = i)) as [->|Hne]; [left; congruence|right].
    eapply swap_remove_keeps; eauto. by eapply lookup_lt_Some. }
  destruct (extend_fork_cases start pool Hd t i f p h)
    as [(r & Hr & He)|[_ [[Hw He]|(Hw & acc & dis & He & _)]]]; auto; rewrite He in Hnr |- *; simpl in Hnr |- *.
  - unfold bits_rejected in Hr. apply bind_Some in Hr as (w & _ & Hr).
    destruct (_ =? _); [done|]. injection Hr as <-. by destruct (Hnr w (bits h)).
  - split; [by apply heaviest_beside|]. apply tips_known_insert; auto.
    + right. eexists. split; [apply elem_of_app; right; left|done].
    + intros g Hg. destruct (Hkeep g Hg); [by left|right]. apply elem_of_app. by left.
  - match goal with |- context [switch_to_fork ?t1 ?tip] =>
      destruct (switch_frame t1 tip) as (Ha & Hhd & Hc); apply (heaviest_ext t1); auto end.
    split; [apply heaviest_tip; simpl; auto; simpl in *; lia|]. apply tips_known_insert; auto.
    + right. right. eexists. split; [apply elem_of_app; right; left|done].
    + intros g Hg. destruct (Hkeep g Hg); [by left|right]. apply elem_of_app. by left.
Qed.

Lemma accept_header_heaviest t h : tree_ok start pool t -> h ∈ pool ->
  tip_height start + N.of_nat (size (headers t)) < U32_MAX ->
  siblings_agree pool -> fork_refused t (OpHeader h) = false ->
  heaviest t -> tips_known t ->
  heaviest (accept_header t h).1 /\ tips_known (accept_header t h).1.
Proof.
  intros Ht Hh Hb Hsib Hnr Hhv Hk.
  destruct (accept_header_cases start pool t h Ht) as [[Hp Heq]|[Hp [[_ Heq]|[Hx [Hfork|[Hnf Heq]]]]]].
  - rewrite Heq. destruct (extend_active_spec start pool Hd t h Ht Hh Hp Hb)
      as [[r ->]|(n & t' & req & [Hnh _] & Hx & -> & _ & Hw & -> & _)]; simpl; [done|].
    split; [apply heaviest_tip; auto; lia|]. apply tips_known_insert; auto.
    left. unfold node_prev. by rewrite Hnh.
  - by rewrite Heq.
  - destruct Hfork as (i & f & p & Hi & Hf & Hpn & Heq). unfold fork_refused in Hnr.
    rewrite Heq in Hnr |- *. apply extend_fork_heaviest; auto. intros e g He. rewrite He in Hnr.
    apply andb_false_iff in Hnr as [Hnr|?]; [|done].
    assert (existsb (fun f => bool_decide (tip_hash f = prev_blockhash h)) (candidate_forks t) = true);
      [|congruence].
    apply existsb_exists. exists f. split; [by eapply list_elem_of_In, list_elem_of_lookup_2|].
    by apply bool_decide_eq_true_2.
  - rewrite Heq. unfold new_fork. destruct (headers t !! prev_blockhash h) as [p|] eqn:Hpn; [|done].
    destruct (bits_rejected _ _) as [r|]; [done|]. simpl.
    destruct (placed_under start pool t h p Ht Hpn Hb) as [Hpl Hinc].
    destruct (placed_chains start pool Hd t h _ Ht Hh Hpl Hx) as (_ & _ & _ & Hxt & _).
    split.
    + apply heaviest_beside; auto. simpl.
      destruct (Hk _ _ Hpn) as [?|[(f & Hf & He)|(y & m & Hy & Hm)]]; [done|by destruct (Hnf f)|].
      destruct (ok_linked _ _ _ Ht _ _ Hy) as [_ [(Hs & _)|(q & Hq & _ & Hw)]].
      { pose proof (ok_start _ _ _ Ht). congruence. }
      rewrite Hm, Hpn in Hq. injection Hq as <-.
      rewrite (Hsib h (node_header m)) by (done || by eapply ok_pool).
      rewrite <- Hw. by eapply Hhv.
    + apply tips_known_insert; auto.
      * right. eexists. split; [apply elem_of_app; right; left|done].
      * intros g Hg. right. apply elem_of_app. by left.
Qed.

Lemma same_heaviest t hs : same_links (headers t) hs ->
  heaviest t /\ tips_known t -> heaviest (set_headers t hs) /\ tips_known (set_headers t hs).
Proof.
  intros Hs [Hh Hk]. pose proof (symmetry Hs) as Hs'. split.
  - intros x m Hx. destruct (same_links_lookup _ _ _ _ Hs' Hx) as (n & Hn & (_ & _ & <-)).
    specialize (Hh _ _ Hn). unfold work_of in *. simpl.
    specialize (Hs (tip_hash (active_tip t))).
    inversion Hs as [n1 n2 (_ & _ & Hw) E1 E2|E1 E2]; rewrite <- E1 in Hh; [by rewrite Hw|done].
  - intros x m Hx. destruct (same_links_lookup _ _ _ _ Hs' Hx) as (n & Hn & _).
    destruct (Hk _ _ Hn) as [?|[?|(y & k & Hy & Hp)]]; auto. right. right.
    destruct (same_links_lookup _ _ _ _ Hs Hy) as (k' & Hk' & Hb). exists y, k'.
    by rewrite (same_block_prev _ _ Hb).
Qed.

Lemma run_heaviest ops : forall t, tree_ok start pool t -> (forall h, h ∈ shown ops -> h ∈ pool) ->
  tip_height start + N.of_nat (size (headers t)) + len ops <= U32_MAX ->
  siblings_agree pool -> no_fork_refused t ops = true ->
  heaviest t -> tips_known t -> heaviest (run t ops).
Proof.
  unfold len. induction ops as [|op ops IH]; intros t Ht Hin Hb Hsib Hnr Hhv Hk; simpl in *; [done|].
  bool_prop.
  assert (Hin' : forall h, h ∈ shown ops -> h ∈ pool).
  { intros h Hh. apply Hin. destruct op; simpl; auto. by right. }
  destruct (run_ok [op] t) as (Hok & _ & Hsz); [done|..].
  { intros h Hh. apply Hin. destruct op; simpl in *; try (by apply not_elem_of_nil in Hh).
    apply list_elem_of_singleton in Hh as ->. left. }
  { unfold len. simpl. lia. }
  simpl in Hok, Hsz.
  assert (heaviest (apply_op t op) /\ tips_known (apply_op t op)) as [H1 H2].
  { destruct (apply_op_flags t op) as [[h ->]|(hs & -> & Hs)]; [|by apply same_heaviest].
    apply accept_header_heaviest; auto; [apply Hin; left|lia]. }
  apply IH; auto. lia.
Qed.

Lemma reorganization_step t h accepted disconnected :
  tree_ok start pool t -> tree_indexed t -> h ∈ pool ->
  tip_height start + N.of_nat (size (headers t)) < U32_MAX ->
  tip_height (active_tip t) <= tip_height (active_tip (accept_header t h).1) ->
  (accept_header t h).2 = Reorganization accepted disconnected ->
  let t' := (accept_header t h).1 in
  work_of (headers t) (tip_hash (active_tip t)) < work_of (headers t') (tip_hash (active_tip t')) /\
  exists joined left_behind common, accepted = indexed_of <$> joined /\
    disconnected = indexed_of <$> left_behind /\
    active_chain t' = joined ++ common /\ active_chain t = left_behind ++ common /\
    (forall x, x ∈ joined.*1 -> x ∉ left_behind.*1).
Proof.
  intros Ht Hidx Hh Hb Hgrow Hr.
  destruct (accept_header_cases start pool t h Ht) as [[Hp Heq]|[Hp [[_ Heq]|[Hx [Hfork|[Hnf Heq]]]]]].
  - rewrite Heq in Hr. destruct (extend_active_spec start pool Hd t h Ht Hh Hp Hb)
      as [[r He]|(n & t' & req & _ & _ & He & _)]; rewrite He in Hr; simpl in Hr; discriminate Hr.
  - rewrite Heq in Hr. discriminate Hr.
  - destruct Hfork as (i & f & p & Hi & Hf & Hpn & Heq). rewrite Heq in *.
    destruct (placed_under start pool t h p Ht Hpn Hb) as [Hpl Hinc]. rewrite Hinc in Hpl.
    destruct (extend_fork_cases start pool Hd t i f p h)
      as [(r & _ & He)|[_ [[_ He]|(Hw & acc & dis & He & Hsw)]]]; auto;
      rewrite He in *; simpl in Hr; try discriminate Hr.
    injection Hr as <- <-. revert Hgrow. simpl. simpl in Hsw.
    match goal with |- context [switch_to_fork ?t1 ?tip] =>
      destruct (switch_frame t1 tip) as (Ha & Hhd & _);
      destruct (switch_to_fork t1 tip) as [t' q] eqn:Hs;
      simpl in Ha, Hhd, Hsw |- *; subst q end.
    rewrite Ha, Hhd. simpl. intros Hgrow. split; [unfold work_of at 2; by rewrite lookup_insert_eq|].
    eapply (switch_indexed start pool Hd t h) in Hs as [_ Hs]; eauto.
    apply swap_remove_submseteq.
  - rewrite Heq in Hr. unfold new_fork in Hr. repeat (case_match; simpl in Hr; try discriminate Hr).
Qed.

(** A refused extension of a fork removes the fork from the candidates. *)
Lemma refused_step t h f : tree_ok start pool t -> h ∈ pool ->
  tip_height start + N.of_nat (size (headers t)) < U32_MAX ->
  f ∈ candidate_forks t -> tip_hash f = prev_blockhash h -> headers t !! block_hash h = None ->
  (exists e g, (accept_header t h).2 = Rejected (InvalidPow e g)) ->
  exists i, (accept_header t h).1 = set_forks t (swap_remove i (candidate_forks t)) /\
    forall k, k ∈ candidate_forks (accept_header t h).1 -> tip_hash k <> prev_blockhash h.
Proof.
  intros Ht Hh Hb Hf Hfp Hx (e & g & Hr).
  pose proof (ok_tips_distinct _ _ _ Ht) as [Hna Hnd]%list.NoDup_cons.
  assert (Hne : prev_blockhash h <> tip_hash (active_tip t)).
  { intros He. apply Hna. rewrite <- He, <- Hfp. apply list_elem_of_fmap. eauto. }
  destruct (accept_header_cases start _ t h Ht) as [[? _]|[_ [[[? ?] _]|[_ [Hfork|[Hnf _]]]]]];
    [done|congruence| |by destruct (Hnf f)].
  destruct Hfork as (i & f' & p & Hi & Hf' & Hpn & Heq). exists i.
  assert (Ht1 : (accept_header t h).1 = set_forks t (swap_remove i (candidate_forks t))).
  { rewrite Heq in Hr |- *.
    destruct (extend_fork_cases start _ Hd t i f' p h) as [(r & _ & He)|[_ [[_ He]|(_ & a & d & He & _)]]];
      auto; rewrite He in Hr |- *; simpl in Hr |- *; congruence. }
  split; [done|]. rewrite Ht1. intros k Hk He. simpl in Hk.
  rewrite (swap_remove_Permutation _ _ _ Hi) in Hnd. simpl in Hnd.
  apply list.NoDup_cons in Hnd as [Hnin _]. apply Hnin. rewrite Hf', <- He.
  apply list_elem_of_fmap. eauto.
Qed.
End Run.

Lemma never_shrinks_app ops op : forall t, never_shrinks t (ops ++ [op]) = true ->
  never_shrinks t ops = true /\
  tip_height (active_tip (run t ops)) <= tip_height (active_tip (apply_op (run t ops) op)).
Proof.
  induction ops as [|k ops IH]; intros t H; simpl in *; bool_prop; [split; [done|]; lia|].
  destruct (IH (apply_op t k)) as [-> ?]; [done|]. split; [|done].
  rewrite andb_true_r. by apply N.leb_le.
Qed.

Lemma shown_app ops ops' : shown (ops ++ ops') = shown ops ++ shown ops'.
Proof. apply omap_app. Qed.

(** A run from the start block. *)
Lemma run_from start pool ops : hashes_distinct start pool ->
  (forall h, h ∈ shown ops -> h ∈ pool) -> tip_height start + len ops <= U32_MAX ->
  let t := run (tree_new start) ops in
  tree_ok start pool t /\ (never_shrinks (tree_new start) ops = true -> tree_indexed t) /\
  (size (headers t) <= length ops)%nat.
Proof.
  intros Hd Hin Hb t.
  destruct (run_ok start pool Hd ops (tree_new start)) as (H1 & H2 & H3);
    [apply tree_new_ok|done|simpl; rewrite map_size_empty; lia|].
  simpl in H3. rewrite map_size_empty in H3. split_and!; auto. intros Hn.
  by apply H2; [apply tree_new_indexed|].
Qed.

(** C29: the header tree is sound. After any sequence of operations from a start
    block, every known block is filed under its hash, one height above and with
    its work added to the block it names; the active tip and the tips of the
    forks are distinct blocks of the tree and the active tip has no successor.
    As long as no reorganization moved to a lower tip, the index by height lists
    exactly the blocks of the active chain, each at its height. The hypotheses
    say that the hashes of the headers shown do not collide and that heights
    fit. *)
Theorem header_tree_sound start ops :
  hashes_distinct start (shown ops) -> tip_height start + len ops <= U32_MAX ->
  let t := run (tree_new start) ops in
  tree_ok start (shown ops) t /\
  (never_shrinks (tree_new start) ops = true ->
   forall h x, canonical_hashes t !! h = Some x <->
     exists n, (x, n) ∈ active_chain t /\ node_height n = h).
Proof.
  intros Hd Hb t. destruct (run_from start (shown ops) ops) as (H1 & H2 & _); [done..|].
  split; [done|]. exact H2.
Qed.

(** The active chain has the most work. When headers with the same parent
    carry the same work (the difficulty is a function of the ancestors) and no
    extension of a fork was refused on the way, the active tip's accumulated
    work is at least that of every block of the tree.*)
Theorem active_chain_heaviest start ops :
  hashes_distinct start (shown ops) -> tip_height start + len ops <= U32_MAX ->
  siblings_agree (shown ops) -> no_fork_refused (tree_new start) ops = true ->
  let t := run (tree_new start) ops in
  forall x n, headers t !! x = Some n -> acc_work n <= work_of (headers t) (tip_hash (active_tip t)).
Proof.
  intros Hd Hb Hsib Hnr t. apply (run_heaviest start (shown ops) Hd ops (tree_new start)); auto.
  - apply tree_new_ok.
  - simpl. rewrite map_size_empty. lia.
  - intros x n. simpl. by rewrite lookup_empty.
  - intros x n. simpl. by rewrite lookup_empty.
Qed.

(** A reorganization reports what changed. When a header makes the tree
    switch to another branch (not a lower one), the new tip has strictly more
    work than the old one, the old and the new active chain agree from some
    block downwards, and the blocks reported as accepted and as disconnected are
    exactly the blocks above it on the new and on the old chain.*)
Theorem reorganization_reports start ops h accepted disconnected :
  hashes_distinct start (shown (ops ++ [OpHeader h])) -> tip_height start + len ops < U32_MAX ->
  never_shrinks (tree_new start) (ops ++ [OpHeader h]) = true ->
  let t := run (tree_new start) ops in
  let t' := (accept_header t h).1 in
  (accept_header t h).2 = Reorganization accepted disconnected ->
  work_of (headers t) (tip_hash (active_tip t)) < work_of (headers t') (tip_hash (active_tip t')) /\
  exists joined left_behind common, accepted = indexed_of <$> joined /\
    disconnected = indexed_of <$> left_behind /\
    active_chain t' = joined ++ common /\ active_chain t = left_behind ++ common /\
    (forall x, x ∈ joined.*1 -> x ∉ left_behind.*1).
Proof.
  intros Hd Hb Hn t t' Hr. apply never_shrinks_app in Hn as [Hn Hg]. rewrite shown_app in Hd.
  destruct (run_from start _ ops Hd) as (H1 & H2 & H3); [set_solver|lia|].
  apply (reorganization_step start _ Hd t h accepted disconnected); auto; [set_solver|].
  unfold len in Hb. fold t in H3. lia.
Qed.

(** A refused header makes the tree forget a fork. When a header that
    extends a fork is refused for its target, the fork is no longer a candidate:
    the next block on it, whatever its work, is filed as a new fork and never
    becomes the active tip by itself.*)
Theorem refused_header_drops_fork start ops h h' f :
  hashes_distinct start (shown ops ++ [h; h']) -> tip_height start + len ops < U32_MAX ->
  let t := run (tree_new start) ops in
  f ∈ candidate_forks t -> tip_hash f = prev_blockhash h ->
  headers t !! block_hash h = None ->
  (exists e g, (accept_header t h).2 = Rejected (InvalidPow e g)) ->
  prev_blockhash h' = prev_blockhash h ->
  let t1 := (accept_header t h).1 in
  active_tip (accept_header t1 h').1 = active_tip t /\
  forall a d, (accept_header t1 h').2 <> Reorganization a d.
Proof.
  intros Hd Hb t Hf Hfp Hx (e & g & Hr) Hp' t1.
  destruct (run_from start _ ops Hd) as (Ht & _ & Hsz); [set_solver|lia|].
  unfold len in Hb. fold t in Ht, Hsz.
  destruct (refused_step start _ Hd t h f) as (i & Ht1 & Hgone); auto; [set_solver|lia|eauto|].
  rewrite <- Hp' in Hgone. fold t1 in Ht1, Hgone.
  assert (Hok1 : tree_ok start (shown ops ++ [h; h']) t1).
  { rewrite Ht1. apply set_forks_ok; [done|]. apply swap_remove_submseteq. }
  assert (Ha1 : active_tip t1 = active_tip t) by by rewrite Ht1.
  destruct (accept_header_cases start _ t1 h' Hok1) as [[? _]|[_ [[_ ->]|[_ [(i' & f2 & ? & Hi2 & Hf2 & _)|[_ ->]]]]]].
  - exfalso. pose proof (ok_tips_distinct _ _ _ Ht) as [Hna _]%list.NoDup_cons. apply Hna.
    apply list_elem_of_fmap. exists f. split; [congruence|done].
  - simpl. done.
  - destruct (Hgone f2); [by eapply list_elem_of_lookup_2|done].
  - unfold new_fork. repeat (case_match; simpl; try done).
Qed.

(** A rescan starts from nothing on the active chain. After
    [reset_all_filters] the active chain is the same, none of its blocks counts
    as checked, and the filters count as synced only if the chain is empty.*)
Theorem rescan_clears_active_chain start ops :
  hashes_distinct start (shown ops) -> tip_height start + len ops <= U32_MAX ->
  let t := run (tree_new start) ops in
  let t' := reset_all_filters t in
  (active_chain t').*1 = (active_chain t).*1 /\
  (forall n, n ∈ iter_data t' -> filter_checked n = false) /\
  (filters_synced t' = true -> active_chain t = []).
Proof.
  intros Hd Hb t t'. destruct (run_from start _ ops Hd) as (Ht & _); [done..|]. fold t in Ht.
  destruct (reset_all_clears _ _ _ Ht) as [[Hs _] Hall].
  destruct (tree_ok_same _ _ t _ Hs Ht) as [Ht' Hf].
  change (set_headers t (headers (reset_all_filters t))) with t' in *.
  apply same_hashes in Hf.
  assert (Hun : forall n, n ∈ iter_data t' -> filter_checked n = false).
  { intros n ([x m] & -> & Hin)%list_elem_of_fmap.
    destruct (Hall x) as (k & Hk & Hc); [rewrite <- Hf; apply list_elem_of_fmap; by exists (x, m)|].
    pose proof (is_chain_lookup _ _ _ _ _ (active_is_chain _ _ _ Ht') Hin) as Hm.
    unfold t' in Hm. simpl in *. congruence. }
  split_and!; auto. intros Hsync. unfold filters_synced, iter_data in *.
  destruct (active_chain t') as [|[x n] l] eqn:Hac.
  - destruct (active_chain t); [done|discriminate Hf].
  - simpl in Hsync. bool_prop. rewrite (Hun n) in *; [done|]. simpl. left.
Qed.

(** The loops over the forks of [reset_all_filters]. *)
Lemma forks_all_end start hs0 fs : linked start hs0 -> hs0 !! tip_hash start = None -> forall hs, same_links hs0 hs ->
  forks_end fs hs (fold_left (fun hs f => reset_fork_loop (size hs0) hs (tip_hash f)) fs hs).
Proof.
  intros Hlk Hst. induction fs as [|f fs IH]; intros hs Hs; simpl; [constructor|].
  assert (linked start hs) as Hlk' by by eapply linked_same.
  assert (hs !! tip_hash start = None) as Hst' by by eapply same_links_None.
  destruct (is_chain_exists start hs Hlk' Hst' (tip_hash f)) as [l Hl].
  apply (forks_end_cons f fs hs (reset_fork_loop (size hs0) hs (tip_hash f))).
  - eapply reset_fork_ends; [exact Hl|]. rewrite <- (same_links_size _ _ Hs). by eapply chain_size.
  - apply IH. etrans; [exact Hs|]. apply reset_fork_clears.
Qed.

(** C35: the loops over the tree end. Of the headers shown it is assumed that no two
    collide, that no descendant of the start block has its hash again, and that
    heights stay in 32 bits. Then, after any sequence of operations, every loop that
    follows parent links is left after finitely many turns: the walk over the
    ancestors of any block, which meets no block twice; the switch to a fork, from
    any tip and with any index; marking filters as checked up to a height; and
    clearing the marks, along the active chain and then along each fork. Each
    leaves the state that the bounded definition of the operation computes. *)
Theorem tree_walks_terminate start ops x :
  hashes_distinct start (shown ops) -> tip_height start + len ops <= U32_MAX ->
  let t := run (tree_new start) ops in
  (exists l, ends (walk_turn (headers t)) (x, []) l /\ NoDup l.*1 /\
     (x = tip_hash (active_tip t) -> l = active_chain t)) /\
  (forall c tip, ends (switch_turn (headers t)) (c, tip_hash tip, ([], [])) (switch_loop (size (headers t)) (headers t) c (tip_hash tip) [] [])) /\
  (forall h, ends (assume_turn h) (headers t, tip_hash (active_tip t)) (headers (assume_checked_to t h))) /\
  exists hs, ends reset_active_turn (headers t, tip_hash (active_tip t)) hs /\
    forks_end (candidate_forks t) hs (headers (reset_all_filters t)).
Proof.
  intros Hd Hb t. destruct (run_from start _ ops Hd) as (Ht & _); [done..|]. fold t in Ht.
  pose proof (ok_linked _ _ _ Ht) as Hlk. pose proof (ok_start _ _ _ Ht) as Hst.
  pose proof (active_is_chain _ _ _ Ht) as Ha. pose proof (chain_size start _ Hlk Hst _ _ Ha) as Hsz.
  split_and!.
  - destruct (is_chain_exists start _ Hlk Hst x) as [l Hl]. exists l. split_and!.
    + exact (walk_ends _ _ _ Hl []).
    + by eapply chain_NoDup.
    + intros ->. symmetry. by eapply active_chain_eq.
  - intros c tip. destruct (is_chain_exists start _ Hlk Hst (tip_hash tip)) as [l Hl].
    eapply switch_ends; [exact Hl|]. by eapply chain_size.
  - intros h. eapply assume_ends; [exact Ha|done].
  - eexists. split; [eapply reset_active_ends; [exact Ha|exact Hsz]|].
    apply forks_all_end with start; [done|done|]. by eapply reset_active_clears.
Qed.
End Runs.

(** ** Concrete trees *)

Module ToyChain.
(** A header is its hash, its parent's hash and its target; easier targets carry
    less work. Targets are free, as on the networks that allow blocks of minimum
    difficulty. *)
Record toy_header := mk { th_hash : N; th_prev : N; th_bits : N }.
#[global] Instance toy_header_eq_dec : EqDecision toy_header.
Proof. solve_decision. Defined.

Definition toy_bitcoin : BitcoinEnv := {|
  Header := toy_header;
  block_hash h := to_be_bytes 2 (th_hash h);
  prev_blockhash h := to_be_bytes 2 (th_prev h);
  bits := th_bits;
  header_work := th_bits;
  no_pow_retargeting := false;
  allow_min_difficulty_blocks := true;
  difficulty_adjustment_interval := 2016;
  from_header_difficulty_adjustment _ h := th_bits h;
  genesis_header := mk 0 65535 1;
|}.
#[global] Existing Instance toy_bitcoin | 100.

Definition hash (n : N) : bytes := to_be_bytes 2 n.
Definition start : Tip := tip_from_checkpoint 100 (hash 0).
Definition block (n p b : N) : Header := mk n p b.

(** Decides [hashes_distinct]. *)
Definition distinct (hs : list Header) : bool :=
  forallb (fun h => forallb (fun h' => implb (bool_decide (block_hash h = block_hash h'))
                                             (bool_decide (h = h'))) hs) hs
  && forallb (fun h => negb (bool_decide (block_hash h = tip_hash start))) hs.
Lemma distinct_ok hs : distinct hs = true -> hashes_distinct start hs.
Proof.
  unfold distinct. intros [H1 H2]%andb_prop. rewrite forallb_forall in H1, H2. split.
  - intros h h' Hh Hh' He. apply list_elem_of_In in Hh, Hh'. specialize (H1 h Hh).
    rewrite forallb_forall in H1. specialize (H1 h' Hh').
    rewrite bool_decide_eq_true_2 in H1 by done. simpl in H1. by bool_prop.
  - intros h Hh _ He. apply list_elem_of_In in Hh. specialize (H2 h Hh). bool_prop. done.
Qed.

Definition headers_ops (hs : list Header) : list TreeOp := OpHeader <$> hs.

(** Two branches of equal targets; the second overtakes the first. *)
Definition race : list TreeOp :=
  headers_ops [block 1 0 1; block 2 1 1; block 3 2 1; block 12 1 1; block 13 12 1].
Definition overtaking : Header := block 14 13 1.

Definition agree (hs : list Header) : bool :=
  forallb (fun h => forallb (fun h' => implb (bool_decide (prev_blockhash h = prev_blockhash h'))
                                             (header_work h =? header_work h')) hs) hs.
Lemma agree_ok hs : agree hs = true -> siblings_agree hs.
Proof.
  unfold agree. rewrite forallb_forall. intros H h h' Hh Hh' He. apply list_elem_of_In in Hh, Hh'.
  specialize (H h Hh). rewrite forallb_forall in H. specialize (H h' Hh').
  rewrite bool_decide_eq_true_2 in H by done. simpl in H. by bool_prop.
Qed.
End ToyChain.

Lemma header_tree_sound_witness :
  let ops := ToyChain.race ++ [OpHeader ToyChain.overtaking; OpCheck (ToyChain.hash 1)] in
  tree_ok ToyChain.start (shown ops) (run (tree_new ToyChain.start) ops) /\
  (forall h x, canonical_hashes (run (tree_new ToyChain.start) ops) !! h = Some x <->
     exists n, (x, n) ∈ active_chain (run (tree_new ToyChain.start) ops) /\ node_height n = h).
Proof.
  intros ops. destruct (header_tree_sound ToyChain.start ops) as [H1 H2].
  - apply ToyChain.distinct_ok. vm_compute. reflexivity.
  - vm_compute. discriminate.
  - split; [exact H1|]. apply H2. vm_compute. reflexivity.
Defined.

Lemma active_chain_heaviest_witness :
  let t := run (tree_new ToyChain.start) (ToyChain.race ++ [OpHeader ToyChain.overtaking]) in
  exists n, headers t !! ToyChain.hash 3 = Some n /\
    acc_work n <= work_of (headers t) (tip_hash (active_tip t)).
Proof.
  intros t. eexists (node_new 103 (ToyChain.block 3 2 1) 3). split; [vm_compute; reflexivity|].
  apply (active_chain_heaviest ToyChain.start (ToyChain.race ++ [OpHeader ToyChain.overtaking]))
    with (x := ToyChain.hash 3).
  - apply ToyChain.distinct_ok. vm_compute. reflexivity.
  - vm_compute. discriminate.
  - apply ToyChain.agree_ok. vm_compute. reflexivity.
  - vm_compute. reflexivity.
  - vm_compute. reflexivity.
Defined.

Lemma reorganization_reports_witness :
  exists accepted disconnected, 
    (accept_header (run (tree_new ToyChain.start) ToyChain.race) ToyChain.overtaking).2
      = Reorganization accepted disconnected /\
    exists joined left_behind, accepted = indexed_of <$> joined /\ disconnected = indexed_of <$> left_behind.
Proof.
  eexists _, _. split; [vm_compute; reflexivity|].
  edestruct (reorganization_reports ToyChain.start ToyChain.race ToyChain.overtaking)
    as (_ & joined & left_behind & _ & H1 & H2 & _);
    [apply ToyChain.distinct_ok; vm_compute; reflexivity|vm_compute; reflexivity
    |vm_compute; reflexivity|vm_compute; reflexivity|].
  exists joined, left_behind. split; [exact H1|exact H2].
Defined.

(** A fork of one block beside the active block of the same work: after a header
    with another target was refused, the heavier extension does not take over. *)
Lemma refused_header_drops_fork_witness :
  let t := run (tree_new ToyChain.start)
             (ToyChain.headers_ops [ToyChain.block 1 0 1; ToyChain.block 2 1 1; ToyChain.block 12 1 1]) in
  let t1 := (accept_header t (ToyChain.block 20 12 5)).1 in
  active_tip (accept_header t1 (ToyChain.block 13 12 1)).1 = active_tip t /\
  tip_hash (active_tip (accept_header t (ToyChain.block 13 12 1)).1) = ToyChain.hash 13.
Proof.
  intros t t1. split; [|vm_compute; reflexivity].
  apply (refused_header_drops_fork ToyChain.start
    (ToyChain.headers_ops [ToyChain.block 1 0 1; ToyChain.block 2 1 1; ToyChain.block 12 1 1])
    (ToyChain.block 20 12 5) (ToyChain.block 13 12 1) (mkTip (ToyChain.hash 12) 102 (Some 1))).
  - apply ToyChain.distinct_ok. vm_compute. reflexivity.
  - vm_compute. reflexivity.
  - vm_compute. left.
  - vm_compute. reflexivity.
  - vm_compute. reflexivity.
  - eexists _, _. vm_compute. reflexivity.
  - reflexivity.
Defined.

Lemma rescan_clears_active_chain_witness :
  let t := run (tree_new ToyChain.start) (ToyChain.race ++ [OpCheck (ToyChain.hash 2)]) in
  (exists n, n ∈ iter_data t /\ filter_checked n = true) /\
  forall n, n ∈ iter_data (reset_all_filters t) -> filter_checked n = false.
Proof.
  intros t. split.
  - eexists. split; [vm_compute; right; left|reflexivity].
  - apply (rescan_clears_active_chain ToyChain.start (ToyChain.race ++ [OpCheck (ToyChain.hash 2)]));
      [apply ToyChain.distinct_ok; vm_compute; reflexivity|vm_compute; discriminate].
Defined.

Lemma tree_walks_terminate_witness :
  let t := run (tree_new ToyChain.start) (ToyChain.race ++ [OpCheck (ToyChain.hash 2)]) in
  ends (switch_turn (headers t)) (canonical_hashes t, ToyChain.hash 13, ([], []))
    (switch_loop (size (headers t)) (headers t) (canonical_hashes t) (ToyChain.hash 13) [] []).
Proof.
  intros t.
  pose proof (tree_walks_terminate ToyChain.start (ToyChain.race ++ [OpCheck (ToyChain.hash 2)]) (ToyChain.hash 13)) as H.
  destruct H as (_ & H & _); [apply ToyChain.distinct_ok; vm_compute; reflexivity|vm_compute; discriminate|].
  exact (H (canonical_hashes t) (mkTip (ToyChain.hash 13) 103 None)).
Defined.

(** ** Two shortcomings *)

(** After a reorganization to a lower tip of more work the index by height
    is wrong. The entries above the new tip stay; when the old branch takes over
    again, the switch stops at the first of them, and heights below it keep the
    blocks of the abandoned branch: the index names a block that is not on the
    active chain, at the height of one that is.*)
Theorem lower_reorganization_breaks_index :
  let ops := ToyChain.headers_ops
    [ToyChain.block 1 0 10; ToyChain.block 2 1 1; ToyChain.block 3 2 1; ToyChain.block 4 3 1;
     ToyChain.block 5 4 1; ToyChain.block 6 5 1; ToyChain.block 12 1 10; ToyChain.block 13 12 10;
     ToyChain.block 7 6 100] in
  let t := run (tree_new ToyChain.start) ops in
  hashes_distinct ToyChain.start (shown ops) /\
  (exists n, (ToyChain.hash 3, n) ∈ active_chain t /\ node_height n = 103) /\
  block_hash_at_height t 103 = Some (ToyChain.hash 13) /\
  ToyChain.hash 13 ∉ (active_chain t).*1.
Proof.
  intros ops t. split; [apply ToyChain.distinct_ok; vm_compute; reflexivity|].
  split; [eexists; split; [vm_compute; do 4 right; left|reflexivity]|].
  split; [vm_compute; reflexivity|].
  apply (bool_decide_unpack (ToyChain.hash 13 ∉ (active_chain t).*1)). vm_compute. exact I.
Qed.

(** A rescan skips blocks of a fork. When the tip of a fork is not marked as
    checked, [reset_all_filters] leaves the marks of the blocks below it; if the
    fork then becomes the active chain, blocks count as checked although their
    filters were never looked at since the rescan began.*)
Theorem rescan_skips_fork_blocks :
  let t := run (tree_new ToyChain.start)
    (ToyChain.race ++ [OpCheck (ToyChain.hash 2); OpCheck (ToyChain.hash 3);
                       OpHeader ToyChain.overtaking; OpHeader (ToyChain.block 4 3 1)]) in
  let t' := (accept_header (reset_all_filters t) (ToyChain.block 5 4 1)).1 in
  is_filter_checked t' (ToyChain.hash 2) = true /\ is_filter_checked t' (ToyChain.hash 3) = true /\
  [ToyChain.hash 2; ToyChain.hash 3] ⊆ (active_chain t').*1.
Proof.
  intros t t'. split; [vm_compute; reflexivity|]. split; [vm_compute; reflexivity|].
  intros x [->|[->|[]%not_elem_of_nil]%elem_of_cons]%elem_of_cons.
  - vm_compute. do 3 right. left.
  - vm_compute. do 2 right. left.
Qed.
