(* ===== verification/FilterChain.v ===== *)
(** * Compact filters on the header tree

    [Chain] of [crates/hns-wallet-bip157/src/chain/chain.rs] with the request
    state of [chain/mod.rs]: batches of headers from a peer, agreement of several
    peers on the filter headers, the filters themselves, and the requests that
    fill what is missing. What the client tells its user goes out as a list of
    events.

    Parameters ([ChainEnv]): the hash of a filter, the filter-header hash, the
    proof-of-work check and the difficulty transition rule of the [bitcoin]
    crate. *)

From stdpp Require Import sorting.
From S2P Require Import Prelude BlockGraph.

Class ChainEnv `{BitcoinEnv} := {
  (* FilterHash::filter_header *)
  filter_header : bytes -> bytes -> bytes;
  (* FilterHash of the filter's contents *)
  filter_contents_hash : bytes -> bytes;
  (* Header::validate_pow of the header's own target *)
  header_pow_valid : Header -> bool;
  (* the second target is within the maximum transition from the first *)
  transition_allowed : N -> N -> bool;
}.

Definition CF_HEADER_BATCH_SIZE : N := 1999.
Definition FILTER_BATCH_SIZE : N := 999.
Definition MAX_PREV_STOP_HASHES : nat := 3.

Definition PeerId : Type := N.

Record CFHeaders := mkCFHeaders {
  cfh_filter_type : N;
  cfh_stop_hash : bytes;
  previous_filter_header : bytes;
  filter_hashes : list bytes;
}.
Record CFilter := mkCFilter { cf_filter_type : N; cf_block_hash : bytes; cf_filter : bytes }.
Record GetFilters := mkGet { get_filter_type : N; get_start_height : N; get_stop_hash : bytes }.

Record FilterRequest := mkFilterRequest { fr_start_height : N; fr_stop_hash : bytes }.
Record FilterHeaderRequest := mkFilterHeaderRequest {
  fhr_start_height : N;
  fhr_stop_hash : bytes;
  expected_prev_filter_header : option bytes;
}.

(** [FilterHeaderAgreements]; the counter is a [u8], which the release build
    wraps around. *)
Record FilterHeaderAgreements := mkAgreements { agree_current : N; agree_required : N }.
Definition got_agreement (a : FilterHeaderAgreements) : FilterHeaderAgreements :=
  mkAgreements ((agree_current a + 1) mod 256) (agree_required a).
Definition enough_agree (a : FilterHeaderAgreements) : bool := agree_required a <=? agree_current a.
Definition reset_agreements (a : FilterHeaderAgreements) : FilterHeaderAgreements :=
  mkAgreements 0 (agree_required a).

Record CFHeaderBatch := mkBatch {
  batch_inner : list FilterCommitment;
  batch_prev_header : bytes;
  batch_stop_hash : bytes;
}.
(** [CFHeaderBatch::len]: the length cast to [u32]. *)
Definition batch_len (b : CFHeaderBatch) : N := len (batch_inner b) mod 2 ^ 32.
#[global] Instance CFHeaderBatch_eq_dec : EqDecision CFHeaderBatch.
Proof. solve_decision. Defined.

Record FilterRequestState := mkRequests {
  last_filter_request : option FilterRequest;
  last_filter_header_request : option FilterHeaderRequest;
  pending_batch : option (PeerId * CFHeaderBatch);
  agreement_state : FilterHeaderAgreements;
  prev_cf_header_stop_hashes : list bytes;
}.

Definition requests_new (required : N) : FilterRequestState :=
  mkRequests None None None (mkAgreements 0 required) [].
Definition set_filter_request (r : FilterRequestState) v :=
  mkRequests v (last_filter_header_request r) (pending_batch r) (agreement_state r)
    (prev_cf_header_stop_hashes r).
Definition set_header_request (r : FilterRequestState) v :=
  mkRequests (last_filter_request r) v (pending_batch r) (agreement_state r)
    (prev_cf_header_stop_hashes r).
Definition set_pending_batch (r : FilterRequestState) v :=
  mkRequests (last_filter_request r) (last_filter_header_request r) v (agreement_state r)
    (prev_cf_header_stop_hashes r).
Definition set_agreements (r : FilterRequestState) v :=
  mkRequests (last_filter_request r) (last_filter_header_request r) (pending_batch r) v
    (prev_cf_header_stop_hashes r).

Definition push_stop_hash (r : FilterRequestState) (hash : bytes) : FilterRequestState :=
  let stops := prev_cf_header_stop_hashes r in
  if bool_decide (hash ∈ stops) then r else
  let stops := if (MAX_PREV_STOP_HASHES <=? length stops)%nat then tail stops else stops in
  mkRequests (last_filter_request r) (last_filter_header_request r) (pending_batch r)
    (agreement_state r) (stops ++ [hash]).
Definition was_recently_requested (r : FilterRequestState) (hash : bytes) : bool :=
  bool_decide (hash ∈ prev_cf_header_stop_hashes r).

Inductive CFHeaderChanges := AddedToQueue | Extended | Conflict.

Inductive HeaderSyncError :=
| HeadersNotConnected | InvalidHeaderWork | InvalidHeaderTimes | InvalidCheckpoint
| MiscalculatedDifficulty | InvalidBits | FloatingHeaders.
Inductive CFHeaderSyncError :=
| CfhWrongFilterType | EmptyMessage | CfhUnknownStophash | StopHashMismatch
| CfhUnrequestedStophash | PrevHeaderMismatch | HeaderChainIndexOverflow
| UnexpectedCFHeaderMessage | StartHeightMisalignment.
Inductive CFilterSyncError :=
| CfWrongFilterType | CfUnknownStophash | CfUnrequestedStophash | UnknownFilterHash
| MisalignedFilterHash.

(** The messages of the cached-batch errors. *)
Inductive RestoreError :=
| InvalidCachedBatch | CachedHeaderUnknown | CachedConflict | CachedGap | CachedAncestryMismatch.

Section FilterChain.
Context {env : BitcoinEnv} {cenv : ChainEnv}.

Inductive ChainEvent :=
| Connected (at_ : IndexedHeader)
| ForkAdded (at_ : IndexedHeader)
| Reorganized (accepted reorganized : list IndexedHeader)
| IndexedFilter (height : N) (header : Header) (contents : bytes).

Inductive HeaderSyncEffect := Added | Empty | Reorg (hashes : list bytes).

Record Chain := mkChain {
  header_chain : BlockTree;
  request_state : FilterRequestState;
  filter_type : N;
  checkpoint_height : N;
  checkpoint_hash : bytes;
  filter_cursor : N;
}.
Definition set_header_chain (c : Chain) (t : BlockTree) : Chain :=
  mkChain t (request_state c) (filter_type c) (checkpoint_height c) (checkpoint_hash c) (filter_cursor c).
Definition set_request_state (c : Chain) (r : FilterRequestState) : Chain :=
  mkChain (header_chain c) r (filter_type c) (checkpoint_height c) (checkpoint_hash c) (filter_cursor c).
Definition set_filter_cursor (c : Chain) (n : N) : Chain :=
  mkChain (header_chain c) (request_state c) (filter_type c) (checkpoint_height c) (checkpoint_hash c) n.

(** [CFHeaderBatch::new]. *)
Fixpoint batch_commitments (prev : bytes) (hashes : list bytes) : list FilterCommitment :=
  match hashes with
  | [] => []
  | hash :: hashes =>
      let next := filter_header hash prev in
      mkCommitment next hash :: batch_commitments next hashes
  end.
Definition batch_new (b : CFHeaders) : CFHeaderBatch :=
  mkBatch (batch_commitments (previous_filter_header b) (filter_hashes b))
          (previous_filter_header b) (cfh_stop_hash b).

(** ** Opening *)

Inductive ChainState :=
| Snapshot (hs : list IndexedHeader)
| Checkpoint (height : N) (hash : bytes).

Definition chain_new (state : ChainState) (quorum_required type : N) : Chain :=
  let '(height, hash) :=
    match state with
    | Checkpoint height hash => (height, hash)
    | Snapshot [] => (0, block_hash genesis_header)
    | Snapshot (h :: _) => (ih_height h, block_hash (ih_header h))
    end in
  let tree :=
    match state with
    | Snapshot (h :: rest) =>
        fold_left (fun t h => (accept_header t (ih_header h)).1) rest
          (tree_new (tip_from_checkpoint (ih_height h) (block_hash (ih_header h))))
    | Snapshot [] => from_genesis
    | Checkpoint height hash => tree_new (tip_from_checkpoint height hash)
    end in
  mkChain tree (requests_new quorum_required) type height hash 0.

(** ** Headers *)

Fixpoint connected (hs : list Header) : bool :=
  match hs with
  | first :: ((second :: _) as rest) =>
      bool_decide (block_hash first = prev_blockhash second) && connected rest
  | _ => true
  end.
Definition passes_own_pow (hs : list Header) : bool := forallb header_pow_valid hs.
Fixpoint transitions_allowed (hs : list Header) : bool :=
  match hs with
  | first :: ((second :: _) as rest) =>
      transition_allowed (bits first) (bits second) && transitions_allowed rest
  | _ => true
  end.
Definition bits_adhere_transition_threshold (hs : list Header) : bool :=
  if allow_min_difficulty_blocks then true else transitions_allowed hs.

Definition sanity_check (hs : list Header) : result unit HeaderSyncError :=
  if negb (connected hs) then Err HeadersNotConnected else
  if negb (passes_own_pow hs) then Err InvalidHeaderWork else
  if negb (bits_adhere_transition_threshold hs) then Err InvalidBits else Ok tt.

Definition clear_compact_filter_queue (c : Chain) : Chain :=
  let r := request_state c in
  set_request_state c
    (mkRequests (last_filter_request r) None None (reset_agreements (agreement_state r))
       (prev_cf_header_stop_hashes r)).

(** The order of [IndexedHeader], and [sort] with it. *)
Definition not_above (a b : IndexedHeader) : Prop := ih_height a <= ih_height b.
#[global] Instance not_above_dec : RelDecision not_above.
Proof. intros a b. unfold not_above. apply _. Defined.
Definition by_height (l : list IndexedHeader) : list IndexedHeader := merge_sort not_above l.

Fixpoint sync_headers (c : Chain) (hs : list Header) (reorgs : list bytes) (events : list ChainEvent) :
    Chain * list ChainEvent * result (list bytes) HeaderSyncError :=
  match hs with
  | [] => (c, events, Ok reorgs)
  | h :: hs =>
      let '(t, changes) := accept_header (header_chain c) h in
      let c := set_header_chain c t in
      match changes with
      | Accepted at_ => sync_headers c hs reorgs (events ++ [Connected at_])
      | Duplicate => sync_headers c hs reorgs events
      | ExtendedFork at_ => sync_headers c hs reorgs (events ++ [ForkAdded at_])
      | Reorganization accepted disconnected =>
          let disconnected := by_height disconnected in
          sync_headers (clear_compact_filter_queue c) hs
            ((fun h => block_hash (ih_header h)) <$> disconnected)
            (events ++ [Reorganized (by_height accepted) disconnected])
      | Rejected (InvalidPow _ _) => (c, events, Err InvalidBits)
      | Rejected (UnknownPrevHash _) => (c, events, Err FloatingHeaders)
      end
  end.

Definition sync_chain (c : Chain) (hs : list Header) :
    Chain * list ChainEvent * result HeaderSyncEffect HeaderSyncError :=
  match hs !! (length hs - 1)%nat with
  | None => (c, [], Ok Empty)
  | Some h =>
      if contains (header_chain c) (block_hash h) then (c, [], Ok Empty) else
      match sanity_check hs with
      | Err e => (c, [], Err e)
      | Ok _ =>
          let '(c, events, r) := sync_headers c hs [] [] in
          (c, events,
           match r with
           | Err e => Err e
           | Ok [] => Ok Added
           | Ok reorgs => Ok (Reorg reorgs)
           end)
      end
  end.

(** ** Filter headers *)

(** [push_cf_header_batch]: from the stop hash backwards. *)
Fixpoint push_commitments (t : BlockTree) (cs : list FilterCommitment) (curr : bytes) : BlockTree :=
  match cs with
  | [] => t
  | commitment :: cs =>
      let t := set_commitment t commitment curr in
      match header_at_hash t curr with
      | Some h => push_commitments t cs (prev_blockhash h)
      | None => t
      end
  end.
Definition push_cf_header_batch (c : Chain) (b : CFHeaderBatch) (stop_hash : bytes) : Chain :=
  set_header_chain c (push_commitments (header_chain c) (rev (batch_inner b)) stop_hash).

Definition has_commitment_header (t : BlockTree) (header : bytes) : bool :=
  existsb (fun n => is_some_and (node_filter_commitment n)
                      (fun fc => bool_decide (fc_header fc = header))) (iter_data t).

(** Count the agreement of one more peer; with enough of them the batch is
    written to the tree, otherwise it waits under [id]. *)
Definition count_agreement (c : Chain) (b : CFHeaderBatch) (id : PeerId) (stop_hash : bytes) :
    Chain * CFHeaderChanges :=
  let r := request_state c in
  let a := got_agreement (agreement_state r) in
  if enough_agree a then
    (push_cf_header_batch (set_request_state c (set_agreements r (reset_agreements a))) b stop_hash,
     Extended)
  else (set_request_state c (set_pending_batch (set_agreements r a) (Some (id, b))), AddedToQueue).

Definition sync_cf_headers (c : Chain) (peer_id : PeerId) (m : CFHeaders) :
    Chain * result CFHeaderChanges CFHeaderSyncError :=
  if negb (cfh_filter_type m =? filter_type c) then (c, Err CfhWrongFilterType) else
  let batch := batch_new m in
  match last_filter_header_request (request_state c) with
  | None => (c, Err UnexpectedCFHeaderMessage)
  | Some request =>
      if is_some_and (expected_prev_filter_header request)
           (fun expected => negb (bool_decide (expected = batch_prev_header batch)))
      then (c, if has_commitment_header (header_chain c) (batch_prev_header batch)
               then Ok AddedToQueue else Err PrevHeaderMismatch) else
      if negb (bool_decide (fhr_stop_hash request = batch_stop_hash batch))
      then (c, if was_recently_requested (request_state c) (batch_stop_hash batch)
               then Ok AddedToQueue else Err CfhUnrequestedStophash) else
      let! c, height_of_stop_hash :=
        (c, ok_or (height_of_hash (header_chain c) (batch_stop_hash batch)) CfhUnknownStophash) in
      let! c, offset := (c, ok_or (checked_sub (batch_len batch) 1) EmptyMessage) in
      let! c, expected_start :=
        (c, ok_or (checked_sub height_of_stop_hash offset) HeaderChainIndexOverflow) in
      if negb (expected_start =? fhr_start_height request)
      then (c, Err StartHeightMisalignment) else
      let pending := pending_batch (request_state c) in
      let c := set_request_state c (set_pending_batch (request_state c) None) in
      match pending with
      | Some (id, other) =>
          if peer_id =? id then (c, Ok AddedToQueue) else
          if negb (bool_decide (other = batch)) then
            (set_request_state c
               (set_agreements (request_state c) (reset_agreements (agreement_state (request_state c)))),
             Ok Conflict)
          else let '(c, changes) := count_agreement c batch id (fhr_stop_hash request) in
               (c, Ok changes)
      | None =>
          let '(c, changes) := count_agreement c batch peer_id (fhr_stop_hash request) in
          (c, Ok changes)
      end
  end.

(** The height the next filter-header request starts at, and the header of the
    last commitment below it. *)
Fixpoint first_uncommitted (nodes : list BlockNode) (last : N) : N * option bytes :=
  match nodes with
  | [] => (last, None)
  | n :: nodes =>
      if node_height n =? 0 then (last, None) else
      match node_filter_commitment n with
      | Some fc => (last, Some (fc_header fc))
      | None => first_uncommitted nodes (node_height n)
      end
  end.

Definition next_cf_header_message (c : Chain) : Chain * GetFilters :=
  let t := header_chain c in
  let '(start, prev_header) := first_uncommitted (iter_data t) (tip_height (active_tip t)) in
  let stop_hash :=
    default (tip_hash (active_tip t)) (block_hash_at_height t ((start + CF_HEADER_BATCH_SIZE) mod 2 ^ 32)) in
  let r := push_stop_hash (request_state c) stop_hash in
  (set_request_state c (set_header_request r (Some (mkFilterHeaderRequest start stop_hash prev_header))),
   mkGet (filter_type c) start stop_hash).

Definition is_cf_headers_synced (c : Chain) : bool := filter_headers_synced (header_chain c).

(** [restore_filter_headers]: the blocks the cached commitments belong to, from
    the stop hash backwards, and the parent of the last one. *)
Fixpoint restore_walk (t : BlockTree) (cs : list FilterCommitment) (current : bytes)
    (restored : list (bytes * FilterCommitment)) :
    result (list (bytes * FilterCommitment) * bytes) RestoreError :=
  match cs with
  | [] => Ok (restored, current)
  | commitment :: cs =>
      let* header := ok_or (header_at_hash t current) CachedHeaderUnknown in
      if is_some_and (filter_commitment t current)
           (fun existing => negb (bool_decide (existing = commitment)))
      then Err CachedConflict
      else restore_walk t cs (prev_blockhash header) (restored ++ [(current, commitment)])
  end.

Definition write_commitments (t : BlockTree) (restored : list (bytes * FilterCommitment)) : BlockTree :=
  fold_left (fun t p => set_commitment t p.2 p.1) restored t.

Definition restore_filter_headers (c : Chain) (packet : CFHeaders) : Chain * result unit RestoreError :=
  if negb (cfh_filter_type packet =? filter_type c) || (len (filter_hashes packet) =? 0)
     || (2000 <? len (filter_hashes packet))
  then (c, Err InvalidCachedBatch) else
  let batch := batch_new packet in
  let! c, walked :=
    (c, restore_walk (header_chain c) (rev (batch_inner batch)) (batch_stop_hash batch) []) in
  let '(restored, current) := walked in
  let includes_anchor :=
    is_some_and (restored !! (length restored - 1)%nat)
      (fun p => bool_decide (p.1 = checkpoint_hash c)) in
  let! c, _ :=
    (c, if negb (bool_decide (current = checkpoint_hash c)) && negb includes_anchor then
          let* parent := ok_or (filter_commitment (header_chain c) current) CachedGap in
          if negb (bool_decide (fc_header parent = batch_prev_header batch))
          then Err CachedAncestryMismatch else Ok tt
        else Ok tt) in
  (set_header_chain c (write_commitments (header_chain c) restored), Ok tt).

(** ** Filters *)

Definition apply_filter (c : Chain) (m : CFilter) :
    Chain * list ChainEvent * result unit CFilterSyncError :=
  if negb (cf_filter_type m =? filter_type c) then (c, [], Err CfWrongFilterType) else
  match filter_commitment (header_chain c) (cf_block_hash m) with
  | None => (c, [], Err UnknownFilterHash)
  | Some commitment =>
      if negb (bool_decide (filter_contents_hash (cf_filter m) = fc_filter_hash commitment))
      then (c, [], Err MisalignedFilterHash) else
      match height_of_hash (header_chain c) (cf_block_hash m),
            header_at_hash (header_chain c) (cf_block_hash m) with
      | Some height, Some header =>
          (set_header_chain c (check_filter (header_chain c) (cf_block_hash m)),
           [IndexedFilter height header (cf_filter m)], Ok tt)
      | _, _ => (c, [], Err UnknownFilterHash)
      end
  end.

Definition restore_filter (c : Chain) (m : CFilter) :
    Chain * list ChainEvent * result unit CFilterSyncError :=
  if negb (is_some (height_of_hash_canonical_only (header_chain c) (cf_block_hash m)))
     || is_filter_checked (header_chain c) (cf_block_hash m)
  then (c, [], Ok tt) else apply_filter c m.

Definition checked_at (t : BlockTree) (height : N) : bool :=
  is_some_and (block_hash_at_height t height) (is_filter_checked t).

(** The loop of [requested_filter_batch_complete]: the cursor and the answer. *)
Fixpoint advance_cursor (fuel : nat) (t : BlockTree) (cursor stop : N) : N * bool :=
  match fuel with
  | O => (cursor, true)
  | S fuel =>
      if stop <? cursor then (cursor, true) else
      if negb (checked_at t cursor) then (cursor, false) else
      if cursor =? U32_MAX then (cursor, true) else advance_cursor fuel t (cursor + 1) stop
  end.

(** One round per height from the cursor to the stop. *)
Definition requested_filter_batch_complete (c : Chain) : Chain * bool :=
  match last_filter_request (request_state c) with
  | None => (c, false)
  | Some request =>
      match height_of_hash_canonical_only (header_chain c) (fr_stop_hash request) with
      | None => (c, false)
      | Some stop =>
          let '(cursor, complete) :=
            advance_cursor (N.to_nat (stop + 1 - filter_cursor c)) (header_chain c)
              (filter_cursor c) stop in
          (set_filter_cursor c cursor, complete)
      end
  end.

(** [FilterCheck] is its one flag, [was_last_in_batch]. *)
Definition sync_filter (c : Chain) (m : CFilter) :
    Chain * list ChainEvent * result bool CFilterSyncError :=
  if negb (is_some (last_filter_request (request_state c))) then (c, [], Err CfUnrequestedStophash) else
  if is_filter_checked (header_chain c) (cf_block_hash m) then
    let '(c, complete) := requested_filter_batch_complete c in (c, [], Ok complete)
  else
    match apply_filter c m with
    | (c, events, Err e) => (c, events, Err e)
    | (c, events, Ok _) =>
        let '(c, complete) := requested_filter_batch_complete c in (c, events, Ok complete)
    end.

Definition min_height (hs : list N) : option N :=
  match hs with [] => None | h :: hs => Some (fold_left N.min hs h) end.
Definition first_unchecked (t : BlockTree) : N :=
  default (tip_height (active_tip t))
    (min_height (node_height <$> List.filter (fun n => negb (filter_checked n)) (iter_data t))).

(** The height before the first checked block among [count] heights from
    [height] on; [stop] when there is none. *)
Fixpoint stop_before_checked (count : nat) (t : BlockTree) (height stop : N) : N :=
  match count with
  | O => stop
  | S count =>
      if checked_at t height then height - 1 else stop_before_checked count t (height + 1) stop
  end.

Definition next_filter_message (c : Chain) : Chain * GetFilters :=
  let t := header_chain c in
  let start := first_unchecked t in
  let last := N.min (saturating_add U32_MAX start FILTER_BATCH_SIZE) (tip_height (active_tip t)) in
  let from := saturating_add U32_MAX start 1 in
  let stop := stop_before_checked (N.to_nat (last + 1 - from)) t from last in
  let stop_hash := default (tip_hash (active_tip t)) (block_hash_at_height t stop) in
  let r := set_filter_request (request_state c) (Some (mkFilterRequest start stop_hash)) in
  (set_filter_cursor (set_request_state c r) start, mkGet (filter_type c) start stop_hash).

Definition is_filters_synced (c : Chain) : bool := filters_synced (header_chain c).

Definition clear_filters (c : Chain) : Chain :=
  set_header_chain c (reset_all_filters (header_chain c)).

(** What [Node::rescan] of [node.rs] does to the chain. *)
Definition rescan_chain (c : Chain) (height_opt : option N) : Chain :=
  let c := clear_filters c in
  match height_opt with
  | Some height => set_header_chain c (assume_checked_to (header_chain c) height)
  | None => c
  end.

(** [last_ten], as the entries of the map. *)
Definition last_ten (c : Chain) : gmap N Header :=
  list_to_map ((fun i => (ih_height i, ih_header i)) <$> rev (take 10 (iter_headers (header_chain c)))).
End FilterChain.
