(* ===== verification/FilterChainTheorems.v ===== *)
(** * Properties of the compact-filter chain

    What [FilterChain] guarantees about the filter headers peers agree on, the
    filters handed to the wallet and the requests that fetch them, and the place
    where one peer is enough for a quorum. *)

From Stdlib Require Import Strings.Byte.
From S2P Require Import Prelude BlockGraph BlockGraphProofs BlockGraphTheorems FilterChain.

Section Agreement.
Context {env : BitcoinEnv} {cenv : ChainEnv}.
Implicit Types (c : Chain) (p : PeerId) (m : CFHeaders).

(** The message answers the outstanding request for filter headers. *)
Definition answers c m : bool :=
  (cfh_filter_type m =? filter_type c) &&
  is_some_and (last_filter_header_request (request_state c)) (fun rq =>
    negb (is_some_and (expected_prev_filter_header rq)
            (fun e => negb (bool_decide (e = previous_filter_header m)))) &&
    bool_decide (fhr_stop_hash rq = cfh_stop_hash m) &&
    is_some_and (height_of_hash (header_chain c) (cfh_stop_hash m)) (fun height =>
    is_some_and (checked_sub (batch_len (batch_new m)) 1) (fun offset =>
    is_some_and (checked_sub height offset) (fun start => start =? fhr_start_height rq)))).

Definition set_pending c v : Chain := set_request_state c (set_pending_batch (request_state c) v).

(** What an answer does. *)
Definition stage c p m : Chain * result CFHeaderChanges CFHeaderSyncError :=
  let c' := set_pending c None in
  match pending_batch (request_state c) with
  | Some (id, other) =>
      if p =? id then (c', Ok AddedToQueue) else
      if negb (bool_decide (other = batch_new m)) then
        (set_request_state c'
           (set_agreements (request_state c') (reset_agreements (agreement_state (request_state c')))),
         Ok Conflict)
      else let '(c', changes) := count_agreement c' (batch_new m) id (cfh_stop_hash m) in (c', Ok changes)
  | None => let '(c', changes) := count_agreement c' (batch_new m) p (cfh_stop_hash m) in (c', Ok changes)
  end.

Lemma sync_answer c p m : answers c m = true -> sync_cf_headers c p m = stage c p m.
Proof.
  unfold answers, sync_cf_headers, stage. intros H. bool_prop.
  destruct (last_filter_header_request _) as [rq|]; [|done]. simpl in *. bool_prop.
  destruct (height_of_hash _ _) as [height|]; [|done]. simpl in *.
  destruct (checked_sub (batch_len _) 1) as [offset|]; [|done]. simpl in *.
  destruct (checked_sub height offset) as [first|]; [|done]. simpl in *. bool_prop.
  repeat match goal with
  | H : ?b = false |- context [?b] => rewrite H
  | H : ?a = ?b |- context [?a =? ?b] => rewrite (proj2 (N.eqb_eq a b) H)
  | H : ?a = ?b |- context [bool_decide (?a = ?b)] => rewrite (bool_decide_eq_true_2 _ H)
  end; simpl.
  match goal with H : fhr_stop_hash rq = _ |- _ => rewrite H end. done.
Qed.

Lemma sync_no_answer c p m : answers c m = false ->
  (sync_cf_headers c p m).1 = c /\ (sync_cf_headers c p m).2 <> Ok Extended.
Proof.
  unfold answers, sync_cf_headers. intros H.
  destruct (cfh_filter_type m =? _); [simpl in H|done]. simpl.
  destruct (last_filter_header_request _) as [rq|]; [simpl in H|done].
  destruct (is_some_and (expected_prev_filter_header rq) _); [simpl; by case_match|]. simpl in H.
  destruct (bool_decide _); [simpl in H |- *|simpl; by case_match].
  destruct (height_of_hash _ _) as [height|]; [simpl in H |- *|done].
  destruct (checked_sub (batch_len _) 1) as [offset|]; [simpl in H |- *|done].
  destruct (checked_sub height offset) as [first|]; [simpl in H |- *|done].
  by rewrite H.
Qed.

Lemma answers_requests c m r : last_filter_header_request r = last_filter_header_request (request_state c) ->
  answers (set_request_state c r) m = answers c m.
Proof. unfold answers. simpl. by intros ->. Qed.

(** C40: one peer is enough for a quorum of two. When a peer sends the same
    answer three times, the first is kept, the second drops what was kept but
    not its count, and the third is counted as the second agreement: the peer's
    filter headers are written to the tree. *)
Theorem single_peer_reaches_quorum c p m :
  answers c m = true -> pending_batch (request_state c) = None ->
  agreement_state (request_state c) = mkAgreements 0 2 ->
  let c1 := (sync_cf_headers c p m).1 in
  let c2 := (sync_cf_headers c1 p m).1 in
  (sync_cf_headers c2 p m).2 = Ok Extended /\
  header_chain (sync_cf_headers c2 p m).1
    = header_chain (push_cf_header_batch c (batch_new m) (cfh_stop_hash m)).
Proof.
  intros Ha Hp Hs. cbv zeta.
  assert (H1 : exists r, (sync_cf_headers c p m).1 = set_request_state c r /\
    agreement_state r = mkAgreements 1 2 /\ pending_batch r = Some (p, batch_new m) /\
    last_filter_header_request r = last_filter_header_request (request_state c)).
  { rewrite sync_answer by done. unfold stage, count_agreement. rewrite Hp. simpl. rewrite Hs. eauto. }
  destruct H1 as (r1 & -> & Hs1 & Hp1 & Hr1).
  assert (H2 : exists r, (sync_cf_headers (set_request_state c r1) p m).1 = set_request_state c r /\
    agreement_state r = mkAgreements 1 2 /\ pending_batch r = None /\
    last_filter_header_request r = last_filter_header_request (request_state c)).
  { rewrite sync_answer by by rewrite answers_requests. unfold stage. simpl. rewrite Hp1, N.eqb_refl.
    simpl. eauto. }
  destruct H2 as (r2 & -> & Hs2 & Hp2 & Hr2).
  rewrite sync_answer by by rewrite answers_requests. unfold stage, count_agreement. simpl.
  rewrite Hp2, Hs2. done.
Qed.

(** ** Peers that answer once *)

Definition cf_run c (msgs : list (PeerId * CFHeaders)) : Chain :=
  fold_left (fun c pm => (sync_cf_headers c pm.1 pm.2).1) msgs c.

(** [peers] are distinct senders among [msgs] of messages with the batch [b]. *)
Definition agreed (msgs : list (PeerId * CFHeaders)) (b : CFHeaderBatch) (peers : list PeerId) : Prop :=
  NoDup peers /\ forall q, q ∈ peers -> exists m, (q, m) ∈ msgs /\ batch_new m = b.

Definition counted required msgs c : Prop :=
  agree_required (agreement_state (request_state c)) = required /\
  match pending_batch (request_state c) with
  | None => agree_current (agreement_state (request_state c)) = 0
  | Some (id, b) => exists peers, agreed msgs b peers /\ id ∈ peers /\
      len peers = agree_current (agreement_state (request_state c)) /\ len peers < required
  end.

Lemma agreed_weaken msgs pm b peers : agreed msgs b peers -> agreed (msgs ++ [pm]) b peers.
Proof. intros [Hn H]. split; [done|]. intros q (m & Hm & ?)%H. exists m. set_solver. Qed.

Lemma agreed_cons msgs p m peers : p ∉ msgs.*1 -> agreed msgs (batch_new m) peers ->
  agreed (msgs ++ [(p, m)]) (batch_new m) (p :: peers).
Proof.
  intros Hp Ha. destruct (agreed_weaken _ (p, m) _ _ Ha) as [Hn H]. split.
  - apply list.NoDup_cons. split; [|done]. intros (m' & Hm & _)%Ha. apply Hp.
    apply list_elem_of_fmap. by exists (p, m').
  - intros q [->|Hq]%elem_of_cons; [|auto]. exists m. set_solver.
Qed.

Lemma counted_weaken required msgs pm c : counted required msgs c -> counted required (msgs ++ [pm]) c.
Proof.
  intros [Hr Hc]. split; [done|]. destruct (pending_batch _) as [[id b]|]; [|done].
  destruct Hc as (peers & Ha & ?). exists peers. split; [by apply agreed_weaken|done].
Qed.

(** One more agreement on the batch of [m]: the senders so far and [p]. *)
Lemma count_agreement_counted required msgs peers id m c :
  required <= 255 -> agree_required (agreement_state (request_state c)) = required ->
  pending_batch (request_state c) = None ->
  agreed msgs (batch_new m) peers -> id ∈ peers ->
  len peers = agree_current (agreement_state (request_state c)) + 1 -> len peers <= required ->
  let r := count_agreement c (batch_new m) id (cfh_stop_hash m) in
  counted required msgs r.1 /\ (r.2 = Extended -> len peers = required).
Proof.
  intros Hb Hr Hp Ha Hid Hl Hle. unfold count_agreement, enough_agree. simpl.
  rewrite N.mod_small, Hr by lia. destruct (N.leb_spec required (agree_current (agreement_state (request_state c)) + 1)).
  - split; [|intros; lia]. split; simpl; [done|]. by rewrite Hp.
  - split; [|done]. split; simpl; [done|]. exists peers. rewrite ?N.mod_small by lia. split_and!; auto; lia.
Qed.

Lemma sync_counted required msgs c p m : 0 < required <= 255 -> p ∉ msgs.*1 ->
  counted required msgs c ->
  let r := sync_cf_headers c p m in
  counted required (msgs ++ [(p, m)]) r.1 /\
  (r.2 = Ok Extended -> exists peers, agreed (msgs ++ [(p, m)]) (batch_new m) peers /\ len peers = required).
Proof.
  intros Hb Hp Hc r. subst r. destruct (answers c m) eqn:Hans.
  2:{ destruct (sync_no_answer c p m Hans) as [-> Hne]. split; [by apply counted_weaken|done]. }
  rewrite sync_answer by done. destruct Hc as [Hr Hc]. unfold stage.
  destruct (pending_batch _) as [[id b]|].
  - destruct Hc as (peers & Ha & Hid & Hl & Hlt).
    destruct (N.eqb_spec p id) as [->|Hne].
    { destruct (proj2 Ha id Hid) as (m' & Hm & _). destruct Hp. apply list_elem_of_fmap. by exists (id, m'). }
    case_bool_decide as Hbm; simpl; [subst b|split; [done|intros [=]]].
    destruct (count_agreement_counted required (msgs ++ [(p, m)]) (p :: peers) id m (set_pending c None))
      as [H1 H2]; auto; [lia|by apply agreed_cons|set_solver|unfold len in *; simpl in *; lia..|].
    destruct (count_agreement _ _ _ _) as [c' ch]. simpl in *. split; [done|]. intros [= ->].
    exists (p :: peers). split; [by apply agreed_cons|auto].
  - destruct (count_agreement_counted required (msgs ++ [(p, m)]) [p] p m (set_pending c None))
      as [H1 H2]; auto; [lia|apply agreed_cons; [done|]; split; [constructor|set_solver]|set_solver
                        |unfold len; simpl; rewrite Hc; done|unfold len; simpl; lia|].
    destruct (count_agreement _ _ _ _) as [c' ch]. simpl in *. split; [done|]. intros [= ->].
    exists [p]. split; [apply agreed_cons; [done|]; split; [constructor|set_solver]|auto].
Qed.

Lemma cf_run_counted required msgs : forall seen c, 0 < required <= 255 ->
  NoDup (seen ++ msgs).*1 -> counted required seen c -> counted required (seen ++ msgs) (cf_run c msgs).
Proof.
  induction msgs as [|[p m] msgs IH]; intros seen c Hb Hn Hc; simpl; [by rewrite app_nil_r|].
  replace (seen ++ (p, m) :: msgs) with ((seen ++ [(p, m)]) ++ msgs) in * by by rewrite <- app_assoc.
  apply IH; auto. apply sync_counted; auto. rewrite !fmap_app in Hn. simpl in Hn.
  apply list.NoDup_app in Hn as [Hn _]. apply list.NoDup_app in Hn as (_ & Hn & _).
  intros Hp. by apply (Hn p Hp), list_elem_of_singleton.
Qed.

(** *** Peers that agree *)

(** The message is an answer with the batch [b]. *)
Definition agrees c (b : CFHeaderBatch) (pm : PeerId * CFHeaders) : Prop := answers c pm.2 = true /\ batch_new pm.2 = b.

(** The request state after as many agreements as there are [msgs], fewer than required. *)
Definition waits c required (msgs : list (PeerId * CFHeaders)) b r : Prop :=
  pending_batch r = ((fun pm => (pm.1, b)) <$> head msgs) /\ agreement_state r = mkAgreements (len msgs) required /\
  last_filter_header_request r = last_filter_header_request (request_state c).

Lemma sync_agreeing c required msgs b r p m : required <= 255 -> len msgs < required -> p ∉ msgs.*1 ->
  waits c required msgs b r -> agrees c b (p, m) ->
  let res := sync_cf_headers (set_request_state c r) p m in
  if len msgs + 1 =? required then res.2 = Ok Extended
    /\ header_chain res.1 = header_chain (push_cf_header_batch c b (batch_stop_hash b))
  else res.2 = Ok AddedToQueue /\ exists r', res.1 = set_request_state c r' /\ waits c required (msgs ++ [(p, m)]) b r'.
Proof.
  intros Hb Hl Hp (Hpend & Hag & Hlast) [Ha <-] res. subst res. simpl in *.
  rewrite sync_answer by by rewrite answers_requests. unfold stage, count_agreement. simpl. rewrite Hpend, Hag.
  assert ((len msgs + 1) mod 256 = len msgs + 1) as Hmod by (apply N.mod_small; lia).
  assert (len (msgs ++ [(p, m)]) = len msgs + 1) as Hlen by (unfold len; rewrite length_app; simpl; lia).
  remember (len msgs) as n eqn:Hn. destruct msgs as [|[id m0] msgs]; simpl;
    [|rewrite (proj2 (N.eqb_neq p id)) by set_solver; rewrite bool_decide_eq_true_2 by done; simpl].
  all: unfold enough_agree, got_agreement; cbn [agree_current agree_required agreement_state set_pending_batch];
    rewrite ?Hag; cbn [agree_current agree_required]; rewrite Hmod.
  all: destruct (N.eqb_spec (n + 1) required) as [E|E];
    [rewrite (proj2 (N.leb_le _ _)) by lia; by split|rewrite (proj2 (N.leb_gt _ _)) by lia; split; [done|]].
  all: eexists; split; [reflexivity|]; split_and!; simpl; try done; by rewrite <- Hlen.
Qed.

Lemma run_agreeing c required b msgs : required <= 255 -> len msgs < required -> NoDup msgs.*1 ->
  pending_batch (request_state c) = None -> agreement_state (request_state c) = mkAgreements 0 required ->
  Forall (agrees c b) msgs -> exists r, cf_run c msgs = set_request_state c r /\ waits c required msgs b r.
Proof.
  intros Hb. induction msgs as [|[p m] msgs IH] using rev_ind; intros Hl Hn Hp Hs Hall.
  { exists (request_state c). split; [by destruct c|]. by split_and!. }
  apply Forall_app in Hall as [Hall Hm]. pose proof (Forall_inv Hm) as Ha. rewrite fmap_app in Hn. apply list.NoDup_app in Hn as (Hn & Hd & _).
  assert (len (msgs ++ [(p, m)]) = len msgs + 1) as Hlen by (unfold len; rewrite length_app; simpl; lia).
  destruct IH as (r & Hr & Hw); [lia|done..|]. unfold cf_run in *. rewrite fold_left_app, Hr. simpl.
  pose proof (sync_agreeing c required msgs b r p m Hb ltac:(lia)) as H. cbv zeta in H.
  rewrite (proj2 (N.eqb_neq _ _)) in H by lia.
  destruct H as [_ H]; [|done|done|exact H]. intros Hin. by apply (Hd p Hin), list_elem_of_singleton.
Qed.

(** C28: filter headers are accepted by a quorum of peers that each answer once.
    From a state with no agreement counted, let every peer send at most one message.
    When the message of the last one makes the chain take its filter headers, at
    least as many distinct peers as required have sent that very batch. And when all
    of them answer the request with the same batch, the chain waits until the
    number of them is the required one: that message, and none before it, makes the
    chain write the batch to the tree. (The required number is a positive byte.) *)
Theorem quorum_of_distinct_peers c required msgs p m :
  pending_batch (request_state c) = None ->
  agreement_state (request_state c) = mkAgreements 0 required -> 0 < required <= 255 ->
  NoDup (msgs ++ [(p, m)]).*1 ->
  let last := sync_cf_headers (cf_run c msgs) p m in
  (last.2 = Ok Extended ->
   exists peers, NoDup peers /\ len peers = required /\
     forall q, q ∈ peers -> exists m', (q, m') ∈ msgs ++ [(p, m)] /\ batch_new m' = batch_new m)
  /\ (Forall (agrees c (batch_new m)) (msgs ++ [(p, m)]) -> len msgs < required ->
      if len msgs + 1 =? required
      then last.2 = Ok Extended
           /\ header_chain last.1 = header_chain (push_cf_header_batch c (batch_new m) (cfh_stop_hash m))
      else last.2 = Ok AddedToQueue /\ header_chain last.1 = header_chain c).
Proof.
  intros Hp Hs Hb Hn last. subst last. rewrite fmap_app in Hn. simpl in Hn. apply list.NoDup_app in Hn as (Hn & Hd & _).
  assert (p ∉ msgs.*1) as Hpn by (intros Hin; by apply (Hd p Hin), list_elem_of_singleton).
  split.
  - intros He. assert (Hc : counted required msgs (cf_run c msgs)).
    { apply (cf_run_counted required msgs [] c); auto. split; by rewrite ?Hp, Hs. }
    destruct (sync_counted required msgs (cf_run c msgs) p m) as [_ H]; auto.
    destruct (H He) as (peers & [? ?] & ?). eauto.
  - intros [Hall Hm]%Forall_app Hl. apply Forall_inv in Hm.
    destruct (run_agreeing c required (batch_new m) msgs) as (r & -> & Hw); try done; [lia|].
    pose proof (sync_agreeing c required msgs (batch_new m) r p m ltac:(lia) Hl Hpn Hw Hm) as H. cbv zeta in H.
    destruct (_ =? _); [done|]. destruct H as (-> & r' & -> & _). done.
Qed.
End Agreement.

(** ** What happens to every block of a tree *)

Section AllNodes.
Context {env : BitcoinEnv} {cenv : ChainEnv}.
Context (P : bytes -> BlockNode -> Prop).

Lemma accept_header_all t h : (forall k w, P (block_hash h) (node_new k h w)) ->
  map_Forall P (headers t) -> map_Forall P (headers (accept_header t h).1).
Proof.
  intros Hnew Ht.
  assert (Hf : forall u, headers u = headers t -> map_Forall P (headers (new_fork u h).1)).
  { intros u Hu. unfold new_fork. rewrite Hu.
    repeat case_match; simpl; rewrite ?Hu; try done; by apply map_Forall_insert_2. }
  unfold accept_header, extend_active, extend_fork.
  repeat (case_match; simpl; auto; try by apply map_Forall_insert_2).
  match goal with H : switch_to_fork ?u ?tip = _ |- _ =>
    destruct (switch_frame u tip) as (_ & Hh & _); rewrite H in Hh end.
  simpl in *. rewrite Hh. by apply map_Forall_insert_2.
Qed.

Lemma set_commitment_all t c x : (forall n, P x n -> P x (with_commitment n (Some c))) ->
  map_Forall P (headers t) -> map_Forall P (headers (set_commitment t c x)).
Proof.
  intros Hc Ht. unfold set_commitment. destruct (headers t !! x) as [n|] eqn:Hx; [|done].
  apply map_Forall_insert_2; [|done]. apply Hc; auto.
Qed.

Lemma check_filter_all t x : (forall n, headers t !! x = Some n -> P x n -> P x (with_checked n true)) ->
  map_Forall P (headers t) -> map_Forall P (headers (check_filter t x)).
Proof.
  intros Hc Ht. unfold check_filter. destruct (headers t !! x) as [n|] eqn:Hx; [|done].
  apply map_Forall_insert_2; [|done]. apply Hc; auto.
Qed.

Context (Hclear : forall x n, P x n -> P x (with_checked n false)).
Lemma reset_active_all fuel : forall hs x, map_Forall P hs -> map_Forall P (reset_active_loop fuel hs x).
Proof.
  induction fuel as [|fuel IH]; intros hs x Hh; simpl; [done|]. destruct (hs !! x) as [n|] eqn:Hx; [|done].
  apply IH, map_Forall_insert_2; auto.
Qed.
Lemma reset_fork_all fuel : forall hs x, map_Forall P hs -> map_Forall P (reset_fork_loop fuel hs x).
Proof.
  induction fuel as [|fuel IH]; intros hs x Hh; simpl; [done|]. destruct (hs !! x) as [n|] eqn:Hx; [|done].
  destruct (negb _); [done|]. apply IH, map_Forall_insert_2; auto.
Qed.
Lemma reset_all_all t : map_Forall P (headers t) -> map_Forall P (headers (reset_all_filters t)).
Proof.
  intros Ht. unfold reset_all_filters. simpl.
  generalize (reset_active_all (size (headers t)) _ (tip_hash (active_tip t)) Ht).
  generalize (reset_active_loop (size (headers t)) (headers t) (tip_hash (active_tip t))).
  induction (candidate_forks t) as [|f fs IH]; intros hs Hh; simpl; [done|]. by apply IH, reset_fork_all.
Qed.

Context (above : N) (Hassumed : forall x n, node_height n <= above -> P x n -> P x (with_checked n true)).
Lemma assume_checked_all t : map_Forall P (headers t) -> map_Forall P (headers (assume_checked_to t above)).
Proof.
  intros Ht. unfold assume_checked_to. simpl. revert Ht. generalize (headers t) at 1 3, (tip_hash (active_tip t)).
  induction (size (headers t)) as [|fuel IH]; intros hs x Hh; simpl; [done|].
  destruct (hs !! x) as [n|] eqn:Hx; [|done]. apply IH. destruct (N.leb_spec (node_height n) above); [|done].
  apply map_Forall_insert_2; [|done]. apply Hassumed; auto.
Qed.
End AllNodes.

(** ** Delivered filters *)

Section Delivery.
Context {env : BitcoinEnv} {cenv : ChainEnv}.
Implicit Types (c : Chain).

(** The operations of a chain. *)
Inductive ChainOp :=
| OpHeaders (hs : list Header)
| OpCFHeaders (p : PeerId) (m : CFHeaders)
| OpNextCFHeaders
| OpFilter (m : CFilter)
| OpNextFilter
| OpRestoreHeaders (m : CFHeaders)
| OpRestoreFilter (m : CFilter)
| OpClearQueue
| OpRescan (height_opt : option N).

Definition apply_chain_op c (op : ChainOp) : Chain * list ChainEvent :=
  match op with
  | OpHeaders hs => (sync_chain c hs).1
  | OpCFHeaders p m => ((sync_cf_headers c p m).1, [])
  | OpNextCFHeaders => ((next_cf_header_message c).1, [])
  | OpFilter m => (sync_filter c m).1
  | OpNextFilter => ((next_filter_message c).1, [])
  | OpRestoreHeaders m => ((restore_filter_headers c m).1, [])
  | OpRestoreFilter m => (restore_filter c m).1
  | OpClearQueue => (clear_compact_filter_queue c, [])
  | OpRescan height_opt => (rescan_chain c height_opt, [])
  end.

Fixpoint chain_run c (ops : list ChainOp) : Chain * list ChainEvent :=
  match ops with
  | [] => (c, [])
  | op :: ops =>
      let '(c, events) := apply_chain_op c op in
      let '(c, later) := chain_run c ops in (c, events ++ later)
  end.

(** The filter hashes of the filter-header messages of a run. *)
Definition op_hashes (op : ChainOp) : list bytes :=
  match op with OpCFHeaders _ m | OpRestoreHeaders m => filter_hashes m | _ => [] end.
Definition hashes_of (ops : list ChainOp) : list bytes := ops ≫= op_hashes.

(** The heights the rescans of a run start above. *)
Definition op_assumed (op : ChainOp) : list N := match op with OpRescan (Some height) => [height] | _ => [] end.

Section Trace.
Context (assumed : list N).

(** The block is filed under its hash, its commitment was in a message, and it
    was delivered if it is checked, or assumed by a rescan. *)
Definition traced (known : list bytes) (events : list ChainEvent) (x : bytes) (n : BlockNode) : Prop :=
  block_hash (node_header n) = x /\
  (forall fc, node_filter_commitment n = Some fc -> fc_filter_hash fc ∈ known) /\
  (filter_checked n = true ->
     (exists height contents, IndexedFilter height (node_header n) contents ∈ events /\
        filter_contents_hash contents ∈ known)
     \/ exists height, height ∈ assumed /\ node_height n <= height).

(** Every filter delivered has a known hash. *)
Definition events_known (known : list bytes) (events : list ChainEvent) : Prop :=
  forall height header contents, IndexedFilter height header contents ∈ events ->
    filter_contents_hash contents ∈ known.

Definition trace_ok known events c : Prop := map_Forall (traced known events) (headers (header_chain c)).

Lemma traced_weaken known events known' events' x n : known ⊆ known' -> events ⊆ events' ->
  traced known events x n -> traced known' events' x n.
Proof.
  intros Hk He (Hx & Hc & Hd). split_and!; [done|by eauto|]. intros Hf.
  destruct (Hd Hf) as [(h & b & Hin & Hb)|?]; [left; exists h, b; auto|by right].
Qed.

Lemma trace_ok_weaken known events known' events' c : known ⊆ known' -> events ⊆ events' ->
  trace_ok known events c -> trace_ok known' events' c.
Proof. intros Hk He H. eapply map_Forall_impl; [exact H|]. intros x n. by apply traced_weaken. Qed.

Lemma batch_hashes prev hashes : fc_filter_hash <$> batch_commitments prev hashes = hashes.
Proof. revert prev. induction hashes as [|h hs IH]; intros prev; simpl; [done|]. by rewrite IH. Qed.

Lemma set_commitment_traced known events t fc x : fc_filter_hash fc ∈ known ->
  map_Forall (traced known events) (headers t) ->
  map_Forall (traced known events) (headers (set_commitment t fc x)).
Proof.
  intros Hk. apply set_commitment_all. intros n (Hx & Hc & Hd). split_and!; simpl; auto.
  by intros fc' [= <-].
Qed.

Lemma push_commitments_traced known events cs : forall t x, fc_filter_hash <$> cs ⊆ known ->
  map_Forall (traced known events) (headers t) ->
  map_Forall (traced known events) (headers (push_commitments t cs x)).
Proof.
  induction cs as [|fc cs IH]; intros t x Hk Ht; [done|]. simpl in *.
  assert (map_Forall (traced known events) (headers (set_commitment t fc x)))
    by (apply set_commitment_traced; [set_solver|done]).
  case_match; [|done]. apply IH; [set_solver|done].
Qed.

Lemma write_commitments_traced known events l : forall t, fc_filter_hash <$> l.*2 ⊆ known ->
  map_Forall (traced known events) (headers t) ->
  map_Forall (traced known events) (headers (write_commitments t l)).
Proof.
  induction l as [|[x fc] l IH]; intros t Hk Ht; [done|]. simpl in *.
  apply IH; [set_solver|]. apply set_commitment_traced; [set_solver|done].
Qed.

Lemma restore_walk_spec t cs : forall x acc restored y,
  restore_walk t cs x acc = Ok (restored, y) ->
  exists l, restored = acc ++ l /\ l.*2 = cs /\
    forall z fc old, (z, fc) ∈ l -> filter_commitment t z = Some old -> old = fc.
Proof.
  induction cs as [|fc cs IH]; intros x acc restored y H; simpl in H.
  - injection H as <- <-. exists []. rewrite app_nil_r. split_and!; auto. set_solver.
  - destruct (header_at_hash t x) as [hd|]; simpl in H; [|done].
    destruct (is_some_and _ _) eqn:He; [done|]. apply IH in H as (l & -> & <- & Hl).
    exists ((x, fc) :: l). rewrite <- app_assoc. split_and!; auto.
    intros z fc' old [[= -> ->]|Hin]%elem_of_cons Hold; [|eauto].
    rewrite Hold in He. simpl in He. by bool_prop.
Qed.

(** The commitments a restored packet writes. *)
Lemma restore_filter_headers_cases c m :
  ((restore_filter_headers c m).1 = c /\ exists e, (restore_filter_headers c m).2 = Err e) \/
  exists l, restore_filter_headers c m
      = (set_header_chain c (write_commitments (header_chain c) l), Ok tt) /\
    l.*2 = rev (batch_inner (batch_new m)) /\
    forall z fc old, (z, fc) ∈ l -> filter_commitment (header_chain c) z = Some old -> old = fc.
Proof.
  unfold restore_filter_headers. destruct (_ || _ || _); [left; eauto|].
  destruct (restore_walk _ _ _ _) as [[l y]|e] eqn:Hw; [|left; eauto].
  apply restore_walk_spec in Hw as (l' & -> & Hl & Hold). simpl. simpl in Hl.
  match goal with |- context [if ?b then ?x else Ok tt] =>
    destruct (if b then x else Ok tt) as [[]|e] end; [right|left; eauto].
  exists l'. auto.
Qed.

Lemma sync_headers_traced known hs : forall c reorgs sent events, trace_ok known events c ->
  let '(c', sent', _) := sync_headers c hs reorgs sent in
  trace_ok known events c' /\
  ((forall k hd b, IndexedFilter k hd b ∉ sent) -> forall k hd b, IndexedFilter k hd b ∉ sent').
Proof.
  induction hs as [|h hs IH]; intros c reorgs sent events Hc; [done|]. simpl.
  assert (Ha : trace_ok known events (set_header_chain c (accept_header (header_chain c) h).1)).
  { apply accept_header_all; [|done]. intros k w. by split_and!. }
  destruct (accept_header (header_chain c) h) as [t ch]. simpl in Ha.
  destruct ch as [at_| |at_|acc dis|[e g|x]]; simpl.
  - specialize (IH _ reorgs (sent ++ [Connected at_]) _ Ha). repeat case_match; try done.
    destruct IH as [? IH]. split; [done|]. intros Hs. apply IH. set_solver.
  - by apply IH.
  - specialize (IH _ reorgs (sent ++ [ForkAdded at_]) _ Ha). repeat case_match; try done.
    destruct IH as [? IH]. split; [done|]. intros Hs. apply IH. set_solver.
  - match goal with |- context [sync_headers ?c1 hs ?r ?s] => specialize (IH c1 r s events Ha) end.
    repeat case_match; try done.
    destruct IH as [? IH]. split; [done|]. intros Hs. apply IH. set_solver.
  - done.
  - done.
Qed.

Lemma apply_filter_traced known c m events : trace_ok known events c ->
  let '(c', sent, _) := apply_filter c m in
  trace_ok known (events ++ sent) c' /\ events_known known sent.
Proof.
  intros Hc. unfold apply_filter.
  assert (Hsame : trace_ok known (events ++ []) c /\ events_known known []).
  { rewrite app_nil_r. split; [done|]. intros k hd b Hin. by apply not_elem_of_nil in Hin. }
  destruct (negb _); [done|]. destruct (filter_commitment _ _) as [fc|] eqn:Hfc; [|done].
  case_bool_decide as Hh; simpl; [|done].
  unfold height_of_hash, header_at_hash. apply bind_Some in Hfc as (n & Hn & Hfc). rewrite Hn. simpl.
  destruct (Hc _ _ Hn) as (Hx & Hk & _). specialize (Hk _ Hfc). rewrite <- Hh in Hk. split.
  - apply check_filter_all.
    + intros n' Hn' (? & ? & _). simplify_eq. split_and!; simpl; auto.
      intros _. left. exists (node_height n), (cf_filter m). set_solver.
    + apply (trace_ok_weaken known events); set_solver.
  - intros k hd b [= -> -> ->]%list_elem_of_singleton. done.
Qed.

Lemma batch_complete_chain c : header_chain (requested_filter_batch_complete c).1 = header_chain c.
Proof. unfold requested_filter_batch_complete. by repeat case_match. Qed.

Lemma sync_filter_traced known c m events : trace_ok known events c ->
  let '(c', sent, _) := sync_filter c m in
  trace_ok known (events ++ sent) c' /\ events_known known sent.
Proof.
  intros Hc. unfold sync_filter.
  assert (Hsame : events_known known []).
  { intros k hd b Hin. by apply not_elem_of_nil in Hin. }
  destruct (negb _); [by rewrite app_nil_r|]. destruct (is_filter_checked _ _).
  - pose proof (batch_complete_chain c) as He. destruct (requested_filter_batch_complete c).
    rewrite app_nil_r. unfold trace_ok. simpl in He. by rewrite He.
  - pose proof (apply_filter_traced known c m events Hc) as H.
    destruct (apply_filter c m) as [[c' sent] [u|e]]; [|done].
    pose proof (batch_complete_chain c') as He. destruct (requested_filter_batch_complete c').
    unfold trace_ok in *. simpl in He. by rewrite He.
Qed.

Lemma sync_cf_headers_chain c p m :
  header_chain (sync_cf_headers c p m).1 = header_chain c \/
  header_chain (sync_cf_headers c p m).1
    = push_commitments (header_chain c) (rev (batch_inner (batch_new m))) (cfh_stop_hash m).
Proof.
  destruct (answers c m) eqn:Ha; [|left; by destruct (sync_no_answer c p m Ha) as [-> _]].
  rewrite sync_answer by done. unfold stage, count_agreement.
  repeat (case_match; simplify_eq/=; auto).
Qed.

Lemma rev_batch_hashes m known : filter_hashes m ⊆ known ->
  fc_filter_hash <$> rev (batch_inner (batch_new m)) ⊆ known.
Proof.
  intros H x Hx. apply H. rewrite <- (batch_hashes (previous_filter_header m)).
  apply list_elem_of_fmap in Hx as (fc & -> & Hin). apply list_elem_of_fmap. exists fc. split; [done|].
  by apply list_elem_of_In, in_rev, list_elem_of_In.
Qed.

Lemma apply_chain_op_traced known events c op : op_hashes op ⊆ known -> op_assumed op ⊆ assumed -> trace_ok known events c ->
  let '(c', sent) := apply_chain_op c op in
  trace_ok known (events ++ sent) c' /\ events_known known sent.
Proof.
  intros Hk Has Hc.
  assert (Hquiet : forall c', trace_ok known events c' ->
    trace_ok known (events ++ []) c' /\ events_known known []).
  { intros c' H. rewrite app_nil_r. split; [done|]. intros k hd b Hin. by apply not_elem_of_nil in Hin. }
  destruct op as [hs|p m| |m| |m|m| |height_opt]; simpl in *.
  - unfold sync_chain. repeat (case_match; simplify_eq/=; try by apply Hquiet).
    match goal with H : sync_headers c hs [] [] = _ |- _ =>
      pose proof (sync_headers_traced known hs c [] [] events Hc) as Ht; rewrite H in Ht end.
    destruct Ht as [Ht Hno]. split; [by apply (trace_ok_weaken known events); [|set_solver|]|].
    intros k hd b Hin. exfalso. eapply Hno; [|done]. intros ???. apply not_elem_of_nil.
  - apply Hquiet. unfold trace_ok. destruct (sync_cf_headers_chain c p m) as [-> | ->]; [done|].
    apply push_commitments_traced; [by apply rev_batch_hashes|done].
  - apply Hquiet. unfold next_cf_header_message. by case_match.
  - pose proof (sync_filter_traced known c m events Hc). by destruct (sync_filter c m) as [[] ?].
  - by apply Hquiet.
  - apply Hquiet. destruct (restore_filter_headers_cases c m) as [[-> _]|(l & -> & Hl & _)]; [done|].
    apply write_commitments_traced; [rewrite Hl; by apply rev_batch_hashes|done].
  - unfold restore_filter. destruct (_ || _); [by apply Hquiet|].
    pose proof (apply_filter_traced known c m events Hc). by destruct (apply_filter c m) as [[] ?].
  - by apply Hquiet.
  - apply Hquiet. unfold rescan_chain, trace_ok.
    assert (map_Forall (traced known events) (headers (reset_all_filters (header_chain c)))) as Hr
      by (apply reset_all_all; [|done]; intros x n (? & ? & _); by split_and!).
    destruct height_opt as [height|]; [|exact Hr].
    apply (assume_checked_all (traced known events) height); [|exact Hr]. intros x n Hle (? & ? & _). split_and!; try done. intros _. right.
    exists height. split; [apply Has; set_solver|done].
Qed.

Lemma chain_run_traced known ops : forall c events, hashes_of ops ⊆ known -> ops ≫= op_assumed ⊆ assumed ->
  trace_ok known events c ->
  let '(c', sent) := chain_run c ops in
  trace_ok known (events ++ sent) c' /\ events_known known sent.
Proof.
  induction ops as [|op ops IH]; intros c events Hk Has Hc; simpl.
  - rewrite app_nil_r. split; [done|]. intros k hd b Hin. by apply not_elem_of_nil in Hin.
  - unfold hashes_of in Hk. simpl in Hk, Has.
    pose proof (apply_chain_op_traced known events c op) as Hs. destruct (apply_chain_op c op) as [c1 sent].
    destruct Hs as [Hc1 He1]; [set_solver|set_solver|done|].
    specialize (IH c1 (events ++ sent)). destruct (chain_run c1 ops) as [c2 later].
    destruct IH as [Hc2 He2]; [set_solver|set_solver|done|]. rewrite app_assoc. split; [done|].
    intros k hd b [Hin|Hin]%elem_of_app; [by eapply He1|by eapply He2].
Qed.

Lemma chain_new_traced state q ty : trace_ok [] [] (chain_new state q ty).
Proof.
  unfold trace_ok, chain_new.
  destruct state as [[|h rest]|height x]; simpl; try apply map_Forall_empty.
  assert (H : forall t, map_Forall (traced [] []) (headers t) -> map_Forall (traced [] [])
    (headers (fold_left (fun t h => (accept_header t (ih_header h)).1) rest t))).
  { induction rest as [|h' rest IH]; intros t Ht; simpl; [done|]. apply IH, accept_header_all; [|done].
    intros k w. by split_and!. }
  apply H, map_Forall_empty.
Qed.

End Trace.

(** C34: no block counts as checked without its filter, but those a rescan skips.
    From a fresh chain and after any operations, a block is marked as checked only
    if a filter of that block was handed to the wallet, or if some rescan was asked
    to start above a height that is not below the block's; and every filter handed
    over has a hash that some filter-header message named. *)
Theorem checked_filters_delivered state quorum type ops :
  let '(c, events) := chain_run (chain_new state quorum type) ops in
  (forall x, is_filter_checked (header_chain c) x = true ->
     (exists height header contents, block_hash header = x /\
        IndexedFilter height header contents ∈ events)
     \/ exists height above, height_of_hash (header_chain c) x = Some height /\
          OpRescan (Some above) ∈ ops /\ height <= above) /\
  (forall height header contents, IndexedFilter height header contents ∈ events ->
     filter_contents_hash contents ∈ hashes_of ops).
Proof.
  pose proof (chain_run_traced (ops ≫= op_assumed) (hashes_of ops) ops (chain_new state quorum type) []) as H.
  destruct (chain_run _ ops) as [c events]. destruct H as [Hc He]; [done|done| |].
  { apply (trace_ok_weaken _ [] []); [set_solver..|]. apply chain_new_traced. }
  split; [|done]. unfold is_filter_checked, height_of_hash. intros x Hx.
  destruct (headers (header_chain c) !! x) as [n|] eqn:Hn; [|done].
  destruct (Hc _ _ Hn) as (Hb & _ & Hd). destruct (Hd Hx) as [(k & b & Hin & _)|(k & Hk & Hle)]; [left; eauto|right].
  exists (node_height n), k. split; [done|]. split; [|done].
  apply list_elem_of_bind in Hk as (op & Hk & Hop). destruct op as [| | | | | | | |[h|]]; simpl in Hk; try set_solver.
Qed.

Lemma set_commitment_lookup t fc x y :
  filter_commitment (set_commitment t fc x) y
  = if bool_decide (x = y /\ is_Some (headers t !! x)) then Some fc else filter_commitment t y.
Proof.
  unfold set_commitment, filter_commitment. destruct (headers t !! x) as [n|] eqn:Hx; simpl.
  - destruct (decide (x = y)) as [<-|Hne].
    + rewrite lookup_insert_eq, bool_decide_eq_true_2 by eauto. done.
    + rewrite lookup_insert_ne, bool_decide_eq_false_2 by naive_solver. done.
  - by rewrite bool_decide_eq_false_2 by (intros [_ []%is_Some_None]).
Qed.

Lemma write_commitments_keep l y old : forall t, filter_commitment t y = Some old ->
  (forall fc, (y, fc) ∈ l -> fc = old) -> filter_commitment (write_commitments t l) y = Some old.
Proof.
  induction l as [|[x fc] l IH]; intros t Ht Hl; [done|]. simpl. apply IH; [|set_solver].
  rewrite set_commitment_lookup. case_bool_decide as Hx; [|done]. destruct Hx as [-> _].
  f_equal. apply Hl. left.
Qed.

(** Restoring cached filter headers never rewrites one. Whatever the cached
    message says, a block that has a commitment keeps it; and a message that is
    refused leaves the chain as it was.*)
Theorem restore_keeps_commitments c m x fc :
  filter_commitment (header_chain c) x = Some fc ->
  filter_commitment (header_chain (restore_filter_headers c m).1) x = Some fc /\
  forall e, (restore_filter_headers c m).2 = Err e -> (restore_filter_headers c m).1 = c.
Proof.
  intros Hx. destruct (restore_filter_headers_cases c m) as [[-> _]|(l & -> & _ & Hl)]; [done|].
  split; [|done]. apply write_commitments_keep; [done|]. intros fc' Hin. symmetry. by eapply Hl.
Qed.
End Delivery.

(** ** Requests for filters *)

Section Requests.
Context {env : BitcoinEnv} {cenv : ChainEnv}.
Implicit Types (c : Chain) (t : BlockTree).

Lemma advance_cursor_spec fuel t stop : forall cur, N.of_nat fuel = stop + 1 - cur -> stop <= U32_MAX ->
  let '(cur', complete) := advance_cursor fuel t cur stop in
  cur <= cur' /\ (forall h, cur <= h < cur' -> checked_at t h = true) /\
  (complete = true <-> forall h, cur <= h <= stop -> checked_at t h = true).
Proof.
  induction fuel as [|fuel IH]; intros cur Hf Hs; simpl.
  { split_and!; [lia|intros; lia|]. split; [intros; lia|done]. }
  destruct (N.ltb_spec stop cur); [lia|].
  destruct (checked_at t cur) eqn:Hc; simpl.
  2:{ split_and!; [lia|intros; lia|]. split; [done|]. intros H'. rewrite H' in Hc by lia. done. }
  destruct (N.eqb_spec cur U32_MAX) as [->|Hne].
  { split_and!; [lia|intros; lia|]. split; [|done]. intros _ h Hh. by replace h with U32_MAX by lia. }
  specialize (IH (cur + 1)). destruct (advance_cursor fuel t (cur + 1) stop) as [cur' complete].
  destruct IH as (H1 & H2 & H3); [lia..|].
  assert (Hsplit : forall h, cur <= h -> h = cur \/ cur + 1 <= h) by lia.
  split_and!; [lia| |].
  - intros h Hh. destruct (Hsplit h) as [->|?]; [lia|done|]. apply H2. lia.
  - rewrite H3. split; intros H' h Hh; [|apply H'; lia].
    destruct (Hsplit h) as [->|?]; [lia|done|]. apply H'. lia.
Qed.

(** Checking a filter changes no hash and clears no mark. *)
Lemma check_filter_mono t x h : checked_at t h = true -> checked_at (check_filter t x) h = true.
Proof.
  unfold checked_at, check_filter, is_filter_checked.
  destruct (headers t !! x) as [n|] eqn:Hx; [|done].
  change (block_hash_at_height (set_headers t _) h) with (block_hash_at_height t h).
  destruct (block_hash_at_height t h) as [y|]; simpl; [|done].
  destruct (decide (x = y)) as [<-|Hne]; [by rewrite lookup_insert_eq|by rewrite lookup_insert_ne].
Qed.

Lemma apply_filter_mono c m h : checked_at (header_chain c) h = true ->
  checked_at (header_chain (apply_filter c m).1.1) h = true.
Proof.
  unfold apply_filter. intros Hc. repeat (case_match; simpl; auto). by apply check_filter_mono.
Qed.
Lemma apply_filter_frame c m : request_state (apply_filter c m).1.1 = request_state c /\
  filter_cursor (apply_filter c m).1.1 = filter_cursor c.
Proof. unfold apply_filter. by repeat case_match. Qed.

(** The request outstanding and the heights below the cursor done. *)
Definition scanning (first : N) (stop_hash : bytes) c : Prop :=
  fr_stop_hash <$> last_filter_request (request_state c) = Some stop_hash /\
  first <= filter_cursor c /\
  forall h, first <= h < filter_cursor c -> checked_at (header_chain c) h = true.

(** Heights are [u32]. *)
Definition heights_fit t : Prop := forall x n, headers t !! x = Some n -> node_height n <= U32_MAX.

Lemma batch_complete_scanning first stop_hash c : heights_fit (header_chain c) ->
  scanning first stop_hash c ->
  scanning first stop_hash (requested_filter_batch_complete c).1 /\
  forall stop, height_of_hash_canonical_only (header_chain c) stop_hash = Some stop ->
    ((requested_filter_batch_complete c).2 = true <->
     forall h, first <= h <= stop -> checked_at (header_chain c) h = true).
Proof.
  intros Hfit (Hr & Hle & Hdone). unfold requested_filter_batch_complete.
  destruct (last_filter_request _) as [rq|] eqn:Hrq; [|done]. simpl in Hr. injection Hr as Hr. rewrite Hr.
  assert (Hsame : scanning first stop_hash c) by (split_and!; auto; rewrite Hrq; simpl; congruence).
  destruct (height_of_hash_canonical_only _ _) as [stop|] eqn:Hst; [|done].
  assert (Hs : stop <= U32_MAX).
  { unfold height_of_hash_canonical_only, height_of_hash in Hst.
    apply bind_Some in Hst as (k & Hk & Hst). apply bind_Some in Hst as (y & _ & Hst).
    apply fmap_Some in Hk as (n & Hn & ->). case_bool_decide; [|done]. injection Hst as <-. by eapply Hfit. }
  pose proof (advance_cursor_spec (N.to_nat (stop + 1 - filter_cursor c)) (header_chain c) stop (filter_cursor c)) as Ha.
  destruct (advance_cursor _ _ _ _) as [cur complete]. destruct Ha as (H1 & H2 & H3); [lia|done|]. simpl.
  assert (Hlow : forall h, first <= h -> h < filter_cursor c \/ filter_cursor c <= h) by lia.
  split.
  - split_and!; simpl; [rewrite Hrq; simpl; congruence|lia|]. intros h Hh.
    destruct (Hlow h); [lia|apply Hdone; lia|apply H2; lia].
  - intros ? [= <-]. rewrite H3. split; intros H h Hh; [|apply H; lia].
    destruct (Hlow h); [lia|apply Hdone; lia|apply H; lia].
Qed.

Lemma check_filter_fit t x : heights_fit t -> heights_fit (check_filter t x).
Proof.
  unfold heights_fit, check_filter. intros Ht. destruct (headers t !! x) as [n|] eqn:Hx; [|done].
  intros y m Hy. simpl in Hy. apply lookup_insert_Some in Hy as [[<- <-]|[_ Hm]]; simpl; by eapply Ht.
Qed.
Lemma apply_filter_fit c m : heights_fit (header_chain c) -> heights_fit (header_chain (apply_filter c m).1.1).
Proof. unfold apply_filter. intros H. repeat (case_match; simpl; auto). by apply check_filter_fit. Qed.

Lemma sync_filter_scanning first stop_hash c m : heights_fit (header_chain c) ->
  scanning first stop_hash c ->
  let c' := (sync_filter c m).1.1 in
  heights_fit (header_chain c') /\ scanning first stop_hash c' /\
  forall complete stop, (sync_filter c m).2 = Ok complete ->
    height_of_hash_canonical_only (header_chain c') stop_hash = Some stop ->
    (complete = true <-> forall h, first <= h <= stop -> checked_at (header_chain c') h = true).
Proof.
  intros Hfit Hs. unfold sync_filter. destruct (negb _); [done|].
  assert (Hdone : forall c1 (events : list ChainEvent), heights_fit (header_chain c1) -> scanning first stop_hash c1 ->
    let r := let '(c2, complete) := requested_filter_batch_complete c1 in
             (c2, events, Ok (E := CFilterSyncError) complete) in
    heights_fit (header_chain r.1.1) /\ scanning first stop_hash r.1.1 /\
    forall complete stop, r.2 = Ok complete ->
      height_of_hash_canonical_only (header_chain r.1.1) stop_hash = Some stop ->
      (complete = true <-> forall h, first <= h <= stop -> checked_at (header_chain r.1.1) h = true)).
  { intros c1 events Hfit1 Hs1. destruct (batch_complete_scanning _ _ _ Hfit1 Hs1) as [Hs2 Hb].
    pose proof (batch_complete_chain c1) as He. destruct (requested_filter_batch_complete c1) as [c2 b].
    simpl in *. rewrite He. split_and!; auto. intros ? stop [= <-]. auto. }
  destruct (is_filter_checked _ _); [by apply Hdone|].
  pose proof (apply_filter_fit c m Hfit) as Hfit1. destruct (apply_filter_frame c m) as [Hr Hcur].
  pose proof (apply_filter_mono c m) as Hm.
  destruct (apply_filter c m) as [[c1 events] res]. simpl in *.
  assert (Hs1 : scanning first stop_hash c1).
  { destruct Hs as (H1 & H2 & H3). split_and!; rewrite ?Hr, ?Hcur; auto. }
  destruct res; [by apply Hdone|done].
Qed.

Definition filters_run c (ms : list CFilter) : Chain :=
  fold_left (fun c m => (sync_filter c m).1.1) ms c.

Lemma filters_run_scanning first stop_hash ms : forall c, heights_fit (header_chain c) ->
  scanning first stop_hash c ->
  heights_fit (header_chain (filters_run c ms)) /\ scanning first stop_hash (filters_run c ms).
Proof.
  induction ms as [|m ms IH]; intros c Hf Hs; [done|]. simpl.
  destruct (sync_filter_scanning first stop_hash c m Hf Hs) as (H1 & H2 & _). by apply IH.
Qed.

(** A batch of filters is reported complete exactly when it is. After a
    request, and whatever filters arrive in whatever order, the chain answers a
    filter with "last of the batch" if and only if the filter of every height
    from the start of the request to its stop block has been checked.*)
Theorem filter_batch_complete_exact c ms m complete stop :
  heights_fit (header_chain c) ->
  let '(c0, request) := next_filter_message c in
  let r := sync_filter (filters_run c0 ms) m in
  r.2 = Ok complete ->
  height_of_hash_canonical_only (header_chain r.1.1) (get_stop_hash request) = Some stop ->
  (complete = true <->
   forall h, get_start_height request <= h <= stop -> checked_at (header_chain r.1.1) h = true).
Proof.
  intros Hf. simpl.
  match goal with |- context [filters_run ?c0 ms] => set (start := c0) end.
  match goal with |- context [height_of_hash_canonical_only _ ?x = _] => set (stop_hash := x) end.
  assert (Hs : scanning (first_unchecked (header_chain c)) stop_hash start).
  { split_and!; simpl; [done|lia|]. intros h ?. lia. }
  destruct (filters_run_scanning _ _ ms start Hf Hs) as [Hf1 Hs1]. intros Hr.
  by apply (sync_filter_scanning _ _ _ m Hf1 Hs1).
Qed.

(** ** The range of a request *)

Lemma min_height_spec hs k : min_height hs = Some k -> k ∈ hs /\ forall x, x ∈ hs -> k <= x.
Proof.
  destruct hs as [|h hs]; [done|]. simpl. intros [= <-]. revert h.
  induction hs as [|x hs IH]; intros h; simpl; [set_solver by lia|].
  destruct (IH (N.min h x)) as [H1 H2]. split.
  - destruct (N.min_spec h x) as [[_ E]|[_ E]]; rewrite E in *; set_solver.
  - intros y Hy. assert (y <> h /\ y <> x \/ N.min h x <= y) as [[? ?]|?] by lia.
    + apply H2. set_solver.
    + transitivity (N.min h x); [|done]. apply H2. left.
Qed.
Lemma min_height_None hs : min_height hs = None -> hs = [].
Proof. by destruct hs. Qed.

Lemma stop_before_checked_spec count t stop : forall height, 0 < height ->
  N.of_nat count = stop + 1 - height -> height <= stop + 1 ->
  let r := stop_before_checked count t height stop in
  height - 1 <= r <= stop /\ (forall h, height <= h <= r -> checked_at t h = false) /\
  (r = stop \/ checked_at t (r + 1) = true).
Proof.
  induction count as [|count IH]; intros height Hpos Hc Hle; simpl.
  { split_and!; [lia|lia|intros; lia|by left]. }
  destruct (checked_at t height) eqn:Hh.
  - split_and!; [lia|lia|intros; lia|right]. by replace (height - 1 + 1) with height by lia.
  - destruct (IH (height + 1)) as (H1 & H2 & H3); [lia..|]. split_and!; [lia|lia| |done].
    intros h Hr. destruct (decide (h = height)) as [->|?]; [done|]. apply H2. lia.
Qed.

Section Indexed.
Context (start : Tip) (pool : list Header) (t : BlockTree).
Context (Ht : tree_ok start pool t) (Hi : tree_indexed t).

(** The block of the active chain at a height. *)
Lemma active_at_height x n : (x, n) ∈ active_chain t ->
  block_hash_at_height t (node_height n) = Some x /\ checked_at t (node_height n) = filter_checked n /\
  tip_height start < node_height n <= tip_height (active_tip t).
Proof.
  intros Hin. pose proof (active_is_chain _ _ _ Ht) as Hch.
  pose proof (is_chain_lookup _ _ _ _ _ Hch Hin) as Hx.
  assert (Hb : block_hash_at_height t (node_height n) = Some x).
  { unfold block_hash_at_height. rewrite (ok_tip_height _ _ _ Ht).
    destruct (N.eqb_spec (top start (active_chain t)) (node_height n)) as [He|_]; [|apply Hi; by exists n].
    destruct (at_height_top start (headers t) (ok_linked _ _ _ Ht) (ok_start _ _ _ Ht) (tip_hash (active_tip t))
      (active_chain t) (node_height n) x) as (n' & l & _ & -> & _); [done|by exists n|lia|done]. }
  split_and!; [done| | |].
  - unfold checked_at, is_filter_checked. by rewrite Hb; simpl; rewrite Hx.
  - eapply linked_height; [apply Ht|apply Hx].
  - rewrite (ok_tip_height _ _ _ Ht). eapply chain_top_le; [apply Ht|apply Ht|apply Hch|apply Hin].
Qed.

Lemma active_height_exists h : tip_height start < h <= tip_height (active_tip t) ->
  exists x n, (x, n) ∈ active_chain t /\ node_height n = h.
Proof.
  rewrite (ok_tip_height _ _ _ Ht). intros Hh. pose proof (active_is_chain _ _ _ Ht) as Hch.
  pose proof (chain_length start _ (ok_linked _ _ _ Ht) (ok_start _ _ _ Ht) _ _ Hch) as Hl. unfold len in Hl.
  destruct (lookup_lt_is_Some_2 (active_chain t) (N.to_nat (top start (active_chain t) - h)))
    as [[x n] Hx]; [lia|].
  exists x, n. split; [by eapply list_elem_of_lookup_2|].
  pose proof (chain_heights start _ (ok_linked _ _ _ Ht) (ok_start _ _ _ Ht) _ _ _ _ _ Hch Hx). lia.
Qed.

(** The first block without its filter. *)
Lemma first_unchecked_spec : filters_synced t = false ->
  (exists x n, (x, n) ∈ active_chain t /\ node_height n = first_unchecked t /\ filter_checked n = false) /\
  forall n, n ∈ iter_data t -> node_height n < first_unchecked t -> filter_checked n = true.
Proof.
  intros Hs. unfold first_unchecked.
  destruct (min_height _) as [k|] eqn:Hm; simpl.
  - apply min_height_spec in Hm as [Hk Hmin].
    apply list_elem_of_fmap in Hk as (n & -> & [Hn Hc]%list_elem_of_In%List.filter_In). split.
    + apply list_elem_of_In, list_elem_of_fmap in Hn as ([x n'] & -> & Hin). exists x, n'. by bool_prop.
    + intros n' Hn' Hlt. destruct (filter_checked n') eqn:Hc'; [done|]. exfalso.
      assert (node_height n <= node_height n'); [|lia]. apply Hmin, list_elem_of_fmap. exists n'.
      split; [done|]. apply list_elem_of_In, List.filter_In. rewrite Hc'. split; [by apply list_elem_of_In|done].
  - apply min_height_None, fmap_nil_inv in Hm. exfalso. revert Hs Hm. unfold filters_synced.
    induction (iter_data t) as [|n l IH]; simpl; [done|]. by destruct (filter_checked n).
Qed.
End Indexed.

(** A request for filters asks for a hole and nothing else. On a tree with a
    sound height index and a filter missing, the request starts at the lowest
    block of the active chain without its filter, ends at a block of the active
    chain at most 999 above it, covers only blocks without their filter, and is
    cut short only by the tip, by the limit or by a checked block.*)
Theorem next_filter_request_exact start ops c :
  hashes_distinct start (shown ops) -> tip_height start + len ops < U32_MAX ->
  never_shrinks (tree_new start) ops = true ->
  header_chain c = run (tree_new start) ops -> is_filters_synced c = false ->
  let t := header_chain c in
  let request := (next_filter_message c).2 in
  let first := get_start_height request in
  exists stop, block_hash_at_height t stop = Some (get_stop_hash request) /\
    first <= stop <= tip_height (active_tip t) /\ stop <= first + FILTER_BATCH_SIZE /\
    (exists n, n ∈ iter_data t /\ node_height n = first) /\
    (forall n, n ∈ iter_data t -> first <= node_height n <= stop -> filter_checked n = false) /\
    (forall n, n ∈ iter_data t -> node_height n < first -> filter_checked n = true) /\
    (stop = tip_height (active_tip t) \/ stop = first + FILTER_BATCH_SIZE \/ checked_at t (stop + 1) = true).
Proof.
  intros Hd Hb Hn Hc Hs t. destruct (run_from start _ ops Hd) as (Ht & Hi & Hsz); [done|lia|].
  specialize (Hi Hn). rewrite <- Hc in Ht, Hi, Hsz. fold t in Ht, Hi, Hsz.
  destruct (first_unchecked_spec t Hs) as [(x & n & Hin & Hh & Hu) Hlow].
  destruct (active_at_height start _ t Ht Hi x n Hin) as (Hbx & Hcx & Hrange).
  assert (Htop : tip_height (active_tip t) < U32_MAX).
  { pose proof (chain_top_bound start _ t _ _ Ht (active_is_chain _ _ _ Ht)) as Hbd.
    rewrite <- (ok_tip_height _ _ _ Ht) in Hbd. unfold len in Hb. lia. }
  unfold next_filter_message. fold t. simpl. rewrite Hh in Hrange, Hcx.
  set (first := first_unchecked t) in *. unfold saturating_add, FILTER_BATCH_SIZE.
  set (last := N.min _ (tip_height _)).
  rewrite (N.min_l (first + 1)) by lia.
  destruct (stop_before_checked_spec (N.to_nat (last + 1 - (first + 1))) t last (first + 1))
    as (H1 & H2 & H3); [lia..|].
  set (stop := stop_before_checked _ _ _ _) in *.
  destruct (active_height_exists start _ t Ht stop) as (y & k & Hk & Hks); [lia|].
  destruct (active_at_height start _ t Ht Hi y k Hk) as (Hby & _). rewrite Hks in Hby.
  exists stop. rewrite Hby. split_and!; auto; try lia.
  - exists n. split; [|done]. apply list_elem_of_fmap. by exists (x, n).
  - intros n' ([z m] & -> & Hz)%list_elem_of_fmap Hr. simpl in *.
    destruct (active_at_height start _ t Ht Hi z m Hz) as (_ & <- & _).
    destruct (decide (node_height m = first)) as [->|?]; [by rewrite Hcx|]. apply H2. lia.
  - destruct H3 as [->|?]; [|auto]. lia.
Qed.
End Requests.

(** ** A concrete chain *)

Module ToyFilters.
(** A filter is its own hash; the header of a filter is the filter followed by
    the header before it. *)
Definition toy_filters : ChainEnv := {|
  filter_header hash prev := hash ++ prev;
  filter_contents_hash contents := contents;
  header_pow_valid _ := true;
  transition_allowed _ _ := true;
|}.
#[global] Existing Instance toy_filters | 100.

(** Three blocks above a checkpoint, and a request for their filter headers. *)
Definition opened (quorum : N) : Chain :=
  (next_cf_header_message
     (sync_chain (chain_new (Checkpoint 100 (ToyChain.hash 0)) quorum 0)
        [ToyChain.block 1 0 1; ToyChain.block 2 1 1; ToyChain.block 3 2 1]).1.1).1.
Definition answer : CFHeaders :=
  mkCFHeaders 0 (ToyChain.hash 3) [x00] [[x01]; [x02]; [x03]].
Definition filter (n : N) (b : byte) : CFilter := mkCFilter 0 (ToyChain.hash n) [b].
(** The filter headers are known, the filters not. *)
Definition committed : Chain := (sync_cf_headers (opened 1) 5 answer).1.

Definition fit (t : BlockTree) : bool :=
  forallb (fun p => node_height p.2 <=? U32_MAX) (map_to_list (headers t)).
Lemma fit_ok t : fit t = true -> heights_fit t.
Proof.
  unfold fit. rewrite forallb_forall. intros H x n Hx%elem_of_map_to_list%list_elem_of_In.
  specialize (H _ Hx). simpl in H. by bool_prop.
Qed.
End ToyFilters.

Lemma single_peer_reaches_quorum_witness :
  let c1 := (sync_cf_headers (ToyFilters.opened 2) 7 ToyFilters.answer).1 in
  let c2 := (sync_cf_headers c1 7 ToyFilters.answer).1 in
  (sync_cf_headers c2 7 ToyFilters.answer).2 = Ok Extended.
Proof.
  apply (single_peer_reaches_quorum (ToyFilters.opened 2) 7 ToyFilters.answer);
    vm_compute; reflexivity.
Defined.

Lemma quorum_of_distinct_peers_witness :
  header_chain (sync_cf_headers (cf_run (ToyFilters.opened 2) [(7, ToyFilters.answer)]) 8 ToyFilters.answer).1
    = header_chain (push_cf_header_batch (ToyFilters.opened 2) (batch_new ToyFilters.answer) (cfh_stop_hash ToyFilters.answer))
  /\ exists peers, NoDup peers /\ len peers = 2 /\
    forall q, q ∈ peers -> exists m', (q, m') ∈ [(7, ToyFilters.answer)] ++ [(8, ToyFilters.answer)] /\
      batch_new m' = batch_new ToyFilters.answer.
Proof.
  destruct (quorum_of_distinct_peers (ToyFilters.opened 2) 2 [(7, ToyFilters.answer)] 8 ToyFilters.answer) as [H1 H2].
  - vm_compute. reflexivity.
  - vm_compute. reflexivity.
  - split; vm_compute; [reflexivity|discriminate].
  - apply (bool_decide_unpack (NoDup [7; 8])). vm_compute. exact I.
  - destruct H2 as [He Hc].
    + repeat constructor; vm_compute; reflexivity.
    + vm_compute. reflexivity.
    + split; [exact Hc|exact (H1 He)].
Defined.

Lemma restore_keeps_commitments_witness :
  let packet := mkCFHeaders 0 (ToyChain.hash 3) [x00] [[x01]; [x02]; [x09]] in
  filter_commitment (header_chain (restore_filter_headers ToyFilters.committed packet).1) (ToyChain.hash 3)
    = Some (mkCommitment [x03; x02; x01; x00] [x03]).
Proof.
  intros packet. apply (restore_keeps_commitments ToyFilters.committed packet). vm_compute. reflexivity.
Defined.

(** The second filter arrives first; the batch is complete with the first one. *)
Lemma filter_batch_complete_exact_witness :
  let c0 := (next_filter_message ToyFilters.committed).1 in
  let r := sync_filter (filters_run c0 [ToyFilters.filter 2 x02; ToyFilters.filter 3 x03])
             (ToyFilters.filter 1 x01) in
  r.2 = Ok true /\ forall h, 101 <= h <= 103 -> checked_at (header_chain r.1.1) h = true.
Proof.
  intros c0 r. split; [vm_compute; reflexivity|].
  apply (filter_batch_complete_exact ToyFilters.committed
    [ToyFilters.filter 2 x02; ToyFilters.filter 3 x03] (ToyFilters.filter 1 x01) true 103).
  - apply ToyFilters.fit_ok. vm_compute. reflexivity.
  - vm_compute. reflexivity.
  - vm_compute. reflexivity.
  - reflexivity.
Defined.

(** The third of four blocks has its filter: the request covers the first two. *)
Lemma next_filter_request_exact_witness :
  let ops := ToyChain.headers_ops [ToyChain.block 1 0 1; ToyChain.block 2 1 1; ToyChain.block 3 2 1;
                                   ToyChain.block 4 3 1] ++ [OpCheck (ToyChain.hash 3)] in
  let c := set_header_chain (ToyFilters.opened 1) (run (tree_new ToyChain.start) ops) in
  get_stop_hash (next_filter_message c).2 = ToyChain.hash 2 /\
  exists stop, block_hash_at_height (header_chain c) stop = Some (get_stop_hash (next_filter_message c).2).
Proof.
  intros ops c. split; [vm_compute; reflexivity|].
  destruct (next_filter_request_exact ToyChain.start ops c) as (stop & H & _);
    [apply ToyChain.distinct_ok; vm_compute; reflexivity|vm_compute; reflexivity
    |vm_compute; reflexivity|reflexivity|vm_compute; reflexivity|].
  exists stop. exact H.
Defined.
