(* ===== verification/BlockQueue.v ===== *)
(** * The queue of requested blocks

    [BlockQueue] of [crates/hns-wallet-bip157/src/chain/block_queue.rs]: the
    blocks the wallet asked for, one of them outstanding at a time. The clock of
    [Instant::now] is an argument in milliseconds; a recipient is the identity of
    its channel. *)

From S2P Require Import Prelude.

Definition SPAM_LIMIT : N := 5000.

Record Request := mkRequest { req_hash : bytes; req_recipient : N }.

(** The front of the queue is the head of the list. *)
Record BlockQueue := mkQueue {
  queue : list Request;
  want : option Request;
  last_req : N;
  completed : gset bytes;
}.

Inductive ProcessBlockResponse :=
| BlockAccepted (block_recipient : N)
| LateResponse
| UnknownHash.

Definition queue_new (now : N) : BlockQueue := mkQueue [] None now ∅.

Definition add (q : BlockQueue) (request : Request) : BlockQueue :=
  mkQueue (request :: queue q) (want q) (last_req q) (completed q).

(** [VecDeque::pop_back]. *)
Definition pop_back {A} (l : list A) : option (A * list A) :=
  match rev l with [] => None | x :: l' => Some (x, rev l') end.

Definition pop (q : BlockQueue) (now : N) : BlockQueue * option bytes :=
  match want q with
  | Some request =>
      if now - last_req q <? SPAM_LIMIT then (q, None)
      else (mkQueue (queue q) (want q) now (completed q), Some (req_hash request))
  | None =>
      match pop_back (queue q) with
      | Some (request, rest) => (mkQueue rest (Some request) now (completed q), Some (req_hash request))
      | None => (mkQueue (queue q) None now (completed q), None)
      end
  end.

Definition process_block (q : BlockQueue) (block : bytes) : BlockQueue * ProcessBlockResponse :=
  let late := if bool_decide (block ∈ completed q) then LateResponse else UnknownHash in
  match want q with
  | Some request =>
      if bool_decide (req_hash request = block)
      then (mkQueue (queue q) None (last_req q) ({[block]} ∪ completed q),
            BlockAccepted (req_recipient request))
      else (q, late)
  | None => (q, late)
  end.

Definition complete (q : BlockQueue) : bool :=
  is_none (want q) && match queue q with [] => true | _ => false end.

Definition remove (q : BlockQueue) (hashes : list bytes) : BlockQueue :=
  mkQueue (List.filter (fun r => negb (bool_decide (req_hash r ∈ hashes))) (queue q))
    (match want q with
     | Some r => if bool_decide (req_hash r ∈ hashes) then None else Some r
     | None => None
     end)
    (last_req q) (completed q).

(** ** Runs *)

Inductive QueueOp := QAdd (r : Request) | QPop (now : N) | QBlock (block : bytes) | QRemove (hashes : list bytes).

(** The queue after an operation, and the block with its recipient if one was
    served. *)
Definition queue_step (q : BlockQueue) (op : QueueOp) : BlockQueue * list Request :=
  match op with
  | QAdd r => (add q r, [])
  | QPop now => ((pop q now).1, [])
  | QBlock b =>
      match process_block q b with
      | (q, BlockAccepted r) => (q, [mkRequest b r])
      | (q, _) => (q, [])
      end
  | QRemove hs => (remove q hs, [])
  end.
Fixpoint queue_run (q : BlockQueue) (ops : list QueueOp) : BlockQueue * list Request :=
  match ops with
  | [] => (q, [])
  | op :: ops =>
      let '(q, served) := queue_step q op in
      let '(q, later) := queue_run q ops in (q, served ++ later)
  end.

Definition added (ops : list QueueOp) : list Request :=
  omap (fun op => match op with QAdd r => Some r | _ => None end) ops.
Definition removed (ops : list QueueOp) : list bytes :=
  ops ≫= fun op => match op with QRemove hs => hs | _ => [] end.

(** The requests not served yet, oldest first. *)
Definition waiting (q : BlockQueue) : list Request := option_list (want q) ++ rev (queue q).

Lemma pop_waiting q now : waiting (pop q now).1 = waiting q.
Proof.
  unfold pop, waiting, pop_back. destruct (want q) as [r|] eqn:Hw; [case_match; simpl; by rewrite ?Hw|].
  destruct (rev (queue q)) as [|x l] eqn:Hl; simpl; [by rewrite Hl|]. by rewrite rev_involutive.
Qed.

Lemma filter_keeps {A} (p : A -> bool) l : List.filter p l `sublist_of` l.
Proof. induction l as [|x l IH]; simpl; [done|]. case_match; by constructor. Qed.

(** What a step serves and keeps is what was waiting, in order, less what it
    removes. *)
Lemma queue_step_waiting q op : let '(q', served) := queue_step q op in
  served ++ waiting q' `sublist_of` waiting q ++ added [op] /\
  forall r, r ∈ waiting q ++ added [op] -> req_hash r ∈ removed [op] \/ r ∈ served ++ waiting q'.
Proof.
  destruct op as [r|now|b|hs]; simpl.
  - unfold waiting. simpl. rewrite app_assoc. auto.
  - rewrite pop_waiting, app_nil_r. auto.
  - rewrite app_nil_r. unfold process_block.
    destruct (want q) as [r|] eqn:Hw; [case_bool_decide as Hb|]; simpl;
      try (destruct (bool_decide _); simpl; by auto).
    unfold waiting. rewrite Hw. simpl. replace (mkRequest b (req_recipient r)) with r by (destruct r; by subst).
    auto.
  - rewrite !app_nil_r. unfold waiting, remove. simpl. rewrite <- List.filter_rev.
    split.
    + apply sublist_app; [|apply filter_keeps]. destruct (want q); simpl; [|done].
      case_bool_decide; simpl; [|done]. by constructor.
    + intros r [Hr|Hr]%elem_of_app.
      * destruct (want q) as [r'|]; simpl in *; [|by apply not_elem_of_nil in Hr].
        apply list_elem_of_singleton in Hr as ->. case_bool_decide; [by left|right; set_solver].
      * destruct (decide (req_hash r ∈ hs)) as [|Hn]; [by left|right]. apply elem_of_app. right.
        apply list_elem_of_In, List.filter_In. split; [by apply list_elem_of_In|].
        by rewrite bool_decide_eq_false_2.
Qed.

Lemma queue_run_waiting ops : forall q, let '(q', served) := queue_run q ops in
  served ++ waiting q' `sublist_of` waiting q ++ added ops /\
  forall r, r ∈ waiting q ++ added ops -> req_hash r ∈ removed ops \/ r ∈ served ++ waiting q'.
Proof.
  induction ops as [|op ops IH]; intros q; [simpl; rewrite app_nil_r; auto|]. cbn [queue_run].
  pose proof (queue_step_waiting q op) as Hs. destruct (queue_step q op) as [q1 served].
  specialize (IH q1). destruct (queue_run q1 ops) as [q2 later].
  destruct Hs as [Hs1 Hs2], IH as [H1 H2].
  assert (Ha : added (op :: ops) = added [op] ++ added ops) by by destruct op.
  assert (Hr : removed (op :: ops) = removed [op] ++ removed ops) by (unfold removed; simpl; by rewrite app_nil_r).
  rewrite Ha, Hr, <- app_assoc. split.
  - etransitivity; [by apply sublist_app|]. rewrite !app_assoc. apply sublist_app; [|done]. by rewrite <- ?app_assoc.
  - intros r. rewrite app_assoc. intros [Hin|Hin]%elem_of_app; [destruct (Hs2 r Hin) as [?|[?|?]%elem_of_app]|];
      [set_solver..|]. all: destruct (H2 r) as [?|?]; set_solver.
Qed.

(** Block requests are served in order, once, and none is lost. From an
    empty queue and after any operations, the requests answered followed by those
    still waiting are requests that were added, in the order they were added and
    each at most as often; and every request added was answered, still waits, or
    asked for a block that was removed by a reorganization.*)
Theorem block_requests_served_in_order now ops :
  let '(q, served) := queue_run (queue_new now) ops in
  served ++ waiting q `sublist_of` added ops /\
  forall r, r ∈ added ops -> req_hash r ∈ removed ops \/ r ∈ served ++ waiting q.
Proof. exact (queue_run_waiting ops (queue_new now)). Qed.
