(* ===== verification/Abi.v ===== *)
(** * hns-wallet-ffi: the frames between host and wallet service

    Models [crates/hns-wallet-ffi/src/lib.rs]: the host and service frames with
    everything they carry, the checks a frame passes before it is sent and after
    it is received, and the length-prefixed encoding. [Value] is
    [serde_json::Value]; a [BTreeSet] is a [gset]; secrets are strings.

    Parameters: the JSON encoding of the frames and of the parts whose encoded
    size is limited ([JsonCodec]), and the name rules of the Handshake covenant
    crate ([NameEnv]). *)

From stdpp Require Import finite.
From Stdlib Require Import Strings.Byte.
From S2P Require Import Prelude Types.

Definition WALLET_ABI_VERSION : N := 2.
Definition LENGTH_PREFIX_BYTES : N := 4.
Definition MAX_ABI_FRAME_BYTES : N := 1048576.
Definition MAX_PROVIDER_REQUEST_BYTES : N := 65536.
Definition MAX_PROVIDER_RESULT_BYTES : N := 262144.
Definition MAX_PROVIDER_EVENT_BYTES : N := 65536.
Definition MAX_APPROVAL_FRAME_BYTES : N := 16384.
Definition MAX_APPROVAL_LIFETIME_MS : N := 90000.
Definition MAX_PASSPHRASE_BYTES : N := 1024.
Definition MAX_RECOVERY_PHRASE_BYTES : N := 1024.
Definition MAX_METHOD_BYTES : N := 96.
Definition MAX_ORIGIN_BYTES : N := 512.
Definition MAX_PUBLIC_STRING_BYTES : N := 4096.
Definition MAX_PUBLIC_ITEMS : N := 128.
Definition MAX_HNS_NAME_DISCLOSURES : N := 64.
Definition MAX_FAILURE_MESSAGE_BYTES : N := 1024.
Definition PROVIDER_SCHEMA_VERSION : N := 1.
Definition APPROVAL_SCHEMA_VERSION : N := 3.
Definition MAX_PROVIDER_METHODS : N := len PROVIDER_METHOD_WIRE_NAMES.

Module AbiError.
Inductive t :=
| FrameSize | TruncatedFrame | VersionMismatch | InvalidEnvelope | InvalidAuthority
| InvalidProviderRequest | ProviderRequestTooLarge | ProviderResultTooLarge
| EventTooLarge | ApprovalTooLarge | InvalidApproval | InvalidEvent
| InvalidSecretInput | InvalidPublicValue | InvalidFailure | Encoding.
End AbiError.

Abbreviation checked := (result unit AbiError.t).

(** ** Vocabulary *)

Inductive HostPlatform := Android | Ios | ChromiumNativeHost.

Module ServiceCapability.
Inductive t :=
| CanonicalFraming | RestartIsolation | OpaqueAuthorityRegistry | PersistentPermissions
| StructuredApprovals | TypedEvents | WalletOperations | HnsReadOperationsV1
| HnsWalletAuthorityContextV1 | HnsValueOperationsV1 | ShakescapeShakedexV1
| ProviderDispatch | ValueMovement | BrowserIntegration.
#[global] Instance t_eq_dec : EqDecision t.
Proof. solve_decision. Defined.
#[global] Program Instance t_finite : Finite t :=
  {| enum := [CanonicalFraming; RestartIsolation; OpaqueAuthorityRegistry; PersistentPermissions;
              StructuredApprovals; TypedEvents; WalletOperations; HnsReadOperationsV1;
              HnsWalletAuthorityContextV1; HnsValueOperationsV1; ShakescapeShakedexV1;
              ProviderDispatch; ValueMovement; BrowserIntegration] |}.
Next Obligation. solve_enum_nodup. Qed.
Next Obligation. solve_enum_elem. Qed.
End ServiceCapability.

#[global] Program Instance ModuleId_finite : Finite ModuleId :=
  {| enum := [Handshake; Bitcoin; Ethereum] |}.
Next Obligation. solve_enum_nodup. Qed.
Next Obligation. solve_enum_elem. Qed.

Inductive WalletHandshakeNetwork := Mainnet | Testnet | Regtest.

Definition magic (n : WalletHandshakeNetwork) : N :=
  match n with
  | Mainnet => 0x5b6ef2d3
  | Testnet => 0xb1520dd2
  | Regtest => 0xae3895cf
  end.

Inductive ProviderNamespace := NamespaceHns | NamespaceIcann.

Record ServiceLimits := mkLimits {
  outer_frame_bytes : N;
  provider_request_bytes : N;
  provider_result_bytes : N;
  provider_event_bytes : N;
  approval_frame_bytes : N;
  approval_lifetime_ms : N;
}.
#[global] Instance ServiceLimits_eq_dec : EqDecision ServiceLimits.
Proof. solve_decision. Defined.

Definition limits_default : ServiceLimits :=
  mkLimits MAX_ABI_FRAME_BYTES MAX_PROVIDER_REQUEST_BYTES MAX_PROVIDER_RESULT_BYTES
    MAX_PROVIDER_EVENT_BYTES MAX_APPROVAL_FRAME_BYTES MAX_APPROVAL_LIFETIME_MS.

Record HostHello := mkHostHello {
  hh_protocol_version : N;
  hh_platform : HostPlatform;
  hh_host_session_id : bytes;
  hh_restart_generation : N;
}.

Record ServiceHello := mkServiceHello {
  sh_protocol_version : N;
  sh_platform : HostPlatform;
  sh_host_session_id : bytes;
  sh_service_session_id : bytes;
  sh_restart_generation : N;
  sh_capabilities : gset ServiceCapability.t;
  sh_limits : ServiceLimits;
}.

Record SessionEnvelope (T : Type) := mkEnvelope {
  protocol_version : N;
  host_session_id : bytes;
  service_session_id : bytes;
  restart_generation : N;
  channel_sequence : N;
  request_id : bytes;
  body : T;
}.
Arguments mkEnvelope {T}.
Arguments protocol_version {T}.
Arguments host_session_id {T}.
Arguments service_session_id {T}.
Arguments restart_generation {T}.
Arguments channel_sequence {T}.
Arguments request_id {T}.
Arguments body {T}.

Record HostAuthorityFacts := mkFacts {
  haf_origin : string;
  haf_namespace : ProviderNamespace;
  haf_runtime_session_id : bytes;
  haf_runtime_generation : N;
  haf_policy_generation : N;
  haf_navigation_generation : N;
  haf_decision_fingerprint : bytes;
  haf_valid_until_unix_ms : N;
}.

Module ApprovalDecision.
Inductive t := Approve | Reject.
End ApprovalDecision.

Inductive WalletAuthorityContextRequest :=
| CurrentHnsContext (network : WalletHandshakeNetwork) (network_magic : N) (namespace_id : bytes)
    (namespace_lease_generation : N) (module : ModuleId).

Module WalletRequest.
Inductive t :=
| Status
| CreateWallet (passphrase : string)
| RestoreWallet (passphrase recovery_phrase : string)
| Unlock (passphrase : string)
| Lock
| ListAccounts
| Balance (module : ModuleId) (account : bytes)
| ReceiveTarget (module : ModuleId) (account : bytes)
| TransactionHistory (module : ModuleId) (account : bytes)
| ModuleStatus (module : ModuleId)
| WorkflowStatus (workflow_id : bytes).
End WalletRequest.

Record ProviderBinding := mkBinding {
  pb_authority_handle : bytes;
  pb_authority_revision : N;
  pb_wallet_session_id : bytes;
  pb_permission_generation : N;
}.

Record ProviderCapabilitySnapshot := mkSnapshot {
  provider_schema_version : N;
  approval_schema_version : N;
  pcs_wallet_session_id : bytes;
  pcs_permission_generation : N;
  methods : gset string;
}.

Record WalletHnsAuthorityContext := mkContext {
  ctx_network : WalletHandshakeNetwork;
  ctx_network_magic : N;
  ctx_namespace_id : bytes;
  ctx_namespace_lease_generation : N;
  ctx_active_wallet : bytes;
  ctx_account : bytes;
  ctx_wallet_authority_revision : N;
  ctx_account_authority_revision : N;
  ctx_locked : bool;
  ctx_module : ModuleId;
  ctx_persistent_wallet_confirmed : bool;
  ctx_recovery_pending : bool;
  ctx_retirement_pending : bool;
  ctx_hns_reads_ready : bool;
}.

Record WalletRuntimeStatus := mkRuntimeStatus {
  wrs_locked : bool;
  wrs_active_wallet : option bytes;
  wrs_enabled_modules : gset ModuleId;
  wrs_mainnet_settlement_enabled : bool;
}.

Record AccountSummary := mkAccount {
  acc_account_id : bytes;
  acc_module : ModuleId;
  acc_label : string;
  acc_receive_display : option string;
}.

Record WorkflowSummary := mkWorkflow {
  ws_workflow_id : bytes;
  ws_state : string;
  ws_next_action : option string;
  ws_terminal : bool;
}.

Module WalletResponse.
Inductive t :=
| Status (status : WalletRuntimeStatus)
| WalletCreated (wallet_id : bytes)
| WalletRestored (wallet_id : bytes)
| Locked
| Unlocked
| Accounts (accounts : list AccountSummary)
| Balance (amount : Amount)
| ReceiveTarget (target : Types.ReceiveTarget)
| TransactionHistory (transactions : list TransactionSummary)
| ModuleStatus (status : SyncStatus)
| Workflow (summary : WorkflowSummary).
End WalletResponse.

(** ** Approvals *)

Inductive ModuleApprovalAction := Enable | Disable.
Inductive NameMarketApprovalAction := MarketCreate | MarketCancel | MarketRecover.
Inductive DirectOfferApprovalAction := OfferPublish | OfferCancel.

Module ApprovalWarning.
Inductive t :=
| FeeEstimateMayChange | NameTransferIsIrreversible | RefundRequiresManualAction
| SettlementCanBeDelayed.
#[global] Instance t_eq_dec : EqDecision t.
Proof. solve_decision. Defined.
#[global] Program Instance t_finite : Finite t :=
  {| enum := [FeeEstimateMayChange; NameTransferIsIrreversible; RefundRequiresManualAction;
              SettlementCanBeDelayed] |}.
Next Obligation. solve_enum_nodup. Qed.
Next Obligation. solve_enum_elem. Qed.
End ApprovalWarning.

Abbreviation Warnings := (gset ApprovalWarning.t).

Record HnsNameDisclosure := mkDisclosure { hnd_name : string; hnd_name_hash : string }.
#[global] Instance HnsNameDisclosure_eq_dec : EqDecision HnsNameDisclosure.
Proof. solve_decision. Defined.

Module ApprovalSummary.
Inductive t :=
| Permissions (capabilities : gset PermissionCapability) (hns_names : list HnsNameDisclosure)
| ModuleEnablement (module : ModuleId) (action : ModuleApprovalAction)
| Send (amount : Amount) (recipient : string) (maximum_fee : Amount) (chain : ModuleId)
    (finality : FinalityModel) (warnings : Warnings)
| NameTransfer (name recipient : string) (maximum_fee : Amount) (warnings : Warnings)
| NameFinalize (name recipient : string) (maximum_fee : Amount) (warnings : Warnings)
| NameUpdate (name resource_hex : string) (resource_bytes record_count : N) (maximum_fee : Amount)
    (warnings : Warnings)
| TypedSignature (message_type message_digest : string)
| NameMarketOffer (action : NameMarketApprovalAction) (name : string) (listing_id : option string)
    (price maximum_fee : Amount) (warnings : Warnings)
| NameMarketPurchase (name listing_id : string) (payment : Amount) (recipient : string)
    (maximum_fee : Amount) (automatic_finalize_maximum_fee : option Amount) (warnings : Warnings)
| DirectOffer (action : DirectOfferApprovalAction) (direct_offer_id : option string)
    (offered received maximum_fee : Amount) (warnings : Warnings)
| DirectOfferAcceptance (direct_offer_id swap_session_id : string) (offered received : Amount)
    (refund_timeout_unix_ms : N) (maximum_fee : Amount) (warnings : Warnings)
| SwapRedeem (swap_session_id : string) (amount : Amount) (recipient : string)
    (maximum_fee : Amount) (finality : FinalityModel) (warnings : Warnings)
| SwapRefund (swap_session_id : string) (amount : Amount) (recipient : string)
    (maximum_fee : Amount) (refund_available_at_unix_ms : N) (warnings : Warnings).
End ApprovalSummary.

Record ApprovalPrompt := mkPrompt {
  approval_id : bytes;
  ap_binding : ProviderBinding;
  ap_origin : string;
  ap_method : string;
  ap_expires_at_unix_ms : N;
  ap_summary : ApprovalSummary.t;
}.

(** ** Events and failures *)

Inductive DisconnectReason :=
| DisconnectAuthorityRevoked | AuthorityExpired | NavigationChanged | PolicyChanged
| WalletSessionChanged | ServiceRestarted.

Module ProviderEventPayload.
Inductive t :=
| Connect (permission_generation : N)
| Disconnect (reason : DisconnectReason)
| PermissionsChanged (permission_generation : N) (capabilities : gset PermissionCapability)
| ModulesChanged (modules : gset ModuleId)
| AccountsChanged (modules : gset ModuleId)
| BalancesChanged (modules : gset ModuleId)
| TransactionsChanged (modules : gset ModuleId)
| NamesChanged (names : list string)
| NameMarketChanged (listing_ids : list string)
| DirectOfferChanged (direct_offer_ids : list string)
| SwapSessionChanged (swap_session_ids : list string)
| WalletLocked.
End ProviderEventPayload.

Record ProviderEventEnvelope := mkEvent {
  ev_protocol_version : N;
  ev_host_session_id : bytes;
  ev_service_session_id : bytes;
  ev_restart_generation : N;
  ev_channel_sequence : N;
  ev_binding : ProviderBinding;
  ev_event_sequence : N;
  ev_payload : ProviderEventPayload.t;
}.

Module ServiceErrorCode.
Inductive t :=
| InvalidFrame | VersionMismatch | SessionMismatch | SequenceMismatch | AuthorityUnknown
| AuthorityStale | PermissionDenied | ApprovalStale | WalletLocked | RateLimited | Replay
| UnsupportedCapability | InvalidRequest | PersistenceFailure | RuntimeFailure.
#[global] Instance t_eq_dec : EqDecision t.
Proof. solve_decision. Defined.
End ServiceErrorCode.

Record ServiceFailure := mkFailure {
  code : ServiceErrorCode.t;
  message : string;
  unsupported_capability : option ServiceCapability.t;
}.

(** ** Frames *)

Section Frames.
Context {Value : Type}.

Inductive ServiceRequest :=
| RegisterAuthority (authority_handle : bytes) (authority : HostAuthorityFacts)
| ReplaceAuthority (authority_handle : bytes) (expected_authority_revision : N)
    (authority : HostAuthorityFacts)
| RevokeAuthority (authority_handle : bytes) (expected_authority_revision : N)
| ProviderCapabilities (authority_handle : bytes) (authority_revision : N)
| ProviderRequest (authority_handle : bytes) (authority_revision request_nonce : N)
    (method : string) (params : Value)
| DecideApproval (authority_handle : bytes) (authority_revision : N) (approval : bytes)
    (decision : ApprovalDecision.t)
| Wallet (request : WalletRequest.t)
| WalletAuthority (request : WalletAuthorityContextRequest).

Inductive ServiceResponse :=
| AuthorityRegistered (authority_handle : bytes) (authority_revision : N)
| AuthorityReplaced (authority_handle : bytes) (authority_revision : N)
| AuthorityRevoked (authority_handle : bytes)
| CapabilitiesResponse (binding : ProviderBinding) (capabilities : ProviderCapabilitySnapshot)
| ProviderResult (binding : ProviderBinding) (value : Value)
| ApprovalRequired (approval : ApprovalPrompt)
| ApprovalRejected (approval : bytes)
| WalletResult (response : WalletResponse.t)
| WalletAuthorityResponse (context : WalletHnsAuthorityContext)
| Failure (failure : ServiceFailure).

Inductive HostFrame :=
| HostHelloFrame (hello : HostHello)
| Request (envelope : SessionEnvelope ServiceRequest).

Inductive ServiceFrame :=
| ServiceHelloFrame (hello : ServiceHello)
| Response (envelope : SessionEnvelope ServiceResponse)
| Event (event : ProviderEventEnvelope).
End Frames.
Arguments ServiceRequest : clear implicits.
Arguments ServiceResponse : clear implicits.
Arguments HostFrame : clear implicits.
Arguments ServiceFrame : clear implicits.

(** ** Checks *)

Definition ensure (b : bool) (e : AbiError.t) : checked := if b then Ok tt else Err e.

Definition is_blank (s : string) : bool := bool_decide (s = EmptyString).

Definition set_len {A} `{Countable A} (s : gset A) : N := N.of_nat (size s).

Fixpoint check_all {A} (f : A -> checked) (l : list A) : checked :=
  match l with
  | [] => Ok tt
  | x :: l => let* _ := f x in check_all f l
  end.

Definition validate_secret (value : string) (maximum : N) : checked :=
  if is_blank value || (maximum <? str_len value) then Err AbiError.InvalidSecretInput else Ok tt.

Definition validate_amount (amount : Amount) (allow_zero : bool) : checked :=
  if negb allow_zero && bool_decide (base_units amount = mkBaseUnits 0)
  then Err AbiError.InvalidApproval else Ok tt.

Definition validate_warnings (warnings : Warnings) : checked :=
  if MAX_PUBLIC_ITEMS <? set_len warnings then Err AbiError.InvalidApproval else Ok tt.

Definition validate_public_string (value : string) : checked :=
  if is_blank value || (MAX_PUBLIC_STRING_BYTES <? str_len value) || negb (is_ascii value)
  then Err AbiError.InvalidPublicValue else Ok tt.

Definition validate_optional_public_string (value : option string) : checked :=
  match value with Some value => validate_public_string value | None => Ok tt end.

Definition validate_public_strings (values : list string) : checked :=
  if MAX_PUBLIC_ITEMS <? len values then Err AbiError.InvalidEvent else
  check_all validate_public_string values.

Definition validate_value_movement (amount : Amount) (recipient : string) (maximum_fee : Amount)
    (warnings : Warnings) : checked :=
  if negb (bool_decide (asset amount = asset maximum_fee)) then Err AbiError.InvalidApproval else
  let* _ := validate_amount amount false in
  let* _ := validate_public_string recipient in
  let* _ := validate_amount maximum_fee true in
  validate_warnings warnings.

(** *** Names *)

(** The Handshake covenant crate: its name rules and the hash of a valid name. *)
Class NameEnv := {
  validate_name : bytes -> bool;
  hash_name : bytes -> option bytes;
}.

Definition nibble (b : u8) : option N :=
  let v := Byte.to_N b in
  if (48 <=? v) && (v <=? 57) then Some (v - 48)
  else if (97 <=? v) && (v <=? 102) then Some (v - 97 + 10)
  else None.

(** The loop over [chunks_exact(2)]; the length is even when it is called. *)
Fixpoint decode_pairs (encoded : bytes) : option bytes :=
  match encoded with
  | high :: low :: rest =>
      high ← nibble high;
      low ← nibble low;
      decoded ← decode_pairs rest;
      Some (byte_of_N (N.lor (N.shiftl high 4) low) :: decoded)
  | _ => Some []
  end.

(** The order derived for [HnsNameDisclosure]: by name, then by hash. *)
Definition disclosure_lt (a b : HnsNameDisclosure) : bool :=
  match String.compare (hnd_name a) (hnd_name b) with
  | Lt => true
  | Gt => false
  | Eq => match String.compare (hnd_name_hash a) (hnd_name_hash b) with Lt => true | _ => false end
  end.

Fixpoint strictly_sorted (l : list HnsNameDisclosure) : bool :=
  match l with
  | a :: ((b :: _) as rest) => disclosure_lt a b && strictly_sorted rest
  | _ => true
  end.

Section Names.
Context `{NameEnv}.

Definition hns_name_hash_matches (name encoded : string) : bool :=
  if negb (str_len encoded =? 64) then false else
  match decode_pairs (str_bytes encoded) with
  | None => false
  | Some decoded => is_some_and (hash_name (str_bytes name)) (fun expected => bool_decide (decoded = expected))
  end.

Definition disclosure_validate (d : HnsNameDisclosure) : checked :=
  if validate_name (str_bytes (hnd_name d)) && hns_name_hash_matches (hnd_name d) (hnd_name_hash d)
  then Ok tt else Err AbiError.InvalidApproval.

(** The loop over the disclosures, with the names and hashes seen so far. *)
Fixpoint check_disclosures (l : list HnsNameDisclosure) (names hashes : gset string) : checked :=
  match l with
  | [] => Ok tt
  | d :: l =>
      let* _ := disclosure_validate d in
      if bool_decide (hnd_name d ∈ names) || bool_decide (hnd_name_hash d ∈ hashes)
      then Err AbiError.InvalidApproval
      else check_disclosures l ({[hnd_name d]} ∪ names) ({[hnd_name_hash d]} ∪ hashes)
  end.

Definition validate_hns_name_disclosures (names : list HnsNameDisclosure) : checked :=
  if (MAX_HNS_NAME_DISCLOSURES <? len names) || negb (strictly_sorted names)
  then Err AbiError.InvalidApproval else check_disclosures names ∅ ∅.

(** *** Approval summaries *)

Definition approval_kind (s : ApprovalSummary.t) : ApprovalKind :=
  match s with
  | ApprovalSummary.Permissions _ _ => Permission
  | ApprovalSummary.ModuleEnablement _ _ => ModuleEnablement
  | ApprovalSummary.Send _ _ _ _ _ _ => KindSend
  | ApprovalSummary.NameTransfer _ _ _ _ => KindNameTransfer
  | ApprovalSummary.NameFinalize _ _ _ _ => KindNameFinalize
  | ApprovalSummary.NameUpdate _ _ _ _ _ _ => KindNameUpdate
  | ApprovalSummary.TypedSignature _ _ => TypedSignature
  | ApprovalSummary.NameMarketOffer _ _ _ _ _ _ => NameMarketOffer
  | ApprovalSummary.NameMarketPurchase _ _ _ _ _ _ _ => NameMarketPurchase
  | ApprovalSummary.DirectOffer _ _ _ _ _ _ => DirectOffer
  | ApprovalSummary.DirectOfferAcceptance _ _ _ _ _ _ _ => DirectOfferAcceptance
  | ApprovalSummary.SwapRedeem _ _ _ _ _ _ => SwapRedeem
  | ApprovalSummary.SwapRefund _ _ _ _ _ _ => SwapRefund
  end.

Definition is_asset (a : Amount) (w : WalletAsset) : bool := bool_decide (asset a = w).

Definition lower_hex (b : u8) : bool := is_some (nibble b).

Definition name_movement_validate (name recipient : string) (maximum_fee : Amount)
    (warnings : Warnings) : checked :=
  if negb (is_asset maximum_fee Hns) then Err AbiError.InvalidApproval else
  let* _ := validate_public_string name in
  validate_value_movement (mkAmount Hns (mkBaseUnits 1)) recipient maximum_fee warnings.

Definition summary_validate (s : ApprovalSummary.t) : checked :=
  match s with
  | ApprovalSummary.Permissions capabilities hns_names =>
      if bool_decide (capabilities = ∅) || (MAX_PUBLIC_ITEMS <? set_len capabilities)
      then Err AbiError.InvalidApproval else
      if negb (bool_decide (Names ∈ capabilities)) && negb (is_empty hns_names)
      then Err AbiError.InvalidApproval else
      validate_hns_name_disclosures hns_names
  | ApprovalSummary.ModuleEnablement _ _ => Ok tt
  | ApprovalSummary.Send amount recipient maximum_fee chain _ warnings =>
      if negb (is_asset amount (module_asset chain)) then Err AbiError.InvalidApproval else
      validate_value_movement amount recipient maximum_fee warnings
  | ApprovalSummary.NameTransfer name recipient maximum_fee warnings
  | ApprovalSummary.NameFinalize name recipient maximum_fee warnings =>
      name_movement_validate name recipient maximum_fee warnings
  | ApprovalSummary.NameUpdate name resource_hex resource_bytes _ maximum_fee warnings =>
      if negb (is_asset maximum_fee Hns) || (512 <? resource_bytes)
         || negb (str_len resource_hex =? resource_bytes * 2)
         || negb (forallb lower_hex (str_bytes resource_hex))
      then Err AbiError.InvalidApproval else
      let* _ := validate_public_string name in
      let* _ := validate_amount maximum_fee false in
      validate_warnings warnings
  | ApprovalSummary.TypedSignature message_type message_digest =>
      let* _ := validate_public_string message_type in
      validate_public_string message_digest
  | ApprovalSummary.NameMarketOffer _ name listing_id price maximum_fee warnings =>
      if negb (is_asset price Hns) || negb (is_asset maximum_fee Hns)
      then Err AbiError.InvalidApproval else
      let* _ := validate_public_string name in
      let* _ := validate_optional_public_string listing_id in
      let* _ := validate_amount price false in
      let* _ := validate_amount maximum_fee true in
      validate_warnings warnings
  | ApprovalSummary.NameMarketPurchase name listing_id payment recipient maximum_fee automatic warnings =>
      if negb (is_asset payment Hns) || negb (is_asset maximum_fee Hns)
      then Err AbiError.InvalidApproval else
      let* _ := validate_public_string name in
      let* _ := validate_public_string listing_id in
      let* _ := validate_value_movement payment recipient maximum_fee warnings in
      if is_some_and automatic (fun a => negb (is_asset a Hns) || bu_is_zero (base_units a))
      then Err AbiError.InvalidApproval else Ok tt
  | ApprovalSummary.DirectOffer _ direct_offer_id offered received maximum_fee warnings =>
      if is_asset offered (asset received) || negb (is_asset maximum_fee (asset offered))
      then Err AbiError.InvalidApproval else
      let* _ := validate_optional_public_string direct_offer_id in
      let* _ := validate_amount offered false in
      let* _ := validate_amount received false in
      let* _ := validate_amount maximum_fee true in
      validate_warnings warnings
  | ApprovalSummary.DirectOfferAcceptance direct_offer_id swap_session_id offered received
      refund_timeout_unix_ms maximum_fee warnings =>
      if is_asset offered (asset received) || negb (is_asset maximum_fee (asset offered))
      then Err AbiError.InvalidApproval else
      let* _ := validate_public_string direct_offer_id in
      let* _ := validate_public_string swap_session_id in
      let* _ := validate_amount offered false in
      let* _ := validate_amount received false in
      let* _ := validate_amount maximum_fee true in
      let* _ := validate_warnings warnings in
      if refund_timeout_unix_ms =? 0 then Err AbiError.InvalidApproval else Ok tt
  | ApprovalSummary.SwapRedeem swap_session_id amount recipient maximum_fee _ warnings =>
      let* _ := validate_public_string swap_session_id in
      validate_value_movement amount recipient maximum_fee warnings
  | ApprovalSummary.SwapRefund swap_session_id amount recipient maximum_fee available warnings =>
      let* _ := validate_public_string swap_session_id in
      let* _ := validate_value_movement amount recipient maximum_fee warnings in
      if available =? 0 then Err AbiError.InvalidApproval else Ok tt
  end.
End Names.

(** The methods a summary can be shown for. *)
Definition is_method (method name : string) : bool := bool_decide (method = name).

Definition validate_method (s : ApprovalSummary.t) (method : string) : checked :=
  let matches :=
    match s with
    | ApprovalSummary.Permissions capabilities hns_names =>
        if is_method method "hns_requestAccounts" then
          (set_len capabilities =? 1) && bool_decide (Accounts ∈ capabilities) && is_empty hns_names
        else if is_method method "wallet_requestPermissions" then
          negb (bool_decide (Accounts ∈ capabilities))
        else false
    | ApprovalSummary.ModuleEnablement _ Enable => is_method method "wallet_enableModule"
    | ApprovalSummary.ModuleEnablement _ Disable => is_method method "wallet_disableModule"
    | ApprovalSummary.Send _ _ _ _ _ _ => is_method method "hns_send" || is_method method "asset_send"
    | ApprovalSummary.NameTransfer _ _ _ _ => is_method method "hns_transferName"
    | ApprovalSummary.NameFinalize _ _ _ _ => is_method method "hns_finalizeName"
    | ApprovalSummary.NameUpdate _ _ _ _ _ _ => is_method method "hns_updateName"
    | ApprovalSummary.TypedSignature _ _ => is_method method "hns_signTypedMessage"
    | ApprovalSummary.NameMarketOffer MarketCreate _ _ _ _ _ =>
        is_method method "nameMarket_createFixedPriceOffer"
    | ApprovalSummary.NameMarketOffer MarketCancel _ _ _ _ _ => is_method method "nameMarket_cancelOffer"
    | ApprovalSummary.NameMarketOffer MarketRecover _ _ _ _ _ => is_method method "nameMarket_recoverName"
    | ApprovalSummary.NameMarketPurchase _ _ _ _ _ _ _ =>
        is_method method "nameMarket_acceptOffer" || is_method method "nameMarket_finalizePurchase"
    | ApprovalSummary.DirectOffer OfferPublish _ _ _ _ _ => is_method method "swap_publishDirectOffer"
    | ApprovalSummary.DirectOffer OfferCancel _ _ _ _ _ => is_method method "swap_cancelDirectOffer"
    | ApprovalSummary.DirectOfferAcceptance _ _ _ _ _ _ _ => is_method method "swap_acceptDirectOffer"
    | ApprovalSummary.SwapRedeem _ _ _ _ _ _ => is_method method "swap_redeem"
    | ApprovalSummary.SwapRefund _ _ _ _ _ _ => is_method method "swap_refund"
    end in
  ensure matches AbiError.InvalidApproval.

Definition binding_validate (b : ProviderBinding) : checked :=
  if pb_authority_revision b =? 0 then Err AbiError.InvalidEnvelope else Ok tt.

Definition method_known (method : string) : checked :=
  if is_blank method || (MAX_METHOD_BYTES <? str_len method) || negb (is_ascii method)
     || negb (bool_decide (method ∈ PROVIDER_METHOD_WIRE_NAMES))
  then Err AbiError.InvalidEnvelope else Ok tt.

Definition snapshot_validate (c : ProviderCapabilitySnapshot) (binding : ProviderBinding) : checked :=
  if negb (provider_schema_version c =? PROVIDER_SCHEMA_VERSION)
     || negb (approval_schema_version c =? APPROVAL_SCHEMA_VERSION)
     || negb (bool_decide (pcs_wallet_session_id c = pb_wallet_session_id binding))
     || negb (pcs_permission_generation c =? pb_permission_generation binding)
     || (MAX_PROVIDER_METHODS <? set_len (methods c))
  then Err AbiError.InvalidEnvelope else
  check_all method_known (elements (methods c)).

Definition failure_unsupported (capability : ServiceCapability.t) : ServiceFailure :=
  mkFailure ServiceErrorCode.UnsupportedCapability "requested wallet capability is not available"
    (Some capability).

Definition failure_validate (f : ServiceFailure) : checked :=
  if is_blank (message f) || (MAX_FAILURE_MESSAGE_BYTES <? str_len (message f))
     || negb (is_ascii (message f))
     || negb (Bool.eqb (bool_decide (code f = ServiceErrorCode.UnsupportedCapability))
                       (is_some (unsupported_capability f)))
  then Err AbiError.InvalidFailure else Ok tt.

(** [ProviderEventPayload::validate]; the guarded first arm comes first. *)
Definition payload_validate (p : ProviderEventPayload.t) : checked :=
  match p with
  | ProviderEventPayload.Connect permission_generation =>
      if permission_generation =? 0 then Err AbiError.InvalidEvent else Ok tt
  | ProviderEventPayload.PermissionsChanged permission_generation capabilities =>
      if permission_generation =? 0 then Err AbiError.InvalidEvent else
      if MAX_PUBLIC_ITEMS <? set_len capabilities then Err AbiError.InvalidEvent else Ok tt
  | ProviderEventPayload.ModulesChanged modules
  | ProviderEventPayload.AccountsChanged modules
  | ProviderEventPayload.BalancesChanged modules
  | ProviderEventPayload.TransactionsChanged modules =>
      if MAX_PUBLIC_ITEMS <? set_len modules then Err AbiError.InvalidEvent else Ok tt
  | ProviderEventPayload.NamesChanged values
  | ProviderEventPayload.NameMarketChanged values
  | ProviderEventPayload.DirectOfferChanged values
  | ProviderEventPayload.SwapSessionChanged values => validate_public_strings values
  | ProviderEventPayload.Disconnect _ | ProviderEventPayload.WalletLocked => Ok tt
  end.

Definition validate_authority (a : HostAuthorityFacts) : checked :=
  if is_blank (haf_origin a) || (MAX_ORIGIN_BYTES <? str_len (haf_origin a))
     || negb (is_ascii (haf_origin a)) || (haf_runtime_generation a =? 0)
     || (haf_policy_generation a =? 0) || (haf_navigation_generation a =? 0)
     || (haf_valid_until_unix_ms a =? 0)
  then Err AbiError.InvalidAuthority else Ok tt.

Definition validate_wallet_request (r : WalletRequest.t) : checked :=
  match r with
  | WalletRequest.CreateWallet passphrase | WalletRequest.Unlock passphrase =>
      validate_secret passphrase MAX_PASSPHRASE_BYTES
  | WalletRequest.RestoreWallet passphrase recovery_phrase =>
      let* _ := validate_secret passphrase MAX_PASSPHRASE_BYTES in
      validate_secret recovery_phrase MAX_RECOVERY_PHRASE_BYTES
  | _ => Ok tt
  end.

Definition validate_wallet_authority_context_request (r : WalletAuthorityContextRequest) : checked :=
  let 'CurrentHnsContext network network_magic namespace_id lease module := r in
  if (network_magic =? magic network) && negb (all_zero namespace_id) && negb (lease =? 0)
     && bool_decide (module = Handshake)
  then Ok tt else Err AbiError.InvalidAuthority.

Definition validate_wallet_hns_authority_context (c : WalletHnsAuthorityContext) : checked :=
  if negb (ctx_network_magic c =? magic (ctx_network c)) || all_zero (ctx_namespace_id c)
     || (ctx_namespace_lease_generation c =? 0) || all_zero (ctx_active_wallet c)
     || all_zero (ctx_account c) || (ctx_wallet_authority_revision c =? 0)
     || (ctx_account_authority_revision c =? 0) || ctx_locked c
     || negb (bool_decide (ctx_module c = Handshake)) || negb (ctx_persistent_wallet_confirmed c)
     || ctx_recovery_pending c || ctx_retirement_pending c || negb (ctx_hns_reads_ready c)
  then Err AbiError.InvalidAuthority else Ok tt.

Definition validate_account (a : AccountSummary) : checked :=
  let* _ := validate_public_string (acc_label a) in
  validate_optional_public_string (acc_receive_display a).

Definition validate_wallet_response (r : WalletResponse.t) : checked :=
  match r with
  | WalletResponse.Accounts accounts =>
      if MAX_PUBLIC_ITEMS <? len accounts then Err AbiError.ProviderResultTooLarge else
      check_all validate_account accounts
  | WalletResponse.TransactionHistory transactions =>
      if MAX_PUBLIC_ITEMS <? len transactions then Err AbiError.ProviderResultTooLarge else Ok tt
  | WalletResponse.Workflow summary =>
      let* _ := validate_public_string (ws_state summary) in
      validate_optional_public_string (ws_next_action summary)
  | _ => Ok tt
  end.

Definition validate_session_envelope {T} (e : SessionEnvelope T) : checked :=
  if negb (protocol_version e =? WALLET_ABI_VERSION) then Err AbiError.VersionMismatch else
  if (restart_generation e =? 0) || (channel_sequence e =? 0) then Err AbiError.InvalidEnvelope
  else Ok tt.

Definition validate_service_hello (h : ServiceHello) : checked :=
  let has c := bool_decide (c ∈ sh_capabilities h) in
  if negb (sh_protocol_version h =? WALLET_ABI_VERSION) || (sh_restart_generation h =? 0)
     || negb (bool_decide (sh_limits h = limits_default))
     || (MAX_PUBLIC_ITEMS <? set_len (sh_capabilities h))
     || (has ServiceCapability.HnsReadOperationsV1 && negb (has ServiceCapability.WalletOperations))
     || (has ServiceCapability.HnsWalletAuthorityContextV1
         && (negb (has ServiceCapability.WalletOperations)
             || negb (has ServiceCapability.HnsReadOperationsV1)))
  then Err AbiError.InvalidEnvelope else Ok tt.

(** ** Frames on the wire *)

Definition declared_payload_len (prefix : bytes) : result N AbiError.t :=
  let length := from_be_bytes prefix in
  if (length =? 0) || (MAX_ABI_FRAME_BYTES <? length) then Err AbiError.FrameSize else Ok length.

Definition decode_payload (frame : bytes) : result bytes AbiError.t :=
  if len frame <? LENGTH_PREFIX_BYTES then Err AbiError.TruncatedFrame else
  let* length := declared_payload_len (take 4 frame) in
  if negb (len frame =? LENGTH_PREFIX_BYTES + length) then Err AbiError.TruncatedFrame else
  Ok (drop 4 frame).

(** [encode_frame]; [encode_zeroizing_frame] differs in its buffer only. *)
Definition encode_frame {T} `{JsonCodec T} (value : T) : result bytes AbiError.t :=
  let* payload := ok_or (json_to_vec value) AbiError.Encoding in
  if is_empty payload || (MAX_ABI_FRAME_BYTES <? len payload) then Err AbiError.FrameSize else
  let* length := ok_or (if len payload <=? U32_MAX then Some (len payload) else None) AbiError.FrameSize in
  Ok (to_be_bytes 4 length ++ payload).

(** [serde_json::json!({ "method": .., "params": .. })]. *)
Record ProviderBody (Value : Type) := mkBody { body_method : string; body_params : Value }.
Arguments mkBody {Value}.

Section Codec.
Context {Value : Type}.
Context `{NameEnv}.
Context `{JsonCodec (HostFrame Value), JsonCodec (ServiceFrame Value), JsonCodec ApprovalPrompt,
          JsonCodec ProviderEventEnvelope, JsonCodec Value, JsonCodec (ProviderBody Value)}.

(** The encoded size of a part is limited. *)
Definition within {T} `{JsonCodec T} (value : T) (maximum : N) (e : AbiError.t) : checked :=
  let* encoded := ok_or (json_to_vec value) AbiError.Encoding in
  if maximum <? len encoded then Err e else Ok tt.

Definition prompt_validate (p : ApprovalPrompt) (expected_kind : ApprovalKind) (now_unix_ms : N) : checked :=
  let* _ := map_err (fun _ => AbiError.InvalidApproval) (binding_validate (ap_binding p)) in
  if (ap_expires_at_unix_ms p <=? now_unix_ms)
     || (saturating_add U64_MAX now_unix_ms MAX_APPROVAL_LIFETIME_MS <? ap_expires_at_unix_ms p)
     || is_blank (ap_origin p) || (MAX_ORIGIN_BYTES <? str_len (ap_origin p))
     || negb (is_ascii (ap_origin p)) || is_blank (ap_method p)
     || (MAX_METHOD_BYTES <? str_len (ap_method p)) || negb (is_ascii (ap_method p))
     || negb (bool_decide (approval_kind (ap_summary p) = expected_kind))
  then Err AbiError.InvalidApproval else
  let* _ := summary_validate (ap_summary p) in
  let* _ := validate_method (ap_summary p) (ap_method p) in
  within p MAX_APPROVAL_FRAME_BYTES AbiError.ApprovalTooLarge.

Definition validate_service_request (r : ServiceRequest Value) : checked :=
  match r with
  | RegisterAuthority _ authority => validate_authority authority
  | ReplaceAuthority _ expected_authority_revision authority =>
      if expected_authority_revision =? 0 then Err AbiError.InvalidAuthority else
      validate_authority authority
  | RevokeAuthority _ revision | ProviderCapabilities _ revision =>
      if revision =? 0 then Err AbiError.InvalidAuthority else Ok tt
  | ProviderRequest _ authority_revision request_nonce method params =>
      if (authority_revision =? 0) || (request_nonce =? 0) || is_blank method
         || (MAX_METHOD_BYTES <? str_len method) || negb (is_ascii method)
      then Err AbiError.InvalidProviderRequest else
      within (mkBody method params) MAX_PROVIDER_REQUEST_BYTES AbiError.ProviderRequestTooLarge
  | DecideApproval _ authority_revision _ _ =>
      if authority_revision =? 0 then Err AbiError.InvalidApproval else Ok tt
  | Wallet request => validate_wallet_request request
  | WalletAuthority request => validate_wallet_authority_context_request request
  end.

Definition validate_host_frame (f : HostFrame Value) : checked :=
  match f with
  | HostHelloFrame hello =>
      if negb (hh_protocol_version hello =? WALLET_ABI_VERSION) || (hh_restart_generation hello =? 0)
      then Err AbiError.VersionMismatch else Ok tt
  | Request envelope =>
      let* _ := validate_session_envelope envelope in
      validate_service_request (body envelope)
  end.

Definition validate_prompt_response (p : ApprovalPrompt) : checked :=
  let* _ := map_err (fun _ => AbiError.InvalidApproval) (binding_validate (ap_binding p)) in
  if is_blank (ap_origin p) || is_blank (ap_method p) || (ap_expires_at_unix_ms p =? 0)
  then Err AbiError.InvalidApproval else
  let* _ := summary_validate (ap_summary p) in
  let* _ := validate_method (ap_summary p) (ap_method p) in
  within p MAX_APPROVAL_FRAME_BYTES AbiError.ApprovalTooLarge.

Definition validate_service_response (r : ServiceResponse Value) : checked :=
  match r with
  | AuthorityRegistered _ revision | AuthorityReplaced _ revision =>
      if revision =? 0 then Err AbiError.InvalidEnvelope else Ok tt
  | ProviderResult binding value =>
      let* _ := binding_validate binding in
      within value MAX_PROVIDER_RESULT_BYTES AbiError.ProviderResultTooLarge
  | CapabilitiesResponse binding capabilities =>
      let* _ := binding_validate binding in
      snapshot_validate capabilities binding
  | ApprovalRequired approval => validate_prompt_response approval
  | WalletResult response => validate_wallet_response response
  | WalletAuthorityResponse context => validate_wallet_hns_authority_context context
  | Failure failure => failure_validate failure
  | AuthorityRevoked _ | ApprovalRejected _ => Ok tt
  end.

(** The generation an event names, or needs, is the one it is bound to. *)
Definition event_generation_ok (e : ProviderEventEnvelope) : bool :=
  let bound := pb_permission_generation (ev_binding e) in
  match ev_payload e with
  | ProviderEventPayload.Connect g | ProviderEventPayload.PermissionsChanged g _ =>
      (g =? bound) && negb (bound =? 0)
  | ProviderEventPayload.Disconnect _ => true
  | _ => negb (bound =? 0)
  end.

Definition validate_event (e : ProviderEventEnvelope) : checked :=
  if negb (ev_protocol_version e =? WALLET_ABI_VERSION) || (ev_restart_generation e =? 0)
     || (ev_channel_sequence e =? 0) || (ev_event_sequence e =? 0)
  then Err AbiError.InvalidEvent else
  let* _ := map_err (fun _ => AbiError.InvalidEvent) (binding_validate (ev_binding e)) in
  let* _ := payload_validate (ev_payload e) in
  if negb (event_generation_ok e) then Err AbiError.InvalidEvent else
  within e MAX_PROVIDER_EVENT_BYTES AbiError.EventTooLarge.

Definition validate_service_frame (f : ServiceFrame Value) : checked :=
  match f with
  | ServiceHelloFrame hello => validate_service_hello hello
  | Response envelope =>
      let* _ := validate_session_envelope envelope in
      validate_service_response (body envelope)
  | Event event => validate_event event
  end.

Definition encode_host_frame (f : HostFrame Value) : result bytes AbiError.t :=
  let* _ := validate_host_frame f in encode_frame f.

Definition decode_host_frame (frame : bytes) : result (HostFrame Value) AbiError.t :=
  let* payload := decode_payload frame in
  let* decoded := ok_or (json_from_slice payload) AbiError.InvalidEnvelope in
  let* _ := validate_host_frame decoded in
  Ok decoded.

Definition encode_service_frame (f : ServiceFrame Value) : result bytes AbiError.t :=
  let* _ := validate_service_frame f in encode_frame f.

Definition decode_service_frame (frame : bytes) : result (ServiceFrame Value) AbiError.t :=
  let* payload := decode_payload frame in
  let* decoded := ok_or (json_from_slice payload) AbiError.InvalidEnvelope in
  let* _ := validate_service_frame decoded in
  Ok decoded.
End Codec.
