(* ===== verification/AbiTheorems.v ===== *)
(** * Properties of the service frames

    The framing is exact and self-delimiting, what one side encodes the other
    decodes, disclosed names carry their own hash, and an approval prompt is
    accepted only for a method for which the provider asks that approval. *)

From Stdlib Require Import Strings.Byte.
From stdpp Require Import finite sorting.
From S2P Require Import Prelude Types Provider Abi.

(** ** Framing *)

Lemma take_prefix (p r : bytes) n : length p = n -> take n (p ++ r) = p.
Proof. intros <-. apply take_app_length. Qed.
Lemma drop_prefix (p r : bytes) n : length p = n -> drop n (p ++ r) = r.
Proof. intros <-. apply drop_app_length. Qed.

Lemma from_to_be4 n : n <= U32_MAX -> from_be_bytes (to_be_bytes 4 n) = n.
Proof. intros Hn. apply from_to_be_bytes. unfold U32_MAX in Hn. simpl. lia. Qed.

Lemma decode_payload_frame p : 0 < len p <= MAX_ABI_FRAME_BYTES ->
  decode_payload (to_be_bytes 4 (len p) ++ p) = Ok p.
Proof.
  intros [H0 H1]. unfold decode_payload, declared_payload_len.
  rewrite take_prefix, drop_prefix by apply length_to_be_bytes.
  rewrite from_to_be4 by (unfold MAX_ABI_FRAME_BYTES, U32_MAX in *; lia).
  assert (Hl : len (to_be_bytes 4 (len p) ++ p) = LENGTH_PREFIX_BYTES + len p).
  { unfold len, LENGTH_PREFIX_BYTES. rewrite length_app, length_to_be_bytes. lia. }
  rewrite Hl. unfold LENGTH_PREFIX_BYTES.
  destruct (N.ltb_spec (4 + len p) 4); [lia|]. destruct (N.eqb_spec (len p) 0); [lia|].
  destruct (N.ltb_spec MAX_ABI_FRAME_BYTES (len p)); [lia|]. simpl. by rewrite N.eqb_refl.
Qed.

(** The framing is exact. A buffer decodes to a payload if and only if it is
    the payload's length as four big-endian bytes followed by the payload, and
    the payload is not empty and at most one mebibyte: no trailing bytes, no
    truncation and no second encoding of a length are accepted.*)
Theorem framing_exact frame p :
  decode_payload frame = Ok p <->
  frame = to_be_bytes 4 (len p) ++ p /\ 0 < len p <= MAX_ABI_FRAME_BYTES.
Proof.
  split; [|intros [-> ?]; by apply decode_payload_frame].
  unfold decode_payload, declared_payload_len. intros H.
  destruct (N.ltb_spec (len frame) LENGTH_PREFIX_BYTES) as [|Hlen]; [done|].
  set (n := from_be_bytes (take 4 frame)) in *.
  destruct (_ || _) eqn:Hb; [done|]. bool_prop. simpl in H.
  destruct (N.eqb_spec (len frame) (LENGTH_PREFIX_BYTES + n)) as [Hn|]; [|done].
  injection H as <-. unfold len, LENGTH_PREFIX_BYTES in *.
  assert (Hd : N.of_nat (length (drop 4 frame)) = n) by (rewrite length_drop; lia).
  rewrite Hd. split; [|lia]. rewrite <- (take_drop 4 frame) at 1. f_equal.
  symmetry. unfold n.
  assert (Ht : length (take 4 frame) = 4%nat) by (rewrite length_take; lia).
  rewrite <- Ht at 1. apply to_from_be_bytes.
Qed.

Section Roundtrip.
Context {Value : Type} `{NameEnv}.
Context `{!JsonCodec (HostFrame Value), !JsonCodec (ServiceFrame Value), !JsonCodec ApprovalPrompt,
          !JsonCodec ProviderEventEnvelope, !JsonCodec Value, !JsonCodec (ProviderBody Value)}.

Lemma encode_frame_Ok {T} `{JsonCodec T} (v : T) b : encode_frame v = Ok b ->
  exists p, json_to_vec v = Some p /\ b = to_be_bytes 4 (len p) ++ p /\ 0 < len p <= MAX_ABI_FRAME_BYTES.
Proof.
  unfold encode_frame. intros Hb. destruct (json_to_vec v) as [p|]; [|done]. simpl in Hb.
  destruct (_ || _) eqn:Hs; [done|]. bool_prop.
  destruct (len p <=? U32_MAX); [|done]. injection Hb as <-. exists p. split_and!; auto.
  destruct p; [done|]. unfold len. simpl. lia.
Qed.

(** What one side encodes the other decodes. A host frame or a service frame
    that was encoded is decoded to the same frame, and its encoding is at most
    four bytes over a mebibyte. The JSON encoding is relied on to be read back as
    what was written.*)
Theorem frame_roundtrip (Hh : JsonLaws (HostFrame Value)) (Hs : JsonLaws (ServiceFrame Value)) :
  (forall f b, encode_host_frame f = Ok b ->
     decode_host_frame b = Ok f /\ len b <= LENGTH_PREFIX_BYTES + MAX_ABI_FRAME_BYTES) /\
  (forall f b, encode_service_frame f = Ok b ->
     decode_service_frame b = Ok f /\ len b <= LENGTH_PREFIX_BYTES + MAX_ABI_FRAME_BYTES).
Proof.
  assert (Hlen : forall p, 0 < len p <= MAX_ABI_FRAME_BYTES ->
    len (to_be_bytes 4 (len p) ++ p) <= LENGTH_PREFIX_BYTES + MAX_ABI_FRAME_BYTES).
  { intros p Hp. unfold len, LENGTH_PREFIX_BYTES in *. rewrite length_app, length_to_be_bytes. lia. }
  split; intros f b; unfold encode_host_frame, encode_service_frame;
    destruct (validate_host_frame _) as [[]|] eqn:Hv || destruct (validate_service_frame _) as [[]|] eqn:Hv;
    try done; intros (p & Hp & -> & Hb)%encode_frame_Ok; split; auto;
    unfold decode_host_frame, decode_service_frame; rewrite decode_payload_frame by done;
    rewrite (json_roundtrip _ _ Hp); simpl; by rewrite Hv.
Qed.

(** Frames are self-delimiting. When two streams start with an encoded frame
    each and are equal, the frames are equal and so is what follows: a reader
    that takes the length prefix and then the payload cuts a stream of frames in
    exactly one way.*)
Theorem frames_self_delimiting {T} `{JsonLaws T} (v w : T) a b r s :
  encode_frame v = Ok a -> encode_frame w = Ok b -> a ++ r = b ++ s -> v = w /\ a = b /\ r = s.
Proof.
  intros (p & Hp & -> & Hpl)%encode_frame_Ok (q & Hq & -> & Hql)%encode_frame_Ok Heq.
  rewrite <- !app_assoc in Heq.
  apply app_inj_1 in Heq as [Hlen Heq]; [|by rewrite !length_to_be_bytes].
  apply to_be_bytes_inj in Hlen; [|unfold MAX_ABI_FRAME_BYTES in *; simpl; lia..].
  apply app_inj_1 in Heq as [-> ->]; [|unfold len in Hlen; lia].
  apply json_roundtrip in Hp, Hq. split_and!; congruence.
Qed.
End Roundtrip.

(** ** Approvals and methods *)

(** A summary of each kind the provider can ask for, for a given method. *)
Definition sample_summary (m : Method.t) : option ApprovalSummary.t :=
  let coin := mkAmount Hns (mkBaseUnits 1) in
  let other := mkAmount Btc (mkBaseUnits 1) in
  match m with
  | Method.WalletEnableModule => Some (ApprovalSummary.ModuleEnablement Handshake Enable)
  | Method.WalletDisableModule => Some (ApprovalSummary.ModuleEnablement Handshake Disable)
  | Method.WalletRequestPermissions => Some (ApprovalSummary.Permissions {[Balance]} [])
  | Method.HnsRequestAccounts => Some (ApprovalSummary.Permissions {[Accounts]} [])
  | Method.HnsSend | Method.AssetSend =>
      Some (ApprovalSummary.Send coin "r" coin Handshake ProofOfWorkConfirmations ∅)
  | Method.HnsTransferName => Some (ApprovalSummary.NameTransfer "n" "r" coin ∅)
  | Method.HnsFinalizeName => Some (ApprovalSummary.NameFinalize "n" "r" coin ∅)
  | Method.HnsUpdateName => Some (ApprovalSummary.NameUpdate "n" "" 0 0 coin ∅)
  | Method.HnsSignTypedMessage => Some (ApprovalSummary.TypedSignature "t" "d")
  | Method.NameMarketCreateFixedPriceOffer =>
      Some (ApprovalSummary.NameMarketOffer MarketCreate "n" None coin coin ∅)
  | Method.NameMarketCancelOffer =>
      Some (ApprovalSummary.NameMarketOffer MarketCancel "n" None coin coin ∅)
  | Method.NameMarketRecoverName =>
      Some (ApprovalSummary.NameMarketOffer MarketRecover "n" None coin coin ∅)
  | Method.NameMarketAcceptOffer | Method.NameMarketFinalizePurchase =>
      Some (ApprovalSummary.NameMarketPurchase "n" "l" coin "r" coin None ∅)
  | Method.SwapPublishDirectOffer =>
      Some (ApprovalSummary.DirectOffer OfferPublish None coin other coin ∅)
  | Method.SwapCancelDirectOffer =>
      Some (ApprovalSummary.DirectOffer OfferCancel None coin other coin ∅)
  | Method.SwapAcceptDirectOffer =>
      Some (ApprovalSummary.DirectOfferAcceptance "o" "s" coin other 1 coin ∅)
  | Method.SwapRedeem =>
      Some (ApprovalSummary.SwapRedeem "s" coin "r" coin ProofOfWorkConfirmations ∅)
  | Method.SwapRefund => Some (ApprovalSummary.SwapRefund "s" coin "r" coin 1 ∅)
  | _ => None
  end.

(** A method by its wire name. *)
Lemma method_named (m : Method.t) : Method.parse (Method.wire_name m) = Ok m.
Proof. destruct m; vm_compute; reflexivity. Qed.

Lemma is_method_true method name : is_method method name = true -> method = name.
Proof. unfold is_method. by intros ?%bool_decide_eq_true_1. Qed.

Section Approvals.
Context `{NameEnv}.

(** Approval prompts fit the methods of the provider. A summary is accepted
    for a method only if the provider knows the method and asks for exactly that
    kind of approval before it runs it; and for every method that needs an
    approval there is a summary of its kind that passes all checks.*)
Theorem approval_prompts_fit_methods :
  (forall s method, validate_method s method = Ok tt ->
     exists m, Method.parse method = Ok m /\ Method.approval m = Some (approval_kind s)) /\
  (forall m kind, Method.approval m = Some kind ->
     exists s, approval_kind s = kind /\ summary_validate s = Ok tt /\
       validate_method s (Method.wire_name m) = Ok tt).
Proof.
  split.
  - intros s method Hv. unfold validate_method, ensure in Hv.
    match type of Hv with (if ?b then _ else _) = _ => destruct b eqn:Hb; [clear Hv|done] end.
    assert (Hn : forall m, is_method method (Method.wire_name m) = true ->
      Method.parse method = Ok m) by (intros m ->%is_method_true; apply method_named).
    destruct s as [caps names|? []| | | | | |[]| |[]| | |]; cbn [approval_kind] in *;
      try (apply orb_true_iff in Hb as [Hb|Hb]);
      try (destruct (is_method method "hns_requestAccounts") eqn:H1;
           [|destruct (is_method method "wallet_requestPermissions") eqn:H2; [|done]]);
      match goal with
      | H : is_method method ?name = true |- context [Some ?k] =>
          let m := eval vm_compute in (Method.parse name) in
          match m with Ok ?m => exists m; split; [by apply (Hn m)|reflexivity] end
      end.
  - intros m kind Hk. assert (Hs : exists s, sample_summary m = Some s).
    { destruct m; try discriminate Hk; eexists; reflexivity. }
    destruct Hs as [s Hs]. exists s.
    destruct m; try discriminate Hk; injection Hs as <-; injection Hk as <-;
      (split; [reflexivity|split; vm_compute; reflexivity]).
Qed.
End Approvals.

(** ** Disclosed names *)

(** Lowercase hexadecimal, as a reference. *)
Definition hex_digit (v : N) : u8 := byte_of_N (if v <? 10 then 48 + v else 87 + v).
Definition to_hex (bs : bytes) : bytes :=
  bs ≫= fun b => [hex_digit (Byte.to_N b / 16); hex_digit (Byte.to_N b mod 16)].

Lemma nibble_hex v : v < 16 -> nibble (hex_digit v) = Some v.
Proof.
  intros Hv. assert (Forall (fun n => nibble (hex_digit (N.of_nat n)) = Some (N.of_nat n)) (seq 0 16)) as Hall
    by (apply (bool_decide_unpack _); vm_compute; exact I).
  rewrite Forall_forall in Hall. specialize (Hall (N.to_nat v)). rewrite N2Nat.id in Hall.
  apply Hall, in_seq. lia.
Qed.

Lemma nibble_inv b v : nibble b = Some v -> v < 16 /\ b = hex_digit v.
Proof.
  unfold nibble. intros Hb. split.
  - repeat (case_match; simplify_eq; bool_prop); lia.
  - apply byte_to_N_inj. unfold hex_digit. rewrite byte_to_N_of_N. pose proof (byte_to_N_bound b).
    repeat (case_match; simplify_eq; bool_prop); rewrite N.mod_small; lia.
Qed.

Lemma decode_pairs_hex d : decode_pairs (to_hex d) = Some d.
Proof.
  induction d as [|b d IH]; [done|]. simpl. pose proof (byte_to_N_bound b).
  rewrite !nibble_hex by (apply N.mod_lt || apply N.Div0.div_lt_upper_bound; lia). simpl.
  change (d ≫= _) with (to_hex d). rewrite IH. simpl. do 2 f_equal. apply byte_to_N_inj.
  rewrite join_nibbles by (apply N.mod_lt || apply N.Div0.div_lt_upper_bound; lia).
  pose proof (N.div_mod' (Byte.to_N b) 16). lia.
Qed.

Lemma decode_pairs_inv k : forall e d, length e = (k * 2)%nat -> decode_pairs e = Some d -> e = to_hex d.
Proof.
  induction k as [|k IH]; intros e d Hl He; simpl in Hl.
  { destruct e; [|done]. by injection He as <-. }
  destruct e as [|h [|l e]]; try done. simpl in He.
  destruct (nibble h) as [vh|] eqn:Hh; [|done]. destruct (nibble l) as [vl|] eqn:Hlo; [|done]. simpl in He.
  destruct (decode_pairs e) as [d'|] eqn:Hd; [|done]. injection He as <-.
  apply nibble_inv in Hh as [? ->], Hlo as [? ->]. simpl. rewrite join_nibbles by done.
  rewrite N.div_add_l, N.div_small, N.add_0_r by lia.
  rewrite N.add_comm, N.Div0.mod_add, N.mod_small by lia.
  do 2 f_equal. apply IH; [simpl in Hl; lia|done].
Qed.

Section Disclosures.
Context `{NameEnv}.

(** The hash disclosed with a name is the lowercase hexadecimal form of its
    hash. *)
Definition own_hash (d : HnsNameDisclosure) : Prop :=
  exists h, hash_name (str_bytes (hnd_name d)) = Some h /\ str_bytes (hnd_name_hash d) = to_hex h.

Context (hash_length : forall name h, hash_name name = Some h -> length h = 32%nat).

Lemma length_to_hex h : length (to_hex h) = (length h * 2)%nat.
Proof. induction h as [|b h IH]; [done|]. simpl in *. lia. Qed.

Lemma hash_matches_iff d : hns_name_hash_matches (hnd_name d) (hnd_name_hash d) = true <-> own_hash d.
Proof.
  unfold hns_name_hash_matches, own_hash, str_len. rewrite <- str_bytes_length. split.
  - destruct (N.eqb_spec (N.of_nat (length (str_bytes (hnd_name_hash d)))) 64) as [Hl|]; [|done]. simpl.
    destruct (decode_pairs _) as [dec|] eqn:Hd; [|done].
    destruct (hash_name _) as [h|]; [|done]. simpl. intros ->%bool_decide_eq_true_1. exists h. split; [done|].
    apply (decode_pairs_inv 32); [simpl; lia|done].
  - intros (h & Hh & ->). rewrite Hh, length_to_hex, (hash_length _ _ Hh), decode_pairs_hex. simpl.
    by apply bool_decide_eq_true_2.
Qed.

Lemma disclosure_validate_iff d : disclosure_validate d = Ok tt <->
  validate_name (str_bytes (hnd_name d)) = true /\ own_hash d.
Proof.
  unfold disclosure_validate. rewrite <- hash_matches_iff.
  destruct (validate_name _), (hns_name_hash_matches _ _); simpl; naive_solver.
Qed.

Lemma check_disclosures_iff l : forall names hashes, check_disclosures l names hashes = Ok tt <->
  (forall d, d ∈ l -> disclosure_validate d = Ok tt /\ hnd_name d ∉ names /\ hnd_name_hash d ∉ hashes) /\
  NoDup (hnd_name <$> l) /\ NoDup (hnd_name_hash <$> l).
Proof.
  induction l as [|d l IH]; intros names hashes; simpl.
  { split; [|done]. intros _. split_and!; [set_solver|constructor..]. }
  rewrite !list.NoDup_cons, !list_elem_of_fmap.
  destruct (disclosure_validate d) as [[]|e] eqn:Hd.
  2:{ split; [done|]. intros [Hall _]. destruct (Hall d) as [Hd' _]; [left|congruence]. }
  destruct (bool_decide (hnd_name d ∈ names) || bool_decide (hnd_name_hash d ∈ hashes)) eqn:Hseen.
  - split; [done|]. intros [Hall _]. destruct (Hall d) as (_ & Hn & Hh); [left|].
    rewrite bool_decide_eq_false_2, bool_decide_eq_false_2 in Hseen by done. done.
  - bool_prop. rewrite IH. split.
    + intros (Hall & Hn & Hh). split_and!; auto.
      * intros k [->|Hk]%elem_of_cons; [done|]. destruct (Hall k Hk) as (? & ? & ?). set_solver.
      * intros (k & Heq & Hk). destruct (Hall k Hk) as (_ & ? & _). set_solver.
      * intros (k & Heq & Hk). destruct (Hall k Hk) as (_ & _ & ?). set_solver.
    + intros (Hall & [Hd1 Hn] & Hd2 & Hh). split_and!; auto. intros k Hk.
      destruct (Hall k) as (? & ? & ?); [by right|]. split_and!; [done|..].
      * intros [Heq%elem_of_singleton|?]%elem_of_union; [|done]. apply Hd1. by exists k.
      * intros [Heq%elem_of_singleton|?]%elem_of_union; [|done]. apply Hd2. by exists k.
Qed.

(** Names in strictly increasing order. *)
Definition name_before (a b : HnsNameDisclosure) : Prop := String.compare (hnd_name a) (hnd_name b) = Lt.

Lemma string_compare_refl s : String.compare s s = Eq.
Proof. pose proof (String.compare_antisym s s) as Ha. by destruct (String.compare s s). Qed.

Lemma strictly_sorted_iff l : (forall d, d ∈ l -> own_hash d) ->
  strictly_sorted l = true <-> Sorted name_before l.
Proof.
  induction l as [|a l IH]; intros Hall; [split; [constructor|done]|].
  destruct l as [|b l]; [split; [repeat constructor|done]|].
  assert (Hab : disclosure_lt a b = true <-> name_before a b).
  { unfold disclosure_lt, name_before. destruct (String.compare (hnd_name a) (hnd_name b)) eqn:Hc; try done.
    apply String.compare_eq_iff in Hc. destruct (Hall a) as (ha & Ha & Hxa); [left|].
    destruct (Hall b) as (hb & Hb & Hxb); [right; left|]. rewrite Hc, Hb in Ha. injection Ha as ->.
    rewrite <- Hxb in Hxa. apply str_bytes_inj in Hxa. rewrite Hxa.
    by rewrite string_compare_refl. }
  cbn [strictly_sorted]. rewrite andb_true_iff, Hab, IH by (intros d Hd; apply Hall; by right).
  split; [intros [? ?]; constructor; [done|by constructor]|].
  intros Hs. inversion Hs as [|? ? Hs' Hr]; subst. inversion Hr; subst. done.
Qed.

(** A permission prompt discloses names by their own hash. A list of
    disclosed names is accepted if and only if it has at most 64 entries, the
    names are valid, in increasing order and distinct, the hashes are distinct,
    and each hash is the lowercase hexadecimal form of the hash of its name. The
    hash of a name is relied on to have 32 bytes.*)
Theorem name_disclosures_exact names :
  validate_hns_name_disclosures names = Ok tt <->
  len names <= MAX_HNS_NAME_DISCLOSURES /\ Sorted name_before names /\
  NoDup (hnd_name <$> names) /\ NoDup (hnd_name_hash <$> names) /\
  forall d, d ∈ names -> validate_name (str_bytes (hnd_name d)) = true /\ own_hash d.
Proof.
  unfold validate_hns_name_disclosures.
  assert (Hcheck : check_disclosures names ∅ ∅ = Ok tt <->
    NoDup (hnd_name <$> names) /\ NoDup (hnd_name_hash <$> names) /\
    forall d, d ∈ names -> validate_name (str_bytes (hnd_name d)) = true /\ own_hash d).
  { rewrite check_disclosures_iff. setoid_rewrite disclosure_validate_iff. set_solver. }
  split.
  - destruct (_ || _) eqn:Hb; [done|]. bool_prop. intros Hc%Hcheck. split; [done|].
    split; [|done]. apply strictly_sorted_iff; [|done]. intros d Hd. by apply Hc.
  - intros (Hl & Hs & Hc). destruct (N.ltb_spec MAX_HNS_NAME_DISCLOSURES (len names)); [lia|].
    rewrite (proj2 (strictly_sorted_iff names (fun d Hd => proj2 (proj2 (proj2 Hc) d Hd)))) by done.
    by apply Hcheck.
Qed.
End Disclosures.

(** ** Concrete frames *)

Module ToyAbi.
(** Any text that is not empty is a name, hashed to its first byte repeated. *)
Definition toy_names : NameEnv := {|
  validate_name name := negb (is_empty name);
  hash_name name := match name with [] => None | b :: _ => Some (replicate 32 b) end;
|}.
#[global] Existing Instance toy_names | 100.
Lemma hash_length name h : hash_name name = Some h -> length h = 32%nat.
Proof. destruct name; simpl; [done|]. by intros [= <-]. Qed.

#[global] Instance HostPlatform_eq_dec : EqDecision HostPlatform.
Proof. solve_decision. Defined.
#[global] Instance HostHello_eq_dec : EqDecision HostHello.
Proof. solve_decision. Defined.
#[global] Instance ServiceHello_eq_dec : EqDecision ServiceHello.
Proof. solve_decision. Defined.

Definition host_hello : HostHello := mkHostHello 2 Android [x01] 1.
Definition service_hello : ServiceHello := mkServiceHello 2 Android [x01] [x02] 1 ∅ limits_default.

(** Encodings that know one greeting each. *)
Definition host_json : JsonCodec (HostFrame unit) := {|
  json_to_vec f := match f with
                   | HostHelloFrame h => if bool_decide (h = host_hello) then Some [x68; x69] else None
                   | Request _ => None
                   end;
  json_from_slice b := if bool_decide (b = [x68; x69]) then Some (HostHelloFrame host_hello) else None;
|}.
Definition service_json : JsonCodec (ServiceFrame unit) := {|
  json_to_vec f := match f with
                   | ServiceHelloFrame h => if bool_decide (h = service_hello) then Some [x79; x6f] else None
                   | _ => None
                   end;
  json_from_slice b := if bool_decide (b = [x79; x6f]) then Some (ServiceHelloFrame service_hello) else None;
|}.
(** The parts whose size is limited do not occur in greetings. *)
Definition no_json (T : Type) : JsonCodec T := {| json_to_vec _ := None; json_from_slice _ := None |}.
#[global] Existing Instance host_json | 100.
#[global] Existing Instance service_json | 100.
#[global] Existing Instance no_json | 1000.

Lemma host_laws : JsonLaws (HostFrame unit).
Proof.
  split; intros [h|e] b Hb; simpl in *; try done; case_bool_decide; simplify_eq; done.
Qed.
Lemma service_laws : JsonLaws (ServiceFrame unit).
Proof.
  split; intros [h|e|e] b Hb; simpl in *; try done; case_bool_decide; simplify_eq; done.
Qed.
End ToyAbi.

Lemma frame_roundtrip_witness :
  exists b, encode_host_frame (HostHelloFrame (Value := unit) ToyAbi.host_hello) = Ok b /\
    decode_host_frame b = Ok (HostHelloFrame (Value := unit) ToyAbi.host_hello).
Proof.
  eexists. split; [vm_compute; reflexivity|].
  apply (frame_roundtrip ToyAbi.host_laws ToyAbi.service_laws). vm_compute. reflexivity.
Defined.

Lemma frames_self_delimiting_witness :
  HostHelloFrame (Value := unit) ToyAbi.host_hello = HostHelloFrame ToyAbi.host_hello /\
  [x00; x00; x00; x02; x68; x69] = [x00; x00; x00; x02; x68; x69] /\ [x07] = [x07].
Proof.
  apply (@frames_self_delimiting (HostFrame unit) ToyAbi.host_json ToyAbi.host_laws (HostHelloFrame ToyAbi.host_hello)
    (HostHelloFrame ToyAbi.host_hello)); vm_compute; reflexivity.
Defined.

(** Two names with their hashes. *)
Lemma name_disclosures_exact_witness :
  let names := [mkDisclosure "a" "6161616161616161616161616161616161616161616161616161616161616161";
                mkDisclosure "b" "6262626262626262626262626262626262626262626262626262626262626262"] in
  Sorted name_before names /\ forall d, d ∈ names -> own_hash d.
Proof.
  intros names. destruct (name_disclosures_exact ToyAbi.hash_length names) as [H1 _].
  destruct H1 as (_ & Hs & _ & _ & Hall); [vm_compute; reflexivity|].
  split; [exact Hs|]. intros d Hd. destruct (Hall d Hd) as [_ Ho]. exact Ho.
Defined.
