(* ===== verification/Host.v ===== *)
(** * hns-wallet-host: the host's side of the session

    Models [crates/hns-wallet-host/src/lib.rs]: the state a browser or mobile
    host keeps about its wallet service (channel, pending requests, authorities,
    approvals, replay windows) and every method that reads or changes it.

    The traits [Clock] and [Entropy] are classes over the state of their
    implementation, which a call advances; [Value] is [serde_json::Value]. A
    [BTreeMap] is a [gmap], a [BTreeSet] a [gset], a [VecDeque] a list whose head
    is the front. A method that takes [&mut self] returns the host it leaves,
    also when it fails. *)

From stdpp Require Import finite.
From Stdlib Require Import Strings.Byte.
From S2P Require Import Prelude Types Abi.

Definition MAX_AUTHORITIES : N := 256.
Definition MAX_PENDING_REQUESTS : N := 1024.
Definition MAX_PENDING_APPROVALS : N := 128.
Definition MAX_RECENT_REQUEST_IDS : N := 4096.
Definition MAX_RECENT_PROVIDER_NONCES : N := 4096.
Definition MAX_ISSUED_AUTHORITY_IDS : N := 4096.
Definition MAX_ISSUED_APPROVAL_IDS : N := 4096.
Definition RANDOM_ATTEMPTS : nat := 16.

(** ** Interfaces *)

Inductive ClockError := BeforeUnixEpoch | ClockUnavailable.
Inductive EntropyError := EntropyUnavailable.

Class Clock (C : Type) := now_unix_ms : C -> C * result N ClockError.

(** [fill_bytes] of a destination of the given size. *)
Class Entropy (E : Type) := fill_bytes : E -> nat -> E * result bytes EntropyError.

Module HostError.
Inductive t :=
| Clock (e : ClockError) | Entropy (e : EntropyError) | ClockRollback | InvalidRestartGeneration
| RandomIdentityUnavailable | HandshakeRequired | ChannelFailed | UnexpectedHello | HelloMismatch
| CapabilityUnavailable | InvalidHnsReadRequest | InvalidHnsWalletAuthorityRequest
| PendingRequestCapacity | AuthorityCapacity | AuthorityIdentityCapacity | ApprovalCapacity
| ApprovalIdentityCapacity | SequenceExhausted | InvalidAuthorityFacts | AuthorityExpired
| AuthorityUnknown | AuthorityLifecycle | StaleBinding | MethodUnavailable
| InvalidProviderRequest | PendingRequestMismatch | ResponseClassMismatch | SessionMismatch
| SequenceMismatch (expected received : N) | InvalidCapabilitySnapshot | ApprovalMismatch
| ApprovalExpired | EventBindingMismatch | EventReplay | ReportedProtocolFailure | Encoding.
End HostError.

(** ** State *)

#[global] Instance HostPlatform_eq_dec : EqDecision HostPlatform.
Proof. solve_decision. Defined.
#[global] Instance ProviderNamespace_eq_dec : EqDecision ProviderNamespace.
Proof. solve_decision. Defined.
#[global] Instance WalletHandshakeNetwork_eq_dec : EqDecision WalletHandshakeNetwork.
Proof. solve_decision. Defined.
#[global] Instance SyncPhase_eq_dec : EqDecision SyncPhase.
Proof. solve_decision. Defined.
#[global] Instance HostAuthorityFacts_eq_dec : EqDecision HostAuthorityFacts.
Proof. solve_decision. Defined.
#[global] Instance ProviderBinding_eq_dec : EqDecision ProviderBinding.
Proof. solve_decision. Defined.

Module AuthorityPhase.
Inductive t :=
| Detached
| Registering
| Active (revision : N)
| Replacing (revision : N) (replacement : HostAuthorityFacts)
| Revoking (revision : N)
| Stale (revision : N).
End AuthorityPhase.

Module AuthorityLifecycle.
Inductive t :=
| Detached | Registering | Active (revision : N) | Replacing (revision : N)
| Revoking (revision : N) | Stale (revision : N).
End AuthorityLifecycle.

Record AuthorityState := mkAuthority {
  as_facts : HostAuthorityFacts;
  as_phase : AuthorityPhase.t;
  as_binding : option ProviderBinding;
  as_capabilities : option ProviderCapabilitySnapshot;
}.

Record AuthoritySnapshot := mkAuthoritySnapshot {
  snap_facts : HostAuthorityFacts;
  snap_lifecycle : AuthorityLifecycle.t;
  snap_binding : option ProviderBinding;
  snap_capabilities : option ProviderCapabilitySnapshot;
}.

Record EventCursorKey := mkCursorKey {
  ck_authority_handle : bytes;
  ck_authority_revision : N;
  ck_wallet_session_id : bytes;
  ck_permission_generation : N;
}.
#[global] Instance EventCursorKey_eq_dec : EqDecision EventCursorKey.
Proof. solve_decision. Defined.
#[global] Program Instance EventCursorKey_countable : Countable EventCursorKey :=
  inj_countable'
    (fun k => (ck_authority_handle k, ck_authority_revision k, ck_wallet_session_id k,
               ck_permission_generation k))
    (fun '(h, r, s, g) => mkCursorKey h r s g) _.
Next Obligation. by intros []. Qed.

Definition from_binding (b : ProviderBinding) : EventCursorKey :=
  mkCursorKey (pb_authority_handle b) (pb_authority_revision b) (pb_wallet_session_id b)
    (pb_permission_generation b).

Inductive ApprovalPhase := Available | Deciding (request_id : bytes).

Record HostApproval := mkHostApproval { prompt : ApprovalPrompt; ha_phase : ApprovalPhase }.

Module HnsReadResponseClass.
Inductive t :=
| Status | Accounts | Balance | ReceiveTarget (account : bytes) | Transactions | ModuleStatus.
End HnsReadResponseClass.

Module WalletResponseClass.
Inductive t :=
| Status | Create | Restore | Unlock | Lock | Accounts | Balance | ReceiveTarget | Transactions
| ModuleStatus | Workflow.
End WalletResponseClass.

Module RequestClass.
Inductive t :=
| Register (handle : bytes)
| Replace (handle : bytes) (expected_revision : N) (replacement : HostAuthorityFacts)
| Revoke (handle : bytes) (expected_revision : N)
| Capabilities (handle : bytes) (revision : N)
| Provider (handle : bytes) (revision : N) (method : string)
| Approval (handle : bytes) (revision : N) (approval_id : bytes) (decision : ApprovalDecision.t)
    (method : string)
| Wallet (class : WalletResponseClass.t)
| HnsRead (class : HnsReadResponseClass.t)
| HnsWalletAuthority (request : WalletAuthorityContextRequest).
End RequestClass.

Record SessionState := mkSession {
  ss_service_session_id : bytes;
  ss_capabilities : gset ServiceCapability.t;
  next_host_sequence : N;
  next_service_sequence : N;
}.

Module ChannelState.
Inductive t := AwaitingHello | Ready (session : SessionState) | Failed.
End ChannelState.

Module ConnectionState.
Inductive t := AwaitingHello | Ready | Failed.
End ConnectionState.

Record WalletHost (C E : Type) := mkHost {
  wh_platform : HostPlatform;
  wh_host_session_id : bytes;
  wh_restart_generation : N;
  wh_clock : C;
  wh_entropy : E;
  wh_last_now_unix_ms : option N;
  wh_channel : ChannelState.t;
  wh_pending : gmap bytes RequestClass.t;
  wh_recent_request_ids : gset bytes;
  wh_request_id_order : list bytes;
  wh_aged_out_request_ids : gset bytes;
  wh_recent_nonces : gset (bytes * N);
  wh_nonce_order : list (bytes * N);
  wh_authorities : gmap bytes AuthorityState;
  wh_issued_authority_ids : gset bytes;
  wh_approvals : gmap bytes HostApproval;
  wh_issued_approval_ids : gset bytes;
  wh_event_cursors : gmap EventCursorKey N;
}.
Arguments mkHost {C E}.
Arguments wh_platform {C E}.
Arguments wh_host_session_id {C E}.
Arguments wh_restart_generation {C E}.
Arguments wh_clock {C E}.
Arguments wh_entropy {C E}.
Arguments wh_last_now_unix_ms {C E}.
Arguments wh_channel {C E}.
Arguments wh_pending {C E}.
Arguments wh_recent_request_ids {C E}.
Arguments wh_request_id_order {C E}.
Arguments wh_aged_out_request_ids {C E}.
Arguments wh_recent_nonces {C E}.
Arguments wh_nonce_order {C E}.
Arguments wh_authorities {C E}.
Arguments wh_issued_authority_ids {C E}.
Arguments wh_approvals {C E}.
Arguments wh_issued_approval_ids {C E}.
Arguments wh_event_cursors {C E}.

(** Assignments to the fields. *)
Section Assign.
Context {C E : Type}.
Implicit Types h : WalletHost C E.

Definition set_host_session_id h (v : bytes) : WalletHost C E :=
  mkHost (wh_platform h) v (wh_restart_generation h) (wh_clock h) (wh_entropy h)
    (wh_last_now_unix_ms h) (wh_channel h) (wh_pending h) (wh_recent_request_ids h)
    (wh_request_id_order h) (wh_aged_out_request_ids h) (wh_recent_nonces h) (wh_nonce_order h)
    (wh_authorities h) (wh_issued_authority_ids h) (wh_approvals h) (wh_issued_approval_ids h)
    (wh_event_cursors h).
Definition set_restart_generation h (v : N) : WalletHost C E :=
  mkHost (wh_platform h) (wh_host_session_id h) v (wh_clock h) (wh_entropy h)
    (wh_last_now_unix_ms h) (wh_channel h) (wh_pending h) (wh_recent_request_ids h)
    (wh_request_id_order h) (wh_aged_out_request_ids h) (wh_recent_nonces h) (wh_nonce_order h)
    (wh_authorities h) (wh_issued_authority_ids h) (wh_approvals h) (wh_issued_approval_ids h)
    (wh_event_cursors h).
Definition set_clock h (v : C) : WalletHost C E :=
  mkHost (wh_platform h) (wh_host_session_id h) (wh_restart_generation h) v (wh_entropy h)
    (wh_last_now_unix_ms h) (wh_channel h) (wh_pending h) (wh_recent_request_ids h)
    (wh_request_id_order h) (wh_aged_out_request_ids h) (wh_recent_nonces h) (wh_nonce_order h)
    (wh_authorities h) (wh_issued_authority_ids h) (wh_approvals h) (wh_issued_approval_ids h)
    (wh_event_cursors h).
Definition set_entropy h (v : E) : WalletHost C E :=
  mkHost (wh_platform h) (wh_host_session_id h) (wh_restart_generation h) (wh_clock h) v
    (wh_last_now_unix_ms h) (wh_channel h) (wh_pending h) (wh_recent_request_ids h)
    (wh_request_id_order h) (wh_aged_out_request_ids h) (wh_recent_nonces h) (wh_nonce_order h)
    (wh_authorities h) (wh_issued_authority_ids h) (wh_approvals h) (wh_issued_approval_ids h)
    (wh_event_cursors h).
Definition set_last_now_unix_ms h (v : option N) : WalletHost C E :=
  mkHost (wh_platform h) (wh_host_session_id h) (wh_restart_generation h) (wh_clock h)
    (wh_entropy h) v (wh_channel h) (wh_pending h) (wh_recent_request_ids h)
    (wh_request_id_order h) (wh_aged_out_request_ids h) (wh_recent_nonces h) (wh_nonce_order h)
    (wh_authorities h) (wh_issued_authority_ids h) (wh_approvals h) (wh_issued_approval_ids h)
    (wh_event_cursors h).
Definition set_channel h (v : ChannelState.t) : WalletHost C E :=
  mkHost (wh_platform h) (wh_host_session_id h) (wh_restart_generation h) (wh_clock h)
    (wh_entropy h) (wh_last_now_unix_ms h) v (wh_pending h) (wh_recent_request_ids h)
    (wh_request_id_order h) (wh_aged_out_request_ids h) (wh_recent_nonces h) (wh_nonce_order h)
    (wh_authorities h) (wh_issued_authority_ids h) (wh_approvals h) (wh_issued_approval_ids h)
    (wh_event_cursors h).
Definition set_pending h (v : gmap bytes RequestClass.t) : WalletHost C E :=
  mkHost (wh_platform h) (wh_host_session_id h) (wh_restart_generation h) (wh_clock h)
    (wh_entropy h) (wh_last_now_unix_ms h) (wh_channel h) v (wh_recent_request_ids h)
    (wh_request_id_order h) (wh_aged_out_request_ids h) (wh_recent_nonces h) (wh_nonce_order h)
    (wh_authorities h) (wh_issued_authority_ids h) (wh_approvals h) (wh_issued_approval_ids h)
    (wh_event_cursors h).
Definition set_recent_request_ids h (v : gset bytes) : WalletHost C E :=
  mkHost (wh_platform h) (wh_host_session_id h) (wh_restart_generation h) (wh_clock h)
    (wh_entropy h) (wh_last_now_unix_ms h) (wh_channel h) (wh_pending h) v (wh_request_id_order h)
    (wh_aged_out_request_ids h) (wh_recent_nonces h) (wh_nonce_order h) (wh_authorities h)
    (wh_issued_authority_ids h) (wh_approvals h) (wh_issued_approval_ids h) (wh_event_cursors h).
Definition set_request_id_order h (v : list bytes) : WalletHost C E :=
  mkHost (wh_platform h) (wh_host_session_id h) (wh_restart_generation h) (wh_clock h)
    (wh_entropy h) (wh_last_now_unix_ms h) (wh_channel h) (wh_pending h) (wh_recent_request_ids h)
    v (wh_aged_out_request_ids h) (wh_recent_nonces h) (wh_nonce_order h) (wh_authorities h)
    (wh_issued_authority_ids h) (wh_approvals h) (wh_issued_approval_ids h) (wh_event_cursors h).
Definition set_aged_out_request_ids h (v : gset bytes) : WalletHost C E :=
  mkHost (wh_platform h) (wh_host_session_id h) (wh_restart_generation h) (wh_clock h)
    (wh_entropy h) (wh_last_now_unix_ms h) (wh_channel h) (wh_pending h) (wh_recent_request_ids h)
    (wh_request_id_order h) v (wh_recent_nonces h) (wh_nonce_order h) (wh_authorities h)
    (wh_issued_authority_ids h) (wh_approvals h) (wh_issued_approval_ids h) (wh_event_cursors h).
Definition set_recent_nonces h (v : gset (bytes * N)) : WalletHost C E :=
  mkHost (wh_platform h) (wh_host_session_id h) (wh_restart_generation h) (wh_clock h)
    (wh_entropy h) (wh_last_now_unix_ms h) (wh_channel h) (wh_pending h) (wh_recent_request_ids h)
    (wh_request_id_order h) (wh_aged_out_request_ids h) v (wh_nonce_order h) (wh_authorities h)
    (wh_issued_authority_ids h) (wh_approvals h) (wh_issued_approval_ids h) (wh_event_cursors h).
Definition set_nonce_order h (v : list (bytes * N)) : WalletHost C E :=
  mkHost (wh_platform h) (wh_host_session_id h) (wh_restart_generation h) (wh_clock h)
    (wh_entropy h) (wh_last_now_unix_ms h) (wh_channel h) (wh_pending h) (wh_recent_request_ids h)
    (wh_request_id_order h) (wh_aged_out_request_ids h) (wh_recent_nonces h) v (wh_authorities h)
    (wh_issued_authority_ids h) (wh_approvals h) (wh_issued_approval_ids h) (wh_event_cursors h).
Definition set_authorities h (v : gmap bytes AuthorityState) : WalletHost C E :=
  mkHost (wh_platform h) (wh_host_session_id h) (wh_restart_generation h) (wh_clock h)
    (wh_entropy h) (wh_last_now_unix_ms h) (wh_channel h) (wh_pending h) (wh_recent_request_ids h)
    (wh_request_id_order h) (wh_aged_out_request_ids h) (wh_recent_nonces h) (wh_nonce_order h) v
    (wh_issued_authority_ids h) (wh_approvals h) (wh_issued_approval_ids h) (wh_event_cursors h).
Definition set_issued_authority_ids h (v : gset bytes) : WalletHost C E :=
  mkHost (wh_platform h) (wh_host_session_id h) (wh_restart_generation h) (wh_clock h)
    (wh_entropy h) (wh_last_now_unix_ms h) (wh_channel h) (wh_pending h) (wh_recent_request_ids h)
    (wh_request_id_order h) (wh_aged_out_request_ids h) (wh_recent_nonces h) (wh_nonce_order h)
    (wh_authorities h) v (wh_approvals h) (wh_issued_approval_ids h) (wh_event_cursors h).
Definition set_approvals h (v : gmap bytes HostApproval) : WalletHost C E :=
  mkHost (wh_platform h) (wh_host_session_id h) (wh_restart_generation h) (wh_clock h)
    (wh_entropy h) (wh_last_now_unix_ms h) (wh_channel h) (wh_pending h) (wh_recent_request_ids h)
    (wh_request_id_order h) (wh_aged_out_request_ids h) (wh_recent_nonces h) (wh_nonce_order h)
    (wh_authorities h) (wh_issued_authority_ids h) v (wh_issued_approval_ids h)
    (wh_event_cursors h).
Definition set_issued_approval_ids h (v : gset bytes) : WalletHost C E :=
  mkHost (wh_platform h) (wh_host_session_id h) (wh_restart_generation h) (wh_clock h)
    (wh_entropy h) (wh_last_now_unix_ms h) (wh_channel h) (wh_pending h) (wh_recent_request_ids h)
    (wh_request_id_order h) (wh_aged_out_request_ids h) (wh_recent_nonces h) (wh_nonce_order h)
    (wh_authorities h) (wh_issued_authority_ids h) (wh_approvals h) v (wh_event_cursors h).
Definition set_event_cursors h (v : gmap EventCursorKey N) : WalletHost C E :=
  mkHost (wh_platform h) (wh_host_session_id h) (wh_restart_generation h) (wh_clock h)
    (wh_entropy h) (wh_last_now_unix_ms h) (wh_channel h) (wh_pending h) (wh_recent_request_ids h)
    (wh_request_id_order h) (wh_aged_out_request_ids h) (wh_recent_nonces h) (wh_nonce_order h)
    (wh_authorities h) (wh_issued_authority_ids h) (wh_approvals h) (wh_issued_approval_ids h) v.
End Assign.

(** ** Classes of responses *)

(** [HnsWalletAuthorityResponseClass]. *)
Definition authority_context_for_request (request : WalletAuthorityContextRequest) :
    result WalletAuthorityContextRequest HostError.t :=
  let 'CurrentHnsContext network network_magic namespace_id lease module := request in
  if negb (network_magic =? magic network) || all_zero namespace_id || (lease =? 0)
     || negb (bool_decide (module = Handshake))
  then Err HostError.InvalidHnsWalletAuthorityRequest else Ok request.

Definition authority_context_matches (request : WalletAuthorityContextRequest)
    (context : WalletHnsAuthorityContext) : bool :=
  let 'CurrentHnsContext network network_magic namespace_id lease module := request in
  bool_decide (ctx_network context = network) && (ctx_network_magic context =? network_magic)
  && bool_decide (ctx_namespace_id context = namespace_id)
  && (ctx_namespace_lease_generation context =? lease)
  && negb (all_zero (ctx_active_wallet context)) && negb (all_zero (ctx_account context))
  && negb (ctx_wallet_authority_revision context =? 0)
  && negb (ctx_account_authority_revision context =? 0)
  && negb (ctx_locked context) && bool_decide (ctx_module context = module)
  && ctx_persistent_wallet_confirmed context && negb (ctx_recovery_pending context)
  && negb (ctx_retirement_pending context) && ctx_hns_reads_ready context.

Definition hns_read_for_request (request : WalletRequest.t) :
    result HnsReadResponseClass.t HostError.t :=
  match request with
  | WalletRequest.Status => Ok HnsReadResponseClass.Status
  | WalletRequest.ListAccounts => Ok HnsReadResponseClass.Accounts
  | WalletRequest.Balance Handshake _ => Ok HnsReadResponseClass.Balance
  | WalletRequest.ReceiveTarget Handshake account => Ok (HnsReadResponseClass.ReceiveTarget account)
  | WalletRequest.TransactionHistory Handshake _ => Ok HnsReadResponseClass.Transactions
  | WalletRequest.ModuleStatus Handshake => Ok HnsReadResponseClass.ModuleStatus
  | _ => Err HostError.InvalidHnsReadRequest
  end.

(** Every byte of a text lies in an inclusive range. *)
Definition bytes_in_range (lo hi : N) (s : string) : bool :=
  forallb (fun b => (lo <=? Byte.to_N b) && (Byte.to_N b <=? hi)) (str_bytes s).

(** The closure over [txids]: [BTreeSet::insert] is false for a known value. *)
Fixpoint transactions_match (txids : gset bytes) (transactions : list TransactionSummary) : bool :=
  match transactions with
  | [] => true
  | transaction :: rest =>
      bool_decide (tx_module transaction = Handshake) && negb (all_zero (txid transaction))
      && negb (negative (net_amount transaction) && bu_is_zero (magnitude (net_amount transaction)))
      && negb (bool_decide (txid transaction ∈ txids))
      && transactions_match ({[txid transaction]} ∪ txids) rest
  end.

Definition hns_read_matches (class : HnsReadResponseClass.t) (response : WalletResponse.t) : bool :=
  match class, response with
  | HnsReadResponseClass.Status, WalletResponse.Status status =>
      negb (wrs_mainnet_settlement_enabled status)
      && Bool.eqb (wrs_locked status) (is_none (wrs_active_wallet status))
      && is_none_or (wrs_active_wallet status) (fun wallet => negb (all_zero wallet))
      && (set_len (wrs_enabled_modules status) <=? 1)
      && forallb (fun module => bool_decide (module = Handshake))
           (elements (wrs_enabled_modules status))
  | HnsReadResponseClass.Accounts, WalletResponse.Accounts [account] =>
      bool_decide (acc_module account = Handshake) && negb (all_zero (acc_account_id account))
      && negb (is_blank (acc_label account))
      && (str_len (acc_label account) <=? MAX_PUBLIC_STRING_BYTES)
      && bytes_in_range 0x20 0x7e (acc_label account) && is_none (acc_receive_display account)
  | HnsReadResponseClass.Balance, WalletResponse.Balance amount => bool_decide (asset amount = Hns)
  | HnsReadResponseClass.ReceiveTarget account, WalletResponse.ReceiveTarget target =>
      bool_decide (rt_module target = Handshake) && bool_decide (rt_account target = account)
      && negb (is_blank (rt_display target)) && (str_len (rt_display target) <=? 512)
      && bytes_in_range 0x21 0x7e (rt_display target)
  | HnsReadResponseClass.Transactions, WalletResponse.TransactionHistory transactions =>
      transactions_match ∅ transactions
  | HnsReadResponseClass.ModuleStatus, WalletResponse.ModuleStatus status =>
      bool_decide (phase status = Ready) && (validated_height status =? scanned_height status)
      && bool_decide (target_height status = Some (validated_height status))
      && is_none (last_error status)
  | _, _ => false
  end.

Definition wallet_class_for_request (request : WalletRequest.t) : WalletResponseClass.t :=
  match request with
  | WalletRequest.Status => WalletResponseClass.Status
  | WalletRequest.CreateWallet _ => WalletResponseClass.Create
  | WalletRequest.RestoreWallet _ _ => WalletResponseClass.Restore
  | WalletRequest.Unlock _ => WalletResponseClass.Unlock
  | WalletRequest.Lock => WalletResponseClass.Lock
  | WalletRequest.ListAccounts => WalletResponseClass.Accounts
  | WalletRequest.Balance _ _ => WalletResponseClass.Balance
  | WalletRequest.ReceiveTarget _ _ => WalletResponseClass.ReceiveTarget
  | WalletRequest.TransactionHistory _ _ => WalletResponseClass.Transactions
  | WalletRequest.ModuleStatus _ => WalletResponseClass.ModuleStatus
  | WalletRequest.WorkflowStatus _ => WalletResponseClass.Workflow
  end.

Definition wallet_class_matches (class : WalletResponseClass.t) (response : WalletResponse.t) : bool :=
  match class, response with
  | WalletResponseClass.Status, WalletResponse.Status _
  | WalletResponseClass.Create, WalletResponse.WalletCreated _
  | WalletResponseClass.Restore, WalletResponse.WalletRestored _
  | WalletResponseClass.Unlock, WalletResponse.Unlocked
  | WalletResponseClass.Lock, WalletResponse.Locked
  | WalletResponseClass.Accounts, WalletResponse.Accounts _
  | WalletResponseClass.Balance, WalletResponse.Balance _
  | WalletResponseClass.ReceiveTarget, WalletResponse.ReceiveTarget _
  | WalletResponseClass.Transactions, WalletResponse.TransactionHistory _
  | WalletResponseClass.ModuleStatus, WalletResponse.ModuleStatus _
  | WalletResponseClass.Workflow, WalletResponse.Workflow _ => true
  | _, _ => false
  end.

(** [RequestClass::authority]. *)
Definition class_authority (class : RequestClass.t) : option bytes :=
  match class with
  | RequestClass.Register handle | RequestClass.Replace handle _ _ | RequestClass.Revoke handle _
  | RequestClass.Capabilities handle _ | RequestClass.Provider handle _ _
  | RequestClass.Approval handle _ _ _ _ => Some handle
  | RequestClass.Wallet _ | RequestClass.HnsRead _ | RequestClass.HnsWalletAuthority _ => None
  end.

(** ** Methods and facts *)

Definition permission_mutating_method (method : string) : bool :=
  bool_decide (method ∈ ["wallet_requestPermissions"; "wallet_revokePermissions";
    "hns_requestAccounts"]%string).

Definition capability_mutating_method (method : string) : bool :=
  bool_decide (method ∈ ["wallet_enableModule"; "wallet_disableModule"]%string).

Definition approval_required_method (method : string) : bool :=
  bool_decide (method ∈ ["wallet_enableModule"; "wallet_disableModule";
    "wallet_requestPermissions"; "hns_requestAccounts"; "hns_send"; "asset_send";
    "hns_transferName"; "hns_finalizeName"; "hns_signTypedMessage";
    "nameMarket_createFixedPriceOffer"; "nameMarket_cancelOffer"; "nameMarket_acceptOffer";
    "nameMarket_finalizePurchase"; "nameMarket_recoverName"; "swap_publishDirectOffer";
    "swap_cancelDirectOffer"; "swap_acceptDirectOffer"; "swap_redeem"; "swap_refund"]%string).

Definition value_movement_method (method : string) : bool :=
  bool_decide (method ∈ ["hns_send"; "asset_send"; "hns_transferName"; "hns_finalizeName";
    "nameMarket_createFixedPriceOffer"; "nameMarket_cancelOffer"; "nameMarket_acceptOffer";
    "nameMarket_finalizePurchase"; "nameMarket_recoverName"; "swap_publishDirectOffer";
    "swap_cancelDirectOffer"; "swap_acceptDirectOffer"; "swap_redeem"; "swap_refund"]%string).

Definition lifecycle (phase : AuthorityPhase.t) : AuthorityLifecycle.t :=
  match phase with
  | AuthorityPhase.Detached => AuthorityLifecycle.Detached
  | AuthorityPhase.Registering => AuthorityLifecycle.Registering
  | AuthorityPhase.Active revision => AuthorityLifecycle.Active revision
  | AuthorityPhase.Replacing revision _ => AuthorityLifecycle.Replacing revision
  | AuthorityPhase.Revoking revision => AuthorityLifecycle.Revoking revision
  | AuthorityPhase.Stale revision => AuthorityLifecycle.Stale revision
  end.

Definition active_revision (state : AuthorityState) : result N HostError.t :=
  match as_phase state with
  | AuthorityPhase.Active revision =>
      if negb (revision =? 0) then Ok revision else Err HostError.AuthorityLifecycle
  | _ => Err HostError.AuthorityLifecycle
  end.

Definition validate_authority_facts (facts : HostAuthorityFacts) (now : N) :
    result unit HostError.t :=
  if is_blank (haf_origin facts) || (MAX_ORIGIN_BYTES <? str_len (haf_origin facts))
     || negb (is_ascii (haf_origin facts)) || (haf_runtime_generation facts =? 0)
     || (haf_policy_generation facts =? 0) || (haf_navigation_generation facts =? 0)
     || (haf_valid_until_unix_ms facts <=? now)
  then Err HostError.InvalidAuthorityFacts else Ok tt.

Definition validate_replacement (current replacement : HostAuthorityFacts) :
    result unit HostError.t :=
  if negb (bool_decide (haf_origin replacement = haf_origin current))
     || negb (bool_decide (haf_namespace replacement = haf_namespace current))
     || negb (bool_decide (haf_runtime_session_id replacement = haf_runtime_session_id current))
     || (haf_runtime_generation replacement <? haf_runtime_generation current)
     || (haf_policy_generation replacement <? haf_policy_generation current)
     || (haf_navigation_generation replacement <? haf_navigation_generation current)
     || (haf_valid_until_unix_ms replacement <? haf_valid_until_unix_ms current)
  then Err HostError.InvalidAuthorityFacts else Ok tt.

Definition validate_provider_request {Value} `{JsonCodec (ProviderBody Value)} (method : string)
    (params : Value) : result unit HostError.t :=
  if is_blank method || (MAX_METHOD_BYTES <? str_len method) || negb (is_ascii method)
     || negb (bool_decide (method ∈ PROVIDER_METHOD_WIRE_NAMES))
  then Err HostError.InvalidProviderRequest else
  let* encoded := ok_or (json_to_vec (mkBody method params)) HostError.Encoding in
  if MAX_PROVIDER_REQUEST_BYTES <? len encoded then Err HostError.InvalidProviderRequest else Ok tt.

(** ** Randomness *)

Section Random.
Context {E : Type} `{Entropy E}.

Fixpoint random_nonzero_loop (attempts size : nat) (entropy : E) : E * result bytes HostError.t :=
  match attempts with
  | O => (entropy, Err HostError.RandomIdentityUnavailable)
  | S attempts =>
      match fill_bytes entropy size with
      | (entropy, Err e) => (entropy, Err (HostError.Entropy e))
      | (entropy, Ok bytes) =>
          if all_zero bytes then random_nonzero_loop attempts size entropy else (entropy, Ok bytes)
      end
  end.

Definition random_nonzero (size : nat) (entropy : E) : E * result bytes HostError.t :=
  random_nonzero_loop RANDOM_ATTEMPTS size entropy.

Definition random_host_session (entropy : E) : E * result bytes HostError.t :=
  let! entropy, bytes := random_nonzero 32 entropy in
  (entropy, map_err (fun _ => HostError.RandomIdentityUnavailable) (WireId.from_bytes bytes)).

(** The loop that [random_authority_handle], [random_request_id] and
    [random_provider_nonce] share: draw, read the value, keep it when it is fresh. *)
Fixpoint random_fresh {T} (attempts size : nat) (read : bytes -> result T HostError.t)
    (fresh : T -> bool) (entropy : E) : E * result T HostError.t :=
  match attempts with
  | O => (entropy, Err HostError.RandomIdentityUnavailable)
  | S attempts =>
      let! entropy, bytes := random_nonzero size entropy in
      let! entropy, value := (entropy, read bytes) in
      if fresh value then (entropy, Ok value) else random_fresh attempts size read fresh entropy
  end.
End Random.

Definition read_id (bytes : bytes) : result Prelude.bytes HostError.t :=
  map_err (fun _ => HostError.RandomIdentityUnavailable) (WireId.from_bytes bytes).

(** ** The host *)

Record QueuedRequest (Value : Type) := mkQueued {
  queued_request_id : bytes;
  queued_frame : HostFrame Value;
}.
Arguments mkQueued {Value}.
Arguments queued_request_id {Value}.
Arguments queued_frame {Value}.

Record NegotiatedSession := mkNegotiated {
  ns_protocol_version : N;
  ns_platform : HostPlatform;
  ns_host_session_id : bytes;
  ns_service_session_id : bytes;
  ns_restart_generation : N;
  ns_capabilities : gset ServiceCapability.t;
  ns_limits : ServiceLimits;
}.

Record AcceptedResponse (Value : Type) := mkAcceptedResponse {
  ar_request_id : bytes;
  ar_response : ServiceResponse Value;
}.
Arguments mkAcceptedResponse {Value}.
Arguments ar_request_id {Value}.
Arguments ar_response {Value}.

Record AcceptedEvent := mkAcceptedEvent {
  ae_binding : ProviderBinding;
  ae_event_sequence : N;
  ae_payload : ProviderEventPayload.t;
}.

Module HostOutput.
Inductive t (Value : Type) :=
| Negotiated (session : NegotiatedSession)
| Response (response : AcceptedResponse Value)
| Event (event : AcceptedEvent).
Arguments Negotiated {Value}.
Arguments Response {Value}.
Arguments Event {Value}.
End HostOutput.

Section Host.
Context {C E Value : Type}.
Context `{Clock C, Entropy E, NameEnv, JsonCodec ApprovalPrompt, JsonCodec (ProviderBody Value)}.
Implicit Types h : WalletHost C E.

(** A fallible method without a result, one with a result. *)
Abbreviation host := (WalletHost C E).
Abbreviation fallible A := (result A HostError.t).

Definition new (platform : HostPlatform) (restart_generation : N) (clock : C) (entropy : E) :
    fallible host :=
  if restart_generation =? 0 then Err HostError.InvalidRestartGeneration else
  let '(entropy, session) := random_host_session entropy in
  let* host_session_id := session in
  Ok (mkHost platform host_session_id restart_generation clock entropy None
        ChannelState.AwaitingHello ∅ ∅ [] ∅ ∅ [] ∅ ∅ ∅ ∅ ∅).

Definition connection_state h : ConnectionState.t :=
  match wh_channel h with
  | ChannelState.AwaitingHello => ConnectionState.AwaitingHello
  | ChannelState.Ready _ => ConnectionState.Ready
  | ChannelState.Failed => ConnectionState.Failed
  end.

Definition hello_frame h : fallible (HostFrame Value) :=
  match wh_channel h with
  | ChannelState.AwaitingHello =>
      Ok (HostHelloFrame (mkHostHello WALLET_ABI_VERSION (wh_platform h) (wh_host_session_id h)
                            (wh_restart_generation h)))
  | ChannelState.Ready _ => Err HostError.UnexpectedHello
  | ChannelState.Failed => Err HostError.ChannelFailed
  end.

(** *** Invalidation *)

(** [get_mut] of an authority. *)
Definition alter_authority h (handle : bytes) (f : AuthorityState -> AuthorityState) : host :=
  set_authorities h (alter f handle (wh_authorities h)).

Definition with_phase (state : AuthorityState) (phase : AuthorityPhase.t) : AuthorityState :=
  mkAuthority (as_facts state) phase (as_binding state) (as_capabilities state).

Definition with_binding (state : AuthorityState) (binding : option ProviderBinding)
    (capabilities : option ProviderCapabilitySnapshot) : AuthorityState :=
  mkAuthority (as_facts state) (as_phase state) binding capabilities.

Definition invalidate_authority_derived h (handle : bytes) : host :=
  let h := alter_authority h handle (fun state => with_binding state None None) in
  let h := set_approvals h (retain (fun _ approval => negb (bool_decide
             (pb_authority_handle (ap_binding (prompt approval)) = handle))) (wh_approvals h)) in
  set_event_cursors h (retain (fun key _ => negb (bool_decide
             (ck_authority_handle key = handle))) (wh_event_cursors h)).

(** The handles whose facts name this origin and namespace. *)
Definition scope_handles h (origin : string) (namespace : ProviderNamespace) : list bytes :=
  (map_to_list (retain (fun _ state => bool_decide (haf_origin (as_facts state) = origin)
     && bool_decide (haf_namespace (as_facts state) = namespace)) (wh_authorities h))).*1.

Definition invalidate_permission_scope h (handle : bytes) : host * fallible unit :=
  let! h, state := (h, ok_or (wh_authorities h !! handle) HostError.AuthorityUnknown) in
  let affected := scope_handles h (haf_origin (as_facts state)) (haf_namespace (as_facts state)) in
  let h := foldl invalidate_authority_derived h affected in
  (set_event_cursors h ∅, Ok tt).

Definition invalidate_all_capability_snapshots h : host :=
  set_authorities h ((fun state => with_binding state (as_binding state) None) <$> wh_authorities h).

Definition invalidate_all_provider_state h : host :=
  let h := set_authorities h ((fun state => with_binding state None None) <$> wh_authorities h) in
  let h := set_approvals h ∅ in
  set_event_cursors h ∅.

Definition mark_authority_stale h (handle : bytes) : host :=
  let h := invalidate_authority_derived h handle in
  alter_authority h handle (fun state =>
    match as_phase state with
    | AuthorityPhase.Active revision | AuthorityPhase.Replacing revision _
    | AuthorityPhase.Revoking revision | AuthorityPhase.Stale revision =>
        with_phase state (AuthorityPhase.Stale revision)
    | AuthorityPhase.Detached | AuthorityPhase.Registering => state
    end).

(** What a lost service leaves of an authority: a revocation is taken as done, a
    replacement as made. *)
Definition detach (state : AuthorityState) : option AuthorityState :=
  match as_phase state with
  | AuthorityPhase.Replacing _ replacement =>
      Some (mkAuthority replacement AuthorityPhase.Detached None None)
  | AuthorityPhase.Revoking _ => None
  | _ => Some (mkAuthority (as_facts state) AuthorityPhase.Detached None None)
  end.

Definition invalidate_service_state h : host :=
  let h := set_authorities h (omap detach (wh_authorities h)) in
  let h := set_recent_request_ids h (wh_recent_request_ids h ∖ wh_aged_out_request_ids h) in
  let h := set_aged_out_request_ids h ∅ in
  let h := set_pending h ∅ in
  let h := set_approvals h ∅ in
  set_event_cursors h ∅.

Definition poison_channel h : host :=
  set_channel (invalidate_service_state h) ChannelState.Failed.

(** *** Identities and time *)

Definition now h : host * fallible N :=
  let '(clock, reading) := now_unix_ms (wh_clock h) in
  let h := set_clock h clock in
  let! h, now := (h, map_err HostError.Clock reading) in
  if is_some_and (wh_last_now_unix_ms h) (fun last => now <? last)
  then (poison_channel h, Err HostError.ClockRollback)
  else (set_last_now_unix_ms h (Some now), Ok now).

Definition random_authority_handle h : host * fallible bytes :=
  let '(entropy, handle) := random_fresh RANDOM_ATTEMPTS 32 read_id
    (fun handle => negb (bool_decide (handle ∈ wh_issued_authority_ids h))) (wh_entropy h) in
  (set_entropy h entropy, handle).

Definition random_request_id h : host * fallible bytes :=
  let '(entropy, id) := random_fresh RANDOM_ATTEMPTS 16 read_id
    (fun id => negb (bool_decide (id ∈ wh_recent_request_ids h)) && is_none (wh_pending h !! id))
    (wh_entropy h) in
  (set_entropy h entropy, id).

Definition random_provider_nonce h (handle : bytes) : host * fallible N :=
  let '(entropy, nonce) := random_fresh RANDOM_ATTEMPTS 8 (fun bytes => Ok (from_be_bytes bytes))
    (fun nonce => negb (nonce =? 0) && negb (bool_decide ((handle, nonce) ∈ wh_recent_nonces h)))
    (wh_entropy h) in
  (set_entropy h entropy, nonce).

Definition remember_request_id h (request_id : bytes) : host :=
  let h := set_recent_request_ids h ({[request_id]} ∪ wh_recent_request_ids h) in
  let h := set_request_id_order h (wh_request_id_order h ++ [request_id]) in
  if MAX_RECENT_REQUEST_IDS <? len (wh_request_id_order h) then
    match wh_request_id_order h with
    | [] => h
    | expired :: order =>
        let h := set_request_id_order h order in
        if is_some (wh_pending h !! expired)
        then set_aged_out_request_ids h ({[expired]} ∪ wh_aged_out_request_ids h)
        else set_recent_request_ids h (wh_recent_request_ids h ∖ {[expired]})
    end
  else h.

Definition remember_nonce h (handle : bytes) (nonce : N) : host :=
  let h := set_recent_nonces h ({[(handle, nonce)]} ∪ wh_recent_nonces h) in
  let h := set_nonce_order h (wh_nonce_order h ++ [(handle, nonce)]) in
  if MAX_RECENT_PROVIDER_NONCES <? len (wh_nonce_order h) then
    match wh_nonce_order h with
    | [] => h
    | expired :: order =>
        set_recent_nonces (set_nonce_order h order) (wh_recent_nonces h ∖ {[expired]})
    end
  else h.

(** [pending.remove] and the release of an identifier that was kept for it. *)
Definition forget_request h (request_id : bytes) : host :=
  let h := set_pending h (delete request_id (wh_pending h)) in
  if bool_decide (request_id ∈ wh_aged_out_request_ids h) then
    let h := set_aged_out_request_ids h (wh_aged_out_request_ids h ∖ {[request_id]}) in
    set_recent_request_ids h (wh_recent_request_ids h ∖ {[request_id]})
  else h.

Definition has_capability h (capability : ServiceCapability.t) : fallible bool :=
  match wh_channel h with
  | ChannelState.Ready session => Ok (bool_decide (capability ∈ ss_capabilities session))
  | ChannelState.AwaitingHello => Err HostError.HandshakeRequired
  | ChannelState.Failed => Err HostError.ChannelFailed
  end.

Definition require_capability h (capability : ServiceCapability.t) : fallible unit :=
  let* present := has_capability h capability in
  if present : bool then Ok tt else Err HostError.CapabilityUnavailable.

Definition active_authority h (handle : bytes) (now : N) : host * fallible AuthorityState :=
  let! h, state := (h, ok_or (wh_authorities h !! handle) HostError.AuthorityUnknown) in
  if haf_valid_until_unix_ms (as_facts state) <=? now
  then (mark_authority_stale h handle, Err HostError.AuthorityExpired)
  else match as_phase state with
       | AuthorityPhase.Active _ => (h, Ok state)
       | _ => (h, Err HostError.AuthorityLifecycle)
       end.

(** *** Session *)

Definition restart h (restart_generation : N) : host * fallible (HostFrame Value) :=
  if (restart_generation =? 0) || (restart_generation <=? wh_restart_generation h)
  then (h, Err HostError.InvalidRestartGeneration) else
  let h := invalidate_service_state h in
  let h := set_restart_generation h restart_generation in
  let h := set_channel h ChannelState.AwaitingHello in
  (h, hello_frame h).

Definition reset h (restart_generation : N) : host * fallible (HostFrame Value) :=
  if restart_generation =? 0 then (h, Err HostError.InvalidRestartGeneration) else
  let '(entropy, session) := random_host_session (wh_entropy h) in
  let h := set_entropy h entropy in
  let! h, host_session_id := (h, session) in
  let h := invalidate_service_state h in
  let h := set_host_session_id h host_session_id in
  let h := set_restart_generation h restart_generation in
  let h := set_last_now_unix_ms h None in
  let h := set_recent_request_ids h ∅ in
  let h := set_request_id_order h [] in
  let h := set_aged_out_request_ids h ∅ in
  let h := set_recent_nonces h ∅ in
  let h := set_nonce_order h [] in
  let h := set_issued_approval_ids h ∅ in
  let h := set_channel h ChannelState.AwaitingHello in
  (h, hello_frame h).

Definition negotiated_session h : option NegotiatedSession :=
  match wh_channel h with
  | ChannelState.Ready session =>
      Some (mkNegotiated WALLET_ABI_VERSION (wh_platform h) (wh_host_session_id h)
              (ss_service_session_id session) (wh_restart_generation h) (ss_capabilities session)
              limits_default)
  | _ => None
  end.

Definition authority h (handle : bytes) : option AuthoritySnapshot :=
  (fun state => mkAuthoritySnapshot (as_facts state) (lifecycle (as_phase state))
                  (as_binding state) (as_capabilities state)) <$> wh_authorities h !! handle.

Definition discard_authority h (handle : bytes) : host * fallible unit :=
  let! h, now := now h in
  let! h, state := (h, ok_or (wh_authorities h !! handle) HostError.AuthorityUnknown) in
  let discardable :=
    match as_phase state with
    | AuthorityPhase.Detached | AuthorityPhase.Stale _ => true
    | _ => haf_valid_until_unix_ms (as_facts state) <=? now
    end in
  if negb discardable then (h, Err HostError.AuthorityLifecycle) else
  let cancelled := (map_to_list (retain (fun _ class =>
    bool_decide (class_authority class = Some handle)) (wh_pending h))).*1 in
  let h := foldl forget_request h cancelled in
  let h := invalidate_authority_derived h handle in
  (set_authorities h (delete handle (wh_authorities h)), Ok tt).

Definition approval h (id : bytes) : host * fallible ApprovalPrompt :=
  let! h, now := now h in
  let! h, approval := (h, ok_or (wh_approvals h !! id) HostError.ApprovalMismatch) in
  if ap_expires_at_unix_ms (prompt approval) <=? now
  then (set_approvals h (delete id (wh_approvals h)), Err HostError.ApprovalExpired)
  else match ha_phase approval with
       | Available => (h, Ok (prompt approval))
       | Deciding _ => (h, Err HostError.ApprovalMismatch)
       end.

(** *** Requests *)

Definition enqueue h (body : ServiceRequest Value) (class : RequestClass.t) :
    host * fallible (QueuedRequest Value) :=
  if MAX_PENDING_REQUESTS <=? count (wh_pending h)
  then (h, Err HostError.PendingRequestCapacity) else
  let! h, request_id := random_request_id h in
  match wh_channel h with
  | ChannelState.Failed => (h, Err HostError.ChannelFailed)
  | ChannelState.AwaitingHello => (h, Err HostError.HandshakeRequired)
  | ChannelState.Ready session =>
      let! h, next := (h, ok_or (u64_add (next_host_sequence session) 1)
                            HostError.SequenceExhausted) in
      let h := set_pending h (<[request_id := class]> (wh_pending h)) in
      let h := remember_request_id h request_id in
      let h := set_channel h (ChannelState.Ready
                 (mkSession (ss_service_session_id session) (ss_capabilities session) next
                    (next_service_sequence session))) in
      (h, Ok (mkQueued request_id (Request
         (mkEnvelope WALLET_ABI_VERSION (wh_host_session_id h) (ss_service_session_id session)
            (wh_restart_generation h) (next_host_sequence session) request_id body))))
  end.

Definition register_authority h (facts : HostAuthorityFacts) :
    host * fallible (bytes * HostFrame Value) :=
  let! h, _ := (h, require_capability h ServiceCapability.OpaqueAuthorityRegistry) in
  if MAX_AUTHORITIES <=? count (wh_authorities h)
  then (h, Err HostError.AuthorityCapacity) else
  if MAX_ISSUED_AUTHORITY_IDS <=? set_len (wh_issued_authority_ids h)
  then (h, Err HostError.AuthorityIdentityCapacity) else
  let! h, now := now h in
  let! h, _ := (h, validate_authority_facts facts now) in
  let! h, handle := random_authority_handle h in
  let! h, queued := enqueue h (RegisterAuthority handle facts) (RequestClass.Register handle) in
  let h := set_issued_authority_ids h ({[handle]} ∪ wh_issued_authority_ids h) in
  let h := set_authorities h (<[handle := mkAuthority facts AuthorityPhase.Registering None None]>
                                (wh_authorities h)) in
  (h, Ok (handle, queued_frame queued)).

(** [get_mut(..).ok_or(AuthorityUnknown)?.phase = phase]. *)
Definition set_authority_phase h (handle : bytes) (phase : AuthorityPhase.t) : host * fallible unit :=
  let! h, state := (h, ok_or (wh_authorities h !! handle) HostError.AuthorityUnknown) in
  (set_authorities h (<[handle := with_phase state phase]> (wh_authorities h)), Ok tt).

Definition register_detached_authority h (handle : bytes) : host * fallible (HostFrame Value) :=
  let! h, _ := (h, require_capability h ServiceCapability.OpaqueAuthorityRegistry) in
  let! h, now := now h in
  let! h, state := (h, ok_or (wh_authorities h !! handle) HostError.AuthorityUnknown) in
  match as_phase state with
  | AuthorityPhase.Detached =>
      let! h, _ := (h, validate_authority_facts (as_facts state) now) in
      let! h, queued := enqueue h (RegisterAuthority handle (as_facts state))
                          (RequestClass.Register handle) in
      let! h, _ := set_authority_phase h handle AuthorityPhase.Registering in
      (h, Ok (queued_frame queued))
  | _ => (h, Err HostError.AuthorityLifecycle)
  end.

Definition replace_authority h (handle : bytes) (replacement : HostAuthorityFacts) :
    host * fallible (HostFrame Value) :=
  let! h, _ := (h, require_capability h ServiceCapability.OpaqueAuthorityRegistry) in
  let! h, now := now h in
  let! h, _ := (h, validate_authority_facts replacement now) in
  let! h, state := active_authority h handle now in
  let! h, revision := (h, active_revision state) in
  let! h, _ := (h, validate_replacement (as_facts state) replacement) in
  let! h, queued := enqueue h (ReplaceAuthority handle revision replacement)
                      (RequestClass.Replace handle revision replacement) in
  let h := invalidate_authority_derived h handle in
  let! h, _ := set_authority_phase h handle (AuthorityPhase.Replacing revision replacement) in
  (h, Ok (queued_frame queued)).

Definition revoke_authority h (handle : bytes) : host * fallible (HostFrame Value) :=
  let! h, _ := (h, require_capability h ServiceCapability.OpaqueAuthorityRegistry) in
  let! h, now := now h in
  let! h, state := active_authority h handle now in
  let! h, revision := (h, active_revision state) in
  let! h, queued := enqueue h (RevokeAuthority handle revision)
                      (RequestClass.Revoke handle revision) in
  let h := invalidate_authority_derived h handle in
  let! h, _ := set_authority_phase h handle (AuthorityPhase.Revoking revision) in
  (h, Ok (queued_frame queued)).

Definition request_provider_capabilities h (handle : bytes) : host * fallible (HostFrame Value) :=
  let! h, _ := (h, require_capability h ServiceCapability.OpaqueAuthorityRegistry) in
  let! h, now := now h in
  let! h, state := active_authority h handle now in
  let! h, revision := (h, active_revision state) in
  let! h, queued := enqueue h (ProviderCapabilities handle revision)
                      (RequestClass.Capabilities handle revision) in
  (h, Ok (queued_frame queued)).

Definition provider_request h (handle : bytes) (method : string) (params : Value) :
    host * fallible (HostFrame Value) :=
  let! h, _ := (h, require_capability h ServiceCapability.ProviderDispatch) in
  let! h, now := now h in
  let! h, state := active_authority h handle now in
  let! h, revision := (h, active_revision state) in
  let! h, binding := (h, ok_or (as_binding state) HostError.StaleBinding) in
  let! h, capabilities := (h, ok_or (as_capabilities state) HostError.StaleBinding) in
  if negb (bool_decide (pb_authority_handle binding = handle))
     || negb (pb_authority_revision binding =? revision)
     || negb (bool_decide (pcs_wallet_session_id capabilities = pb_wallet_session_id binding))
     || negb (pcs_permission_generation capabilities =? pb_permission_generation binding)
  then (h, Err HostError.StaleBinding) else
  if negb (bool_decide (method ∈ methods capabilities))
  then (h, Err HostError.MethodUnavailable) else
  let! h, _ := (h, validate_provider_request method params) in
  let! h, _ := (h, if value_movement_method method
                   then require_capability h ServiceCapability.ValueMovement else Ok tt) in
  let! h, nonce := random_provider_nonce h handle in
  let! h, queued := enqueue h (ProviderRequest handle revision nonce method params)
                      (RequestClass.Provider handle revision method) in
  let h := remember_nonce h handle nonce in
  (h, Ok (queued_frame queued)).

Definition decide_approval h (id : bytes) (decision : ApprovalDecision.t) :
    host * fallible (HostFrame Value) :=
  let! h, _ := (h, require_capability h ServiceCapability.StructuredApprovals) in
  let! h, now := now h in
  let! h, approval := (h, ok_or (wh_approvals h !! id) HostError.ApprovalMismatch) in
  if ap_expires_at_unix_ms (prompt approval) <=? now then (h, Err HostError.ApprovalExpired) else
  match ha_phase approval with
  | Deciding _ => (h, Err HostError.ApprovalMismatch)
  | Available =>
      let binding := ap_binding (prompt approval) in
      let handle := pb_authority_handle binding in
      let revision := pb_authority_revision binding in
      let! h, state := active_authority h handle now in
      let! h, current := (h, active_revision state) in
      if negb (current =? revision) || negb (bool_decide (as_binding state = Some binding))
         || negb (bool_decide (haf_origin (as_facts state) = ap_origin (prompt approval)))
      then (h, Err HostError.ApprovalMismatch) else
      let! h, queued := enqueue h (DecideApproval handle revision id decision)
        (RequestClass.Approval handle revision id decision (ap_method (prompt approval))) in
      let! h, approval := (h, ok_or (wh_approvals h !! id) HostError.ApprovalMismatch) in
      let h := set_approvals h
        (<[id := mkHostApproval (prompt approval) (Deciding (queued_request_id queued))]>
           (wh_approvals h)) in
      (h, Ok (queued_frame queued))
  end.

Definition wallet_request h (request : WalletRequest.t) : host * fallible (HostFrame Value) :=
  let! h, _ := (h, require_capability h ServiceCapability.WalletOperations) in
  let! h, queued := enqueue h (Wallet request)
                      (RequestClass.Wallet (wallet_class_for_request request)) in
  (h, Ok (queued_frame queued)).

Definition hns_read_request h (request : WalletRequest.t) : host * fallible (HostFrame Value) :=
  let! h, _ := (h, require_capability h ServiceCapability.WalletOperations) in
  let! h, _ := (h, require_capability h ServiceCapability.HnsReadOperationsV1) in
  let! h, class := (h, hns_read_for_request request) in
  let! h, queued := enqueue h (Wallet request) (RequestClass.HnsRead class) in
  (h, Ok (queued_frame queued)).

Definition hns_wallet_authority_context_request h (request : WalletAuthorityContextRequest) :
    host * fallible (HostFrame Value) :=
  let! h, _ := (h, require_capability h ServiceCapability.WalletOperations) in
  let! h, _ := (h, require_capability h ServiceCapability.HnsReadOperationsV1) in
  let! h, _ := (h, require_capability h ServiceCapability.HnsWalletAuthorityContextV1) in
  let! h, class := (h, authority_context_for_request request) in
  let! h, queued := enqueue h (WalletAuthority request) (RequestClass.HnsWalletAuthority class) in
  (h, Ok (queued_frame queued)).

(** *** Responses *)

Definition apply_failure h (class : RequestClass.t) (code : ServiceErrorCode.t) : host :=
  let h :=
    match class with
    | RequestClass.Register handle =>
        let h := invalidate_authority_derived h handle in
        set_authorities h (delete handle (wh_authorities h))
    | RequestClass.Replace handle expected_revision _ | RequestClass.Revoke handle expected_revision =>
        let h := invalidate_authority_derived h handle in
        alter_authority h handle
          (fun state => with_phase state (AuthorityPhase.Stale expected_revision))
    | RequestClass.Approval _ _ id _ _ => set_approvals h (delete id (wh_approvals h))
    | _ => h
    end in
  match code with
  | ServiceErrorCode.AuthorityUnknown | ServiceErrorCode.AuthorityStale =>
      match class_authority class with
      | Some handle => mark_authority_stale h handle
      | None => h
      end
  | _ => h
  end.

(** Set the binding and the snapshot of an authority at its expected revision. *)
Definition bind_authority h (handle : bytes) (revision : N) (mismatch : HostError.t)
    (binding : ProviderBinding) (capabilities : option ProviderCapabilitySnapshot) :
    host * fallible unit :=
  let! h, state := (h, ok_or (wh_authorities h !! handle) HostError.AuthorityUnknown) in
  let! h, current := (h, active_revision state) in
  if negb (current =? revision) then (h, Err mismatch) else
  (set_authorities h (<[handle := with_binding state (Some binding) capabilities]>
                        (wh_authorities h)), Ok tt).

Definition install_capabilities h (handle : bytes) (revision : N) (binding : ProviderBinding)
    (capabilities : ProviderCapabilitySnapshot) : host * fallible unit :=
  let names := elements (methods capabilities) in
  let methods_valid :=
    (provider_schema_version capabilities =? PROVIDER_SCHEMA_VERSION)
    && (approval_schema_version capabilities =? APPROVAL_SCHEMA_VERSION)
    && bool_decide (pcs_wallet_session_id capabilities = pb_wallet_session_id binding)
    && (pcs_permission_generation capabilities =? pb_permission_generation binding)
    && (set_len (methods capabilities) <=? MAX_PROVIDER_METHODS)
    && forallb (fun method => negb (is_blank method) && (str_len method <=? MAX_METHOD_BYTES)
         && is_ascii method && bool_decide (method ∈ PROVIDER_METHOD_WIRE_NAMES)) names in
  if negb (bool_decide (pb_authority_handle binding = handle))
     || negb (pb_authority_revision binding =? revision) || (revision =? 0) || negb methods_valid
  then (h, Err HostError.InvalidCapabilitySnapshot) else
  let! h, dispatch := (h, has_capability h ServiceCapability.ProviderDispatch) in
  let! h, value := (h, has_capability h ServiceCapability.ValueMovement) in
  let! h, approvals := (h, has_capability h ServiceCapability.StructuredApprovals) in
  let! h, wallet_operations := (h, has_capability h ServiceCapability.WalletOperations) in
  if (negb dispatch && negb (is_empty names))
     || (negb approvals && existsb approval_required_method names)
     || (negb wallet_operations && bool_decide ("wallet_lock"%string ∈ methods capabilities))
     || (negb value && existsb value_movement_method names)
  then (h, Err HostError.InvalidCapabilitySnapshot) else
  let! h, state := (h, ok_or (wh_authorities h !! handle) HostError.AuthorityUnknown) in
  let! h, active := (h, active_revision state) in
  if negb (active =? revision) then (h, Err HostError.StaleBinding) else
  let! h, _ :=
    match as_binding state with
    | None => (h, Ok tt)
    | Some current =>
        if negb (bool_decide (pb_wallet_session_id current = pb_wallet_session_id binding)) then
          if negb (pb_permission_generation current =? pb_permission_generation binding)
          then (h, Err HostError.StaleBinding)
          else (invalidate_all_provider_state h, Ok tt)
        else if pb_permission_generation binding <? pb_permission_generation current
        then (h, Err HostError.StaleBinding)
        else if pb_permission_generation current <? pb_permission_generation binding
        then invalidate_permission_scope h handle
        else (h, Ok tt)
    end in
  bind_authority h handle revision HostError.StaleBinding binding (Some capabilities).

Definition install_approval h (handle : bytes) (revision : N) (method : string)
    (approval : ApprovalPrompt) : host * fallible unit :=
  let! h, now := now h in
  let h := set_approvals h (retain (fun _ pending =>
             now <? ap_expires_at_unix_ms (prompt pending)) (wh_approvals h)) in
  if MAX_PENDING_APPROVALS <=? count (wh_approvals h)
  then (h, Err HostError.ApprovalCapacity) else
  if MAX_ISSUED_APPROVAL_IDS <=? set_len (wh_issued_approval_ids h)
  then (h, Err HostError.ApprovalIdentityCapacity) else
  if bool_decide (approval_id approval ∈ wh_issued_approval_ids h)
  then (h, Err HostError.ApprovalMismatch) else
  let! h, _ := (h, map_err (fun _ => HostError.ApprovalMismatch)
                     (prompt_validate approval (approval_kind (ap_summary approval)) now)) in
  let! h, state := (h, ok_or (wh_authorities h !! handle) HostError.AuthorityUnknown) in
  let! h, active := (h, active_revision state) in
  if negb (active =? revision) || negb (bool_decide (as_binding state = Some (ap_binding approval)))
     || negb (bool_decide (pb_authority_handle (ap_binding approval) = handle))
     || negb (pb_authority_revision (ap_binding approval) =? revision)
     || negb (bool_decide (ap_origin approval = haf_origin (as_facts state)))
     || negb (bool_decide (ap_method approval = method))
  then (h, Err HostError.ApprovalMismatch) else
  let h := set_approvals h (<[approval_id approval := mkHostApproval approval Available]>
                              (wh_approvals h)) in
  (set_issued_approval_ids h ({[approval_id approval]} ∪ wh_issued_approval_ids h), Ok tt).

Definition validate_deciding_approval h (id : bytes) : host * fallible unit :=
  let! h, now := now h in
  let! h, approval := (h, ok_or (wh_approvals h !! id) HostError.ApprovalMismatch) in
  if ap_expires_at_unix_ms (prompt approval) <=? now then (h, Err HostError.ApprovalExpired) else
  match ha_phase approval with
  | Available => (h, Err HostError.ApprovalMismatch)
  | Deciding request_id =>
      if is_none (wh_pending h !! request_id) then (h, Err HostError.ApprovalMismatch) else (h, Ok tt)
  end.

Definition apply_provider_binding h (handle : bytes) (revision : N) (method : string)
    (binding : ProviderBinding) : host * fallible unit :=
  if negb (bool_decide (pb_authority_handle binding = handle))
     || negb (pb_authority_revision binding =? revision)
  then (h, Err HostError.StaleBinding) else
  let! h, state := (h, ok_or (wh_authorities h !! handle) HostError.AuthorityUnknown) in
  let! h, active := (h, active_revision state) in
  if negb (active =? revision) then (h, Err HostError.StaleBinding) else
  let! h, current := (h, ok_or (as_binding state) HostError.StaleBinding) in
  if permission_mutating_method method then
    if negb (bool_decide (pb_wallet_session_id binding = pb_wallet_session_id current))
       || negb (bool_decide (u64_add (pb_permission_generation current) 1
                             = Some (pb_permission_generation binding)))
    then (h, Err HostError.StaleBinding) else
    let! h, _ := invalidate_permission_scope h handle in
    bind_authority h handle revision HostError.StaleBinding binding None
  else if bool_decide (method = "wallet_lock"%string) then
    if bool_decide (pb_wallet_session_id binding = pb_wallet_session_id current)
       || negb (pb_permission_generation binding =? pb_permission_generation current)
    then (h, Err HostError.StaleBinding) else
    bind_authority (invalidate_all_provider_state h) handle revision HostError.StaleBinding
      binding None
  else if negb (bool_decide (binding = current)) then (h, Err HostError.StaleBinding)
  else if capability_mutating_method method
  then (invalidate_all_capability_snapshots h, Ok tt)
  else (h, Ok tt).

(** The failures that end the session. *)
Definition is_protocol_failure (code : ServiceErrorCode.t) : bool :=
  match code with
  | ServiceErrorCode.InvalidFrame | ServiceErrorCode.VersionMismatch
  | ServiceErrorCode.SessionMismatch | ServiceErrorCode.SequenceMismatch
  | ServiceErrorCode.Replay | ServiceErrorCode.UnsupportedCapability => true
  | _ => false
  end.

(** The wallet session changed. *)
Definition rotates_wallet (response : WalletResponse.t) : bool :=
  match response with
  | WalletResponse.WalletCreated _ | WalletResponse.WalletRestored _
  | WalletResponse.Locked | WalletResponse.Unlocked => true
  | _ => false
  end.

(** An arm whose guard fails falls through to the last one. *)
Definition apply_response h (class : RequestClass.t) (response : ServiceResponse Value) :
    host * fallible unit :=
  let mismatch := (h, Err HostError.ResponseClassMismatch) in
  match class, response with
  | _, Failure failure =>
      if is_protocol_failure (code failure) then (h, Err HostError.ReportedProtocolFailure)
      else (apply_failure h class (code failure), Ok tt)
  | RequestClass.Register handle, AuthorityRegistered authority_handle authority_revision =>
      if bool_decide (handle = authority_handle) && (authority_revision =? 1) then
        let! h, state := (h, ok_or (wh_authorities h !! handle) HostError.AuthorityUnknown) in
        match as_phase state with
        | AuthorityPhase.Registering =>
            (set_authorities h (<[handle := with_phase state (AuthorityPhase.Active 1)]>
                                  (wh_authorities h)), Ok tt)
        | _ => (h, Err HostError.AuthorityLifecycle)
        end
      else mismatch
  | RequestClass.Replace handle expected_revision replacement,
    AuthorityReplaced authority_handle authority_revision =>
      if bool_decide (handle = authority_handle)
         && bool_decide (u64_add expected_revision 1 = Some authority_revision) then
        let! h, state := (h, ok_or (wh_authorities h !! handle) HostError.AuthorityUnknown) in
        match as_phase state with
        | AuthorityPhase.Replacing revision pending_replacement =>
            if (revision =? expected_revision) && bool_decide (pending_replacement = replacement)
            then (set_authorities h (<[handle := mkAuthority replacement
                    (AuthorityPhase.Active authority_revision) (as_binding state)
                    (as_capabilities state)]> (wh_authorities h)), Ok tt)
            else (h, Err HostError.AuthorityLifecycle)
        | _ => (h, Err HostError.AuthorityLifecycle)
        end
      else mismatch
  | RequestClass.Revoke handle expected_revision, AuthorityRevoked authority_handle =>
      if bool_decide (handle = authority_handle) then
        let! h, state := (h, ok_or (wh_authorities h !! handle) HostError.AuthorityUnknown) in
        match as_phase state with
        | AuthorityPhase.Revoking revision =>
            if revision =? expected_revision then
              let h := invalidate_authority_derived h handle in
              (set_authorities h (delete handle (wh_authorities h)), Ok tt)
            else (h, Err HostError.AuthorityLifecycle)
        | _ => (h, Err HostError.AuthorityLifecycle)
        end
      else mismatch
  | RequestClass.Capabilities handle revision, CapabilitiesResponse binding capabilities =>
      install_capabilities h handle revision binding capabilities
  | RequestClass.Provider handle revision method, ProviderResult binding _ =>
      if approval_required_method method then mismatch
      else apply_provider_binding h handle revision method binding
  | RequestClass.Provider handle revision method, ApprovalRequired approval =>
      if approval_required_method method then
        let! h, _ := (h, require_capability h ServiceCapability.StructuredApprovals) in
        install_approval h handle revision method approval
      else mismatch
  | RequestClass.Approval handle revision id ApprovalDecision.Approve method,
    ProviderResult binding _ =>
      let! h, _ := validate_deciding_approval h id in
      let! h, _ := apply_provider_binding h handle revision method binding in
      (set_approvals h (delete id (wh_approvals h)), Ok tt)
  | RequestClass.Approval _ _ id ApprovalDecision.Reject _, ApprovalRejected response_id =>
      if bool_decide (id = response_id) then
        let! h, _ := validate_deciding_approval h id in
        (set_approvals h (delete id (wh_approvals h)), Ok tt)
      else mismatch
  | RequestClass.Wallet class, WalletResult response =>
      if wallet_class_matches class response then
        (if rotates_wallet response then invalidate_all_provider_state h else h, Ok tt)
      else mismatch
  | RequestClass.HnsRead class, WalletResult response =>
      if hns_read_matches class response then (h, Ok tt) else mismatch
  | RequestClass.HnsWalletAuthority request, WalletAuthorityResponse context =>
      if authority_context_matches request context then (h, Ok tt) else mismatch
  | _, _ => mismatch
  end.

Definition validate_response_authority_time h (class : RequestClass.t) : host * fallible unit :=
  match class_authority class with
  | None => (h, Ok tt)
  | Some handle =>
      let! h, now := now h in
      let! h, state := (h, ok_or (wh_authorities h !! handle) HostError.AuthorityUnknown) in
      if haf_valid_until_unix_ms (as_facts state) <=? now
      then (mark_authority_stale h handle, Err HostError.AuthorityExpired)
      else (h, Ok tt)
  end.

(** *** Events *)

Definition is_disconnect (payload : ProviderEventPayload.t) (reason : DisconnectReason) : bool :=
  match payload, reason with
  | ProviderEventPayload.Disconnect DisconnectAuthorityRevoked, DisconnectAuthorityRevoked
  | ProviderEventPayload.Disconnect AuthorityExpired, AuthorityExpired
  | ProviderEventPayload.Disconnect NavigationChanged, NavigationChanged
  | ProviderEventPayload.Disconnect PolicyChanged, PolicyChanged
  | ProviderEventPayload.Disconnect WalletSessionChanged, WalletSessionChanged
  | ProviderEventPayload.Disconnect ServiceRestarted, ServiceRestarted => true
  | _, _ => false
  end.

(** The guards of the [match] on the payload, in the source's order. *)
Definition check_event_payload (event : ProviderEventEnvelope) : fallible unit :=
  let generation := pb_permission_generation (ev_binding event) in
  match ev_payload event with
  | ProviderEventPayload.Disconnect ServiceRestarted => Err HostError.SessionMismatch
  | ProviderEventPayload.Disconnect _ => Ok tt
  | ProviderEventPayload.Connect g | ProviderEventPayload.PermissionsChanged g _ =>
      if negb (g =? generation) then Err HostError.EventBindingMismatch
      else if generation =? 0 then Err HostError.EventBindingMismatch else Ok tt
  | _ => if generation =? 0 then Err HostError.EventBindingMismatch else Ok tt
  end.

(** The binding an event announces: the current one, the next permission
    generation, or a new wallet session. *)
Definition follow_event_binding h (event : ProviderEventEnvelope) (revision : N)
    (current : ProviderBinding) : host * fallible unit :=
  let handle := pb_authority_handle (ev_binding event) in
  let payload := ev_payload event in
  if bool_decide (ev_binding event = current) then (h, Ok tt) else
  let same_session :=
    bool_decide (pb_wallet_session_id (ev_binding event) = pb_wallet_session_id current) in
  let permission_advanced := same_session
    && bool_decide (u64_add (pb_permission_generation current) 1
                    = Some (pb_permission_generation (ev_binding event)))
    && match payload with
       | ProviderEventPayload.Connect _ | ProviderEventPayload.PermissionsChanged _ _ => true
       | _ => is_disconnect payload DisconnectAuthorityRevoked
       end in
  let wallet_rotated := negb same_session
    && (pb_permission_generation (ev_binding event) =? pb_permission_generation current)
    && match payload with
       | ProviderEventPayload.WalletLocked => true
       | _ => is_disconnect payload WalletSessionChanged
       end in
  if negb permission_advanced && negb wallet_rotated
  then (h, Err HostError.EventBindingMismatch) else
  let! h, _ := if wallet_rotated then (invalidate_all_provider_state h, Ok tt)
               else invalidate_permission_scope h handle in
  bind_authority h handle revision HostError.EventBindingMismatch (ev_binding event) None.

Definition validate_and_apply_event h (event : ProviderEventEnvelope) (now : N) :
    host * fallible unit :=
  let handle := pb_authority_handle (ev_binding event) in
  let! h, state := (h, ok_or (wh_authorities h !! handle) HostError.AuthorityUnknown) in
  let! h, revision := (h, active_revision state) in
  let! h, current := (h, ok_or (as_binding state) HostError.EventBindingMismatch) in
  let expired := haf_valid_until_unix_ms (as_facts state) <=? now in
  if negb (pb_authority_revision (ev_binding event) =? revision)
  then (h, Err HostError.EventBindingMismatch) else
  if expired && negb (is_disconnect (ev_payload event) AuthorityExpired)
  then (h, Err HostError.AuthorityExpired) else
  let! h, _ := follow_event_binding h event revision current in
  let! h, _ := (h, check_event_payload event) in
  let key := from_binding (ev_binding event) in
  let! h, expected := (h, match wh_event_cursors h !! key with
                          | Some sequence => ok_or (u64_add sequence 1) HostError.SequenceExhausted
                          | None => Ok 1
                          end) in
  if negb (ev_event_sequence event =? expected) then (h, Err HostError.EventReplay) else
  let! h, _ := match ev_payload event with
               | ProviderEventPayload.PermissionsChanged _ _ =>
                   let! h, _ := invalidate_permission_scope h handle in
                   bind_authority h handle revision HostError.EventBindingMismatch
                     (ev_binding event) None
               | _ => (h, Ok tt)
               end in
  let h := set_event_cursors h (<[key := ev_event_sequence event]> (wh_event_cursors h)) in
  let h :=
    match ev_payload event with
    | ProviderEventPayload.Disconnect
        (DisconnectAuthorityRevoked | AuthorityExpired | NavigationChanged | PolicyChanged) =>
        mark_authority_stale h handle
    | ProviderEventPayload.Disconnect WalletSessionChanged | ProviderEventPayload.WalletLocked =>
        invalidate_all_provider_state h
    | ProviderEventPayload.ModulesChanged _ => invalidate_all_capability_snapshots h
    | _ => h
    end in
  (h, Ok tt).

(** *** Frames from the service *)

Definition validate_service_header h (protocol_version : N) (host_session_id service_session_id : bytes)
    (restart_generation channel_sequence : N) : fallible N :=
  match wh_channel h with
  | ChannelState.Failed => Err HostError.ChannelFailed
  | ChannelState.AwaitingHello => Err HostError.HandshakeRequired
  | ChannelState.Ready session =>
      if negb (protocol_version =? WALLET_ABI_VERSION)
         || negb (bool_decide (host_session_id = wh_host_session_id h))
         || negb (bool_decide (service_session_id = ss_service_session_id session))
         || negb (restart_generation =? wh_restart_generation h)
      then Err HostError.SessionMismatch else
      if negb (channel_sequence =? next_service_sequence session)
      then Err (HostError.SequenceMismatch (next_service_sequence session) channel_sequence) else
      ok_or (u64_add channel_sequence 1) HostError.SequenceExhausted
  end.

Definition set_next_service_sequence h (next : N) : host * fallible unit :=
  match wh_channel h with
  | ChannelState.Ready session =>
      (set_channel h (ChannelState.Ready
         (mkSession (ss_service_session_id session) (ss_capabilities session)
            (next_host_sequence session) next)), Ok tt)
  | _ => (h, Err HostError.HandshakeRequired)
  end.

Definition accept_hello h (hello : ServiceHello) : host * fallible (HostOutput.t Value) :=
  let has c := bool_decide (c ∈ sh_capabilities hello) in
  match wh_channel h with
  | ChannelState.AwaitingHello =>
      if negb (sh_protocol_version hello =? WALLET_ABI_VERSION)
         || negb (bool_decide (sh_platform hello = wh_platform h))
         || negb (bool_decide (sh_host_session_id hello = wh_host_session_id h))
         || negb (sh_restart_generation hello =? wh_restart_generation h)
         || negb (bool_decide (sh_limits hello = limits_default))
         || (MAX_PUBLIC_ITEMS <? set_len (sh_capabilities hello))
         || negb (has ServiceCapability.CanonicalFraming)
         || negb (has ServiceCapability.RestartIsolation)
         || negb (has ServiceCapability.OpaqueAuthorityRegistry)
         || (has ServiceCapability.ValueMovement && negb (has ServiceCapability.ProviderDispatch))
         || (has ServiceCapability.HnsReadOperationsV1
             && negb (has ServiceCapability.WalletOperations))
         || (has ServiceCapability.HnsWalletAuthorityContextV1
             && (negb (has ServiceCapability.WalletOperations)
                 || negb (has ServiceCapability.HnsReadOperationsV1)))
      then (h, Err HostError.HelloMismatch) else
      let negotiated := mkNegotiated (sh_protocol_version hello) (sh_platform hello)
        (sh_host_session_id hello) (sh_service_session_id hello) (sh_restart_generation hello)
        (sh_capabilities hello) (sh_limits hello) in
      (set_channel h (ChannelState.Ready
         (mkSession (sh_service_session_id hello) (sh_capabilities hello) 1 1)),
       Ok (HostOutput.Negotiated negotiated))
  | _ => (h, Err HostError.UnexpectedHello)
  end.

Definition accept_response h (envelope : SessionEnvelope (ServiceResponse Value)) :
    host * fallible (HostOutput.t Value) :=
  let! h, next_sequence := (h, validate_service_header h (protocol_version envelope)
    (host_session_id envelope) (service_session_id envelope) (restart_generation envelope)
    (channel_sequence envelope)) in
  let! h, class := (h, ok_or (wh_pending h !! request_id envelope)
                         HostError.PendingRequestMismatch) in
  let! h, _ := validate_response_authority_time h class in
  let! h, _ := apply_response h class (body envelope) in
  let! h, _ := (h, ok_or (wh_pending h !! request_id envelope) HostError.PendingRequestMismatch) in
  let h := forget_request h (request_id envelope) in
  let! h, _ := set_next_service_sequence h next_sequence in
  (h, Ok (HostOutput.Response (mkAcceptedResponse (request_id envelope) (body envelope)))).

Definition accept_event h (event : ProviderEventEnvelope) : host * fallible (HostOutput.t Value) :=
  let! h, _ := (h, require_capability h ServiceCapability.TypedEvents) in
  let! h, next_sequence := (h, validate_service_header h (ev_protocol_version event)
    (ev_host_session_id event) (ev_service_session_id event) (ev_restart_generation event)
    (ev_channel_sequence event)) in
  let! h, now := now h in
  let! h, _ := validate_and_apply_event h event now in
  let! h, _ := set_next_service_sequence h next_sequence in
  (h, Ok (HostOutput.Event (mkAcceptedEvent (ev_binding event) (ev_event_sequence event)
            (ev_payload event)))).

Definition accept_service_frame_inner h (frame : ServiceFrame Value) :
    host * fallible (HostOutput.t Value) :=
  match frame with
  | ServiceHelloFrame hello => accept_hello h hello
  | Response envelope => accept_response h envelope
  | Event event => accept_event h event
  end.

Definition accept_service_frame h (frame : ServiceFrame Value) :
    host * fallible (HostOutput.t Value) :=
  let '(h, result) := accept_service_frame_inner h frame in
  (if is_ok result then h else poison_channel h, result).
End Host.

(** ** Runs

    The calls an embedder can make, in any order, and what each gives back. *)

Inductive Call (Value : Type) :=
| Restart (restart_generation : N)
| Reset (restart_generation : N)
| DiscardAuthority (handle : bytes)
| ReadApproval (id : bytes)
| Register (facts : HostAuthorityFacts)
| RegisterDetached (handle : bytes)
| Replace (handle : bytes) (replacement : HostAuthorityFacts)
| Revoke (handle : bytes)
| AskCapabilities (handle : bytes)
| AskProvider (handle : bytes) (method : string) (params : Value)
| Decide (id : bytes) (decision : ApprovalDecision.t)
| AskWallet (request : WalletRequest.t)
| AskHnsRead (request : WalletRequest.t)
| AskContext (request : WalletAuthorityContextRequest)
| Deliver (frame : ServiceFrame Value).
Arguments Restart {Value}.
Arguments Reset {Value}.
Arguments DiscardAuthority {Value}.
Arguments ReadApproval {Value}.
Arguments Register {Value}.
Arguments RegisterDetached {Value}.
Arguments Replace {Value}.
Arguments Revoke {Value}.
Arguments AskCapabilities {Value}.
Arguments AskProvider {Value}.
Arguments Decide {Value}.
Arguments AskWallet {Value}.
Arguments AskHnsRead {Value}.
Arguments AskContext {Value}.
Arguments Deliver {Value}.

Inductive Outcome (Value : Type) :=
| Sent (frame : HostFrame Value)
| Received (output : HostOutput.t Value)
| Returned
| Refused (e : HostError.t).
Arguments Sent {Value}.
Arguments Received {Value}.
Arguments Returned {Value}.
Arguments Refused {Value}.

Section Run.
Context {C E Value : Type}.
Context `{Clock C, Entropy E, NameEnv, JsonCodec ApprovalPrompt, JsonCodec (ProviderBody Value)}.

Definition outcome {A} (f : A -> Outcome Value) (p : WalletHost C E * result A HostError.t) :
    WalletHost C E * Outcome Value :=
  (p.1, match p.2 with Ok a => f a | Err e => Refused e end).

Definition step (h : WalletHost C E) (call : Call Value) : WalletHost C E * Outcome Value :=
  match call with
  | Restart generation => outcome Sent (restart h generation)
  | Reset generation => outcome Sent (reset h generation)
  | DiscardAuthority handle => outcome (fun _ => Returned) (discard_authority h handle)
  | ReadApproval id => outcome (fun _ => Returned) (approval h id)
  | Register facts => outcome (fun p => Sent p.2) (register_authority h facts)
  | RegisterDetached handle => outcome Sent (register_detached_authority h handle)
  | Replace handle facts => outcome Sent (replace_authority h handle facts)
  | Revoke handle => outcome Sent (revoke_authority h handle)
  | AskCapabilities handle => outcome Sent (request_provider_capabilities h handle)
  | AskProvider handle method params => outcome Sent (provider_request h handle method params)
  | Decide id decision => outcome Sent (decide_approval h id decision)
  | AskWallet request => outcome Sent (wallet_request h request)
  | AskHnsRead request => outcome Sent (hns_read_request h request)
  | AskContext request => outcome Sent (hns_wallet_authority_context_request h request)
  | Deliver frame => outcome Received (accept_service_frame h frame)
  end.

Fixpoint run (h : WalletHost C E) (calls : list (Call Value)) :
    WalletHost C E * list (Outcome Value) :=
  match calls with
  | [] => (h, [])
  | call :: calls =>
      let '(h, o) := step h call in
      let '(h, os) := run h calls in
      (h, o :: os)
  end.
End Run.
