(* ===== verification/HostProofs.v ===== *)
(** * The host's invariant

    What holds of a host between two calls: bounds of every table, identifiers
    that are not reused while they matter, bindings, snapshots, approvals and
    event cursors that belong to a live authority, and a channel without
    negotiated session that keeps nothing of the service. Every method of [Host]
    preserves it. *)

From S2P Require Import Prelude Types Abi Host.

(** ** The invariant *)

(** Identifiers of recent requests: the last ones issued, and older ones that
    are still pending. *)
Record ids_ok (order : list bytes) (recent aged held : gset bytes) : Prop := {
  ids_nodup : NoDup order;
  ids_bound : len order <= MAX_RECENT_REQUEST_IDS;
  ids_recent : forall x, x ∈ recent <-> x ∈ order \/ x ∈ aged;
  ids_aged : forall x, x ∈ aged -> x ∈ held;
  ids_held : forall x, x ∈ held -> x ∈ recent;
  ids_disjoint : forall x, x ∈ aged -> x ∉ order;
}.

Record nonces_ok (order : list (bytes * N)) (recent : gset (bytes * N)) : Prop := {
  nonces_nodup : NoDup order;
  nonces_bound : len order <= MAX_RECENT_PROVIDER_NONCES;
  nonces_recent : recent = list_to_set order;
}.

(** The negotiated capabilities, when there are any. *)
Definition negotiated (channel : ChannelState.t) : option (gset ServiceCapability.t) :=
  match channel with ChannelState.Ready session => Some (ss_capabilities session) | _ => None end.

(** A method the host may call under these capabilities. *)
Record method_admitted (caps : gset ServiceCapability.t) (method : string) : Prop := {
  admitted_name : method_known method = Ok tt;
  admitted_dispatch : ServiceCapability.ProviderDispatch ∈ caps;
  admitted_approval : approval_required_method method = true ->
    ServiceCapability.StructuredApprovals ∈ caps;
  admitted_value : value_movement_method method = true -> ServiceCapability.ValueMovement ∈ caps;
  admitted_lock : method = "wallet_lock"%string -> ServiceCapability.WalletOperations ∈ caps;
}.

Definition phase_ok (phase : AuthorityPhase.t) : Prop :=
  match phase with
  | AuthorityPhase.Active revision => revision <> 0
  | AuthorityPhase.Replacing revision replacement =>
      revision <> 0 /\ validate_authority replacement = Ok tt
  | _ => True
  end.

(** Only an active authority has a binding, at its own handle and revision, and
    only a bound one has a snapshot, of methods the session admits. *)
Record authority_ok (caps : option (gset ServiceCapability.t)) (handle : bytes)
    (state : AuthorityState) : Prop := {
  ao_facts : validate_authority (as_facts state) = Ok tt;
  ao_phase : phase_ok (as_phase state);
  ao_idle : caps = None -> as_phase state = AuthorityPhase.Detached;
  ao_binding : forall b, as_binding state = Some b ->
    as_phase state = AuthorityPhase.Active (pb_authority_revision b)
    /\ pb_authority_handle b = handle;
  ao_snapshot : forall c, as_capabilities state = Some c ->
    exists b granted, as_binding state = Some b /\ caps = Some granted
      /\ pcs_wallet_session_id c = pb_wallet_session_id b
      /\ pcs_permission_generation c = pb_permission_generation b
      /\ forall method, method ∈ methods c -> method_admitted granted method;
}.

(** The authority at the binding's handle has exactly this binding. *)
Definition bound (auths : gmap bytes AuthorityState) (b : ProviderBinding) (st : AuthorityState) : Prop :=
  auths !! pb_authority_handle b = Some st /\ as_binding st = Some b.

Record approval_ok (auths : gmap bytes AuthorityState) (issued : gset bytes) (id : bytes)
    (a : HostApproval) : Prop := {
  ap_key : approval_id (prompt a) = id;
  ap_issued : id ∈ issued;
  ap_required : approval_required_method (ap_method (prompt a)) = true;
  ap_bound : exists st, bound auths (ap_binding (prompt a)) st
    /\ haf_origin (as_facts st) = ap_origin (prompt a);
}.

(** The class of the request that carries the decision of an approval. *)
Definition decision_class (id : bytes) (p : ApprovalPrompt) (d : ApprovalDecision.t) : RequestClass.t :=
  RequestClass.Approval (pb_authority_handle (ap_binding p)) (pb_authority_revision (ap_binding p))
    id d (ap_method p).

Definition deciding_ok (pending : gmap bytes RequestClass.t) (id : bytes) (a : HostApproval) : Prop :=
  forall r, ha_phase a = Deciding r -> exists d, pending !! r = Some (decision_class id (prompt a) d).

Definition cursor_ok (auths : gmap bytes AuthorityState) (key : EventCursorKey) (sequence : N) : Prop :=
  exists b st, bound auths b st /\ from_binding b = key.

Definition class_ok (issued : gset bytes) (_ : bytes) (class : RequestClass.t) : Prop :=
  forall handle revision id d method,
    class = RequestClass.Approval handle revision id d method -> id ∈ issued.

(** What the service said: authorities, approvals and cursors. *)
Record derived_ok (caps : option (gset ServiceCapability.t)) (auths : gmap bytes AuthorityState)
    (approvals : gmap bytes HostApproval) (cursors : gmap EventCursorKey N) (issued : gset bytes) :
    Prop := {
  do_authorities : map_Forall (authority_ok caps) auths;
  do_approvals : map_Forall (approval_ok auths issued) approvals;
  do_cursors : map_Forall (cursor_ok auths) cursors;
}.

Definition channel_ok (channel : ChannelState.t) (pending : gmap bytes RequestClass.t) : Prop :=
  match channel with
  | ChannelState.Ready session =>
      1 <= next_host_sequence session <= U64_MAX /\ 1 <= next_service_sequence session <= U64_MAX
  | _ => pending = ∅
  end.

Section Invariant.
Context {C E : Type}.
Implicit Types h : WalletHost C E.

(** Everything but the link from a decided approval to its request. *)
Record core_ok h : Prop := {
  co_generation : wh_restart_generation h <> 0;
  co_channel : channel_ok (wh_channel h) (wh_pending h);
  co_ids : ids_ok (wh_request_id_order h) (wh_recent_request_ids h) (wh_aged_out_request_ids h)
             (dom (wh_pending h));
  co_nonces : nonces_ok (wh_nonce_order h) (wh_recent_nonces h);
  co_derived : derived_ok (negotiated (wh_channel h)) (wh_authorities h) (wh_approvals h)
                 (wh_event_cursors h) (wh_issued_approval_ids h);
  co_pending : map_Forall (class_ok (wh_issued_approval_ids h)) (wh_pending h);
  co_handles : dom (wh_authorities h) ⊆ wh_issued_authority_ids h;
  co_pending_count : count (wh_pending h) <= MAX_PENDING_REQUESTS;
  co_authorities_count : count (wh_authorities h) <= MAX_AUTHORITIES;
  co_approvals_count : count (wh_approvals h) <= MAX_PENDING_APPROVALS;
  co_handles_count : set_len (wh_issued_authority_ids h) <= MAX_ISSUED_AUTHORITY_IDS;
  co_issued_count : set_len (wh_issued_approval_ids h) <= MAX_ISSUED_APPROVAL_IDS;
}.

Definition linked h : Prop := map_Forall (deciding_ok (wh_pending h)) (wh_approvals h).

Definition host_ok h : Prop := core_ok h /\ linked h.
End Invariant.

(** ** Changes of the derived state *)

(** No authority at this handle has a binding. *)
Definition unbound (auths : gmap bytes AuthorityState) (handle : bytes) : Prop :=
  forall st, auths !! handle = Some st -> as_binding st = None.

Section Derived.
Implicit Types (auths : gmap bytes AuthorityState) (approvals : gmap bytes HostApproval).

Lemma bound_insert_ne auths b st handle st' :
  unbound auths handle -> bound auths b st -> bound (<[handle := st']> auths) b st.
Proof.
  intros Hun [Hb Hs]. split; [|done]. rewrite lookup_insert_ne; [done|].
  intros ->. rewrite (Hun _ Hb) in Hs. done.
Qed.

Lemma bound_delete auths b st handle :
  unbound auths handle -> bound auths b st -> bound (delete handle auths) b st.
Proof.
  intros Hun [Hb Hs]. split; [|done]. rewrite lookup_delete_ne; [done|].
  intros ->. rewrite (Hun _ Hb) in Hs. done.
Qed.

(** Approvals and cursors look at the bindings only. *)
Lemma derived_move caps auths auths' approvals cursors issued :
  derived_ok caps auths approvals cursors issued ->
  map_Forall (authority_ok caps) auths' ->
  (forall b st, bound auths b st -> exists st', bound auths' b st'
     /\ haf_origin (as_facts st') = haf_origin (as_facts st)) ->
  derived_ok caps auths' approvals cursors issued.
Proof.
  intros [_ Hp Hc] Ha Hb. split; [done| |].
  - intros id a Hid. destruct (Hp id a Hid) as [??? (st & Hbd & Ho)]. split; try done.
    destruct (Hb _ _ Hbd) as (st' & ? & ?). exists st'. split; [done|congruence].
  - intros k n Hk. destruct (Hc k n Hk) as (b & st & Hbd & Hkey).
    destruct (Hb _ _ Hbd) as (st' & ? & _). by exists b, st'.
Qed.

Lemma derived_insert caps auths approvals cursors issued handle st :
  unbound auths handle -> authority_ok caps handle st ->
  derived_ok caps auths approvals cursors issued ->
  derived_ok caps (<[handle := st]> auths) approvals cursors issued.
Proof.
  intros Hun Hst Hd. apply (derived_move _ auths); [done| |].
  - apply map_Forall_insert_2; [done|apply Hd].
  - intros b st0 Hb. exists st0. split; [by apply bound_insert_ne|done].
Qed.

Lemma derived_delete caps auths approvals cursors issued handle :
  unbound auths handle -> derived_ok caps auths approvals cursors issued ->
  derived_ok caps (delete handle auths) approvals cursors issued.
Proof.
  intros Hun Hd. apply (derived_move _ auths); [done|apply map_Forall_delete, Hd|].
  intros b st0 Hb. exists st0. split; [by apply bound_delete|done].
Qed.

(** The binding stays. *)
Lemma derived_rebind caps auths approvals cursors issued handle st st' :
  auths !! handle = Some st -> as_binding st' = as_binding st -> as_facts st' = as_facts st ->
  authority_ok caps handle st' ->
  derived_ok caps auths approvals cursors issued ->
  derived_ok caps (<[handle := st']> auths) approvals cursors issued.
Proof.
  intros Hst Hb Hf Hok Hd. apply (derived_move _ auths); [done| |].
  - apply map_Forall_insert_2; [done|apply Hd].
  - intros b st0 [Hl Hs]. destruct (decide (pb_authority_handle b = handle)) as [<-|Hne].
    + exists st'. simplify_eq. split; [|by rewrite Hf]. split; [by rewrite lookup_insert_eq|congruence].
    + exists st0. split; [|done]. split; [by rewrite lookup_insert_ne|done].
Qed.

Lemma derived_shrink caps auths approvals approvals' cursors cursors' issued :
  approvals' ⊆ approvals -> cursors' ⊆ cursors ->
  derived_ok caps auths approvals cursors issued ->
  derived_ok caps auths approvals' cursors' issued.
Proof.
  intros Ha Hc [H1 H2 H3]. split; [done| |].
  - intros id a Hid. apply H2. by eapply lookup_weaken.
  - intros k n Hk. eapply H3. by eapply lookup_weaken.
Qed.

(** Without bindings there is nothing to derive from. *)
Lemma derived_empty caps auths issued :
  map_Forall (authority_ok caps) auths -> derived_ok caps auths ∅ ∅ issued.
Proof. split; [done|apply map_Forall_empty..]. Qed.

Lemma authority_ok_unbind caps handle st :
  authority_ok caps handle st -> authority_ok caps handle (with_binding st None None).
Proof. intros []. by split. Qed.

Lemma authority_ok_drop_snapshot caps handle st :
  authority_ok caps handle st -> authority_ok caps handle (with_binding st (as_binding st) None).
Proof. intros []. by split. Qed.

Lemma authority_ok_unbound caps handle st phase :
  authority_ok caps handle st -> as_binding st = None -> phase_ok phase ->
  caps <> None -> authority_ok caps handle (with_phase st phase).
Proof.
  intros [Hf Hp Hi Hb Hs] Hn Hph Hc. split; simpl; [done|done|done| |].
  - intros b. rewrite Hn. done.
  - intros c Hcap. destruct (Hs c Hcap) as (b & _ & Hbind & _). congruence.
Qed.

Lemma phase_ok_stale st caps handle :
  authority_ok caps handle st -> forall st',
  st' = match as_phase st with
        | AuthorityPhase.Active revision | AuthorityPhase.Replacing revision _
        | AuthorityPhase.Revoking revision | AuthorityPhase.Stale revision =>
            with_phase (with_binding st None None) (AuthorityPhase.Stale revision)
        | AuthorityPhase.Detached | AuthorityPhase.Registering => with_binding st None None
        end ->
  authority_ok caps handle st'.
Proof.
  intros Hok st' ->. destruct Hok as [Hf Hp Hi Hb Hs].
  destruct (as_phase st) eqn:Hph; split; simpl; try done; rewrite ?Hph; try done;
    intros Hc; by specialize (Hi Hc).
Qed.

Lemma unbound_alter auths handle : unbound (alter (fun st => with_binding st None None) handle auths) handle.
Proof. intros st. rewrite lookup_alter_eq. by intros (st0 & _ & ->)%fmap_Some. Qed.

Lemma map_Forall_alter {A} (P : bytes -> A -> Prop) (f : A -> A) (m : gmap bytes A) k :
  (forall x, m !! k = Some x -> P k x -> P k (f x)) -> map_Forall P m -> map_Forall P (alter f k m).
Proof.
  intros Hf Hm i x. destruct (decide (i = k)) as [->|Hne].
  - rewrite lookup_alter_eq. intros (y & Hy & ->)%fmap_Some. eauto.
  - rewrite lookup_alter_ne by done. apply Hm.
Qed.
End Derived.

(** ** Changes of the identifier windows *)

(** Membership facts at one identifier, decided by propositional reasoning. *)
Ltac at_id x :=
  repeat match goal with
  | H : forall y : bytes, _ |- _ => specialize (H x)
  end;
  rewrite ?elem_of_difference, ?elem_of_union, ?elem_of_singleton, ?elem_of_app,
    ?list_elem_of_singleton in *; try tauto.

Lemma ids_forget order recent aged held id :
  ids_ok order recent aged held ->
  ids_ok order (if bool_decide (id ∈ aged) then recent ∖ {[id]} else recent)
    (if bool_decide (id ∈ aged) then aged ∖ {[id]} else aged) (held ∖ {[id]}).
Proof.
  intros [Hn Hb Hr Ha Hh Hd]. pose proof (Hd id) as Hid.
  case_bool_decide; split; try done; intros x; (destruct (decide (x = id)); [subst x; at_id id|at_id x]).
Qed.

Lemma ids_clear order recent aged held :
  ids_ok order recent aged held -> ids_ok order (recent ∖ aged) ∅ ∅.
Proof.
  intros [Hn Hb Hr Ha Hh Hd]. split; try done; intros x; rewrite ?elem_of_empty; at_id x.
Qed.

Lemma ids_empty : ids_ok [] ∅ ∅ ∅.
Proof. split; try done; [constructor|]. intros x. by rewrite elem_of_nil, elem_of_empty; split; [|intros []]. Qed.

(** A fresh identifier joins; the oldest leaves a full window, unless it is
    still pending. *)
Lemma ids_remember order recent aged held id :
  id ∉ recent -> ids_ok order recent aged held ->
  len (order ++ [id]) <= MAX_RECENT_REQUEST_IDS ->
  ids_ok (order ++ [id]) ({[id]} ∪ recent) aged ({[id]} ∪ held).
Proof.
  intros Hf [Hn Hb Hr Ha Hh Hd] Hl. pose proof (Hr id) as Hid. split; [|done|..].
  - apply NoDup_snoc; tauto.
  - intros x. at_id x.
  - intros x. at_id x.
  - intros x. at_id x.
  - intros x. destruct (decide (x = id)); [subst x; at_id id|at_id x].
Qed.

Lemma ids_rotate order recent aged held id old order' :
  id ∉ recent -> ids_ok order recent aged held -> order ++ [id] = old :: order' ->
  ids_ok order' (if bool_decide (old ∈ {[id]} ∪ held) then {[id]} ∪ recent
                 else ({[id]} ∪ recent) ∖ {[old]})
    (if bool_decide (old ∈ {[id]} ∪ held) then {[old]} ∪ aged else aged) ({[id]} ∪ held).
Proof.
  intros Hf [Hn Hb Hr Ha Hh Hd] Heq. pose proof (Hr id) as Hid. pose proof (Hd id) as Hid'.
  assert (NoDup (old :: order')) as [Hnew Hn']%list.NoDup_cons.
  { rewrite <- Heq. apply NoDup_snoc; tauto. }
  assert (forall x, x ∈ order \/ x = id <-> x = old \/ x ∈ order') as Hset.
  { intros x. rewrite <- elem_of_cons, <- Heq, elem_of_app, list_elem_of_singleton. done. }
  assert (len order' <= MAX_RECENT_REQUEST_IDS) as Hb'.
  { assert (length (order ++ [id]) = length (old :: order')) as Hlen by (by rewrite Heq).
    rewrite length_app in Hlen. unfold len in *. simpl in Hlen. lia. }
  assert (forall x, x ∈ order' -> x <> old) as Hne by (intros x Hx ->; done).
  assert (forall x, x ∈ recent -> x <> id) as Hfr by (intros x Hx ->; done).
  clear Heq Hid Hid' Hf Hn Hnew. case_bool_decide as Hold.
  - assert (forall x, x = old -> x ∈ {[id]} ∪ held) as Ho by (intros x ->; done).
    split; try done; intros x; at_id x.
  - assert (forall x, x ∈ {[id]} ∪ held -> x <> old) as Ho by (intros x Hx ->; done).
    split; try done; intros x; at_id x.
Qed.

(** ** Methods that only drop derived state *)

Section Methods.
Context {C E Value : Type}.
Context `{Clock C, Entropy E, NameEnv, JsonCodec ApprovalPrompt, JsonCodec (ProviderBody Value)}.
Implicit Types h : WalletHost C E.

(** The fields that no invalidation of derived state touches. *)
Record same_session h h' : Prop := {
  s_generation : wh_restart_generation h' = wh_restart_generation h;
  s_host_session : wh_host_session_id h' = wh_host_session_id h;
  s_channel : wh_channel h' = wh_channel h;
  s_pending : wh_pending h' = wh_pending h;
  s_order : wh_request_id_order h' = wh_request_id_order h;
  s_recent : wh_recent_request_ids h' = wh_recent_request_ids h;
  s_aged : wh_aged_out_request_ids h' = wh_aged_out_request_ids h;
  s_nonce_order : wh_nonce_order h' = wh_nonce_order h;
  s_nonces : wh_recent_nonces h' = wh_recent_nonces h;
  s_handles : wh_issued_authority_ids h' = wh_issued_authority_ids h;
  s_issued : wh_issued_approval_ids h' = wh_issued_approval_ids h;
}.

Lemma same_session_refl h : same_session h h.
Proof. by split. Qed.

Lemma same_session_trans h1 h2 h3 : same_session h1 h2 -> same_session h2 h3 -> same_session h1 h3.
Proof. intros [] []. split; congruence. Qed.

Definition derived_of h : Prop :=
  derived_ok (negotiated (wh_channel h)) (wh_authorities h) (wh_approvals h)
    (wh_event_cursors h) (wh_issued_approval_ids h).

Lemma count_dom {K V W} `{Countable K} (m : gmap K V) (m' : gmap K W) :
  dom m' ⊆ dom m -> count m' <= count m.
Proof.
  intros Hs. unfold count. rewrite <- !size_dom. apply subseteq_size in Hs. lia.
Qed.

Lemma core_derived h h' :
  same_session h h' -> core_ok h -> derived_of h' ->
  dom (wh_authorities h') ⊆ dom (wh_authorities h) ->
  wh_approvals h' ⊆ wh_approvals h -> core_ok h'.
Proof.
  intros [] [] Hd Hdom Hap. pose proof (count_dom _ _ Hdom). pose proof (count_subseteq _ _ Hap).
  destruct h, h'; simpl in *; subst. split; simpl; try done; by etrans.
Qed.

Lemma linked_shrink h h' :
  wh_pending h' = wh_pending h -> wh_approvals h' ⊆ wh_approvals h -> linked h -> linked h'.
Proof.
  intros Hp Ha Hl id a Hid. rewrite Hp. apply (Hl id a). by eapply lookup_weaken.
Qed.

Lemma host_derived h h' :
  same_session h h' -> derived_of h' -> dom (wh_authorities h') ⊆ dom (wh_authorities h) ->
  wh_approvals h' ⊆ wh_approvals h -> host_ok h -> host_ok h'.
Proof.
  intros Hs ??? [Hc Hl]. split; [by eapply core_derived|].
  eapply linked_shrink; [apply Hs|done|done].
Qed.

Definition invalidated h h' : Prop :=
  same_session h h' /\ (derived_of h -> derived_of h')
  /\ dom (wh_authorities h') ⊆ dom (wh_authorities h) /\ wh_approvals h' ⊆ wh_approvals h.

Lemma invalidated_ok h h' : invalidated h h' -> host_ok h -> host_ok h'.
Proof. intros (? & Hd & ? & ?) Hok. eapply host_derived; eauto. by apply Hd, Hok. Qed.

Lemma invalidated_core h h' : invalidated h h' -> core_ok h -> core_ok h'.
Proof. intros (? & Hd & ? & ?) Hok. eapply core_derived; eauto. by apply Hd, Hok. Qed.

Lemma invalidated_refl h : invalidated h h.
Proof. split_and!; [apply same_session_refl|done..]. Qed.

Lemma invalidated_trans h1 h2 h3 : invalidated h1 h2 -> invalidated h2 h3 -> invalidated h1 h3.
Proof.
  intros (? & ? & ? & ?) (? & ? & ? & ?). split_and!; [by eapply same_session_trans|auto|by etrans..].
Qed.

Lemma invalidate_authority_derived_spec h handle :
  invalidated h (invalidate_authority_derived h handle)
  /\ unbound (wh_authorities (invalidate_authority_derived h handle)) handle.
Proof.
  split; [|apply unbound_alter]. split_and!; [by split| |by cbn; rewrite dom_alter|apply retain_subseteq].
  intros [Ha Hp Hc]. split; cbn.
  - apply map_Forall_alter; [|done]. intros st _. apply authority_ok_unbind.
  - intros id a [Hid Hne]%lookup_retain_Some. bool_prop.
    destruct (Hp id a Hid) as [??? (st & [Hl Hs] & Ho)]. split; try done.
    exists st. split; [|done]. split; [by rewrite lookup_alter_ne|done].
  - intros k n [Hk Hne]%lookup_retain_Some. bool_prop.
    destruct (Hc k n Hk) as (b & st & [Hl Hs] & <-). exists b, st. split; [|done].
    split; [by rewrite lookup_alter_ne|done].
Qed.

Lemma unbound_alter_other auths handle handle' :
  unbound auths handle -> unbound (alter (fun st => with_binding st None None) handle' auths) handle.
Proof.
  intros Hun st. destruct (decide (handle = handle')) as [<-|Hne].
  - apply unbound_alter.
  - rewrite lookup_alter_ne by done. apply Hun.
Qed.

Lemma invalidate_list_spec h handles handle :
  invalidated h (foldl invalidate_authority_derived h handles)
  /\ (handle ∈ handles \/ unbound (wh_authorities h) handle ->
      unbound (wh_authorities (foldl invalidate_authority_derived h handles)) handle).
Proof.
  revert h. induction handles as [|k handles IH]; intros h; cbn [foldl].
  - split; [apply invalidated_refl|]. intros [[]%elem_of_nil|?]; done.
  - destruct (invalidate_authority_derived_spec h k) as [Hi Hu].
    destruct (IH (invalidate_authority_derived h k)) as [Hi' Hu'].
    split; [by eapply invalidated_trans|]. intros Hin. apply Hu'.
    destruct Hin as [[->|?]%elem_of_cons|Hun]; [by right|by left|right].
    by apply unbound_alter_other.
Qed.

Lemma drop_cursors h : invalidated h (set_event_cursors h ∅).
Proof.
  split_and!; [by split| |done..]. apply derived_shrink; [done|apply map_empty_subseteq].
Qed.

Lemma invalidate_permission_scope_spec h handle :
  leaves (eq h) (fun h' _ => invalidated h h' /\ unbound (wh_authorities h') handle)
    (invalidate_permission_scope h handle).
Proof.
  unfold invalidate_permission_scope. apply leaves_test; [done|].
  intros state Hst%ok_or_Ok. set (handles := scope_handles _ _ _).
  destruct (invalidate_list_spec h handles handle) as [Hi Hu].
  split; [eapply invalidated_trans; [done|apply drop_cursors]|].
  apply Hu. left. apply list_elem_of_fmap. exists (handle, state). split; [done|].
  apply elem_of_map_to_list, lookup_retain_Some. split; [done|].
  apply andb_true_intro. split; by apply bool_decide_eq_true_2.
Qed.

Lemma map_Forall_fmap_2 {A} (P : bytes -> A -> Prop) (f : A -> A) (m : gmap bytes A) :
  (forall k x, P k x -> P k (f x)) -> map_Forall P m -> map_Forall P (f <$> m).
Proof. intros Hf Hm k x. rewrite lookup_fmap. intros (y & Hy & ->)%fmap_Some. eauto. Qed.

Lemma invalidate_all_capability_snapshots_spec h :
  invalidated h (invalidate_all_capability_snapshots h).
Proof.
  split_and!; [by split| |by cbn; rewrite dom_fmap|done].
  intros Hd. eapply derived_move; [exact Hd| |].
  - apply map_Forall_fmap_2; [|apply Hd]. apply authority_ok_drop_snapshot.
  - intros b st [Hl Hb]. exists (with_binding st (as_binding st) None). split; [|done].
    split; [by cbn; rewrite lookup_fmap, Hl|done].
Qed.

Lemma invalidate_all_provider_state_spec h :
  invalidated h (invalidate_all_provider_state h)
  /\ forall handle, unbound (wh_authorities (invalidate_all_provider_state h)) handle.
Proof.
  split; [split_and!; [by split| |by cbn; rewrite dom_fmap|apply map_empty_subseteq]|].
  - intros Hd. apply derived_empty, map_Forall_fmap_2; [|apply Hd]. apply authority_ok_unbind.
  - intros handle st. cbn. rewrite lookup_fmap. by intros (y & _ & ->)%fmap_Some.
Qed.

(** Changing the authority at an unbound handle. *)
Lemma replace_unbound h handle st :
  unbound (wh_authorities h) handle -> handle ∈ dom (wh_authorities h) ->
  authority_ok (negotiated (wh_channel h)) handle st ->
  invalidated h (set_authorities h (<[handle := st]> (wh_authorities h))).
Proof.
  intros Hun Hin Hst. split_and!; [by split| |cbn; by rewrite dom_insert_lookup_L by (by apply elem_of_dom)|done].
  by apply derived_insert.
Qed.

Lemma delete_unbound h handle :
  unbound (wh_authorities h) handle ->
  invalidated h (set_authorities h (delete handle (wh_authorities h))).
Proof.
  intros Hun. split_and!; [by split| | |done].
  2: { cbn. rewrite dom_delete. by intros x [? _]%elem_of_difference. }
  by apply derived_delete.
Qed.

Lemma mark_authority_stale_spec h handle : invalidated h (mark_authority_stale h handle).
Proof.
  unfold mark_authority_stale. destruct (invalidate_authority_derived_spec h handle) as [Hi Hu].
  eapply invalidated_trans; [exact Hi|]. set (h1 := invalidate_authority_derived h handle) in *.
  split_and!; [by split| |by cbn; rewrite dom_alter|done]. intros Hd.
  unfold derived_of, alter_authority; cbn. eapply derived_move; [exact Hd| |].
  - apply map_Forall_alter; [|apply Hd]. intros st Hst Hok. pose proof (Hu st Hst) as Hn.
    eapply phase_ok_stale; [exact Hok|]. destruct st as [f p b c]; cbn in *; subst b.
    assert (c = None) as ->; [|by destruct p].
    destruct c as [c|]; [|done]. by destruct (ao_snapshot _ _ _ Hok c) as (? & ? & ? & _).
  - intros b st [Hl Hb]. exists st. split; [|done]. split; [|done].
    rewrite lookup_alter_ne; [done|]. intros ->. by rewrite (Hu _ Hl) in Hb.
Qed.

(** ** Session, identifiers and time *)

Lemma invalidate_service_state_ok h :
  host_ok h -> forall channel,
  channel = ChannelState.AwaitingHello \/ channel = ChannelState.Failed ->
  host_ok (set_channel (invalidate_service_state h) channel).
Proof.
  intros [[] _] channel Hch.
  assert (negotiated channel = None) as Hneg by (by destruct Hch as [->| ->]).
  assert (map_Forall (authority_ok None) (omap detach (wh_authorities h))) as Hauth.
  { intros k st. rewrite lookup_omap. intros (st0 & Hk & Hd)%bind_Some.
    destruct (do_authorities _ _ _ _ _ co_derived0 k st0 Hk) as [Hf Hp _ _ _].
    unfold detach in Hd. destruct (as_phase st0); simplify_eq; split; simpl; try done. apply Hp. }
  assert (dom (omap detach (wh_authorities h)) ⊆ dom (wh_authorities h)) as Hdom by apply dom_omap_subseteq.
  pose proof (count_dom _ _ Hdom).
  split; [split; cbn; try done; rewrite ?Hneg|apply map_Forall_empty].
  - by destruct Hch as [->| ->].
  - rewrite dom_empty_L. by eapply ids_clear.
  - by apply derived_empty.
  - by etrans.
  - lia.
Qed.

Lemma poison_ok h : host_ok h -> host_ok (poison_channel h).
Proof. intros Hok. apply invalidate_service_state_ok; auto. Qed.

(** Fields the invariant does not look at. *)
Lemma host_ok_clock h c : host_ok h -> host_ok (set_clock h c).
Proof. by intros [[] ?]; split; [split|]. Qed.
Lemma host_ok_entropy h e : host_ok h -> host_ok (set_entropy h e).
Proof. by intros [[] ?]; split; [split|]. Qed.
Lemma host_ok_now h t : host_ok h -> host_ok (set_last_now_unix_ms h t).
Proof. by intros [[] ?]; split; [split|]. Qed.

(** A call that gave nothing: at most, it forgot something. *)
Record quiet h h' : Prop := {
  q_channel : wh_channel h' = wh_channel h;
  q_session : wh_host_session_id h' = wh_host_session_id h;
  q_generation : wh_restart_generation h' = wh_restart_generation h;
  q_issued : wh_issued_approval_ids h' = wh_issued_approval_ids h;
  q_handles : wh_issued_authority_ids h' = wh_issued_authority_ids h;
  q_pending : wh_pending h' ⊆ wh_pending h;
  q_approvals : wh_approvals h' ⊆ wh_approvals h;
}.

Lemma quiet_refl h : quiet h h.
Proof. by split. Qed.

Lemma quiet_trans h1 h2 h3 : quiet h1 h2 -> quiet h2 h3 -> quiet h1 h3.
Proof. intros [] []. split; first [congruence|by etrans]. Qed.

Lemma invalidated_quiet h h' : invalidated h h' -> quiet h h'.
Proof. intros ([] & _ & _ & ?). split; try done. by rewrite s_pending0. Qed.

(** What a refused call leaves: a sound host, the same session or none. *)
Definition refused h h' : Prop :=
  host_ok h' /\ (quiet h h' \/ wh_channel h' = ChannelState.Failed
                  /\ wh_issued_approval_ids h' = wh_issued_approval_ids h).

Lemma refused_refl h : host_ok h -> refused h h.
Proof. intros. split; [done|left; apply quiet_refl]. Qed.

Lemma refused_quiet h1 h2 h3 : quiet h1 h2 -> refused h2 h3 -> refused h1 h3.
Proof.
  intros Hq [? [?|[? Hi]]]; (split; [done|]); [left; by eapply quiet_trans|right].
  split; [done|]. by rewrite Hi, (q_issued _ _ Hq).
Qed.

(** A successful reading changes the clock and its last value only. *)
Definition only_clock h h' : Prop :=
  exists c t, h' = set_last_now_unix_ms (set_clock h c) (Some t).

Lemma now_spec h :
  host_ok h ->
  leaves (refused h) (fun h' t => host_ok h' /\ only_clock h h' /\ wh_last_now_unix_ms h' = Some t)
    (now h).
Proof.
  intros Hok. unfold now. destruct (now_unix_ms (wh_clock h)) as [c [t|e]]; cbn.
  - destruct (is_some_and _ _).
    + split; [by apply poison_ok, host_ok_clock|by right].
    + split_and!; [by apply host_ok_now, host_ok_clock|by exists c, t|done].
  - split; [by apply host_ok_clock|left; by split].
Qed.

Lemma random_fresh_spec {T} attempts size read (fresh : T -> bool) (e e' : E) v :
  random_fresh attempts size read fresh e = (e', Ok v) ->
  fresh v = true /\ exists bs, read bs = Ok v.
Proof.
  revert e. induction attempts as [|n IH]; intros e Hr; simpl in Hr; [done|].
  destruct (random_nonzero size e) as [e1 [bs|]]; [|done].
  destruct (read bs) as [x|] eqn:Hread; [|done].
  destruct (fresh x) eqn:Hf; [|by apply (IH e1)]. simplify_eq. split; [done|]. by exists bs.
Qed.

Lemma random_request_id_spec h :
  host_ok h ->
  leaves (refused h) (fun h' id => host_ok h' /\ (exists e, h' = set_entropy h e)
    /\ (id ∉ wh_recent_request_ids h) /\ wh_pending h !! id = None) (random_request_id h).
Proof.
  intros Hok. unfold random_request_id. destruct (random_fresh _ _ _ _ _) as [e [id|]] eqn:Hr.
  - apply random_fresh_spec in Hr as [Hf _]. bool_prop.
    split_and!; [by apply host_ok_entropy|by exists e|done..].
  - split; [by apply host_ok_entropy|left; by split].
Qed.

Lemma random_authority_handle_spec h :
  host_ok h ->
  leaves (refused h) (fun h' handle => host_ok h' /\ (exists e, h' = set_entropy h e)
    /\ (handle ∉ wh_issued_authority_ids h)) (random_authority_handle h).
Proof.
  intros Hok. unfold random_authority_handle. destruct (random_fresh _ _ _ _ _) as [e [handle|]] eqn:Hr.
  - apply random_fresh_spec in Hr as [Hf _]. bool_prop.
    split_and!; [by apply host_ok_entropy|by exists e|done..].
  - split; [by apply host_ok_entropy|left; by split].
Qed.

Lemma random_provider_nonce_spec h handle :
  host_ok h ->
  leaves (refused h) (fun h' nonce => host_ok h' /\ (exists e, h' = set_entropy h e)
    /\ nonce <> 0 /\ ((handle, nonce) ∉ wh_recent_nonces h)) (random_provider_nonce h handle).
Proof.
  intros Hok. unfold random_provider_nonce. destruct (random_fresh _ _ _ _ _) as [e [nonce|]] eqn:Hr.
  - apply random_fresh_spec in Hr as [Hf _]. bool_prop.
    split_and!; [by apply host_ok_entropy|by exists e|done..].
  - split; [by apply host_ok_entropy|left; by split].
Qed.

(** The identifier windows of a host replaced. *)
Definition set_ids h order recent aged : WalletHost C E :=
  set_aged_out_request_ids (set_recent_request_ids (set_request_id_order h order) recent) aged.

Lemma remember_request_id_form h id held :
  id ∉ wh_recent_request_ids h ->
  dom (wh_pending h) = {[id]} ∪ held ->
  ids_ok (wh_request_id_order h) (wh_recent_request_ids h) (wh_aged_out_request_ids h) held ->
  exists order recent aged, remember_request_id h id = set_ids h order recent aged
    /\ ids_ok order recent aged (dom (wh_pending h)).
Proof.
  intros Hf Hdom Hids. unfold remember_request_id. cbn -[MAX_RECENT_REQUEST_IDS].
  destruct (N.ltb_spec MAX_RECENT_REQUEST_IDS (len (wh_request_id_order h ++ [id]))) as [Hl|Hl].
  - destruct (wh_request_id_order h ++ [id]) as [|old order'] eqn:Ho; [by destruct (wh_request_id_order h)|].
    pose proof (ids_rotate _ _ _ _ _ _ _ Hf Hids Ho) as Hr. rewrite Hdom.
    assert (is_some (wh_pending h !! old) = bool_decide (old ∈ {[id]} ∪ held)) as ->.
    { case_bool_decide as Hd; rewrite <- Hdom, elem_of_dom in Hd.
      - by destruct Hd as [? ->].
      - destruct (wh_pending h !! old); [|done]. destruct Hd; eauto. }
    exists order', (if bool_decide (old ∈ {[id]} ∪ held) then {[id]} ∪ wh_recent_request_ids h
                    else ({[id]} ∪ wh_recent_request_ids h) ∖ {[old]}),
      (if bool_decide (old ∈ {[id]} ∪ held) then {[old]} ∪ wh_aged_out_request_ids h
       else wh_aged_out_request_ids h).
    split; [by destruct (bool_decide _)|exact Hr].
  - exists (wh_request_id_order h ++ [id]), ({[id]} ∪ wh_recent_request_ids h),
      (wh_aged_out_request_ids h). split; [done|]. rewrite Hdom. by apply ids_remember.
Qed.

(** A request joins the pending ones under a fresh identifier. *)
Lemma enqueue_core h id class session :
  core_ok h -> wh_channel h = ChannelState.Ready session -> id ∉ wh_recent_request_ids h ->
  wh_pending h !! id = None -> count (wh_pending h) < MAX_PENDING_REQUESTS ->
  class_ok (wh_issued_approval_ids h) id class ->
  exists order recent aged,
    remember_request_id (set_pending h (<[id := class]> (wh_pending h))) id
      = set_ids (set_pending h (<[id := class]> (wh_pending h))) order recent aged
    /\ core_ok (set_ids (set_pending h (<[id := class]> (wh_pending h))) order recent aged).
Proof.
  intros [] Hch Hf Hnew Hcount Hclass.
  destruct (remember_request_id_form (set_pending h (<[id := class]> (wh_pending h))) id
              (dom (wh_pending h))) as (o & r & a & Heq & Hids); [done|by cbn; rewrite dom_insert_L|done|].
  exists o, r, a. split; [exact Heq|]. split; cbn; try done.
  - rewrite Hch in *. done.
  - by apply map_Forall_insert_2.
  - pose proof (count_insert_le (wh_pending h) id class). lia.
Qed.

(** The session with its next outgoing sequence number. *)
Definition with_host_sequence (s : SessionState) (next : N) : ChannelState.t :=
  ChannelState.Ready (mkSession (ss_service_session_id s) (ss_capabilities s) next
                        (next_service_sequence s)).

(** A request was sent: what it looks like and what changed. *)
Record sent_request h (body : ServiceRequest Value) (class : RequestClass.t) h'
    (q : QueuedRequest Value) : Prop := {
  sr_session : exists s, wh_channel h = ChannelState.Ready s
    /\ wh_channel h' = with_host_sequence s (next_host_sequence s + 1)
    /\ next_host_sequence s + 1 <= U64_MAX
    /\ queued_frame q = Request (mkEnvelope WALLET_ABI_VERSION (wh_host_session_id h)
         (ss_service_session_id s) (wh_restart_generation h) (next_host_sequence s)
         (queued_request_id q) body);
  sr_fresh : wh_pending h !! queued_request_id q = None;
  sr_unused : queued_request_id q ∉ wh_recent_request_ids h;
  sr_pending : wh_pending h' = <[queued_request_id q := class]> (wh_pending h);
  sr_authorities : wh_authorities h' = wh_authorities h;
  sr_approvals : wh_approvals h' = wh_approvals h;
  sr_issued : wh_issued_approval_ids h' = wh_issued_approval_ids h;
  sr_handles : wh_issued_authority_ids h' = wh_issued_authority_ids h;
  sr_nonces : wh_recent_nonces h' = wh_recent_nonces h;
  sr_identity : wh_host_session_id h' = wh_host_session_id h
    /\ wh_restart_generation h' = wh_restart_generation h;
}.

Lemma enqueue_spec h body class :
  host_ok h -> (forall id, class_ok (wh_issued_approval_ids h) id class) ->
  leaves (refused h) (fun h' q => host_ok h' /\ sent_request h body class h' q) (enqueue h body class).
Proof.
  intros Hok Hclass. unfold enqueue.
  destruct (N.leb_spec MAX_PENDING_REQUESTS (count (wh_pending h))) as [_|Hcount]; [by apply refused_refl|].
  eapply leaves_bind; [by apply random_request_id_spec|].
  intros h1 id ([Hc Hl] & (e & ->) & Hf & Hnew). cbn [wh_channel set_entropy].
  assert (refused h (set_entropy h e)) as Href by (by split; [split|left; split]).
  destruct (wh_channel h) as [|s|] eqn:Hch; [done| |done].
  apply leaves_test; [done|]. intros next Hnext. bool_prop. subst next.
  edestruct (enqueue_core (set_entropy h e) id class s) as (o & r & a & Heq & Hcore); try done.
  rewrite Heq. split; [split|].
  - destruct Hcore. split; cbn in *; try done; rewrite Hch in *; [|done]. split; [lia|apply co_channel0].
  - intros k ap Hk r' Hr'. destruct (Hl k ap Hk r' Hr') as (d & Hd). exists d.
    cbn. rewrite lookup_insert_ne; [done|]. intros <-. cbn in *. congruence.
  - split; cbn; try done. exists s. done.
Qed.

Lemma forget_request_form h id :
  forget_request h id = set_ids (set_pending h (delete id (wh_pending h))) (wh_request_id_order h)
    (if bool_decide (id ∈ wh_aged_out_request_ids h) then wh_recent_request_ids h ∖ {[id]}
     else wh_recent_request_ids h)
    (if bool_decide (id ∈ wh_aged_out_request_ids h) then wh_aged_out_request_ids h ∖ {[id]}
     else wh_aged_out_request_ids h).
Proof. unfold forget_request. cbn. by destruct (bool_decide _). Qed.

Lemma forget_request_core h id : core_ok h -> core_ok (forget_request h id).
Proof.
  intros []. rewrite forget_request_form. split; cbn; try done.
  - destruct (wh_channel h); simpl in *; [by rewrite co_channel0, delete_empty|done|by rewrite co_channel0, delete_empty].
  - rewrite dom_delete_L. by apply ids_forget.
  - by apply map_Forall_delete.
  - pose proof (count_subseteq _ _ (delete_subseteq (wh_pending h) id)). lia.
Qed.

(** The request of a finished decision can be forgotten. *)
Lemma forget_request_ok h id :
  host_ok h -> (forall k a, wh_approvals h !! k = Some a -> ha_phase a <> Deciding id) ->
  host_ok (forget_request h id).
Proof.
  intros [Hc Hl] Hno. split; [by apply forget_request_core|].
  rewrite forget_request_form. intros k a Hk r Hr. destruct (Hl k a Hk r Hr) as (d & Hd).
  exists d. cbn. rewrite lookup_delete_ne; [done|]. intros <-. by apply (Hno k a).
Qed.

Lemma remember_nonce_ok h handle nonce :
  (handle, nonce) ∉ wh_recent_nonces h -> host_ok h -> host_ok (remember_nonce h handle nonce).
Proof.
  intros Hf [[] Hl]. destruct co_nonces0 as [Hn Hb Hr]. unfold remember_nonce.
  cbn -[MAX_RECENT_PROVIDER_NONCES].
  assert (NoDup (wh_nonce_order h ++ [(handle, nonce)])) as Hnd.
  { apply NoDup_snoc; [done|]. by rewrite Hr, elem_of_list_to_set in Hf. }
  assert ({[(handle, nonce)]} ∪ wh_recent_nonces h
          = list_to_set (wh_nonce_order h ++ [(handle, nonce)])) as Hset.
  { rewrite Hr, list_to_set_app_L. simpl. by rewrite union_empty_r_L, union_comm_L. }
  destruct (N.ltb_spec MAX_RECENT_PROVIDER_NONCES (len (wh_nonce_order h ++ [(handle, nonce)]))) as [Hlen|Hlen].
  - rewrite Hset. destruct (wh_nonce_order h ++ [(handle, nonce)]) as [|old order] eqn:Ho.
    { by destruct (wh_nonce_order h). }
    apply list.NoDup_cons in Hnd as [Hold Hnd].
    split; [|exact Hl]. split; cbn; try done. split; [done| |].
    + apply (f_equal length) in Ho. rewrite length_app in Ho. unfold len in *. simpl in Ho. lia.
    + rewrite difference_union_distr_l_L, difference_diag_L, union_empty_l_L.
      apply difference_disjoint_L. set_solver.
  - split; [|exact Hl]. split; cbn; try done.
Qed.

(** An authority that a method found active. *)
Definition found_active h handle (st : AuthorityState) : Prop :=
  wh_authorities h !! handle = Some st /\ exists r, as_phase st = AuthorityPhase.Active r.

Lemma active_authority_spec h handle t :
  host_ok h ->
  leaves (refused h) (fun h' st => h' = h /\ found_active h handle st
    /\ (t < haf_valid_until_unix_ms (as_facts st))) (active_authority h handle t).
Proof.
  intros Hok. unfold active_authority. apply leaves_test; [by apply refused_refl|].
  intros st Hst%ok_or_Ok. destruct (N.leb_spec (haf_valid_until_unix_ms (as_facts st)) t).
  - pose proof (mark_authority_stale_spec h handle) as Hi.
    split; [by eapply invalidated_ok|left; by apply invalidated_quiet].
  - destruct (as_phase st) eqn:Hp; try by apply refused_refl.
    split_and!; [done|by split; [|eexists]|done].
Qed.

Lemma active_revision_Ok st r : active_revision st = Ok r <-> as_phase st = AuthorityPhase.Active r /\ r <> 0.
Proof.
  unfold active_revision. split.
  - intros Hr. run_in Hr. bool_prop. done.
  - intros [-> Hr]. apply N.eqb_neq in Hr. by rewrite Hr.
Qed.

(** What a session can hold: it exists, and its capabilities. *)
Lemma require_capability_Ok h c :
  require_capability h c = Ok tt <->
  exists s, wh_channel h = ChannelState.Ready s /\ c ∈ ss_capabilities s.
Proof.
  unfold require_capability, has_capability. destruct (wh_channel h) as [|s|]; simpl.
  - split; [done|by intros (? & ? & _)].
  - case_bool_decide; split; try done; [by exists s|by intros (? & [= <-] & ?)].
  - split; [done|by intros (? & ? & _)].
Qed.

Lemma set_authority_phase_ok h handle phase st :
  host_ok h -> wh_authorities h !! handle = Some st -> as_binding st = None -> phase_ok phase ->
  negotiated (wh_channel h) <> None ->
  exists h', set_authority_phase h handle phase = (h', Ok tt) /\ host_ok h' /\ invalidated h h'.
Proof.
  intros Hok Hst Hb Hph Hneg. unfold set_authority_phase. rewrite Hst. simpl.
  assert (invalidated h (set_authorities h (<[handle := with_phase st phase]> (wh_authorities h)))) as Hi.
  { apply replace_unbound; [by intros ? ?; simplify_eq|by apply elem_of_dom; eauto|].
    apply authority_ok_unbound; [apply Hok, Hst|done..]. }
  eexists. split; [done|]. split; [by eapply invalidated_ok|done].
Qed.

(** A snapshot that fits the binding and the session. *)
Definition snapshot_ok h (b : ProviderBinding) (c : ProviderCapabilitySnapshot) : Prop :=
  exists granted, negotiated (wh_channel h) = Some granted
    /\ pcs_wallet_session_id c = pb_wallet_session_id b
    /\ pcs_permission_generation c = pb_permission_generation b
    /\ forall method, method ∈ methods c -> method_admitted granted method.

Lemma bind_authority_spec h handle revision e binding capabilities :
  host_ok h -> pb_authority_handle binding = handle -> pb_authority_revision binding = revision ->
  (forall c, capabilities = Some c -> snapshot_ok h binding c) ->
  (unbound (wh_authorities h) handle
   \/ exists st, wh_authorities h !! handle = Some st /\ as_binding st = Some binding) ->
  leaves host_ok (fun h' _ => host_ok h' /\ invalidated h h' /\ wh_approvals h' = wh_approvals h
                              /\ exists st, bound (wh_authorities h') binding st)
    (bind_authority h handle revision e binding capabilities).
Proof.
  intros Hok <- <- Hcap Hor. unfold bind_authority. apply leaves_test; [done|].
  intros st Hst%ok_or_Ok. apply leaves_test; [done|]. intros r [Hr Hr0]%active_revision_Ok.
  destruct (N.eqb_spec r (pb_authority_revision binding)) as [->|]; [|done].
  pose proof Hok as [Hcore _]. pose proof (do_authorities _ _ _ _ _ (co_derived _ Hcore) _ _ Hst) as Hao.
  assert (authority_ok (negotiated (wh_channel h)) (pb_authority_handle binding)
            (with_binding st (Some binding) capabilities)) as Hnew.
  { destruct Hao. split; simpl; try done.
    - by intros b [= <-].
    - intros c Hc. destruct (Hcap c Hc) as (g & ? & ? & ? & ?). by exists binding, g. }
  assert (invalidated h (set_authorities h (<[pb_authority_handle binding :=
            with_binding st (Some binding) capabilities]> (wh_authorities h)))) as Hi.
  { destruct Hor as [Hun|(st' & Hst' & Hb)];
      [apply replace_unbound; [done|by apply elem_of_dom; eauto|done]|].
    assert (st' = st) as -> by congruence. split_and!; [by split| | |done].
    - apply (derived_rebind _ _ _ _ _ _ st); done.
    - cbn. by rewrite dom_insert_lookup_L by eauto. }
  split_and!; [by eapply invalidated_ok|done|done|].
  eexists. split; [by cbn; rewrite lookup_insert_eq|done].
Qed.

(** ** Requests *)

Lemma class_ok_other issued id class :
  (forall handle revision k d method, class <> RequestClass.Approval handle revision k d method) ->
  class_ok issued id class.
Proof. intros Hne ????? ->. by destruct (Hne handle revision id0 d method). Qed.

(** The class a request is filed under. *)
Inductive class_for : ServiceRequest Value -> RequestClass.t -> Prop :=
| ForRegister handle facts :
    class_for (RegisterAuthority handle facts) (RequestClass.Register handle)
| ForReplace handle revision facts :
    class_for (ReplaceAuthority handle revision facts) (RequestClass.Replace handle revision facts)
| ForRevoke handle revision :
    class_for (RevokeAuthority handle revision) (RequestClass.Revoke handle revision)
| ForCapabilities handle revision :
    class_for (ProviderCapabilities handle revision) (RequestClass.Capabilities handle revision)
| ForProvider handle revision nonce method params :
    class_for (ProviderRequest handle revision nonce method params)
      (RequestClass.Provider handle revision method)
| ForDecision handle revision id d method :
    class_for (DecideApproval handle revision id d) (RequestClass.Approval handle revision id d method)
| ForWallet request :
    class_for (Wallet request) (RequestClass.Wallet (wallet_class_for_request request))
| ForHnsRead request class : hns_read_for_request request = Ok class ->
    class_for (Wallet request) (RequestClass.HnsRead class)
| ForContext request : authority_context_for_request request = Ok request ->
    class_for (WalletAuthority request) (RequestClass.HnsWalletAuthority request).

(** A request the host is entitled to send in this state. *)
Definition entitled h (body : ServiceRequest Value) : Prop :=
  match body with
  | RegisterAuthority _ facts => validate_authority facts = Ok tt
  | ReplaceAuthority handle revision facts =>
      revision <> 0 /\ validate_authority facts = Ok tt /\ exists st, found_active h handle st
  | RevokeAuthority handle revision | ProviderCapabilities handle revision =>
      revision <> 0 /\ exists st, found_active h handle st
  | ProviderRequest handle revision nonce method params =>
      revision <> 0 /\ nonce <> 0 /\ validate_provider_request method params = Ok tt
      /\ exists st b c s, bound (wh_authorities h) b st /\ pb_authority_handle b = handle
           /\ pb_authority_revision b = revision /\ as_capabilities st = Some c
           /\ method ∈ methods c /\ wh_channel h = ChannelState.Ready s
           /\ method_admitted (ss_capabilities s) method
  | DecideApproval handle revision id _ =>
      revision <> 0 /\ exists a, wh_approvals h !! id = Some a /\ ha_phase a = Available
        /\ pb_authority_handle (ap_binding (prompt a)) = handle
        /\ pb_authority_revision (ap_binding (prompt a)) = revision
  | Wallet _ => True
  | WalletAuthority request => validate_wallet_authority_context_request request = Ok tt
  end.

(** No approval becomes available by sending. *)
Definition approvals_follow h h' : Prop :=
  forall k a', wh_approvals h' !! k = Some a' -> exists a, wh_approvals h !! k = Some a
    /\ (ha_phase a' = Available -> ha_phase a = Available).

(** A request left: under a fresh identifier, with the next number of the
    channel, and filed under its class. *)
Record issues h h' (body : ServiceRequest Value) (frame : HostFrame Value) : Prop := {
  is_frame : exists s id class, wh_channel h = ChannelState.Ready s
    /\ wh_channel h' = with_host_sequence s (next_host_sequence s + 1)
    /\ next_host_sequence s + 1 <= U64_MAX
    /\ frame = Request (mkEnvelope WALLET_ABI_VERSION (wh_host_session_id h)
         (ss_service_session_id s) (wh_restart_generation h) (next_host_sequence s) id body)
    /\ (id ∉ wh_recent_request_ids h) /\ wh_pending h !! id = None /\ class_for body class
    /\ wh_pending h' = <[id := class]> (wh_pending h);
  is_session : wh_host_session_id h' = wh_host_session_id h;
  is_generation : wh_restart_generation h' = wh_restart_generation h;
  is_issued : wh_issued_approval_ids h' = wh_issued_approval_ids h;
  is_approvals : approvals_follow h h';
  is_decided : forall handle revision id d, body = DecideApproval handle revision id d ->
    forall a, wh_approvals h' !! id = Some a -> ha_phase a <> Available;
  is_entitled : entitled h body;
}.

(** The state a method has read up to its request is the one it was called in. *)
Definition alike h h' : Prop :=
  same_session h h' /\ wh_authorities h' = wh_authorities h /\ wh_approvals h' = wh_approvals h
  /\ wh_event_cursors h' = wh_event_cursors h.

Lemma alike_trans h1 h2 h3 : alike h1 h2 -> alike h2 h3 -> alike h1 h3.
Proof. intros (? & ? & ? & ?) (? & ? & ? & ?). split_and!; [by eapply same_session_trans|congruence..]. Qed.
Lemma alike_clock h h' : only_clock h h' -> alike h h'.
Proof. intros (c & t & ->). split_and!; [by split|done..]. Qed.
Lemma alike_entropy h e : alike h (set_entropy h e).
Proof. split_and!; [by split|done..]. Qed.
Lemma alike_quiet h h' : alike h h' -> quiet h h'.
Proof. intros ([] & ? & Hap & _). split; try done; [by rewrite s_pending0|by rewrite Hap]. Qed.
Lemma alike_invalidated h h' : alike h h' -> invalidated h h'.
Proof.
  intros (Hs & Ha & Hap & Hc). split_and!; [done| |by rewrite Ha|by rewrite Hap].
  unfold derived_of. by rewrite Ha, Hap, Hc, (s_channel _ _ Hs), (s_issued _ _ Hs).
Qed.
Lemma alike_refused h h1 h' : alike h h1 -> refused h1 h' -> refused h h'.
Proof. intros ?%alike_quiet. by apply refused_quiet. Qed.

Definition settled h h' : Prop :=
  wh_channel h' = wh_channel h /\ wh_pending h' = wh_pending h
  /\ wh_host_session_id h' = wh_host_session_id h
  /\ wh_restart_generation h' = wh_restart_generation h
  /\ wh_issued_approval_ids h' = wh_issued_approval_ids h /\ wh_approvals h' ⊆ wh_approvals h.

Lemma invalidated_settled h h' : invalidated h h' -> settled h h'.
Proof. by intros ([] & _ & _ & ?). Qed.

Lemma issues_intro h h0 h1 h' body class q :
  alike h h0 -> sent_request h0 body class h1 q -> settled h1 h' -> class_for body class ->
  entitled h body -> (forall handle revision id d, body <> DecideApproval handle revision id d) ->
  issues h h' body (queued_frame q).
Proof.
  intros ([] & Ha & Hap & _) [] (? & ? & ? & ? & ? & Hsub) Hcls Hent Hnd.
  destruct sr_session0 as (s & Hch & Hch' & Hmax & Hq). destruct sr_identity0.
  split; try congruence; try done.
  - exists s, (queued_request_id q), class. split_and!; try congruence; try done.
  - intros k a' Hk. exists a'. split; [|done]. rewrite <- Hap, <- sr_approvals0.
    by eapply lookup_weaken.
Qed.
End Methods.
