(* ===== verification/HostMethods.v ===== *)
(** * Every method of the host preserves the invariant

    For a call that sends: what was sent and where it is filed ([issues]). For a
    frame that arrives: which request it answers and what is left. *)

From S2P Require Import Prelude Types Abi Host HostProofs.

Section Methods.
Context {C E Value : Type}.
Context `{Clock C, Entropy E, NameEnv, JsonCodec ApprovalPrompt, JsonCodec (ProviderBody Value)}.
Implicit Types h : WalletHost C E.

Lemma host_authority h handle st :
  host_ok h -> wh_authorities h !! handle = Some st ->
  authority_ok (negotiated (wh_channel h)) handle st.
Proof. intros Hok. apply (do_authorities _ _ _ _ _ (co_derived _ (proj1 Hok))). Qed.

(** ** Requests *)

Lemma facts_valid facts now : validate_authority_facts facts now = Ok tt -> validate_authority facts = Ok tt.
Proof.
  unfold validate_authority_facts, validate_authority.
  destruct (_ || (haf_valid_until_unix_ms facts <=? now)) eqn:Hc; [done|].
  apply orb_false_elim in Hc as [-> Hv%N.leb_gt]. intros _.
  destruct (N.eqb_spec (haf_valid_until_unix_ms facts) 0); [lia|done].
Qed.

Lemma context_valid request r : authority_context_for_request request = Ok r ->
  r = request /\ validate_wallet_authority_context_request request = Ok tt.
Proof.
  unfold authority_context_for_request, validate_wallet_authority_context_request.
  destruct request as [net mg ns lease m].
  destruct (mg =? magic net), (all_zero ns), (lease =? 0), (bool_decide (m = Handshake)); simpl;
    try done. by intros [= <-].
Qed.

Lemma ready_negotiated h c : require_capability h c = Ok tt -> negotiated (wh_channel h) <> None.
Proof. intros (s & -> & _)%require_capability_Ok. done. Qed.

Lemma found_alike h h' handle st : alike h h' -> found_active h' handle st -> found_active h handle st.
Proof. intros (_ & Ha & _) [Hst Hp]. split; [by rewrite <- Ha|done]. Qed.

(** Reading the time, in a method that started in [h0]. *)
Lemma now_alike h0 h : host_ok h -> alike h0 h ->
  leaves (refused h0) (fun h' t => host_ok h' /\ alike h0 h') (now h).
Proof.
  intros Hok Hal. eapply leaves_weaken; [by apply now_spec|..].
  - intros h'. by apply alike_refused.
  - intros h' t (? & ?%alike_clock & _). split; [done|]. by eapply alike_trans.
Qed.

Lemma active_alike h0 h handle t : host_ok h -> alike h0 h ->
  leaves (refused h0) (fun h' st => h' = h /\ found_active h handle st) (active_authority h handle t).
Proof.
  intros Hok Hal. eapply leaves_weaken; [by apply active_authority_spec|..].
  - intros h'. by apply alike_refused.
  - by intros h' st (? & ? & _).
Qed.

Lemma enqueue_alike h0 h (body : ServiceRequest Value) class :
  host_ok h -> alike h0 h ->
  (forall handle revision id d method, class <> RequestClass.Approval handle revision id d method) ->
  leaves (refused h0) (fun h' q => host_ok h' /\ sent_request h body class h' q) (enqueue h body class).
Proof.
  intros Hok Hal Hne. eapply leaves_weaken.
  - apply enqueue_spec; [done|]. intros id. by apply class_ok_other.
  - intros h'. by apply alike_refused.
  - done.
Qed.

Lemma alike_refl h : alike h h.
Proof. split_and!; [by split|done..]. Qed.

Lemma refused_alike h h' : host_ok h' -> alike h h' -> refused h h'.
Proof. intros ? ?%alike_quiet. split; [done|by left]. Qed.

(** What a request leaves. *)
Abbreviation issued h := (fun h' (frame : HostFrame Value) => host_ok h' /\ exists body, issues h h' body frame).

(** A new authority under a handle that was never issued. *)
Lemma add_authority_ok h handle st :
  host_ok h -> handle ∉ wh_issued_authority_ids h -> count (wh_authorities h) < MAX_AUTHORITIES ->
  set_len (wh_issued_authority_ids h) < MAX_ISSUED_AUTHORITY_IDS ->
  authority_ok (negotiated (wh_channel h)) handle st ->
  host_ok (set_authorities (set_issued_authority_ids h ({[handle]} ∪ wh_issued_authority_ids h))
             (<[handle := st]> (wh_authorities h))).
Proof.
  intros [[] Hl] Hnew Hc Hi Hst. split; [|exact Hl]. split; cbn; try done.
  - apply derived_insert; [|done|done]. intros st0 Hin. destruct Hnew. apply co_handles.
    by apply elem_of_dom_2 in Hin.
  - rewrite dom_insert_L. by apply union_mono_l.
  - pose proof (count_insert_le (wh_authorities h) handle st). lia.
  - unfold set_len in *. rewrite size_union, size_singleton by set_solver. lia.
Qed.

Lemma register_authority_spec h facts :
  host_ok h ->
  leaves (refused h) (fun h' p => host_ok h' /\ exists body, issues h h' body p.2)
    (register_authority (Value := Value) h facts).
Proof.
  intros Hok. unfold register_authority. pose proof (refused_refl _ Hok) as Href.
  apply leaves_test; [done|]. intros [] Hcap%ready_negotiated.
  destruct (N.leb_spec MAX_AUTHORITIES (count (wh_authorities h))); [done|].
  destruct (N.leb_spec MAX_ISSUED_AUTHORITY_IDS (set_len (wh_issued_authority_ids h))); [done|].
  eapply leaves_bind; [apply now_alike; [done|apply alike_refl]|]. intros h1 t [Hok1 Hal1].
  apply leaves_test; [by apply refused_alike|]. intros [] Hfacts%facts_valid.
  eapply leaves_bind.
  { eapply leaves_weaken; [by apply random_authority_handle_spec|intros ?; by apply alike_refused|done]. }
  intros h2 handle (Hok2 & (e & ->) & Hfresh).
  assert (alike h (set_entropy h1 e)) as Hal2 by (eapply alike_trans; [done|apply alike_entropy]).
  eapply leaves_bind; [by apply enqueue_alike|]. intros h3 q [Hok3 Hsent].
  split.
  - destruct Hsent as [(s & _ & Hch & _) _ _ _ Hau _ _ Hhs _ _]. destruct Hal1 as ([] & Hau1 & _).
    cbn in Hau, Hhs. rewrite Hau1 in Hau. rewrite s_handles in Hhs, Hfresh.
    apply (add_authority_ok h3); rewrite ?Hhs, ?Hau; try done. rewrite Hch. by split.
  - exists (RegisterAuthority handle facts). eapply issues_intro; [|exact Hsent|..]; try done.
    constructor.
Qed.

Lemma settled_refl h : settled h h.
Proof. by repeat split. Qed.

(** The usual end of a method: the request is sent and its frame returned. *)
Lemma issue_now h0 h body class :
  host_ok h -> alike h0 h -> class_for body class -> entitled h0 body ->
  (forall handle revision id d, body <> DecideApproval handle revision id d) ->
  (forall handle revision id d method, class <> RequestClass.Approval handle revision id d method) ->
  leaves (refused h0) (issued h0)
    (let! h, queued := enqueue h body class in (h, Ok (queued_frame queued))).
Proof.
  intros Hok Hal Hcls Hent Hb Hc. eapply leaves_bind; [by apply enqueue_alike|].
  intros h1 q [Hok1 Hsent]. split; [done|]. exists body. eapply issues_intro; eauto using settled_refl.
Qed.

(** A method that sends and then moves an authority it read to another phase. *)
Lemma issue_and_phase h h1 handle st body class phase (f : WalletHost C E -> WalletHost C E) :
  host_ok h1 -> alike h h1 -> class_for body class -> entitled h body ->
  (forall handle revision id d, body <> DecideApproval handle revision id d) ->
  (forall handle revision id d method, class <> RequestClass.Approval handle revision id d method) ->
  wh_authorities h1 !! handle = Some st -> phase_ok phase ->
  (forall h2, host_ok h2 -> wh_authorities h2 !! handle = Some st ->
    host_ok (f h2) /\ invalidated h2 (f h2)
    /\ exists st', wh_authorities (f h2) !! handle = Some st' /\ as_binding st' = None) ->
  leaves (refused h) (issued h)
    (let! h, queued := enqueue h1 body class in
     let! h, _ := set_authority_phase (f h) handle phase in
     (h, Ok (queued_frame queued))).
Proof.
  intros Hok Hal Hcls Hent Hb Hc Hst Hph Hf. eapply leaves_bind; [by apply enqueue_alike|].
  intros h2 q [Hok2 Hsent]. destruct (Hf h2) as (Hok3 & Hinv & st' & Hst' & Hbind); [done| |].
  { by rewrite (sr_authorities _ _ _ _ _ Hsent). }
  assert (negotiated (wh_channel (f h2)) <> None) as Hneg.
  { rewrite (s_channel _ _ (proj1 Hinv)). by destruct (sr_session _ _ _ _ _ Hsent) as (s & _ & -> & _). }
  destruct (set_authority_phase_ok (f h2) handle phase st') as (h4 & -> & Hok4 & Hinv4); try done.
  split; [done|]. exists body.
  eapply issues_intro; [exact Hal|exact Hsent| |done..].
  apply invalidated_settled. by eapply invalidated_trans.
Qed.

Lemma register_detached_authority_spec h handle :
  host_ok h -> leaves (refused h) (issued h) (register_detached_authority h handle).
Proof.
  intros Hok. unfold register_detached_authority.
  apply leaves_test; [by apply refused_refl|]. intros [] Hcap%ready_negotiated.
  eapply leaves_bind; [apply now_alike; [done|apply alike_refl]|]. intros h1 t [Hok1 Hal1].
  pose proof (refused_alike _ _ Hok1 Hal1) as Href1.
  apply leaves_test; [done|]. intros st Hst%ok_or_Ok.
  destruct (as_phase st) eqn:Hp; try done.
  apply leaves_test; [done|]. intros [] Hfacts%facts_valid.
  eapply (issue_and_phase h h1 handle st _ _ _ id); try done; [constructor|].
  intros h2 Hok2 Hst2. split_and!; [done|apply invalidated_refl|]. exists st. split; [done|].
  pose proof (ao_binding _ _ _ (host_authority _ _ _ Hok2 Hst2)) as Hb.
  destruct (as_binding st) as [b|] eqn:Hbd; [|done]. destruct (Hb b) as [Hx _]; [done|]. congruence.
Qed.

Lemma invalidate_derived_step h handle st :
  host_ok h -> wh_authorities h !! handle = Some st ->
  host_ok (invalidate_authority_derived h handle)
  /\ invalidated h (invalidate_authority_derived h handle)
  /\ exists st', wh_authorities (invalidate_authority_derived h handle) !! handle = Some st'
       /\ as_binding st' = None.
Proof.
  intros Hok Hst. destruct (invalidate_authority_derived_spec h handle) as [Hi _].
  split_and!; [by eapply invalidated_ok|done|]. exists (with_binding st None None).
  split; [|done]. cbn. by rewrite lookup_alter_eq, Hst.
Qed.

Lemma replace_authority_spec h handle replacement :
  host_ok h -> leaves (refused h) (issued h) (replace_authority h handle replacement).
Proof.
  intros Hok. unfold replace_authority.
  apply leaves_test; [by apply refused_refl|]. intros [] Hcap.
  eapply leaves_bind; [apply now_alike; [done|apply alike_refl]|]. intros h1 t [Hok1 Hal1].
  pose proof (refused_alike _ _ Hok1 Hal1) as Href1.
  apply leaves_test; [done|]. intros [] Hfacts%facts_valid.
  eapply leaves_bind; [by apply active_alike|]. intros h2 st (-> & Hact).
  apply leaves_test; [done|]. intros r [Hr Hr0]%active_revision_Ok.
  apply leaves_test; [done|]. intros [] _.
  eapply (issue_and_phase h h1 handle st _ _ _ (fun h => invalidate_authority_derived h handle)); try done.
  - constructor.
  - split_and!; [done..|]. exists st. by eapply found_alike.
  - apply Hact.
  - intros h2. apply invalidate_derived_step.
Qed.

Lemma revoke_authority_spec h handle :
  host_ok h -> leaves (refused h) (issued h) (revoke_authority h handle).
Proof.
  intros Hok. unfold revoke_authority.
  apply leaves_test; [by apply refused_refl|]. intros [] Hcap.
  eapply leaves_bind; [apply now_alike; [done|apply alike_refl]|]. intros h1 t [Hok1 Hal1].
  eapply leaves_bind; [by apply active_alike|]. intros h2 st (-> & Hact).
  apply leaves_test; [by apply refused_alike|]. intros r [Hr Hr0]%active_revision_Ok.
  eapply (issue_and_phase h h1 handle st _ _ _ (fun h => invalidate_authority_derived h handle)); try done.
  - constructor.
  - split; [done|]. exists st. by eapply found_alike.
  - apply Hact.
  - intros h2. apply invalidate_derived_step.
Qed.

Lemma request_provider_capabilities_spec h handle :
  host_ok h -> leaves (refused h) (issued h) (request_provider_capabilities h handle).
Proof.
  intros Hok. unfold request_provider_capabilities.
  apply leaves_test; [by apply refused_refl|]. intros [] Hcap.
  eapply leaves_bind; [apply now_alike; [done|apply alike_refl]|]. intros h1 t [Hok1 Hal1].
  eapply leaves_bind; [by apply active_alike|]. intros h2 st (-> & Hact).
  apply leaves_test; [by apply refused_alike|]. intros r [Hr Hr0]%active_revision_Ok.
  apply issue_now; try done; [constructor|]. split; [done|]. exists st. by eapply found_alike.
Qed.

Lemma remember_nonce_settled h handle nonce : settled h (remember_nonce h handle nonce).
Proof. unfold remember_nonce. cbn. by repeat (case_match; cbn). Qed.

Lemma provider_request_spec h handle method params :
  host_ok h -> leaves (refused h) (issued h) (provider_request h handle method params).
Proof.
  intros Hok. unfold provider_request.
  apply leaves_test; [by apply refused_refl|]. intros [] Hcap.
  eapply leaves_bind; [apply now_alike; [done|apply alike_refl]|]. intros h1 t [Hok1 Hal1].
  pose proof (refused_alike _ _ Hok1 Hal1) as Href1.
  eapply leaves_bind; [by apply active_alike|]. intros h2 st (-> & Hact).
  apply leaves_test; [done|]. intros r [Hr Hr0]%active_revision_Ok.
  apply leaves_test; [done|]. intros b Hb%ok_or_Ok.
  apply leaves_test; [done|]. intros c Hc%ok_or_Ok.
  guard as Hstale; [done|]. bool_prop.
  guard as Hmethod; [done|]. bool_prop.
  apply leaves_test; [done|]. intros [] Hvalid.
  apply leaves_test; [done|]. intros [] _.
  eapply leaves_bind.
  { eapply leaves_weaken; [by apply random_provider_nonce_spec|intros ?; by apply alike_refused|done]. }
  intros h3 nonce (Hok3 & (e & ->) & Hn0 & Hfresh).
  assert (alike h (set_entropy h1 e)) as Hal3 by (eapply alike_trans; [done|apply alike_entropy]).
  eapply leaves_bind; [by apply enqueue_alike|]. intros h4 q [Hok4 Hsent]. split.
  - apply remember_nonce_ok; [|done]. by rewrite (sr_nonces _ _ _ _ _ Hsent).
  - eexists. eapply issues_intro; [exact Hal3|exact Hsent|apply remember_nonce_settled|constructor| |done].
    split_and!; [done..|]. apply (found_alike _ _ _ _ Hal1) in Hact as [Hst _].
    pose proof (host_authority _ _ _ Hok Hst) as Hao.
    destruct (ao_snapshot _ _ _ Hao c Hc) as (b' & g & Hb' & Hg & _ & _ & Hadm).
    assert (b' = b) as -> by congruence.
    apply require_capability_Ok in Hcap as (s & Hs & _). rewrite Hs in Hg. injection Hg as <-.
    exists st, b, c, s. split; [split; congruence|]. split_and!; try done. by apply Hadm.
Qed.

(** The approval that a decision was sent for. *)
Lemma decide_ok h id a r d :
  host_ok h -> wh_approvals h !! id = Some a ->
  wh_pending h !! r = Some (decision_class id (prompt a) d) ->
  host_ok (set_approvals h (<[id := mkHostApproval (prompt a) (Deciding r)]> (wh_approvals h))).
Proof.
  intros [[] Hl] Ha Hr. split; [split; cbn; try done|].
  - destruct co_derived as [H1' H2' H3']. split; [done| |done]. apply map_Forall_insert_2; [|done].
    destruct (H2' id a Ha). by split.
  - unfold count. rewrite map_size_insert_Some by (by rewrite Ha). done.
  - apply map_Forall_insert_2; [|exact Hl]. intros r' [= <-]. by exists d.
Qed.

Lemma decide_approval_spec h id d :
  host_ok h -> leaves (refused h) (issued h) (decide_approval h id d).
Proof.
  intros Hok. unfold decide_approval.
  apply leaves_test; [by apply refused_refl|]. intros [] Hcap.
  eapply leaves_bind; [apply now_alike; [done|apply alike_refl]|]. intros h1 t [Hok1 Hal1].
  pose proof (refused_alike _ _ Hok1 Hal1) as Href1.
  apply leaves_test; [done|]. intros a Ha%ok_or_Ok.
  guard; [done|]. destruct (ha_phase a) eqn:Hph; [|done].
  eapply leaves_bind; [by apply active_alike|]. intros h2 st (-> & Hact).
  apply leaves_test; [done|]. intros r [Hr Hr0]%active_revision_Ok.
  guard as Hstale; [done|]. bool_prop.
  eapply leaves_bind.
  { eapply leaves_weaken; [apply enqueue_spec; [done|]|intros ?; by apply alike_refused|done].
    intros k ????? [= <- <- <- <- <-].
    apply (ap_issued _ _ _ _ (do_approvals _ _ _ _ _ (co_derived _ (proj1 Hok1)) _ _ Ha)). }
  intros h3 q [Hok3 Hsent]. rewrite (sr_approvals _ _ _ _ _ Hsent), Ha. simpl.
  destruct Hal1 as (Hss & Hau & Hap & _). split.
  - rewrite <- (sr_approvals _ _ _ _ _ Hsent). eapply decide_ok; [done|by rewrite (sr_approvals _ _ _ _ _ Hsent)|].
    rewrite (sr_pending _ _ _ _ _ Hsent). apply lookup_insert_eq.
  - exists (DecideApproval (pb_authority_handle (ap_binding (prompt a)))
              (pb_authority_revision (ap_binding (prompt a))) id d).
    destruct Hss, Hsent. destruct sr_session as (s & Hch & Hch' & Hmax & Hq).
    destruct sr_identity. split; cbn; try congruence.
    + exists s, (queued_request_id q), (decision_class id (prompt a) d).
      split_and!; try congruence; try done; [constructor|by rewrite sr_pending, s_pending].
    + intros k a'. cbn. intros [[<- <-]|[Hne Hk]]%lookup_insert_Some.
      * exists a. by rewrite <- Hap.
      * exists a'. by rewrite <- Hap.
    + intros ???? [= <- <- <- <-] a'. rewrite lookup_insert_eq. by intros [= <-].
    + split; [congruence|]. exists a. by rewrite <- Hap.
Qed.

Lemma wallet_request_spec h request :
  host_ok h -> leaves (refused h) (issued h) (wallet_request h request).
Proof.
  intros Hok. unfold wallet_request. apply leaves_test; [by apply refused_refl|]. intros [] _.
  apply issue_now; first [done|apply alike_refl|by constructor].
Qed.

Lemma hns_read_request_spec h request :
  host_ok h -> leaves (refused h) (issued h) (hns_read_request h request).
Proof.
  intros Hok. unfold hns_read_request. pose proof (refused_refl _ Hok).
  apply leaves_test; [done|]. intros [] _. apply leaves_test; [done|]. intros [] _.
  apply leaves_test; [done|]. intros class Hc.
  apply issue_now; first [done|apply alike_refl|by constructor].
Qed.

Lemma context_request_spec h request :
  host_ok h -> leaves (refused h) (issued h) (hns_wallet_authority_context_request h request).
Proof.
  intros Hok. unfold hns_wallet_authority_context_request. pose proof (refused_refl _ Hok).
  do 3 (apply leaves_test; [done|]; intros [] _).
  apply leaves_test; [done|]. intros class Hc. destruct (context_valid _ _ Hc) as [-> Hv].
  apply issue_now; first [done|apply alike_refl|by constructor].
Qed.

(** ** Sessions *)

Lemma new_ok platform generation clock entropy h :
  new platform generation clock entropy = Ok h -> host_ok h.
Proof.
  unfold new. destruct (N.eqb_spec generation 0); [done|].
  destruct (random_host_session entropy) as [e [sid|]]; [|done]. intros [= <-].
  split; [split; cbn; try done|apply map_Forall_empty].
  - rewrite dom_empty_L. apply ids_empty.
  - by split; [constructor|..].
Qed.

(** A new negotiation: nothing of the old session is left. *)
Record greets h' (frame : HostFrame Value) : Prop := {
  gr_channel : wh_channel h' = ChannelState.AwaitingHello;
  gr_pending : wh_pending h' = ∅;
  gr_approvals : wh_approvals h' = ∅;
  gr_frame : frame = HostHelloFrame (mkHostHello WALLET_ABI_VERSION (wh_platform h')
               (wh_host_session_id h') (wh_restart_generation h'));
}.

(** The invariant reads these fields only. *)
Lemma host_transport h h' :
  wh_restart_generation h' <> 0 -> wh_channel h' = wh_channel h -> wh_pending h' = wh_pending h ->
  wh_request_id_order h' = wh_request_id_order h ->
  wh_recent_request_ids h' = wh_recent_request_ids h ->
  wh_aged_out_request_ids h' = wh_aged_out_request_ids h -> wh_nonce_order h' = wh_nonce_order h ->
  wh_recent_nonces h' = wh_recent_nonces h -> wh_authorities h' = wh_authorities h ->
  wh_issued_authority_ids h' = wh_issued_authority_ids h -> wh_approvals h' = wh_approvals h ->
  wh_issued_approval_ids h' = wh_issued_approval_ids h ->
  wh_event_cursors h' = wh_event_cursors h -> host_ok h -> host_ok h'.
Proof.
  destruct h, h'; simpl. intros Hg -> -> -> -> -> -> -> -> -> -> -> -> [[] ?].
  split; [split|]; assumption.
Qed.

Lemma restart_spec h generation :
  host_ok h ->
  leaves (refused h) (fun h' frame => host_ok h' /\ greets h' frame
    /\ wh_host_session_id h' = wh_host_session_id h
    /\ wh_issued_approval_ids h' = wh_issued_approval_ids h
    /\ wh_restart_generation h < wh_restart_generation h') (restart h generation).
Proof.
  intros Hok. unfold restart. guard as Hg; [by apply refused_refl|]. bool_prop.
  split; [|split; [by split|done]].
  eapply host_transport;
    [..|apply (invalidate_service_state_ok h Hok ChannelState.AwaitingHello); by left];
    cbn; done.
Qed.

(** A host without requests can also forget the identifiers of the session. *)
Lemma host_forgets h h' :
  wh_restart_generation h' <> 0 -> wh_channel h' = wh_channel h -> wh_pending h = ∅ ->
  wh_pending h' = ∅ -> wh_request_id_order h' = [] -> wh_recent_request_ids h' = ∅ ->
  wh_aged_out_request_ids h' = ∅ -> wh_nonce_order h' = [] -> wh_recent_nonces h' = ∅ ->
  wh_authorities h' = wh_authorities h ->
  wh_issued_authority_ids h' = wh_issued_authority_ids h -> wh_approvals h' = ∅ ->
  wh_issued_approval_ids h' = ∅ -> wh_event_cursors h' = ∅ -> host_ok h -> host_ok h'.
Proof.
  destruct h, h'; simpl. intros Hg -> -> -> -> -> -> -> -> -> -> -> -> -> [[] _]; simpl in *.
  split; [split; simpl; try done|apply map_Forall_empty].
  - rewrite dom_empty_L. apply ids_empty.
  - by split; [constructor|..].
  - apply derived_empty, co_derived.
Qed.

Lemma reset_spec h generation :
  host_ok h ->
  leaves (refused h) (fun h' frame => host_ok h' /\ greets h' frame) (reset h generation).
Proof.
  intros Hok. unfold reset. destruct (N.eqb_spec generation 0); [by apply refused_refl|].
  destruct (random_host_session (wh_entropy h)) as [e [sid|]].
  - split; [|by split].
    eapply host_forgets;
      [..|apply (invalidate_service_state_ok _ (host_ok_entropy h e Hok) ChannelState.AwaitingHello);
          by left]; cbn; done.
  - split; [by apply host_ok_entropy|left; by split].
Qed.

Lemma forget_list_spec h ids :
  core_ok h -> core_ok (foldl forget_request h ids)
  /\ (forall r, wh_pending (foldl forget_request h ids) !! r
        = if bool_decide (r ∈ ids) then None else wh_pending h !! r)
  /\ exists p o r a, foldl forget_request h ids = set_ids (set_pending h p) o r a.
Proof.
  revert h. induction ids as [|k ids IH]; intros h Hc; cbn [foldl].
  - split_and!; [done|done|]. exists (wh_pending h), (wh_request_id_order h),
      (wh_recent_request_ids h), (wh_aged_out_request_ids h). by destruct h.
  - destruct (IH (forget_request h k)) as (Hc' & Hp & p & o & r & a & Heq); [by apply forget_request_core|].
    split_and!; [done| |].
    + intros x. rewrite Hp, forget_request_form. cbn. destruct (decide (x = k)) as [->|Hne].
      * rewrite lookup_delete_eq. rewrite (bool_decide_eq_true_2 (k ∈ k :: ids)) by left.
        by destruct (bool_decide _).
      * rewrite lookup_delete_ne by done.
        rewrite (bool_decide_ext (x ∈ k :: ids) (x ∈ ids)); [done|]. rewrite elem_of_cons. naive_solver.
    + exists p, o, r, a. rewrite Heq, forget_request_form. done.
Qed.

Lemma discard_authority_spec h handle :
  host_ok h -> leaves (refused h) (fun h' _ => host_ok h' /\ quiet h h') (discard_authority h handle).
Proof.
  intros Hok. unfold discard_authority.
  eapply leaves_bind; [apply now_alike; [done|apply alike_refl]|]. intros h1 t [Hok1 Hal1].
  pose proof (refused_alike _ _ Hok1 Hal1) as Href1. pose proof (alike_quiet _ _ Hal1) as Hq1.
  apply leaves_test; [done|]. intros st Hst%ok_or_Ok. guard; [done|].
  set (ids := (map_to_list _).*1). destruct Hok1 as [Hc1 Hl1].
  destruct (forget_list_spec h1 ids Hc1) as (Hc2 & Hp2 & p & o & r & a & Heq).
  set (h2 := foldl forget_request h1 ids) in *.
  destruct (invalidate_authority_derived_spec h2 handle) as [Hi Hun].
  pose proof (invalidated_trans _ _ _ Hi (delete_unbound _ _ Hun)) as Hi2.
  set (h3 := set_authorities _ _) in *.
  assert (wh_approvals h3 = retain (fun _ ap => negb (bool_decide
    (pb_authority_handle (ap_binding (prompt ap)) = handle))) (wh_approvals h1)) as Hap3.
  { unfold h3. cbn. by rewrite Heq. }
  split; [split; [by eapply invalidated_core|]|].
  - intros k ap Hk r' Hr'. rewrite Hap3 in Hk. apply lookup_retain_Some in Hk as [Hk Hne]. bool_prop.
    destruct (Hl1 k ap Hk r' Hr') as (d & Hd). exists d.
    rewrite (s_pending _ _ (proj1 Hi2)), Hp2, bool_decide_eq_false_2; [done|].
    intros ([r0 cl] & -> & Hin)%list_elem_of_fmap.
    apply elem_of_map_to_list, lookup_retain_Some in Hin as [Hin Hcl]. cbn in Hd. bool_prop.
    simplify_eq. simpl in Hcl. congruence.
  - eapply quiet_trans; [exact Hq1|]. eapply quiet_trans; [|by apply invalidated_quiet].
    rewrite Heq. split; try done. cbn. apply map_subseteq_spec. intros x cl Hx.
    assert (wh_pending h2 !! x = Some cl) as Hx2 by (by rewrite Heq). rewrite Hp2 in Hx2.
    by destruct (bool_decide _).
Qed.

Lemma approval_spec h id :
  host_ok h -> leaves (refused h) (fun h' _ => host_ok h' /\ quiet h h') (approval h id).
Proof.
  intros Hok. unfold approval.
  eapply leaves_bind; [apply now_alike; [done|apply alike_refl]|]. intros h1 t [Hok1 Hal1].
  pose proof (refused_alike _ _ Hok1 Hal1) as Href1. pose proof (alike_quiet _ _ Hal1) as Hq1.
  apply leaves_test; [done|]. intros a Ha%ok_or_Ok. guard.
  - assert (invalidated h1 (set_approvals h1 (delete id (wh_approvals h1)))) as Hi.
    { split_and!; [by split| |done|apply delete_subseteq]. apply derived_shrink; [apply delete_subseteq|done]. }
    split; [by eapply invalidated_ok|left]. eapply quiet_trans; [done|by apply invalidated_quiet].
  - by destruct (ha_phase a).
Qed.

(** ** Responses *)

Lemma refused_ok h h' : refused h h' -> host_ok h'.
Proof. by intros []. Qed.

Lemma now_ok h : host_ok h -> leaves host_ok (fun h' _ => host_ok h' /\ alike h h') (now h).
Proof.
  intros Hok. eapply leaves_weaken; [apply (now_alike h h); [done|apply alike_refl]|apply refused_ok|done].
Qed.

Lemma validate_response_authority_time_spec h class :
  host_ok h ->
  leaves host_ok (fun h' _ => host_ok h' /\ alike h h') (validate_response_authority_time h class).
Proof.
  intros Hok. unfold validate_response_authority_time.
  destruct (class_authority class); [|split; [done|apply alike_refl]].
  eapply leaves_bind; [by apply now_ok|]. intros h1 t [Hok1 Hal1].
  apply leaves_test; [done|]. intros st Hst%ok_or_Ok. guard; [|done].
  eapply invalidated_ok; [apply mark_authority_stale_spec|done].
Qed.

Lemma validate_deciding_approval_spec h id :
  host_ok h ->
  leaves host_ok (fun h' _ => host_ok h' /\ alike h h') (validate_deciding_approval h id).
Proof.
  intros Hok. unfold validate_deciding_approval.
  eapply leaves_bind; [by apply now_ok|]. intros h1 t [Hok1 Hal1].
  apply leaves_test; [done|]. intros a Ha%ok_or_Ok. guard; [done|].
  destruct (ha_phase a); [done|]. by destruct (is_none _).
Qed.

Lemma drop_approval h id : invalidated h (set_approvals h (delete id (wh_approvals h))).
Proof.
  split_and!; [by split| |done|apply delete_subseteq]. apply derived_shrink; [apply delete_subseteq|done].
Qed.

Lemma delete_derived_step h handle :
  invalidated h (set_authorities (invalidate_authority_derived h handle)
                   (delete handle (wh_authorities (invalidate_authority_derived h handle)))).
Proof.
  destruct (invalidate_authority_derived_spec h handle) as [Hi Hun].
  eapply invalidated_trans; [done|by apply delete_unbound].
Qed.

Lemma alter_is_insert {A} (f : A -> A) (m : gmap bytes A) k x :
  m !! k = Some x -> alter f k m = <[k := f x]> m.
Proof.
  intros Hk. apply map_eq. intros j. destruct (decide (j = k)) as [->|Hne].
  - by rewrite lookup_alter_eq, lookup_insert_eq, Hk.
  - by rewrite lookup_alter_ne, lookup_insert_ne.
Qed.

Lemma alter_absent {A} (f : A -> A) (m : gmap bytes A) k : m !! k = None -> alter f k m = m.
Proof.
  intros Hk. apply map_eq. intros j. destruct (decide (j = k)) as [->|Hne].
  - by rewrite lookup_alter_eq, Hk.
  - by rewrite lookup_alter_ne.
Qed.

(** Changing the phase of an authority without a binding, if it is there. *)
Lemma alter_phase_unbound h handle phase :
  derived_of h -> unbound (wh_authorities h) handle -> negotiated (wh_channel h) <> None ->
  phase_ok phase -> invalidated h (alter_authority h handle (fun st => with_phase st phase)).
Proof.
  intros Hd Hun Hneg Hph. unfold alter_authority.
  destruct (wh_authorities h !! handle) as [st|] eqn:Hst.
  - rewrite (alter_is_insert _ _ _ st) by done.
    apply replace_unbound; [done|by apply elem_of_dom; eauto|].
    apply authority_ok_unbound; [by apply Hd|by apply Hun|done|done].
  - rewrite alter_absent by done. split_and!; [by split|done..].
Qed.

Lemma apply_failure_spec h class code :
  host_ok h -> negotiated (wh_channel h) <> None ->
  invalidated h (apply_failure h class code)
  /\ forall handle revision id d method, class = RequestClass.Approval handle revision id d method ->
       wh_approvals (apply_failure h class code) !! id = None.
Proof.
  intros Hok Hneg.
  assert (forall handle revision, invalidated h
    (alter_authority (invalidate_authority_derived h handle) handle
       (fun st => with_phase st (AuthorityPhase.Stale revision)))) as Hstale.
  { intros handle revision. destruct (invalidate_authority_derived_spec h handle) as [Hi Hun].
    eapply invalidated_trans; [exact Hi|]. apply alter_phase_unbound; try done. apply (proj1 (proj2 Hi)), Hok. }
  unfold apply_failure.
  match goal with |- context [match code with _ => _ end] =>
    set (h1 := match class with RequestClass.Register _ => _ | _ => _ end) end.
  assert (invalidated h h1) as Hi1.
  { subst h1. destruct class; auto using delete_derived_step, drop_approval, invalidated_refl. }
  set (h2 := match code with ServiceErrorCode.InvalidFrame => _ | _ => _ end).
  assert (invalidated h1 h2) as Hi2.
  { subst h2. destruct code; try apply invalidated_refl;
      (destruct (class_authority class); [apply mark_authority_stale_spec|apply invalidated_refl]). }
  split; [by eapply invalidated_trans|]. intros handle revision id d method Hcl.
  destruct Hi2 as (_ & _ & _ & Hsub). eapply lookup_weaken_None; [|exact Hsub].
  subst h1. rewrite Hcl. cbn. apply lookup_delete_eq.
Qed.

Lemma guard_holds b c : negb b && c = false -> c = true -> b = true.
Proof. by destruct b, c. Qed.

Lemma existsb_elem {A} (p : A -> bool) l x : x ∈ l -> p x = true -> existsb p l = true.
Proof. intros Hin Hp. apply existsb_exists. exists x. split; [by apply list_elem_of_In|done]. Qed.

(** The checks on a snapshot are what [method_admitted] asks of each method. *)
Lemma methods_admitted s capabilities :
  let names := elements (methods capabilities) in
  forallb (fun method => negb (is_blank method) && (str_len method <=? MAX_METHOD_BYTES)
         && is_ascii method && bool_decide (method ∈ PROVIDER_METHOD_WIRE_NAMES)) names = true ->
  negb (bool_decide (ServiceCapability.ProviderDispatch ∈ ss_capabilities s)) && negb (is_empty names) = false ->
  negb (bool_decide (ServiceCapability.StructuredApprovals ∈ ss_capabilities s))
    && existsb approval_required_method names = false ->
  negb (bool_decide (ServiceCapability.WalletOperations ∈ ss_capabilities s))
    && bool_decide ("wallet_lock"%string ∈ methods capabilities) = false ->
  negb (bool_decide (ServiceCapability.ValueMovement ∈ ss_capabilities s))
    && existsb value_movement_method names = false ->
  forall method, method ∈ methods capabilities -> method_admitted (ss_capabilities s) method.
Proof.
  intros names Hall Hd Ha Hl Hv method Hm.
  assert (method ∈ names) as Hin by (by apply elem_of_elements).
  rewrite forallb_forall in Hall. specialize (Hall _ (proj1 (list_elem_of_In _ _) Hin)).
  split; [|intros; eapply bool_decide_eq_true_1..].
  - bool_prop. unfold method_known.
    assert ((MAX_METHOD_BYTES <? str_len method) = false) as -> by (by apply N.ltb_ge).
    repeat match goal with Hb : _ = _ :> bool |- _ => rewrite Hb; clear Hb end.
    by rewrite bool_decide_eq_true_2.
  - apply (guard_holds _ _ Hd). destruct names; [by apply elem_of_nil in Hin|done].
  - apply (guard_holds _ _ Ha). by eapply existsb_elem.
  - apply (guard_holds _ _ Hv). by eapply existsb_elem.
  - apply (guard_holds _ _ Hl). subst method. by apply bool_decide_eq_true_2.
Qed.

Lemma has_capability_Ok h c b :
  has_capability h c = Ok b ->
  exists s, wh_channel h = ChannelState.Ready s /\ b = bool_decide (c ∈ ss_capabilities s).
Proof. unfold has_capability. destruct (wh_channel h) as [|s|]; [done| |done]. intros [= <-]. by exists s. Qed.

Lemma install_capabilities_spec h handle revision binding capabilities :
  host_ok h ->
  leaves host_ok (fun h' _ => host_ok h' /\ invalidated h h'
      /\ pb_authority_handle binding = handle /\ pb_authority_revision binding = revision)
    (install_capabilities h handle revision binding capabilities).
Proof.
  intros Hok. unfold install_capabilities. guard as Hshape; [done|].
  apply leaves_test; [done|]. intros dispatch (s & Hs & ->)%has_capability_Ok.
  apply leaves_test; [done|]. intros value (s1 & Hs1 & ->)%has_capability_Ok.
  apply leaves_test; [done|]. intros approvals (s2 & Hs2 & ->)%has_capability_Ok.
  apply leaves_test; [done|]. intros operations (s3 & Hs3 & ->)%has_capability_Ok.
  assert (s1 = s /\ s2 = s /\ s3 = s) as (-> & -> & ->) by (split_and!; congruence).
  guard as Hgate; [done|].
  apply orb_false_elim in Hgate as [Hgate Hg1]. apply orb_false_elim in Hgate as [Hgate Hg2].
  apply orb_false_elim in Hgate as [Hg3 Hg4].
  apply leaves_test; [done|]. intros st Hst%ok_or_Ok.
  apply leaves_test; [done|]. intros r [Hr Hr0]%active_revision_Ok.
  guard as Heq; [done|]. bool_prop. subst r.
  eapply (leaves_bind _ (fun h' _ => invalidated h h'
    /\ (unbound (wh_authorities h') handle
        \/ exists st, wh_authorities h' !! handle = Some st /\ as_binding st = Some binding))).
  - destruct (as_binding st) as [current|] eqn:Hb.
    2: { split; [apply invalidated_refl|left]. intros st0 Hst0. congruence. }
    destruct (negb (bool_decide (pb_wallet_session_id current = _))) eqn:Hsess.
    { guard; [done|]. destruct (invalidate_all_provider_state_spec h) as [Hi Hun].
      split; [done|left; apply Hun]. }
    destruct (N.ltb_spec (pb_permission_generation binding) (pb_permission_generation current)); [done|].
    destruct (N.ltb_spec (pb_permission_generation current) (pb_permission_generation binding)).
    + eapply leaves_weaken; [apply invalidate_permission_scope_spec|by intros ? <-|].
      intros h1 [] [Hi Hun]. split; [done|by left].
    + split; [apply invalidated_refl|right]. exists st. split; [done|]. rewrite Hb. bool_prop.
      destruct (ao_binding _ _ _ (host_authority _ _ _ Hok Hst) _ Hb) as [Hrev Hh].
      assert (pb_authority_revision current = revision) as Hr' by congruence.
      destruct current, binding. simpl in *. subst. do 2 f_equal. lia.
  - intros h1 [] [Hi Hor]. eapply leaves_weaken.
    + apply bind_authority_spec; try done; [by eapply invalidated_ok|].
      intros c [= <-]. exists (ss_capabilities s). rewrite (s_channel _ _ (proj1 Hi)), Hs.
      split_and!; try done. by apply methods_admitted.
    + done.
    + intros h2 [] (? & Hi2 & _ & _). split_and!; [done|by eapply invalidated_trans|done..].
Qed.

(** Invalidate, then bind again without a snapshot. *)
Lemma rebind_spec h h1 handle revision e binding :
  host_ok h -> invalidated h h1 -> unbound (wh_authorities h1) handle ->
  pb_authority_handle binding = handle -> pb_authority_revision binding = revision ->
  leaves host_ok (fun h' _ => host_ok h' /\ invalidated h h' /\ exists st, bound (wh_authorities h') binding st)
    (bind_authority h1 handle revision e binding None).
Proof.
  intros Hok Hi Hun Hh Hr. eapply leaves_weaken.
  - apply bind_authority_spec; try done; [by eapply invalidated_ok|by left].
  - done.
  - intros h2 [] (? & Hi2 & _ & ?). split_and!; [done|by eapply invalidated_trans|done].
Qed.

Lemma apply_provider_binding_spec h handle revision method binding :
  host_ok h ->
  leaves host_ok (fun h' _ => host_ok h' /\ invalidated h h'
      /\ pb_authority_handle binding = handle /\ pb_authority_revision binding = revision)
    (apply_provider_binding h handle revision method binding).
Proof.
  intros Hok. unfold apply_provider_binding. guard as Hb; [done|]. bool_prop.
  apply leaves_test; [done|]. intros st Hst%ok_or_Ok.
  apply leaves_test; [done|]. intros r _. guard; [done|].
  apply leaves_test; [done|]. intros current Hcur%ok_or_Ok.
  destruct (permission_mutating_method method).
  { guard; [done|].
    eapply leaves_bind; [eapply leaves_weaken; [apply invalidate_permission_scope_spec|by intros ? <-|done]|].
    intros h1 [] [Hi Hun]. eapply leaves_weaken; [by eapply rebind_spec|done|]. by intros ?? (? & ? & _). }
  destruct (bool_decide (method = _)).
  { guard; [done|]. destruct (invalidate_all_provider_state_spec h) as [Hi Hun].
    eapply leaves_weaken; [by eapply rebind_spec|done|]. by intros ?? (? & ? & _). }
  guard; [done|]. destruct (capability_mutating_method method).
  - pose proof (invalidate_all_capability_snapshots_spec h) as Hi.
    split_and!; [by eapply invalidated_ok|done..].
  - split_and!; [done|apply invalidated_refl|done..].
Qed.

(** A prompt was accepted: a new approval under an identifier never seen in this
    session, bound to the authority as it stands. *)
Record prompted h h' handle revision method (p : ApprovalPrompt) : Prop := {
  pr_channel : wh_channel h' = wh_channel h;
  pr_pending : wh_pending h' = wh_pending h;
  pr_session : wh_host_session_id h' = wh_host_session_id h;
  pr_generation : wh_restart_generation h' = wh_restart_generation h;
  pr_new : approval_id p ∉ wh_issued_approval_ids h;
  pr_issued : wh_issued_approval_ids h' = {[approval_id p]} ∪ wh_issued_approval_ids h;
  pr_approvals : exists kept, kept ⊆ wh_approvals h
    /\ wh_approvals h' = <[approval_id p := mkHostApproval p Available]> kept;
  pr_handle : pb_authority_handle (ap_binding p) = handle;
  pr_revision : pb_authority_revision (ap_binding p) = revision;
  pr_method : ap_method p = method;
}.

Lemma class_ok_mono issued issued' id class :
  issued ⊆ issued' -> class_ok issued id class -> class_ok issued' id class.
Proof. intros Hs Hc ????? Heq. apply Hs. by eapply Hc. Qed.

Lemma add_approval_ok h p st :
  host_ok h -> count (wh_approvals h) < MAX_PENDING_APPROVALS ->
  set_len (wh_issued_approval_ids h) < MAX_ISSUED_APPROVAL_IDS ->
  approval_id p ∉ wh_issued_approval_ids h -> approval_required_method (ap_method p) = true ->
  bound (wh_authorities h) (ap_binding p) st -> haf_origin (as_facts st) = ap_origin p ->
  host_ok (set_issued_approval_ids (set_approvals h (<[approval_id p := mkHostApproval p Available]>
             (wh_approvals h))) ({[approval_id p]} ∪ wh_issued_approval_ids h)).
Proof.
  intros [[] Hl] Hc Hi Hnew Hreq Hb Ho. split; [split; cbn; try done|].
  - destruct co_derived as [H1' H2' H3']. split; [done| |done]. apply map_Forall_insert_2.
    + split; cbn; [done|set_solver|done|by exists st].
    + eapply map_Forall_impl; [exact H2'|]. intros k a []. split; try done. set_solver.
  - eapply map_Forall_impl; [exact co_pending|]. intros k c. apply class_ok_mono. set_solver.
  - pose proof (count_insert_le (wh_approvals h) (approval_id p) (mkHostApproval p Available)). lia.
  - unfold set_len in *. rewrite size_union, size_singleton by set_solver. lia.
  - apply map_Forall_insert_2; [by intros r|exact Hl].
Qed.

Lemma install_approval_spec h handle revision method p :
  host_ok h -> approval_required_method method = true ->
  leaves host_ok (fun h' _ => host_ok h' /\ prompted h h' handle revision method p)
    (install_approval h handle revision method p).
Proof.
  intros Hok Hreq. unfold install_approval.
  eapply leaves_bind; [by apply now_ok|]. intros h1 t [Hok1 Hal1].
  match goal with |- context [retain ?p (wh_approvals h1)] => set (alive := p) end.
  assert (invalidated h1 (set_approvals h1 (retain alive (wh_approvals h1)))) as Hi.
  { split_and!; [by split| |done|apply retain_subseteq]. apply derived_shrink; [apply retain_subseteq|done]. }
  pose proof (invalidated_ok _ _ Hi Hok1) as Hok2.
  set (h2 := set_approvals h1 (retain alive (wh_approvals h1))) in *.
  destruct (N.leb_spec MAX_PENDING_APPROVALS (count (wh_approvals h2))); [done|].
  destruct (N.leb_spec MAX_ISSUED_APPROVAL_IDS (set_len (wh_issued_approval_ids h2))); [done|].
  destruct (bool_decide (_ ∈ _)) eqn:Hnew; [done|]. bool_prop.
  apply leaves_test; [done|]. intros [] _.
  apply leaves_test; [done|]. intros st Hst%ok_or_Ok.
  apply leaves_test; [done|]. intros r _.
  guard as Hb; [done|]. bool_prop. split.
  - eapply (add_approval_ok h2); try done; [congruence|split; [|done]]. congruence.
  - destruct Hal1 as ([] & _ & Hap & _). split; cbn; try congruence; try done.
    + by rewrite <- s_issued.
    + exists (retain alive (wh_approvals h1)). split; [|done]. rewrite Hap. apply retain_subseteq.
Qed.

(** The contract between a request and its response. *)
Definition answers (request : ServiceRequest Value) (response : ServiceResponse Value) : Prop :=
  match response with
  | Failure failure => is_protocol_failure (code failure) = false
  | AuthorityRegistered handle revision =>
      revision = 1 /\ exists facts, request = RegisterAuthority handle facts
  | AuthorityReplaced handle revision =>
      exists old facts, request = ReplaceAuthority handle old facts /\ revision = old + 1
  | AuthorityRevoked handle => exists revision, request = RevokeAuthority handle revision
  | CapabilitiesResponse b _ =>
      request = ProviderCapabilities (pb_authority_handle b) (pb_authority_revision b)
  | ProviderResult b _ =>
      (exists nonce method params, approval_required_method method = false
         /\ request = ProviderRequest (pb_authority_handle b) (pb_authority_revision b) nonce method params)
      \/ (exists id, request = DecideApproval (pb_authority_handle b) (pb_authority_revision b) id
                                ApprovalDecision.Approve)
  | ApprovalRequired p =>
      approval_required_method (ap_method p) = true
      /\ exists nonce params, request = ProviderRequest (pb_authority_handle (ap_binding p))
           (pb_authority_revision (ap_binding p)) nonce (ap_method p) params
  | ApprovalRejected id =>
      exists handle revision, request = DecideApproval handle revision id ApprovalDecision.Reject
  | WalletResult response => exists r, request = Wallet r
      /\ wallet_class_matches (wallet_class_for_request r) response = true
  | WalletAuthorityResponse context => exists r, request = WalletAuthority r
      /\ authority_context_matches r context = true
  end.

(** The stricter read surface accepts no response of another class. *)
Lemma hns_read_class request class response :
  hns_read_for_request request = Ok class -> hns_read_matches class response = true ->
  wallet_class_matches (wallet_class_for_request request) response = true.
Proof.
  intros Hr Hm. destruct request as [| | | | | |m|m|m|m|]; simpl in Hr; try done;
    try (destruct m; [|done..]); simplify_eq; by destruct response.
Qed.

(** What a response changed: it dropped derived state, or it added a prompt. *)
Definition responded h h' (response : ServiceResponse Value) : Prop :=
  invalidated h h'
  \/ exists p handle revision method, response = ApprovalRequired p /\ prompted h h' handle revision method p.

(** No approval waits for the decision in request [r] any more. *)
Definition undecided h r : Prop :=
  forall k a, wh_approvals h !! k = Some a -> ha_phase a <> Deciding r.

Lemma undecided_other h r class :
  linked h -> wh_pending h !! r = Some class ->
  (forall handle revision id d method, class <> RequestClass.Approval handle revision id d method) ->
  undecided h r.
Proof.
  intros Hl Hr Hne k a Hk Hph. destruct (Hl k a Hk r Hph) as (d & Hd). rewrite Hr in Hd.
  simplify_eq. by eapply Hne.
Qed.

Lemma undecided_dropped h r handle revision id d method :
  linked h -> wh_pending h !! r = Some (RequestClass.Approval handle revision id d method) ->
  wh_approvals h !! id = None -> undecided h r.
Proof.
  intros Hl Hr Hn k a Hk Hph. destruct (Hl k a Hk r Hph) as (d' & Hd).
  assert (k = id) as -> by (unfold decision_class in Hd; congruence). congruence.
Qed.

Definition response_result h r class (response : ServiceResponse Value) h' : Prop :=
  host_ok h' /\ responded h h' response /\ undecided h' r
  /\ forall request, class_for request class -> answers request response.

Lemma result_invalidated h r class response h' :
  host_ok h -> wh_pending h !! r = Some class -> invalidated h h' ->
  (forall handle revision id d method, class = RequestClass.Approval handle revision id d method ->
     wh_approvals h' !! id = None) ->
  (forall request, class_for request class -> answers request response) ->
  response_result h r class response h'.
Proof.
  intros Hok Hr Hi Hdrop Hans. pose proof (invalidated_ok _ _ Hi Hok) as Hok'.
  split_and!; [done|by left| |done].
  assert (wh_pending h' !! r = Some class) as Hr' by (by rewrite (s_pending _ _ (proj1 Hi))).
  destruct class; try (by eapply undecided_other; [apply Hok'|exact Hr'|]).
  eapply undecided_dropped; [apply Hok'|exact Hr'|by eapply Hdrop].
Qed.

Lemma apply_response_failure h class failure :
  apply_response h class (@Failure Value failure)
  = if is_protocol_failure (code failure) then (h, Err HostError.ReportedProtocolFailure)
    else (apply_failure h class (code failure), Ok tt).
Proof. by destruct class as [| | | | |? ? ? []| | |]. Qed.

(** An authority without binding, which a registration or replacement activates. *)
Lemma activate_ok h handle st facts revision :
  host_ok h -> negotiated (wh_channel h) <> None -> wh_authorities h !! handle = Some st ->
  (forall r, as_phase st <> AuthorityPhase.Active r) -> validate_authority facts = Ok tt ->
  revision <> 0 ->
  invalidated h (set_authorities h (<[handle := mkAuthority facts (AuthorityPhase.Active revision)
                   (as_binding st) (as_capabilities st)]> (wh_authorities h))).
Proof.
  intros Hok Hneg Hst Hph Hf Hr.
  destruct (host_authority _ _ _ Hok Hst) as [_ _ _ Hb Hs].
  assert (as_binding st = None) as Hn.
  { destruct (as_binding st) as [b|]; [|done]. by destruct (Hb b eq_refl) as [?%Hph _]. }
  assert (as_capabilities st = None) as Hc.
  { destruct (as_capabilities st) as [c|]; [|done]. destruct (Hs c eq_refl) as (b & _ & ? & _). congruence. }
  apply replace_unbound; [by intros st0 ?; simplify_eq|by apply elem_of_dom; eauto|].
  rewrite Hn, Hc. by split.
Qed.

(** What the request was, from the class it is filed under. *)
Ltac of_class := let Hf := fresh in intros ? Hf; inversion Hf; subst; cbn; eauto 6.

Lemma apply_authority_response h r class response :
  host_ok h -> negotiated (wh_channel h) <> None -> wh_pending h !! r = Some class ->
  match response with
  | AuthorityRegistered _ _ | AuthorityReplaced _ _ | AuthorityRevoked _ | CapabilitiesResponse _ _ => True
  | _ => False
  end ->
  leaves host_ok (fun h' _ => response_result h r class response h') (apply_response h class response).
Proof.
  intros Hok Hneg Hr Hkind. destruct response as [hd rv|hd rv|hd|b c| | | | | |]; try done;
    destruct class as [handle|handle rev facts|handle rev|handle rev| |? ? ? []| | |];
    try done; unfold apply_response.
  - guard as Hg; [|done]. bool_prop. subst. apply leaves_test; [done|]. intros st Hst%ok_or_Ok.
    destruct (as_phase st) eqn:Hp; try done. apply result_invalidated; [done|done| |done|of_class].
    apply activate_ok; try done; [by rewrite Hp|]. apply (host_authority _ _ _ Hok Hst).
  - guard as Hg; [|done]. bool_prop. subst. apply leaves_test; [done|]. intros st Hst%ok_or_Ok.
    destruct (as_phase st) as [| | |rev' pr| |] eqn:Hp; try done. guard as Hg2; [|done]. bool_prop. subst.
    apply result_invalidated; [done|done| |done|of_class].
    apply activate_ok; try done; [by rewrite Hp| |lia].
    pose proof (ao_phase _ _ _ (host_authority _ _ _ Hok Hst)) as Hph. rewrite Hp in Hph. apply Hph.
  - guard as Hg; [|done]. bool_prop. subst. apply leaves_test; [done|]. intros st Hst%ok_or_Ok.
    destruct (as_phase st) eqn:Hp; try done. guard; [|done].
    apply result_invalidated; [done|done|apply delete_derived_step|done|of_class].
  - eapply leaves_weaken; [by apply install_capabilities_spec|done|].
    intros h' [] (? & Hi & <- & <-). apply result_invalidated; [done..|of_class].
Qed.

Lemma apply_response_spec h r class response :
  host_ok h -> negotiated (wh_channel h) <> None -> wh_pending h !! r = Some class ->
  leaves host_ok (fun h' _ => response_result h r class response h') (apply_response h class response).
Proof.
  intros Hok Hneg Hr. destruct response as [| | | |b v|p|id'|w|ctx|f];
    try (by apply apply_authority_response); [..|rewrite apply_response_failure].
  6: { destruct (apply_failure_spec h class (code f) Hok Hneg) as [Hi Hd].
       guard as Hp; [done|]. by apply result_invalidated. }
  all: destruct class as [| | | |handle rev method|handle rev id [] method|c|c|rq]; try done;
    unfold apply_response.
  - guard as Hg; [done|]. eapply leaves_weaken; [by apply apply_provider_binding_spec|done|].
    intros h' [] (? & Hi & <- & <-). apply result_invalidated; [done..|of_class].
  - eapply leaves_bind; [by apply validate_deciding_approval_spec|]. intros h1 [] [Hok1 Hal1].
    eapply leaves_bind; [by apply apply_provider_binding_spec|]. intros h2 [] (Hok2 & Hi2 & <- & <-).
    apply result_invalidated; [done|done| |by intros ????? [= <- <- <- <- <-]; apply lookup_delete_eq|of_class].
    eapply invalidated_trans; [by apply alike_invalidated|].
    eapply invalidated_trans; [exact Hi2|apply drop_approval].
  - guard as Hg; [|done]. apply leaves_test; [done|]. intros [] _.
    eapply leaves_weaken; [by apply install_approval_spec|done|]. intros h' [] [Hok' Hpr].
    split_and!; [done|by right; do 4 eexists| |].
    + eapply undecided_other; [apply Hok'|by rewrite (pr_pending _ _ _ _ _ _ Hpr)|done].
    + destruct Hpr. subst. of_class.
  - guard as Hg; [|done]. bool_prop. subst.
    eapply leaves_bind; [by apply validate_deciding_approval_spec|]. intros h1 [] [Hok1 Hal1].
    apply result_invalidated; [done|done| |by intros ????? [= <- <- <- <- <-]; apply lookup_delete_eq|of_class].
    eapply invalidated_trans; [by apply alike_invalidated|apply drop_approval].
  - guard as Hg; [|done]. apply result_invalidated; [done|done| |done|of_class].
    destruct (rotates_wallet w); [apply invalidate_all_provider_state_spec|apply invalidated_refl].
  - guard as Hg; [|done]. apply result_invalidated; [done|done|apply invalidated_refl|done|].
    intros ? Hf. inversion Hf; subst. eexists. split; [done|]. by eapply hns_read_class.
  - guard as Hg; [|done]. apply result_invalidated; [done|done|apply invalidated_refl|done|of_class].
Qed.

(** ** Events *)

Lemma follow_event_binding_spec h event st current revision :
  host_ok h -> wh_authorities h !! pb_authority_handle (ev_binding event) = Some st ->
  as_binding st = Some current -> pb_authority_revision (ev_binding event) = revision ->
  leaves host_ok (fun h' _ => host_ok h' /\ invalidated h h'
      /\ exists st', bound (wh_authorities h') (ev_binding event) st')
    (follow_event_binding h event revision current).
Proof.
  intros Hok Hst Hb Hrev. unfold follow_event_binding. guard as Heq.
  { bool_prop. split_and!; [done|apply invalidated_refl|]. exists st. split; [done|congruence]. }
  guard; [done|].
  eapply (leaves_bind _ (fun h' _ => invalidated h h'
    /\ unbound (wh_authorities h') (pb_authority_handle (ev_binding event)))).
  - guard.
    + destruct (invalidate_all_provider_state_spec h) as [Hi Hun]. by split.
    + eapply leaves_weaken; [apply invalidate_permission_scope_spec|by intros ? <-|done].
  - intros h1 [] [Hi Hun]. by eapply rebind_spec.
Qed.

Lemma set_cursor h b st n :
  bound (wh_authorities h) b st ->
  invalidated h (set_event_cursors h (<[from_binding b := n]> (wh_event_cursors h))).
Proof.
  intros Hb. split_and!; [by split| |done|done]. intros []. split; [done|done|].
  apply map_Forall_insert_2; [by exists b, st|done].
Qed.

Lemma validate_and_apply_event_spec h event t :
  host_ok h ->
  leaves host_ok (fun h' _ => host_ok h' /\ invalidated h h') (validate_and_apply_event h event t).
Proof.
  intros Hok. unfold validate_and_apply_event.
  apply leaves_test; [done|]. intros st Hst%ok_or_Ok.
  apply leaves_test; [done|]. intros revision _.
  apply leaves_test; [done|]. intros current Hcur%ok_or_Ok.
  guard as Hrev; [done|]. bool_prop. guard; [done|].
  eapply leaves_bind; [by eapply follow_event_binding_spec|]. intros h1 [] (Hok1 & Hi1 & Hb1).
  apply leaves_test; [done|]. intros [] _. apply leaves_test; [done|]. intros expected _.
  guard; [done|].
  eapply (leaves_bind _ (fun h' _ => host_ok h' /\ invalidated h h'
    /\ exists st', bound (wh_authorities h') (ev_binding event) st')).
  - destruct (ev_payload event); try done.
    eapply leaves_bind; [eapply leaves_weaken; [apply invalidate_permission_scope_spec|by intros ? <-|done]|].
    intros h2 [] [Hi2 Hun]. eapply leaves_weaken; [by eapply rebind_spec|done|].
    intros h3 [] (? & ? & ?). split_and!; [done|by eapply invalidated_trans|done].
  - intros h2 [] (Hok2 & Hi2 & st2 & Hb2).
    assert (invalidated h (set_event_cursors h2 (<[from_binding (ev_binding event) := ev_event_sequence event]>
              (wh_event_cursors h2)))) as Hi3.
    { eapply invalidated_trans; [exact Hi2|by eapply set_cursor]. }
    set (h3 := set_event_cursors h2 _) in *.
    match goal with |- leaves _ _ (?h', _) => assert (invalidated h3 h') as Hi4 end.
    { destruct (ev_payload event) as [|[]| | | | | | | | | |]; auto using mark_authority_stale_spec,
        invalidate_all_capability_snapshots_spec, invalidated_refl;
        apply invalidate_all_provider_state_spec. }
    split; [|by eapply invalidated_trans]. eapply invalidated_ok; [|exact Hok].
    by eapply invalidated_trans.
Qed.

(** ** Frames *)

Lemma validate_service_header_Ok h pv hs ss rg cs next :
  validate_service_header h pv hs ss rg cs = Ok next ->
  exists s, wh_channel h = ChannelState.Ready s /\ hs = wh_host_session_id h
    /\ ss = ss_service_session_id s /\ rg = wh_restart_generation h
    /\ cs = next_service_sequence s /\ next = cs + 1 /\ next <= U64_MAX.
Proof.
  unfold validate_service_header. destruct (wh_channel h) as [|s|]; [done| |done].
  intros Hv. run_in Hv. bool_prop. exists s. split_and!; try done; lia.
Qed.

Definition with_service_sequence (s : SessionState) (next : N) : ChannelState.t :=
  ChannelState.Ready (mkSession (ss_service_session_id s) (ss_capabilities s)
                        (next_host_sequence s) next).

Lemma set_next_service_sequence_spec h s next :
  host_ok h -> wh_channel h = ChannelState.Ready s -> 1 <= next <= U64_MAX ->
  set_next_service_sequence h next = (set_channel h (with_service_sequence s next), Ok tt)
  /\ host_ok (set_channel h (with_service_sequence s next)).
Proof.
  intros [[] Hl] Hch Hn. unfold set_next_service_sequence. rewrite Hch in *. split; [done|].
  split; [split; cbn; try done|done]. split; [apply co_channel|done].
Qed.

(** A negotiated session starts both counters. *)
Definition negotiates h h' : Prop :=
  wh_channel h = ChannelState.AwaitingHello
  /\ exists sid caps, h' = set_channel h (ChannelState.Ready (mkSession sid caps 1 1)).

(** The next number of the service was used. *)
Definition next_frame h h' : Prop :=
  exists s, wh_channel h = ChannelState.Ready s
    /\ wh_channel h' = with_service_sequence s (next_service_sequence s + 1)
    /\ next_service_sequence s + 1 <= U64_MAX.

(** A response was taken: it answers a pending request, which is pending no more. *)
Record takes_response h h' (id : bytes) (response : ServiceResponse Value) : Prop := {
  tr_next : next_frame h h';
  tr_session : wh_host_session_id h' = wh_host_session_id h;
  tr_generation : wh_restart_generation h' = wh_restart_generation h;
  tr_pending : wh_pending h' = delete id (wh_pending h);
  tr_answers : exists class, wh_pending h !! id = Some class
    /\ forall request, class_for request class -> answers request response;
  tr_approvals : (wh_approvals h' ⊆ wh_approvals h /\ wh_issued_approval_ids h' = wh_issued_approval_ids h)
    \/ exists p kept, response = ApprovalRequired p /\ (approval_id p ∉ wh_issued_approval_ids h)
         /\ wh_issued_approval_ids h' = {[approval_id p]} ∪ wh_issued_approval_ids h
         /\ kept ⊆ wh_approvals h
         /\ wh_approvals h' = <[approval_id p := mkHostApproval p Available]> kept;
}.

Record takes_event h h' : Prop := {
  te_next : next_frame h h';
  te_session : wh_host_session_id h' = wh_host_session_id h;
  te_generation : wh_restart_generation h' = wh_restart_generation h;
  te_pending : wh_pending h' = wh_pending h;
  te_issued : wh_issued_approval_ids h' = wh_issued_approval_ids h;
  te_approvals : wh_approvals h' ⊆ wh_approvals h;
}.

Definition takes h h' (o : HostOutput.t Value) : Prop :=
  match o with
  | HostOutput.Negotiated _ => negotiates h h'
  | HostOutput.Response r => takes_response h h' (ar_request_id r) (ar_response r)
  | HostOutput.Event _ => takes_event h h'
  end.

Lemma accept_hello_spec h hello :
  host_ok h -> leaves host_ok (fun h' o => host_ok h' /\ takes h h' o) (accept_hello h hello).
Proof.
  intros Hok. unfold accept_hello. destruct (wh_channel h) eqn:Hch; [|done..].
  guard as Hg; [done|]. split; [|split; [done|by do 2 eexists]].
  destruct Hok as [[] Hl]. rewrite Hch in *. split; [split; cbn; try done|done].
  destruct co_derived as [Ha Hp Hc]. split; [|done|done].
  eapply map_Forall_impl; [exact Ha|]. intros k st [Hf Hph Hi Hb Hs]. split; try done.
  intros c Hcap. by destruct (Hs c Hcap) as (b & g & _ & [=] & _).
Qed.

Lemma responded_fields h h' response :
  responded h h' response ->
  wh_channel h' = wh_channel h /\ wh_pending h' = wh_pending h
  /\ wh_host_session_id h' = wh_host_session_id h
  /\ wh_restart_generation h' = wh_restart_generation h.
Proof. by intros [([] & _)|(p & ? & ? & ? & _ & [])]. Qed.

Lemma accept_response_spec h envelope :
  host_ok h -> leaves host_ok (fun h' o => host_ok h' /\ takes h h' o) (accept_response h envelope).
Proof.
  intros Hok. unfold accept_response. apply leaves_test; [done|].
  intros next (s & Hch & _ & _ & _ & Hseq & -> & Hmax)%validate_service_header_Ok. rewrite Hseq in *.
  apply leaves_test; [done|]. intros class Hclass%ok_or_Ok.
  eapply leaves_bind; [by apply validate_response_authority_time_spec|]. intros h1 [] [Hok1 Hal1].
  assert (wh_channel h1 = ChannelState.Ready s) as Hch1 by (destruct Hal1 as ([] & _); congruence).
  assert (wh_pending h1 !! request_id envelope = Some class) as Hclass1 by (destruct Hal1 as ([] & _); congruence).
  eapply leaves_bind; [apply (apply_response_spec h1 (request_id envelope)); [done|by rewrite Hch1|done]|].
  intros h2 [] (Hok2 & Hresp & Hun & Hans). destruct (responded_fields _ _ _ Hresp) as (Hc2 & Hp2 & Hs2 & Hg2).
  rewrite Hp2, Hclass1. cbn [ok_or].
  pose proof (forget_request_ok h2 (request_id envelope) Hok2 Hun) as Hok3.
  set (h3 := forget_request h2 (request_id envelope)) in *.
  assert (wh_channel h3 = ChannelState.Ready s) as Hch3.
  { unfold h3. rewrite forget_request_form. cbn. congruence. }
  destruct (set_next_service_sequence_spec h3 s (next_service_sequence s + 1)) as [-> Hok4]; [done|done|lia|].
  split; [exact Hok4|]. unfold takes, h3. rewrite forget_request_form. destruct Hal1 as ([] & Ha1 & Hap1 & _).
  split; cbn; try congruence.
  - by exists s.
  - exists class. split; [done|]. exact Hans.
  - destruct Hresp as [([] & _ & _ & Hsub)|(p & ? & ? & ? & -> & [])].
    + left. split; [by rewrite <- Hap1|congruence].
    + right. destruct pr_approvals0 as (kept & Hk & Heq). exists p, kept. rewrite <- Hap1.
      split_and!; try congruence; try done.
Qed.

Lemma accept_event_spec h event :
  host_ok h -> leaves host_ok (fun h' o => host_ok h' /\ takes h h' o) (accept_event h event).
Proof.
  intros Hok. unfold accept_event. apply leaves_test; [done|]. intros [] _.
  apply leaves_test; [done|].
  intros next (s & Hch & _ & _ & _ & Hseq & -> & Hmax)%validate_service_header_Ok. rewrite Hseq in *.
  eapply leaves_bind; [by apply now_ok|]. intros h1 t [Hok1 Hal1].
  eapply leaves_bind; [by apply validate_and_apply_event_spec|]. intros h2 [] [Hok2 Hi2].
  pose proof (invalidated_trans _ _ _ (alike_invalidated _ _ Hal1) Hi2) as ([] & _ & _ & Hsub).
  destruct (set_next_service_sequence_spec h2 s (next_service_sequence s + 1)) as [-> Hok3];
    [done|congruence|lia|].
  split; [exact Hok3|]. split; cbn; try congruence; [by exists s|done].
Qed.

(** What a refused frame leaves: nothing of the session. *)
Record poisoned h h' : Prop := {
  po_channel : wh_channel h' = ChannelState.Failed;
  po_pending : wh_pending h' = ∅;
  po_approvals : wh_approvals h' = ∅;
  po_cursors : wh_event_cursors h' = ∅;
  po_authorities : map_Forall (fun _ st => as_phase st = AuthorityPhase.Detached
    /\ as_binding st = None /\ as_capabilities st = None) (wh_authorities h');
}.

Lemma poison_poisoned h : poisoned h (poison_channel h).
Proof.
  split; try done. intros k st. cbn. rewrite lookup_omap. intros (st0 & _ & Hd)%bind_Some.
  unfold detach in Hd. by destruct (as_phase st0); simplify_eq.
Qed.

Lemma accept_service_frame_spec h frame :
  host_ok h ->
  leaves (fun h' => host_ok h' /\ poisoned h h') (fun h' o => host_ok h' /\ takes h h' o)
    (accept_service_frame h frame).
Proof.
  intros Hok. unfold accept_service_frame.
  assert (leaves host_ok (fun h' o => host_ok h' /\ takes h h' o) (accept_service_frame_inner h frame)) as Hl.
  { destruct frame; [by apply accept_hello_spec|by apply accept_response_spec|by apply accept_event_spec]. }
  destruct (accept_service_frame_inner h frame) as [h1 [o|e]]; cbn in *; [done|].
  split; [by apply poison_ok|]. destruct (poison_poisoned h1). by split.
Qed.

(** ** Identifiers of approvals *)

(** Identifiers of approvals are never dropped within a session, not even by a
    frame that is refused half-way. *)
Definition remembers {A : Type} (ids : gset bytes) (p : WalletHost C E * result A HostError.t) : Prop :=
  leaves (fun h => ids ⊆ wh_issued_approval_ids h) (fun h _ => ids ⊆ wh_issued_approval_ids h) p.

Lemma invalidated_remembers ids h h' :
  invalidated h h' -> ids ⊆ wh_issued_approval_ids h -> ids ⊆ wh_issued_approval_ids h'.
Proof. by intros ([] & _) ?; rewrite s_issued. Qed.

Lemma now_remembers ids h : ids ⊆ wh_issued_approval_ids h -> remembers ids (now h).
Proof.
  intros Hi. unfold remembers, now. destruct (now_unix_ms (wh_clock h)) as [c [t|e]]; cbn; [|done].
  by destruct (is_some_and _ _).
Qed.

Lemma scope_remembers ids h handle :
  ids ⊆ wh_issued_approval_ids h -> remembers ids (invalidate_permission_scope h handle).
Proof.
  intros Hi. eapply leaves_weaken; [apply invalidate_permission_scope_spec|by intros ? <-|].
  intros h' _ [? _]. by eapply invalidated_remembers.
Qed.

Lemma bind_remembers ids h handle revision e binding capabilities :
  ids ⊆ wh_issued_approval_ids h -> remembers ids (bind_authority h handle revision e binding capabilities).
Proof.
  intros Hi. unfold remembers, bind_authority. do 2 (apply leaves_test; [done|intros ? _]). by guard.
Qed.

Lemma install_capabilities_remembers ids h handle revision binding capabilities :
  ids ⊆ wh_issued_approval_ids h ->
  remembers ids (install_capabilities h handle revision binding capabilities).
Proof.
  intros Hi. unfold install_capabilities. unfold remembers at 1.
  guard; [done|]. do 4 (apply leaves_test; [done|intros ? _]). guard; [done|].
  do 2 (apply leaves_test; [done|intros ? _]). guard; [done|].
  eapply (leaves_bind _ (fun h _ => ids ⊆ wh_issued_approval_ids h)); [|intros h1 ? Hi1; by apply bind_remembers].
  destruct (as_binding _); [|done]. guard; [by guard|]. guard; [done|]. guard; [|done].
  by apply scope_remembers.
Qed.

Lemma install_approval_remembers ids h handle revision method p :
  ids ⊆ wh_issued_approval_ids h -> remembers ids (install_approval h handle revision method p).
Proof.
  intros Hi. unfold install_approval, remembers.
  eapply leaves_bind; [by apply now_remembers|]. intros h1 t Hi1. do 3 (guard; [done|]).
  do 3 (apply leaves_test; [done|intros ? _]). guard; [done|]. cbn. by apply union_subseteq_r'.
Qed.

Lemma deciding_remembers ids h id :
  ids ⊆ wh_issued_approval_ids h -> remembers ids (validate_deciding_approval h id).
Proof.
  intros Hi. unfold remembers, validate_deciding_approval.
  eapply leaves_bind; [by apply now_remembers|]. intros h1 t Hi1. apply leaves_test; [done|intros a _].
  guard; [done|]. destruct (ha_phase a); [done|]. by guard.
Qed.

Lemma provider_binding_remembers ids h handle revision method binding :
  ids ⊆ wh_issued_approval_ids h -> remembers ids (apply_provider_binding h handle revision method binding).
Proof.
  intros Hi. unfold remembers, apply_provider_binding. guard; [done|].
  do 2 (apply leaves_test; [done|intros ? _]). guard; [done|]. apply leaves_test; [done|intros ? _].
  guard. { guard; [done|]. eapply leaves_bind; [by apply scope_remembers|]. intros. by apply bind_remembers. }
  guard. { guard; [done|]. by apply bind_remembers. }
  guard; [done|]. by guard.
Qed.

Lemma time_remembers ids h class :
  ids ⊆ wh_issued_approval_ids h -> remembers ids (validate_response_authority_time h class).
Proof.
  intros Hi. unfold remembers, validate_response_authority_time. destruct (class_authority class); [|done].
  eapply leaves_bind; [by apply now_remembers|]. intros h1 t Hi1. apply leaves_test; [done|intros ? _].
  guard; [|done]. by eapply invalidated_remembers; [apply mark_authority_stale_spec|].
Qed.

Lemma failure_remembers ids h class code :
  ids ⊆ wh_issued_approval_ids h -> ids ⊆ wh_issued_approval_ids (apply_failure h class code).
Proof.
  intros Hi. unfold apply_failure.
  match goal with |- context [match code with _ => _ end] =>
    set (h1 := match class with RequestClass.Register _ => _ | _ => _ end) end.
  assert (ids ⊆ wh_issued_approval_ids h1) by (subst h1; by destruct class).
  destruct code; try done; destruct (class_authority class); try done;
    (eapply invalidated_remembers; [apply mark_authority_stale_spec|done]).
Qed.

Lemma response_remembers ids h class (response : ServiceResponse Value) :
  ids ⊆ wh_issued_approval_ids h -> remembers ids (apply_response h class response).
Proof.
  intros Hi. unfold remembers, apply_response.
  destruct class as [| | | | |? ? ? []| | |], response; try done; try guard; try done;
    try (by apply install_capabilities_remembers); try (by apply provider_binding_remembers);
    try (by apply failure_remembers); try (by destruct (rotates_wallet _)).
  all: try (apply leaves_test; [done|]; intros st _; try (by apply install_approval_remembers);
            destruct (as_phase st); try done; by guard).
  - eapply leaves_bind; [by apply deciding_remembers|]. intros h1 [] Hi1.
    by eapply leaves_bind; [by apply provider_binding_remembers|].
  - by eapply leaves_bind; [by apply deciding_remembers|].
Qed.

Lemma event_remembers ids h event t :
  ids ⊆ wh_issued_approval_ids h -> remembers ids (validate_and_apply_event h event t).
Proof.
  intros Hi. unfold remembers, validate_and_apply_event.
  do 3 (apply leaves_test; [done|intros ? _]). guard; [done|]. guard; [done|].
  eapply (leaves_bind _ (fun h _ => ids ⊆ wh_issued_approval_ids h)).
  { unfold follow_event_binding. guard; [done|]. guard; [done|].
    eapply (leaves_bind _ (fun h _ => ids ⊆ wh_issued_approval_ids h)); [|intros; by apply bind_remembers].
    guard; [done|by apply scope_remembers]. }
  intros h1 [] Hi1. do 2 (apply leaves_test; [done|intros ? _]). guard; [done|].
  eapply (leaves_bind _ (fun h _ => ids ⊆ wh_issued_approval_ids h)).
  { destruct (ev_payload event); try done. eapply leaves_bind; [by apply scope_remembers|].
    intros. by apply bind_remembers. }
  intros h2 [] Hi2. cbn [leaves].
  destruct (ev_payload event) as [|[]| | | | | | | | | |]; try done;
    (eapply invalidated_remembers; [apply mark_authority_stale_spec|done]).
Qed.

Lemma accept_remembers ids h (frame : ServiceFrame Value) :
  ids ⊆ wh_issued_approval_ids h -> ids ⊆ wh_issued_approval_ids (accept_service_frame h frame).1.
Proof.
  intros Hi. unfold accept_service_frame.
  assert (remembers ids (accept_service_frame_inner h frame)) as Hl.
  { unfold remembers. destruct frame; cbn [accept_service_frame_inner].
    - unfold accept_hello. destruct (wh_channel h); try done. by guard.
    - unfold accept_response. do 2 (apply leaves_test; [done|]; intros ? _).
      eapply leaves_bind; [by apply time_remembers|]. intros h1 [] Hi1.
      eapply leaves_bind; [by apply response_remembers|]. intros h2 [] Hi2.
      apply leaves_test; [done|]. intros ? _. rewrite forget_request_form.
      unfold set_next_service_sequence. cbn. by destruct (wh_channel h2).
    - unfold accept_event. do 2 (apply leaves_test; [done|]; intros ? _).
      eapply leaves_bind; [by apply now_remembers|]. intros h1 t Hi1.
      eapply leaves_bind; [by apply event_remembers|]. intros h2 [] Hi2.
      unfold set_next_service_sequence. by destruct (wh_channel h2). }
  by destruct (accept_service_frame_inner h frame) as [h1 [o|e]].
Qed.

(** ** One call *)

(** The effect of a call, by what it gave. *)
Definition effect (call : Call Value) h h' (o : Outcome Value) : Prop :=
  match o with
  | Refused _ => quiet h h' \/ wh_channel h' = ChannelState.Failed
      /\ wh_issued_approval_ids h ⊆ wh_issued_approval_ids h'
  | Returned => quiet h h'
  | Sent (HostHelloFrame hello) => greets h' (HostHelloFrame hello)
      /\ ((exists g, call = Reset g)
          \/ (exists g, call = Restart g) /\ wh_host_session_id h' = wh_host_session_id h
             /\ wh_issued_approval_ids h' = wh_issued_approval_ids h)
  | Sent (Request e) => issues h h' (body e) (Request e)
  | Received out => takes h h' out
  end.

Lemma refused_effect call h h' e : refused h h' -> host_ok h' /\ effect call h h' (Refused e).
Proof. intros [? [?|[? Hi]]]; (split; [done|]); [by left|right]. split; [done|by rewrite Hi]. Qed.

Lemma issued_effect call h p :
  leaves (refused h) (issued h) p ->
  host_ok (outcome Sent p).1 /\ effect call h (outcome Sent p).1 (outcome Sent p).2.
Proof.
  destruct p as [h' [frame|e]]; cbn; [|by intros ?; apply (refused_effect call h h' e)].
  intros (? & body & Hi). split; [done|]. destruct Hi. destruct is_frame as (s & id & class & ? & ? & ? & -> & ?).
  by split; [exists s, id, class|..].
Qed.

Lemma quiet_effect {A} call h (p : WalletHost C E * result A HostError.t) :
  leaves (refused h) (fun h' _ => host_ok h' /\ quiet h h') p ->
  let q := outcome (fun _ => Returned) p in host_ok q.1 /\ effect call h q.1 q.2.
Proof.
  destruct p as [h' [a|e]]; cbn; [done|].
  by intros ?; apply (refused_effect call h h' e).
Qed.

Lemma step_spec h call :
  host_ok h -> host_ok (step h call).1 /\ effect call h (step h call).1 (step h call).2.
Proof.
  intros Hok. destruct call; cbn [step].
  - pose proof (restart_spec h restart_generation Hok) as Hs.
    destruct (restart h restart_generation) as [h' [frame|e]]; cbn in *; [|by apply (refused_effect (Restart 0) h h' e)].
    destruct Hs as (? & Hg & ? & ? & _). split; [done|]. pose proof Hg as []. subst frame.
    split; [done|right]. split; [by eexists|done].
  - pose proof (reset_spec h restart_generation Hok) as Hs.
    destruct (reset h restart_generation) as [h' [frame|e]]; cbn in *; [|by apply (refused_effect (Restart 0) h h' e)].
    destruct Hs as (? & Hg). split; [done|]. pose proof Hg as []. subst frame. split; [done|left; by eexists].
  - by apply quiet_effect, discard_authority_spec.
  - by apply quiet_effect, approval_spec.
  - pose proof (register_authority_spec h facts Hok) as Hs.
    destruct (register_authority h facts) as [h' [[k frame]|e]]; [|by apply (refused_effect (Register facts) h h' e)].
    by apply (issued_effect _ h (h', Ok frame)).
  - by apply issued_effect, register_detached_authority_spec.
  - by apply issued_effect, replace_authority_spec.
  - by apply issued_effect, revoke_authority_spec.
  - by apply issued_effect, request_provider_capabilities_spec.
  - by apply issued_effect, provider_request_spec.
  - by apply issued_effect, decide_approval_spec.
  - by apply issued_effect, wallet_request_spec.
  - by apply issued_effect, hns_read_request_spec.
  - by apply issued_effect, context_request_spec.
  - pose proof (accept_service_frame_spec h frame Hok) as Hs.
    pose proof (accept_remembers (wh_issued_approval_ids h) h frame (reflexivity _)) as Hr.
    destruct (accept_service_frame h frame) as [h' [o|e]]; cbn in *; [done|].
    destruct Hs as [? []]. split; [done|by right].
Qed.
End Methods.
