(* ===== verification/HostTheorems.v ===== *)
(** * Properties of the host's session

    Over any sequence of calls and frames: the invariant holds and the tables
    stay bounded, responses answer the requests they name, both directions of
    the channel are numbered without gaps, an approval is decided at most once
    and after it was prompted, every request is one the service can accept, and
    a refused frame ends the session. *)

From Stdlib Require Import Strings.Byte.
From stdpp Require Import finite.
From S2P Require Import Prelude Types Provider Abi Host HostProofs HostMethods.

Section Runs.
Context {C E Value : Type}.
Context `{Clock C, Entropy E, NameEnv, JsonCodec ApprovalPrompt, JsonCodec (ProviderBody Value)}.
Implicit Types (h : WalletHost C E) (calls : list (Call Value)) (os : list (Outcome Value)).

Lemma run_cons h call calls :
  run h (call :: calls) = ((run (step h call).1 calls).1, (step h call).2 :: (run (step h call).1 calls).2).
Proof. cbn [run]. destruct (step h call) as [h1 o]. simpl. by destruct (run h1 calls). Qed.

Lemma host_run_ok h calls : host_ok h -> host_ok (run h calls).1.
Proof.
  revert h. induction calls as [|call calls IH]; intros h Hok; [done|].
  rewrite run_cons. apply IH, step_spec, Hok.
Qed.

(** ** The invariant *)

(** C7: a host stays sound. Whatever the embedder calls and whatever frames
    arrive, in any order: identifiers of recent and of pending requests are kept
    and not reused, only an active authority has a binding and only a bound one a
    capability snapshot, all of whose methods the negotiated capabilities admit;
    every approval and every event cursor belongs to the current binding of its
    authority; every decision on its way is pending; and without a negotiated
    session no request is pending and every authority is detached. *)
Theorem host_stays_sound platform generation clock entropy h calls :
  new platform generation clock entropy = Ok h -> host_ok (run h calls).1.
Proof. intros Hnew. apply host_run_ok. by eapply new_ok. Qed.

(** The cursors are kept for bindings, of which each authority has one. *)
Lemma cursors_bounded h : host_ok h -> count (wh_event_cursors h) <= count (wh_authorities h).
Proof.
  intros [[] _]. destruct co_derived as [_ _ Hc].
  assert (forall k, k ∈ dom (wh_event_cursors h) -> exists b st,
    bound (wh_authorities h) b st /\ from_binding b = k) as Hk.
  { intros k [n Hn]%elem_of_dom. by apply (Hc k n). }
  unfold count. rewrite <- !size_dom.
  assert (ck_authority_handle <$> elements (dom (wh_event_cursors h))
          ⊆+ elements (dom (wh_authorities h))) as Hsub.
  { apply NoDup_submseteq.
    - apply NoDup_fmap_2_strong; [|apply NoDup_elements].
      intros x y (bx & sx & [Hx1 Hx2] & <-)%elem_of_elements%Hk (b & s & [Hb1 Hb2] & <-)%elem_of_elements%Hk Heq.
      cbn in Heq. rewrite Heq in Hx1. simplify_eq. congruence.
    - intros x (k & -> & (b & st & [Hb _] & <-)%elem_of_elements%Hk)%list_elem_of_fmap.
      apply elem_of_elements, elem_of_dom. by exists st. }
  apply submseteq_length in Hsub. rewrite length_fmap in Hsub.
  unfold size, set_size. simpl. lia.
Qed.

Lemma ids_bounded order recent aged held :
  ids_ok order recent aged held -> set_len recent <= len order + set_len held.
Proof.
  intros [Hn _ Hr Ha _ _]. unfold set_len, len.
  assert (recent ⊆ list_to_set order ∪ held) as Hsub.
  { intros x Hx%Hr. apply elem_of_union. rewrite elem_of_list_to_set. destruct Hx; auto. }
  apply subseteq_size in Hsub. pose proof (size_union_alt (list_to_set order : gset bytes) held) as Hu.
  pose proof (size_list_to_set (C := gset bytes) order Hn).
  assert (size (held ∖ list_to_set order) <= size held)%nat by (apply subseteq_size; set_solver). lia.
Qed.

(** The host's memory is bounded. Whatever a service sends and an embedder
    calls, a host keeps at most 256 authorities and as many event cursors, 1,024
    pending requests, 128 approvals, 4,096 handles, approval identifiers and
    nonces, and 5,120 request identifiers.*)
Theorem host_memory_bounded platform generation clock entropy h calls :
  new platform generation clock entropy = Ok h ->
  let h' := (run h calls).1 in
  count (wh_authorities h') <= 256 /\ count (wh_event_cursors h') <= 256
  /\ count (wh_pending h') <= 1024 /\ count (wh_approvals h') <= 128
  /\ set_len (wh_issued_authority_ids h') <= 4096 /\ set_len (wh_issued_approval_ids h') <= 4096
  /\ set_len (wh_recent_nonces h') <= 4096 /\ set_len (wh_recent_request_ids h') <= 5120.
Proof.
  intros Hnew h'. assert (host_ok h') as Hok by (apply host_run_ok; by eapply new_ok).
  pose proof (cursors_bounded _ Hok). destruct Hok as [[] _].
  pose proof (ids_bounded _ _ _ _ co_ids). destruct co_ids as [_ Hb _ _ _ _].
  assert (set_len (dom (wh_pending h')) = count (wh_pending h')) as Hd.
  { unfold set_len, count. by rewrite size_dom. }
  assert (set_len (wh_recent_nonces h') <= len (wh_nonce_order h')).
  { destruct co_nonces as [Hn _ ->]. unfold set_len, len. by rewrite size_list_to_set. }
  pose proof (nonces_bound _ _ co_nonces).
  unfold MAX_PENDING_REQUESTS, MAX_AUTHORITIES, MAX_PENDING_APPROVALS, MAX_ISSUED_AUTHORITY_IDS,
    MAX_ISSUED_APPROVAL_IDS, MAX_RECENT_REQUEST_IDS, MAX_RECENT_PROVIDER_NONCES in *.
  split_and!; lia.
Qed.

(** ** Requests and responses *)

(** The protocol a host keeps with its service: a set of outstanding requests
    that grows by what is sent and shrinks by what is answered. *)
Inductive exchange : gmap bytes (ServiceRequest Value) -> Outcome Value ->
    gmap bytes (ServiceRequest Value) -> Prop :=
| ExIssue m e : m !! request_id e = None ->
    exchange m (Sent (Request e)) (<[request_id e := body e]> m)
| ExAnswer m id request response : m !! id = Some request -> answers request response ->
    exchange m (Received (HostOutput.Response (mkAcceptedResponse id response))) (delete id m)
| ExEvent m event : exchange m (Received (HostOutput.Event event)) m
| ExHello m hello : exchange m (Sent (HostHelloFrame hello)) ∅
| ExNegotiated session : exchange ∅ (Received (HostOutput.Negotiated session)) ∅
| ExReturned m m' : m' ⊆ m -> exchange m Returned m'
| ExRefused m m' e : m' ⊆ m -> exchange m (Refused e) m'.

Inductive exchanges : gmap bytes (ServiceRequest Value) -> list (Outcome Value) ->
    gmap bytes (ServiceRequest Value) -> Prop :=
| ExNil m : exchanges m [] m
| ExCons m1 o m2 os m3 : exchange m1 o m2 -> exchanges m2 os m3 -> exchanges m1 (o :: os) m3.

(** The outstanding requests are the pending ones, each filed under its class. *)
Definition tracks (m : gmap bytes (ServiceRequest Value)) h : Prop :=
  forall id, match m !! id, wh_pending h !! id with
             | Some request, Some class => class_for request class
             | None, None => True
             | _, _ => False
             end.

Lemma tracks_empty h : wh_pending h = ∅ -> tracks ∅ h.
Proof. intros Hp id. by rewrite Hp, !lookup_empty. Qed.

(** What is left after the host forgot some requests. *)
Lemma tracks_forget m h h' : wh_pending h' ⊆ wh_pending h -> tracks m h ->
  exists m', m' ⊆ m /\ tracks m' h'.
Proof.
  intros Hsub Ht. exists (retain (fun id _ => is_some (wh_pending h' !! id)) m).
  split; [apply retain_subseteq|]. intros id. specialize (Ht id).
  destruct (wh_pending h' !! id) as [class|] eqn:Hp.
  - rewrite (lookup_weaken _ _ _ _ Hp Hsub) in Ht. destruct (m !! id) as [request|] eqn:Hm; [|done].
    assert (retain (fun id _ => is_some (wh_pending h' !! id)) m !! id = Some request) as ->; [|done].
    apply lookup_retain_Some. by rewrite Hp.
  - assert (retain (fun id _ => is_some (wh_pending h' !! id)) m !! id = None) as ->; [|done].
    apply lookup_retain_None. destruct (m !! id) as [request|]; [right|by left].
    exists request. by rewrite Hp.
Qed.

Lemma tracks_pending m h h' : wh_pending h' = wh_pending h -> tracks m h -> tracks m h'.
Proof. intros Hp Ht id. rewrite Hp. apply Ht. Qed.

(** A call without result only forgets, whether the session survived or not. *)
Lemma quiet_forgets h h' (P : Prop) :
  host_ok h' -> quiet h h' \/ wh_channel h' = ChannelState.Failed /\ P ->
  wh_pending h' ⊆ wh_pending h.
Proof.
  intros [[] _] [[]|[Hf _]]; [done|]. rewrite Hf in co_channel. rewrite co_channel. apply map_empty_subseteq.
Qed.

Lemma step_exchange h call m :
  host_ok h -> tracks m h ->
  exists m', exchange m (step h call).2 m' /\ tracks m' (step h call).1.
Proof.
  intros Hok Ht. destruct (step_spec h call Hok) as [Hok' He].
  destruct (step h call) as [h' o]; cbn in *. destruct o as [[hello|e]|[session|[id response]|event]| |e].
  - destruct He as [[] _]. exists ∅. split; [constructor|by apply tracks_empty].
  - destruct He. destruct is_frame as (s & id & class & _ & _ & _ & -> & _ & Hn & Hcls & Hp).
    exists (<[id := body e]> m). split.
    + apply (ExIssue m (mkEnvelope _ _ _ _ _ id (body e))). specialize (Ht id). cbn. rewrite Hn in Ht.
      by destruct (m !! id).
    + intros k. rewrite Hp. destruct (decide (k = id)) as [->|Hne].
      * by rewrite !lookup_insert_eq.
      * rewrite !lookup_insert_ne by done. apply Ht.
  - destruct He as [Hch (sid & caps & ->)]. destruct Hok as [[] _]. rewrite Hch in co_channel.
    exists ∅. assert (m = ∅) as ->.
    { apply map_empty. intros k. specialize (Ht k). rewrite co_channel, lookup_empty in Ht. by destruct (m !! k). }
    split; [constructor|by apply tracks_empty].
  - destruct He. cbn in *. destruct tr_answers as (class & Hc & Hans). specialize (Ht id) as Hid.
    rewrite Hc in Hid. destruct (m !! id) as [request|] eqn:Hm; [|done].
    exists (delete id m). split; [by eapply ExAnswer; [|apply Hans]|].
    intros k. rewrite tr_pending. destruct (decide (k = id)) as [->|Hne].
    + by rewrite !lookup_delete_eq.
    + rewrite !lookup_delete_ne by done. apply Ht.
  - destruct He. exists m. split; [constructor|by eapply tracks_pending].
  - destruct (tracks_forget m h h') as (m' & ? & ?); [by destruct He|done|].
    exists m'. split; [by constructor|done].
  - destruct (tracks_forget m h h') as (m' & ? & ?); [by eapply quiet_forgets|done|].
    exists m'. split; [by constructor|done].
Qed.

(** C8: the host keeps the request and response protocol. What a host sends and
    what it hands on, over any run, is a run of the protocol in which a request
    is outstanding from the moment it is sent, under an identifier no other
    outstanding request has, until it is answered or given up: every response it
    hands on answers an outstanding request of the matching kind, at its handle
    and revision, and no request is answered twice. *)
Theorem host_keeps_protocol platform generation clock entropy h calls :
  new platform generation clock entropy = Ok h ->
  exists m, exchanges ∅ (run h calls).2 m /\ tracks m (run h calls).1.
Proof.
  intros Hnew. assert (tracks ∅ h /\ host_ok h) as [Ht Hok].
  { pose proof (new_ok _ _ _ _ _ Hnew) as Hok. split; [|done]. apply tracks_empty.
    unfold new in Hnew. run_in Hnew. done. }
  clear Hnew. revert h Ht Hok. generalize (∅ : gmap bytes (ServiceRequest Value)).
  induction calls as [|call calls IH]; intros m h Ht Hok; [by exists m; split; [constructor|]|].
  rewrite run_cons. destruct (step_exchange h call m Hok Ht) as (m1 & Hx & Ht1).
  destruct (IH m1 (step h call).1 Ht1) as (m2 & Hxs & Ht2); [by apply step_spec|].
  exists m2. split; [by econstructor|done].
Qed.

(** ** Numbers of the channel *)

(** A call that stays in the session. *)
Definition stays (call : Call Value) : bool :=
  match call with Restart _ | Reset _ => false | _ => true end.

(** The numbers of the requests that were sent, and of the frames that were
    accepted. *)
Definition sent_number (o : Outcome Value) : option N :=
  match o with Sent (Request e) => Some (channel_sequence e) | _ => None end.
Definition accepted_number (call : Call Value) (o : Outcome Value) : option N :=
  match call, o with
  | Deliver (Response e), Received _ => Some (channel_sequence e)
  | Deliver (Event e), Received _ => Some (ev_channel_sequence e)
  | _, _ => None
  end.

Fixpoint numbered (start : N) (l : list N) : Prop :=
  match l with [] => True | n :: l => n = start /\ numbered (start + 1) l end.

Definition numbers_sent os : list N := omap sent_number os.
Definition numbers_accepted calls os : list N :=
  omap id (zip_with accepted_number calls os).

Definition gives_nothing (o : Outcome Value) : Prop :=
  match o with Sent _ | Received _ => False | _ => True end.

Lemma failed_step h call :
  host_ok h -> wh_channel h = ChannelState.Failed -> stays call = true ->
  wh_channel (step h call).1 = ChannelState.Failed /\ gives_nothing (step h call).2.
Proof.
  intros Hok Hf Hst. destruct (step_spec h call Hok) as [_ He].
  destruct (step h call) as [h' o]; cbn in *.
  destruct o as [[hello|e]|[session|[id response]|event]| |e].
  - by destruct He as [_ [[g ->]|[[g ->] _]]].
  - destruct He. destruct is_frame as (s & ? & ? & Hch & _). congruence.
  - destruct He. congruence.
  - destruct He as [(s & Hch & _)]. congruence.
  - destruct He as [(s & Hch & _)]. congruence.
  - destruct He. split; [congruence|done].
  - split; [|done]. destruct He as [[]|[]]; congruence.
Qed.

(** A frame is accepted with the number the host expects. *)
Lemma accepted_in_order h call n s :
  wh_channel h = ChannelState.Ready s -> accepted_number call (step h call).2 = Some n ->
  n = next_service_sequence s.
Proof.
  intros Hch. destruct call as [| | | | | | | | | | | | | |[hello|e|ev]]; try done; cbn [step].
  - unfold accept_service_frame, accept_service_frame_inner, accept_response.
    destruct (validate_service_header _ _ _ _ _ _) as [next|] eqn:Hv; [|by intros].
    apply validate_service_header_Ok in Hv as (s' & Hs' & _ & _ & _ & Hn & _).
    assert (s' = s) as -> by congruence.
    match goal with |- accepted_number _ ?o = _ -> _ => destruct o; try done end. cbn. congruence.
  - unfold accept_service_frame, accept_service_frame_inner, accept_event.
    destruct (require_capability _ _) as [[]|]; [|by intros].
    destruct (validate_service_header _ _ _ _ _ _) as [next|] eqn:Hv; [|by intros].
    apply validate_service_header_Ok in Hv as (s' & Hs' & _ & _ & _ & Hn & _).
    assert (s' = s) as -> by congruence.
    match goal with |- accepted_number _ ?o = _ -> _ => destruct o; try done end. cbn. congruence.
Qed.

(** What is handed on comes from a frame that was delivered. *)
Definition carries (frame : ServiceFrame Value) (out : HostOutput.t Value) : Prop :=
  match frame, out with
  | ServiceHelloFrame _, HostOutput.Negotiated _ | Event _, HostOutput.Event _ => True
  | Response e, HostOutput.Response r => r = mkAcceptedResponse (request_id e) (body e)
  | _, _ => False
  end.

Lemma leaves_any {St A X} (p : St * result A X) : leaves (fun _ => True) (fun _ _ => True) p.
Proof. by destruct p as [? []]. Qed.

Lemma accept_carries h frame :
  leaves (fun _ => True) (fun _ out => carries frame out) (accept_service_frame h frame).
Proof.
  unfold accept_service_frame.
  assert (leaves (fun _ => True) (fun _ out => carries frame out) (accept_service_frame_inner h frame)) as Hl.
  { destruct frame; cbn [accept_service_frame_inner].
    - unfold accept_hello. destruct (wh_channel h); try done. by guard.
    - unfold accept_response. do 2 (apply leaves_test; [done|]; intros ? _).
      do 2 (eapply leaves_bind; [apply leaves_any|]; intros ? ? _).
      apply leaves_test; [done|]; intros ? _. by eapply leaves_bind; [apply leaves_any|].
    - unfold accept_event. do 2 (apply leaves_test; [done|]; intros ? _).
      do 2 (eapply leaves_bind; [apply leaves_any|]; intros ? ? _).
      by eapply leaves_bind; [apply leaves_any|]. }
  by destruct (accept_service_frame_inner h frame) as [h1 [o|e]].
Qed.

Lemma received_from h call out :
  (step h call).2 = Received out -> exists frame, call = Deliver frame /\ carries frame out.
Proof.
  destruct call; cbn [step]; unfold outcome; cbn;
    try (match goal with |- context [match ?p.2 with _ => _ end] => by destruct p as [? []] end).
  pose proof (accept_carries h frame) as Hc. destruct (accept_service_frame h frame) as [h1 [o|e]]; [|done].
  cbn. intros [= <-]. by exists frame.
Qed.

(** One call in a session: it uses the next number of its direction, or none. *)
Lemma ready_step h call s :
  host_ok h -> wh_channel h = ChannelState.Ready s -> stays call = true ->
  (wh_channel (step h call).1 = ChannelState.Failed /\ gives_nothing (step h call).2)
  \/ exists s', wh_channel (step h call).1 = ChannelState.Ready s'
     /\ match sent_number (step h call).2 with
        | Some n => n = next_host_sequence s /\ next_host_sequence s' = n + 1
        | None => next_host_sequence s' = next_host_sequence s
        end
     /\ match accepted_number call (step h call).2 with
        | Some n => n = next_service_sequence s /\ next_service_sequence s' = n + 1
        | None => next_service_sequence s' = next_service_sequence s
        end.
Proof.
  intros Hok Hch Hst. destruct (step_spec h call Hok) as [_ He].
  pose proof (fun n => accepted_in_order h call n s Hch) as Hacc.
  pose proof (received_from h call) as Hrec.
  destruct (step h call) as [h' o]; cbn [fst snd] in *.
  destruct o as [[hello|e]|[session|[id response]|event]| |e].
  - by destruct He as [_ [[g ->]|[[g ->] _]]].
  - right. destruct He. destruct is_frame as (s' & ? & ? & Hch' & Hn & _ & -> & _).
    assert (s' = s) as -> by congruence. rewrite Hn. eexists. split; [done|]. cbn.
    by destruct call as [| | | | | | | | | | | | | |[]].
  - destruct He. congruence.
  - right. destruct He as [(s' & Hch' & Hn & _)]. assert (s' = s) as -> by congruence. rewrite Hn.
    destruct (Hrec _ eq_refl) as ([] & -> & Hcar); try done. specialize (Hacc _ eq_refl). subst.
    eexists. split; [done|]. cbn. by rewrite Hacc.
  - right. destruct He as [(s' & Hch' & Hn & _)]. assert (s' = s) as -> by congruence. rewrite Hn.
    destruct (Hrec _ eq_refl) as ([] & -> & Hcar); try done. specialize (Hacc _ eq_refl). subst.
    eexists. split; [done|]. cbn. by rewrite Hacc.
  - right. destruct He. exists s. rewrite q_channel. split; [done|]. split; [done|].
    by destruct call as [| | | | | | | | | | | | | |[]].
  - destruct He as [[]|[]]; [right|by left]. exists s. rewrite q_channel. split; [done|]. split; [done|].
    by destruct call as [| | | | | | | | | | | | | |[]].
Qed.

Lemma failed_run h calls :
  host_ok h -> wh_channel h = ChannelState.Failed -> forallb stays calls = true ->
  wh_channel (run h calls).1 = ChannelState.Failed /\ Forall gives_nothing (run h calls).2.
Proof.
  revert h. induction calls as [|call calls IH]; intros h Hok Hf Hst; [by split; [|constructor]|].
  apply andb_prop in Hst as [Hst Hsts]. rewrite run_cons.
  destruct (failed_step h call Hok Hf Hst) as [Hf' Hn].
  destruct (IH (step h call).1) as [Hf2 Hn2]; [by apply step_spec|done|done|]. split; [done|by constructor].
Qed.

Lemma nothing_numbered calls os :
  Forall gives_nothing os -> numbers_sent os = [] /\ numbers_accepted calls os = [].
Proof.
  intros Hn. revert calls. induction Hn as [|o os Ho _ IH]; intros calls; [by destruct calls|].
  destruct calls as [|call calls].
  - destruct (IH []) as [Hs _]. split; [|done]. unfold numbers_sent in *. cbn. by destruct o.
  - destruct (IH calls) as [Hs Ha]. unfold numbers_sent, numbers_accepted in *. cbn.
    by destruct o; destruct call as [| | | | | | | | | | | | | |[]].
Qed.

(** Both directions of the channel are numbered without gaps. From a
    negotiated session on, as long as it is neither restarted nor reset, the
    requests that leave carry consecutive numbers and the frames that are
    accepted carried consecutive numbers, responses and events together: no
    frame is accepted twice, out of order, or after one that was lost.*)
Theorem channel_numbers_exact h s calls :
  host_ok h -> wh_channel h = ChannelState.Ready s -> forallb stays calls = true ->
  numbered (next_host_sequence s) (numbers_sent (run h calls).2)
  /\ numbered (next_service_sequence s) (numbers_accepted calls (run h calls).2).
Proof.
  revert h s. induction calls as [|call calls IH]; intros h s Hok Hch Hst; [done|].
  apply andb_prop in Hst as [Hst Hsts]. rewrite run_cons. cbn [snd].
  pose proof (proj1 (step_spec h call Hok)) as Hok1.
  destruct (ready_step h call s Hok Hch Hst) as [[Hf Hn]|(s' & Hch' & Hsent & Hacc)].
  - destruct (failed_run _ calls Hok1 Hf Hsts) as [_ Hns].
    destruct (nothing_numbered (call :: calls) ((step h call).2 :: (run (step h call).1 calls).2)) as [-> ->];
      [by constructor|done].
  - destruct (IH _ s' Hok1 Hch' Hsts) as [IH1 IH2]. unfold numbers_sent, numbers_accepted in *. cbn.
    destruct (sent_number _), (accepted_number _ _); cbn;
      repeat match goal with Hx : _ /\ _ |- _ => destruct Hx end; subst; split; try congruence;
      split; congruence.
Qed.

(** C26: a refused frame ends the session. When a frame fails any check, the
    channel fails and nothing the service said survives: no pending request, no
    approval, no cursor, no binding or snapshot. Until the embedder restarts or
    resets the host, no call sends anything and no frame is accepted. *)
Theorem refused_frame_ends_session h (frame : ServiceFrame Value) h' e calls :
  host_ok h -> accept_service_frame h frame = (h', Err e) -> forallb stays calls = true ->
  poisoned h h' /\ wh_channel (run h' calls).1 = ChannelState.Failed
  /\ Forall gives_nothing (run h' calls).2.
Proof.
  intros Hok Ha Hst. pose proof (accept_service_frame_spec h frame Hok) as Hs.
  rewrite Ha in Hs. destruct Hs as [Hok' Hp]. split; [done|].
  apply failed_run; [done|apply Hp|done].
Qed.

(** ** Approvals *)

Definition decided (o : Outcome Value) : option bytes :=
  match o with
  | Sent (Request e) => match body e with DecideApproval _ _ id _ => Some id | _ => None end
  | _ => None
  end.
Definition prompts (o : Outcome Value) : option bytes :=
  match o with
  | Received (HostOutput.Response (mkAcceptedResponse _ (ApprovalRequired p))) => Some (approval_id p)
  | _ => None
  end.

(** Every decision follows its prompt and is the first on it. *)
Fixpoint orderly (prompted_before decided_before : list bytes) os : Prop :=
  match os with
  | [] => True
  | o :: os =>
      (forall id, decided o = Some id -> id ∈ prompted_before /\ (id ∉ decided_before))
      /\ orderly (option_list (prompts o) ++ prompted_before)
           (option_list (decided o) ++ decided_before) os
  end.

Definition no_reset (call : Call Value) : bool :=
  match call with Reset _ => false | _ => true end.


(** What the prompts and decisions so far say about the host. *)
Record approval_history (ps ds : list bytes) h : Prop := {
  ah_prompted : forall id a, wh_approvals h !! id = Some a -> id ∈ ps;
  ah_decided : forall id, id ∈ ds -> id ∈ wh_issued_approval_ids h;
  ah_available : forall id a, wh_approvals h !! id = Some a -> ha_phase a = Available -> id ∉ ds;
}.

Lemma history_shrinks ps ds h h' :
  wh_issued_approval_ids h ⊆ wh_issued_approval_ids h' -> wh_approvals h' ⊆ wh_approvals h ->
  approval_history ps ds h -> approval_history ps ds h'.
Proof.
  intros Hi Ha []. split; [|by eauto|]; intros id a Hid; pose proof (lookup_weaken _ _ _ _ Hid Ha); eauto.
Qed.

Lemma history_empty ps ds h h' :
  wh_issued_approval_ids h ⊆ wh_issued_approval_ids h' -> wh_approvals h' = ∅ ->
  approval_history ps ds h -> approval_history ps ds h'.
Proof. intros Hi Ha. apply history_shrinks; [done|]. rewrite Ha. apply map_empty_subseteq. Qed.

(** Without a session there are no approvals. *)
Lemma failed_no_approvals h : host_ok h -> wh_channel h = ChannelState.Failed -> wh_approvals h = ∅.
Proof.
  intros [[] _] Hf. apply map_empty. intros id. destruct (wh_approvals h !! id) as [a|] eqn:Ha; [|done].
  destruct co_derived as [Hau Hap _]. destruct (Hap id a Ha) as [_ _ _ (st & [Hst Hb] & _)].
  destruct (Hau _ _ Hst) as [_ _ Hi Hbd _]. rewrite Hf in Hi. specialize (Hi eq_refl).
  destruct (Hbd _ Hb) as [Hp _]. congruence.
Qed.

Lemma history_issue ps ds h h' e :
  host_ok h -> issues h h' (body e) (Request e) -> approval_history ps ds h ->
  (forall id, decided (Sent (Request e)) = Some id -> id ∈ ps /\ (id ∉ ds))
  /\ approval_history ps (option_list (decided (Sent (Request e))) ++ ds) h'.
Proof.
  intros Hok [] [Hp Hd Ha]. split.
  - intros id Hid. cbn in Hid. destruct (body e); try done. injection Hid as ->.
    destruct is_entitled as (_ & a & Hl & Hav & _). split; [by eapply Hp|by eapply Ha].
  - split.
    + intros id a' Hl. destruct (is_approvals id a' Hl) as (a & Hl0 & _). by eapply Hp.
    + intros id [Hin|Hin]%elem_of_app; rewrite is_issued; [|by apply Hd]. cbn in Hin.
      destruct (body e); cbn in Hin; try by apply elem_of_nil in Hin.
      apply list_elem_of_singleton in Hin as ->.
      destruct is_entitled as (_ & a & Hl & _). destruct Hok as [[] _]. by apply co_derived in Hl as [].
    + intros id a' Hl Hav [Hin|Hin]%elem_of_app.
      * cbn in Hin. destruct (body e) eqn:Hb; cbn in Hin; try by apply elem_of_nil in Hin.
        apply list_elem_of_singleton in Hin as ->. by eapply is_decided.
      * destruct (is_approvals id a' Hl) as (a & Hl0 & Hph). by eapply Ha; [|apply Hph|].
Qed.

Lemma history_response ps ds h h' id response :
  takes_response h h' id response -> approval_history ps ds h ->
  approval_history (option_list (prompts (Received (HostOutput.Response (mkAcceptedResponse id response)))) ++ ps)
    ds h'.
Proof.
  intros [_ _ _ _ _ [[Hsub Hi]|(p & kept & -> & Hnew & Hi & Hk & Heq)]] Hh.
  - apply (history_shrinks _ _ _ h') in Hh as [Hp Hd Ha]; [|by rewrite Hi|done]. split; [|done|done].
    intros k a Hl. apply elem_of_app. right. by eapply Hp.
  - destruct Hh as [Hp Hd Ha]. split; cbn.
    + intros k a. rewrite Heq. intros [[<- _]|[_ Hl]]%lookup_insert_Some; [left|right].
      eapply Hp. by eapply lookup_weaken.
    + intros k Hin. rewrite Hi. apply elem_of_union. right. by apply Hd.
    + intros k a. rewrite Heq. intros [[<- _]|[_ Hl]]%lookup_insert_Some Hav.
      * intros Hin. by apply Hnew, Hd.
      * eapply Ha; [by eapply lookup_weaken|done].
Qed.

Lemma history_step ps ds h call :
  host_ok h -> no_reset call = true -> approval_history ps ds h ->
  (forall id, decided (step h call).2 = Some id -> id ∈ ps /\ (id ∉ ds))
  /\ approval_history (option_list (prompts (step h call).2) ++ ps)
       (option_list (decided (step h call).2) ++ ds) (step h call).1.
Proof.
  intros Hok Hnr Hh. destruct (step_spec h call Hok) as [Hok' He].
  destruct (step h call) as [h' o]; cbn [fst snd] in *.
  destruct o as [[hello|e]|[session|[id response]|event]| |e].
  - split; [done|]. destruct He as [[] [[g ->]|(_ & _ & Hi)]]; [done|]. eapply (history_empty ps ds h); [by rewrite Hi|done|done].
  - by apply (history_issue ps ds h).
  - split; [done|]. destruct He as [_ (sid & caps & ->)]. by destruct Hh.
  - split; [done|]. by eapply history_response.
  - split; [done|]. destruct He. eapply (history_shrinks ps ds h); [by rewrite te_issued|done|done].
  - split; [done|]. destruct He. eapply (history_shrinks ps ds h); [by rewrite q_issued|done|done].
  - split; [done|]. destruct He as [[]|[Hf Hi]].
    + eapply (history_shrinks ps ds h); [by rewrite q_issued|done|done].
    + eapply (history_empty ps ds h); [done|by apply failed_no_approvals|done].
Qed.

(** C18: an approval is decided at most once, and only after it was prompted. In a
    host session, restarts of the service included, every decision that leaves
    the host is about an approval that a prompt asked for before, and no second
    decision about it leaves, whatever the service sends in between. *)
Theorem approvals_decided_once platform generation clock entropy h calls :
  new platform generation clock entropy = Ok h -> forallb no_reset calls = true ->
  orderly [] [] (run h calls).2.
Proof.
  intros Hnew Hnr. assert (approval_history [] [] h /\ host_ok h) as [Hh Hok].
  { pose proof (new_ok _ _ _ _ _ Hnew) as Hok. split; [|done]. unfold new in Hnew. run_in Hnew.
    split; cbn; [done|by intros ? []%elem_of_nil|done]. }
  clear Hnew. revert h Hh Hok. generalize ([] : list bytes) at 1 3. generalize ([] : list bytes).
  induction calls as [|call calls IH]; intros ds ps h Hh Hok; [done|].
  apply andb_prop in Hnr as [Hc Hcs]. rewrite run_cons.
  destruct (history_step ps ds h call Hok Hc Hh) as [Hd Hh'].
  split; [done|]. apply IH; [done|done|by apply step_spec].
Qed.

(** ** What is sent *)

(** A host sends only what it is entitled to. Whenever, in any run, a request
    leaves: an authority that is replaced, revoked or asked about is active; a
    provider request is for a method of the current snapshot of a bound authority,
    at its revision, under the negotiated capabilities (value movement and
    approvals included), with a nonce that is not zero; and a decision is for an
    approval that is open, at the handle and revision it was prompted for.*)
Theorem requests_entitled platform generation clock entropy h calls call e :
  new platform generation clock entropy = Ok h ->
  (step (run h calls).1 call).2 = Sent (Request e) -> entitled (run h calls).1 (body e).
Proof.
  intros Hnew Hs. assert (host_ok (run h calls).1) as Hok by (apply host_run_ok; by eapply new_ok).
  destruct (step_spec _ call Hok) as [_ He]. rewrite Hs in He. apply He.
Qed.

Lemma provider_request_valid method (params : Value) revision nonce handle :
  (revision =? 0) = false -> (nonce =? 0) = false -> validate_provider_request method params = Ok tt ->
  validate_service_request (ProviderRequest handle revision nonce method params) = Ok tt.
Proof.
  intros Hr Hn. unfold validate_provider_request, validate_service_request, within.
  destruct (_ || _) eqn:Hm; [done|]. apply orb_false_elim in Hm as [Hm _].
  apply orb_false_elim in Hm as [Hm H3']. apply orb_false_elim in Hm as [H1' H2'].
  rewrite Hr, Hn, H1', H2', H3'. cbn [orb].
  destruct (json_to_vec _) as [encoded|]; cbn [ok_or]; [|done].
  by destruct (MAX_PROVIDER_REQUEST_BYTES <? len encoded).
Qed.

Lemma request_valid h (body : ServiceRequest Value) :
  entitled h body ->
  validate_service_request body = Ok tt
  \/ exists r, body = Wallet r /\ validate_wallet_request r <> Ok tt.
Proof.
  intros He. destruct body as [| | | |handle revision nonce method params| |r|];
    cbn [entitled] in He; repeat match goal with Hx : _ /\ _ |- _ => destruct Hx end;
    repeat match goal with Hx : _ <> 0 |- _ => apply N.eqb_neq in Hx end.
  5: { left. by apply provider_request_valid. }
  6: { destruct (validate_wallet_request r) as [[]|] eqn:Hv; [by left|right]. by exists r; rewrite Hv. }
  all: left; cbn [validate_service_request]; repeat case_match; congruence.
Qed.

Lemma run_app h calls o :
  o ∈ (run h calls).2 -> exists pre c post, calls = pre ++ c :: post /\ (step (run h pre).1 c).2 = o.
Proof.
  revert h. induction calls as [|c calls IH]; intros h; [by intros []%elem_of_nil|].
  rewrite run_cons. intros [->|Hin]%elem_of_cons; [by exists [], c, calls|].
  destruct (IH _ Hin) as (pre & c' & post & -> & Hs). exists (c :: pre), c', post. split; [done|].
  by rewrite run_cons.
Qed.

(** A host sends frames the ABI accepts. Every frame that leaves in any run
    passes the checks the encoder and the service's decoder make, so the codec
    refuses none of them. The one exception is a wallet request whose secret the
    caller left empty or made too long: it leaves the host, with a number of the
    channel, and the encoder refuses it.*)
Theorem sent_frames_valid platform generation clock entropy h calls frame :
  new platform generation clock entropy = Ok h -> Sent frame ∈ (run h calls).2 ->
  validate_host_frame frame = Ok tt
  \/ exists e r, frame = Request e /\ body e = Wallet r /\ validate_wallet_request r <> Ok tt.
Proof.
  intros Hnew (pre & c & post & _ & Hs)%run_app.
  assert (host_ok (run h pre).1) as Hok by (apply host_run_ok; by eapply new_ok).
  destruct (step_spec _ c Hok) as [Hok' He]. rewrite Hs in He. destruct frame as [hello|e].
  - left. destruct He as [[_ _ _ [= ->]] _]. cbn. destruct Hok' as [[] _].
    apply N.eqb_neq in co_generation. by rewrite co_generation.
  - destruct He. destruct is_frame as (s & id & class & Hch & _ & _ & [= ->] & _). cbn in *.
    destruct Hok as [[] _]. rewrite Hch in co_channel. destruct co_channel as [[Hn _] _].
    unfold validate_session_envelope. cbn. apply N.eqb_neq in co_generation. rewrite co_generation.
    assert ((next_host_sequence s =? 0) = false) as -> by (apply N.eqb_neq; lia). cbn.
    destruct (request_valid _ _ is_entitled) as [Hv|(r & Hb & Hv)]; [by left|right].
    eexists _, r. by split; [|split].
Qed.
End Runs.

(** ** Approvals of the two sides *)

(** The host and the provider agree on the methods that need an approval, with one
    exception. *)
Lemma approval_methods_agree (m : Method.t) :
  approval_required_method (Method.wire_name m)
  = is_some (Method.approval m) && negb (bool_decide (m = Method.HnsUpdateName)).
Proof. destruct m; vm_compute; reflexivity. Qed.

(** A name update cannot be approved through the host. The provider asks an
    approval for [hns_updateName], as for every other method that moves a name;
    the host's list of such methods lacks it, so the prompt is no response to the
    request: it ends the session.*)
Theorem name_update_prompt_ends_session {C E Value : Type} `{Clock C, Entropy E, NameEnv,
    JsonCodec ApprovalPrompt, JsonCodec (ProviderBody Value)} (h : WalletHost C E)
    (e : SessionEnvelope (ServiceResponse Value)) p handle revision :
  wh_pending h !! request_id e
    = Some (RequestClass.Provider handle revision (Method.wire_name Method.HnsUpdateName)) ->
  body e = ApprovalRequired p ->
  Method.approval Method.HnsUpdateName = Some KindNameUpdate
  /\ wh_channel (accept_service_frame h (Response e)).1 = ChannelState.Failed.
Proof.
  intros Hp Hb. split; [done|]. unfold accept_service_frame.
  assert (leaves (fun _ => True) (fun _ _ => False) (accept_service_frame_inner h (Response e))) as Hl.
  { cbn. unfold accept_response. apply leaves_test; [done|]. intros next _. rewrite Hp. cbn [ok_or].
    eapply leaves_bind; [apply leaves_any|]. intros h1 [] _.
    eapply (leaves_bind _ (fun _ _ => False)); [by rewrite Hb|done]. }
  by destruct (accept_service_frame_inner h (Response e)) as [h1 [o|err]].
Qed.

(** ** A host in use *)

Module ToyHost.
(** The clock stands still; entropy counts. *)
Definition toy_clock : Clock N := fun t => (t, Ok t).
Definition toy_entropy : Entropy N := fun n size => (n + 1, Ok (to_be_bytes size (n + 1))).
Definition toy_names : NameEnv := {|
  validate_name name := negb (is_empty name);
  hash_name name := match name with [] => None | b :: _ => Some (replicate 32 b) end;
|}.
Definition toy_json (T : Type) : JsonCodec T :=
  {| json_to_vec _ := Some [x7b]; json_from_slice _ := None |}.
#[global] Existing Instance toy_clock | 100.
#[global] Existing Instance toy_entropy | 100.
#[global] Existing Instance toy_names | 100.
#[global] Existing Instance toy_json | 1000.

Definition sid : bytes := to_be_bytes 32 1.
Definition service : bytes := [x09].
Definition handle : bytes := to_be_bytes 32 2.
Definition wallet : bytes := [x07].
Definition id (n : N) : bytes := to_be_bytes 16 n.

Definition capabilities : gset ServiceCapability.t := list_to_set (enum ServiceCapability.t).
Definition hello : Call unit :=
  Deliver (ServiceHelloFrame (mkServiceHello 2 Android sid service 1 capabilities limits_default)).
Definition facts : HostAuthorityFacts := mkFacts "https://a.example" NamespaceHns [x01] 1 1 1 [x01] 2000.
Definition binding : ProviderBinding := mkBinding handle 1 wallet 1.
Definition snapshot : ProviderCapabilitySnapshot :=
  mkSnapshot 1 3 wallet 1 {["hns_send"; "hns_updateName"]}.
Definition reply (n : N) (rid : bytes) (r : ServiceResponse unit) : Call unit :=
  Deliver (Response (mkEnvelope 2 sid service 1 n rid r)).
Definition send_prompt : ApprovalPrompt :=
  mkPrompt [x05] binding "https://a.example" "hns_send" 1500
    (ApprovalSummary.Send (mkAmount Hns (mkBaseUnits 5)) "hs1q" (mkAmount Hns (mkBaseUnits 1)) Handshake
       ProofOfWorkConfirmations ∅).

Definition started : WalletHost N N :=
  match new (C := N) (E := N) Android 1 1000 0 with Ok h => h | Err _ => mkHost Android [] 0 0 0 None
    ChannelState.Failed ∅ ∅ [] ∅ ∅ [] ∅ ∅ ∅ ∅ ∅ end.
Definition calls : list (Call unit) :=
  [hello; Register facts; reply 1 (id 3) (AuthorityRegistered handle 1); AskCapabilities handle;
   reply 2 (id 4) (CapabilitiesResponse binding snapshot); AskProvider handle "hns_send" tt;
   reply 3 (id 6) (ApprovalRequired send_prompt); Decide [x05] ApprovalDecision.Approve;
   reply 4 (id 7) (ProviderResult binding tt)].
End ToyHost.
Import ToyHost.

Lemma started_new : new (C := N) (E := N) Android 1 1000 0 = Ok started.
Proof. vm_compute. reflexivity. Qed.

Lemma host_stays_sound_witness :
  count (wh_authorities (run started calls).1) = 1 /\ host_ok (run started calls).1.
Proof.
  split; [vm_compute; reflexivity|]. apply (host_stays_sound Android 1 1000 0). apply started_new.
Defined.

Lemma host_memory_bounded_witness :
  count (wh_pending (run started (take 6 calls)).1) = 1
  /\ count (wh_pending (run started (take 6 calls)).1) <= 1024.
Proof.
  split; [vm_compute; reflexivity|].
  pose proof (host_memory_bounded Android 1 1000 0 started (take 6 calls) started_new) as Hb.
  cbv zeta in Hb. destruct Hb as (_ & _ & Hp & _). exact Hp.
Defined.

Lemma host_keeps_protocol_witness :
  exists m, exchanges ∅ (run started (take 6 calls)).2 m /\ tracks m (run started (take 6 calls)).1.
Proof. apply (host_keeps_protocol Android 1 1000 0). apply started_new. Defined.

Lemma greeted_ok : host_ok (run started [hello]).1.
Proof. apply host_run_ok. eapply new_ok, started_new. Qed.

(** The greeting negotiates a session whose counters start at one. *)
Lemma greeted_ready : exists s, wh_channel (run started [hello]).1 = ChannelState.Ready s
  /\ next_host_sequence s = 1 /\ next_service_sequence s = 1.
Proof.
  assert (match wh_channel (run started [hello]).1 with
          | ChannelState.Ready s => (next_host_sequence s =? 1) && (next_service_sequence s =? 1)
          | _ => false
          end = true) as Hs by (vm_compute; reflexivity).
  destruct (wh_channel _) as [|s|]; try done. bool_prop. by exists s.
Qed.

Lemma channel_numbers_exact_witness :
  numbers_sent (run (run started [hello]).1 (drop 1 calls)).2 = [1; 2; 3; 4]
  /\ numbered 1 (numbers_accepted (drop 1 calls) (run (run started [hello]).1 (drop 1 calls)).2).
Proof.
  split; [vm_compute; reflexivity|]. destruct greeted_ready as (s & Hs & _ & H1).
  pose proof (channel_numbers_exact (run started [hello]).1 s (drop 1 calls) greeted_ok Hs eq_refl) as [_ Hn].
  rewrite H1 in Hn. exact Hn.
Defined.

(** A second greeting is refused. *)
Definition second_hello : ServiceFrame unit :=
  ServiceHelloFrame (mkServiceHello 2 Android sid service 1 capabilities limits_default).

Lemma refused_frame_ends_session_witness :
  exists h', accept_service_frame (run started [hello]).1 second_hello = (h', Err HostError.UnexpectedHello)
  /\ wh_channel (run h' (drop 1 calls)).1 = ChannelState.Failed.
Proof.
  exists (accept_service_frame (run started [hello]).1 second_hello).1. split; [vm_compute; reflexivity|].
  apply (refused_frame_ends_session (run started [hello]).1 second_hello _ HostError.UnexpectedHello).
  - apply greeted_ok.
  - vm_compute. reflexivity.
  - vm_compute. reflexivity.
Defined.

Lemma approvals_decided_once_witness :
  omap decided (run started calls).2 = [[x05]] /\ orderly [] [] (run started calls).2.
Proof.
  split; [vm_compute; reflexivity|].
  apply (approvals_decided_once Android 1 1000 0); [apply started_new|vm_compute; reflexivity].
Defined.

(** The request for a payment, as it leaves the host. *)
Definition payment : SessionEnvelope (ServiceRequest unit) :=
  mkEnvelope 2 sid service 1 3 (id 6) (ProviderRequest handle 1 5 "hns_send" tt).

Lemma requests_entitled_witness :
  (step (run started (take 5 calls)).1 (AskProvider handle "hns_send" tt)).2 = Sent (Request payment)
  /\ entitled (run started (take 5 calls)).1 (body payment).
Proof.
  split; [vm_compute; reflexivity|].
  apply (requests_entitled Android 1 1000 0 _ _ (AskProvider handle "hns_send" tt));
    [apply started_new|vm_compute; reflexivity].
Defined.

Lemma payment_sent : Sent (Request payment) ∈ (run started calls).2.
Proof. apply (list_elem_of_lookup_2 _ 5%nat). vm_compute. reflexivity. Qed.

Lemma sent_frames_valid_witness :
  validate_host_frame (Request payment) = Ok tt
  \/ exists e r, Request payment = Request e /\ body e = Wallet r /\ validate_wallet_request r <> Ok tt.
Proof. apply (sent_frames_valid Android 1 1000 0 started calls); [apply started_new|apply payment_sent]. Defined.

(** The host asked for a name update and the service prompts. *)
Definition updating : WalletHost N N :=
  (run started (take 5 calls ++ [AskProvider handle "hns_updateName" tt])).1.
Definition update_prompt : SessionEnvelope (ServiceResponse unit) :=
  mkEnvelope 2 sid service 1 3 (id 6) (ApprovalRequired
    (mkPrompt [x05] binding "https://a.example" "hns_updateName" 1500
       (ApprovalSummary.NameUpdate "a" "00" 1 0 (mkAmount Hns (mkBaseUnits 1)) ∅))).

Lemma name_update_prompt_ends_session_witness :
  connection_state updating = ConnectionState.Ready
  /\ wh_channel (accept_service_frame updating (Response update_prompt)).1 = ChannelState.Failed.
Proof.
  split; [vm_compute; reflexivity|].
  eapply (name_update_prompt_ends_session updating update_prompt);
    [vm_compute; reflexivity|reflexivity].
Defined.
