(* ===== verification/Service.v ===== *)
(** * hns-wallet-service: the wallet service behind the channel

    Models [WalletService] of [crates/hns-wallet-service/src/lib.rs]: negotiation,
    request headers, dispatch to the provider core and to the wallet runtime,
    approvals, permission grants, account-scoped reads and events. The trait
    [ServiceRuntime] is a class. Its methods also receive the store of the
    provider core and return it, because the compositions of the source hand the
    same shared store to both; a method that takes [&self] only reads.

    Parameters: the accessors and documents of [serde_json] ([ServiceJson]), the
    operating system's randomness ([OsRandom]), the JSON encodings of the frames.
    [Origin::parse] is [Provider.origin_parse] over its URL parser.

    Left out: the concrete runtimes and the constructors that open a persistent
    store for them, with the errors only those report. *)

From stdpp Require Import sorting.
From Stdlib Require Import Strings.Byte.
From S2P Require Import Prelude Types Provider Abi.

Definition MAX_SEEN_REQUEST_IDS : N := 4096.
Definition MAX_SERVICE_PENDING_APPROVALS : N := 128.
Definition MAX_PROVIDER_HNS_READ_ITEMS : N := 128.
Definition MAX_HNS_NAME_BYTES : N := 63.
Definition PROVIDER_API_VERSION : N := 1.

#[global] Instance AccountSummary_eq_dec : EqDecision AccountSummary.
Proof. solve_decision. Defined.
#[global] Instance ServiceProviderBinding_eq_dec : EqDecision ProviderBinding.
Proof. solve_decision. Defined.

(** ** Errors *)

(** The [Display] texts of the errors that reach a failure response. *)
Definition provider_error_message (e : ProviderError) : string :=
  match e with
  | InvalidOrigin => "invalid logical origin"
  | InsecureContext => "provider requires an authenticated secure context"
  | AuthorityNotFound => "opaque browser authority handle is unknown or revoked"
  | DuplicateAuthority => "opaque browser authority handle is already registered"
  | AuthorityCapacity => "browser authority registry reached its bounded capacity"
  | StaleContext => "request context is stale or mismatched"
  | ClockRollback => "provider wall clock moved backwards within this process"
  | RequestTooLarge => "provider request exceeds its bounded maximum"
  | MethodNotFound => "provider method was not found"
  | ForbiddenMethod => "method is intentionally forbidden"
  | InvalidParams => "provider parameters are invalid"
  | Unauthorized => "origin lacks the required permission"
  | WalletLocked => "wallet is locked"
  | RateLimited => "request rate limit exceeded"
  | Replay => "request replay rejected"
  | StaleApproval => "approval is stale, expired, or belongs to another context"
  | InvalidPermission => "permission grant is invalid"
  | Persistence => "persistent provider state failed"
  end.

Definition abi_error_message (e : AbiError.t) : string :=
  match e with
  | AbiError.FrameSize => "frame is empty or exceeds the bounded outer maximum"
  | AbiError.TruncatedFrame => "length-prefixed frame is truncated or has trailing bytes"
  | AbiError.VersionMismatch => "wallet service protocol version mismatch"
  | AbiError.InvalidEnvelope => "invalid wallet service envelope"
  | AbiError.InvalidAuthority => "invalid or stale host authority registration"
  | AbiError.InvalidProviderRequest => "provider request is invalid"
  | AbiError.ProviderRequestTooLarge => "provider request exceeds 64 KiB"
  | AbiError.ProviderResultTooLarge => "provider result exceeds 256 KiB"
  | AbiError.EventTooLarge => "provider event exceeds 64 KiB"
  | AbiError.ApprovalTooLarge => "approval prompt exceeds 16 KiB"
  | AbiError.InvalidApproval => "approval prompt is incomplete, stale, or mismatched"
  | AbiError.InvalidEvent => "provider event is invalid"
  | AbiError.InvalidSecretInput => "secret input is empty or exceeds its bounded maximum"
  | AbiError.InvalidPublicValue => "public response value is empty, non-ASCII, or unbounded"
  | AbiError.InvalidFailure => "failure response is invalid or unbounded"
  | AbiError.Encoding => "frame JSON encoding failed"
  end.

Module ServiceError.
Inductive t :=
| Randomness
| Abi (e : AbiError.t)
| Provider (e : ProviderError)
| HandshakeRequired
| AlreadyNegotiated
| SessionMismatch
| SequenceMismatch (expected received : N)
| DuplicateRequest
| SequenceExhausted.
End ServiceError.

Definition service_error_message (e : ServiceError.t) : string :=
  match e with
  | ServiceError.Randomness => "operating-system randomness is unavailable"
  | ServiceError.Abi e => "wallet service ABI rejected a frame: " +:+ abi_error_message e
  | ServiceError.Provider e =>
      "provider authority or state rejected an operation: " +:+ provider_error_message e
  | ServiceError.HandshakeRequired => "host must negotiate a private service session first"
  | ServiceError.AlreadyNegotiated => "wallet service session was already negotiated"
  | ServiceError.SessionMismatch => "host, service, or restart session does not match"
  | ServiceError.SequenceMismatch expected received =>
      "host channel sequence mismatch: expected " +:+ port_string expected
      +:+ ", received " +:+ port_string received
  | ServiceError.DuplicateRequest => "request identifier was already consumed"
  | ServiceError.SequenceExhausted => "channel or event sequence is exhausted"
  end.

Definition failure_from_error (e : ServiceError.t) : ServiceFailure :=
  mkFailure ServiceErrorCode.RuntimeFailure (service_error_message e) None.

Definition invalid_request (message : string) : ServiceFailure :=
  mkFailure ServiceErrorCode.InvalidRequest message None.

Definition stale_approval : ServiceFailure :=
  mkFailure ServiceErrorCode.ApprovalStale
    "approval is stale, expired, or belongs to another authority" None.

Definition hns_read_result_bound : ServiceFailure :=
  mkFailure ServiceErrorCode.RuntimeFailure
    "synchronized Handshake read exceeds its public result bound" None.

(** [hns_read_failure(HnsWalletError::InvalidEvidence)]. *)
Definition invalid_evidence_failure : ServiceFailure :=
  mkFailure ServiceErrorCode.PersistenceFailure
    "synchronized Handshake account state failed authentication" None.

Definition provider_failure (e : ProviderError) : ServiceFailure :=
  let code :=
    match e with
    | AuthorityNotFound => ServiceErrorCode.AuthorityUnknown
    | DuplicateAuthority | AuthorityCapacity | StaleContext | ClockRollback =>
        ServiceErrorCode.AuthorityStale
    | Unauthorized => ServiceErrorCode.PermissionDenied
    | WalletLocked => ServiceErrorCode.WalletLocked
    | RateLimited => ServiceErrorCode.RateLimited
    | Replay => ServiceErrorCode.Replay
    | StaleApproval => ServiceErrorCode.ApprovalStale
    | Persistence => ServiceErrorCode.PersistenceFailure
    | _ => ServiceErrorCode.InvalidRequest
    end in
  mkFailure code (provider_error_message e) None.

(** ** Method classes *)

Definition service_owned_method (m : Method.t) : bool :=
  match m with
  | Method.WalletGetCapabilities | Method.WalletRequestPermissions | Method.WalletGetPermissions
  | Method.WalletRevokePermissions | Method.HnsAccounts | Method.WalletLock => true
  | _ => false
  end.

Definition hns_account_read_method (m : Method.t) : bool :=
  match m with
  | Method.HnsGetBalance | Method.HnsGetTransactions | Method.HnsGetReceiveAddress
  | Method.HnsGetNames | Method.HnsGetName => true
  | _ => false
  end.

Definition value_movement_approval (kind : ApprovalKind) : bool :=
  match kind with
  | KindSend | KindNameTransfer | KindNameFinalize | NameMarketOffer | NameMarketPurchase
  | DirectOffer | DirectOfferAcceptance | SwapRedeem | SwapRefund => true
  | _ => false
  end.

(** ** Known names and accounts *)

(** The fields of [hns_wallet_hns::KnownName] that a permission prompt shows. *)
Record KnownName := mkKnownName { kn_name : bytes; kn_name_hash : bytes }.

Definition printable_byte (b : u8) : bool := (0x20 <=? Byte.to_N b) && (Byte.to_N b <=? 0x7e).
Definition is_printable_ascii (s : string) : bool := forallb printable_byte (str_bytes s).

Definition lowercase_hex (bs : bytes) : string := String.string_of_list_byte (hex_encode bs).

(** [str::from_utf8] accepts every sequence of printable ASCII bytes. *)
Definition canonical_hns_name (n : KnownName) : result string ServiceFailure :=
  if negb (is_empty (kn_name n)) && (len (kn_name n) <=? MAX_HNS_NAME_BYTES)
     && forallb printable_byte (kn_name n)
  then Ok (String.string_of_list_byte (kn_name n))
  else Err (invalid_request "known HNS name is not canonical public text").

Definition validate_hns_account_summary (account : AccountSummary) : result unit ServiceFailure :=
  let valid_receive := is_none_or (acc_receive_display account) (fun value =>
    negb (is_blank value) && (str_len value <=? MAX_PUBLIC_STRING_BYTES)
    && is_printable_ascii value) in
  if negb (bool_decide (acc_module account = Handshake)) || all_zero (acc_account_id account)
     || is_blank (acc_label account) || (MAX_PUBLIC_STRING_BYTES <? str_len (acc_label account))
     || negb (is_printable_ascii (acc_label account)) || negb valid_receive
  then Err (invalid_request "runtime returned an invalid HNS account") else Ok tt.

Record PendingHnsNameScope := mkNameScope {
  scope_disclosures : list HnsNameDisclosure;
  scope_hashes : gset bytes;
}.
#[global] Instance PendingHnsNameScope_eq_dec : EqDecision PendingHnsNameScope.
Proof. solve_decision. Defined.

Record PendingHnsPermissionScope := mkPermissionScope {
  scope_account : AccountSummary;
  scope_names : option PendingHnsNameScope;
}.

(** The derived order of disclosures, and [disclosures.sort()]. *)
Definition disclosure_le (a b : HnsNameDisclosure) : Prop := disclosure_lt b a = false.
#[global] Instance disclosure_le_dec : RelDecision disclosure_le.
Proof. intros a b. unfold disclosure_le. apply _. Defined.
Definition sort_disclosures : list HnsNameDisclosure -> list HnsNameDisclosure :=
  merge_sort disclosure_le.

Section NameScope.
Context `{NameEnv}.

Definition hns_name_disclosure (n : KnownName) : result HnsNameDisclosure ServiceFailure :=
  let* name := canonical_hns_name n in
  let disclosure := mkDisclosure name (lowercase_hex (kn_name_hash n)) in
  let* _ := map_err (fun _ => invalid_evidence_failure) (disclosure_validate disclosure) in
  Ok disclosure.

Fixpoint name_scope_loop (names : list KnownName) (hashes : gset bytes)
    (canonical_names : gset string) (disclosures : list HnsNameDisclosure) :
    result PendingHnsNameScope ServiceFailure :=
  match names with
  | [] => Ok (mkNameScope (sort_disclosures disclosures) hashes)
  | n :: names =>
      let* disclosure := hns_name_disclosure n in
      if bool_decide (kn_name_hash n ∈ hashes) || bool_decide (hnd_name disclosure ∈ canonical_names)
      then Err invalid_evidence_failure else
      name_scope_loop names ({[kn_name_hash n]} ∪ hashes) ({[hnd_name disclosure]} ∪ canonical_names)
        (disclosures ++ [disclosure])
  end.

Definition hns_name_approval_scope (names : list KnownName) :
    result PendingHnsNameScope ServiceFailure :=
  if MAX_HNS_NAME_DISCLOSURES <? len names then Err hns_read_result_bound else
  name_scope_loop names ∅ ∅ [].
End NameScope.

(** ** Interfaces *)

(** The documents the service answers with ([json!]). *)
Inductive ServiceDocument :=
| CapabilitiesDocument (provider_api_version : N) (methods : gset string)
| NoPermissionDocument (permission_generation : N)
| PermissionDocument (origin : string) (permission_generation : N)
    (capabilities : gset PermissionCapability) (accounts : gset bytes) (expires_at_unix : option N)
| AccountDocument (account : string)
| LockedDocument.

(** What the service uses of [serde_json::Value]. *)
Class ServiceJson `{ProviderEnv} := {
  value_is_null : Value -> bool;
  value_as_object : Value -> option (gmap string Value);
  value_as_str : Value -> option string;
  (** [from_value] at [BTreeSet<PermissionCapability>] and at [ModuleId]. *)
  value_to_capabilities : Value -> option (gset PermissionCapability);
  value_to_module : Value -> option ModuleId;
  document : ServiceDocument -> Value;
}.

(** [getrandom::fill], and the number of draws after which it has produced an
    identifier that is not zero or an error. *)
Class OsRandom (E : Type) := {
  os_fill : E -> nat -> E * result bytes unit;
  os_patience : E -> nat;
}.

Abbreviation fails A := (result A ServiceFailure).

Class ServiceRuntime `{ProviderEnv} (S R : Type) := {
  rt_capabilities : R -> gset ServiceCapability.t;
  rt_admit_service_request : R -> S -> ServiceRequest Value -> fails unit;
  rt_supports_provider_method : R -> Method.t -> bool;
  rt_prepare_approval : PendingApproval -> R -> S -> R * S * fails ApprovalSummary.t;
  rt_prepare_hns_account_grant : ApprovedCall -> R -> S -> R * S * fails AccountSummary;
  rt_selected_hns_account : R -> S -> fails AccountSummary;
  rt_current_hns_names : R -> S -> R * S * fails (list KnownName);
  rt_execute_hns_name_read : ApprovedCall -> gset bytes -> R -> S -> R * S * fails Value;
  rt_execute_provider : ApprovedCall -> R -> S -> R * S * fails Value;
  rt_execute_approved_provider : ApprovedCall -> bytes -> N -> R -> S -> R * S * fails Value;
  rt_lock_wallet : R -> S -> R * S * fails unit;
  rt_execute_wallet : WalletRequest.t -> R -> S -> R * S * fails WalletResponse.t;
  rt_execute_wallet_authority_context :
    WalletAuthorityContextRequest -> R -> S -> R * S * fails WalletHnsAuthorityContext;
}.

(** ** Parameters of a request *)

Section Params.
Context `{env : ProviderEnv} `{SJ : !ServiceJson}.

Definition value_get (v : Value) (key : string) : option Value :=
  object ← value_as_object v; (object : gmap string Value) !! key.

Definition validate_empty_params (params : Value) : fails unit :=
  if value_is_null params
     || is_some_and (value_as_object params) (fun object => bool_decide (object = ∅))
  then Ok tt else Err (invalid_request "method does not accept parameters").

Definition requested_capabilities_from_params (params : Value) :
    fails (gset PermissionCapability) :=
  let value := match value_get params "capabilities" with
               | Some value => Some value
               | None => value_get params "scopes"
               end in
  let* value := ok_or value (invalid_request "permission capabilities are required") in
  let* capabilities := ok_or (value_to_capabilities value)
                         (invalid_request "permission capabilities are invalid") in
  if set_is_empty capabilities then Err (invalid_request "permission capabilities are empty") else
  if bool_decide (Accounts ∈ capabilities)
  then Err (invalid_request "Accounts permission requires hns_requestAccounts") else
  Ok capabilities.

Definition requested_capabilities (call : ApprovedCall) : fails (gset PermissionCapability) :=
  if bool_decide (call_method call = Method.HnsRequestAccounts) then Ok {[Accounts]} else
  requested_capabilities_from_params (call_params call).

Definition hns_name_hash_param (params : Value) : fails bytes :=
  let* object := ok_or (object ← value_as_object params;
                        if decide (size object = 1%nat) then Some object else None)
                   (invalid_request "hns_getName requires only nameHash") in
  let* encoded := ok_or (value ← (object : gmap string Value) !! "nameHash"%string;
                         encoded ← value_as_str value;
                         if str_len encoded =? 64 then Some encoded else None)
                    (invalid_request "nameHash must be 32-byte lowercase hexadecimal") in
  ok_or (decode_pairs (str_bytes encoded))
    (invalid_request "nameHash must be canonical lowercase hexadecimal").

Definition requested_module (params : Value) : fails ModuleId :=
  let* value := ok_or (value_get params "module") (invalid_request "module is required") in
  ok_or (value_to_module value) (invalid_request "module is invalid").

(** A send prompt names the chain and the assets the request asked for. *)
Definition validate_approval_summary (call : ApprovedCall) (summary : ApprovalSummary.t) :
    fails unit :=
  match summary with
  | ApprovalSummary.Send amount _ maximum_fee chain _ _ =>
      let check expected :=
        if negb (bool_decide (chain = expected))
           || negb (bool_decide (asset amount = module_asset expected))
           || negb (bool_decide (asset maximum_fee = module_asset expected))
        then Err (invalid_request "send approval asset or chain is mismatched") else Ok tt in
      match call_method call with
      | Method.HnsSend => check Handshake
      | Method.AssetSend =>
          let* module := requested_module (call_params call) in
          if bool_decide (module = Bitcoin) || bool_decide (module = Ethereum)
          then check module else Err (invalid_request "external send module is invalid")
      | _ => Ok tt
      end
  | _ =>
      match call_method call with
      | Method.HnsSend | Method.AssetSend =>
          Err (invalid_request "send approval summary is mismatched")
      | _ => Ok tt
      end
  end.

Definition permission_value (permission : PermissionSnapshot) : Value :=
  match snap_record permission with
  | None => document (NoPermissionDocument (snap_generation permission))
  | Some r => document (PermissionDocument (perm_origin r) (snap_generation permission)
                          (capabilities r) (approved_accounts r) (perm_expires_at_unix r))
  end.

Definition wire_approval_id (id : bytes) : fails bytes :=
  map_err (fun _ => invalid_request "approval identifier is invalid") (WireId.from_bytes id).

Definition provider_authority (url_parse : string -> option ParsedUrl) (a : HostAuthorityFacts) :
    fails HostAuthorityRegistration :=
  let* parsed := map_err provider_failure (origin_parse url_parse (haf_origin a)) in
  Ok {| origin := parsed;
        namespace := match haf_namespace a with NamespaceHns => NsHns | NamespaceIcann => NsIcann end;
        runtime_session := haf_runtime_session_id a;
        runtime_generation := haf_runtime_generation a;
        policy_generation := haf_policy_generation a;
        navigation_generation := haf_navigation_generation a;
        decision_fingerprint := haf_decision_fingerprint a;
        valid_until_unix_ms := haf_valid_until_unix_ms a |}.
End Params.

(** ** The service *)

Record SessionState := mkServiceSession {
  se_host_session_id : bytes;
  se_restart_generation : N;
  se_next_host_sequence : N;
  se_next_service_sequence : N;
}.

Record PendingState := mkPendingState {
  ps_approval_id : bytes;
  ps_binding : ProviderBinding;
  ps_kind : ApprovalKind;
  ps_expires_at_unix : N;
  ps_hns_permission_scope : option PendingHnsPermissionScope;
}.

(** [sv_entropy] is the operating system's. *)
Record WalletService `{ProviderEnv} (S R E : Type) := mkService {
  sv_provider : ProviderCore S;
  sv_runtime : R;
  sv_entropy : E;
  sv_service_session_id : bytes;
  sv_wallet_session_id : bytes;
  sv_capabilities : gset ServiceCapability.t;
  sv_session : option SessionState;
  sv_seen_request_ids : gset bytes;
  sv_request_order : list bytes;
  sv_pending : gmap bytes PendingState;
  sv_event_sequences : gmap (bytes * N) N;
}.
Arguments mkService {_ S R E}.
Arguments sv_provider {_ S R E}.
Arguments sv_runtime {_ S R E}.
Arguments sv_entropy {_ S R E}.
Arguments sv_service_session_id {_ S R E}.
Arguments sv_wallet_session_id {_ S R E}.
Arguments sv_capabilities {_ S R E}.
Arguments sv_session {_ S R E}.
Arguments sv_seen_request_ids {_ S R E}.
Arguments sv_request_order {_ S R E}.
Arguments sv_pending {_ S R E}.
Arguments sv_event_sequences {_ S R E}.

(** Field assignments. *)
Section Assign.
Context `{ProviderEnv} {S R E : Type}.
Implicit Types (w : WalletService S R E).

Definition set_provider w (c : ProviderCore S) : WalletService S R E :=
  mkService c (sv_runtime w) (sv_entropy w) (sv_service_session_id w) (sv_wallet_session_id w)
    (sv_capabilities w) (sv_session w) (sv_seen_request_ids w) (sv_request_order w) (sv_pending w)
    (sv_event_sequences w).
Definition set_runtime w (r : R) : WalletService S R E :=
  mkService (sv_provider w) r (sv_entropy w) (sv_service_session_id w) (sv_wallet_session_id w)
    (sv_capabilities w) (sv_session w) (sv_seen_request_ids w) (sv_request_order w) (sv_pending w)
    (sv_event_sequences w).
Definition set_entropy w (e : E) : WalletService S R E :=
  mkService (sv_provider w) (sv_runtime w) e (sv_service_session_id w) (sv_wallet_session_id w)
    (sv_capabilities w) (sv_session w) (sv_seen_request_ids w) (sv_request_order w) (sv_pending w)
    (sv_event_sequences w).
Definition set_wallet_session_id w (id : bytes) : WalletService S R E :=
  mkService (sv_provider w) (sv_runtime w) (sv_entropy w) (sv_service_session_id w) id
    (sv_capabilities w) (sv_session w) (sv_seen_request_ids w) (sv_request_order w) (sv_pending w)
    (sv_event_sequences w).
Definition set_session w (s : option SessionState) : WalletService S R E :=
  mkService (sv_provider w) (sv_runtime w) (sv_entropy w) (sv_service_session_id w)
    (sv_wallet_session_id w) (sv_capabilities w) s (sv_seen_request_ids w) (sv_request_order w)
    (sv_pending w) (sv_event_sequences w).
Definition set_seen w (ids : gset bytes) (order : list bytes) : WalletService S R E :=
  mkService (sv_provider w) (sv_runtime w) (sv_entropy w) (sv_service_session_id w)
    (sv_wallet_session_id w) (sv_capabilities w) (sv_session w) ids order (sv_pending w)
    (sv_event_sequences w).
Definition set_service_pending w (p : gmap bytes PendingState) : WalletService S R E :=
  mkService (sv_provider w) (sv_runtime w) (sv_entropy w) (sv_service_session_id w)
    (sv_wallet_session_id w) (sv_capabilities w) (sv_session w) (sv_seen_request_ids w)
    (sv_request_order w) p (sv_event_sequences w).
Definition set_event_sequences w (m : gmap (bytes * N) N) : WalletService S R E :=
  mkService (sv_provider w) (sv_runtime w) (sv_entropy w) (sv_service_session_id w)
    (sv_wallet_session_id w) (sv_capabilities w) (sv_session w) (sv_seen_request_ids w)
    (sv_request_order w) (sv_pending w) m.
End Assign.

(** [random_service_session] and [random_wallet_session]: draw until the
    identifier is not zero. *)
Section Random.
Context {E : Type} `{OsRandom E}.

Fixpoint random_session_loop (fuel : nat) (e : E) : E * result bytes ServiceError.t :=
  match fuel with
  | O => (e, Err ServiceError.Randomness)
  | S fuel =>
      match os_fill e 32 with
      | (e, Err _) => (e, Err ServiceError.Randomness)
      | (e, Ok drawn) =>
          match WireId.from_bytes drawn with
          | Ok id => (e, Ok id)
          | Err _ => random_session_loop fuel e
          end
      end
  end.
Definition random_session (e : E) : E * result bytes ServiceError.t :=
  random_session_loop (os_patience e) e.
End Random.

(** The capabilities a service announces: its own and the runtime's, without
    those whose prerequisites are missing. *)
Definition service_capabilities (runtime : gset ServiceCapability.t) (persistent_permissions : bool) :
    gset ServiceCapability.t :=
  let drop_unless (required : ServiceCapability.t) (dropped c : gset ServiceCapability.t) :=
    if bool_decide (required ∈ c) then c else c ∖ dropped in
  let c : gset ServiceCapability.t :=
    {[ServiceCapability.CanonicalFraming; ServiceCapability.RestartIsolation;
      ServiceCapability.OpaqueAuthorityRegistry; ServiceCapability.StructuredApprovals;
      ServiceCapability.TypedEvents]} in
  let c := if persistent_permissions then c ∪ {[ServiceCapability.PersistentPermissions]} else c in
  let c := (c ∪ runtime) ∖ {[ServiceCapability.BrowserIntegration]} in
  let c := if persistent_permissions then c else c ∖ {[ServiceCapability.PersistentPermissions]} in
  let c := drop_unless ServiceCapability.ProviderDispatch
             {[ServiceCapability.ValueMovement; ServiceCapability.HnsValueOperationsV1;
               ServiceCapability.ShakescapeShakedexV1]} c in
  let c := drop_unless ServiceCapability.WalletOperations {[ServiceCapability.HnsReadOperationsV1]} c in
  let c := if bool_decide (ServiceCapability.WalletOperations ∈ c)
              && bool_decide (ServiceCapability.HnsReadOperationsV1 ∈ c) then c
           else c ∖ {[ServiceCapability.HnsWalletAuthorityContextV1;
                      ServiceCapability.HnsValueOperationsV1; ServiceCapability.ShakescapeShakedexV1]} in
  drop_unless ServiceCapability.HnsValueOperationsV1 {[ServiceCapability.ShakescapeShakedexV1]} c.

Section Service.
Context `{env : ProviderEnv} `{SJ : !ServiceJson} {S R E : Type} `{store : !ProviderStateStore S} `{RT : !ServiceRuntime S R}
  `{OS : !OsRandom E} `{NE : NameEnv}.
Context `{JH : JsonCodec (HostFrame Value), JS : JsonCodec (ServiceFrame Value), JA : JsonCodec ApprovalPrompt,
          JE : JsonCodec ProviderEventEnvelope, JV : JsonCodec Value, JB : JsonCodec (ProviderBody Value)}.
Context (url_parse : string -> option ParsedUrl).
Abbreviation service := (WalletService S R E).
Implicit Types (w : service).

Definition service_new (state : S) (runtime : R) (persistent_permissions : bool) (e : E) :
    E * result service ServiceError.t :=
  let! e, service_session_id := random_session e in
  let! e, wallet_session_id := random_session e in
  (e, Ok (mkService (core_new state wallet_session_id true) runtime e service_session_id
            wallet_session_id (service_capabilities (rt_capabilities runtime) persistent_permissions)
            None ∅ [] ∅ ∅)).

Definition has_service_capability w (c : ServiceCapability.t) : bool :=
  bool_decide (c ∈ sv_capabilities w).

(** A provider operation and a runtime operation inside a method. *)
Definition on_provider {A} w (p : ProviderCore S * result A ProviderError) : service * fails A :=
  (set_provider w p.1, map_err provider_failure p.2).

Definition on_runtime {A} w (f : R -> S -> R * S * fails A) : service * fails A :=
  let '(r, st, result) := f (sv_runtime w) (state (sv_provider w)) in
  (set_runtime (set_provider w (set_state (sv_provider w) st)) r, result).

(** *** Sessions *)

Definition rotate_wallet_session w (locked : bool) : service * result unit ServiceError.t :=
  let w := set_event_sequences (set_service_pending w ∅) ∅ in
  let '(e, drawn) := random_session (sv_entropy w) in
  let w := set_entropy w e in
  match drawn with
  | Ok id =>
      let w := set_wallet_session_id w id in
      (set_provider w (set_wallet_state (sv_provider w) id locked), Ok tt)
  | Err error =>
      (set_provider w (set_wallet_state (sv_provider w) (sv_wallet_session_id w) true), Err error)
  end.

Definition next_service_sequence w : service * result (SessionState * N) ServiceError.t :=
  match sv_session w with
  | None => (w, Err ServiceError.HandshakeRequired)
  | Some s =>
      let sequence := se_next_service_sequence s in
      match u64_add sequence 1 with
      | None => (w, Err ServiceError.SequenceExhausted)
      | Some next =>
          let s := mkServiceSession (se_host_session_id s) (se_restart_generation s)
                     (se_next_host_sequence s) next in
          (set_session w (Some s), Ok (s, sequence))
      end
  end.

Definition accept_request_header {T} w (envelope : SessionEnvelope T) :
    service * result unit ServiceError.t :=
  match sv_session w with
  | None => (w, Err ServiceError.HandshakeRequired)
  | Some s =>
      if negb (bool_decide (host_session_id envelope = se_host_session_id s))
         || negb (bool_decide (service_session_id envelope = sv_service_session_id w))
         || negb (restart_generation envelope =? se_restart_generation s)
      then (w, Err ServiceError.SessionMismatch) else
      if negb (channel_sequence envelope =? se_next_host_sequence s)
      then (w, Err (ServiceError.SequenceMismatch (se_next_host_sequence s)
                      (channel_sequence envelope))) else
      if bool_decide (request_id envelope ∈ sv_seen_request_ids w)
      then (w, Err ServiceError.DuplicateRequest) else
      match u64_add (se_next_host_sequence s) 1 with
      | None => (w, Err ServiceError.SequenceExhausted)
      | Some next =>
          let w := set_session w (Some (mkServiceSession (se_host_session_id s)
                     (se_restart_generation s) next (se_next_service_sequence s))) in
          let ids := {[request_id envelope]} ∪ sv_seen_request_ids w in
          let order := sv_request_order w ++ [request_id envelope] in
          let w :=
            match order with
            | expired :: rest =>
                if MAX_SEEN_REQUEST_IDS <? len order then set_seen w (ids ∖ {[expired]}) rest
                else set_seen w ids order
            | [] => set_seen w ids order
            end in
          (w, Ok tt)
      end
  end.

Definition prune_pending w (now_unix : N) : service :=
  set_service_pending w (retain (fun _ p => now_unix <? ps_expires_at_unix p) (sv_pending w)).

Definition negotiate w (hello : HostHello) : service * result bytes ServiceError.t :=
  if is_some (sv_session w) then (w, Err ServiceError.AlreadyNegotiated) else
  let w := set_session w (Some (mkServiceSession (hh_host_session_id hello)
             (hh_restart_generation hello) 1 1)) in
  (w, map_err ServiceError.Abi (encode_service_frame (ServiceHelloFrame
        (mkServiceHello WALLET_ABI_VERSION (hh_platform hello) (hh_host_session_id hello)
           (sv_service_session_id w) (hh_restart_generation hello) (sv_capabilities w)
           limits_default)))).

Definition is_disconnect_payload (payload : ProviderEventPayload.t) : bool :=
  match payload with ProviderEventPayload.Disconnect _ => true | _ => false end.

Definition emit_event w (handle : bytes) (revision : N) (payload : ProviderEventPayload.t)
    (now_unix_ms : N) : service * result bytes ServiceError.t :=
  let '(c, snapshot) := permission_snapshot (sv_provider w) handle revision now_unix_ms in
  let w := set_provider w c in
  match snapshot with
  | Err error => (set_event_sequences w ∅, Err (ServiceError.Provider error))
  | Ok permission =>
      if is_none (snap_record permission) && negb (is_disconnect_payload payload)
      then (set_event_sequences w ∅, Err (ServiceError.Provider Unauthorized)) else
      let retire_after_emit := is_none (snap_record permission) in
      let key := (handle, revision) in
      let current := default 0 (sv_event_sequences w !! key) in
      let w := set_event_sequences w (<[key := current]> (sv_event_sequences w)) in
      let! w, event_sequence := (w, ok_or (u64_add current 1) ServiceError.SequenceExhausted) in
      let w := set_event_sequences w (<[key := event_sequence]> (sv_event_sequences w)) in
      let! w, numbered := next_service_sequence w in
      let '(session, channel_sequence) := numbered in
      let encoded := map_err ServiceError.Abi (encode_service_frame (Event
        (mkEvent WALLET_ABI_VERSION (se_host_session_id session) (sv_service_session_id w)
           (se_restart_generation session) channel_sequence
           (mkBinding handle revision (wallet_session (sv_provider w)) (snap_generation permission))
           event_sequence payload))) in
      let w := if retire_after_emit
               then set_event_sequences w (delete key (sv_event_sequences w)) else w in
      (w, encoded)
  end.

(** *** Methods on offer *)

Definition moves_value (m : Method.t) : bool := is_some_and (Method.approval m) value_movement_approval.

Definition grantable_permission_capabilities w : gset PermissionCapability :=
  list_to_set (List.filter (fun capability => negb (bool_decide (capability = Accounts)))
    (omap Method.permission
      (List.filter (fun m =>
         negb (bool_decide (m = Method.HnsRequestAccounts) || bool_decide (m = Method.HnsAccounts))
         && rt_supports_provider_method (sv_runtime w) m
         && (negb (moves_value m) || has_service_capability w ServiceCapability.ValueMovement))
         Method.ALL))).

Definition supported_provider_method w (m : Method.t) : bool :=
  if bool_decide (m = Method.WalletRequestPermissions)
  then negb (set_is_empty (grantable_permission_capabilities w)) else
  if bool_decide (m = Method.HnsRequestAccounts) || bool_decide (m = Method.HnsAccounts)
  then rt_supports_provider_method (sv_runtime w) Method.HnsRequestAccounts else
  if bool_decide (m = Method.WalletLock)
     && negb (has_service_capability w ServiceCapability.WalletOperations) then false else
  if moves_value m && negb (has_service_capability w ServiceCapability.ValueMovement) then false else
  service_owned_method m || rt_supports_provider_method (sv_runtime w) m.

Definition supported_provider_methods w : list Method.t :=
  if negb (has_service_capability w ServiceCapability.ProviderDispatch) then [] else
  List.filter (supported_provider_method w) Method.ALL.

Definition supported_provider_method_names w : gset string :=
  list_to_set (Method.wire_name <$> supported_provider_methods w).

(** The availability tests of [provider_request], before any parameter is read. *)
Definition method_available w (m : Method.t) : fails unit :=
  if bool_decide (m = Method.WalletLock)
     && negb (has_service_capability w ServiceCapability.WalletOperations)
  then Err (failure_unsupported ServiceCapability.WalletOperations) else
  if moves_value m && negb (has_service_capability w ServiceCapability.ValueMovement)
  then Err (failure_unsupported ServiceCapability.ValueMovement) else
  if (bool_decide (m = Method.HnsRequestAccounts) || bool_decide (m = Method.HnsAccounts))
     && negb (rt_supports_provider_method (sv_runtime w) Method.HnsRequestAccounts)
  then Err (failure_unsupported ServiceCapability.ProviderDispatch) else
  if negb (service_owned_method m) && negb (rt_supports_provider_method (sv_runtime w) m)
  then Err (failure_unsupported ServiceCapability.ProviderDispatch) else Ok tt.

Definition takes_no_params (m : Method.t) : bool :=
  match m with
  | Method.HnsRequestAccounts | Method.HnsAccounts | Method.HnsGetBalance
  | Method.HnsGetTransactions | Method.HnsGetReceiveAddress | Method.HnsGetNames
  | Method.WalletGetCapabilities | Method.WalletGetPermissions | Method.WalletGetStatus
  | Method.WalletRevokePermissions | Method.WalletLock => true
  | _ => false
  end.

(** The parameter tests of [provider_request]; the methods are distinct cases. *)
Definition check_method_params w (m : Method.t) (params : Value) : fails unit :=
  let* _ := if takes_no_params m then validate_empty_params params else Ok tt in
  let* _ := if bool_decide (m = Method.HnsGetName)
            then let* _ := hns_name_hash_param params in Ok tt else Ok tt in
  if bool_decide (m = Method.WalletRequestPermissions) then
    let* requested := requested_capabilities_from_params params in
    if negb (bool_decide (requested ⊆ grantable_permission_capabilities w))
    then Err (failure_unsupported ServiceCapability.ProviderDispatch) else Ok tt
  else Ok tt.

(** *** Permissions *)

Definition provider_binding w (handle : bytes) (revision now_unix_ms : N) :
    service * fails ProviderBinding :=
  let! w, permission := on_provider w
    (permission_snapshot (sv_provider w) handle revision now_unix_ms) in
  (w, Ok (mkBinding handle revision (wallet_session (sv_provider w)) (snap_generation permission))).

Definition hns_permission_request_is_account_scoped w (requested : gset PermissionCapability) : bool :=
  existsb (fun m =>
    hns_account_read_method m && rt_supports_provider_method (sv_runtime w) m
    && is_some_and (Method.permission m) (fun capability => bool_decide (capability ∈ requested)))
    Method.ALL.

(** [runtime.selected_hns_account()?] followed by its validation. *)
Definition selected_account w : fails AccountSummary :=
  let* selected := rt_selected_hns_account (sv_runtime w) (state (sv_provider w)) in
  let* _ := validate_hns_account_summary selected in
  Ok selected.

(** The record covers accounts, and exactly this one. *)
Definition approves_account (r : PermissionRecord) (account : AccountSummary) : bool :=
  bool_decide (Accounts ∈ capabilities r)
  && bool_decide (approved_accounts r = {[acc_account_id account]}).

Definition prepare_hns_permission_scope w (approval : PendingApproval)
    (requested : gset PermissionCapability) (now_unix_ms : N) :
    service * fails (option PendingHnsPermissionScope) :=
  if negb (hns_permission_request_is_account_scoped w requested) then (w, Ok None) else
  if negb (bool_decide (call_namespace (ap_call approval) = NsHns))
  then (w, Err (provider_failure Unauthorized)) else
  let! w, permission := on_provider w
    (permission_snapshot (sv_provider w) (ap_authority_handle approval)
       (ap_authority_revision approval) now_unix_ms) in
  if negb (snap_generation permission =? ap_permission_generation approval)
  then (w, Err stale_approval) else
  let! w, record := (w, ok_or (snap_record permission) (provider_failure Unauthorized)) in
  let! w, selected := (w, selected_account w) in
  if negb (approves_account record selected) then (w, Err (provider_failure Unauthorized)) else
  let! w, names :=
    if bool_decide (Names ∈ requested) then
      let! w, current := on_runtime w rt_current_hns_names in
      let! w, scope := (w, hns_name_approval_scope current) in
      (w, Ok (Some scope))
    else (w, Ok None) in
  (w, Ok (Some (mkPermissionScope selected names))).

Definition verify_pending_hns_permission_scope w (handle : bytes) (revision : N)
    (pending : PendingState) (now_unix_ms : N) : service * fails unit :=
  match ps_hns_permission_scope pending with
  | None => (w, Ok tt)
  | Some expected =>
      let! w, permission := on_provider w
        (permission_snapshot (sv_provider w) handle revision now_unix_ms) in
      let! w, record := (w, ok_or (snap_record permission) stale_approval) in
      if negb (snap_generation permission =? pb_permission_generation (ps_binding pending))
         || negb (approves_account record (scope_account expected))
      then (w, Err stale_approval) else
      let! w, selected := (w, selected_account w) in
      if negb (bool_decide (selected = scope_account expected)) then (w, Err stale_approval) else
      match scope_names expected with
      | None => (w, Ok tt)
      | Some expected_names =>
          let! w, names := on_runtime w rt_current_hns_names in
          let! w, current := (w, map_err (fun _ => stale_approval) (hns_name_approval_scope names)) in
          if negb (bool_decide (current = expected_names)) then (w, Err stale_approval) else (w, Ok tt)
      end
  end.

Record HnsReadPermissionExtension := mkExtension {
  ext_capabilities : gset PermissionCapability;
  ext_accounts : gset bytes;
  ext_names : gset bytes;
  ext_expires_at_unix : option N;
}.

Definition hns_read_permission_extension w (handle : bytes) (revision : N) (call : ApprovedCall)
    (expected_generation : N) (requested : gset PermissionCapability)
    (pending_scope : option PendingHnsPermissionScope) (now_unix_ms : N) :
    service * fails HnsReadPermissionExtension :=
  if negb (hns_permission_request_is_account_scoped w requested) then
    if is_some pending_scope then (w, Err stale_approval) else
    (w, Ok (mkExtension requested ∅ ∅ None))
  else
  if negb (bool_decide (call_namespace call = NsHns))
  then (w, Err (provider_failure Unauthorized)) else
  let! w, snapshot := on_provider w
    (permission_snapshot (sv_provider w) handle revision now_unix_ms) in
  if negb (snap_generation snapshot =? expected_generation) then (w, Err stale_approval) else
  let! w, record := (w, ok_or (snap_record snapshot) (provider_failure Unauthorized)) in
  let! w, selected := (w, selected_account w) in
  if negb (approves_account record selected) then (w, Err (provider_failure Unauthorized)) else
  let! w, scope := (w, ok_or pending_scope stale_approval) in
  if negb (bool_decide (scope_account scope = selected)) then (w, Err stale_approval) else
  let! w, names :=
    if bool_decide (Names ∈ requested)
    then (w, let* scope := ok_or (scope_names scope) stale_approval in Ok (scope_hashes scope))
    else if is_some (scope_names scope) then (w, Err stale_approval)
    else (w, Ok (approved_names record)) in
  if MAX_PROVIDER_HNS_READ_ITEMS <? set_count names then (w, Err hns_read_result_bound) else
  (w, Ok (mkExtension (capabilities record ∪ requested) {[acc_account_id selected]} names
            (perm_expires_at_unix record))).

Definition authorize_hns_account_read w (handle : bytes) (revision : N) (call : ApprovedCall)
    (now_unix_ms : N) : service * fails (gset bytes) :=
  if negb (bool_decide (call_namespace call = NsHns))
  then (w, Err (provider_failure Unauthorized)) else
  let! w, required := (w, ok_or (Method.permission (call_method call))
                            (invalid_request "HNS read has no permission capability")) in
  let! w, permission := on_provider w
    (permission_snapshot (sv_provider w) handle revision now_unix_ms) in
  let! w, record := (w, ok_or (snap_record permission) (provider_failure Unauthorized)) in
  let! w, selected := (w, selected_account w) in
  if negb (bool_decide (Accounts ∈ capabilities record))
     || negb (bool_decide (required ∈ capabilities record))
     || negb (bool_decide (approved_accounts record = {[acc_account_id selected]}))
  then (w, Err (provider_failure Unauthorized)) else
  if MAX_PROVIDER_HNS_READ_ITEMS <? set_count (approved_names record)
  then (w, Err (provider_failure Persistence)) else
  let! w, _ :=
    if bool_decide (call_method call = Method.HnsGetName) then
      (w, let* requested := hns_name_hash_param (call_params call) in
          if bool_decide (requested ∈ approved_names record) then Ok tt
          else Err (provider_failure Unauthorized))
    else (w, Ok tt) in
  (w, Ok (approved_names record)).

Definition approve_hns_account_grant w (handle : bytes) (revision : N) (call : ApprovedCall)
    (expected_permission_generation now_unix_ms : N) : service * fails Value :=
  let! w, _ := (w, validate_empty_params (call_params call)) in
  if negb (bool_decide (call_namespace call = NsHns))
  then (w, Err (invalid_request "Handshake accounts require the HNS namespace")) else
  if negb (rt_supports_provider_method (sv_runtime w) Method.HnsRequestAccounts)
  then (w, Err (failure_unsupported ServiceCapability.ProviderDispatch)) else
  let! w, account := on_runtime w (rt_prepare_hns_account_grant call) in
  let! w, _ := (w, validate_hns_account_summary account) in
  let value := document (AccountDocument (lowercase_hex (acc_account_id account))) in
  let! w, encoded := (w, ok_or (json_to_vec value) (invalid_request "account result encoding failed")) in
  if MAX_PROVIDER_RESULT_BYTES <? len encoded
  then (w, Err (invalid_request "account result exceeds the provider bound")) else
  let! w, permission := on_provider w
    (grant_scoped_permissions_at_generation (sv_provider w) handle revision
       expected_permission_generation {[Accounts]} {[acc_account_id account]} ∅ now_unix_ms None) in
  if negb (bool_decide (approved_accounts permission = {[acc_account_id account]}))
  then (w, Err (provider_failure Persistence)) else
  (set_event_sequences (set_service_pending w ∅) ∅, Ok value).

Definition approved_hns_accounts w (handle : bytes) (revision : N) (call : ApprovedCall)
    (now_unix_ms : N) : service * fails Value :=
  let! w, _ := (w, validate_empty_params (call_params call)) in
  if negb (bool_decide (call_namespace call = NsHns))
  then (w, Err (invalid_request "Handshake accounts require the HNS namespace")) else
  let! w, permission := on_provider w
    (permission_snapshot (sv_provider w) handle revision now_unix_ms) in
  let! w, record := (w, ok_or (snap_record permission) (provider_failure Unauthorized)) in
  let! w, selected := (w, selected_account w) in
  if negb (approves_account record selected) then (w, Err (provider_failure Unauthorized)) else
  (w, Ok (document (AccountDocument (lowercase_hex (acc_account_id selected))))).

(** *** Execution *)

Definition execute_call w (handle : bytes) (revision : N) (call : ApprovedCall)
    (approved_pending : option PendingState) (now_unix_ms : N) : service * fails Value :=
  match call_method call with
  | Method.WalletGetCapabilities =>
      (w, Ok (document (CapabilitiesDocument PROVIDER_API_VERSION (supported_provider_method_names w))))
  | Method.WalletGetPermissions =>
      let! w, permission := on_provider w
        (permission_snapshot (sv_provider w) handle revision now_unix_ms) in
      let w := if is_none (snap_record permission) then set_event_sequences w ∅ else w in
      (w, Ok (permission_value permission))
  | Method.WalletRevokePermissions =>
      let! w, generation := on_provider w
        (revoke_permissions (sv_provider w) handle revision now_unix_ms) in
      (set_event_sequences (set_service_pending w ∅) ∅,
       Ok (document (NoPermissionDocument generation)))
  | Method.WalletRequestPermissions =>
      let! w, requested := (w, requested_capabilities call) in
      if negb (bool_decide (requested ⊆ grantable_permission_capabilities w))
      then (w, Err (failure_unsupported ServiceCapability.ProviderDispatch)) else
      let! w, approved := (w, ok_or approved_pending stale_approval) in
      let expected_generation := pb_permission_generation (ps_binding approved) in
      let! w, extension := hns_read_permission_extension w handle revision call expected_generation
        requested (ps_hns_permission_scope approved) now_unix_ms in
      let! w, permission := on_provider w
        (grant_scoped_permissions_at_generation (sv_provider w) handle revision expected_generation
           (ext_capabilities extension) (ext_accounts extension) (ext_names extension) now_unix_ms
           (ext_expires_at_unix extension)) in
      (set_event_sequences (set_service_pending w ∅) ∅,
       Ok (permission_value {| snap_generation := generation permission;
                               snap_record := Some permission |}))
  | Method.HnsRequestAccounts =>
      let! w, approved := (w, ok_or approved_pending stale_approval) in
      approve_hns_account_grant w handle revision call
        (pb_permission_generation (ps_binding approved)) now_unix_ms
  | Method.HnsAccounts => approved_hns_accounts w handle revision call now_unix_ms
  | Method.WalletLock =>
      let! w, _ := on_runtime w rt_lock_wallet in
      let '(w, rotated) := rotate_wallet_session w true in
      let! w, _ := (w, map_err failure_from_error rotated) in
      (w, Ok (document LockedDocument))
  | m =>
      if hns_account_read_method m then
        let! w, approved_names := authorize_hns_account_read w handle revision call now_unix_ms in
        if bool_decide (m = Method.HnsGetNames) || bool_decide (m = Method.HnsGetName)
        then on_runtime w (rt_execute_hns_name_read call approved_names)
        else on_runtime w (rt_execute_provider call)
      else
        match approved_pending with
        | Some pending => on_runtime w
            (rt_execute_approved_provider call (ps_approval_id pending) (now_unix_ms / 1000))
        | None => on_runtime w (rt_execute_provider call)
        end
  end.

Definition approval_summary w (approval : PendingApproval) (now_unix_ms : N) :
    service * fails (ApprovalSummary.t * option PendingHnsPermissionScope) :=
  let call := ap_call approval in
  let! w, prepared :=
    match call_method call with
    | Method.WalletRequestPermissions =>
        let! w, capabilities := (w, requested_capabilities call) in
        let! w, scope := prepare_hns_permission_scope w approval capabilities now_unix_ms in
        let hns_names := default [] (scope_disclosures <$> (scope ≫= scope_names)) in
        (w, Ok (ApprovalSummary.Permissions capabilities hns_names, scope))
    | Method.HnsRequestAccounts =>
        let! w, capabilities := (w, requested_capabilities call) in
        (w, Ok (ApprovalSummary.Permissions capabilities [], None))
    | Method.WalletEnableModule | Method.WalletDisableModule =>
        let! w, module := (w, requested_module (call_params call)) in
        let action := if bool_decide (call_method call = Method.WalletEnableModule)
                      then Enable else Disable in
        (w, Ok (ApprovalSummary.ModuleEnablement module action, None))
    | _ =>
        let! w, summary := on_runtime w (rt_prepare_approval approval) in
        (w, Ok (summary, None))
    end in
  let! w, _ := (w, validate_approval_summary call prepared.1) in
  (w, Ok prepared).

(** [let _ = self.provider.reject(..)]. *)
Definition discard_approval w (handle : bytes) (revision : N) (id : bytes) (now_unix_ms : N) : service :=
  set_provider w (reject (sv_provider w) handle revision id now_unix_ms).1.

(** [ProviderAction::ApprovalRequired] in [provider_request]. *)
Definition ask_approval w (handle : bytes) (revision : N) (method_name : string)
    (approval : PendingApproval) (now_unix_ms : N) : service * fails (ServiceResponse Value) :=
  let id := ap_id approval in
  let discard w failure := (discard_approval w handle revision id now_unix_ms, Err failure) in
  if MAX_SERVICE_PENDING_APPROVALS <=? count (sv_pending w) then
    let! w, _ := on_provider w (reject (sv_provider w) handle revision id now_unix_ms) in
    (w, Err (invalid_request "too many pending approvals"))
  else
  match approval_summary w approval now_unix_ms with
  | (w, Err failure) => discard w failure
  | (w, Ok (summary, scope)) =>
      match wire_approval_id id with
      | Err failure => discard w failure
      | Ok wire_id =>
          match checked_mul U64_MAX (ap_expires_at_unix approval) 1000 with
          | None => discard w (invalid_request "approval expiry overflow")
          | Some expires_at_unix_ms =>
              let binding := mkBinding handle revision (ap_wallet_session approval)
                               (ap_permission_generation approval) in
              let prompt := mkPrompt wire_id binding (call_origin (ap_call approval)) method_name
                              expires_at_unix_ms summary in
              match prompt_validate prompt (ap_kind approval) now_unix_ms with
              | Err error => discard w (invalid_request (abi_error_message error))
              | Ok _ =>
                  let pending := mkPendingState id binding (ap_kind approval)
                                   (ap_expires_at_unix approval) scope in
                  (set_service_pending w (<[wire_id := pending]> (sv_pending w)),
                   Ok (Abi.ApprovalRequired prompt))
              end
          end
      end
  end.

(** [ProviderAction::Execute] in [provider_request]. *)
Definition execute_request w (handle : bytes) (revision : N) (call : ApprovedCall) (now_unix_ms : N) :
    service * fails (ServiceResponse Value) :=
  let! w, lock_permission_generation :=
    if bool_decide (call_method call = Method.WalletLock) then
      let! w, binding := provider_binding w handle revision now_unix_ms in
      (w, Ok (Some (pb_permission_generation binding)))
    else (w, Ok None) in
  let! w, value := execute_call w handle revision call None now_unix_ms in
  let! w, binding :=
    match lock_permission_generation with
    | Some generation =>
        (w, Ok (mkBinding handle revision (wallet_session (sv_provider w)) generation))
    | None => provider_binding w handle revision now_unix_ms
    end in
  (w, Ok (ProviderResult binding value)).

Definition provider_request w (handle : bytes) (revision nonce : N) (method_name : string)
    (params : Value) (now_unix_ms : N) : service * fails (ServiceResponse Value) :=
  if negb (has_service_capability w ServiceCapability.ProviderDispatch)
  then (w, Err (failure_unsupported ServiceCapability.ProviderDispatch)) else
  let! w, method := (w, map_err provider_failure (Method.parse method_name)) in
  let! w, _ := (w, method_available w method) in
  let! w, _ := (w, check_method_params w method params) in
  let! w, encoded := (w, ok_or (json_to_vec (mkBody method_name params))
                           (invalid_request "provider request encoding failed")) in
  let '(c, action) := request (sv_provider w) handle revision nonce now_unix_ms encoded in
  let w := set_provider w c in
  match action with
  | Err error =>
      let w := if bool_decide (error = Unauthorized) || bool_decide (error = ClockRollback)
               then set_event_sequences w ∅ else w in
      let w := if bool_decide (error = ClockRollback) then set_service_pending w ∅ else w in
      (w, Err (provider_failure error))
  | Ok (Execute call) => execute_request w handle revision call now_unix_ms
  | Ok (Provider.ApprovalRequired approval) =>
      ask_approval w handle revision method_name approval now_unix_ms
  end.

Definition approval_decision w (handle : bytes) (revision : N) (id : bytes)
    (decision : ApprovalDecision.t) (now_unix_ms : N) : service * fails (ServiceResponse Value) :=
  let! w, pending := (w, ok_or (sv_pending w !! id) stale_approval) in
  if negb (bool_decide (pb_authority_handle (ps_binding pending) = handle))
     || negb (pb_authority_revision (ps_binding pending) =? revision)
     || (ps_expires_at_unix pending <=? now_unix_ms / 1000)
  then (w, Err stale_approval) else
  let! w, binding := provider_binding w handle revision now_unix_ms in
  if negb (bool_decide (ps_binding pending = binding)) then (w, Err stale_approval) else
  let forget w := set_service_pending w (delete id (sv_pending w)) in
  match decision with
  | ApprovalDecision.Reject =>
      let! w, _ := on_provider w (reject (sv_provider w) handle revision id now_unix_ms) in
      (forget w, Ok (ApprovalRejected id))
  | ApprovalDecision.Approve =>
      match verify_pending_hns_permission_scope w handle revision pending now_unix_ms with
      | (w, Err failure) => (forget (discard_approval w handle revision id now_unix_ms), Err failure)
      | (w, Ok _) =>
          let! w, call := on_provider w (approve (sv_provider w) handle revision id now_unix_ms) in
          if negb (bool_decide (Method.approval (call_method call) = Some (ps_kind pending)))
          then (forget w, Err stale_approval) else
          let w := forget w in
          let! w, value := execute_call w handle revision call (Some pending) now_unix_ms in
          let! w, binding := provider_binding w handle revision now_unix_ms in
          (w, Ok (ProviderResult binding value))
      end
  end.

(** *** Requests *)

Definition provider_capabilities w (handle : bytes) (revision now_unix_ms : N) :
    service * fails (ServiceResponse Value) :=
  let! w, binding := provider_binding w handle revision now_unix_ms in
  (w, Ok (CapabilitiesResponse binding
            (mkSnapshot PROVIDER_SCHEMA_VERSION APPROVAL_SCHEMA_VERSION (pb_wallet_session_id binding)
               (pb_permission_generation binding) (supported_provider_method_names w)))).

(** What a service forgets about a handle. *)
Definition forget_authority w (handle : bytes) : service :=
  set_event_sequences
    (set_service_pending w
       (retain (fun _ p => negb (bool_decide (pb_authority_handle (ps_binding p) = handle)))
          (sv_pending w)))
    (retain (fun k _ => negb (bool_decide (k.1 = handle))) (sv_event_sequences w)).

Definition wallet_operation w (request : WalletRequest.t) : service * fails (ServiceResponse Value) :=
  if negb (has_service_capability w ServiceCapability.WalletOperations)
  then (w, Err (failure_unsupported ServiceCapability.WalletOperations)) else
  let! w, response := on_runtime w (rt_execute_wallet request) in
  let! w, _ :=
    match response with
    | WalletResponse.Locked =>
        let '(w, rotated) := rotate_wallet_session w true in (w, map_err failure_from_error rotated)
    | WalletResponse.Unlocked | WalletResponse.WalletCreated _ | WalletResponse.WalletRestored _ =>
        match rotate_wallet_session w false with
        | (w, Ok _) => (w, Ok tt)
        | (w, Err error) =>
            let! w, _ := on_runtime w rt_lock_wallet in
            (w, Err (failure_from_error error))
        end
    | _ => (w, Ok tt)
    end in
  (w, Ok (WalletResult response)).

Definition dispatch w (request : ServiceRequest Value) (now_unix_ms : N) :
    service * fails (ServiceResponse Value) :=
  let! w, _ := (w, rt_admit_service_request (sv_runtime w) (state (sv_provider w)) request) in
  match request with
  | RegisterAuthority handle authority =>
      let! w, facts := (w, provider_authority url_parse authority) in
      let! w, revision := on_provider w
        (register_authority (sv_provider w) handle facts now_unix_ms) in
      (w, Ok (AuthorityRegistered handle revision))
  | ReplaceAuthority handle expected authority =>
      let! w, facts := (w, provider_authority url_parse authority) in
      let! w, revision := on_provider w
        (replace_authority (sv_provider w) handle expected facts now_unix_ms) in
      (forget_authority w handle, Ok (AuthorityReplaced handle revision))
  | RevokeAuthority handle expected =>
      let! w, _ := on_provider w (revoke_authority (sv_provider w) handle expected) in
      (forget_authority w handle, Ok (AuthorityRevoked handle))
  | ProviderCapabilities handle revision => provider_capabilities w handle revision now_unix_ms
  | ProviderRequest handle revision nonce method params =>
      provider_request w handle revision nonce method params now_unix_ms
  | DecideApproval handle revision id decision =>
      approval_decision w handle revision id decision now_unix_ms
  | Wallet request => wallet_operation w request
  | WalletAuthority request =>
      if negb (has_service_capability w ServiceCapability.HnsWalletAuthorityContextV1)
      then (w, Err (failure_unsupported ServiceCapability.HnsWalletAuthorityContextV1)) else
      let! w, context := on_runtime w (rt_execute_wallet_authority_context request) in
      (w, Ok (WalletAuthorityResponse context))
  end.

(** [unwrap_or_else(|failure| ServiceResponse::Failure { failure })]. *)
Definition response_of (r : fails (ServiceResponse Value)) : ServiceResponse Value :=
  match r with Ok response => response | Err failure => Failure failure end.

Definition process_request w (envelope : SessionEnvelope (ServiceRequest Value)) (now_unix_ms : N) :
    service * result bytes ServiceError.t :=
  let! w, _ := accept_request_header w envelope in
  let w := prune_pending w (now_unix_ms / 1000) in
  let '(w, answer) := dispatch w (body envelope) now_unix_ms in
  let! w, numbered := next_service_sequence w in
  let '(session, channel_sequence) := numbered in
  (w, map_err ServiceError.Abi (encode_service_frame (Response
        (mkEnvelope WALLET_ABI_VERSION (se_host_session_id session) (sv_service_session_id w)
           (se_restart_generation session) channel_sequence (request_id envelope)
           (response_of answer))))).

Definition process_frame w (encoded : bytes) (now_unix_ms : N) : service * result bytes ServiceError.t :=
  let! w, frame := (w, map_err ServiceError.Abi (decode_host_frame encoded)) in
  match frame with
  | HostHelloFrame hello => negotiate w hello
  | Request envelope => process_request w envelope now_unix_ms
  end.
End Service.
