(* ===== verification/ServiceProofs.v ===== *)
(** * The wallet service: what its methods change

    Specifications of the methods of [Service]: most of them read, drop
    approvals or hand a call to the runtime; one files an approval. The calls a
    runtime receives are observed through a log ([RuntimeLaws]), which any runtime
    can be given. *)

From S2P Require Import Prelude Types Provider ProviderProofs Abi Service.

(** ** Runtimes that keep a log *)

Inductive RuntimeCall `{ProviderEnv} :=
| RcPrepareApproval (approval : PendingApproval)
| RcAccountGrant (call : ApprovedCall)
| RcCurrentNames
| RcNameRead (call : ApprovedCall) (names : gset bytes)
| RcProvider (call : ApprovedCall)
| RcApproved (call : ApprovedCall) (id : bytes) (now_unix : N)
| RcLock
| RcWallet (request : WalletRequest.t)
| RcAuthority (request : WalletAuthorityContextRequest).

(** A call leaves at most its own entry in the log. *)
Definition logs {S R Call A} (log : R -> list Call) (f : R -> S -> R * S * A) (entry : Call) : Prop :=
  forall r st, log (f r st).1.1 = log r ++ [entry] \/ log (f r st).1.1 = log r.

(** Permission records are written by the provider core only: preparing a prompt
    leaves the generations alone. *)
Definition keeps_generations {S R A : Type} `{ProviderStateStore S} (f : R -> S -> R * S * A) : Prop :=
  forall r st scope,
    pss_permission_generation (f r st).1.2 scope = pss_permission_generation st scope.

Class RuntimeLaws `{env : ProviderEnv} (S R : Type) `{ProviderStateStore S, !ServiceRuntime S R}
    (log : R -> list RuntimeCall) : Prop := {
  log_prepare : forall a, logs log (rt_prepare_approval a) (RcPrepareApproval a);
  log_grant : forall call, logs log (rt_prepare_hns_account_grant call) (RcAccountGrant call);
  log_names : logs log rt_current_hns_names RcCurrentNames;
  log_name_read : forall call names,
    logs log (rt_execute_hns_name_read call names) (RcNameRead call names);
  log_provider : forall call, logs log (rt_execute_provider call) (RcProvider call);
  log_approved : forall call id now,
    logs log (rt_execute_approved_provider call id now) (RcApproved call id now);
  log_lock : logs log rt_lock_wallet RcLock;
  log_wallet : forall request, logs log (rt_execute_wallet request) (RcWallet request);
  log_authority : forall request,
    logs log (rt_execute_wallet_authority_context request) (RcAuthority request);
  keep_prepare : forall a, keeps_generations (rt_prepare_approval a);
  keep_names : keeps_generations rt_current_hns_names;
}.

(** The provider core decodes the request the service encodes for it. *)
Class RequestCodec `{ProviderEnv} `{JsonCodec (ProviderBody Value)} : Prop :=
  request_decodes : forall name params b,
    json_to_vec (mkBody name params) = Some b -> decode_request b = Some (name, params).

(** ** The provider core below the service *)

Section Core.
Context `{env : ProviderEnv} {S : Type} `{store : !ProviderStateStore S}.
Implicit Types (c : ProviderCore S).

(** Approvals are only dropped, the wallet session stays. *)
Record narrowed c c' : Prop := {
  nc_inv : core_inv c -> core_inv c';
  nc_pending : pending c' ⊆ pending c;
  nc_session : wallet_session c' = wallet_session c;
  nc_locked : wallet_locked c' = wallet_locked c;
}.

Definition sets_wallet (o : op) : bool := match o with OpSetWallet _ _ => true | _ => false end.

Lemma fold_prune_wallet hs c : let c' := fold_left prune_one hs c in
  wallet_session c' = wallet_session c /\ wallet_locked c' = wallet_locked c.
Proof. revert c; induction hs as [|h hs IH]; intros c; simpl; [done|]. by destruct (IH (prune_one c h)). Qed.

Ltac past_clock :=
  match goal with
  | |- context [accept_time ?c ?now] =>
      let Ht := fresh "Ht" in
      destruct (accept_time c now) as [? [[]|?]] eqn:Ht;
      [apply accept_time_ok in Ht as [-> Ht]|apply accept_time_err in Ht as ->; done]
  end.

Lemma exec_wallet c o : sets_wallet o = false -> is_request o = false ->
  wallet_session (exec c o).1 = wallet_session c /\ wallet_locked (exec c o).1 = wallet_locked c.
Proof.
  destruct o; try done; intros _ _; simpl;
    unfold register_authority, replace_authority, revoke_authority, approve, reject,
      permission_snapshot, grant_scoped_permissions_inner, revoke_permissions;
    try past_clock; repeat (case_match; simplify_eq; try done).
  all: apply (fold_prune_wallet (expired_handles (set_last_now c now) now) (set_last_now c now)).
Qed.

Lemma exec_narrowed c o : sets_wallet o = false -> is_request o = false -> narrowed c (exec c o).1.
Proof.
  intros Hw Hr. destruct (exec_wallet c o Hw Hr). split; auto; [by apply exec_inv|by apply exec_quiet].
Qed.

(** A result is delivered with its core. *)
Lemma fst_exec {A B C} (p : A * B) (f : B -> C) : (let '(c, r) := p in (c, f r)).1 = p.1.
Proof. by destruct p. Qed.

Ltac as_op o :=
  match goal with
  | |- narrowed ?c _ =>
      let H := fresh in pose proof (exec_narrowed c o eq_refl eq_refl) as H; simpl in H;
      by rewrite fst_exec in H
  end.

Lemma register_narrowed c h f now : narrowed c (register_authority c h f now).1.
Proof. as_op (OpRegister h f now). Qed.
Lemma replace_narrowed c h e f now : narrowed c (replace_authority c h e f now).1.
Proof. as_op (OpReplace h e f now). Qed.
Lemma revoke_narrowed c h e : narrowed c (revoke_authority c h e).1.
Proof. as_op (OpRevoke h e). Qed.
Lemma approve_narrowed c h r id now : narrowed c (approve c h r id now).1.
Proof. as_op (OpApprove h r id now). Qed.
Lemma reject_narrowed c h r id now : narrowed c (reject c h r id now).1.
Proof. as_op (OpReject h r id now). Qed.
Lemma grant_narrowed c h r e caps accounts names now ex :
  narrowed c (grant_scoped_permissions_at_generation c h r e caps accounts names now ex).1.
Proof. as_op (OpGrant h r (Some e) caps accounts names now ex). Qed.
Lemma revoke_permissions_narrowed c h r now : narrowed c (revoke_permissions c h r now).1.
Proof. as_op (OpRevokePermissions h r now). Qed.

(** A snapshot moves the clock at most. *)
Lemma snapshot_core c h r now c' res : permission_snapshot c h r now = (c', res) ->
  (c' = c \/ last_now_unix_ms c <= now /\ c' = set_last_now c now).
Proof.
  unfold permission_snapshot. intros H. destruct (accept_time c now) as [c1 [[]|e]] eqn:Ht.
  - apply accept_time_ok in Ht as [-> Ht]. right. run_in H; done.
  - apply accept_time_err in Ht as ->. left. congruence.
Qed.

Lemma snapshot_ok c h r now c' snap : permission_snapshot c h r now = (c', Ok snap) ->
  exists a stored, authorities c !! h = Some a /\ revision a = r /\ r <> 0
    /\ now < valid_until_unix_ms (facts a) /\ state c' = state c
    /\ current_generation c (facts a) = Ok (snap_generation snap)
    /\ pss_permission (state c) (permission_scope (facts a)) = Ok stored
    /\ validate_permission_identity stored (facts a) (now / 1000) = Ok (snap_record snap)
    /\ (forall p, stored = Some p -> generation p = snap_generation snap).
Proof.
  unfold permission_snapshot. intros H. destruct (accept_time c now) as [c1 [[]|e]] eqn:Ht; [|done].
  apply accept_time_ok in Ht as [-> Ht].
  destruct (authority _ h r now) as [a|] eqn:Ha; [|done]. apply authority_ok in Ha as (Ha & Hr & Hr0 & Hl).
  run_in H. eexists a, _. split_and!; try done. intros p ->. simpl in *. by bool_prop.
Qed.

Lemma identity_ok stored f now record :
  validate_permission_identity stored f now = Ok (Some record) ->
  stored = Some record /\ perm_origin record = origin f /\ perm_namespace record = namespace f
    /\ forall e, perm_expires_at_unix record = Some e -> now < e.
Proof.
  unfold validate_permission_identity. intros H. run_in H. bool_prop. split_and!; auto.
  intros e He. rewrite He in *. simpl in *. by bool_prop.
Qed.

Lemma set_wallet_pending c session locked : pending (set_wallet_state c session locked) ⊆ pending c.
Proof. unfold set_wallet_state. case_match; simpl; [apply map_empty_subseteq|done]. Qed.

(** A request keeps the wallet session. *)
Lemma request_wallet c h r n now input c1 res : request c h r n now input = (c1, res) ->
  wallet_session c1 = wallet_session c.
Proof.
  intros H. apply request_cases in H.
  destruct H as [| |a m c2 r2 e _ _ H1|a m c2 u2 c3 r3 x e _ _ H1 H2|a m params c3 g Had|a m params c3 Had
    |a m params c3 g kind p Had]; try done; simpl.
  - by rewrite (enforce_rate_frame _ _ _ _ _ _ H1).
  - rewrite (consume_nonce_frame _ _ _ _ _ _ _ H2). simpl. by rewrite (enforce_rate_frame _ _ _ _ _ _ H1).
  - destruct (admitted_frame _ _ _ _ _ _ _ _ _ _ Had) as [rt ->]. done.
  - destruct (admitted_frame _ _ _ _ _ _ _ _ _ _ Had) as [rt ->]. done.
  - destruct (admitted_frame _ _ _ _ _ _ _ _ _ _ Had) as [rt ->]. done.
Qed.

(** Unless it files an approval, a request drops approvals at most. *)
Lemma request_narrowed c h r n now input c1 res : request c h r n now input = (c1, res) ->
  (forall p, res <> Ok (Provider.ApprovalRequired p)) ->
  (core_inv c -> core_inv c1) /\ pending c1 ⊆ pending c.
Proof.
  intros H Hno. split; [intros Hi; pose proof (request_inv c h r n now input Hi) as Hc; by rewrite H in Hc|].
  apply map_subseteq_spec. intros id p Hp.
  destruct (rs_pending _ _ _ _ _ (request_frame _ _ _ _ _ _ _ _ H) _ _ Hp) as [?|[-> _]]; [done|].
  by destruct (Hno p).
Qed.

(** What a filed approval says of the core. *)
Lemma request_asked c h r n now input c1 p :
  request c h r n now input = (c1, Ok (Provider.ApprovalRequired p)) ->
  exists a, authorities c1 !! h = Some a /\ revision a = r /\ r <> 0
    /\ now < valid_until_unix_ms (facts a) /\ pending c1 !! ap_id p = Some p
    /\ ap_authority_handle p = h /\ ap_authority_revision p = r
    /\ ap_wallet_session p = wallet_session c1 /\ now / 1000 < ap_expires_at_unix p
    /\ call_origin (ap_call p) = origin (facts a) /\ call_namespace (ap_call p) = namespace (facts a)
    /\ current_generation c1 (facts a) = Ok (ap_permission_generation p)
    /\ Method.approval (call_method (ap_call p)) = Some (ap_kind p)
    /\ (exists wire, decode_request input = Some (wire, call_params (ap_call p))
         /\ Method.parse wire = Ok (call_method (ap_call p)))
    /\ (forall id q, id <> ap_id p -> pending c1 !! id = Some q -> pending c !! id = Some q)
    /\ last_now_unix_ms c1 = now.
Proof.
  intros H. apply request_cases in H.
  inversion H as [| | | | | |a m params c3 g kind q Had Hau Hap Hcap]; subst.
  destruct (admitted_frame _ _ _ _ _ _ _ _ _ _ Had) as [rt F]. exists a. simpl.
  destruct Had, Hau, ad_revision. rewrite F. simpl. split_and!; try done.
  - apply lookup_insert_eq.
  - unfold APPROVAL_LIFETIME_SECONDS. rewrite N.div_add by lia. lia.
  - by rewrite F in au_generation.
  - intros id x Hne. rewrite lookup_insert_ne by done. by intros [Hx _]%lookup_retain_Some.
Qed.

(** It can be rejected as long as the generations stay. *)
Lemma reject_asked c h r n now input c1 p t st :
  request c h r n now input = (c1, Ok (Provider.ApprovalRequired p)) -> t <= now ->
  (forall scope, pss_permission_generation st scope = pss_permission_generation (state c1) scope) ->
  let c2 := set_state (set_last_now c1 t) st in
  (reject c2 h r (ap_id p) now).1 = set_pending (set_last_now c2 now) (delete (ap_id p) (pending c1)).
Proof.
  intros H Ht Hst c2. apply request_asked in H as (a & Ha & Hr & Hr0 & Hl & Hp & Hh & Hrv & Hs & He & Ho & Hn & Hg & _).
  unfold reject, accept_time. simpl. replace (now <? t) with false by (symmetry; by apply N.ltb_ge).
  unfold authority. simpl. rewrite Ha. simpl. rewrite Hr, N.eqb_refl.
  replace (r =? 0) with false by (symmetry; by apply N.eqb_neq).
  replace (valid_until_unix_ms (facts a) <=? now) with false by (symmetry; by apply N.leb_gt). simpl.
  rewrite Hp. simpl. unfold current_generation in *. simpl. rewrite Hst, Hg.
  unfold approval_is_stale. simpl. rewrite Ho, Hn, Hh, Hrv, Hs, !N.eqb_refl.
  rewrite !bool_decide_eq_true_2 by done. simpl.
  replace (ap_expires_at_unix p <=? now / 1000) with false by (symmetry; by apply N.leb_gt). done.
Qed.
End Core.

(** ** Changes of the service *)

Section Changes.
Context `{env : ProviderEnv} `{SJ : !ServiceJson} {S R E : Type} `{store : !ProviderStateStore S} `{RT : !ServiceRuntime S R}
  (log : R -> list RuntimeCall) `{laws : !RuntimeLaws S R log}.
Abbreviation service := (WalletService S R E).
Implicit Types (w : service) (Q : RuntimeCall -> Prop).

Definition logged Q w w' : Prop :=
  exists new, log (sv_runtime w') = log (sv_runtime w) ++ new /\ Forall Q new.

Definition nothing : RuntimeCall -> Prop := fun _ => False.

Lemma logged_refl Q w w' : sv_runtime w' = sv_runtime w -> logged Q w w'.
Proof. intros Hw. exists []. by rewrite Hw, app_nil_r. Qed.
Lemma logged_trans Q w1 w2 w3 : logged Q w1 w2 -> logged Q w2 w3 -> logged Q w1 w3.
Proof.
  intros (n1 & H1 & F1) (n2 & H2 & F2). exists (n1 ++ n2). rewrite H2, H1, app_assoc.
  split; [done|]. by apply Forall_app.
Qed.
Lemma logged_weaken (Q Q' : RuntimeCall -> Prop) w w' :
  logged Q w w' -> (forall e, Q e -> Q' e) -> logged Q' w w'.
Proof. intros (new & H & F) HQ. exists new. split; [done|]. by eapply Forall_impl. Qed.

(** The method read the permission store, or the runtime answered, and nothing
    else happened. *)
Record steady (now : N) Q w w' : Prop := {
  st_rest : w' = set_runtime (set_provider w (sv_provider w')) (sv_runtime w');
  st_core : sv_provider w' = set_state (set_last_now (sv_provider w)
              (last_now_unix_ms (sv_provider w'))) (state (sv_provider w'));
  st_clock : last_now_unix_ms (sv_provider w) <= now -> last_now_unix_ms (sv_provider w') <= now;
  st_generation : forall scope, pss_permission_generation (state (sv_provider w')) scope
    = pss_permission_generation (state (sv_provider w)) scope;
  st_log : logged Q w w';
}.

(** Approvals are dropped at most; those that are left belong to a wallet session
    that did not change. *)
Record evolves Q w w' : Prop := {
  ev_core : core_inv (sv_provider w) -> core_inv (sv_provider w');
  ev_wallet : wallet_session (sv_provider w) = sv_wallet_session_id w ->
    wallet_session (sv_provider w') = sv_wallet_session_id w';
  ev_approvals : pending (sv_provider w') ⊆ pending (sv_provider w);
  ev_pending : sv_pending w' ⊆ sv_pending w;
  ev_bound : sv_pending w' = ∅ \/ sv_wallet_session_id w' = sv_wallet_session_id w;
  ev_channel : sv_session w' = sv_session w /\ sv_seen_request_ids w' = sv_seen_request_ids w
    /\ sv_request_order w' = sv_request_order w /\ sv_capabilities w' = sv_capabilities w
    /\ sv_service_session_id w' = sv_service_session_id w;
  ev_log : logged Q w w';
}.

Lemma steady_refl now Q w : steady now Q w w.
Proof. split; auto using logged_refl; [by destruct w|by destruct w as [[]]]. Qed.

Lemma steady_trans now Q w1 w2 w3 : steady now Q w1 w2 -> steady now Q w2 w3 -> steady now Q w1 w3.
Proof.
  intros [R1 C1 T1 G1 L1] [R2 C2 T2 G2 L2]. split; auto.
  - rewrite R2, R1. done.
  - rewrite C2 at 1. rewrite C1. done.
  - intros scope. by rewrite G2.
  - by eapply logged_trans.
Qed.

Lemma steady_weaken now (Q Q' : RuntimeCall -> Prop) w w' :
  steady now Q w w' -> (forall e, Q e -> Q' e) -> steady now Q' w w'.
Proof. intros [] HQ. split; auto. by eapply logged_weaken. Qed.

(** A provider operation that drops approvals at most. *)
Lemma narrowed_evolves Q w c : narrowed (sv_provider w) c -> evolves Q w (set_provider w c).
Proof. intros [Hi Hp Hs _]. split; simpl; auto; [congruence|by apply logged_refl]. Qed.

Lemma steady_evolves now Q w w' : steady now Q w w' -> evolves Q w w'.
Proof.
  intros [Hr Hc _ _ Hl]. rewrite Hr in Hl |- *.
  assert (narrowed (sv_provider w) (sv_provider w')) as Hn.
  { split; [intros Hi; rewrite Hc; by apply set_state_inv, set_last_now_inv|..]; by rewrite Hc. }
  destruct (narrowed_evolves Q w _ Hn). by split.
Qed.

Lemma evolves_refl Q w : evolves Q w w.
Proof. by split; auto using logged_refl. Qed.

Lemma evolves_trans Q w1 w2 w3 : evolves Q w1 w2 -> evolves Q w2 w3 -> evolves Q w1 w3.
Proof.
  intros [I1 W1 A1 P1 B1 C1 L1] [I2 W2 A2 P2 B2 C2 L2]. split; auto; try by etrans.
  - destruct B2 as [?|E2]; [by left|]. destruct B1 as [H0|E1]; [left|right; by rewrite E2].
    rewrite H0 in P2. apply map_eq. intros i. rewrite lookup_empty.
    destruct (sv_pending w3 !! i) eqn:Hi; [|done]. apply (lookup_weaken _ _ _ _ Hi) in P2. done.
  - naive_solver congruence.
  - by eapply logged_trans.
Qed.

Lemma evolves_weaken (Q Q' : RuntimeCall -> Prop) w w' :
  evolves Q w w' -> (forall e, Q e -> Q' e) -> evolves Q' w w'.
Proof. intros [] HQ. split; auto. by eapply logged_weaken. Qed.

(** Forgetting pending prompts and event cursors. *)
Lemma dropped_evolves Q w p m : p ⊆ sv_pending w ->
  evolves Q w (set_event_sequences (set_service_pending w p) m).
Proof. intros Hp. split; simpl; auto using logged_refl. Qed.
Lemma dropped_pending_evolves Q w p : p ⊆ sv_pending w -> evolves Q w (set_service_pending w p).
Proof. intros Hp. split; simpl; auto using logged_refl. Qed.
Lemma events_evolves Q w m : evolves Q w (set_event_sequences w m).
Proof. split; simpl; auto using logged_refl. Qed.

Definition keeping {A} Q w : service * fails A -> Prop :=
  leaves (evolves Q w) (fun w' _ => evolves Q w w').

Lemma keeping_bind {A B} Q w (c : service * fails A) (k : service -> A -> service * fails B) :
  keeping Q w c -> (forall w' x, evolves Q w w' -> keeping Q w (k w' x)) ->
  keeping Q w (let! w', x := c in k w' x).
Proof. unfold keeping. intros H Hk. eapply leaves_bind; eauto. Qed.

Lemma keeping_from {A} Q w w' (p : service * fails A) : evolves Q w w' -> keeping Q w' p -> keeping Q w p.
Proof.
  intros H Hp. unfold keeping in *. eapply leaves_weaken; [exact Hp|..]; simpl; intros; by eapply evolves_trans.
Qed.
End Changes.

(** ** The methods *)

Section Methods.
Context `{env : ProviderEnv} `{SJ : !ServiceJson} {S R E : Type} `{store : !ProviderStateStore S}
  `{RT : !ServiceRuntime S R} `{OS : !OsRandom E} `{NE : NameEnv}.
Context `{JH : JsonCodec (HostFrame Value), JS : JsonCodec (ServiceFrame Value), JA : JsonCodec ApprovalPrompt,
          JE : JsonCodec ProviderEventEnvelope, JV : JsonCodec Value, JB : JsonCodec (ProviderBody Value)}.
Context (log : R -> list RuntimeCall) `{laws : !RuntimeLaws S R log}.
Abbreviation service := (WalletService S R E).
Implicit Types (w : service) (Q : RuntimeCall -> Prop).
Abbreviation steady := (steady log).
Abbreviation evolves := (evolves log).
Abbreviation keeping := (keeping log).

(** A chain of tests and reads. *)
Definition reading {A} now Q w (post : service -> A -> Prop) : service * fails A -> Prop :=
  leaves (steady now Q w) (fun w' x => steady now Q w w' /\ post w' x).

Lemma reading_bind {A B} now Q w post post' (c : service * fails A) (k : service -> A -> service * fails B) :
  reading now Q w post c ->
  (forall w' x, steady now Q w w' -> post w' x -> reading now Q w post' (k w' x)) ->
  reading now Q w post' (let! w', x := c in k w' x).
Proof. intros H Hk. eapply leaves_bind; [exact H|]. intros w' x [? ?]. by apply Hk. Qed.

Lemma reading_test {A B} now Q w w' post (r : fails A) (k : A -> service * fails B) :
  steady now Q w w' -> (forall x, r = Ok x -> reading now Q w post (k x)) ->
  reading now Q w post (match r with Ok x => k x | Err e => (w', Err e) end).
Proof. intros H Hk. by apply leaves_test. Qed.

Lemma reading_from {A} now Q Q' w w' (post post' : service -> A -> Prop) p :
  steady now Q w w' -> (forall e, Q' e -> Q e) -> reading now Q' w' post p ->
  (forall w'' x, post w'' x -> post' w'' x) -> reading now Q w post' p.
Proof.
  intros H HQ Hp Hpost. unfold reading in *. eapply leaves_weaken; [exact Hp|..]; simpl.
  - intros s Hs. eapply steady_trans; [exact H|]. by eapply steady_weaken.
  - intros s a [Hs Ha]. split; [|auto]. eapply steady_trans; [exact H|]. by eapply steady_weaken.
Qed.

Lemma on_snapshot Q w h r now :
  reading now Q w (fun w' snap => permission_snapshot (sv_provider w) h r now = (sv_provider w', Ok snap)
                                  /\ sv_runtime w' = sv_runtime w)
    (on_provider w (permission_snapshot (sv_provider w) h r now)).
Proof.
  unfold on_provider. destruct (permission_snapshot _ h r now) as [c res] eqn:Hs. simpl.
  assert (steady now Q w (set_provider w c)) as Hst.
  { destruct (snapshot_core _ _ _ _ _ _ Hs) as [->|[Ht ->]]; split; simpl; auto using logged_refl;
      by destruct w as [[]]. }
  by destruct res.
Qed.

Lemma on_runtime_log {A} Q w (f : R -> S -> R * S * fails A) e : logs log f e -> Q e ->
  logged log Q w (on_runtime w f).1.
Proof.
  intros Hl He. unfold on_runtime, logged. specialize (Hl (sv_runtime w) (state (sv_provider w))).
  destruct (f _ _) as [[r st] res]. simpl in *. destruct Hl as [-> | ->]; [exists [e]|exists []].
  - split; [done|]. by constructor.
  - by rewrite app_nil_r.
Qed.

Lemma on_runtime_evolves {A} Q w (f : R -> S -> R * S * fails A) e : logs log f e -> Q e ->
  keeping Q w (on_runtime w f).
Proof.
  intros Hl He. pose proof (on_runtime_log Q w f e Hl He) as Hlog. unfold on_runtime, keeping, leaves in *.
  destruct (f _ _) as [[r st] res]. simpl in *.
  assert (evolves Q w (set_runtime (set_provider w (set_state (sv_provider w) st)) r)).
  { split; simpl; auto. apply set_state_inv. }
  by destruct res.
Qed.

Lemma on_runtime_reading {A} now Q w (f : R -> S -> R * S * fails A) e :
  logs log f e -> keeps_generations f -> Q e -> reading now Q w (fun _ _ => True) (on_runtime w f).
Proof.
  intros Hl Hk He. pose proof (on_runtime_log Q w f e Hl He) as Hlog. unfold on_runtime, reading, leaves in *.
  specialize (Hk (sv_runtime w) (state (sv_provider w))).
  destruct (f _ _) as [[r st] res]. simpl in *.
  assert (steady now Q w (set_runtime (set_provider w (set_state (sv_provider w) st)) r)).
  { split; simpl; auto. }
  by destruct res.
Qed.

Lemma binding_reading Q w h r now :
  reading now Q w (fun w' b => exists snap,
      permission_snapshot (sv_provider w) h r now = (sv_provider w', Ok snap)
      /\ b = mkBinding h r (wallet_session (sv_provider w)) (snap_generation snap))
    (provider_binding w h r now).
Proof.
  unfold provider_binding. eapply reading_bind; [apply on_snapshot|]. intros w' snap Hst [Hs _].
  split; [done|]. exists snap. split; [done|]. f_equal. destruct Hst as [_ Hc _ _ _]. by rewrite Hc.
Qed.

(** The tests a reading method makes on the way. *)
Ltac read_test :=
  match goal with
  | |- reading _ _ _ _ (if ?b then _ else _) => destruct b eqn:?
  | |- reading _ _ _ _ (match ok_or _ _ with _ => _ end) => apply reading_test; [assumption|intros ? ?]
  | |- reading _ _ _ _ (match selected_account _ with _ => _ end) => apply reading_test; [assumption|intros ? ?]
  | |- reading _ _ _ _ (match hns_name_approval_scope _ with _ => _ end) =>
      apply reading_test; [assumption|intros ? ?]
  | |- reading _ _ _ _ (match map_err _ _ with _ => _ end) => apply reading_test; [assumption|intros ? ?]
  | |- reading _ _ _ _ (_, Err _) => simpl; assumption
  end.

Definition lists_names (e : RuntimeCall) : Prop := e = RcCurrentNames.

Lemma names_reading now w : reading now lists_names w (fun _ _ => True) (on_runtime w rt_current_hns_names).
Proof. by eapply on_runtime_reading; [apply laws..|]. Qed.

Lemma prepare_reading w approval requested now :
  reading now lists_names w (fun _ _ => True) (prepare_hns_permission_scope w approval requested now).
Proof.
  unfold prepare_hns_permission_scope. pose proof (steady_refl log now lists_names w) as Hw.
  repeat read_test; [by split|]. eapply reading_bind; [apply on_snapshot|]. intros w1 snap H1 _.
  repeat read_test. eapply (reading_bind _ _ _ (fun _ _ => True)); [|by split]. read_test; [|by split].
  eapply reading_bind; [eapply (reading_from now lists_names lists_names); [exact H1|done|apply names_reading|done]|].
  intros w2 names H2 _. repeat read_test. by split.
Qed.

Lemma verify_reading w h r pending now :
  reading now lists_names w (fun _ _ => True) (verify_pending_hns_permission_scope w h r pending now).
Proof.
  unfold verify_pending_hns_permission_scope. pose proof (steady_refl log now lists_names w) as Hw.
  destruct (ps_hns_permission_scope pending) as [expected|]; [|by split].
  eapply reading_bind; [apply on_snapshot|]. intros w1 snap H1 _. repeat read_test.
  destruct (scope_names expected) as [names|]; [|by split].
  eapply reading_bind; [eapply (reading_from now lists_names lists_names); [exact H1|done|apply names_reading|done]|].
  intros w2 current H2 _. repeat read_test. by split.
Qed.

(** The permission record that covers a read of the selected account. *)
Record covered w h r call now names : Prop := {
  cv_record : exists a record account required,
    authorities (sv_provider w) !! h = Some a /\ revision a = r
    /\ now < valid_until_unix_ms (facts a)
    /\ pss_permission (state (sv_provider w)) (permission_scope (facts a)) = Ok (Some record)
    /\ current_generation (sv_provider w) (facts a) = Ok (generation record)
    /\ perm_origin record = origin (facts a) /\ perm_namespace record = namespace (facts a)
    /\ (forall e, perm_expires_at_unix record = Some e -> now / 1000 < e)
    /\ Method.permission (call_method call) = Some required
    /\ required ∈ capabilities record /\ Accounts ∈ capabilities record
    /\ rt_selected_hns_account (sv_runtime w) (state (sv_provider w)) = Ok account
    /\ approved_accounts record = {[acc_account_id account]}
    /\ names = approved_names record;
  cv_namespace : call_namespace call = NsHns;
  cv_name : call_method call = Method.HnsGetName ->
    exists hash, hns_name_hash_param (call_params call) = Ok hash /\ hash ∈ names;
}.

Lemma selected_ok w account : selected_account w = Ok account ->
  rt_selected_hns_account (sv_runtime w) (state (sv_provider w)) = Ok account.
Proof. unfold selected_account. intros H. by run_in H. Qed.

Lemma authorize_reading w h r call now :
  reading now nothing w (fun _ names => covered w h r call now names)
    (authorize_hns_account_read w h r call now).
Proof.
  unfold authorize_hns_account_read. pose proof (steady_refl log now nothing w) as Hw.
  read_test; [by read_test|]. read_test. eapply reading_bind; [apply on_snapshot|].
  intros w1 snap H1 [Hs Hrt]. read_test. read_test. read_test; [by read_test|]. read_test; [by read_test|].
  bool_prop. destruct (snapshot_ok _ _ _ _ _ _ Hs) as (a & stored & Ha & Hr & Hr0 & Hl & Hst & Hg & Hp & Hv & Hgen).
  match goal with E : snap_record snap = Some ?rec |- _ => rename rec into record; rewrite E in Hv end.
  pose proof (identity_ok _ _ _ _ Hv) as (-> & Ho & Hn & He).
  match goal with E : selected_account w1 = Ok ?acc |- _ => rename acc into account; apply selected_ok in E;
    rewrite Hrt, Hst in E end.
  assert ((call_method call = Method.HnsGetName ->
      exists hash, hns_name_hash_param (call_params call) = Ok hash /\ hash ∈ approved_names record) ->
    covered w h r call now (approved_names record)) as Hcov.
  { split; [|done..]. exists a, record, account. eexists. rewrite Hgen by done. split_and!; done. }
  destruct (bool_decide (call_method call = Method.HnsGetName)) eqn:Hm; bool_prop.
  - destruct (hns_name_hash_param (call_params call)) as [hash|] eqn:Hh; [|exact H1].
    destruct (bool_decide (hash ∈ _)) eqn:Hin; [|exact H1]. bool_prop.
    split; [done|]. apply Hcov. eauto.
  - split; [done|]. by apply Hcov.
Qed.

(** *** Methods that change the service *)

Lemma rotate_evolves Q w locked : evolves Q w (rotate_wallet_session w locked).1.
Proof.
  unfold rotate_wallet_session. destruct (random_session _) as [e [id|error]]; simpl.
  all: split; [apply set_wallet_state_inv|done|apply set_wallet_pending|apply map_empty_subseteq
              |by left|done|by apply logged_refl].
Qed.

Lemma reading_keeping {A} now Q w post (p : service * fails A) : reading now Q w post p -> keeping Q w p.
Proof.
  intros H. eapply leaves_weaken; [exact H|..]; simpl.
  - intros s Hs. by eapply steady_evolves.
  - intros s a [Hs _]. by eapply steady_evolves.
Qed.

Lemma keeping_test {A B} Q w w' (r : fails A) (k : A -> service * fails B) :
  evolves Q w w' -> (forall x, r = Ok x -> keeping Q w (k x)) ->
  keeping Q w (match r with Ok x => k x | Err e => (w', Err e) end).
Proof. intros H Hk. by apply leaves_test. Qed.

Lemma narrowed_keeping {A} Q w (p : ProviderCore S * result A ProviderError) :
  narrowed (sv_provider w) p.1 -> keeping Q w (on_provider w p).
Proof.
  intros H. apply (narrowed_evolves log Q) in H. unfold on_provider. by destruct p as [c []].
Qed.

Lemma extension_reading w h r call g requested scope now :
  reading now nothing w (fun _ _ => True)
    (hns_read_permission_extension w h r call g requested scope now).
Proof.
  unfold hns_read_permission_extension. pose proof (steady_refl log now nothing w) as Hw.
  read_test; [repeat read_test; by split|]. read_test; [by read_test|].
  eapply reading_bind; [apply on_snapshot|]. intros w1 snap H1 _. repeat read_test.
  eapply (reading_bind _ _ _ (fun _ _ => True)); [|intros w2 names Hw2 _; repeat read_test; by split].
  read_test; [by destruct (scope_names _)|]. read_test; [exact H1|by split].
Qed.

Lemma accounts_reading w h r call now :
  reading now nothing w (fun _ _ => True) (approved_hns_accounts w h r call now).
Proof.
  unfold approved_hns_accounts. pose proof (steady_refl log now nothing w) as Hw.
  destruct (validate_empty_params _); [|exact Hw]. read_test; [by read_test|].
  eapply reading_bind; [apply on_snapshot|]. intros w1 snap H1 _. repeat read_test. by split.
Qed.

(** What [execute_call] may ask of the runtime. *)
Definition call_effect w h r call approved now (e : RuntimeCall) : Prop :=
  match e with
  | RcProvider c => c = call /\
      if hns_account_read_method (call_method call)
      then exists names, covered w h r call now names else approved = None
  | RcNameRead c names => c = call /\ hns_account_read_method (call_method call) = true
      /\ covered w h r call now names
  | RcApproved c id t => c = call /\ t = now / 1000
      /\ exists pending, approved = Some pending /\ id = ps_approval_id pending
  | RcAccountGrant c => c = call /\ call_method call = Method.HnsRequestAccounts
      /\ is_Some approved
  | RcLock => call_method call = Method.WalletLock
  | _ => False
  end.

Lemma keep_reading {A} now Q w w' post (p : service * fails A) :
  evolves Q w w' -> reading now nothing w' post p -> keeping Q w p.
Proof.
  intros Hw Hp. apply reading_keeping in Hp. eapply keeping_from; [exact Hw|].
  eapply leaves_weaken; [exact Hp|..]; simpl; intros; by eapply evolves_weaken.
Qed.

Lemma account_grant_keeping Q w h r call g now : Q (RcAccountGrant call) ->
  keeping Q w (approve_hns_account_grant w h r call g now).
Proof.
  intros HQ. unfold approve_hns_account_grant. pose proof (evolves_refl log Q w) as Hw.
  destruct (validate_empty_params _); [|exact Hw].
  destruct (negb (bool_decide _)); [exact Hw|]. destruct (negb (rt_supports_provider_method _ _)); [exact Hw|].
  eapply keeping_bind; [eapply on_runtime_evolves; [apply laws|done]|]. intros w1 account H1.
  destruct (validate_hns_account_summary account); [|exact H1].
  apply keeping_test; [done|]. intros encoded _. destruct (_ <? _); [exact H1|].
  eapply keeping_bind; [eapply keeping_from; [exact H1|apply narrowed_keeping, grant_narrowed]|].
  intros w2 permission H2. destruct (negb _); [exact H2|].
  eapply evolves_trans; [exact H2|apply dropped_evolves, map_empty_subseteq].
Qed.

(** The last branch of [execute_call]. *)
Lemma other_call_keeping w h r call approved now (m := call_method call) :
  keeping (call_effect w h r call approved now) w
    (if hns_account_read_method m then
       let! w, names := authorize_hns_account_read w h r call now in
       if bool_decide (m = Method.HnsGetNames) || bool_decide (m = Method.HnsGetName)
       then on_runtime w (rt_execute_hns_name_read call names)
       else on_runtime w (rt_execute_provider call)
     else match approved with
          | Some pending => on_runtime w
              (rt_execute_approved_provider call (ps_approval_id pending) (now / 1000))
          | None => on_runtime w (rt_execute_provider call)
          end).
Proof.
  destruct (hns_account_read_method m) eqn:Hm.
  - pose proof (authorize_reading w h r call now) as Ha.
    destruct (authorize_hns_account_read w h r call now) as [w1 [names|failure]]; simpl in Ha.
    + destruct Ha as [Hst Hc]. apply steady_evolves in Hst.
      eapply keeping_from; [by eapply evolves_weaken|].
      destruct (_ || _); (eapply on_runtime_evolves; [apply laws|]); simpl; fold m; rewrite Hm; eauto.
    + apply steady_evolves in Ha. by eapply evolves_weaken.
  - destruct approved as [pending|]; (eapply on_runtime_evolves; [apply laws|]); simpl; fold m; rewrite ?Hm; eauto.
Qed.

Lemma execute_call_keeping w h r call approved now :
  keeping (call_effect w h r call approved now) w (execute_call w h r call approved now).
Proof.
  set (Q := call_effect w h r call approved now). pose proof (evolves_refl log Q w) as Hw.
  unfold execute_call. pose proof (other_call_keeping w h r call approved now) as Hother. fold Q in Hother.
  assert (Q RcLock <-> call_method call = Method.WalletLock) as Hlock by done.
  assert (Q (RcAccountGrant call) <-> call_method call = Method.HnsRequestAccounts /\ is_Some approved) as Hgrant
    by (unfold Q; simpl; naive_solver).
  clearbody Q. destruct (call_method call) eqn:Hm; cbv zeta in Hother; try exact Hother; clear Hother.
  - exact Hw.
  - apply keeping_test; [done|]. intros requested _. destruct (negb _); [exact Hw|].
    apply keeping_test; [done|]. intros pending _.
    eapply keeping_bind; [eapply keep_reading; [exact Hw|apply extension_reading]|]. intros w1 ext H1.
    eapply keeping_bind; [eapply keeping_from; [exact H1|apply narrowed_keeping, grant_narrowed]|].
    intros w2 permission H2. eapply evolves_trans; [exact H2|apply dropped_evolves, map_empty_subseteq].
  - eapply keeping_bind; [eapply keep_reading; [exact Hw|apply on_snapshot]|]. intros w1 snap H1.
    destruct (is_none _); [|exact H1]. eapply evolves_trans; [exact H1|apply events_evolves].
  - eapply keeping_bind; [apply narrowed_keeping, revoke_permissions_narrowed|]. intros w1 g H1.
    eapply evolves_trans; [exact H1|apply dropped_evolves, map_empty_subseteq].
  - eapply keeping_bind; [eapply on_runtime_evolves; [apply laws|by apply Hlock]|]. intros w1 u H1.
    pose proof (rotate_evolves Q w1 true) as H2. destruct (rotate_wallet_session w1 true) as [w2 [|]]; simpl in H2;
      (eapply evolves_trans; [exact H1|exact H2]).
  - apply keeping_test; [done|]. intros pending Hp. bool_prop. apply account_grant_keeping, Hgrant. eauto.
  - eapply keep_reading; [exact Hw|apply accounts_reading].
Qed.

(** *** Prompts *)

Definition summary_effect approval (e : RuntimeCall) : Prop :=
  e = RcPrepareApproval approval
  \/ e = RcCurrentNames /\ call_method (ap_call approval) = Method.WalletRequestPermissions.

Lemma summary_reading w approval now :
  reading now (summary_effect approval) w (fun _ _ => True) (approval_summary w approval now).
Proof.
  set (Q := summary_effect approval). unfold approval_summary.
  pose proof (steady_refl log now Q w) as Hw.
  eapply (reading_bind _ _ _ (fun _ _ => True)).
  2:{ intros w1 prepared H1 _. destruct (validate_approval_summary _ _); [by split|exact H1]. }
  assert (reading now Q w (fun _ _ => True)
    (let! w, summary := on_runtime w (rt_prepare_approval approval) in
     (w, Ok (summary, None : option PendingHnsPermissionScope)))) as Hother.
  { eapply reading_bind; [eapply on_runtime_reading; [apply laws|apply laws|by left]|]. by split. }
  destruct (call_method (ap_call approval)) eqn:Hm; try exact Hother; clear Hother.
  - apply reading_test; [done|]. by split.
  - apply reading_test; [done|]. by split.
  - apply reading_test; [done|]. intros requested _.
    eapply reading_bind; [|by split].
    eapply (reading_from now Q lists_names); [exact Hw| |apply prepare_reading|done].
    intros e ->. by right.
  - apply reading_test; [done|]. by split.
Qed.

Lemma wire_id_same id wire : wire_approval_id id = Ok wire -> wire = id.
Proof. unfold wire_approval_id, WireId.from_bytes, map_err. intros H. by run_in H. Qed.

(** The approvals of the service and of the core that belong together. *)
Record corresponds (ps : PendingState) (p : PendingApproval) : Prop := {
  co_id : ps_approval_id ps = ap_id p;
  co_binding : ps_binding ps = mkBinding (ap_authority_handle p) (ap_authority_revision p)
                 (ap_wallet_session p) (ap_permission_generation p);
  co_kind : ps_kind ps = ap_kind p;
  co_expiry : ps_expires_at_unix ps = ap_expires_at_unix p;
}.

(** A prompt shows the call that waits for approval. *)
Record shows (prompt : ApprovalPrompt) (p : PendingApproval) : Prop := {
  sh_id : Abi.approval_id prompt = ap_id p;
  sh_binding : ap_binding prompt = mkBinding (ap_authority_handle p) (ap_authority_revision p)
                 (ap_wallet_session p) (ap_permission_generation p);
  sh_origin : ap_origin prompt = call_origin (ap_call p);
  sh_method : Method.parse (ap_method prompt) = Ok (call_method (ap_call p));
  sh_kind : approval_kind (ap_summary prompt) = ap_kind p;
  sh_summary : summary_validate (ap_summary prompt) = Ok tt
    /\ validate_method (ap_summary prompt) (ap_method prompt) = Ok tt;
  sh_expiry : ap_expires_at_unix_ms prompt = ap_expires_at_unix p * 1000;
}.

(** An approval was filed in both places and put into a prompt. *)
Record asks Q w w' prompt p ps : Prop := {
  as_core : core_inv (sv_provider w) -> core_inv (sv_provider w');
  as_wallet : wallet_session (sv_provider w') = wallet_session (sv_provider w)
    /\ sv_wallet_session_id w' = sv_wallet_session_id w;
  as_channel : sv_session w' = sv_session w /\ sv_seen_request_ids w' = sv_seen_request_ids w
    /\ sv_request_order w' = sv_request_order w /\ sv_capabilities w' = sv_capabilities w
    /\ sv_service_session_id w' = sv_service_session_id w;
  as_log : logged log Q w w';
  as_filed : pending (sv_provider w') !! ap_id p = Some p;
  as_others : forall id q, id <> ap_id p -> pending (sv_provider w') !! id = Some q ->
    pending (sv_provider w) !! id = Some q;
  as_pending : sv_pending w' = <[ap_id p := ps]> (sv_pending w);
  as_room : count (sv_pending w) < MAX_SERVICE_PENDING_APPROVALS;
  as_session : ap_wallet_session p = wallet_session (sv_provider w');
  as_corresponds : corresponds ps p;
  as_shows : shows prompt p;
}.

Definition request_outcome Q w (p : service * fails (ServiceResponse Value)) : Prop :=
  leaves (evolves Q w) (fun w' response => evolves Q w w' \/
    exists prompt approval ps, response = ApprovalRequired prompt /\ asks Q w w' prompt approval ps) p.

Section Asked.
Context Q w h r n now input c1 p
  (Hreq : request (sv_provider w) h r n now input = (c1, Ok (Provider.ApprovalRequired p))).

(** The approval can be taken back after the runtime was asked for a summary. *)
Lemma discard_evolves w2 : steady now Q (set_provider w c1) w2 ->
  evolves Q w (discard_approval w2 h r (ap_id p) now).
Proof.
  intros [Hr Hc Ht Hg Hl]. unfold discard_approval.
  destruct (request_asked _ _ _ _ _ _ _ _ Hreq) as (a & _ & _ & _ & _ & _ & _ & _ & _ & _ & _ & _ & _ & _ & _ & Ho & Hn).
  pose proof (reject_narrowed (sv_provider w2) h r (ap_id p) now) as [Hinv _ Hs _].
  assert (pending (reject (sv_provider w2) h r (ap_id p) now).1 = delete (ap_id p) (pending c1)) as Hp.
  { rewrite Hc, (reject_asked _ _ _ _ _ _ _ _ _ _ Hreq); [done| |exact Hg]. apply Ht. simpl. lia. }
  pose proof (request_wallet _ _ _ _ _ _ _ _ Hreq) as Hw. rewrite Hr in Hl |- *. split; simpl.
  - intros Hi. apply Hinv. rewrite Hc. apply set_state_inv, set_last_now_inv. simpl.
    pose proof (request_inv (sv_provider w) h r n now input Hi) as Hi1. by rewrite Hreq in Hi1.
  - intros He. rewrite Hs, Hc. simpl. by rewrite Hw.
  - rewrite Hp. apply map_subseteq_spec. intros id q [Hne Hq]%lookup_delete_Some. by apply Ho.
  - done.
  - by right.
  - done.
  - exact Hl.
Qed.

Lemma ask_outcome name : Method.parse name = Ok (call_method (ap_call p)) ->
  (forall e, summary_effect p e -> Q e) ->
  request_outcome Q w (ask_approval (set_provider w c1) h r name p now).
Proof.
  intros Hname HQ. unfold ask_approval, request_outcome. pose proof (steady_refl log now Q (set_provider w c1)) as H1.
  destruct (_ <=? _) eqn:Hroom.
  { unfold on_provider. apply discard_evolves in H1. unfold discard_approval in H1.
    destruct (reject _ _ _ _ _) as [c2 []]; exact H1. }
  pose proof (summary_reading (set_provider w c1) p now) as Hsum. unfold reading in Hsum.
  destruct (approval_summary _ p now) as [w2 [[summary scope]|failure]]; simpl in Hsum.
  2:{ apply discard_evolves. by eapply steady_weaken. }
  destruct Hsum as [H2 _]. apply (steady_weaken log _ _ Q) in H2; [|done].
  destruct (wire_approval_id (ap_id p)) as [wire|failure] eqn:Hwire; [|by apply discard_evolves].
  destruct (checked_mul _ _ _) as [expiry|] eqn:Hexp; [|by apply discard_evolves].
  destruct (prompt_validate _ _ _) as [[]|error] eqn:Hval; [|by apply discard_evolves].
  right. eexists _, p, _. split; [reflexivity|].
  assert (wire = ap_id p) as -> by by apply wire_id_same.
  destruct (request_asked _ _ _ _ _ _ _ _ Hreq)
    as (a & _ & _ & _ & _ & Hf & Hh & Hrv & Hs & _ & _ & _ & _ & _ & _ & Ho & _).
  pose proof (request_wallet _ _ _ _ _ _ _ _ Hreq) as Hw. destruct H2 as [Hr Hc _ _ Hl].
  rewrite Hr in Hl |- *. bool_prop. split; simpl; rewrite ?Hh, ?Hrv; try done; try (by rewrite Hc).
  - intros Hi. rewrite Hc. apply set_state_inv, set_last_now_inv. simpl.
    pose proof (request_inv (sv_provider w) h r n now input Hi) as Hi1. by rewrite Hreq in Hi1.
  - by split; simpl; rewrite ?Hh, ?Hrv.
  - unfold prompt_validate in Hval. run_in Hval. bool_prop.
    unfold checked_mul in Hexp. run_in Hexp. split; simpl in *; try done.
    by repeat match goal with u : () |- _ => destruct u end.
Qed.
End Asked.

(** *** Requests of a page *)

(** A call that runs without approval, as the core admitted it. *)
Record direct w h r n name params now call : Prop := {
  dr_dispatch : ServiceCapability.ProviderDispatch ∈ sv_capabilities w;
  dr_method : Method.parse name = Ok (call_method call);
  dr_available : method_available w (call_method call) = Ok tt;
  dr_approval : Method.approval (call_method call) = None;
  dr_authority : exists a g, authorities (sv_provider w) !! h = Some a /\ revision a = r
    /\ now < valid_until_unix_ms (facts a) /\ call = call_of a (call_method call) params n
    /\ authorised (sv_provider w) now a (call_method call) g;
}.

Definition request_effect w h r n name params now (e : RuntimeCall) : Prop :=
  match e with
  | RcProvider call => direct w h r n name params now call
      /\ (hns_account_read_method (call_method call) = true ->
          exists names, covered w h r call now names)
  | RcNameRead call names => direct w h r n name params now call
      /\ hns_account_read_method (call_method call) = true /\ covered w h r call now names
  | RcLock => exists call, direct w h r n name params now call
      /\ call_method call = Method.WalletLock
  | RcPrepareApproval p => ServiceCapability.ProviderDispatch ∈ sv_capabilities w
      /\ Method.parse name = Ok (call_method (ap_call p))
      /\ method_available w (call_method (ap_call p)) = Ok tt
      /\ Method.approval (call_method (ap_call p)) = Some (ap_kind p)
  | RcCurrentNames => Method.parse name = Ok Method.WalletRequestPermissions
  | _ => False
  end.

Lemma covered_ext w w' h r call now names :
  authorities (sv_provider w') = authorities (sv_provider w) ->
  state (sv_provider w') = state (sv_provider w) -> sv_runtime w' = sv_runtime w ->
  covered w' h r call now names -> covered w h r call now names.
Proof.
  intros Ha Hs Hr [Hc Hn Hm]. split; auto. unfold current_generation in *. by rewrite Ha, Hs, Hr in Hc.
Qed.

Lemma execute_request_keeping Q w h r call now :
  (forall e, call_effect w h r call None now e -> Q e) -> keeping Q w (execute_request w h r call now).
Proof.
  intros HQ. unfold execute_request.
  assert (forall w1 (g : option N), evolves Q w w1 -> (call_method call <> Method.WalletLock -> w1 = w) ->
    keeping Q w (let! w, value := execute_call w1 h r call None now in
      let! w, binding :=
        match g with
        | Some g => (w, Ok (mkBinding h r (wallet_session (sv_provider w)) g))
        | None => provider_binding w h r now
        end in
      (w, Ok (ProviderResult binding value)))) as Hrun.
  { intros w1 g H1 Heq. eapply keeping_bind.
    - eapply keeping_from; [exact H1|]. eapply leaves_weaken; [apply execute_call_keeping|..]; simpl.
      all: intros; eapply evolves_weaken; [done|]; intros e He; apply HQ.
      all: destruct (decide (call_method call = Method.WalletLock)) as [Hm|Hm]; [|by rewrite Heq in He].
      all: destruct e; simpl in *; rewrite Hm in *; simpl in *; naive_solver.
    - intros w2 value H2. eapply (keeping_bind log Q w _ (fun w binding => (w, Ok (ProviderResult binding value)))).
      + destruct g; [exact H2|]. eapply keep_reading; [exact H2|apply binding_reading].
      + intros w3 binding H3. exact H3. }
  destruct (bool_decide (call_method call = Method.WalletLock)) eqn:Hm; bool_prop.
  - pose proof (binding_reading nothing w h r now) as Hb. unfold reading in Hb.
    destruct (provider_binding w h r now) as [w1 [b|]]; simpl in Hb.
    + destruct Hb as [Hb _]. apply steady_evolves in Hb. apply (Hrun w1 (Some (pb_permission_generation b))); [by eapply evolves_weaken|done].
    + apply steady_evolves in Hb. by eapply evolves_weaken.
  - apply (Hrun w None); [apply evolves_refl|done].
Qed.

(** What the core lets through without approval. *)
Lemma request_execute c h r n now input c1 call :
  request c h r n now input = (c1, Ok (Execute call)) ->
  Method.approval (call_method call) = None
  /\ authorities c1 = authorities c /\ state c1 = state c
  /\ exists a g wire params, authorities c !! h = Some a /\ revision a = r
    /\ now < valid_until_unix_ms (facts a) /\ call = call_of a (call_method call) params n
    /\ authorised c now a (call_method call) g
    /\ decode_request input = Some (wire, params) /\ Method.parse wire = Ok (call_method call).
Proof.
  intros H. apply request_cases in H. inversion H as [| | | |a m params c3 g Had Hau Hap| |]; subst.
  destruct (admitted_frame _ _ _ _ _ _ _ _ _ _ Had) as [rt F].
  destruct Had as [_ Ha [Hr _] Hl _ (wire & Hd & Hm) _ _ _]. split; [done|]. split; [by rewrite F|].
  split; [by rewrite F|]. exists a, g, wire, params. split_and!; try done.
  destruct Hau. rewrite F in *. by split.
Qed.

Lemma request_evolves Q w h r n now input c1 res : request (sv_provider w) h r n now input = (c1, res) ->
  (forall p, res <> Ok (Provider.ApprovalRequired p)) -> evolves Q w (set_provider w c1).
Proof.
  intros H Hno. pose proof (request_wallet _ _ _ _ _ _ _ _ H).
  destruct (request_narrowed _ _ _ _ _ _ _ _ H Hno). split; simpl; auto using logged_refl; congruence.
Qed.

Lemma direct_effect w c1 h r n name params now call e :
  authorities c1 = authorities (sv_provider w) -> state c1 = state (sv_provider w) ->
  direct w h r n name params now call ->
  call_effect (set_provider w c1) h r call None now e -> request_effect w h r n name params now e.
Proof.
  intros Ha Hs Hd. destruct e; simpl; try done.
  - by intros (-> & _ & [? ?]).
  - intros (-> & Hm & Hc). split_and!; try done. by eapply covered_ext, Hc.
  - intros (-> & Hc). split; [done|]. intros Hm. rewrite Hm in Hc. destruct Hc as [names Hc].
    exists names. by eapply covered_ext, Hc.
  - naive_solver.
  - eauto.
Qed.

Lemma provider_request_outcome `{RC : !RequestCodec} w h r n name params now :
  request_outcome (request_effect w h r n name params now) w
    (provider_request w h r n name params now).
Proof.
  set (Q := request_effect w h r n name params now). pose proof (evolves_refl log Q w) as Hw.
  unfold provider_request, request_outcome. destruct (has_service_capability w _) eqn:Hcap; simpl; [|exact Hw].
  apply leaves_test; [done|]. intros m Hm. apply leaves_test; [done|]. intros [] Hav.
  apply leaves_test; [done|]. intros [] _. apply leaves_test; [done|]. intros input Hin.
  destruct (Method.parse name) as [m'|] eqn:Hname; simpl in Hm; [|done]. simplify_eq.
  unfold has_service_capability in Hcap. bool_prop. apply request_decodes in Hin.
  destruct (request _ h r n now input) as [c1 [[call|p]|error]] eqn:Hreq.
  - destruct (request_execute _ _ _ _ _ _ _ _ Hreq)
      as (Hno & Ha1 & Hs1 & a & g & wire & ps & Ha & Hr & Hl & Hcall & Hau & Hd & Hmw).
    rewrite Hin in Hd. simplify_eq. rewrite Hname in Hmw. simplify_eq.
    eapply leaves_weaken; [eapply (keeping_from log Q w); [by eapply request_evolves|]|done|by left].
    apply execute_request_keeping. intros e. eapply direct_effect; [done..|]. split; eauto 10.
  - destruct (request_asked _ _ _ _ _ _ _ _ Hreq)
      as (a & _ & _ & _ & _ & _ & _ & _ & _ & _ & _ & _ & _ & Hap & (wire & Hd & Hmw) & _).
    rewrite Hin in Hd. simplify_eq. rewrite Hname in Hmw. simplify_eq.
    eapply ask_outcome; [exact Hreq|done|]. intros e [->|[-> Hp]]; simpl; [done|by rewrite <- Hp].
  - simpl. eapply evolves_trans; [by eapply request_evolves|].
    destruct (_ || _), (bool_decide (error = ClockRollback)); simpl.
    + refine (dropped_evolves log Q (set_provider w c1) ∅ ∅ _). apply map_empty_subseteq.
    + apply events_evolves.
    + apply dropped_pending_evolves, map_empty_subseteq.
    + apply evolves_refl.
Qed.

(** *** Decisions on prompts *)

(** A call that waited for the decision under [id], still bound as it was when the
    prompt was filed. *)
Record decided w h r id now call p ps : Prop := {
  de_service : sv_pending w !! id = Some ps;
  de_core : pending (sv_provider w) !! id = Some p;
  de_call : ap_call p = call;
  de_kind : Method.approval (call_method call) = Some (ps_kind ps);
  de_live : now / 1000 < ps_expires_at_unix ps /\ now / 1000 < ap_expires_at_unix p;
  de_authority : exists a g, authorities (sv_provider w) !! h = Some a /\ revision a = r
    /\ now < valid_until_unix_ms (facts a) /\ ap_authority_handle p = h /\ ap_authority_revision p = r
    /\ call_origin call = origin (facts a) /\ call_namespace call = namespace (facts a)
    /\ current_generation (sv_provider w) (facts a) = Ok g /\ ap_permission_generation p = g
    /\ ps_binding ps = mkBinding h r (wallet_session (sv_provider w)) g;
}.

Definition decision_effect w h r id (d : ApprovalDecision.t) now (e : RuntimeCall) : Prop :=
  d = ApprovalDecision.Approve /\
  match e with
  | RcCurrentNames => is_Some (sv_pending w !! id)
  | RcApproved call i t => t = now / 1000
      /\ exists p ps, decided w h r id now call p ps /\ i = ps_approval_id ps
  | RcAccountGrant call => call_method call = Method.HnsRequestAccounts
      /\ exists p ps, decided w h r id now call p ps
  | _ => False
  end.

Lemma reads_need_no_approval m : hns_account_read_method m = true -> Method.approval m = None.
Proof. by destruct m. Qed.

Lemma generation_stays now Q w w' f : steady now Q w w' ->
  current_generation (sv_provider w') f = current_generation (sv_provider w) f.
Proof. intros [_ _ _ Hg _]. unfold current_generation. by rewrite Hg. Qed.

Lemma approve_decided Q w w2 h r id now c3 call ps :
  steady now Q w w2 -> sv_pending w !! id = Some ps -> now / 1000 < ps_expires_at_unix ps ->
  (exists snap, snd (permission_snapshot (sv_provider w) h r now) = Ok snap
     /\ ps_binding ps = mkBinding h r (wallet_session (sv_provider w)) (snap_generation snap)) ->
  approve (sv_provider w2) h r id now = (c3, Ok call) ->
  Method.approval (call_method call) = Some (ps_kind ps) ->
  exists p, decided w h r id now call p ps.
Proof.
  intros Hst Hps Hlive (snap & Hsnap & Hb) Happ Hkind.
  destruct (permission_snapshot _ h r now) as [c' res] eqn:Hs. simpl in Hsnap. subst res.
  destruct (snapshot_ok _ _ _ _ _ _ Hs) as (a & stored & Ha & Hr & Hr0 & Hl & _ & Hg & _).
  destruct (approve_ok _ _ _ _ _ _ _ Happ) as (p & a' & g' & Hp & Ha' & Hr' & Hc & Hh & Hrv & He & Hgp & Ho & Hn & Hg' & _ & Hl' & _).
  rewrite (generation_stays _ _ _ _ _ Hst) in Hg'. destruct Hst as [_ Hcore _ _ _].
  rewrite Hcore in Hp, Ha'. simpl in Hp, Ha'. rewrite Ha in Ha'. simplify_eq. rewrite Hg in Hg'. simplify_eq.
  exists p. split; auto. exists a', (ap_permission_generation p). split_and!; try done; by rewrite <- ?Hg'.
Qed.

(** What runs once the core gave the approval away. *)
Lemma approved_keeping Q w w2 h r id now ps :
  evolves Q w w2 -> (forall call c3, approve (sv_provider w2) h r id now = (c3, Ok call) ->
    Method.approval (call_method call) = Some (ps_kind ps) ->
    Q (RcApproved call (ps_approval_id ps) (now / 1000))
    /\ (call_method call = Method.HnsRequestAccounts -> Q (RcAccountGrant call))) ->
  let forget w := set_service_pending w (delete id (sv_pending w)) in
  keeping Q w
    (let! w, call := on_provider w2 (approve (sv_provider w2) h r id now) in
     if negb (bool_decide (Method.approval (call_method call) = Some (ps_kind ps)))
     then (forget w, Err stale_approval) else
     let w := forget w in
     let! w, value := execute_call w h r call (Some ps) now in
     let! w, binding := provider_binding w h r now in
     (w, Ok (ProviderResult binding value))).
Proof.
  intros H2 HQ forget. pose proof (approve_narrowed (sv_provider w2) h r id now) as Hn.
  unfold on_provider. destruct (approve _ h r id now) as [c3 [call|error]] eqn:Happ; simpl in Hn |- *.
  2:{ eapply evolves_trans; [exact H2|by apply narrowed_evolves]. }
  assert (evolves Q w (forget (set_provider w2 c3))) as H3.
  { eapply evolves_trans; [exact H2|]. eapply evolves_trans; [by apply narrowed_evolves|].
    apply dropped_pending_evolves, delete_subseteq. }
  destruct (negb _) eqn:Hkind; [exact H3|]. bool_prop. destruct (HQ call c3 eq_refl Hkind) as [Ha Hg].
  eapply keeping_bind.
  - eapply keeping_from; [exact H3|]. eapply leaves_weaken; [apply execute_call_keeping|..]; simpl.
    all: intros; eapply evolves_weaken; [done|]; intros e He.
    all: destruct e; simpl in He; try done; try (destruct (hns_account_read_method _) eqn:Hm).
    all: try (apply reads_need_no_approval in Hm; naive_solver congruence).
    all: try (by destruct He as (? & ? & ?)); try (rewrite He in Hkind; done); naive_solver.
  - intros w4 value H4. eapply keeping_bind; [eapply keep_reading; [exact H4|apply binding_reading]|].
    intros w5 binding H5. exact H5.
Qed.

Lemma approval_decision_keeping w h r id d now :
  keeping (decision_effect w h r id d now) w (approval_decision w h r id d now).
Proof.
  set (Q := decision_effect w h r id d now). pose proof (evolves_refl log Q w) as Hw.
  unfold approval_decision. apply keeping_test; [done|]. intros ps Hps. bool_prop.
  destruct (_ || _) eqn:Hstale; [exact Hw|]. bool_prop.
  pose proof (binding_reading nothing w h r now) as Hb. unfold reading in Hb.
  destruct (provider_binding w h r now) as [w1 [b|]]; simpl in Hb.
  2:{ apply steady_evolves in Hb. by eapply evolves_weaken. }
  destruct Hb as (S1 & snap & Hsnap & ->). pose proof (steady_evolves _ _ _ _ _ S1) as E1.
  apply (evolves_weaken log _ Q) in E1; [|done].
  destruct (negb _) eqn:Hbind; [exact E1|]. bool_prop. destruct d.
  2:{ eapply keeping_bind; [eapply keeping_from; [exact E1|apply narrowed_keeping, reject_narrowed]|].
      intros w2 [] H2. eapply evolves_trans; [exact H2|apply dropped_pending_evolves, delete_subseteq]. }
  pose proof (verify_reading w1 h r ps now) as Hv. unfold reading in Hv.
  destruct (verify_pending_hns_permission_scope w1 h r ps now) as [w2 [u|failure]]; simpl in Hv.
  - destruct Hv as [S2 _]. apply approved_keeping.
    + eapply evolves_trans; [exact E1|]. apply steady_evolves, (evolves_weaken log _ Q) in S2; [done|].
      intros e ->. by split.
    + intros call c3 Happ Hkind. apply (steady_weaken log _ _ lists_names) in S1; [|done].
      pose proof (steady_trans _ _ _ _ _ _ S1 S2) as S12.
      assert (exists p, decided w h r id now call p ps) as [p Hd].
      { eapply approve_decided; try done. exists snap. by rewrite Hsnap. }
      split; [split; eauto|]. split; eauto.
  - apply steady_evolves, (evolves_weaken log _ Q) in Hv; [|intros e ->; by split].
    eapply evolves_trans; [exact E1|]. eapply evolves_trans; [exact Hv|].
    eapply evolves_trans; [apply narrowed_evolves, reject_narrowed|apply dropped_pending_evolves, delete_subseteq].
Qed.

(** A decision that lets a call run spends the approval. *)
Lemma evolves_spent Q w w' id : evolves Q w w' -> pending (sv_provider w) !! id = None ->
  pending (sv_provider w') !! id = None.
Proof.
  intros [_ _ Ha _ _ _ _] Hn. destruct (pending (sv_provider w') !! id) as [p|] eqn:Hp; [|done].
  apply (lookup_weaken _ _ _ _ Hp) in Ha. congruence.
Qed.

Lemma keeping_spent {A} Q w id (p : service * fails A) : keeping Q w p ->
  pending (sv_provider w) !! id = None -> pending (sv_provider p.1) !! id = None.
Proof. intros H Hn. destruct p as [w' []]; simpl in *; by eapply evolves_spent. Qed.

Lemma approval_decision_spends w h r id d now :
  let w' := (approval_decision w h r id d now).1 in
  logged log lists_names w w' \/ pending (sv_provider w') !! id = None.
Proof.
  unfold approval_decision. pose proof (logged_refl log lists_names w w eq_refl) as Hw.
  destruct (sv_pending w !! id) as [ps|]; simpl; [|by left]. destruct (_ || _); [by left|].
  pose proof (binding_reading lists_names w h r now) as Hb. unfold reading in Hb.
  destruct (provider_binding w h r now) as [w1 [b|]]; simpl in Hb; [|left; apply Hb].
  destruct Hb as [[_ _ _ _ L1] _]. destruct (negb _); [by left|]. destruct d.
  2:{ unfold on_provider. destruct (reject _ _ _ _ _) as [c2 []]; by left. }
  pose proof (verify_reading w1 h r ps now) as Hv. unfold reading in Hv.
  destruct (verify_pending_hns_permission_scope w1 h r ps now) as [w2 [u|failure]]; simpl in Hv.
  2:{ left. eapply logged_trans; [exact L1|]. destruct Hv as [_ _ _ _ L2]. exact L2. }
  destruct Hv as [[_ _ _ _ L2] _]. pose proof (logged_trans log _ _ _ _ L1 L2) as L12.
  unfold on_provider. destruct (approve _ h r id now) as [c3 [call|error]] eqn:Happ; simpl; [|by left].
  apply approve_ok in Happ as (p & a & g & _ & _ & _ & _ & _ & _ & _ & _ & _ & _ & _ & _ & _ & ->).
  right. destruct (negb _); simpl; [apply lookup_delete_eq|].
  match goal with |- context [execute_call ?w3 h r call _ now] =>
    pose proof (execute_call_keeping w3 h r call (Some ps) now) as He; apply (keeping_spent _ _ id) in He;
      [|apply lookup_delete_eq]; destruct (execute_call w3 h r call (Some ps) now) as [w4 [value|]] end;
    simpl in He |- *; [|done].
  pose proof (reading_keeping _ _ _ _ _ (binding_reading nothing w4 h r now)) as Hb'.
  apply (keeping_spent _ _ id) in Hb'; [|done]. by destruct (provider_binding w4 h r now) as [w5 []].
Qed.

(** *** Dispatch *)

(** What a request of the host may ask of the runtime. *)
Definition caused w (request : ServiceRequest Value) now (e : RuntimeCall) : Prop :=
  rt_admit_service_request (sv_runtime w) (state (sv_provider w)) request = Ok tt /\
  match request with
  | ProviderRequest h r n name params => request_effect w h r n name params now e
  | DecideApproval h r id d => decision_effect w h r id d now e
  | Wallet q => ServiceCapability.WalletOperations ∈ sv_capabilities w /\ (e = RcWallet q \/ e = RcLock)
  | WalletAuthority q =>
      ServiceCapability.HnsWalletAuthorityContextV1 ∈ sv_capabilities w /\ e = RcAuthority q
  | _ => False
  end.

Lemma wallet_operation_keeping Q w q :
  (ServiceCapability.WalletOperations ∈ sv_capabilities w -> Q (RcWallet q) /\ Q RcLock) ->
  keeping Q w (wallet_operation w q).
Proof.
  intros HQ. unfold wallet_operation. pose proof (evolves_refl log Q w) as Hw.
  destruct (has_service_capability w _) eqn:Hcap; simpl; [|exact Hw].
  unfold has_service_capability in Hcap. bool_prop. destruct (HQ Hcap) as [Q1 Q2].
  eapply keeping_bind; [eapply on_runtime_evolves; [apply laws|done]|]. intros w1 response H1.
  assert (forall locked, evolves Q w (rotate_wallet_session w1 locked).1) as Hrot.
  { intros locked. eapply evolves_trans; [exact H1|apply rotate_evolves]. }
  eapply (keeping_bind log Q w _ (fun w _ => (w, Ok (WalletResult response)))); [|by intros w2 []].
  assert (keeping Q w
    (match rotate_wallet_session w1 false with
     | (w, Ok _) => (w, Ok tt)
     | (w, Err error) =>
         let! w, _ := on_runtime w rt_lock_wallet in (w, Err (failure_from_error error))
     end)) as Hunlock.
  { specialize (Hrot false). destruct (rotate_wallet_session w1 false) as [w2 [u|error]]; simpl in Hrot; [exact Hrot|].
    eapply keeping_bind; [eapply keeping_from; [exact Hrot|eapply on_runtime_evolves; [apply laws|done]]|].
    intros w3 [] H3. exact H3. }
  destruct response; try exact H1; try exact Hunlock.
  specialize (Hrot true). by destruct (rotate_wallet_session w1 true) as [w2 []].
Qed.

Lemma forget_evolves Q w h : evolves Q w (forget_authority w h).
Proof. apply dropped_evolves, retain_subseteq. Qed.

Lemma keeping_outcome Q w p : keeping Q w p -> request_outcome Q w p.
Proof. intros H. eapply leaves_weaken; [exact H|done|by left]. Qed.

Lemma outcome_test {A} Q w w' (r : fails A) k :
  evolves Q w w' -> (forall x, r = Ok x -> request_outcome Q w (k x)) ->
  request_outcome Q w (match r with Ok x => k x | Err e => (w', Err e) end).
Proof. intros H Hk. by apply leaves_test. Qed.

Lemma outcome_weaken (Q Q' : RuntimeCall -> Prop) w p :
  request_outcome Q w p -> (forall e, Q e -> Q' e) -> request_outcome Q' w p.
Proof.
  intros H HQ. eapply leaves_weaken; [exact H|..]; simpl.
  - intros w1 H1. by eapply evolves_weaken.
  - intros w1 response [H1|(prompt & p1 & ps & -> & H1)]; [left; by eapply evolves_weaken|right].
    exists prompt, p1, ps. split; [done|]. destruct H1. split; try done. by eapply logged_weaken.
Qed.

Lemma dispatch_outcome `{RC : !RequestCodec} url w request now :
  request_outcome (caused w request now) w (dispatch url w request now).
Proof.
  set (Q := caused w request now). pose proof (evolves_refl log Q w) as Hw. unfold dispatch.
  apply outcome_test; [done|]. intros [] Hadmit. destruct request.
  - apply keeping_outcome, keeping_test; [done|]. intros f _.
    eapply keeping_bind; [apply narrowed_keeping, register_narrowed|]. done.
  - apply keeping_outcome, keeping_test; [done|]. intros f _.
    eapply keeping_bind; [apply narrowed_keeping, replace_narrowed|]. intros w1 revision H1.
    eapply evolves_trans; [exact H1|apply forget_evolves].
  - apply keeping_outcome. eapply keeping_bind; [apply narrowed_keeping, revoke_narrowed|]. intros w1 [] H1.
    eapply evolves_trans; [exact H1|apply forget_evolves].
  - apply keeping_outcome. eapply keeping_bind; [eapply keep_reading; [exact Hw|apply binding_reading]|]. done.
  - eapply outcome_weaken; [apply provider_request_outcome|done].
  - apply keeping_outcome. eapply leaves_weaken; [apply approval_decision_keeping|..]; simpl;
      intros; (eapply evolves_weaken; [done|]); done.
  - apply keeping_outcome, wallet_operation_keeping. intros Hc. split; (split; [done|]); eauto.
  - apply keeping_outcome. destruct (has_service_capability w _) eqn:Hc; simpl; [|exact Hw].
    unfold has_service_capability in Hc. bool_prop.
    eapply keeping_bind; [eapply on_runtime_evolves; [apply laws|by split]|]. done.
Qed.
End Methods.
