(* ===== verification/ServiceRuns.v ===== *)
(** * The wallet service: its invariant and its runs

    The invariant [service_ok] relates the prompts a service keeps to the approvals
    its provider core keeps, and the requests it has seen to their order. A run is
    a sequence of calls of the public methods. *)

From S2P Require Import Prelude Types Provider ProviderProofs Abi Service ServiceProofs.

Section Runs.
Context `{env : ProviderEnv} `{SJ : !ServiceJson} {S R E : Type} `{store : !ProviderStateStore S}
  `{RT : !ServiceRuntime S R} `{OS : !OsRandom E} `{NE : NameEnv}.
Context `{JH : JsonCodec (HostFrame Value), JS : JsonCodec (ServiceFrame Value), JA : JsonCodec ApprovalPrompt,
          JE : JsonCodec ProviderEventEnvelope, JV : JsonCodec Value, JB : JsonCodec (ProviderBody Value)}.
Abbreviation service := (WalletService S R E).
Implicit Types (w : service) (Q : RuntimeCall -> Prop).

(** ** The invariant *)

(** The channel: the window of request identifiers and the two counters. *)
Record channel_ok w : Prop := {
  ch_seen : sv_seen_request_ids w = list_to_set (sv_request_order w);
  ch_once : NoDup (sv_request_order w);
  ch_window : len (sv_request_order w) <= MAX_SEEN_REQUEST_IDS;
  ch_idle : sv_session w = None -> sv_request_order w = [];
  ch_counters : forall s, sv_session w = Some s ->
    1 <= se_next_host_sequence s <= U64_MAX /\ 1 <= se_next_service_sequence s <= U64_MAX;
}.

(** The prompts and the approvals. *)
Record prompts_ok w : Prop := {
  pr_core : core_inv (sv_provider w);
  pr_wallet : wallet_session (sv_provider w) = sv_wallet_session_id w;
  pr_room : count (sv_pending w) <= MAX_SERVICE_PENDING_APPROVALS;
  pr_bound : forall id ps, sv_pending w !! id = Some ps ->
    ps_approval_id ps = id /\ pb_wallet_session_id (ps_binding ps) = sv_wallet_session_id w;
  pr_agree : forall id ps p, sv_pending w !! id = Some ps ->
    pending (sv_provider w) !! id = Some p -> corresponds ps p;
}.

Record service_ok w : Prop := { so_channel : channel_ok w; so_prompts : prompts_ok w }.

(** A change that leaves the channel alone. *)
Definition same_channel w w' : Prop :=
  sv_session w' = sv_session w /\ sv_seen_request_ids w' = sv_seen_request_ids w
  /\ sv_request_order w' = sv_request_order w.

Lemma same_channel_ok w w' : same_channel w w' -> channel_ok w -> channel_ok w'.
Proof. intros (Hs & Hi & Ho) []. split; by rewrite ?Hs, ?Hi, ?Ho. Qed.

(** ** Headers *)

Record accepted {T} w (envelope : SessionEnvelope T) w' (s : SessionState) : Prop := {
  ac_session : sv_session w = Some s;
  ac_bound : host_session_id envelope = se_host_session_id s
    /\ service_session_id envelope = sv_service_session_id w
    /\ restart_generation envelope = se_restart_generation s;
  ac_number : channel_sequence envelope = se_next_host_sequence s
    /\ se_next_host_sequence s + 1 <= U64_MAX;
  ac_fresh : request_id envelope ∉ sv_seen_request_ids w;
  ac_rest : exists ids order, w' = set_seen (set_session w (Some (mkServiceSession
      (se_host_session_id s) (se_restart_generation s) (se_next_host_sequence s + 1)
      (se_next_service_sequence s)))) ids order
    /\ (sv_seen_request_ids w = list_to_set (sv_request_order w) -> NoDup (sv_request_order w) ->
        ids = list_to_set order)
    /\ order = let all := sv_request_order w ++ [request_id envelope] in
               if MAX_SEEN_REQUEST_IDS <? len all then tail all else all;
}.

Local Ltac past_test H Hb :=
  match type of H with (if ?b then _ else _) = _ => destruct b eqn:Hb; [by simplify_eq|] end.

Lemma accept_header {T} w (envelope : SessionEnvelope T) w' res :
  accept_request_header w envelope = (w', res) ->
  match res with Ok _ => exists s, accepted w envelope w' s | Err _ => w' = w end.
Proof.
  unfold accept_request_header. intros H. destruct (sv_session w) as [s|] eqn:Hs; [|by simplify_eq].
  cbn [sv_request_order sv_seen_request_ids set_session] in H. past_test H Hb. past_test H Hn. past_test H Hin.
  destruct (u64_add _ 1) as [next|] eqn:Hu; [|by simplify_eq]. apply checked_add_Some in Hu as [-> Hu].
  bool_prop. simplify_eq. exists s. split; auto.
  destruct (sv_request_order w ++ [request_id envelope]) as [|expired rest] eqn:Hall.
  { by destruct (sv_request_order w). }
  destruct (MAX_SEEN_REQUEST_IDS <? _) eqn:Hfull; eexists _, _; (split; [reflexivity|]);
    (split; [|by cbv zeta; rewrite Hfull]).
  all: intros Hids Hnd.
  all: assert (request_id envelope ∉ sv_request_order w) as Hnew by (rewrite Hids in Hin; set_solver).
  all: assert (NoDup (expired :: rest)) as Hnd' by (rewrite <- Hall; apply NoDup_snoc; done).
  all: assert ({[request_id envelope]} ∪ sv_seen_request_ids w = list_to_set (expired :: rest)) as ->
    by (rewrite <- Hall, Hids; set_solver).
  - apply list.NoDup_cons in Hnd' as [Hx _]. set_solver.
  - set_solver.
Qed.

Lemma accepted_channel {T} w (envelope : SessionEnvelope T) w' s :
  accepted w envelope w' s -> channel_ok w -> channel_ok w'.
Proof.
  intros [Hs _ [_ Hmax] Hf (ids & order & -> & Hids & Ho)] [Cs Co Cw Ci Cc]. simpl in Ho.
  assert (NoDup (sv_request_order w ++ [request_id envelope])) as Hnd.
  { apply NoDup_snoc; [done|]. rewrite Cs in Hf. set_solver. }
  assert (len (sv_request_order w ++ [request_id envelope]) = len (sv_request_order w) + 1) as Hl.
  { unfold len. rewrite length_app. simpl. lia. }
  split; simpl.
  - by apply Hids.
  - subst order. case_match; [|done]. revert Hnd. destruct (_ ++ _); [done|]. simpl. by intros [_ ?]%list.NoDup_cons.
  - subst order. case_match; bool_prop; [|lia]. revert Hl. destruct (_ ++ _) as [|x l]; [done|].
    unfold len in *. simpl in *. lia.
  - done.
  - intros s' [= <-]. simpl. destruct (Cc _ Hs). lia.
Qed.

Lemma next_sequence w w' res : next_service_sequence w = (w', res) ->
  match res with
  | Ok (s', n) => exists s, sv_session w = Some s /\ n = se_next_service_sequence s /\ n + 1 <= U64_MAX
      /\ s' = mkServiceSession (se_host_session_id s) (se_restart_generation s)
                (se_next_host_sequence s) (n + 1)
      /\ w' = set_session w (Some s')
  | Err e => w' = w /\ (e = ServiceError.HandshakeRequired /\ sv_session w = None
      \/ e = ServiceError.SequenceExhausted
         /\ exists s, sv_session w = Some s /\ U64_MAX <= se_next_service_sequence s)
  end.
Proof.
  unfold next_service_sequence. intros H. destruct (sv_session w) as [s|] eqn:Hs; [|simplify_eq; auto].
  destruct (u64_add _ 1) as [n|] eqn:Hn; simplify_eq.
  - apply checked_add_Some in Hn as [-> Hn]. eauto 10.
  - split; [done|]. right. split; [done|]. exists s. split; [done|]. apply checked_add_None in Hn. lia.
Qed.

Lemma next_channel w w' s' n : next_service_sequence w = (w', Ok (s', n)) -> channel_ok w -> channel_ok w'.
Proof.
  intros (s & Hs & -> & Hmax & -> & ->)%next_sequence [Cs Co Cw Ci Cc]. split; simpl; try done.
  intros x [= <-]. simpl. destruct (Cc _ Hs). lia.
Qed.

(** ** Changes of the service *)

Context (url_parse : string -> option ParsedUrl).
Context (log : R -> list RuntimeCall) `{laws : !RuntimeLaws S R log} `{RC : !RequestCodec}.
Abbreviation evolves := (evolves log).
Abbreviation asks := (asks log).

Lemma evolves_prompts Q w w' : evolves Q w w' -> prompts_ok w -> prompts_ok w'.
Proof.
  intros [Hi Hw Ha Hp Hb _ _] [Ci Cw Cr Cb Ca]. split; auto.
  - etrans; [|exact Cr]. by apply count_subseteq.
  - intros id ps Hps. pose proof (lookup_weaken _ _ _ _ Hps Hp) as Hps'.
    destruct (Cb _ _ Hps') as [? Hs]. split; [done|]. destruct Hb as [Hb|Hb]; [|by rewrite Hb].
    by rewrite Hb in Hps.
  - intros id ps p Hps Hpp. eapply Ca; by eapply lookup_weaken.
Qed.

Lemma asks_prompts Q w w' prompt p ps : asks Q w w' prompt p ps -> prompts_ok w -> prompts_ok w'.
Proof.
  intros [Hi [Hw Hid] _ _ Hf Ho Hp Hroom Hs Hc _] [Ci Cw Cr Cb Ca]. split; auto.
  - congruence.
  - rewrite Hp. etrans; [apply count_insert_le|]. lia.
  - intros id x. rewrite Hp. intros [[<- <-]|[Hne Hx]]%lookup_insert_Some.
    + split; [apply Hc|]. rewrite (co_binding _ _ Hc). simpl. congruence.
    + rewrite Hid. eauto.
  - intros id x q. rewrite Hp. intros [[<- <-]|[Hne Hx]]%lookup_insert_Some Hq; [congruence|]. eauto.
Qed.

(** What a call may do depends on the provider, the runtime, the capabilities and
    the prompts. *)
Lemma decided_ext w w' h r id now call p ps :
  sv_provider w' = sv_provider w -> sv_pending w' ⊆ sv_pending w ->
  decided w' h r id now call p ps -> decided w h r id now call p ps.
Proof.
  intros Hw Hp [Hs Hc]. rewrite Hw in *. split; try done. by eapply lookup_weaken.
Qed.

Lemma request_effect_ext w w' h r n name params now e :
  sv_provider w' = sv_provider w -> sv_runtime w' = sv_runtime w ->
  sv_capabilities w' = sv_capabilities w ->
  request_effect w' h r n name params now e -> request_effect w h r n name params now e.
Proof.
  intros Hp Hr Hc.
  assert (forall m, method_available w' m = method_available w m) as Hm.
  { intros m. unfold method_available, supported_provider_method, has_service_capability.
    by rewrite ?Hp, ?Hr, ?Hc. }
  assert (forall call, direct w' h r n name params now call -> direct w h r n name params now call) as Hd.
  { intros call []. rewrite Hm, ?Hp, ?Hc in *. by split. }
  assert (forall call names, covered w' h r call now names -> covered w h r call now names) as Hv.
  { intros call names. by apply covered_ext; rewrite ?Hp, ?Hr. }
  destruct e; simpl; rewrite ?Hm, ?Hc; naive_solver.
Qed.

Lemma caused_ext w w' request now e :
  sv_provider w' = sv_provider w -> sv_runtime w' = sv_runtime w ->
  sv_capabilities w' = sv_capabilities w -> sv_pending w' ⊆ sv_pending w ->
  caused w' request now e -> caused w request now e.
Proof.
  intros Hw Hr Hc Hp [Ha He]. rewrite Hr, Hw in Ha. split; [exact Ha|].
  destruct request; try done; rewrite ?Hc in He; try done.
  - by eapply request_effect_ext.
  - destruct He as [Hd He]. split; [exact Hd|]. destruct e; try done.
    + destruct He as (Hm & p & ps & H). eauto using decided_ext.
    + destruct He as [ps H]. exists ps. by eapply lookup_weaken.
    + destruct He as (Ht & p & ps & H & ->). eauto 6 using decided_ext.
Qed.

(** ** Calls of the public methods *)

Inductive ServiceCall :=
| Process (encoded : bytes) (now : N)
| Emit (handle : bytes) (revision : N) (payload : ProviderEventPayload.t) (now : N)
| Rotate (locked : bool).

(** [rotate_wallet_session] returns no bytes. *)
Definition service_step w (call : ServiceCall) : service * result bytes ServiceError.t :=
  match call with
  | Process encoded now => process_frame url_parse w encoded now
  | Emit handle revision payload now => emit_event w handle revision payload now
  | Rotate locked => let '(w, r) := rotate_wallet_session w locked in
      (w, match r with Ok _ => Ok [] | Err e => Err e end)
  end.

(** What a call may ask of the runtime. *)
Definition effect w (call : ServiceCall) (e : RuntimeCall) : Prop :=
  match call with
  | Process encoded now => exists envelope,
      decode_host_frame encoded = Ok (Request envelope) /\ caused w (body envelope) now e
  | _ => False
  end.

(** The answer to a request, the service's next frame in the session, is a prompt;
    [sent] is its encoding. *)
Definition carries w (call : ServiceCall) (sent : result bytes AbiError.t) (prompt : ApprovalPrompt) : Prop :=
  exists encoded now question s, call = Process encoded now
    /\ decode_host_frame encoded = Ok (Request question) /\ sv_session w = Some s
    /\ encode_service_frame (Response (mkEnvelope WALLET_ABI_VERSION (se_host_session_id s)
         (sv_service_session_id w) (se_restart_generation s) (se_next_service_sequence s)
         (request_id question) (ApprovalRequired prompt))) = sent.

(** The call returned the encoded prompt; or this very frame has no encoding and
    the call returned the encoder's error. *)
Definition prompts w call (out : result bytes ServiceError.t) (prompt : ApprovalPrompt) : Prop :=
  exists b, out = Ok b /\ carries w call (Ok b) prompt.
Definition loses w call (out : result bytes ServiceError.t) (prompt : ApprovalPrompt) : Prop :=
  exists a, out = Err (ServiceError.Abi a) /\ carries w call (Err a) prompt.

Definition waiting w id p ps : Prop :=
  pending (sv_provider w) !! id = Some p /\ sv_pending w !! id = Some ps.

(** The number of the next frame of the service. *)
Definition sent_number w : N :=
  match sv_session w with Some s => se_next_service_sequence s | None => 1 end.

Record step_facts w call out w' : Prop := {
  sf_ok : service_ok w -> service_ok w';
  sf_log : logged log (effect w call) w w';
  sf_waiting : forall id p ps, waiting w' id p ps -> waiting w id p ps
    \/ exists prompt, shows prompt p /\ id = ap_id p /\ 
         (prompts w call out prompt \/ loses w call out prompt \/ U64_MAX <= sent_number w);
  sf_number : sent_number w' <= sent_number w + 1;
  sf_constant : sv_capabilities w' = sv_capabilities w
    /\ sv_service_session_id w' = sv_service_session_id w;
}.

Lemma evolves_waiting Q w w' id p ps : evolves Q w w' -> waiting w' id p ps -> waiting w id p ps.
Proof. intros [_ _ Ha Hp _ _ _] [H1 H2]. split; by eapply lookup_weaken. Qed.

Lemma asks_waiting Q w w' prompt q qs id p ps : asks Q w w' prompt q qs -> waiting w' id p ps ->
  waiting w id p ps \/ shows prompt p /\ id = ap_id p.
Proof.
  intros [_ _ _ _ Hf Ho Hp _ _ _ Hs] [H1 H2]. rewrite Hp in H2.
  apply lookup_insert_Some in H2 as [[<- <-]|[Hne H2]].
  - right. rewrite Hf in H1. by simplify_eq.
  - left. split; [|done]. apply Ho; [congruence|done].
Qed.

(** A call that leaves the channel alone but for its own counter. *)
Lemma quiet_facts Q w call out w' :
  evolves Q w w' -> (forall e, Q e -> effect w call e) -> step_facts w call out w'.
Proof.
  intros H HQ. pose proof (ev_channel _ _ _ _ H) as (Hs & Hi & Ho & Hc & Hid). split.
  - intros [Hch Hp]. split; [by apply (same_channel_ok w)|by eapply evolves_prompts].
  - eapply logged_weaken; [apply H|done].
  - intros id p ps Hw. left. by eapply evolves_waiting.
  - unfold sent_number. rewrite Hs. lia.
  - done.
Qed.

(** Moving a counter changes nothing else. *)
Lemma session_facts w call out w' s :
  step_facts w call out w' -> (service_ok w' -> channel_ok (set_session w' (Some s))) ->
  se_next_service_sequence s <= sent_number w + 1 -> step_facts w call out (set_session w' (Some s)).
Proof.
  intros [Hok Hl Hw Hn Hc] Hch Hs. split; try done.
  intros H. specialize (Hok H). split; [auto|]. by destruct Hok as [_ []].
Qed.

Lemma rotate_facts w locked :
  let '(w', out) := service_step w (Rotate locked) in step_facts w (Rotate locked) out w'.
Proof.
  simpl. pose proof (rotate_evolves log nothing w locked) as H.
  destruct (rotate_wallet_session w locked) as [w' r]. by eapply quiet_facts.
Qed.

Lemma emit_facts w h r payload now :
  let '(w', out) := emit_event w h r payload now in step_facts w (Emit h r payload now) out w'.
Proof.
  unfold emit_event. pose proof (on_snapshot log nothing w h r now) as Hs. unfold on_provider in Hs.
  destruct (permission_snapshot _ h r now) as [c snap]. simpl in Hs.
  assert (evolves nothing w (set_provider w c)) as H.
  { destruct snap; simpl in Hs; [destruct Hs as [Hs _]|]; by eapply steady_evolves. }
  assert (forall m, evolves nothing w (set_event_sequences (set_provider w c) m)) as He.
  { intros m. eapply evolves_trans; [exact H|apply events_evolves]. }
  destruct snap as [permission|error]; [|by eapply quiet_facts].
  destruct (_ && _); [by eapply quiet_facts|]. destruct (ok_or _ _) as [n|error]; simpl; [|by eapply quiet_facts].
  destruct (next_service_sequence _) as [w2 [[s' k]|error]] eqn:Hn; simpl.
  - apply next_sequence in Hn as (s & Hs' & -> & Hmax & -> & ->). simpl in Hs'.
    match goal with |- step_facts _ _ ?out _ =>
      assert (forall m, step_facts w (Emit h r payload now) out
        (set_session (set_event_sequences (set_provider w c) m) (Some (mkServiceSession
           (se_host_session_id s) (se_restart_generation s) (se_next_host_sequence s)
           (se_next_service_sequence s + 1))))) as Hf end.
    { intros m. apply session_facts; [by eapply quiet_facts| |].
      - intros [[]  _]. split; try done. intros x [= <-]. simpl in *. specialize (ch_counters0 _ Hs'). lia.
      - unfold sent_number. rewrite Hs'. simpl. lia. }
    destruct (is_none _); match goal with |- step_facts _ _ _ ?w' => exact (Hf (sv_event_sequences w')) end.
  - apply next_sequence in Hn as [-> _]. apply (quiet_facts nothing); [|done].
    match goal with |- evolves _ _ ?w' => exact (He (sv_event_sequences w')) end.
Qed.

Lemma negotiate_facts w encoded now hello :
  let '(w', out) := negotiate w hello in step_facts w (Process encoded now) out w'.
Proof.
  unfold negotiate. destruct (sv_session w) as [s|] eqn:Hs; simpl.
  - apply (quiet_facts nothing); [apply evolves_refl|done].
  - apply session_facts; [apply (quiet_facts nothing); [apply evolves_refl|done]|..]; simpl.
    + intros [[Cs Co Cw Ci _] _]. split; simpl; try done. intros x [= <-]. simpl. unfold U64_MAX. lia.
    + unfold sent_number. rewrite Hs. lia.
Qed.

(** The service a request is dispatched on. *)
Record dispatched w w2 (s : SessionState) : Prop := {
  dp_ok : service_ok w -> service_ok w2;
  dp_provider : sv_provider w2 = sv_provider w;
  dp_runtime : sv_runtime w2 = sv_runtime w;
  dp_pending : sv_pending w2 ⊆ sv_pending w;
  dp_constant : sv_capabilities w2 = sv_capabilities w
    /\ sv_service_session_id w2 = sv_service_session_id w;
  dp_session : sv_session w = Some s /\ sv_session w2 = Some (mkServiceSession (se_host_session_id s)
    (se_restart_generation s) (se_next_host_sequence s + 1) (se_next_service_sequence s));
}.

Lemma accepted_dispatched {T} w (envelope : SessionEnvelope T) w1 s now :
  accepted w envelope w1 s -> dispatched w (prune_pending w1 now) s.
Proof.
  intros Ha. pose proof Ha as [Hs _ _ _ (ids & order & -> & _)]. split; simpl; try done.
  - intros [Hch Hp]. apply (accepted_channel _ _ _ _ Ha) in Hch. split.
    + eapply same_channel_ok; [|exact Hch]. done.
    + destruct Hp as [Ci Cw Cr Cb Cg]. split; simpl; try done.
      * etrans; [apply count_retain|done].
      * intros id ps [? _]%lookup_retain_Some. eauto.
      * intros id ps p [? _]%lookup_retain_Some. eauto.
  - apply retain_subseteq.
Qed.

Lemma dispatched_facts Q w w2 s call out w3 :
  dispatched w w2 s -> (forall e, Q e -> effect w call e) -> logged log Q w2 w3 ->
  same_channel w2 w3 -> sv_capabilities w3 = sv_capabilities w2 ->
  sv_service_session_id w3 = sv_service_session_id w2 -> (prompts_ok w2 -> prompts_ok w3) ->
  (forall id p ps, waiting w3 id p ps -> waiting w2 id p ps \/ exists prompt, shows prompt p
     /\ id = ap_id p /\ (prompts w call out prompt \/ loses w call out prompt \/ U64_MAX <= sent_number w)) ->
  step_facts w call out w3.
Proof.
  intros [Dok Dp Dr Dpe [Dc Did] [Hs Hs2]] HQ (new & Hl & Hf) Hch Hc Hid Hpr Hw. split.
  - intros H. destruct (Dok H) as [? ?]. split; [by eapply same_channel_ok|auto].
  - exists new. rewrite Hl, Dr. split; [done|]. by eapply Forall_impl.
  - intros id p ps H. destruct (Hw _ _ _ H) as [[H1 H2]|?]; [left|by right].
    split; [by rewrite <- Dp|by eapply lookup_weaken].
  - unfold sent_number. destruct Hch as (-> & _). rewrite Hs2, Hs. simpl. lia.
  - by rewrite Hc, Hid.
Qed.

(** The state a dispatched request leaves, before its answer is numbered. *)
Lemma dispatch_facts w encoded now envelope w1 s :
  decode_host_frame encoded = Ok (Request envelope) -> accepted w envelope w1 s ->
  let '(w3, answer) := dispatch url_parse (prune_pending w1 (now / 1000)) (body envelope) now in
  sv_session w3 = Some (mkServiceSession (se_host_session_id s) (se_restart_generation s)
                     (se_next_host_sequence s + 1) (se_next_service_sequence s))
  /\ sv_service_session_id w3 = sv_service_session_id w
  /\ forall out, (forall prompt, answer = Ok (ApprovalRequired prompt) ->
                 prompts w (Process encoded now) out prompt \/ loses w (Process encoded now) out prompt
                 \/ U64_MAX <= sent_number w) ->
      step_facts w (Process encoded now) out w3.
Proof.
  intros Hdec Hacc. apply accepted_dispatched with (now := now / 1000) in Hacc. revert Hacc.
  generalize (prune_pending w1 (now / 1000)). intros w2 Hd. pose proof Hd as [_ Dp Dr Dpe [Dc Di] [_ Hs2]].
  pose proof (dispatch_outcome log url_parse w2 (body envelope) now) as H. unfold request_outcome in H.
  destruct (dispatch url_parse w2 (body envelope) now) as [w3 answer].
  assert (forall e, caused w2 (body envelope) now e -> effect w (Process encoded now) e) as HQ.
  { intros e He. exists envelope. split; [done|]. by eapply caused_ext. }
  assert (evolves (caused w2 (body envelope) now) w2 w3 \/ exists prompt p ps,
    answer = Ok (ApprovalRequired prompt) /\ asks (caused w2 (body envelope) now) w2 w3 prompt p ps) as Ho.
  { destruct answer; simpl in H; naive_solver. }
  clear H. destruct Ho as [He|(prompt & p & ps & -> & Ha)].
  - pose proof (ev_channel _ _ _ _ He) as (E1 & E2 & E3 & E4 & E5). split; [by rewrite E1|]. split; [by rewrite E5|]. intros out _.
    eapply dispatched_facts; [done|exact HQ|apply He|done..|by eapply evolves_prompts|].
    intros id p ps Hw. left. by eapply evolves_waiting.
  - pose proof (as_channel _ _ _ _ _ _ _ Ha) as (E1 & E2 & E3 & E4 & E5). split; [by rewrite E1|]. split; [by rewrite E5|]. intros out Hout.
    eapply dispatched_facts; [done|exact HQ|apply Ha|done..|by eapply asks_prompts|].
    intros id q qs Hw. destruct (asks_waiting _ _ _ _ _ _ _ _ _ Ha Hw) as [?|[? ?]]; [by left|right; eauto].
Qed.

Lemma process_facts w encoded now :
  let '(w', out) := process_frame url_parse w encoded now in step_facts w (Process encoded now) out w'.
Proof.
  unfold process_frame. destruct (decode_host_frame encoded) as [[hello|envelope]|error] eqn:Hdec; simpl.
  - apply negotiate_facts.
  - unfold process_request. destruct (accept_request_header w envelope) as [w1 [[]|error]] eqn:Hacc;
      apply accept_header in Hacc.
    2:{ subst w1. apply (quiet_facts nothing); [apply evolves_refl|done]. }
    destruct Hacc as [s Hacc]. pose proof (dispatch_facts w encoded now envelope w1 s Hdec Hacc) as Hd.
    destruct (dispatch _ _ _ _) as [w3 answer]. destruct Hd as (Hs3 & Hid & Hf).
    destruct (next_service_sequence w3) as [w4 [[s' k]|error]] eqn:Hn; apply next_sequence in Hn.
    + destruct Hn as (s3 & Hs & -> & Hmax & -> & ->). rewrite Hs3 in Hs. simplify_eq. simpl in Hmax.
      apply session_facts; [apply Hf|..]; simpl.
      * intros prompt ->.
        assert (forall sent, encode_service_frame (Response (mkEnvelope WALLET_ABI_VERSION (se_host_session_id s)
          (sv_service_session_id w) (se_restart_generation s) (se_next_service_sequence s) (request_id envelope)
          (ApprovalRequired prompt))) = sent -> carries w (Process encoded now) sent prompt) as Hc
          by (intros sent Hsent; exists encoded, now, envelope, s; split_and!; try done; apply Hacc).
        rewrite Hid. simpl. destruct (encode_service_frame _) as [b|a]; [left; exists b|right; left; exists a]; auto.
      * intros [[Cs Co Cw Ci Cc] _]. split; simpl; try done. intros x [= <-]. specialize (Cc _ Hs3).
        simpl in *. lia.
      * unfold sent_number. rewrite (ac_session _ _ _ _ Hacc). lia.
    + destruct Hn as [-> Hn]. apply Hf. intros prompt ->. do 2 right. unfold sent_number.
      rewrite (ac_session _ _ _ _ Hacc). rewrite Hs3 in Hn. naive_solver.
  - apply (quiet_facts nothing); [apply evolves_refl|done].
Qed.

(** Up to the counters, a frame does what its request does, or nothing. *)
Lemma process_dispatched w encoded now envelope :
  decode_host_frame encoded = Ok (Request envelope) ->
  let w' := (process_frame url_parse w encoded now).1 in
  w' = w \/ exists w2, sv_runtime w2 = sv_runtime w
    /\ let w3 := (dispatch url_parse w2 (body envelope) now).1 in
       sv_provider w' = sv_provider w3 /\ sv_runtime w' = sv_runtime w3.
Proof.
  intros Hdec. unfold process_frame. rewrite Hdec. simpl. unfold process_request.
  destruct (accept_request_header w envelope) as [w1 [[]|error]] eqn:Hacc; apply accept_header in Hacc; [|by left].
  destruct Hacc as [s Hacc]. apply accepted_dispatched with (now := now / 1000) in Hacc as [_ _ Hr _ _ _].
  right. exists (prune_pending w1 (now / 1000)). split; [done|].
  destruct (dispatch _ _ _ _) as [w3 answer]. simpl.
  destruct (next_service_sequence w3) as [w4 [[s' k]|error]] eqn:Hn; apply next_sequence in Hn; simpl.
  - by destruct Hn as (s3 & _ & _ & _ & _ & ->).
  - by destruct Hn as [-> _].
Qed.

Lemma service_step_facts w call :
  step_facts w call (service_step w call).2 (service_step w call).1.
Proof.
  destruct call as [encoded now|h r payload now|locked]; simpl.
  - pose proof (process_facts w encoded now) as H. by destruct (process_frame _ _ _ _).
  - pose proof (emit_facts w h r payload now) as H. by destruct (emit_event _ _ _ _ _).
  - pose proof (rotate_facts w locked) as H. simpl in H. by destruct (rotate_wallet_session _ _).
Qed.
End Runs.
