(* ===== verification/ServiceTheorems.v ===== *)
(** * Properties of the wallet service

    Over every history of calls of a service, from its construction: its
    invariant, what the runtime is asked to do and on whose behalf, and the
    prompts that approved calls answer. *)

From Stdlib Require Import Strings.Byte.
From stdpp Require Import finite.
From S2P Require Import Prelude Types Provider ProviderProofs ProviderTheorems Abi Service ServiceProofs ServiceRuns.

(** ** Capabilities *)

(** The capabilities a service announces are consistent. *)
Record capabilities_ok (c : gset ServiceCapability.t) : Prop := {
  cap_required : ServiceCapability.CanonicalFraming ∈ c /\ ServiceCapability.RestartIsolation ∈ c
    /\ ServiceCapability.OpaqueAuthorityRegistry ∈ c;
  cap_value : ServiceCapability.ValueMovement ∈ c -> ServiceCapability.ProviderDispatch ∈ c;
  cap_reads : ServiceCapability.HnsReadOperationsV1 ∈ c -> ServiceCapability.WalletOperations ∈ c;
  cap_context : ServiceCapability.HnsWalletAuthorityContextV1 ∈ c ->
    ServiceCapability.WalletOperations ∈ c /\ ServiceCapability.HnsReadOperationsV1 ∈ c;
  cap_values : ServiceCapability.HnsValueOperationsV1 ∈ c ->
    ServiceCapability.ProviderDispatch ∈ c /\ ServiceCapability.HnsReadOperationsV1 ∈ c;
  cap_market : ServiceCapability.ShakescapeShakedexV1 ∈ c -> ServiceCapability.HnsValueOperationsV1 ∈ c;
  cap_browser : ServiceCapability.BrowserIntegration ∉ c;
}.

(** Dropping [dropped] unless [p] holds. *)
Record drops (p : Prop) (dropped c c' : gset ServiceCapability.t) : Prop := {
  dd_sub : c' ⊆ c;
  dd_stay : forall x, x ∈ c -> x ∉ dropped -> x ∈ c';
  dd_need : forall x, x ∈ c' -> x ∈ dropped -> p;
}.

Lemma drop_unless_drops (p : Prop) `{!Decision p} (dropped c : gset ServiceCapability.t) :
  drops p dropped c (if bool_decide p then c else c ∖ dropped).
Proof. case_bool_decide; split; set_solver. Qed.

Local Ltac next_stage c :=
  lazymatch goal with |- capabilities_ok (let x := ?e in @?b x) =>
    pose (c := e); change (capabilities_ok (b c)); cbv beta end.

Lemma announced_ok runtime persistent : capabilities_ok (service_capabilities runtime persistent).
Proof.
  cbv beta delta [service_capabilities]. next_stage kept.
  next_stage c1. next_stage c2. next_stage c3. next_stage c4.
  assert (ServiceCapability.CanonicalFraming ∈ c4 /\ ServiceCapability.RestartIsolation ∈ c4
    /\ ServiceCapability.OpaqueAuthorityRegistry ∈ c4 /\ ServiceCapability.BrowserIntegration ∉ c4) as Hc.
  { subst c1 c2 c3 c4. destruct persistent; set_solver. }
  clearbody c4. clear c1 c2 c3.
  next_stage c5. pose proof (drop_unless_drops _ _ _ : drops _ _ c4 c5) as [U5 S5 N5]. clearbody c5.
  next_stage c6. pose proof (drop_unless_drops _ _ _ : drops _ _ c5 c6) as [U6 S6 N6]. clearbody c6.
  next_stage c7. assert (drops (ServiceCapability.WalletOperations ∈ c6 /\ ServiceCapability.HnsReadOperationsV1 ∈ c6)
    {[ServiceCapability.HnsWalletAuthorityContextV1; ServiceCapability.HnsValueOperationsV1;
      ServiceCapability.ShakescapeShakedexV1]} c6 c7) as [U7 S7 N7].
  { subst c7. rewrite <- bool_decide_and. apply drop_unless_drops. }
  clearbody c7. match goal with |- capabilities_ok ?c => pose (c8 := c); change (capabilities_ok c8) end.
  pose proof (drop_unless_drops _ _ _ : drops _ _ c7 c8) as [U8 S8 N8]. clearbody c8. clear kept.
  set_unfold in S5. set_unfold in S6. set_unfold in S7. set_unfold in S8.
  set_unfold in N5. set_unfold in N6. set_unfold in N7. set_unfold in N8.
  assert (forall x, x ∈ c6 -> x <> ServiceCapability.HnsWalletAuthorityContextV1 ->
    x <> ServiceCapability.HnsValueOperationsV1 -> x <> ServiceCapability.ShakescapeShakedexV1 -> x ∈ c8) as K6.
  { intros x Hx ???. apply S8; [apply S7|]; tauto. }
  assert (forall x, x ∈ c4 -> x <> ServiceCapability.ValueMovement -> x <> ServiceCapability.HnsReadOperationsV1 ->
    x <> ServiceCapability.HnsWalletAuthorityContextV1 -> x <> ServiceCapability.HnsValueOperationsV1 ->
    x <> ServiceCapability.ShakescapeShakedexV1 -> x ∈ c8) as K4.
  { intros x Hx ?????. apply K6; try done. apply S6; [apply S5|]; tauto. }
  split.
  - destruct Hc as (? & ? & ? & _). split_and!; by apply K4.
  - intros Hx. apply K4; try done. apply (N5 ServiceCapability.ValueMovement); auto.
  - intros Hx. apply K4; try done. apply U5, (N6 ServiceCapability.HnsReadOperationsV1); auto.
  - intros Hx. destruct (N7 ServiceCapability.HnsWalletAuthorityContextV1); auto.
  - intros Hx. split; [apply K4; try done; apply (N5 ServiceCapability.HnsValueOperationsV1); auto|].
    destruct (N7 ServiceCapability.HnsValueOperationsV1); auto.
  - intros Hx. apply S8; [|done]. eapply N8; eauto.
  - intros Hx. apply Hc. auto.
Qed.

Section Histories.
Context `{env : ProviderEnv} `{SJ : !ServiceJson} {S R E : Type} `{store : !ProviderStateStore S}
  `{RT : !ServiceRuntime S R} `{OS : !OsRandom E} `{NE : NameEnv}.
Context `{JH : JsonCodec (HostFrame Value), JS : JsonCodec (ServiceFrame Value), JA : JsonCodec ApprovalPrompt,
          JE : JsonCodec ProviderEventEnvelope, JV : JsonCodec Value, JB : JsonCodec (ProviderBody Value)}.
Context (url_parse : string -> option ParsedUrl).
Abbreviation service := (WalletService S R E).
Implicit Types (w : service).

(** ** Histories *)

Record ServiceEntry := mkEntry {
  before : service;
  called : ServiceCall;
  returned : result bytes ServiceError.t;
  after : service;
}.

Definition entry_of w call : ServiceEntry :=
  mkEntry w call (service_step url_parse w call).2 (service_step url_parse w call).1.

(** A sequence of calls, from one state to another. *)
Inductive calls : service -> list ServiceEntry -> service -> Prop :=
| CallsNone w : calls w [] w
| CallsOne w hs w1 call : calls w hs w1 ->
    calls w (hs ++ [entry_of w1 call]) (after (entry_of w1 call)).

(** What happened to a service since it was made. *)
Definition history (hs : list ServiceEntry) w : Prop :=
  exists st rt persistent e e' w0, service_new st rt persistent e = (e', Ok w0) /\ calls w0 hs w.

Fixpoint replayed w (cs : list ServiceCall) : service :=
  match cs with [] => w | c :: cs => replayed (after (entry_of w c)) cs end.
Fixpoint trail_of w (cs : list ServiceCall) : list ServiceEntry :=
  match cs with [] => [] | c :: cs => entry_of w c :: trail_of (after (entry_of w c)) cs end.

Lemma calls_cons w c hs w' : calls (after (entry_of w c)) hs w' -> calls w (entry_of w c :: hs) w'.
Proof.
  remember (after (entry_of w c)) as w1 eqn:H1. intros H. revert H1.
  induction H as [w1|w1 hs w2 call _ IH]; intros ->.
  - apply (CallsOne w [] w c), CallsNone.
  - apply (CallsOne w (entry_of w c :: hs) w2 call). by apply IH.
Qed.

Lemma calls_replayed w cs : calls w (trail_of w cs) (replayed w cs).
Proof.
  revert w. induction cs as [|c cs IH]; intros w; [apply CallsNone|]. apply calls_cons, IH.
Qed.

Context (log : R -> list RuntimeCall) `{laws : !RuntimeLaws S R log} `{RC : !RequestCodec}.

Lemma entry_facts w call :
  step_facts log w call (returned (entry_of w call)) (after (entry_of w call)).
Proof. exact (service_step_facts url_parse log w call). Qed.

Lemma new_facts st rt persistent e e' w : service_new st rt persistent e = (e', Ok w) ->
  service_ok w /\ sv_pending w = ∅ /\ sv_session w = None
  /\ sv_capabilities w = service_capabilities (rt_capabilities rt) persistent.
Proof.
  unfold service_new. intros H. run_in H. split_and!; try done. split; split; simpl; try done; constructor.
Qed.

Lemma calls_ok w hs w' : calls w hs w' -> service_ok w -> service_ok w'.
Proof. induction 1 as [|w hs w1 call _ IH]; intros H; [done|]. apply entry_facts, IH, H. Qed.

Lemma calls_constant w hs w' : calls w hs w' -> sv_capabilities w' = sv_capabilities w.
Proof.
  induction 1 as [|w hs w1 call _ IH]; [done|]. rewrite <- IH. apply (entry_facts w1 call).
Qed.

(** Frames are numbered one per call. *)
Lemma calls_number w hs w' : calls w hs w' -> sent_number w' <= sent_number w + len hs.
Proof.
  induction 1 as [|w hs w1 call _ IH]; [unfold len; simpl; lia|].
  pose proof (sf_number _ _ _ _ _ (entry_facts w1 call)). unfold len in *. rewrite length_app. cbn [length]. lia.
Qed.

(** The call answered with this prompt; or the answer was this prompt, in a frame
    that has no encoding. *)
Definition prompted (entry : ServiceEntry) (prompt : ApprovalPrompt) : Prop :=
  prompts (before entry) (called entry) (returned entry) prompt
  \/ loses (before entry) (called entry) (returned entry) prompt.

(** What waits for a decision was prompted for since it was last settled. *)
Lemma waiting_prompted w hs w' id p ps :
  calls w hs w' -> sent_number w + len hs <= U64_MAX -> (forall p ps, ~ waiting w id p ps) ->
  waiting w' id p ps ->
  exists entry prompt, entry ∈ hs /\ prompted entry prompt /\ shows prompt p /\ id = ap_id p.
Proof.
  induction 1 as [|w hs w1 call H1 IH]; intros Hlen Hno Hw; [by destruct (Hno _ _ Hw)|].
  assert (sent_number w + len hs < U64_MAX) as Hlen'.
  { unfold len in *. rewrite length_app in Hlen. simpl in Hlen. lia. }
  destruct (sf_waiting _ _ _ _ _ (entry_facts w1 call) _ _ _ Hw) as [Hb|(prompt & Hs & -> & Hp)].
  - destruct IH as (entry & prompt & Hin & ?); [lia|done..|].
    exists entry, prompt. split; [|done]. apply elem_of_app. by left.
  - exists (entry_of w1 call), prompt. split; [apply elem_of_app; right; by constructor|].
    split_and!; try done. destruct Hp as [?|[?|Hmax]]; [by left|by right|]. apply calls_number in H1. lia.
Qed.

(** ** The invariant *)

(** C6: a service stays sound. After any calls since it was made, its prompts are
    at most 128, each filed under its identifier for the wallet session in force;
    where the provider core keeps an approval under the same identifier, the two
    agree on binding, kind and expiry; the window of request identifiers is a set
    in order of at most 4,096; and the announced capabilities are consistent. (Of
    the runtime it is assumed that preparing a prompt and reading the current names
    leave the permission generations alone.) *)
Theorem service_stays_sound hs w : history hs w ->
  service_ok w /\ capabilities_ok (sv_capabilities w).
Proof.
  intros (st & rt & persistent & e & e' & w0 & Hnew & Hcalls). apply new_facts in Hnew as (Hok & _ & _ & Hc).
  split; [by eapply calls_ok|]. rewrite (calls_constant _ _ _ Hcalls), Hc. apply announced_ok.
Qed.

(** ** Calls of the runtime *)

(** The runtime was asked, during a call of the service. *)
Definition requested (entry : ServiceEntry) (r : RuntimeCall) : Prop :=
  exists new, log (sv_runtime (after entry)) = log (sv_runtime (before entry)) ++ new /\ r ∈ new.

Lemma requested_effect w call r : requested (entry_of w call) r -> effect w call r.
Proof.
  intros (new & Hnew & Hr). destruct (sf_log _ _ _ _ _ (entry_facts w call)) as (new' & Hl & Hf).
  simpl in Hnew, Hl. rewrite Hnew in Hl. apply app_inv_head in Hl as <-.
  rewrite list.Forall_forall in Hf. auto.
Qed.

(** C16: the runtime acts only on admitted requests. Whatever state a service is
    in, every call of its runtime serves a request frame of the host that the
    runtime admits; a call without approval is for an available method that needs
    none, for an authority that is registered, live and permitted; a read of the
    account is covered by an unexpired permission record for the selected account,
    and a read of one name by that name; an approved call, and an account grant,
    answer a decision to approve, on a prompt that is filed for the same authority,
    revision, generation and wallet session; wallet operations need their
    capabilities. (Of the runtime it is assumed that preparing a prompt and reading
    the current names leave the permission generations alone.) *)
Theorem runtime_calls_admitted w call r : requested (entry_of w call) r ->
  exists encoded now envelope, call = Process encoded now
    /\ decode_host_frame encoded = Ok (Request envelope) /\ caused w (body envelope) now r.
Proof.
  intros H%requested_effect. destruct call as [encoded now| |]; simpl in H; try done.
  destruct H as (envelope & ? & ?). eauto 6.
Qed.

(** The decision behind an approved call. *)
Lemma approved_decided w call c id t : service_ok w -> requested (entry_of w call) (RcApproved c id t) ->
  exists encoded now envelope h rv p ps, call = Process encoded now
    /\ decode_host_frame encoded = Ok (Request envelope)
    /\ body envelope = DecideApproval h rv id ApprovalDecision.Approve /\ t = now / 1000
    /\ decided w h rv id now c p ps /\ corresponds ps p.
Proof.
  intros Hok H%requested_effect. destruct call as [encoded now| |]; simpl in H; try done.
  destruct H as (envelope & Hdec & _ & He). destruct (body envelope) eqn:Hb; simpl in He; try naive_solver.
  destruct He as (-> & -> & p & ps & Hd & ->). pose proof (so_prompts _ Hok) as [_ _ _ Hbound Hagree].
  pose proof (de_service _ _ _ _ _ _ _ _ Hd) as Hs. destruct (Hbound _ _ Hs) as [<- _].
  eexists _, _, envelope, _, _, p, ps. split_and!; try done. eapply Hagree; [done|]. apply Hd.
Qed.

(** C4: an approved call was prompted. When the runtime is told to execute an
    approved call, the host has just decided to approve its identifier, and an
    earlier call of this service answered a request, in its session and under its
    next number, with a prompt that shows the user this origin, this method and a
    summary of the kind this method needs; the prompt has not expired, and its
    authority, revision and wallet session are those of the decision and of the
    service now. That answer was returned to the host, unless that very frame had
    no encoding and the call returned the encoder's error. (Of the runtime it is
    assumed that preparing a prompt and reading the current names leave the
    permission generations alone, and that there were fewer than 2^64 - 1 calls.) *)
Theorem approved_calls_were_prompted hs w call c id t :
  history hs w -> len hs < U64_MAX -> requested (entry_of w call) (RcApproved c id t) ->
  exists encoded now envelope h rv entry prompt g, call = Process encoded now
    /\ decode_host_frame encoded = Ok (Request envelope)
    /\ body envelope = DecideApproval h rv id ApprovalDecision.Approve /\ t = now / 1000
    /\ entry ∈ hs /\ prompted entry prompt /\ Abi.approval_id prompt = id
    /\ ap_origin prompt = call_origin c /\ Method.parse (ap_method prompt) = Ok (call_method c)
    /\ Method.approval (call_method c) = Some (approval_kind (ap_summary prompt))
    /\ summary_validate (ap_summary prompt) = Ok tt
    /\ now / 1000 * 1000 < ap_expires_at_unix_ms prompt
    /\ ap_binding prompt = mkBinding h rv (sv_wallet_session_id w) g.
Proof.
  intros (st & rt & persistent & e & e' & w0 & Hnew & Hcalls) Hlen Hreq.
  apply new_facts in Hnew as (Hok0 & Hno & Hs0 & _). pose proof (calls_ok _ _ _ Hcalls Hok0) as Hok.
  destruct (approved_decided _ _ _ _ _ Hok Hreq) as (encoded & now & envelope & h & rv & p & ps & -> & Hdec & Hb & -> & Hd & Hco).
  pose proof Hd as [Hps Hp Hcall Hkind [_ Hlive] (a & g & _ & _ & _ & _ & _ & _ & _ & _ & _ & Hbind)].
  destruct (waiting_prompted w0 hs w id p ps) as (entry & prompt & Hin & Hpr & Hsh & ->); [done|..].
  { unfold sent_number. rewrite Hs0. lia. }
  { intros q qs [_ Hq]. by rewrite Hno in Hq. }
  { done. }
  exists encoded, now, envelope, h, rv, entry, prompt, g. destruct Hsh as [Sid Sb So Sm Sk [Ss _] Se], Hco as [Cid Cb Ck Ce].
  rewrite (pr_wallet _ (so_prompts _ Hok)) in Hbind. split_and!; try done; try congruence.
  rewrite Se. lia.
Qed.

Lemma approved_spends w call c id t : service_ok w -> requested (entry_of w call) (RcApproved c id t) ->
  pending (sv_provider (after (entry_of w call))) !! id = None.
Proof.
  intros Hok Hreq. destruct (approved_decided _ _ _ _ _ Hok Hreq)
    as (encoded & now & envelope & h & rv & p & ps & -> & Hdec & Hb & -> & _).
  destruct Hreq as (new & Hnew & Hin). simpl in Hnew |- *. revert Hnew.
  destruct (process_dispatched url_parse w encoded now envelope Hdec) as [->|(w2 & Hr & -> & ->)].
  { intros Hnew. assert (new = []) as -> by (by apply (app_inv_head (log (sv_runtime w))); rewrite app_nil_r).
    by apply elem_of_nil in Hin. }
  rewrite Hb. unfold dispatch. rewrite <- Hr. destruct (rt_admit_service_request _ _ _); simpl; intros Hnew.
  - destruct (approval_decision_spends log w2 h rv id ApprovalDecision.Approve now) as [(new' & Hl & Hf)|?]; [|done].
    rewrite Hnew in Hl. apply app_inv_head in Hl as <-. rewrite list.Forall_forall in Hf. by specialize (Hf _ Hin).
  - assert (new = []) as -> by (by apply (app_inv_head (log (sv_runtime w2))); rewrite app_nil_r).
    by apply elem_of_nil in Hin.
Qed.

(** C17: a prompt approves once. Between two approved calls under one identifier
    the service has answered a request, in its session and under its next number,
    with a new prompt for that identifier; that answer was returned to the host,
    unless that very frame had no encoding and the call returned the encoder's
    error. (Of the runtime it is assumed that preparing a prompt and reading the
    current names leave the permission generations alone, and that there were fewer
    than 2^64 - 1 calls.) *)
Theorem prompt_approves_once hs w call c id t hs' w' call' c' t' :
  history hs w -> requested (entry_of w call) (RcApproved c id t) ->
  calls (after (entry_of w call)) hs' w' -> requested (entry_of w' call') (RcApproved c' id t') ->
  len hs + len hs' + 1 < U64_MAX ->
  exists entry prompt, entry ∈ hs' /\ prompted entry prompt /\ Abi.approval_id prompt = id.
Proof.
  intros (st & rt & persistent & e & e' & w0 & Hnew & Hcalls) Hreq Hcalls' Hreq' Hlen.
  apply new_facts in Hnew as (Hok0 & _ & Hs0 & _). pose proof (calls_ok _ _ _ Hcalls Hok0) as Hok.
  pose proof (CallsOne _ _ _ call Hcalls) as Hcalls1. pose proof (calls_ok _ _ _ Hcalls1 Hok0) as Hok1.
  pose proof (calls_ok _ _ _ Hcalls' Hok1) as Hok'.
  destruct (approved_decided _ _ _ _ _ Hok' Hreq') as (encoded & now & envelope & h & rv & p & ps & -> & _ & _ & _ & Hd & _).
  apply approved_spends in Hreq; [|done]. apply calls_number in Hcalls1.
  destruct (waiting_prompted _ _ _ id p ps Hcalls') as (entry & prompt & Hin & Hpr & Hsh & ->).
  - revert Hcalls1. unfold sent_number at 2. rewrite Hs0. unfold len in *. rewrite length_app. simpl length. lia.
  - intros q qs [Hq _]. by rewrite Hreq in Hq.
  - split; apply Hd.
  - exists entry, prompt. split_and!; try done. apply Hsh.
Qed.

(** ** Methods on offer *)

(** The methods a service lists are those it admits: with dispatch, a method
    is listed exactly when a request for it passes the availability tests and,
    for permission requests, some permission could be granted.*)
Theorem advertised_methods_admitted w m :
  ServiceCapability.ProviderDispatch ∈ sv_capabilities w ->
  Method.wire_name m ∈ supported_provider_method_names w <->
  method_available w m = Ok tt
  /\ (m = Method.WalletRequestPermissions -> grantable_permission_capabilities w <> ∅).
Proof.
  intros Hc. transitivity (supported_provider_method w m = true).
  - unfold supported_provider_method_names, supported_provider_methods, has_service_capability.
    rewrite bool_decide_eq_true_2 by done. cbn [negb]. rewrite elem_of_list_to_set, list_elem_of_fmap. split.
    + by intros (m' & ->%wire_name_inj & [_ ?]%list_elem_of_In%List.filter_In).
    + intros Hs. exists m. split; [done|]. apply list_elem_of_In, List.filter_In. split; [|done].
      apply list_elem_of_In, (bool_decide_unpack _). destruct m; vm_compute; exact I.
  - unfold supported_provider_method, method_available, set_is_empty.
    generalize (grantable_permission_capabilities w) as granted. intros granted.
    generalize (has_service_capability w ServiceCapability.WalletOperations) as wallet.
    generalize (has_service_capability w ServiceCapability.ValueMovement) as value.
    generalize (rt_supports_provider_method (sv_runtime w)) as supports. intros supports value wallet.
    destruct m; simpl; try (destruct (supports _)); try destruct value; try destruct wallet; simpl;
      try (case_bool_decide; simpl); intuition congruence.
Qed.

End Histories.

(** ** Every runtime can keep a log *)

Section Logging.
Context `{env : ProviderEnv} {S R : Type} `{store : !ProviderStateStore S} `{RT : !ServiceRuntime S R}.
Context (keep_prepare : forall a, keeps_generations (S := S) (R := R) (rt_prepare_approval a))
        (keep_names : keeps_generations (S := S) (R := R) rt_current_hns_names).

Definition note {A} (f : R -> S -> R * S * A) (entry : RuntimeCall) (r : R * list RuntimeCall) (st : S) :
    (R * list RuntimeCall) * S * A :=
  let '(r', st, a) := f r.1 st in ((r', r.2 ++ [entry]), st, a).

Definition logging : ServiceRuntime S (R * list RuntimeCall) := {|
  rt_capabilities r := rt_capabilities r.1;
  rt_admit_service_request r := rt_admit_service_request r.1;
  rt_supports_provider_method r := rt_supports_provider_method r.1;
  rt_prepare_approval a := note (rt_prepare_approval a) (RcPrepareApproval a);
  rt_prepare_hns_account_grant c := note (rt_prepare_hns_account_grant c) (RcAccountGrant c);
  rt_selected_hns_account r := rt_selected_hns_account r.1;
  rt_current_hns_names := note rt_current_hns_names RcCurrentNames;
  rt_execute_hns_name_read c names := note (rt_execute_hns_name_read c names) (RcNameRead c names);
  rt_execute_provider c := note (rt_execute_provider c) (RcProvider c);
  rt_execute_approved_provider c id t := note (rt_execute_approved_provider c id t) (RcApproved c id t);
  rt_lock_wallet := note rt_lock_wallet RcLock;
  rt_execute_wallet q := note (rt_execute_wallet q) (RcWallet q);
  rt_execute_wallet_authority_context q := note (rt_execute_wallet_authority_context q) (RcAuthority q);
|}.

Lemma note_logs {A} (f : R -> S -> R * S * A) entry : logs snd (note f entry) entry.
Proof. intros r st. left. unfold note. by destruct (f r.1 st) as [[]]. Qed.

Lemma note_keeps {A} (f : R -> S -> R * S * A) entry : keeps_generations f -> keeps_generations (note f entry).
Proof. intros H r st scope. specialize (H r.1 st scope). unfold note. by destruct (f r.1 st) as [[]]. Qed.

Lemma logging_laws : @RuntimeLaws env S (R * list RuntimeCall) store logging snd.
Proof. split; intros; try apply note_logs; apply note_keeps; auto. Qed.
End Logging.

(** ** A service in use *)

Module ToyService.
(** A request is its method name; its parameters name the Bitcoin module. *)
Definition toy_provider : ProviderEnv := {|
  Value := unit;
  value_get_str _ _ := Some "bitcoin"%string;
  decode_request input := Some (String.string_of_list_byte input, tt);
  sha256 input := take 32 (input ++ repeat x00 32);
|}.
#[global] Existing Instance toy_provider | 90.
Definition toy_values : ServiceJson := {|
  value_is_null _ := false;
  value_as_object _ := Some {["module"%string := tt]};
  value_as_str _ := None;
  value_to_capabilities _ := None;
  value_to_module _ := Some Bitcoin;
  document _ := tt;
|}.
#[global] Existing Instance toy_values | 90.
Definition toy_random : OsRandom N := {|
  os_fill n size := (n + 1, Ok (to_be_bytes size (n + 1)));
  os_patience _ := 2%nat;
|}.
#[global] Existing Instance toy_random | 90.
Definition toy_names : NameEnv := {| validate_name _ := true; hash_name _ := None |}.
#[global] Existing Instance toy_names | 90.

(** A runtime that does as it is told. *)
Definition account : AccountSummary := mkAccount [x05] Handshake "main" None.
Definition toy_runtime : ServiceRuntime MemoryProviderState unit := {|
  rt_capabilities _ := {[ServiceCapability.ProviderDispatch; ServiceCapability.WalletOperations]};
  rt_admit_service_request _ _ _ := Ok tt;
  rt_supports_provider_method _ _ := true;
  rt_prepare_approval _ r st := (r, st, Err (invalid_request "no summary"));
  rt_prepare_hns_account_grant _ r st := (r, st, Ok account);
  rt_selected_hns_account _ _ := Ok account;
  rt_current_hns_names r st := (r, st, Ok []);
  rt_execute_hns_name_read _ _ r st := (r, st, Ok tt);
  rt_execute_provider _ r st := (r, st, Ok tt);
  rt_execute_approved_provider _ _ _ r st := (r, st, Ok tt);
  rt_lock_wallet r st := (r, st, Ok tt);
  rt_execute_wallet _ r st := (r, st, Ok WalletResponse.Unlocked);
  rt_execute_wallet_authority_context _ r st := (r, st, Err (invalid_request "no context"));
|}.
Definition toy_logging : ServiceRuntime MemoryProviderState (unit * list RuntimeCall) :=
  logging (RT := toy_runtime).
#[global] Existing Instance toy_logging | 90.
#[global] Instance toy_laws : RuntimeLaws MemoryProviderState (unit * list RuntimeCall) snd.
Proof. by apply logging_laws. Qed.

(** The frames of the host, by number. *)
Definition sid : bytes := to_be_bytes 32 77.
Definition handle : bytes := to_be_bytes 32 5.
Definition service_id : bytes := to_be_bytes 32 1.
Definition wallet_id : bytes := to_be_bytes 32 3.
Definition site : HostAuthorityFacts :=
  mkFacts "https://a.example" NamespaceHns [x01] 1 1 1 [x01] 9000000.
Definition asked : bytes :=
  Provider.approval_id handle 1 wallet_id 9 Method.WalletEnableModule NsHns "https://a.example".
Definition request (n : N) (r : ServiceRequest unit) : HostFrame unit :=
  Request (mkEnvelope 2 sid service_id 1 n (to_be_bytes 16 n) r).
Definition script : list (HostFrame unit) :=
  [HostHelloFrame (mkHostHello 2 Android sid 1);
   request 1 (Wallet (WalletRequest.Unlock "secret"));
   request 2 (RegisterAuthority handle site);
   request 3 (ProviderRequest handle 1 9 "wallet_enableModule" tt);
   request 4 (DecideApproval handle 1 asked ApprovalDecision.Approve);
   request 5 (ProviderRequest handle 1 10 "wallet_enableModule" tt);
   request 6 (DecideApproval handle 1 asked ApprovalDecision.Approve)].
Definition host_json : JsonCodec (HostFrame unit) := {|
  json_to_vec _ := None;
  json_from_slice b := match b with [n] => script !! N.to_nat (Byte.to_N n) | _ => None end;
|}.
Definition body_json : JsonCodec (ProviderBody unit) := {|
  json_to_vec b := Some (str_bytes (body_method _ b)); json_from_slice _ := None |}.
Definition short_json (T : Type) : JsonCodec T := {| json_to_vec _ := Some [x7b]; json_from_slice _ := None |}.
#[global] Existing Instance host_json | 90.
#[global] Existing Instance body_json | 90.
#[global] Existing Instance short_json | 900.
#[global] Instance toy_codec : RequestCodec.
Proof.
  intros name [] b [= <-]. simpl. unfold str_bytes. by rewrite String.string_of_list_byte_of_string.
Qed.

Definition url (s : string) : option ParsedUrl := Some {|
  url_username := ""; url_password := None; url_query := None; url_fragment := None; url_path := "/";
  url_host := Some (Domain "a.example"); url_scheme := "https"; url_port_or_known_default := Some 443;
  url_host_str := Some "a.example"%string |}.
Abbreviation service := (WalletService MemoryProviderState (unit * list RuntimeCall) N).
Definition made : service :=
  match (service_new memory_default (tt, []) true 0).2 with
  | Ok w => w
  | Err _ => mkService (core_new memory_default [] true) (tt, []) 0 [] [] ∅ None ∅ [] ∅ ∅
  end.
Definition frame (n : N) : ServiceCall :=
  Process (to_be_bytes 4 1 ++ [default x00 (Byte.of_N n)]) (1000000 + n).
Definition frames (from to : nat) : list ServiceCall := (fun n => frame (N.of_nat n)) <$> seq from (to - from).
Definition at_call (n : nat) : service := replayed url made (frames 0 n).
Definition trail (n : nat) : list ServiceEntry := trail_of url made (frames 0 n).
Definition enabled (nonce : N) : ApprovedCall :=
  {| call_origin := "https://a.example"; call_namespace := NsHns; call_method := Method.WalletEnableModule;
     call_params := tt; call_request_nonce := nonce |}.

Lemma made_new : service_new memory_default (tt, []) true 0 = (2, Ok made).
Proof. vm_cast_no_check (eq_refl (2, Ok made : result service ServiceError.t)). Qed.
Lemma made_history n : history url (trail n) (at_call n).
Proof.
  exists memory_default, (tt, []), true, 0, 2, made.
  exact (conj made_new (calls_replayed url made (frames 0 n))).
Qed.
(** After the first approval the same identifier is asked for again. *)
Abbreviation decided_once := (after (entry_of url (at_call 4) (frame 4))).
Abbreviation asked_again := (replayed url decided_once (frames 5 6)).
Lemma enabled_once : requested snd (entry_of url (at_call 4) (frame 4)) (RcApproved (enabled 9) asked 1000).
Proof. exists [RcApproved (enabled 9) asked 1000]. split; [vm_compute; reflexivity|by constructor]. Qed.
Lemma enabled_again : requested snd (entry_of url asked_again (frame 6)) (RcApproved (enabled 10) asked 1000).
Proof. exists [RcApproved (enabled 10) asked 1000]. split; [vm_compute; reflexivity|by constructor]. Qed.
End ToyService.
Import ToyService.

Lemma service_stays_sound_witness :
  count (sv_pending (at_call 4)) = 1 /\ service_ok (at_call 4) /\ capabilities_ok (sv_capabilities (at_call 4)).
Proof.
  split; [vm_compute; reflexivity|].
  pose proof (service_stays_sound url snd (trail 4) (at_call 4) (made_history 4)) as H. exact H.
Defined.

Lemma runtime_calls_admitted_witness :
  exists encoded now envelope, frame 4 = Process encoded now
    /\ decode_host_frame encoded = Ok (Request envelope)
    /\ caused (at_call 4) (body envelope) now (RcApproved (enabled 9) asked 1000).
Proof.
  pose proof (runtime_calls_admitted url snd (at_call 4) (frame 4) _ enabled_once) as H. exact H.
Defined.

Lemma approved_calls_were_prompted_witness :
  exists entry prompt, entry ∈ trail 4 /\ prompted entry prompt
    /\ Abi.approval_id prompt = asked /\ ap_origin prompt = "https://a.example"%string.
Proof.
  assert (len (trail 4) < U64_MAX) as Hlen by (vm_compute; reflexivity).
  pose proof (approved_calls_were_prompted url snd (trail 4) (at_call 4) (frame 4) _ _ _ (made_history 4) Hlen
    enabled_once) as (_ & _ & _ & _ & _ & entry & prompt & _ & _ & _ & _ & _ & Hin & Hp & Hid & Ho & _).
  exists entry, prompt. exact (conj Hin (conj Hp (conj Hid Ho))).
Defined.

Lemma prompt_approves_once_witness :
  exists entry prompt, entry ∈ trail_of url decided_once (frames 5 6) /\ prompted entry prompt
    /\ Abi.approval_id prompt = asked.
Proof.
  assert (len (trail 4) + len (trail_of url decided_once (frames 5 6)) + 1 < U64_MAX) as Hlen
    by (vm_compute; reflexivity).
  pose proof (calls_replayed url decided_once (frames 5 6)) as Hc.
  pose proof (prompt_approves_once url snd (trail 4) (at_call 4) (frame 4) _ _ _ _ asked_again (frame 6) _ _
    (made_history 4) enabled_once Hc enabled_again Hlen) as H. exact H.
Defined.

Lemma advertised_methods_admitted_witness :
  Method.wire_name Method.WalletEnableModule ∈ supported_provider_method_names made.
Proof.
  assert (bool_decide (ServiceCapability.ProviderDispatch ∈ sv_capabilities made) = true) as Hc
    by (vm_compute; reflexivity).
  assert (method_available made Method.WalletEnableModule = Ok tt) as Hm by (vm_compute; reflexivity).
  pose proof (proj2 (advertised_methods_admitted made Method.WalletEnableModule (bool_decide_eq_true_1 _ Hc))) as H.
  assert (Method.WalletEnableModule <> Method.WalletRequestPermissions) as Hne by discriminate.
  exact (H (conj Hm (fun e => False_ind _ (Hne e)))).
Defined.
