(* ===== verification/Mobile.v ===== *)
(** * The mobile wallet's session

    A mobile controller keeps the host and the service in one process and passes
    each frame from one to the other and back. [MobileControllerSession] of
    [crates/hns-wallet-mobile/src/lib.rs], over any service runtime, and the
    lifecycle methods of the controllers on top of it. *)

From S2P Require Import Prelude Types Provider Abi Host Service.

Module MobileWalletError.
Inductive t :=
| UnexpectedResponse
| ControllerFailed
| ServiceFailure (code : ServiceErrorCode.t) (message : string)
| Host (e : HostError.t)
| Clock (e : ClockError)
| Service (e : ServiceError.t)
| Abi (e : AbiError.t).
End MobileWalletError.

(** [SharedWalletStore::lock]: the key is dropped. The session's handle on the
    store and the service's are the same store. *)
Class StoreLock (S : Type) := store_lock : S -> S.

Record MobileControllerSession `{ProviderEnv} (S R C EH ES : Type) := mkMobile {
  ms_host : WalletHost C EH;
  ms_service : WalletService S R ES;
  ms_clock : C;
  ms_failed : bool;
}.
Arguments mkMobile {_ S R C EH ES}.
Arguments ms_host {_ S R C EH ES}.
Arguments ms_service {_ S R C EH ES}.
Arguments ms_clock {_ S R C EH ES}.
Arguments ms_failed {_ S R C EH ES}.

Section Mobile.
Context `{env : ProviderEnv} `{SJ : !ServiceJson} {S R C EH ES : Type} `{store : !ProviderStateStore S}
  `{SL : !StoreLock S} `{RT : !ServiceRuntime S R} `{OS : !OsRandom ES} `{CL : !Clock C} `{EN : !Entropy EH}
  `{NE : NameEnv}.
Context `{JH : JsonCodec (HostFrame Value), JS : JsonCodec (ServiceFrame Value), JA : JsonCodec ApprovalPrompt,
          JE : JsonCodec ProviderEventEnvelope, JV : JsonCodec Value, JB : JsonCodec (ProviderBody Value)}.
Context (url_parse : string -> option ParsedUrl).
Abbreviation mobile := (MobileControllerSession S R C EH ES).
Abbreviation fallible A := (result A MobileWalletError.t).
Implicit Types m : mobile.

Definition set_host m (h : WalletHost C EH) : mobile := mkMobile h (ms_service m) (ms_clock m) (ms_failed m).
Definition set_service m (w : WalletService S R ES) : mobile :=
  mkMobile (ms_host m) w (ms_clock m) (ms_failed m).
Definition set_clock m (c : C) : mobile := mkMobile (ms_host m) (ms_service m) c (ms_failed m).
Definition set_failed m : mobile := mkMobile (ms_host m) (ms_service m) (ms_clock m) true.

Definition mobile_new (host : WalletHost C EH) (service : WalletService S R ES) (clock : C) : mobile :=
  mkMobile host service clock false.

(** [self.store.lock()]. *)
Definition lock_store m : mobile :=
  let w := ms_service m in
  set_service m (set_provider w (set_state (sv_provider w) (store_lock (state (sv_provider w))))).

Definition exchange_inner m (frame : HostFrame Value) : mobile * fallible (HostOutput.t Value) :=
  let! m, encoded := (m, map_err MobileWalletError.Abi (encode_host_frame frame)) in
  let '(clock, reading) := now_unix_ms (ms_clock m) in
  let m := set_clock m clock in
  let! m, now := (m, map_err MobileWalletError.Clock reading) in
  let '(w, response) := process_frame url_parse (ms_service m) encoded now in
  let m := set_service m w in
  let! m, response := (m, map_err MobileWalletError.Service response) in
  let! m, response := (m, map_err MobileWalletError.Abi (decode_service_frame response)) in
  let '(h, output) := accept_service_frame (ms_host m) response in
  (set_host m h, map_err MobileWalletError.Host output).

Definition exchange m (frame : HostFrame Value) : mobile * fallible (HostOutput.t Value) :=
  let '(m, result) := exchange_inner m frame in
  (if is_ok result then m else lock_store (set_failed m), result).

(** The two negotiations differ in the capabilities they ask for. *)
Definition negotiate_with (wanted : gset ServiceCapability.t -> bool) m : mobile * fallible unit :=
  let! m, hello := (m, map_err MobileWalletError.Host (hello_frame (ms_host m))) in
  let! m, output := exchange m hello in
  match output with
  | HostOutput.Negotiated session =>
      if wanted (ns_capabilities session) then (m, Ok tt) else (m, Err MobileWalletError.UnexpectedResponse)
  | _ => (m, Err MobileWalletError.UnexpectedResponse)
  end.

Definition negotiate_non_value : mobile -> mobile * fallible unit :=
  negotiate_with (fun c => negb (bool_decide (ServiceCapability.ValueMovement ∈ c))
                           && negb (bool_decide (ServiceCapability.BrowserIntegration ∈ c))).

Definition negotiate_value (require_shakedex : bool) : mobile -> mobile * fallible unit :=
  negotiate_with (fun c =>
    bool_decide (ServiceCapability.WalletOperations ∈ c)
    && bool_decide (ServiceCapability.HnsReadOperationsV1 ∈ c)
    && bool_decide (ServiceCapability.HnsValueOperationsV1 ∈ c)
    && bool_decide (ServiceCapability.ProviderDispatch ∈ c)
    && bool_decide (ServiceCapability.ValueMovement ∈ c)
    && (negb require_shakedex || bool_decide (ServiceCapability.ShakescapeShakedexV1 ∈ c))
    && negb (bool_decide (ServiceCapability.BrowserIntegration ∈ c))).

Definition mobile_service_failure (failure : ServiceFailure) : MobileWalletError.t :=
  MobileWalletError.ServiceFailure (code failure) (message failure).

Definition wallet_request_inner m (request : WalletRequest.t) : mobile * fallible WalletResponse.t :=
  if ms_failed m then (m, Err MobileWalletError.ControllerFailed) else
  let '(h, frame) := wallet_request (ms_host m) request in
  let m := set_host m h in
  let! m, frame := (m, map_err MobileWalletError.Host frame) in
  let! m, output := exchange m frame in
  match output with
  | HostOutput.Response accepted =>
      match ar_response accepted with
      | WalletResult response => (m, Ok response)
      | Failure failure => (m, Err (mobile_service_failure failure))
      | _ => (m, Err MobileWalletError.UnexpectedResponse)
      end
  | _ => (m, Err MobileWalletError.UnexpectedResponse)
  end.

Definition lock_after_request_error m : mobile :=
  if ms_failed m then lock_store m else
  match wallet_request_inner m WalletRequest.Lock with
  | (m, Ok WalletResponse.Locked) => m
  | (m, _) => lock_store (set_failed m)
  end.

Definition mobile_wallet_request m (request : WalletRequest.t) : mobile * fallible WalletResponse.t :=
  let '(m, result) := wallet_request_inner m request in
  (if is_ok result then m else lock_after_request_error m, result).

(** *** The lifecycle of a controller *)

Definition mobile_status m : mobile * fallible WalletRuntimeStatus :=
  let! m, response := mobile_wallet_request m WalletRequest.Status in
  match response with
  | WalletResponse.Status status => (m, Ok status)
  | _ => (m, Err MobileWalletError.UnexpectedResponse)
  end.

Definition mobile_lock m : mobile * fallible unit :=
  let! m, response := mobile_wallet_request m WalletRequest.Lock in
  match response with
  | WalletResponse.Locked => (m, Ok tt)
  | _ => (m, Err MobileWalletError.UnexpectedResponse)
  end.

Definition mobile_unlock m (passphrase : string) : mobile * fallible unit :=
  let! m, _ := mobile_lock m in
  let! m, response := mobile_wallet_request m (WalletRequest.Unlock passphrase) in
  match response with
  | WalletResponse.Unlocked => (m, Ok tt)
  | _ => (m, Err MobileWalletError.UnexpectedResponse)
  end.

Definition mobile_accounts m : mobile * fallible (list AccountSummary) :=
  let! m, response := mobile_wallet_request m WalletRequest.ListAccounts in
  match response with
  | WalletResponse.Accounts accounts => (m, Ok accounts)
  | _ => (m, Err MobileWalletError.UnexpectedResponse)
  end.
End Mobile.
