(* ===== verification/MobileTheorems.v ===== *)
(** * Properties of the mobile wallet's session

    The host and the service of one process stay in step: each accepts the header
    of every frame the other sends. What goes wrong locks the wallet. *)

From Stdlib Require Import Strings.Byte.
From stdpp Require Import finite.
From S2P Require Import Prelude Types Provider ProviderProofs Abi AbiTheorems Host HostProofs Service ServiceProofs ServiceRuns ServiceTheorems Mobile.

Section Session.
Context `{env : ProviderEnv} `{SJ : !ServiceJson} {S R C EH ES : Type} `{store : !ProviderStateStore S}
  `{SL : !StoreLock S} `{RT : !ServiceRuntime S R} `{OS : !OsRandom ES} `{CL : !Clock C} `{EN : !Entropy EH}
  `{NE : NameEnv}.
Context `{JH : JsonCodec (HostFrame Value), JS : JsonCodec (ServiceFrame Value), JA : JsonCodec ApprovalPrompt,
          JE : JsonCodec ProviderEventEnvelope, JV : JsonCodec Value, JB : JsonCodec (ProviderBody Value)}.
Context (url_parse : string -> option ParsedUrl).
Abbreviation mobile := (MobileControllerSession S R C EH ES).
Abbreviation host := (WalletHost C EH).
Abbreviation service := (WalletService S R ES).
Implicit Types (m : mobile) (h : host) (w : service).

(** ** In step *)

(** A negotiated session on both sides, with the same counters and the same window
    of request identifiers, and no request on its way. *)
Record in_step h w : Prop := {
  st_sessions : exists s t, wh_channel h = ChannelState.Ready s /\ sv_session w = Some t
    /\ se_host_session_id t = wh_host_session_id h
    /\ ss_service_session_id s = sv_service_session_id w
    /\ se_restart_generation t = wh_restart_generation h
    /\ se_next_host_sequence t = next_host_sequence s
    /\ se_next_service_sequence t = Host.next_service_sequence s;
  st_window : sv_request_order w = wh_request_id_order h;
  st_recent : list_to_set (wh_request_id_order h) ⊆ wh_recent_request_ids h;
  st_settled : wh_pending h = ∅ /\ wh_aged_out_request_ids h = ∅;
  st_channel : channel_ok w;
}.

(** *** The host's request *)

Definition window (order : list bytes) (id : bytes) : list bytes :=
  let all := order ++ [id] in if MAX_SEEN_REQUEST_IDS <? len all then tail all else all.

Definition envelope_of h s id (q : WalletRequest.t) : SessionEnvelope (ServiceRequest Value) :=
  mkEnvelope WALLET_ABI_VERSION (wh_host_session_id h) (ss_service_session_id s)
    (wh_restart_generation h) (next_host_sequence s) id (Wallet q).
Definition request_of h s id (q : WalletRequest.t) : HostFrame Value := Request (envelope_of h s id q).

(** Remembering an identifier while nothing else is pending. *)
Lemma remember_window h id class :
  wh_pending h = ∅ -> wh_aged_out_request_ids h = ∅ -> NoDup (wh_request_id_order h) ->
  id ∉ wh_request_id_order h -> list_to_set (wh_request_id_order h) ⊆ wh_recent_request_ids h ->
  let h' := remember_request_id (Host.set_pending h (<[id := class]> (wh_pending h))) id in
  wh_request_id_order h' = window (wh_request_id_order h) id
  /\ list_to_set (wh_request_id_order h') ⊆ wh_recent_request_ids h'
  /\ wh_aged_out_request_ids h' = ∅ /\ wh_pending h' = (<[id := class]> ∅)
  /\ wh_host_session_id h' = wh_host_session_id h /\ wh_restart_generation h' = wh_restart_generation h.
Proof.
  intros Hp Ha Hn Hid Hr h'. subst h'. unfold remember_request_id, window. cbn.
  change MAX_RECENT_REQUEST_IDS with MAX_SEEN_REQUEST_IDS.
  destruct (MAX_SEEN_REQUEST_IDS <? len (wh_request_id_order h ++ [id])) eqn:Hfull; cbn.
  2:{ rewrite Hp. split_and!; try done. rewrite list_to_set_app_L. set_solver. }
  destruct (wh_request_id_order h) as [|expired order] eqn:Ho; [done|]. cbn.
  apply list.NoDup_cons in Hn as [Hx Hn]. rewrite Hp, lookup_insert_ne, lookup_empty by set_solver. cbn.
  split_and!; try done. rewrite list_to_set_app_L. set_solver.
Qed.

Lemma remember_names h id : let h' := remember_request_id h id in
  wh_host_session_id h' = wh_host_session_id h /\ wh_restart_generation h' = wh_restart_generation h
  /\ wh_platform h' = wh_platform h.
Proof. unfold remember_request_id. repeat (case_match; try done). Qed.

Lemma wallet_request_asked h q h' frame : wallet_request h q = (h', Ok frame) ->
  exists s id e, frame = request_of h s id q /\ wh_channel h = ChannelState.Ready s
    /\ (id ∉ wh_recent_request_ids h) /\ next_host_sequence s + 1 <= U64_MAX
    /\ h' = set_channel (remember_request_id (Host.set_pending (Host.set_entropy h e)
               (<[id := RequestClass.Wallet (wallet_class_for_request q)]> (wh_pending h))) id)
             (ChannelState.Ready (mkSession (ss_service_session_id s) (ss_capabilities s)
                (next_host_sequence s + 1) (Host.next_service_sequence s))).
Proof.
  unfold wallet_request, enqueue, random_request_id. intros H.
  destruct (require_capability h _); [|done]. cbv beta iota zeta in H. destruct (_ <=? _); [done|].
  destruct (random_fresh _ _ _ _ _) as [e [id|]] eqn:Hr; cbv beta iota zeta in H; [|done].
  apply random_fresh_spec in Hr as [Hf _]. bool_prop.
  change (wh_channel (Host.set_entropy h e)) with (wh_channel h) in H.
  destruct (wh_channel h) as [|s|] eqn:Hch; try done.
  destruct (u64_add (next_host_sequence s) 1) as [next|] eqn:Hn; cbv beta iota zeta delta [ok_or] in H; [|done].
  apply checked_add_Some in Hn as [-> Hn]. injection H as <- <-. exists s, id, e. split_and!; try done.
  unfold request_of, envelope_of. cbn [queued_frame Host.set_channel wh_host_session_id wh_restart_generation].
  match goal with |- context [remember_request_id ?x id] => destruct (remember_names x id) as (Hh & Hg & _) end.
  simpl in Hh, Hg |- *. by rewrite Hh, Hg.
Qed.

(** *** The service's answer *)

Lemma accept_in_step {T} w t (envelope : SessionEnvelope T) :
  sv_session w = Some t -> host_session_id envelope = se_host_session_id t ->
  service_session_id envelope = sv_service_session_id w ->
  restart_generation envelope = se_restart_generation t ->
  channel_sequence envelope = se_next_host_sequence t -> se_next_host_sequence t + 1 <= U64_MAX ->
  request_id envelope ∉ sv_seen_request_ids w ->
  exists w1, accept_request_header w envelope = (w1, Ok tt) /\ accepted w envelope w1 t.
Proof.
  intros Hs Hh Hv Hg Hn Hmax Hf.
  assert (exists w1, accept_request_header w envelope = (w1, Ok tt)) as [w1 H1].
  { unfold accept_request_header. rewrite Hs, Hh, Hv, Hg, Hn, !N.eqb_refl, !bool_decide_eq_true_2 by done.
    rewrite bool_decide_eq_false_2 by done. cbn [negb orb].
    assert (u64_add (se_next_host_sequence t) 1 = Some (se_next_host_sequence t + 1)) as ->
      by by apply checked_add_Some. eauto. }
  exists w1. split; [done|]. apply accept_header in H1 as [t' H1].
  pose proof (ac_session _ _ _ _ H1) as Ht. rewrite Hs in Ht. by simplify_eq.
Qed.

(** What a wallet request leaves alone. *)
Lemma rotate_channel w locked : let w' := (rotate_wallet_session w locked).1 in
  sv_session w' = sv_session w /\ sv_request_order w' = sv_request_order w
  /\ sv_seen_request_ids w' = sv_seen_request_ids w
  /\ sv_service_session_id w' = sv_service_session_id w.
Proof. unfold rotate_wallet_session. by destruct (random_session _) as [e [id|]]. Qed.

Lemma wallet_dispatch_channel w q now : let w' := (dispatch url_parse w (Wallet q) now).1 in
  sv_session w' = sv_session w /\ sv_request_order w' = sv_request_order w
  /\ sv_seen_request_ids w' = sv_seen_request_ids w
  /\ sv_service_session_id w' = sv_service_session_id w.
Proof.
  unfold dispatch. destruct (rt_admit_service_request _ _ _); [|done]. cbn beta iota.
  unfold wallet_operation. destruct (negb _); [done|]. unfold on_runtime.
  destruct (rt_execute_wallet q _ _) as [[r st] [response|]]; [|done].
  set (w1 := set_runtime _ _). pose proof (rotate_channel w1 false) as H1. pose proof (rotate_channel w1 true) as H2.
  destruct response; simpl; try done.
  all: match goal with |- context [rotate_wallet_session ?x ?b] =>
         destruct (rotate_wallet_session x b) as [w2 [[]|]] end; simpl in *; try done.
  all: destruct (rt_lock_wallet (sv_runtime w2) (state (sv_provider w2))) as [[r2 st2] []]; exact H1.
Qed.

(** The service [w] accepted the request's header and dispatched it, once: [w3] and
    the answer are what that dispatch left. *)
Definition carried w (envelope : SessionEnvelope (ServiceRequest Value)) now (t : Service.SessionState)
    w3 (answer : fails (ServiceResponse Value)) : Prop :=
  exists w1, accepted w envelope w1 t
    /\ dispatch url_parse (prune_pending w1 (now / 1000)) (body envelope) now = (w3, answer).

(** The service after its answer got a number, and the answer's frame. *)
Definition numbered (t : Service.SessionState) w3 : service :=
  set_session w3 (Some (mkServiceSession (se_host_session_id t) (se_restart_generation t)
    (se_next_host_sequence t + 1) (se_next_service_sequence t + 1))).
Definition answer_frame w (t : Service.SessionState) id (answer : fails (ServiceResponse Value)) : ServiceFrame Value :=
  Response (mkEnvelope WALLET_ABI_VERSION (se_host_session_id t) (sv_service_session_id w)
    (se_restart_generation t) (se_next_service_sequence t) id (response_of answer)).

Record served w now (envelope : SessionEnvelope (ServiceRequest Value)) (t : Service.SessionState) w3 answer : Prop := {
  sr_carried : carried w envelope now t w3 answer;
  sr_window : sv_request_order w3 = window (sv_request_order w) (request_id envelope);
  sr_channel : se_next_service_sequence t + 1 <= U64_MAX -> channel_ok (numbered t w3);
  sr_id : sv_service_session_id w3 = sv_service_session_id w;
}.

Lemma serve_in_step h w s id q b now w' out :
  in_step h w -> wh_channel h = ChannelState.Ready s -> id ∉ wh_recent_request_ids h ->
  next_host_sequence s + 1 <= U64_MAX -> decode_host_frame b = Ok (request_of h s id q) ->
  process_frame url_parse w b now = (w', out) ->
  exists t w3 answer, sv_session w = Some t /\ served w now (envelope_of h s id q) t w3 answer /\
    (U64_MAX < se_next_service_sequence t + 1 /\ w' = w3 /\ out = Err ServiceError.SequenceExhausted
     \/ se_next_service_sequence t + 1 <= U64_MAX /\ w' = numbered t w3
        /\ out = map_err ServiceError.Abi (encode_service_frame (answer_frame w t id answer))).
Proof.
  intros [(s' & t & Hs & Ht & Hh & Hv & Hg & Hn & Hk) Ho Hr Hp Hch] Hs' Hf Hmax Hdec Hproc.
  rewrite Hs in Hs'. simplify_eq. exists t.
  destruct (accept_in_step w t (envelope_of h s id q)) as (w1 & Hacc & Hac); simpl; try done.
  { by rewrite Hn. }
  { rewrite (ch_seen _ Hch), Ho. set_solver. }
  unfold process_frame in Hproc. rewrite Hdec in Hproc. cbv beta iota zeta delta [map_err request_of] in Hproc.
  unfold process_request in Hproc. rewrite Hacc in Hproc. cbv beta iota zeta in Hproc. cbn [body request_id envelope_of] in Hproc.
  set (w2 := prune_pending w1 (now / 1000)) in *.
  pose proof (wallet_dispatch_channel w2 q now) as Hd. destruct (dispatch url_parse w2 (Wallet q) now) as [w3 answer] eqn:Hdis.
  cbv beta iota zeta in Hproc. simpl in Hd. destruct Hd as (Hd1 & Hd2 & Hd3 & Hd4). exists w3, answer. split; [done|].
  pose proof (accepted_channel _ _ _ _ Hac Hch) as Hch1. pose proof Hac as [_ _ _ _ (ids & order & Hw1 & _ & Horder)].
  assert (sv_session w3 = Some (mkServiceSession (se_host_session_id t) (se_restart_generation t)
    (se_next_host_sequence t + 1) (se_next_service_sequence t))) as Hs3 by (rewrite Hd1; by subst w2 w1).
  assert (channel_ok w3) as Hch3.
  { apply (same_channel_ok w2); [by split_and!|]. by apply (same_channel_ok w1). }
  assert (sv_service_session_id w3 = sv_service_session_id w) as Hv3 by (rewrite Hd4; by subst w2 w1).
  split.
  { split; [by exists w1|by rewrite Hd2; subst w2 w1| |done]. intros Hle. unfold numbered.
    apply (next_channel w3 _ (mkServiceSession (se_host_session_id t) (se_restart_generation t)
      (se_next_host_sequence t + 1) (se_next_service_sequence t + 1)) (se_next_service_sequence t)); [|done]. unfold Service.next_service_sequence. rewrite Hs3. simpl.
    assert (u64_add (se_next_service_sequence t) 1 = Some (se_next_service_sequence t + 1)) as -> by by apply checked_add_Some.
    done. }
  destruct (Service.next_service_sequence w3) as [w4 [[s' k]|error]] eqn:Hnext; cbv beta iota zeta in Hproc; simplify_eq.
  - right. apply next_sequence in Hnext as (t3 & Ht3 & -> & Hmax' & -> & ->). rewrite Hs3 in Ht3. simplify_eq. simpl in *.
    split_and!; [done|done|]. by rewrite Hv3.
  - left. apply next_sequence in Hnext as [-> [[_ ?]|(-> & t3 & Ht3 & Hx)]]; [congruence|].
    rewrite Hs3 in Ht3. simplify_eq. simpl in Hx. split_and!; [lia|done|done].
Qed.

(** *** The host's reading of the answer *)

(** The fields a response to a wallet request leaves alone. *)
Definition same_exchange h h' : Prop :=
  wh_channel h' = wh_channel h /\ wh_pending h' = wh_pending h
  /\ wh_request_id_order h' = wh_request_id_order h
  /\ wh_recent_request_ids h' = wh_recent_request_ids h
  /\ wh_aged_out_request_ids h' = wh_aged_out_request_ids h
  /\ wh_host_session_id h' = wh_host_session_id h /\ wh_restart_generation h' = wh_restart_generation h.

(** What the host makes of a response to a wallet request of this class. *)
Definition verdict (class : WalletResponseClass.t) (r : ServiceResponse Value) : result unit HostError.t :=
  match r with
  | WalletResult response =>
      if wallet_class_matches class response then Ok tt else Err HostError.ResponseClassMismatch
  | Failure failure => if is_protocol_failure (code failure) then Err HostError.ReportedProtocolFailure else Ok tt
  | _ => Err HostError.ResponseClassMismatch
  end.

Lemma apply_wallet h class (r : ServiceResponse Value) h' res :
  apply_response h (RequestClass.Wallet class) r = (h', res) ->
  res = verdict class r /\ match res with Ok _ => same_exchange h h' | Err _ => True end.
Proof.
  destruct r; simpl; try (intros [= <- <-]; done).
  - destruct (wallet_class_matches class response); [|intros [= <- <-]; done].
    intros [= <- <-]. split; [done|]. by destruct (rotates_wallet response).
  - destruct (is_protocol_failure _); intros [= <- <-]; [done|]. split; [done|].
    unfold apply_failure. simpl. by destruct (code _).
Qed.

Lemma answer_accepted h s id class n (r : ServiceResponse Value) h' res :
  wh_channel h = ChannelState.Ready s -> wh_pending h = (<[id := RequestClass.Wallet class]> ∅) ->
  wh_aged_out_request_ids h = ∅ -> n = Host.next_service_sequence s -> n + 1 <= U64_MAX ->
  accept_service_frame h (Response (mkEnvelope WALLET_ABI_VERSION (wh_host_session_id h)
    (ss_service_session_id s) (wh_restart_generation h) n id r)) = (h', res) ->
  res = (let* _ := verdict class r in Ok (HostOutput.Response (mkAcceptedResponse id r))) /\
  match res with
  | Ok _ => exists h1, same_exchange h h1 /\ same_exchange (set_channel (Host.set_pending h1 ∅)
           (ChannelState.Ready (mkSession (ss_service_session_id s) (ss_capabilities s)
              (next_host_sequence s) (n + 1)))) h'
  | Err _ => True
  end.
Proof.
  intros Hc Hp Ha -> Hmax. unfold accept_service_frame, accept_service_frame_inner, accept_response, validate_service_header.
  cbn [protocol_version host_session_id service_session_id restart_generation channel_sequence request_id body].
  rewrite Hc, !N.eqb_refl, !bool_decide_eq_true_2 by done. cbn [negb orb].
  assert (u64_add (Host.next_service_sequence s) 1 = Some (Host.next_service_sequence s + 1)) as -> by by apply checked_add_Some.
  rewrite Hp, lookup_insert_eq. cbv beta iota zeta delta [ok_or validate_response_authority_time class_authority].
  destruct (apply_response h _ r) as [h1 [[]|e]] eqn:Hap; apply apply_wallet in Hap as [<- Hap].
  2:{ cbv beta iota zeta. cbn [is_ok]. by intros [= <- <-]. }
  pose proof Hap as (E1 & E2 & E3 & E4 & E5 & E6 & E7).
  rewrite E2, Hp, lookup_insert_eq. cbv beta iota zeta. unfold forget_request.
  change (wh_aged_out_request_ids (Host.set_pending h1 ?p)) with (wh_aged_out_request_ids h1).
  rewrite E5, Ha, bool_decide_eq_false_2 by set_solver.
  unfold set_next_service_sequence. cbn [wh_channel Host.set_pending]. rewrite E1, Hc. cbv beta iota zeta. cbn [is_ok].
  intros [= <- <-]. split; [done|]. exists h1. split; [done|]. rewrite E2, Hp, delete_insert_eq, delete_empty. done.
Qed.

(** ** Exchanges *)

Context (Hhost : JsonLaws (HostFrame Value)) (Hservice : JsonLaws (ServiceFrame Value)).

(** What becomes of the answer to a request that was carried out on the service. *)
Inductive delivered m w (envelope : SessionEnvelope (ServiceRequest Value)) q (t : Service.SessionState)
    w3 (answer : fails (ServiceResponse Value)) : mobile -> result (HostOutput.t Value) MobileWalletError.t -> Prop :=
| DeNotNumbered :
    U64_MAX < se_next_service_sequence t + 1 ->
    delivered m w envelope q t w3 answer (set_service m w3) (Err (MobileWalletError.Service ServiceError.SequenceExhausted))
| DeNotEncoded a :
    encode_service_frame (answer_frame w t (request_id envelope) answer) = Err a ->
    delivered m w envelope q t w3 answer (set_service m (numbered t w3))
      (Err (MobileWalletError.Service (ServiceError.Abi a)))
| DeUnfit h e :
    verdict (wallet_class_for_request q) (response_of answer) = Err e ->
    delivered m w envelope q t w3 answer (set_host (set_service m (numbered t w3)) h) (Err (MobileWalletError.Host e))
| DeAccepted h :
    verdict (wallet_class_for_request q) (response_of answer) = Ok tt -> in_step h (numbered t w3) ->
    delivered m w envelope q t w3 answer (set_host (set_service m (numbered t w3)) h)
      (Ok (HostOutput.Response (mkAcceptedResponse (request_id envelope) (response_of answer)))).

(** An exchange. The service is not touched, for want of an encoding or of a time;
    or it carried the request out once. *)
Inductive exchanged m (envelope : SessionEnvelope (ServiceRequest Value)) q :
    mobile -> result (HostOutput.t Value) MobileWalletError.t -> Prop :=
| ExNotEncoded a :
    encode_host_frame (Request envelope) = Err a ->
    exchanged m envelope q m (Err (MobileWalletError.Abi a))
| ExNotTimed clock c :
    now_unix_ms (ms_clock m) = (clock, Err c) ->
    exchanged m envelope q (set_clock m clock) (Err (MobileWalletError.Clock c))
| ExCarried clock now t w3 answer m' res :
    now_unix_ms (ms_clock m) = (clock, Ok now) ->
    carried (ms_service m) envelope now t w3 answer ->
    delivered (set_clock m clock) (ms_service m) envelope q t w3 answer m' res ->
    exchanged m envelope q m' res.

Lemma in_step_window h w q h1 frame : in_step h w -> wallet_request h q = (h1, Ok frame) ->
  exists s id, frame = request_of h s id q /\ wh_channel h = ChannelState.Ready s
    /\ (id ∉ wh_recent_request_ids h) /\ next_host_sequence s + 1 <= U64_MAX
    /\ wh_channel h1 = ChannelState.Ready (mkSession (ss_service_session_id s) (ss_capabilities s)
         (next_host_sequence s + 1) (Host.next_service_sequence s))
    /\ wh_request_id_order h1 = window (wh_request_id_order h) id
    /\ list_to_set (wh_request_id_order h1) ⊆ wh_recent_request_ids h1
    /\ wh_aged_out_request_ids h1 = ∅
    /\ wh_pending h1 = (<[id := RequestClass.Wallet (wallet_class_for_request q)]> ∅)
    /\ wh_host_session_id h1 = wh_host_session_id h
    /\ wh_restart_generation h1 = wh_restart_generation h.
Proof.
  intros [_ Ho Hr [Hp Ha] Hch] (s & id & e & -> & Hs & Hf & Hmax & ->)%wallet_request_asked.
  exists s, id. split_and!; try done; simpl.
  all: destruct (remember_window (Host.set_entropy h e) id (RequestClass.Wallet (wallet_class_for_request q)))
    as (R1 & R2 & R3 & R4 & R5 & R6); simpl; try done; try (rewrite <- Ho; apply Hch); try set_solver.
Qed.

(** A numbered answer on its way back to the host. *)
Lemma answer_delivered m q h1 s id now t w3 answer b' m' res :
  in_step (ms_host m) (ms_service m) -> wallet_request (ms_host m) q = (h1, Ok (request_of (ms_host m) s id q)) ->
  wh_channel (ms_host m) = ChannelState.Ready s -> sv_session (ms_service m) = Some t ->
  served (ms_service m) now (envelope_of (ms_host m) s id q) t w3 answer ->
  se_next_service_sequence t + 1 <= U64_MAX ->
  encode_service_frame (answer_frame (ms_service m) t id answer) = Ok b' ->
  (let! m, response := (set_service (set_host m h1) (numbered t w3), map_err MobileWalletError.Abi (decode_service_frame b')) in
   let '(h, output) := accept_service_frame (ms_host m) response in
   (set_host m h, map_err MobileWalletError.Host output)) = (m', res) ->
  delivered (set_host m h1) (ms_service m) (envelope_of (ms_host m) s id q) q t w3 answer m' res.
Proof.
  intros Hst Hq Hs Ht Hsrv Hnum Hb' H.
  destruct (in_step_window _ _ _ _ _ Hst Hq) as (s0 & id0 & Hfr & Hs0 & _ & _ & Hc1 & Ho1 & Hr1 & Ha1 & Hp1 & Hh1 & Hg1).
  rewrite Hs in Hs0. injection Hs0 as <-. injection Hfr as <-.
  apply (proj2 (frame_roundtrip Hhost Hservice)) in Hb' as [Hb' _]. rewrite Hb' in H. cbv beta iota zeta delta [map_err answer_frame] in H.
  cbn [ms_host set_service set_host] in H.
  destruct (st_sessions _ _ Hst) as (s' & t' & Hs' & Ht' & Eh & Ev & Eg & En & Ek).
  rewrite Hs in Hs'. rewrite Ht in Ht'. injection Hs' as <-. injection Ht' as <-. rewrite Eh, <- Ev, Eg, <- Hh1, <- Hg1 in H.
  destruct (accept_service_frame h1 _) as [h' r] eqn:Hacc.
  pose proof (answer_accepted _ _ _ _ _ _ _ _ Hc1 Hp1 Ha1 Ek Hnum Hacc) as [-> Ha]. cbv beta iota zeta in H.
  destruct (verdict _ _) as [[]|e] eqn:Hv; cbv beta iota zeta in H; injection H as <- <-; [|by apply DeUnfit].
  destruct Ha as (h2 & (S1 & S2 & S3 & S4 & S5 & S6 & S7) & T1 & T2 & T3 & T4 & T5 & T6 & T7).
  cbn in T1, T2, T3, T4, T5, T6, T7. apply DeAccepted; [done|]. destruct Hsrv as [_ Hwin Hch Hid].
  split; cbn; [| |by rewrite T3, T4, S3, S4|by rewrite T2, T5, S5|by apply Hch].
  - do 2 eexists. split_and!; [exact T1|reflexivity|..]; cbn; congruence.
  - rewrite Hwin, T3, S3, Ho1. by rewrite (st_window _ _ Hst).
Qed.

Lemma request_exchange m q h1 frame m' res :
  in_step (ms_host m) (ms_service m) -> wallet_request (ms_host m) q = (h1, Ok frame) ->
  exchange_inner url_parse (set_host m h1) frame = (m', res) ->
  exists s id, frame = request_of (ms_host m) s id q
    /\ exchanged (set_host m h1) (envelope_of (ms_host m) s id q) q m' res.
Proof.
  intros Hst Hq H. destruct (in_step_window _ _ _ _ _ Hst Hq) as (s & id & -> & Hs & Hf & Hmax & _).
  exists s, id. split; [done|]. unfold exchange_inner in H.
  destruct (encode_host_frame _) as [b|a] eqn:Hb; cbv beta iota zeta delta [map_err] in H; [|simplify_eq; by constructor].
  apply (proj1 (frame_roundtrip Hhost Hservice)) in Hb as [Hb _].
  destruct (now_unix_ms _) as [clock [now|c]] eqn:Hclock; cbv beta iota zeta in H; [|simplify_eq; by constructor].
  cbn [ms_service Mobile.set_clock set_host] in H.
  destruct (process_frame url_parse (ms_service m) b now) as [w' out] eqn:Hproc.
  destruct (serve_in_step _ _ _ _ _ _ _ _ _ Hst Hs Hf Hmax Hb Hproc) as (t & w3 & answer & Ht & Hsrv & Hcase).
  apply (ExCarried _ _ _ clock now t w3 answer); [done|by apply Hsrv|].
  destruct Hcase as [(Hx & -> & ->)|(Hnum & -> & ->)].
  { cbv beta iota zeta in H. injection H as <- <-. by apply DeNotNumbered. }
  destruct (encode_service_frame _) as [b'|a] eqn:Hb'; cbv beta iota zeta delta [map_err] in H.
  2:{ injection H as <- <-. by apply DeNotEncoded. }
  exact (answer_delivered (set_clock m clock) q h1 s id now t w3 answer b' m' res Hst Hq Hs Ht Hsrv Hnum Hb' H).
Qed.

(** Where the host took the answer, the two sides are in step again. *)
Lemma exchanged_in_step m envelope q m' output : exchanged m envelope q m' (Ok output) ->
  in_step (ms_host m') (ms_service m') /\ ms_failed m' = ms_failed m.
Proof. inversion 1 as [| |? ? ? ? ? ? ? _ _ Hd]; subst. by inversion Hd; subst. Qed.

(** ** Negotiation *)

(** Neither side has heard of the other. *)
Record unmet h w : Prop := {
  um_host : wh_channel h = ChannelState.AwaitingHello;
  um_service : sv_session w = None;
  um_window : wh_request_id_order h = [];
  um_settled : wh_pending h = ∅ /\ wh_aged_out_request_ids h = ∅;
  um_channel : channel_ok w;
  um_capabilities : capabilities_ok (sv_capabilities w);
}.

(** Why the two may not meet: a frame has no encoding or the clock no time. *)
Inductive no_meeting m (frame : HostFrame Value) : MobileWalletError.t -> Prop :=
| NmFrame a : encode_host_frame frame = Err a -> no_meeting m frame (MobileWalletError.Abi a)
| NmClock clock c : now_unix_ms (ms_clock m) = (clock, Err c) -> no_meeting m frame (MobileWalletError.Clock c)
| NmAnswer a :
    encode_service_frame (ServiceHelloFrame (mkServiceHello WALLET_ABI_VERSION (wh_platform (ms_host m))
      (wh_host_session_id (ms_host m)) (sv_service_session_id (ms_service m)) (wh_restart_generation (ms_host m))
      (sv_capabilities (ms_service m)) limits_default)) = Err a ->
    no_meeting m frame (MobileWalletError.Service (ServiceError.Abi a)).

Lemma few_capabilities (c : gset ServiceCapability.t) : (MAX_PUBLIC_ITEMS <? set_len c) = false.
Proof.
  apply N.ltb_ge. unfold set_len.
  assert (size c <= 14)%nat; [|unfold MAX_PUBLIC_ITEMS; lia].
  transitivity (size (list_to_set (enum ServiceCapability.t) : gset ServiceCapability.t)).
  - apply subseteq_size. intros x _. apply elem_of_list_to_set, elem_of_enum.
  - by vm_compute.
Qed.

Lemma hello_accepted h c id :
  wh_channel h = ChannelState.AwaitingHello -> capabilities_ok c ->
  accept_service_frame (Value := Value) h (ServiceHelloFrame (mkServiceHello WALLET_ABI_VERSION (wh_platform h)
    (wh_host_session_id h) id (wh_restart_generation h) c limits_default))
  = (set_channel h (ChannelState.Ready (mkSession id c 1 1)),
     Ok (HostOutput.Negotiated (mkNegotiated WALLET_ABI_VERSION (wh_platform h) (wh_host_session_id h) id
           (wh_restart_generation h) c limits_default))).
Proof.
  intros Hc [(R1 & R2 & R3) Rv Rr Rx _ _ _].
  unfold accept_service_frame, accept_service_frame_inner, accept_hello. rewrite Hc. cbn.
  rewrite few_capabilities, !N.eqb_refl. rewrite !(bool_decide_eq_true_2 (_ = _)) by done.
  rewrite (bool_decide_eq_true_2 _ R1), (bool_decide_eq_true_2 _ R2), (bool_decide_eq_true_2 _ R3). cbn [negb orb].
  repeat case_bool_decide; simpl; tauto.
Qed.

Lemma hello_exchange m frame m' res :
  unmet (ms_host m) (ms_service m) -> hello_frame (ms_host m) = Ok frame ->
  exchange_inner url_parse m frame = (m', res) ->
  match res with
  | Ok output => in_step (ms_host m') (ms_service m') /\ ms_failed m' = ms_failed m
      /\ exists session, output = HostOutput.Negotiated session
         /\ ns_capabilities session = sv_capabilities (ms_service m)
  | Err e => no_meeting m frame e
  end.
Proof.
  intros [Hh Hs Ho [Hp Ha] Hch Hcap] Hf H. unfold hello_frame in Hf. rewrite Hh in Hf. injection Hf as <-.
  unfold exchange_inner in H.
  destruct (encode_host_frame _) as [b|a] eqn:Hb; cbv beta iota zeta delta [map_err] in H; [|simplify_eq; by constructor].
  apply (proj1 (frame_roundtrip Hhost Hservice)) in Hb as [Hb _].
  destruct (now_unix_ms _) as [clock [now|c]] eqn:Hclock; cbv beta iota zeta in H; [|simplify_eq; by econstructor].
  cbn [ms_service Mobile.set_clock] in H. unfold process_frame in H. rewrite Hb in H.
  cbv beta iota zeta delta [map_err] in H. unfold negotiate in H. rewrite Hs in H. cbn in H.
  destruct (encode_service_frame _) as [b'|a] eqn:Hb'; cbv beta iota zeta delta [map_err] in H; [|simplify_eq; by econstructor].
  apply (proj2 (frame_roundtrip Hhost Hservice)) in Hb' as [Hb' _]. rewrite Hb' in H. cbv beta iota zeta in H.
  cbn [ms_host set_service Mobile.set_clock] in H. rewrite hello_accepted in H by done. injection H as <- <-.
  assert (sv_request_order (ms_service m) = []) as Ho' by by apply (ch_idle _ Hch).
  split_and!; [|done|by eexists]. split; simpl.
  - by do 2 eexists.
  - by rewrite Ho, Ho'.
  - rewrite Ho. set_solver.
  - done.
  - destruct Hch as [C1 C2 C3 C4 C5]. split; simpl; try done.
    intros x [= <-]. simpl. unfold U64_MAX. lia.
Qed.

(** ** The session through its calls *)

Definition session_ok m : Prop :=
  ms_failed m = true \/ in_step (ms_host m) (ms_service m) \/ unmet (ms_host m) (ms_service m).

Lemma refused_request h q h1 e : wallet_request (Value := Value) h q = (h1, Err e) -> same_exchange h h1.
Proof.
  unfold wallet_request, enqueue, random_request_id. intros H.
  destruct (require_capability h _); [|by simplify_eq]. cbv beta iota zeta in H. destruct (_ <=? _); [by simplify_eq|].
  destruct (random_fresh _ _ _ _ _) as [e' [id|]]; cbv beta iota zeta in H; [|by simplify_eq].
  change (wh_channel (Host.set_entropy h e')) with (wh_channel h) in H.
  destruct (wh_channel h) as [|s|]; [by simplify_eq| |by simplify_eq].
  destruct (u64_add (next_host_sequence s) 1) as [next|]; cbv beta iota zeta delta [ok_or] in H; by simplify_eq.
Qed.

Lemma same_exchange_ok m h1 : same_exchange (ms_host m) h1 -> session_ok m -> session_ok (set_host m h1).
Proof.
  intros (E1 & E2 & E3 & E4 & E5 & E6 & E7) [H|[[(s & t & H1 & H2) H3 H4 H5 H6]|[H1 H2 H3 H4 H5 H6]]]; [by left|..].
  - right; left. split; simpl; rewrite ?E1, ?E2, ?E3, ?E4, ?E5, ?E6, ?E7; try done. by exists s, t.
  - right; right. split; simpl; by rewrite ?E1, ?E2, ?E3, ?E5.
Qed.

Lemma wallet_request_inner_ok m q m' r : session_ok m ->
  wallet_request_inner url_parse m q = (m', r) -> session_ok m'.
Proof.
  intros Hok H. unfold wallet_request_inner in H. destruct (ms_failed m) eqn:Hfail; [by simplify_eq|].
  destruct (wallet_request (ms_host m) q) as [h1 [frame|e]] eqn:Hq; cbv beta iota zeta delta [map_err] in H.
  2:{ simplify_eq. apply refused_request in Hq. by apply same_exchange_ok. }
  destruct Hok as [?|[Hst|Hun]]; [congruence| |].
  2:{ apply wallet_request_asked in Hq as (s & ? & ? & _ & Hs & _). by rewrite (um_host _ _ Hun) in Hs. }
  destruct (exchange url_parse (set_host m h1) frame) as [m1 res] eqn:Hx. unfold exchange in Hx.
  destruct (exchange_inner _ _ _) as [m2 res2] eqn:Hx2. cbv beta iota zeta in Hx. injection Hx as <- <-.
  destruct res2 as [output|e]; cbv beta iota zeta delta [is_ok] in H; [|simplify_eq; by left].
  eapply request_exchange in Hx2 as (s & id & _ & Hx2); [|done|done]. apply exchanged_in_step in Hx2 as [Hx2 _].
  assert (session_ok m2) by (right; by left). repeat (case_match; simplify_eq); done.
Qed.

Lemma lock_store_ok m : session_ok m -> session_ok (lock_store m).
Proof.
  intros [H|[[H1 H2 H3 H4 H5]|[H1 H2 H3 H4 H5 H6]]]; [by left| |].
  - right; left. split; simpl; try done. by apply (same_channel_ok (ms_service m)).
  - right; right. split; simpl; try done. by apply (same_channel_ok (ms_service m)).
Qed.

Lemma mobile_wallet_request_ok m q m' r : session_ok m ->
  mobile_wallet_request url_parse m q = (m', r) -> session_ok m'.
Proof.
  intros Hok H. unfold mobile_wallet_request in H.
  destruct (wallet_request_inner url_parse m q) as [m1 r1] eqn:H1. apply wallet_request_inner_ok in H1; [|done].
  cbv beta iota zeta in H. injection H as <- <-. destruct (is_ok r1); [done|]. unfold lock_after_request_error.
  destruct (ms_failed m1) eqn:Hf; [by left|].
  destruct (wallet_request_inner url_parse m1 WalletRequest.Lock) as [m2 r2] eqn:H2.
  apply wallet_request_inner_ok in H2; [|done]. destruct r2 as [[]|]; try done; by left.
Qed.

Lemma exchange_failed m frame m' r : exchange_inner url_parse m frame = (m', r) -> ms_failed m' = ms_failed m.
Proof. unfold exchange_inner. intros H. repeat (case_match; simplify_eq; try done). Qed.

Lemma negotiate_ok wanted m m' r : session_ok m ->
  negotiate_with url_parse wanted m = (m', r) ->
  session_ok m' /\ (unmet (ms_host m) (ms_service m) ->
    match r with
    | Ok _ => in_step (ms_host m') (ms_service m') /\ wanted (sv_capabilities (ms_service m)) = true
    | Err e => in_step (ms_host m') (ms_service m') /\ wanted (sv_capabilities (ms_service m)) = false
        \/ ms_failed m' = true /\ exists frame, no_meeting m frame e
    end).
Proof.
  intros Hok H. unfold negotiate_with in H.
  destruct (hello_frame (ms_host m)) as [frame|e] eqn:Hf; cbv beta iota zeta delta [map_err] in H.
  2:{ simplify_eq. split; [done|]. intros Hun. unfold hello_frame in Hf. by rewrite (um_host _ _ Hun) in Hf. }
  destruct (exchange url_parse m frame) as [m1 res] eqn:Hx. unfold exchange in Hx.
  destruct (exchange_inner _ _ _) as [m2 res2] eqn:Hx2. cbv beta iota zeta in Hx. injection Hx as <- <-.
  assert (ms_failed m = true \/ unmet (ms_host m) (ms_service m)) as Hcase.
  { destruct Hok as [?|[Hst|?]]; auto. destruct (st_sessions _ _ Hst) as (s & _ & Hs & _).
    unfold hello_frame in Hf. by rewrite Hs in Hf. }
  pose proof (fun Hun => hello_exchange _ _ _ _ Hun Hf Hx2) as Hun.
  apply exchange_failed in Hx2. destruct res2 as [output|e]; cbv beta iota zeta delta [is_ok] in H.
  - assert (session_ok m2) as Hok2.
    { destruct Hcase as [Hfail|[Hst _]%Hun]; [left; congruence|right; by left]. }
    split; [by repeat (case_match; simplify_eq)|].
    intros (Hst & _ & session & -> & Hcap)%Hun. rewrite Hcap in H. destruct (wanted _); simplify_eq; [done|by left].
  - simplify_eq. split; [by left|]. intros Hex%Hun. right. by split; [|eexists].
Qed.

(** ** A failure locks the wallet *)

Definition provider_of m := sv_provider (ms_service m).
Definition locked m : Prop :=
  wallet_locked (provider_of m) = true \/ exists st, state (provider_of m) = store_lock st.

Lemma dispatch_locked w now w' :
  dispatch url_parse w (Wallet WalletRequest.Lock) now = (w', Ok (WalletResult WalletResponse.Locked)) ->
  wallet_locked (sv_provider w') = true.
Proof.
  unfold dispatch. destruct (rt_admit_service_request _ _ _); [|done]. unfold wallet_operation. cbv beta iota zeta.
  destruct (negb _); [done|]. destruct (on_runtime w _) as [w1 [response|f]]; cbv beta iota zeta; [|done].
  destruct response; cbv beta iota zeta; try (intros; discriminate).
  all: try match goal with |- context [rotate_wallet_session ?x false] =>
    destruct (rotate_wallet_session x false) as [? [|]]; [intros; discriminate|];
    match goal with |- context [on_runtime ?x ?f] => destruct (on_runtime x f) as [? [|]] end; intros; discriminate end.
  unfold rotate_wallet_session. destruct (random_session _) as [e [id|error]]; simpl; [|done]. by intros [= <-].
Qed.

(** An answer the host accepts is the service's own. *)
Lemma exchange_answered m envelope m' accepted :
  exchange_inner url_parse m (Request envelope) = (m', Ok (HostOutput.Response accepted)) ->
  exists w2 now w3 answer, dispatch url_parse w2 (body envelope) now = (w3, answer)
    /\ ar_response accepted = response_of answer /\ sv_provider (ms_service m') = sv_provider w3.
Proof.
  unfold exchange_inner. intros H.
  destruct (encode_host_frame _) as [b|a] eqn:Hb; cbv beta iota zeta delta [map_err] in H; [|done].
  apply (proj1 (frame_roundtrip Hhost Hservice)) in Hb as [Hb _].
  destruct (now_unix_ms _) as [clock [now|c]]; cbv beta iota zeta in H; [|done].
  cbn [ms_service Mobile.set_clock] in H. unfold process_frame in H. rewrite Hb in H.
  cbv beta iota zeta delta [map_err process_request] in H.
  destruct (accept_request_header _ _) as [w1 [|]]; [|done].
  destruct (dispatch url_parse (prune_pending w1 _) _ _) as [w3 answer] eqn:Hd. cbv beta iota zeta in H.
  destruct (Service.next_service_sequence w3) as [w4 [[s k]|]] eqn:Hn; [|done]. cbv beta iota zeta in H.
  destruct (encode_service_frame _) as [b'|] eqn:Hb'; [|done].
  apply (proj2 (frame_roundtrip Hhost Hservice)) in Hb' as [Hb' _]. cbv beta iota zeta in H. rewrite Hb' in H.
  cbv beta iota zeta in H. cbn [ms_host set_service Mobile.set_clock] in H.
  destruct (accept_service_frame _ _) as [h' [out|]] eqn:Hacc; [|done]. simplify_eq.
  exists (prune_pending w1 (now / 1000)), now, w3, answer. split; [done|]. split.
  - unfold accept_service_frame in Hacc. simpl in Hacc. unfold accept_response in Hacc.
    repeat (case_match; simplify_eq; try done).
  - simpl. apply next_sequence in Hn as (t & _ & _ & _ & _ & ->). done.
Qed.

Lemma inner_locked m m' : wallet_request_inner url_parse m WalletRequest.Lock = (m', Ok WalletResponse.Locked) ->
  ms_failed m' = false /\ wallet_locked (provider_of m') = true.
Proof.
  unfold wallet_request_inner. intros H. destruct (ms_failed m) eqn:Hfail; [done|].
  destruct (wallet_request (ms_host m) _) as [h1 [frame|e]] eqn:Hq; cbv beta iota zeta delta [map_err] in H; [|done].
  apply wallet_request_asked in Hq as (s & id & e & -> & _).
  destruct (exchange _ _ _) as [m1 res] eqn:Hx. unfold exchange in Hx.
  destruct (exchange_inner _ _ _) as [m2 res2] eqn:Hx2. cbv beta iota zeta in Hx. injection Hx as <- <-.
  destruct res2 as [output|]; cbv beta iota zeta delta [is_ok] in H; [|done].
  destruct output as [|accepted|]; try done.
  pose proof (exchange_failed _ _ _ _ Hx2) as Hf. apply exchange_answered in Hx2 as (w2 & now & w3 & answer & Hd & Ha & Hp).
  rewrite Ha in H. destruct answer as [answer|f]; [|done]. simpl in H.
  destruct answer; simplify_eq. split; [by rewrite Hf|]. unfold provider_of. rewrite Hp.
  by apply (dispatch_locked _ _ _ Hd).
Qed.

(** *** Calls *)

Inductive MobileCall :=
| CallNegotiateNonValue | CallNegotiateValue (require_shakedex : bool) | CallRequest (q : WalletRequest.t)
| CallStatus | CallLock | CallUnlock (passphrase : string) | CallAccounts.

Definition mobile_step m (call : MobileCall) : mobile :=
  match call with
  | CallNegotiateNonValue => (negotiate_non_value url_parse m).1
  | CallNegotiateValue require_shakedex => (negotiate_value url_parse require_shakedex m).1
  | CallRequest q => (mobile_wallet_request url_parse m q).1
  | CallStatus => (mobile_status url_parse m).1
  | CallLock => (mobile_lock url_parse m).1
  | CallUnlock passphrase => (mobile_unlock url_parse m passphrase).1
  | CallAccounts => (mobile_accounts url_parse m).1
  end.

(** A new host and a new service in one process, after some calls. *)
Definition mobile_after platform generation (hc : C) (he : EH) (st : S) (rt : R) persistent (se : ES) (clock : C)
    (calls : list MobileCall) m : Prop :=
  exists h e' w, Host.new platform generation hc he = Ok h /\ service_new st rt persistent se = (e', Ok w)
    /\ m = foldl mobile_step (mobile_new h w clock) calls.

Local Ltac request_ok :=
  match goal with
  | |- context [mobile_wallet_request url_parse ?m ?q] =>
      let H := fresh in destruct (mobile_wallet_request url_parse m q) as [? [|]] eqn:H;
      (apply mobile_wallet_request_ok in H; [|done]); cbv beta iota zeta
  end.

Lemma mobile_step_ok m call : session_ok m -> session_ok (mobile_step m call).
Proof.
  intros Hok. destruct call; simpl.
  - destruct (negotiate_non_value url_parse m) as [m' r] eqn:H. by apply negotiate_ok in H as [? _].
  - destruct (negotiate_value url_parse _ m) as [m' r] eqn:H. by apply negotiate_ok in H as [? _].
  - by request_ok.
  - unfold mobile_status. request_ok; [|done]. by case_match.
  - unfold mobile_lock. request_ok; [|done]. by case_match.
  - unfold mobile_unlock, mobile_lock. request_ok; [|done].
    match goal with r : WalletResponse.t |- _ => destruct r; try done end. cbv beta iota zeta.
    request_ok; [|done]. by case_match.
  - unfold mobile_accounts. request_ok; [|done]. by case_match.
Qed.

Lemma new_unmet platform generation hc he h st rt persistent se e' w clock :
  Host.new platform generation hc he = Ok h -> service_new st rt persistent se = (e', Ok w) ->
  session_ok (mobile_new h w clock) /\ unmet h w.
Proof.
  intros Hh Hw. assert (unmet h w); [|split; [by right; right|done]].
  unfold service_new in Hw. run_in Hw. unfold Host.new in Hh. run_in Hh.
  split; simpl; try done; [|apply announced_ok]. split; simpl; try done. constructor.
Qed.

(** ** Theorems *)

(** C3: host and service stay in step. After any calls since both were made, unless
    the session has failed, the two sides are still to meet or have the same session
    with the same counters and the same window of request identifiers. A wallet
    request the host then sends is carried out on the service at most once. Either
    its frame has no encoding or the clock no time, and the service is as it was; or
    the service accepts the header and dispatches the request exactly once, and the
    host takes that dispatch's answer and the two are in step again. The answer is
    lost only when the service's numbers are used up, when this very answer has no
    encoding, or when the runtime's answer is not one to the request; whatever is
    lost marks the session failed and locks the store. *)
Theorem host_and_service_in_step platform generation hc he st rt persistent se clock calls m :
  mobile_after platform generation hc he st rt persistent se clock calls m ->
  session_ok m
  /\ forall q h1 frame m' res, ms_failed m = false -> wallet_request (ms_host m) q = (h1, Ok frame) ->
     exchange url_parse (set_host m h1) frame = (m', res) ->
     exists s id m2, frame = request_of (ms_host m) s id q
       /\ exchanged (set_host m h1) (envelope_of (ms_host m) s id q) q m2 res
       /\ m' = if is_ok res then m2 else lock_store (set_failed m2).
Proof.
  intros (h & e' & w & Hh & Hw & ->). destruct (new_unmet _ _ _ _ _ _ _ _ _ _ _ clock Hh Hw) as [Hok _].
  assert (session_ok (foldl mobile_step (mobile_new h w clock) calls)) as Hall.
  { clear Hh Hw. revert Hok. generalize (mobile_new h w clock).
    induction calls as [|call calls IH]; intros m Hok; simpl; [done|]. by apply IH, mobile_step_ok. }
  split; [done|]. clear Hh Hw Hok. generalize dependent (foldl mobile_step (mobile_new h w clock) calls).
  intros m Hok q h1 frame m' res Hf Hq Hx. unfold exchange in Hx.
  destruct (exchange_inner _ _ _) as [m2 res2] eqn:Hx2. cbv beta iota zeta in Hx. injection Hx as <- <-.
  destruct Hok as [?|[Hst|Hun]]; [congruence| |].
  2:{ apply wallet_request_asked in Hq as (s & ? & ? & _ & Hs & _). by rewrite (um_host _ _ Hun) in Hs. }
  destruct (request_exchange _ _ _ _ _ _ Hst Hq Hx2) as (s & id & -> & H). by exists s, id, m2.
Qed.

(** A new host and a new service agree. Their negotiation ends in step; it is
    accepted exactly when the capabilities the service announces are the wanted
    ones, and fails otherwise only if a frame has no encoding or the clock no time.*)
Theorem negotiation_agrees platform generation hc he st rt persistent se clock wanted h e' w m' res :
  Host.new platform generation hc he = Ok h -> service_new st rt persistent se = (e', Ok w) ->
  negotiate_with url_parse wanted (mobile_new h w clock) = (m', res) ->
  match res with
  | Ok _ => in_step (ms_host m') (ms_service m')
      /\ wanted (service_capabilities (rt_capabilities rt) persistent) = true
  | Err e => in_step (ms_host m') (ms_service m')
      /\ wanted (service_capabilities (rt_capabilities rt) persistent) = false
      \/ ms_failed m' = true /\ exists frame, no_meeting (mobile_new h w clock) frame e
  end.
Proof.
  intros Hh Hw Hn. destruct (new_unmet _ _ _ _ _ _ _ _ _ _ _ clock Hh Hw) as [Hok Hun].
  assert (sv_capabilities w = service_capabilities (rt_capabilities rt) persistent) as <-
    by (unfold service_new in Hw; run_in Hw; done).
  apply negotiate_ok in Hn as [_ Hn]; [|done]. by apply Hn.
Qed.

(** C27: a failed request leaves the wallet locked. When a wallet request returns an
    error, either the session has failed for good and the store has been locked, or
    the service has answered a lock request with its wallet locked. *)
Theorem failed_request_locks m q m' e :
  mobile_wallet_request url_parse m q = (m', Err e) ->
  if ms_failed m' then exists st, state (provider_of m') = store_lock st
  else wallet_locked (provider_of m') = true.
Proof.
  intros H. unfold mobile_wallet_request in H.
  destruct (wallet_request_inner url_parse m q) as [m1 r1]. cbv beta iota zeta in H. injection H as <- ->.
  unfold lock_after_request_error. cbn [is_ok]. destruct (ms_failed m1) eqn:Hf; [simpl; rewrite Hf; by eexists|].
  destruct (wallet_request_inner url_parse m1 WalletRequest.Lock) as [m2 r2] eqn:H2.
  destruct r2 as [[]|]; try (by eexists). apply inner_locked in H2 as [-> H2]. done.
Qed.
End Session.

(** ** A controller in use *)

Module ToyMobile.
Import ToyService.

(** The runtime locks when it is told to, and knows nothing else. *)
Definition unknown : ServiceFailure := invalid_request "no status".
Definition lock_runtime : ServiceRuntime MemoryProviderState unit := {|
  rt_capabilities _ := {[ServiceCapability.WalletOperations]};
  rt_admit_service_request _ _ _ := Ok tt;
  rt_supports_provider_method _ _ := false;
  rt_prepare_approval _ r st := (r, st, Err unknown);
  rt_prepare_hns_account_grant _ r st := (r, st, Err unknown);
  rt_selected_hns_account _ _ := Err unknown;
  rt_current_hns_names r st := (r, st, Err unknown);
  rt_execute_hns_name_read _ _ r st := (r, st, Err unknown);
  rt_execute_provider _ r st := (r, st, Err unknown);
  rt_execute_approved_provider _ _ _ r st := (r, st, Err unknown);
  rt_lock_wallet r st := (r, st, Ok tt);
  rt_execute_wallet q r st :=
    (r, st, match q with WalletRequest.Lock => Ok WalletResponse.Locked | _ => Err unknown end);
  rt_execute_wallet_authority_context _ r st := (r, st, Err unknown);
|}.
#[global] Existing Instance lock_runtime | 80.
Definition steady_clock : Clock N := fun c => (c + 1, Ok (1000000 + c)).
#[global] Existing Instance steady_clock | 80.
Definition counter : Entropy N := fun n size => (n + 1, Ok (to_be_bytes size (n + 1))).
#[global] Existing Instance counter | 80.
Definition no_key : StoreLock MemoryProviderState := fun _ => memory_default.
#[global] Existing Instance no_key | 80.

(** The frames of the exchanges below. *)
Definition caps : gset ServiceCapability.t := service_capabilities {[ServiceCapability.WalletOperations]} true.
Definition question (n : N) (q : WalletRequest.t) : HostFrame unit :=
  Request (mkEnvelope 2 sid service_id 1 n (to_be_bytes 16 (77 + n)) (Wallet q)).
Definition answer (n : N) (r : ServiceResponse unit) : ServiceFrame unit :=
  Response (mkEnvelope 2 sid service_id 1 n (to_be_bytes 16 (77 + n)) r).
Definition questions : list (HostFrame unit) :=
  [HostHelloFrame (mkHostHello 2 Android sid 1); question 1 WalletRequest.Lock; question 1 WalletRequest.Status;
   question 2 WalletRequest.Lock].
Definition answers : list (ServiceFrame unit) :=
  [ServiceHelloFrame (mkServiceHello 2 Android sid service_id 1 caps limits_default);
   answer 1 (WalletResult WalletResponse.Locked); answer 1 (Failure unknown); answer 2 (WalletResult WalletResponse.Locked)].

Definition same_envelope {T} (a b : SessionEnvelope T) : bool :=
  (protocol_version a =? protocol_version b) && bool_decide (host_session_id a = host_session_id b)
  && bool_decide (service_session_id a = service_session_id b) && (restart_generation a =? restart_generation b)
  && (channel_sequence a =? channel_sequence b) && bool_decide (request_id a = request_id b).
Lemma same_envelope_true {T} (a b : SessionEnvelope T) : same_envelope a b = true -> body a = body b -> a = b.
Proof. unfold same_envelope. intros H E. bool_prop. destruct a, b; simpl in *. by subst. Qed.

#[global] Instance HostHello_eq_dec : EqDecision HostHello.
Proof. solve_decision. Defined.
#[global] Instance ServiceHello_eq_dec : EqDecision ServiceHello.
Proof. solve_decision. Defined.
#[global] Instance ServiceFailure_eq_dec : EqDecision ServiceFailure.
Proof. solve_decision. Defined.

Definition same_question (f g : HostFrame unit) : bool :=
  match f, g with
  | HostHelloFrame a, HostHelloFrame b => bool_decide (a = b)
  | Request a, Request b => same_envelope a b
      && match body a, body b with
         | Wallet WalletRequest.Lock, Wallet WalletRequest.Lock => true
         | Wallet WalletRequest.Status, Wallet WalletRequest.Status => true
         | _, _ => false
         end
  | _, _ => false
  end.
Definition same_answer (f g : ServiceFrame unit) : bool :=
  match f, g with
  | ServiceHelloFrame a, ServiceHelloFrame b => bool_decide (a = b)
  | Response a, Response b => same_envelope a b
      && match body a, body b with
         | WalletResult WalletResponse.Locked, WalletResult WalletResponse.Locked => true
         | Failure a, Failure b => bool_decide (a = b)
         | _, _ => false
         end
  | _, _ => false
  end.

(** A frame is written as its place in a list. *)
#[global] Instance questions_json : JsonCodec (HostFrame unit) | 80 := listed same_question questions.
#[global] Instance answers_json : JsonCodec (ServiceFrame unit) | 80 := listed same_answer answers.
#[global] Instance questions_laws : JsonLaws (HostFrame unit).
Proof.
  apply listed_laws. intros [a|a] [b|b]; simpl; try done; intros H; bool_prop; [congruence|].
  f_equal. apply same_envelope_true; [done|]. by repeat (case_match; try done).
Qed.
#[global] Instance answers_laws : JsonLaws (ServiceFrame unit).
Proof.
  apply listed_laws. intros [a|a|a] [b|b|b]; simpl; try done; intros H; bool_prop; [congruence|].
  f_equal. apply same_envelope_true; [done|]. repeat (case_match; try done); bool_prop; congruence.
Qed.

Abbreviation mobile := (MobileControllerSession MemoryProviderState unit N N N).
Abbreviation host := (WalletHost N N).
Abbreviation service := (WalletService MemoryProviderState unit N).
Definition made_host : host :=
  match Host.new Android 1 0 76 with
  | Ok h => h
  | Err _ => mkHost Android [] 1 0 0 None ChannelState.AwaitingHello ∅ ∅ [] ∅ ∅ [] ∅ ∅ ∅ ∅ ∅
  end.
Definition made_service : service :=
  match (service_new memory_default tt true 0).2 with
  | Ok w => w
  | Err _ => mkService (core_new memory_default [] true) tt 0 [] [] ∅ None ∅ [] ∅ ∅
  end.
Definition made_mobile : mobile := mobile_new made_host made_service 0.
Lemma made_host_new : Host.new Android 1 0 76 = Ok made_host.
Proof. vm_cast_no_check (eq_refl (Ok made_host : result host HostError.t)). Qed.
Lemma made_service_new : service_new memory_default tt true 0 = (2, Ok made_service).
Proof. vm_cast_no_check (eq_refl (2, Ok made_service : result service ServiceError.t)). Qed.

(** The controller meets its service, asks for its status in vain and locks. *)
Abbreviation met := (mobile_step url made_mobile CallNegotiateNonValue).
Abbreviation asked_status := (mobile_wallet_request url met WalletRequest.Status).
Definition keeps_wallet (c : gset ServiceCapability.t) : bool := bool_decide (ServiceCapability.WalletOperations ∈ c).
Abbreviation greeted := (negotiate_with url keeps_wallet (mobile_new made_host made_service 0)).
Lemma greeted_agreed : greeted = (greeted.1, Ok tt).
Proof.
  rewrite (surjective_pairing greeted) at 1. apply (f_equal (pair _)).
  vm_cast_no_check (eq_refl (Ok tt : result unit MobileWalletError.t)).
Qed.
Abbreviation refusal := (MobileWalletError.ServiceFailure ServiceErrorCode.InvalidRequest "no status").
Lemma status_refused : asked_status = (asked_status.1, Err refusal).
Proof.
  rewrite (surjective_pairing asked_status) at 1. apply (f_equal (pair _)).
  vm_cast_no_check (eq_refl (Err refusal : result WalletResponse.t MobileWalletError.t)).
Qed.
Lemma met_after : mobile_after url Android 1 0 76 memory_default tt true 0 0 [CallNegotiateNonValue; CallLock]
  (mobile_step url met CallLock).
Proof.
  exists made_host, 2, made_service. exact (conj made_host_new (conj made_service_new eq_refl)).
Qed.

Lemma host_and_service_in_step_witness : ms_failed (mobile_step url met CallLock) = false
  /\ session_ok (mobile_step url met CallLock).
Proof.
  split; [vm_cast_no_check (eq_refl false)|].
  pose proof (host_and_service_in_step url questions_laws answers_laws _ _ _ _ _ _ _ _ _ _ _ met_after) as H.
  exact (proj1 H).
Defined.

Lemma negotiation_agrees_witness : in_step (ms_host greeted.1) (ms_service greeted.1).
Proof.
  pose proof (negotiation_agrees url questions_laws answers_laws Android 1 0 76 memory_default tt true 0 0 keeps_wallet
    made_host 2 made_service greeted.1 (Ok tt) made_host_new made_service_new greeted_agreed) as H.
  exact (proj1 H).
Defined.

Lemma failed_request_locks_witness : ms_failed asked_status.1 = false
  /\ (if ms_failed asked_status.1 then exists st, state (provider_of asked_status.1) = store_lock st
      else wallet_locked (provider_of asked_status.1) = true).
Proof.
  split; [vm_cast_no_check (eq_refl false)|].
  pose proof (failed_request_locks url questions_laws answers_laws _ _ _ _ status_refused) as H.
  exact H.
Defined.
End ToyMobile.
