(* ===== verification/Ethereum.v ===== *)
(** * The Ethereum module

    Models [crates/hns-wallet-ethereum/src/lib.rs]: addresses and their text form,
    keys derived for a role, the evidence a verified lock needs, the four
    transactions the wallet can build, their fee bound, their signing, and the
    encoding of both the calldata and the transaction (RLP).

    Parameters ([EthereumEnv]): Keccak-256 and SHA-256, secp256k1 signing, BIP-39
    phrases and BIP-32 derivation. The opaque permits are unit types, as in the
    source. Zeroization and [Debug] forms are left out. *)

From Stdlib Require Import Strings.Byte.
From stdpp Require Import pretty.
From S2P Require Import Prelude Types Codec Store.

Definition MAX_SIGNED_TRANSACTION_BYTES : N := 131072.
Definition NATIVE_TRANSFER_GAS : N := 21000.
Definition HTLC_LOCK_GAS_LIMIT : N := 180000.
Definition HTLC_REDEEM_GAS_LIMIT : N := 100000.
Definition HTLC_REFUND_GAS_LIMIT : N := 100000.
Definition ETHEREUM_SYNC_RUNTIME_RELEASE_QUALIFIED : bool := false.
Definition ETHEREUM_VALUE_RUNTIME_RELEASE_QUALIFIED : bool := false.
Definition ETHEREUM_SETTLEMENT_RUNTIME_RELEASE_QUALIFIED : bool := false.
Definition ETHEREUM_MAINNET_RUNTIME_RELEASE_QUALIFIED : bool := false.

(** ** Capabilities of the chain *)

Inductive HashAlgorithm := HashSha256 | HashKeccak256.
Inductive LocktimeModel := LocktimeNone | LocktimeBlockHeight | LocktimeUnixTime | SmartContractTimestamp.
Inductive FeeModel := WeightRate | GasAndPriority.

Record ChainCapabilities := mkChainCapabilities {
  receive : bool;
  send : bool;
  history : bool;
  atomic_settlement : bool;
  hash_algorithm : HashAlgorithm;
  locktime_model : LocktimeModel;
  finality_model : FinalityModel;
  fee_model : FeeModel;
}.

Definition ethereum_capabilities : ChainCapabilities := {|
  receive := true;
  send := ETHEREUM_SYNC_RUNTIME_RELEASE_QUALIFIED && ETHEREUM_VALUE_RUNTIME_RELEASE_QUALIFIED;
  history := ETHEREUM_SYNC_RUNTIME_RELEASE_QUALIFIED;
  atomic_settlement := ETHEREUM_SYNC_RUNTIME_RELEASE_QUALIFIED
    && ETHEREUM_VALUE_RUNTIME_RELEASE_QUALIFIED
    && ETHEREUM_SETTLEMENT_RUNTIME_RELEASE_QUALIFIED;
  hash_algorithm := HashSha256;
  locktime_model := SmartContractTimestamp;
  finality_model := EthereumFinalizedCheckpoint;
  fee_model := GasAndPriority;
|}.

(** ** Errors *)

Module EthereumError.
Inductive t :=
| InvalidRecoveryPhrase | MissingSeed | KeyDerivation | InvalidAddress | InvalidHeliosPolicy
| SynchronizationUnavailable | ValueOperationsDisabled | SettlementOperationsDisabled | ChainIdMismatch
| UnverifiedExecutionEvidence | InvalidContractPolicy | MainnetQualificationRequired | ContractMismatch
| BytecodeHashMismatch | InvalidHtlc | InvalidSettlementEvidence | EventMismatch | InvalidTransaction
| InvalidAmount | ArbitraryCalldataForbidden | InvalidPreimage | FeeLimit | RuntimePermitMismatch
| SignerRoleMismatch | SignerAddressMismatch | Arithmetic | Signing | TransactionTooLarge | Store.
End EthereumError.
Abbreviation fallible A := (result A EthereumError.t).

(** ** Addresses *)

(** Twenty bytes. *)
Abbreviation EthereumAddress := bytes.
Definition zero_address : EthereumAddress := replicate 20 x00.
Definition zero32 : bytes := replicate 32 x00.

Definition ALPHABET : bytes := str_bytes "0123456789abcdef".

Definition hex_encode (bs : bytes) : bytes :=
  flat_map (fun byte => [nth (N.to_nat (N.shiftr (Byte.to_N byte) 4)) ALPHABET x00;
                         nth (N.to_nat (N.land (Byte.to_N byte) 15)) ALPHABET x00]) bs.

Definition hex_digit (value : u8) : fallible N :=
  let v := Byte.to_N value in
  if (48 <=? v) && (v <=? 57) then Ok (v - 48)
  else if (97 <=? v) && (v <=? 102) then Ok (v - 97 + 10)
  else if (65 <=? v) && (v <=? 70) then Ok (v - 65 + 10)
  else Err EthereumError.InvalidAddress.

(** [chunks_exact(2)]: a last odd byte is left out. *)
Fixpoint hex_pairs (value : bytes) : fallible bytes :=
  match value with
  | high :: low :: rest =>
      let* h := hex_digit high in
      let* l := hex_digit low in
      let* output := hex_pairs rest in
      Ok (byte_of_N (N.lor (N.shiftl h 4) l) :: output)
  | _ => Ok []
  end.

Definition hex_decode (value : bytes) (output_len : N) : fallible bytes :=
  if negb (len value =? output_len * 2) then Err EthereumError.InvalidAddress else hex_pairs value.

(** [strip_prefix("0x").unwrap_or(value)]. *)
Definition unprefixed (value : bytes) : bytes :=
  match value with
  | a :: b :: rest => if bool_decide ([a; b] = str_bytes "0x") then rest else value
  | _ => value
  end.

Definition parse (value : string) : fallible EthereumAddress :=
  let unprefixed := unprefixed (str_bytes value) in
  if negb (len unprefixed =? 40) then Err EthereumError.InvalidAddress else hex_decode unprefixed 20.

(** [Display]; also the serialized form, which is read back with [parse]. *)
Definition display (a : EthereumAddress) : string :=
  String.string_of_list_byte (str_bytes "0x" ++ hex_encode a).

(** ** RLP *)

(** [&bytes[first..]] with [first] the position of the first byte that is not 0. *)
Fixpoint strip_zeros (bs : bytes) : bytes :=
  match bs with
  | b :: rest => if bool_decide (b = x00) then strip_zeros rest else bs
  | [] => []
  end.

Definition rlp_length (length : N) (short_offset long_offset : N) : bytes :=
  if length <=? 55 then [byte_of_N (short_offset + length)] else
  let length_bytes := strip_zeros (to_be_bytes 8 length) in
  byte_of_N (long_offset + len length_bytes) :: length_bytes.

Definition rlp_bytes (bs : bytes) : bytes :=
  match bs with
  | [b] => if Byte.to_N b <? 0x80 then bs else rlp_length (len bs) 0x80 0xb7 ++ bs
  | _ => rlp_length (len bs) 0x80 0xb7 ++ bs
  end.

Definition rlp_integer_bytes (bs : bytes) : bytes := rlp_bytes (strip_zeros bs).

Definition rlp_u128 (value : N) : bytes :=
  if value =? 0 then [x80] else rlp_integer_bytes (to_be_bytes 16 value).

Definition rlp_list (fields : list bytes) : bytes :=
  rlp_length (len (concat fields)) 0xc0 0xf7 ++ concat fields.

(** ** Words of the contract ABI *)

Definition abi_address (address : EthereumAddress) : bytes := replicate 12 x00 ++ address.
Definition abi_u64 (value : N) : bytes := replicate 24 x00 ++ to_be_bytes 8 value.
Definition abi_u128 (value : N) : bytes := replicate 16 x00 ++ to_be_bytes 16 value.

(** ** Keys *)

Inductive EthereumKeyRole := RoleWallet | AtomicSwap.
#[global] Instance EthereumKeyRole_eq_dec : EqDecision EthereumKeyRole.
Proof. solve_decision. Defined.

(** The libraries: digests, secp256k1, recovery phrases and key derivation. *)
Class EthereumEnv := {
  keccak256 : bytes -> bytes;
  sha256 : bytes -> bytes;
  SigningKey : Type;
  (** [SigningKey::from_slice]. *)
  signing_key : bytes -> option SigningKey;
  (** [VerifyingKey::from] and [to_sec1_point(false)]. *)
  uncompressed_point : SigningKey -> bytes;
  (** [sign_prehash_recoverable]: the signature's bytes, and of its recovery
      identifier [is_x_reduced] and [to_byte]. *)
  sign_prehash_recoverable : SigningKey -> bytes -> bytes * bool * N;
  (** [Mnemonic::parse_in_normalized] in English and [to_seed_normalized] without
      a passphrase. *)
  phrase_seed : string -> option bytes;
  DerivationPath : Type;
  path_from_str : string -> option DerivationPath;
  Xpriv : Type;
  new_master : bytes -> option Xpriv;
  (** [derive_priv], then the bytes of the private key. *)
  derive_priv : Xpriv -> DerivationPath -> option bytes;
}.

Class EthereumLaws `{EthereumEnv} := {
  keccak256_length : forall b, length (keccak256 b) = 32%nat;
  signature_length : forall k d, length (sign_prehash_recoverable k d).1.1 = 64%nat;
}.

Record EthereumSecretKey := mkSecretKey {
  material : bytes;
  address : EthereumAddress;
  role : EthereumKeyRole;
}.

Record EthereumAccount := mkEthereumAccount {
  acct_address : EthereumAddress;
  acct_role : EthereumKeyRole;
  account_index : N;
  address_index : N;
}.

(** The opaque permits. *)
Inductive EthereumValueRuntimePermit := ValuePermit.
Inductive EthereumSettlementRuntimePermit := SettlementPermit.
Inductive HeliosEvidenceRuntimePermit := HeliosPermit.

Definition ethereum_value_runtime_permit : fallible EthereumValueRuntimePermit :=
  if negb ETHEREUM_VALUE_RUNTIME_RELEASE_QUALIFIED then Err EthereumError.ValueOperationsDisabled else
  if negb ETHEREUM_SYNC_RUNTIME_RELEASE_QUALIFIED then Err EthereumError.SynchronizationUnavailable else
  Ok ValuePermit.

Definition ethereum_settlement_runtime_permit : fallible EthereumSettlementRuntimePermit :=
  if negb ETHEREUM_SETTLEMENT_RUNTIME_RELEASE_QUALIFIED
  then Err EthereumError.SettlementOperationsDisabled else
  if negb ETHEREUM_VALUE_RUNTIME_RELEASE_QUALIFIED then Err EthereumError.ValueOperationsDisabled else
  if negb ETHEREUM_SYNC_RUNTIME_RELEASE_QUALIFIED then Err EthereumError.SynchronizationUnavailable else
  Ok SettlementPermit.

Section Keys.
Context `{EthereumEnv}.

Definition address_from_verifying_key (key : SigningKey) : EthereumAddress :=
  drop 12 (keccak256 (drop 1 (uncompressed_point key))).

Definition derivation_path (r : EthereumKeyRole) (account_index address_index : N) : string :=
  let branch := match r with RoleWallet => "0" | AtomicSwap => "1" end in
  "m/44'/60'/" +:+ pretty account_index +:+ "'/" +:+ branch +:+ "/" +:+ pretty address_index.

Definition derive_account (seed : bytes) (r : EthereumKeyRole) (account_index address_index : N) :
    fallible (EthereumAccount * EthereumSecretKey) :=
  let* path := ok_or (path_from_str (derivation_path r account_index address_index))
                 EthereumError.KeyDerivation in
  let* root := ok_or (new_master seed) EthereumError.KeyDerivation in
  let* secret_bytes := ok_or (derive_priv root path) EthereumError.KeyDerivation in
  let* signing := ok_or (signing_key secret_bytes) EthereumError.KeyDerivation in
  let address := address_from_verifying_key signing in
  Ok (mkEthereumAccount address r account_index address_index, mkSecretKey secret_bytes address r).

Definition derive_account_from_phrase (phrase : string) (r : EthereumKeyRole) (account_index address_index : N) :
    fallible (EthereumAccount * EthereumSecretKey) :=
  let* seed := ok_or (phrase_seed phrase) EthereumError.InvalidRecoveryPhrase in
  derive_account seed r account_index address_index.

Definition derive_account_from_store `{StoreEnv} (store : WalletStore) (wallet_id : bytes) (r : EthereumKeyRole)
    (account_index address_index : N) : fallible (EthereumAccount * EthereumSecretKey) :=
  let* found := map_err (fun _ => EthereumError.Store) (get_secret store wallet_id SecretKind.RecoverySeed) in
  let* seed := ok_or found EthereumError.MissingSeed in
  derive_account seed r account_index address_index.
End Keys.

(** ** Policies and evidence *)

Record HeliosPolicy := mkHeliosPolicy {
  hp_chain_id : N;
  weak_subjectivity_checkpoint : bytes;
  checkpoint_age_limit_seconds : N;
  expected_genesis_validators_root : bytes;
  execution_provider_count : N;
  consensus_provider_count : N;
}.

Definition helios_validate (p : HeliosPolicy) : fallible unit :=
  if (hp_chain_id p =? 0) || bool_decide (weak_subjectivity_checkpoint p = zero32)
     || bool_decide (expected_genesis_validators_root p = zero32)
     || (checkpoint_age_limit_seconds p =? 0) || (execution_provider_count p =? 0)
     || (consensus_provider_count p =? 0)
  then Err EthereumError.InvalidHeliosPolicy else Ok tt.

Record HeliosExecutionEvidence := mkExecutionEvidence {
  ex_chain_id : N;
  block_number : N;
  block_hash : bytes;
  state_root : bytes;
  receipts_root : bytes;
  finalized_checkpoint_root : bytes;
  consensus_finality_verified : bool;
  execution_header_verified : bool;
  account_proof_verified : bool;
  code_proof_verified : bool;
  receipt_proof_verified : bool;
  transaction_inclusion_verified : bool;
}.

Definition execution_validate (e : HeliosExecutionEvidence) (policy : HeliosPolicy) : fallible unit :=
  let* _ := helios_validate policy in
  if negb (ex_chain_id e =? hp_chain_id policy) then Err EthereumError.ChainIdMismatch else
  if bool_decide (block_hash e = zero32) || bool_decide (state_root e = zero32)
     || bool_decide (receipts_root e = zero32) || bool_decide (finalized_checkpoint_root e = zero32)
     || negb (consensus_finality_verified e) || negb (execution_header_verified e)
     || negb (account_proof_verified e) || negb (code_proof_verified e)
     || negb (receipt_proof_verified e) || negb (transaction_inclusion_verified e)
  then Err EthereumError.UnverifiedExecutionEvidence else Ok tt.

Record EthereumHtlcDeploymentPolicy := mkDeployment {
  dp_chain_id : N;
  contract_address : EthereumAddress;
  dp_runtime_code_hash : bytes;
  deployment_block : N;
  mainnet_settlement_enabled : bool;
}.

Definition deployment_validate (d : EthereumHtlcDeploymentPolicy) : fallible unit :=
  if (dp_chain_id d =? 0) || bool_decide (contract_address d = zero_address)
     || bool_decide (dp_runtime_code_hash d = zero32)
  then Err EthereumError.InvalidContractPolicy else
  if mainnet_settlement_enabled d
     || ((dp_chain_id d =? 1) && negb ETHEREUM_MAINNET_RUNTIME_RELEASE_QUALIFIED)
  then Err EthereumError.MainnetQualificationRequired else Ok tt.

Record ExpectedEthereumLock := mkExpectedLock {
  swap_id : bytes;
  hashlock : bytes;
  receiver : EthereumAddress;
  refund_address : EthereumAddress;
  amount_wei : N;
  timelock_unix : N;
}.
#[global] Instance ExpectedEthereumLock_eq_dec : EqDecision ExpectedEthereumLock.
Proof. solve_decision. Defined.

Definition lock_validate (l : ExpectedEthereumLock) : fallible unit :=
  if bool_decide (swap_id l = zero32) || bool_decide (hashlock l = zero32)
     || bool_decide (receiver l = zero_address) || bool_decide (refund_address l = zero_address)
     || bool_decide (receiver l = refund_address l) || (amount_wei l =? 0) || (timelock_unix l =? 0)
  then Err EthereumError.InvalidHtlc else Ok tt.

Inductive ContractLockStatus := Locked | Redeemed | Refunded.
#[global] Instance ContractLockStatus_eq_dec : EqDecision ContractLockStatus.
Proof. solve_decision. Defined.

Record EthereumLog := mkLog {
  log_address : EthereumAddress;
  topics : list bytes;
  data : bytes;
}.
#[global] Instance EthereumLog_eq_dec : EqDecision EthereumLog.
Proof. solve_decision. Defined.

Record EthereumLockEvidence := mkLockEvidence {
  execution : HeliosExecutionEvidence;
  transaction_hash : bytes;
  transaction_to : EthereumAddress;
  transaction_value_wei : N;
  receipt_succeeded : bool;
  lock_state : ExpectedEthereumLock;
  state_status : ContractLockStatus;
  evidence_log : EthereumLog;
  deployed_runtime_code : bytes;
}.

Record VerifiedEthereumLock := mkVerifiedLock {
  vl_transaction_hash : bytes;
  vl_block_hash : bytes;
  vl_block_number : N;
  vl_terms : ExpectedEthereumLock;
}.

Section Evidence.
Context `{EthereumEnv}.

Definition runtime_code_hash (runtime_code : bytes) : fallible bytes :=
  if is_empty runtime_code then Err EthereumError.BytecodeHashMismatch else Ok (keccak256 runtime_code).

Definition verify_runtime_code (d : EthereumHtlcDeploymentPolicy) (chain_id : N) (address : EthereumAddress)
    (runtime_code : bytes) : fallible unit :=
  let* _ := deployment_validate d in
  if negb (chain_id =? dp_chain_id d) then Err EthereumError.ChainIdMismatch else
  if negb (bool_decide (address = contract_address d)) || is_empty runtime_code
  then Err EthereumError.ContractMismatch else
  if negb (bool_decide (keccak256 runtime_code = dp_runtime_code_hash d))
  then Err EthereumError.BytecodeHashMismatch else Ok tt.

Definition locked_log (terms : ExpectedEthereumLock) (contract : EthereumAddress) : EthereumLog := {|
  log_address := contract;
  topics := [keccak256 (str_bytes "Locked(bytes32,bytes32,address,address,uint256,uint64)");
             swap_id terms; hashlock terms; abi_address (receiver terms)];
  data := abi_address (refund_address terms) ++ abi_u128 (amount_wei terms) ++ abi_u64 (timelock_unix terms);
|}.

Definition verify_locked_log (actual : EthereumLog) (contract : EthereumAddress) (terms : ExpectedEthereumLock) :
    fallible unit :=
  if bool_decide (actual = locked_log terms contract) then Ok tt else Err EthereumError.EventMismatch.

Definition verify_ethereum_lock (provenance : HeliosEvidenceRuntimePermit)
    (settlement_permit : EthereumSettlementRuntimePermit) (helios : HeliosPolicy)
    (deployment : EthereumHtlcDeploymentPolicy) (expected : ExpectedEthereumLock)
    (evidence : EthereumLockEvidence) : fallible VerifiedEthereumLock :=
  let* _ := lock_validate expected in
  let* _ := execution_validate (execution evidence) helios in
  let* _ := verify_runtime_code deployment (ex_chain_id (execution evidence)) (transaction_to evidence)
              (deployed_runtime_code evidence) in
  if (block_number (execution evidence) <? deployment_block deployment)
     || bool_decide (transaction_hash evidence = zero32)
     || negb (transaction_value_wei evidence =? amount_wei expected)
     || negb (receipt_succeeded evidence)
     || negb (bool_decide (state_status evidence = Locked))
     || negb (bool_decide (lock_state evidence = expected))
  then Err EthereumError.InvalidSettlementEvidence else
  let* _ := verify_locked_log (evidence_log evidence) (contract_address deployment) expected in
  Ok {| vl_transaction_hash := transaction_hash evidence;
        vl_block_hash := block_hash (execution evidence);
        vl_block_number := block_number (execution evidence);
        vl_terms := expected |}.
End Evidence.

(** ** Operations and transactions *)

Inductive EthereumOperationClass := NativeValue | Settlement.
#[global] Instance EthereumOperationClass_eq_dec : EqDecision EthereumOperationClass.
Proof. solve_decision. Defined.

Inductive EthereumOperation :=
| NativeTransfer (signer : EthereumAddress)
| HtlcLock (terms : ExpectedEthereumLock)
| HtlcRedeem (id preimage : bytes) (to : EthereumAddress)
| HtlcRefund (id : bytes) (to : EthereumAddress).

Inductive EthereumSigningPermit :=
| PermitValue (permit : EthereumValueRuntimePermit)
| PermitSettlement (permit : EthereumSettlementRuntimePermit).

Record PreparedEip1559Transaction := mkPrepared {
  chain_id : N;
  nonce : N;
  max_priority_fee_per_gas : N;
  max_fee_per_gas : N;
  gas_limit : N;
  to : EthereumAddress;
  value_wei : N;
  operation : EthereumOperation;
}.

Record FeeBoundEip1559Transaction := mkFeeBound {
  transaction : PreparedEip1559Transaction;
  approved_maximum_fee_wei : N;
}.

Record SignedEip1559Transaction := mkSigned {
  encoded : bytes;
  signed_hash : bytes;
}.

Definition class (op : EthereumOperation) : EthereumOperationClass :=
  match op with
  | NativeTransfer _ => NativeValue
  | HtlcLock _ | HtlcRedeem _ _ _ | HtlcRefund _ _ => Settlement
  end.

Definition required_role (op : EthereumOperation) : EthereumKeyRole :=
  match op with
  | NativeTransfer _ => RoleWallet
  | HtlcLock _ | HtlcRedeem _ _ _ | HtlcRefund _ _ => AtomicSwap
  end.

Definition required_signer (op : EthereumOperation) : EthereumAddress :=
  match op with
  | NativeTransfer signer => signer
  | HtlcLock terms => refund_address terms
  | HtlcRedeem _ _ receiver => receiver
  | HtlcRefund _ refund_address => refund_address
  end.

Definition transaction_validate (t : PreparedEip1559Transaction) : fallible unit :=
  if (chain_id t =? 1) && negb ETHEREUM_MAINNET_RUNTIME_RELEASE_QUALIFIED
  then Err EthereumError.MainnetQualificationRequired else
  if (chain_id t =? 0) || bool_decide (to t = zero_address) || (max_priority_fee_per_gas t =? 0)
     || (max_fee_per_gas t <? max_priority_fee_per_gas t) || (gas_limit t =? 0)
  then Err EthereumError.InvalidTransaction else
  match operation t with
  | NativeTransfer signer =>
      if bool_decide (signer = zero_address) then Err EthereumError.InvalidAddress else
      if value_wei t =? 0 then Err EthereumError.InvalidAmount else
      if negb (gas_limit t =? NATIVE_TRANSFER_GAS) then Err EthereumError.ArbitraryCalldataForbidden
      else Ok tt
  | HtlcLock terms =>
      if negb (value_wei t =? amount_wei terms) || negb (gas_limit t =? HTLC_LOCK_GAS_LIMIT)
      then Err EthereumError.InvalidHtlc else Ok tt
  | HtlcRedeem _ _ _ =>
      if negb (value_wei t =? 0) || negb (gas_limit t =? HTLC_REDEEM_GAS_LIMIT)
      then Err EthereumError.InvalidHtlc else Ok tt
  | HtlcRefund _ _ =>
      if negb (value_wei t =? 0) || negb (gas_limit t =? HTLC_REFUND_GAS_LIMIT)
      then Err EthereumError.InvalidHtlc else Ok tt
  end.

Definition native_transfer (permit : EthereumValueRuntimePermit) (chain_id nonce : N)
    (signer to : EthereumAddress) (value_wei max_priority_fee_per_gas max_fee_per_gas : N) :
    fallible PreparedEip1559Transaction :=
  let transaction := mkPrepared chain_id nonce max_priority_fee_per_gas max_fee_per_gas
    NATIVE_TRANSFER_GAS to value_wei (NativeTransfer signer) in
  let* _ := transaction_validate transaction in
  Ok transaction.

Definition htlc_lock (permit : EthereumSettlementRuntimePermit) (deployment : EthereumHtlcDeploymentPolicy)
    (nonce : N) (terms : ExpectedEthereumLock) (max_priority_fee_per_gas max_fee_per_gas : N) :
    fallible PreparedEip1559Transaction :=
  let* _ := deployment_validate deployment in
  let* _ := lock_validate terms in
  let transaction := mkPrepared (dp_chain_id deployment) nonce max_priority_fee_per_gas max_fee_per_gas
    HTLC_LOCK_GAS_LIMIT (contract_address deployment) (amount_wei terms) (HtlcLock terms) in
  let* _ := transaction_validate transaction in
  Ok transaction.

Definition htlc_redeem `{EthereumEnv} (permit : EthereumSettlementRuntimePermit)
    (deployment : EthereumHtlcDeploymentPolicy) (nonce : N) (terms : ExpectedEthereumLock) (preimage : bytes)
    (max_priority_fee_per_gas max_fee_per_gas : N) : fallible PreparedEip1559Transaction :=
  let* _ := deployment_validate deployment in
  let* _ := lock_validate terms in
  if negb (bool_decide (sha256 preimage = hashlock terms)) then Err EthereumError.InvalidPreimage else
  let transaction := mkPrepared (dp_chain_id deployment) nonce max_priority_fee_per_gas max_fee_per_gas
    HTLC_REDEEM_GAS_LIMIT (contract_address deployment) 0
    (HtlcRedeem (swap_id terms) preimage (receiver terms)) in
  let* _ := transaction_validate transaction in
  Ok transaction.

Definition htlc_refund (permit : EthereumSettlementRuntimePermit) (deployment : EthereumHtlcDeploymentPolicy)
    (nonce : N) (terms : ExpectedEthereumLock) (max_priority_fee_per_gas max_fee_per_gas : N) :
    fallible PreparedEip1559Transaction :=
  let* _ := deployment_validate deployment in
  let* _ := lock_validate terms in
  let transaction := mkPrepared (dp_chain_id deployment) nonce max_priority_fee_per_gas max_fee_per_gas
    HTLC_REFUND_GAS_LIMIT (contract_address deployment) 0
    (HtlcRefund (swap_id terms) (refund_address terms)) in
  let* _ := transaction_validate transaction in
  Ok transaction.

Definition maximum_fee_wei (t : PreparedEip1559Transaction) : fallible N :=
  ok_or (checked_mul U128_MAX (max_fee_per_gas t) (gas_limit t)) EthereumError.Arithmetic.

Definition bind_fee_limit (t : PreparedEip1559Transaction) (limit : N) : fallible FeeBoundEip1559Transaction :=
  let* _ := transaction_validate t in
  let* maximum := maximum_fee_wei t in
  if limit <? maximum then Err EthereumError.FeeLimit else Ok (mkFeeBound t limit).

(** ** Signing *)

Section Signing.
Context `{EthereumEnv}.

Definition selector (signature : string) : bytes := take 4 (keccak256 (str_bytes signature)).

Definition calldata (op : EthereumOperation) : bytes :=
  match op with
  | NativeTransfer _ => []
  | HtlcLock terms =>
      selector "lock(bytes32,bytes32,address,address,uint64)" ++ swap_id terms ++ hashlock terms
      ++ abi_address (receiver terms) ++ abi_address (refund_address terms) ++ abi_u64 (timelock_unix terms)
  | HtlcRedeem id preimage _ => selector "redeem(bytes32,bytes32)" ++ id ++ preimage
  | HtlcRefund id _ => selector "refund(bytes32)" ++ id
  end.

Definition rlp_fields (t : PreparedEip1559Transaction) (data : bytes) (signature : option (bytes * N)) :
    list bytes :=
  [rlp_u128 (chain_id t); rlp_u128 (nonce t); rlp_u128 (max_priority_fee_per_gas t);
   rlp_u128 (max_fee_per_gas t); rlp_u128 (gas_limit t); rlp_bytes (to t); rlp_u128 (value_wei t);
   rlp_bytes data; rlp_list []]
  ++ match signature with
     | Some (bs, recovery) =>
         [rlp_u128 (N.land recovery 1); rlp_integer_bytes (take 32 bs); rlp_integer_bytes (drop 32 bs)]
     | None => []
     end.

Definition signing_payload (t : PreparedEip1559Transaction) : bytes :=
  x02 :: rlp_list (rlp_fields t (calldata (operation t)) None).

Definition prepared_sign (t : PreparedEip1559Transaction) (secret : EthereumSecretKey) (approved : N) :
    fallible SignedEip1559Transaction :=
  let* _ := transaction_validate t in
  let* maximum := maximum_fee_wei t in
  if approved <? maximum then Err EthereumError.FeeLimit else
  if negb (bool_decide (role secret = required_role (operation t)))
  then Err EthereumError.SignerRoleMismatch else
  if negb (bool_decide (address secret = required_signer (operation t)))
  then Err EthereumError.SignerAddressMismatch else
  let* signing := ok_or (signing_key (material secret)) EthereumError.Signing in
  if negb (bool_decide (address_from_verifying_key signing = address secret))
  then Err EthereumError.SignerAddressMismatch else
  let data := calldata (operation t) in
  let digest := keccak256 (signing_payload t) in
  let '(signature, is_x_reduced, recovery) := sign_prehash_recoverable signing digest in
  if is_x_reduced then Err EthereumError.Signing else
  let encoded := x02 :: rlp_list (rlp_fields t data (Some (signature, recovery))) in
  if MAX_SIGNED_TRANSACTION_BYTES <? len encoded then Err EthereumError.TransactionTooLarge else
  Ok (mkSigned encoded (keccak256 encoded)).

Definition fee_bound_sign (bound : FeeBoundEip1559Transaction) (permit : EthereumSigningPermit)
    (secret : EthereumSecretKey) : fallible SignedEip1559Transaction :=
  let permitted_class := match permit with PermitValue _ => NativeValue | PermitSettlement _ => Settlement end in
  if negb (bool_decide (permitted_class = class (operation (transaction bound))))
  then Err EthereumError.RuntimePermitMismatch else
  prepared_sign (transaction bound) secret (approved_maximum_fee_wei bound).
End Signing.
