(* ===== verification/EthereumTheorems.v ===== *)
(** * Properties of the Ethereum module

    Addresses read back as they are written; a signed transaction decodes to the
    approved one; a signing payload belongs to one transaction; a lock is verified
    exactly on full evidence. *)

From Stdlib Require Import Strings.Byte.
From S2P Require Import Prelude Types Codec Store Ethereum.

(** ** RLP, as a reader sees it *)

Inductive item := Str (b : bytes) | Lst (l : list item).

(** A payload and what follows it: up to 55 bytes the length is in the first byte
    [v], else [v] has the length of the length. *)
Definition split_payload (short long v : N) (rest : bytes) : option (bytes * bytes) :=
  let k := N.to_nat (v - long) in
  let n := if v <=? long then v - short else from_be_bytes (take k rest) in
  let rest := if v <=? long then rest else drop k rest in
  if len rest <? n then None else Some (take (N.to_nat n) rest, drop (N.to_nat n) rest).

(** The items of a concatenation. *)
Fixpoint decode_items (fuel : nat) (bs : bytes) : option (list item) :=
  match fuel, bs with
  | O, _ => None
  | S _, [] => Some []
  | S n, b :: rest =>
      let v := Byte.to_N b in
      if v <? 0x80 then cons (Str [b]) <$> decode_items n rest
      else if v <? 0xc0 then
        match split_payload 0x80 0xb7 v rest with
        | Some (payload, rest) => cons (Str payload) <$> decode_items n rest
        | None => None
        end
      else
        match split_payload 0xc0 0xf7 v rest with
        | Some (payload, rest) =>
            match decode_items n payload with
            | Some l => cons (Lst l) <$> decode_items n rest
            | None => None
            end
        | None => None
        end
  end.

Fixpoint encode_item (i : item) : bytes :=
  match i with
  | Str b => rlp_bytes b
  | Lst l => rlp_list (map encode_item l)
  end.
Definition encode_items (l : list item) : bytes := concat (map encode_item l).

Lemma strip_zeros_value bs : from_be_bytes (strip_zeros bs) = from_be_bytes bs.
Proof. unfold from_be_bytes. induction bs as [|b bs IH]; simpl; [done|]. case_bool_decide; [by subst|done]. Qed.

Lemma strip_zeros_length bs : (length (strip_zeros bs) <= length bs)%nat.
Proof. induction bs as [|b bs IH]; simpl; [done|]. case_bool_decide; simpl; lia. Qed.

Lemma strip_zeros_nil bs : strip_zeros bs = [] -> from_be_bytes bs = 0.
Proof. intros H. by rewrite <- strip_zeros_value, H. Qed.

(** An integer as RLP has it: big endian, without leading zeros. *)
Definition quantity (v : N) : bytes := strip_zeros (to_be_bytes 16 v).

Lemma quantity_value v : v <= U128_MAX -> from_be_bytes (quantity v) = v.
Proof.
  intros Hv. unfold quantity. rewrite strip_zeros_value. apply from_to_be_bytes. unfold U128_MAX in Hv. simpl. lia.
Qed.

Lemma quantity_inj a b : a <= U128_MAX -> b <= U128_MAX -> quantity a = quantity b -> a = b.
Proof. intros Ha Hb H. by rewrite <- (quantity_value a), <- (quantity_value b), H. Qed.

Lemma rlp_u128_quantity v : rlp_u128 v = rlp_bytes (quantity v).
Proof. unfold rlp_u128. destruct (N.eqb_spec v 0) as [->|_]; [by vm_compute|done]. Qed.

Lemma rlp_length_split p rest short long :
  long = short + 55 -> long + 8 < 256 -> len p <= U64_MAX ->
  exists b tl, rlp_length (len p) short long ++ p ++ rest = b :: tl /\ short <= Byte.to_N b <= long + 8
    /\ split_payload short long (Byte.to_N b) tl = Some (p, rest) /\ len p <= len tl.
Proof.
  intros -> Hl Hp. unfold rlp_length. destruct (N.leb_spec (len p) 55) as [Hs|Hs].
  - eexists _, (p ++ rest). split; [done|]. rewrite byte_to_N_of_N, N.mod_small by lia. split; [lia|].
    unfold split_payload. rewrite (proj2 (N.leb_le _ _)) by lia.
    replace (short + len p - short) with (len p) by lia.
    unfold len. rewrite length_app, (proj2 (N.ltb_ge _ _)), Nat2N.id, take_app_length, drop_app_length by lia.
    split; [done|lia].
  - set (lb := strip_zeros _). assert (from_be_bytes lb = len p) as Hlb.
    { subst lb. rewrite strip_zeros_value. apply from_to_be_bytes. unfold U64_MAX in Hp. simpl. lia. }
    assert (1 <= len lb <= 8) as Hk.
    { split; [destruct lb eqn:E; unfold len; simpl; [change (from_be_bytes []) with 0 in Hlb; lia|lia]|].
      subst lb. unfold len. pose proof (strip_zeros_length (to_be_bytes 8 (len p))) as H.
      rewrite length_to_be_bytes in H. unfold len in H. lia. }
    eexists _, (lb ++ p ++ rest). split; [done|]. rewrite byte_to_N_of_N, N.mod_small by lia. split; [lia|].
    unfold split_payload. rewrite (proj2 (N.leb_gt _ _)) by lia.
    replace (short + 55 + len lb - (short + 55)) with (len lb) by lia.
    assert (N.to_nat (len lb) = length lb) as -> by (unfold len; lia).
    rewrite take_app_length, drop_app_length, Hlb. unfold len. rewrite !length_app, (proj2 (N.ltb_ge _ _)), Nat2N.id, take_app_length, drop_app_length by lia.
    split; [done|lia].
Qed.

Lemma rlp_length_size n short long : (1 <= length (rlp_length n short long))%nat.
Proof. unfold rlp_length. destruct (n <=? 55); cbn [length]; lia. Qed.

Lemma rlp_bytes_size b : (1 <= length (rlp_bytes b) /\ length b <= length (rlp_bytes b))%nat.
Proof.
  assert (forall n, 1 <= length (rlp_length n 0x80 0xb7 ++ b) /\ length b <= length (rlp_length n 0x80 0xb7 ++ b))%nat as H.
  { intros n. rewrite length_app. pose proof (rlp_length_size n 0x80 0xb7). lia. }
  unfold rlp_bytes. destruct b as [|x [|y b]]; [apply H| |apply H]. destruct (_ <? _); [simpl; lia|apply H].
Qed.

Lemma rlp_bytes_first b rest : len b <= U64_MAX ->
  (exists x, b = [x] /\ Byte.to_N x < 0x80 /\ rlp_bytes b ++ rest = x :: rest)
  \/ exists x tl, rlp_bytes b ++ rest = x :: tl /\ 0x80 <= Byte.to_N x < 0xc0
       /\ split_payload 0x80 0xb7 (Byte.to_N x) tl = Some (b, rest).
Proof.
  intros Hb. assert (rlp_bytes b = rlp_length (len b) 0x80 0xb7 ++ b
    \/ exists x, b = [x] /\ Byte.to_N x < 0x80 /\ rlp_bytes b = [x]) as [->|(x & -> & Hx & ->)].
  { unfold rlp_bytes. destruct b as [|x [|y b]]; [by left| |by left]. destruct (N.ltb_spec (Byte.to_N x) 0x80); eauto. }
  - right. rewrite <- (assoc_L (++)). destruct (rlp_length_split b rest 0x80 0xb7) as (x & tl & -> & Hx & Hs & _); [done..|].
    exists x, tl. split_and!; try done; lia.
  - left. eauto.
Qed.

Lemma rlp_list_first p rest : len (concat p) <= U64_MAX ->
  exists x tl, rlp_list p ++ rest = x :: tl /\ 0xc0 <= Byte.to_N x /\ len (concat p) <= len tl
    /\ split_payload 0xc0 0xf7 (Byte.to_N x) tl = Some (concat p, rest).
Proof.
  intros Hb. unfold rlp_list. rewrite <- (assoc_L (++)).
  destruct (rlp_length_split (concat p) rest 0xc0 0xf7) as (x & tl & -> & Hx & Hs & Hl); [done..|].
  exists x, tl. split_and!; try done; lia.
Qed.

(** Reading is the inverse of writing. *)
Lemma decode_encode_items fuel : forall l, (length (encode_items l) < fuel)%nat -> len (encode_items l) <= U64_MAX ->
  decode_items fuel (encode_items l) = Some l.
Proof.
  induction fuel as [|fuel IH]; intros l Hf Hl; [lia|]. destruct l as [|[b|inner] l]; [done|..].
  - change (encode_items (Str b :: l)) with (rlp_bytes b ++ encode_items l) in *.
    pose proof (rlp_bytes_size b) as Hsize.
    assert (len b <= U64_MAX /\ len (encode_items l) <= U64_MAX) as [Hb Hl'].
    { unfold len in *. rewrite length_app in Hl. lia. }
    assert (length (encode_items l) < fuel)%nat as Hf' by (rewrite length_app in Hf; lia).
    destruct (rlp_bytes_first b (encode_items l)) as [(x & -> & Hx & E)|(x & tl & E & Hx & Hs)]; [done|..];
      rewrite E; cbn [decode_items].
    + rewrite (proj2 (N.ltb_lt _ _)) by lia. by rewrite IH.
    + rewrite (proj2 (N.ltb_ge _ _)), (proj2 (N.ltb_lt _ _)), Hs by lia. by rewrite IH.
  - change (encode_items (Lst inner :: l)) with (rlp_list (map encode_item inner) ++ encode_items l) in *.
    assert (length (encode_items inner) + 1 + length (encode_items l)
      <= length (rlp_list (map encode_item inner) ++ encode_items l))%nat as Hsize.
    { unfold rlp_list, encode_items. rewrite !length_app.
      pose proof (rlp_length_size (len (concat (map encode_item inner))) 0xc0 0xf7). lia. }
    destruct (rlp_list_first (map encode_item inner) (encode_items l)) as (x & tl & E & Hx & _ & Hs).
    { unfold len, encode_items in *. lia. }
    rewrite E; cbn [decode_items]. rewrite !(proj2 (N.ltb_ge _ _)), Hs by lia.
    fold (encode_items inner). unfold len in Hl. rewrite IH by (unfold len; lia).
    by rewrite IH by (unfold len; lia).
Qed.

Lemma encode_items_inj a b : len (encode_items a) <= U64_MAX -> len (encode_items b) <= U64_MAX ->
  encode_items a = encode_items b -> a = b.
Proof.
  intros Ha Hb H. pose proof (decode_encode_items (S (length (encode_items a))) a ltac:(lia) Ha) as Da.
  rewrite H, decode_encode_items in Da; [congruence|lia|done].
Qed.

(** ** Transactions *)

(** A transaction as its reader sees it. *)
Definition transaction_items `{EthereumEnv} (t : PreparedEip1559Transaction) (signature : option (bytes * N)) :
    list item :=
  [Str (quantity (chain_id t)); Str (quantity (nonce t)); Str (quantity (max_priority_fee_per_gas t));
   Str (quantity (max_fee_per_gas t)); Str (quantity (gas_limit t)); Str (to t); Str (quantity (value_wei t));
   Str (calldata (operation t)); Lst []]
  ++ match signature with
     | Some (bs, recovery) =>
         [Str (quantity (N.land recovery 1)); Str (strip_zeros (take 32 bs)); Str (strip_zeros (drop 32 bs))]
     | None => []
     end.

(** The ranges of the machine types. *)
Record lock_in_range (l : ExpectedEthereumLock) : Prop := {
  lr_swap_id : length (swap_id l) = 32%nat;
  lr_hashlock : length (hashlock l) = 32%nat;
  lr_receiver : length (receiver l) = 20%nat;
  lr_refund : length (refund_address l) = 20%nat;
  lr_amount : amount_wei l <= U128_MAX;
  lr_timelock : timelock_unix l <= U64_MAX;
}.

Definition operation_in_range (op : EthereumOperation) : Prop :=
  match op with
  | NativeTransfer signer => length signer = 20%nat
  | HtlcLock terms => lock_in_range terms
  | HtlcRedeem id preimage to => length id = 32%nat /\ length preimage = 32%nat /\ length to = 20%nat
  | HtlcRefund id to => length id = 32%nat /\ length to = 20%nat
  end.

Record in_range (t : PreparedEip1559Transaction) : Prop := {
  ir_chain_id : chain_id t <= U64_MAX;
  ir_nonce : nonce t <= U64_MAX;
  ir_priority : max_priority_fee_per_gas t <= U128_MAX;
  ir_fee : max_fee_per_gas t <= U128_MAX;
  ir_gas : gas_limit t <= U64_MAX;
  ir_to : length (to t) = 20%nat;
  ir_value : value_wei t <= U128_MAX;
  ir_operation : operation_in_range (operation t);
}.

(** What the contract is asked to do; who may ask is not part of the calldata. *)
Definition same_effect (a b : EthereumOperation) : Prop :=
  match a, b with
  | NativeTransfer _, NativeTransfer _ => True
  | HtlcLock a, HtlcLock b => a = b
  | HtlcRedeem id preimage _, HtlcRedeem id' preimage' _ => id = id' /\ preimage = preimage'
  | HtlcRefund id _, HtlcRefund id' _ => id = id'
  | _, _ => False
  end.

Section Transactions.
Context `{env : EthereumEnv} `{laws : !EthereumLaws}.
Implicit Types t : PreparedEip1559Transaction.

Lemma rlp_fields_items t signature :
  rlp_fields t (calldata (operation t)) signature = map encode_item (transaction_items t signature).
Proof.
  unfold rlp_fields, transaction_items. rewrite map_app. cbn [map encode_item].
  rewrite <- !rlp_u128_quantity. destruct signature as [[bs recovery]|]; [|done].
  cbn [map encode_item]. by rewrite <- rlp_u128_quantity.
Qed.

Lemma encoded_items t signature :
  rlp_list (rlp_fields t (calldata (operation t)) signature) = encode_items [Lst (transaction_items t signature)].
Proof. rewrite rlp_fields_items. unfold encode_items. cbn [map encode_item concat]. by rewrite app_nil_r. Qed.

Lemma selector_length s : length (selector s) = 4%nat.
Proof. unfold selector. by rewrite length_take, keccak256_length. Qed.

Lemma calldata_length op : operation_in_range op ->
  length (calldata op) = match op with NativeTransfer _ => 0 | HtlcLock _ => 164 | HtlcRedeem _ _ _ => 68
                         | HtlcRefund _ _ => 36 end%nat.
Proof.
  destruct op as [s|l|i p r|i r]; unfold calldata, operation_in_range; [done|intros [H1 H2 H3 H4 _ _]|intros (H1 & H2 & _)|intros [H1 _]];
    unfold abi_address, abi_u64; rewrite ?length_app, ?length_replicate, ?length_to_be_bytes, selector_length; lia.
Qed.

Lemma calldata_effect a b : operation_in_range a -> operation_in_range b -> calldata a = calldata b ->
  match a, b with
  | HtlcLock a, HtlcLock b => amount_wei a = amount_wei b -> a = b
  | _, _ => same_effect a b
  end.
Proof.
  intros Ha Hb H. pose proof (f_equal length H) as Hlen. rewrite !calldata_length in Hlen by done.
  destruct a as [s|l|i p r|i r], b as [s'|l'|i' p' r'|i' r']; try done; unfold calldata in H.
  - destruct Ha as [A1 A2 A3 A4 _ A6], Hb as [B1 B2 B3 B4 _ B6]. unfold abi_address, abi_u64 in H.
    apply app_inj_length_l in H as [_ H]; [|by rewrite !selector_length].
    apply app_inj_length_l in H as [E1 H]; [|by rewrite A1, B1].
    apply app_inj_length_l in H as [E2 H]; [|by rewrite A2, B2].
    apply app_inj_length_l in H as [E3 H]; [|rewrite !length_app, A3, B3; done].
    apply app_inj_length_l in H as [E4 H]; [|rewrite !length_app, A4, B4; done].
    apply (inj (app _)) in E3. apply (inj (app _)) in E4. apply (inj (app _)), u64_be_inj in H; [|done..].
    intros E5. destruct l, l'; simpl in *. by subst.
  - destruct Ha as (A1 & A2 & _), Hb as (B1 & B2 & _).
    apply app_inj_length_l in H as [_ H]; [|by rewrite !selector_length].
    apply app_inj_length_l in H; [done|by rewrite A1, B1].
  - by apply app_inj_length_l in H as [_ H]; [|by rewrite !selector_length].
Qed.

Lemma rlp_length_max n short long : (length (rlp_length n short long) <= 9)%nat.
Proof.
  unfold rlp_length. destruct (n <=? 55); cbn [length]; [lia|].
  pose proof (strip_zeros_length (to_be_bytes 8 n)) as H. rewrite length_to_be_bytes in H. lia.
Qed.

Lemma rlp_bytes_max b : (length (rlp_bytes b) <= 9 + length b)%nat.
Proof.
  unfold rlp_bytes. repeat case_match; subst; rewrite ?length_app; cbn [length]; try lia;
    match goal with |- context [rlp_length ?n ?s ?l] => pose proof (rlp_length_max n s l) end; lia.
Qed.

Lemma quantity_max v : (length (rlp_bytes (quantity v)) <= 25)%nat.
Proof.
  pose proof (rlp_bytes_max (quantity v)) as H. pose proof (strip_zeros_length (to_be_bytes 16 v)) as H'.
  rewrite length_to_be_bytes in H'. unfold quantity in *. lia.
Qed.

Lemma rlp_list_max fields : (length (rlp_list fields) <= 9 + length (concat fields))%nat.
Proof.
  unfold rlp_list. rewrite length_app. pose proof (rlp_length_max (len (concat fields)) 0xc0 0xf7). lia.
Qed.

Lemma transaction_size t signature : in_range t -> (forall bs r, signature = Some (bs, r) -> length bs = 64%nat) ->
  (length (rlp_list (rlp_fields t (calldata (operation t)) signature)) <= 1000)%nat.
Proof.
  intros [_ _ _ _ _ Hto _ Hop] Hs. rewrite rlp_fields_items.
  pose proof (rlp_list_max (map encode_item (transaction_items t signature))) as H.
  unfold transaction_items in H at 2. rewrite map_app, concat_app in H. cbn [map encode_item concat app] in H.
  rewrite !length_app in H. pose proof (calldata_length _ Hop) as Hcall.
  pose proof (quantity_max (chain_id t)). pose proof (quantity_max (nonce t)).
  pose proof (quantity_max (max_priority_fee_per_gas t)). pose proof (quantity_max (max_fee_per_gas t)).
  pose proof (quantity_max (gas_limit t)). pose proof (quantity_max (value_wei t)).
  pose proof (rlp_bytes_max (to t)). pose proof (rlp_bytes_max (calldata (operation t))).
  pose proof (rlp_list_max []) as Hnil. cbn [concat length] in H, Hnil.
  match type of H with context [length (concat (map encode_item ?x))] =>
    assert (length (concat (map encode_item x)) <= 107)%nat as Hx; [|destruct (operation t); lia] end.
  destruct signature as [[bs r]|]; [|simpl; lia]. specialize (Hs bs r eq_refl). cbn [map encode_item concat].
  rewrite !length_app. pose proof (quantity_max (N.land r 1)).
  pose proof (rlp_bytes_max (strip_zeros (take 32 bs))). pose proof (rlp_bytes_max (strip_zeros (drop 32 bs))).
  pose proof (strip_zeros_length (take 32 bs)). pose proof (strip_zeros_length (drop 32 bs)).
  rewrite length_take in *. rewrite length_drop in *. cbn [length]. lia.
Qed.

Lemma payload_fits t : in_range t -> len (encode_items [Lst (transaction_items t None)]) <= U64_MAX.
Proof.
  intros H. rewrite <- encoded_items. pose proof (transaction_size t None H ltac:(done)).
  unfold len, U64_MAX. lia.
Qed.

Lemma payload_items a b : in_range a -> in_range b -> signing_payload a = signing_payload b ->
  transaction_items a None = transaction_items b None.
Proof.
  intros Ha%payload_fits Hb%payload_fits [= H]. rewrite !encoded_items in H.
  apply encode_items_inj in H; [|done..]. generalize dependent (transaction_items a None).
  generalize (transaction_items b None). by intros lb la _ [= ->].
Qed.

(** C9: a signing payload belongs to one transaction. Two transactions in the
    ranges of their types, both valid, whose payloads are equal agree on every
    field of the transaction and on what the contract is asked to do. *)
Theorem signing_payload_injective a b : in_range a -> in_range b ->
  transaction_validate a = Ok tt -> transaction_validate b = Ok tt -> signing_payload a = signing_payload b ->
  chain_id a = chain_id b /\ nonce a = nonce b /\ max_priority_fee_per_gas a = max_priority_fee_per_gas b
  /\ max_fee_per_gas a = max_fee_per_gas b /\ gas_limit a = gas_limit b /\ to a = to b
  /\ value_wei a = value_wei b /\ same_effect (operation a) (operation b).
Proof.
  intros Ha Hb Va Vb H. apply payload_items in H; [|done..].
  injection H as H1 H2 H3 H4 H5 H6 H7 H8. destruct Ha as [A1 A2 A3 A4 A5 A6 A7 A8], Hb as [B1 B2 B3 B4 B5 B6 B7 B8].
  assert (forall n, n <= U64_MAX -> n <= U128_MAX) as Hle by (unfold U64_MAX, U128_MAX; lia).
  apply quantity_inj in H1, H2, H3, H4, H5, H7; auto. split_and!; try done.
  apply calldata_effect in H8; [|done..].
  destruct (operation a) eqn:Ea, (operation b) eqn:Eb; try done. simpl. apply H8.
  unfold transaction_validate in Va, Vb. rewrite Ea in Va. rewrite Eb in Vb.
  repeat (case_match; try done). bool_prop. congruence.
Qed.

(** *** From approval to signature *)

(** The transactions the wallet can build. *)
Inductive prepared t : Prop :=
| PreparedTransfer permit chain_id nonce signer to value priority fee :
    native_transfer permit chain_id nonce signer to value priority fee = Ok t -> prepared t
| PreparedLock permit deployment nonce terms priority fee :
    htlc_lock permit deployment nonce terms priority fee = Ok t -> prepared t
| PreparedRedeem permit deployment nonce terms preimage priority fee :
    htlc_redeem permit deployment nonce terms preimage priority fee = Ok t -> prepared t
| PreparedRefund permit deployment nonce terms priority fee :
    htlc_refund permit deployment nonce terms priority fee = Ok t -> prepared t.

(** A transfer moves an amount and calls nothing; the others call a configured
    contract for valid terms: a lock pays its amount, a redemption shows the preimage
    of the hashlock, and neither it nor a refund pays. *)
Definition purpose t : Prop :=
  match operation t with
  | NativeTransfer _ => calldata (operation t) = [] /\ value_wei t <> 0 /\ gas_limit t = NATIVE_TRANSFER_GAS
  | HtlcLock terms => lock_validate terms = Ok tt /\ value_wei t = amount_wei terms
      /\ gas_limit t = HTLC_LOCK_GAS_LIMIT
      /\ exists deployment, deployment_validate deployment = Ok tt /\ to t = contract_address deployment
  | HtlcRedeem id preimage receiver' => value_wei t = 0 /\ gas_limit t = HTLC_REDEEM_GAS_LIMIT
      /\ exists deployment terms, deployment_validate deployment = Ok tt /\ to t = contract_address deployment
         /\ lock_validate terms = Ok tt /\ id = swap_id terms /\ sha256 preimage = hashlock terms
         /\ receiver' = receiver terms
  | HtlcRefund id refund => value_wei t = 0 /\ gas_limit t = HTLC_REFUND_GAS_LIMIT
      /\ exists deployment terms, deployment_validate deployment = Ok tt /\ to t = contract_address deployment
         /\ lock_validate terms = Ok tt /\ id = swap_id terms /\ refund = refund_address terms
  end.

Lemma prepared_purpose t : prepared t -> purpose t /\ transaction_validate t = Ok tt.
Proof.
  intros Ht. assert (transaction_validate t = Ok tt) as Hv.
  { destruct Ht as [???????? H|?????? H|??????? H|?????? H];
      [unfold native_transfer in H|unfold htlc_lock in H|unfold htlc_redeem in H|unfold htlc_refund in H];
      repeat (case_match; simplify_eq; try done); by repeat match goal with u : unit |- _ => destruct u end. }
  split; [|done]. unfold transaction_validate in Hv.
  destruct Ht as [???????? H|?????? H|??????? H|?????? H];
    [unfold native_transfer in H|unfold htlc_lock in H|unfold htlc_redeem in H|unfold htlc_refund in H];
    cbv zeta in H; repeat (case_match; simplify_eq; try done); unfold purpose; cbn in *; simplify_eq;
    repeat match goal with u : unit |- _ => destruct u end; bool_prop; eauto 10.
Qed.

(** C10: what is signed is what was approved. If a prepared transaction is bound to
    a fee limit and signed, its highest possible fee is within the limit; it is not
    for the main network; it serves its purpose; the permit is for its class of
    operation; the key has the role of the operation and is the required signer's;
    and the encoding is type 2 and reads back as exactly the fields of the
    transaction followed by the key's signature of its payload. *)
Theorem signed_as_approved t limit bound permit secret signed :
  prepared t -> bind_fee_limit t limit = Ok bound -> fee_bound_sign bound permit secret = Ok signed ->
  max_fee_per_gas t * gas_limit t <= limit /\ chain_id t <> 1 /\ purpose t
  /\ class (operation t) = match permit with PermitValue _ => NativeValue | PermitSettlement _ => Settlement end
  /\ role secret = required_role (operation t)
  /\ signed_hash signed = keccak256 (encoded signed) /\ len (encoded signed) <= MAX_SIGNED_TRANSACTION_BYTES
  /\ exists key signature recovery, signing_key (material secret) = Some key
     /\ address_from_verifying_key key = required_signer (operation t)
     /\ sign_prehash_recoverable key (keccak256 (signing_payload t)) = (signature, false, recovery)
     /\ exists content, encoded signed = x02 :: content
        /\ decode_items (S (length content)) content = Some [Lst (transaction_items t (Some (signature, recovery)))].
Proof.
  intros Ht Hb Hs. apply prepared_purpose in Ht as [Hp Hv].
  unfold bind_fee_limit, maximum_fee_wei in Hb. rewrite Hv in Hb. cbn in Hb.
  destruct (checked_mul _ _ _) as [fee|] eqn:Hfee; [|done]. cbn in Hb. destruct (N.ltb_spec limit fee); [done|].
  injection Hb as <-. unfold fee_bound_sign, prepared_sign, maximum_fee_wei in Hs. cbn [transaction approved_maximum_fee_wei] in Hs.
  rewrite Hv, Hfee in Hs. cbn [ok_or] in Hs.
  case_bool_decide as Hclass; [|done]. cbn [negb] in Hs. rewrite (proj2 (N.ltb_ge _ _)) in Hs by lia.
  case_bool_decide as Hrole; [|done]. case_bool_decide as Haddr; [|done]. cbn [negb] in Hs.
  destruct (signing_key (material secret)) as [key|] eqn:Hkey; [|done]. cbn [ok_or] in Hs.
  case_bool_decide as Hk; [|done]. cbn [negb] in Hs.
  destruct (sign_prehash_recoverable key _) as [[signature []] recovery] eqn:Hsig; [done|].
  destruct (N.ltb_spec MAX_SIGNED_TRANSACTION_BYTES (len (x02 :: rlp_list (rlp_fields t (calldata (operation t)) (Some (signature, recovery)))))) as [|Hlen]; [done|].
  injection Hs as <-. cbn [encoded signed_hash].
  unfold checked_mul in Hfee. destruct (N.leb_spec (max_fee_per_gas t * gas_limit t) U128_MAX); [|done]. injection Hfee as <-.
  split_and!; try done.
  - intros E. unfold transaction_validate in Hv. by rewrite E in Hv.
  - exists key, signature, recovery. split_and!; try done; [congruence|]. eexists. split; [done|].
    rewrite encoded_items in Hlen |- *. apply decode_encode_items; [lia|].
    unfold len, MAX_SIGNED_TRANSACTION_BYTES, U64_MAX in *. cbn [length] in Hlen. lia.
Qed.

(** A derived key signs what it is for. A key derived for the role of a
    prepared transaction, with the required signer's address, signs it under a
    permit for its class, if the fee is within the limit and the curve gives a
    signature whose coordinate is not reduced.*)
Theorem derived_key_signs t limit seed r i j account key permit : prepared t -> in_range t ->
  max_fee_per_gas t * gas_limit t <= limit -> limit <= U128_MAX ->
  derive_account seed r i j = Ok (account, key) ->
  r = required_role (operation t) -> acct_address account = required_signer (operation t) ->
  class (operation t) = match permit with PermitValue _ => NativeValue | PermitSettlement _ => Settlement end ->
  (forall k, signing_key (material key) = Some k ->
     (sign_prehash_recoverable k (keccak256 (signing_payload t))).1.2 = false) ->
  exists bound signed, bind_fee_limit t limit = Ok bound /\ fee_bound_sign bound permit key = Ok signed.
Proof.
  intros Ht Hr Hfee Hlim Hd -> Hsigner Hclass Hsig. apply prepared_purpose in Ht as [_ Hv].
  unfold derive_account in Hd. destruct (ok_or (path_from_str _) _); [|done]. destruct (ok_or (new_master _) _); [|done].
  destruct (ok_or (derive_priv _ _) _) as [secret|]; [|done].
  destruct (signing_key secret) as [k|] eqn:Hk; [|done]. injection Hd as <- <-.
  cbn [material acct_address ok_or] in *. specialize (Hsig k Hk).
  exists (mkFeeBound t limit). unfold bind_fee_limit, fee_bound_sign, prepared_sign, maximum_fee_wei, checked_mul.
  cbn [transaction approved_maximum_fee_wei material address role]. rewrite Hv, Hk.
  rewrite (proj2 (N.leb_le _ _)) by lia. cbn [ok_or]. rewrite (proj2 (N.ltb_ge _ _)) by lia.
  rewrite !bool_decide_eq_true_2 by done. cbn [negb].
  destruct (sign_prehash_recoverable k _) as [[signature reduced] recovery] eqn:E. simpl in Hsig. subst reduced.
  rewrite (proj2 (N.ltb_ge _ _)); [by eexists|].
  pose proof (transaction_size t (Some (signature, recovery)) Hr) as Hs.
  unfold len, MAX_SIGNED_TRANSACTION_BYTES. cbn [length]. ospecialize (Hs _); [|lia].
  intros bs r' [= <- <-]. by rewrite <- (signature_length k (keccak256 (signing_payload t))), E.
Qed.
End Transactions.

(** ** Addresses *)

(** ASCII lowercase. *)
Definition lower (b : u8) : u8 :=
  if (65 <=? Byte.to_N b) && (Byte.to_N b <=? 90) then byte_of_N (Byte.to_N b + 32) else b.

Definition digit (v : N) : u8 := nth (N.to_nat v) ALPHABET x00.

Lemma hex_digit_Ok c v : hex_digit c = Ok v -> v < 16 /\ lower c = digit v.
Proof. destruct c; vm_compute; intros H; simplify_eq; done. Qed.

Lemma hex_digit_lower c v : hex_digit (lower c) = Ok v -> hex_digit c = Ok v.
Proof. destruct c; vm_compute; done. Qed.

Lemma hex_digit_digit v : v < 16 -> hex_digit (digit v) = Ok v.
Proof.
  intros Hv. assert (Forall (fun n => hex_digit (digit (N.of_nat n)) = Ok (N.of_nat n)) (seq 0 16)) as H
    by (repeat constructor).
  rewrite Forall_forall in H. specialize (H (N.to_nat v)). rewrite N2Nat.id in H. apply H, in_seq. lia.
Qed.

Lemma hex_encode_cons b bs :
  hex_encode (b :: bs) = digit (Byte.to_N b / 16) :: digit (Byte.to_N b mod 16) :: hex_encode bs.
Proof.
  unfold hex_encode, digit. cbn [flat_map app]. rewrite N.shiftr_div_pow2.
  change 15 with (N.ones 4). by rewrite N.land_ones.
Qed.

Lemma hex_pairs_Ok k : forall value a, length value = (k * 2)%nat ->
  hex_pairs value = Ok a <-> map lower value = hex_encode a.
Proof.
  induction k as [|k IH]; intros value a Hl.
  { destruct value; [|done]. simpl. destruct a; [done|]. rewrite hex_encode_cons. split; congruence. }
  destruct value as [|h [|l rest]]; try done. simpl in Hl. cbn [hex_pairs map]. split.
  - destruct (hex_digit h) as [vh|] eqn:Hh; [|done]. destruct (hex_digit l) as [vl|] eqn:Hlo; [|done].
    destruct (hex_pairs rest) as [out|] eqn:Hr; [|done]. intros [= <-].
    apply hex_digit_Ok in Hh as [? ->], Hlo as [? ->]. apply IH in Hr; [|lia]. rewrite hex_encode_cons, Hr, join_nibbles by done.
    rewrite N.div_add_l, N.div_small, N.add_0_r by lia. by rewrite N.add_comm, N.Div0.mod_add, N.mod_small by lia.
  - destruct a as [|b a]; [done|]. rewrite hex_encode_cons. intros [= Hh Hlo Hr]. pose proof (byte_to_N_bound b).
    assert (Byte.to_N b / 16 < 16) as Hd by (apply N.Div0.div_lt_upper_bound; lia).
    assert (Byte.to_N b mod 16 < 16) as Hm by (apply N.mod_lt; lia).
    rewrite (hex_digit_lower h (Byte.to_N b / 16)) by (rewrite Hh; by apply hex_digit_digit).
    rewrite (hex_digit_lower l (Byte.to_N b mod 16)) by (rewrite Hlo; by apply hex_digit_digit).
    rewrite (proj2 (IH rest a ltac:(lia)) Hr). do 2 f_equal. apply byte_to_N_inj. rewrite join_nibbles by done.
    pose proof (N.div_mod' (Byte.to_N b) 16). lia.
Qed.

Lemma lower_digit v : v < 16 -> lower (digit v) = digit v.
Proof. intros Hv. by apply hex_digit_digit, hex_digit_Ok in Hv as [_ ->]. Qed.

Lemma lower_hex_encode a : map lower (hex_encode a) = hex_encode a.
Proof.
  induction a as [|b a IH]; [done|]. rewrite hex_encode_cons. cbn [map]. pose proof (byte_to_N_bound b).
  by rewrite IH, !lower_digit by (apply N.mod_lt || apply N.Div0.div_lt_upper_bound; lia).
Qed.

Lemma hex_encode_length a : length (hex_encode a) = (length a * 2)%nat.
Proof. induction a as [|b a IH]; [done|]. rewrite hex_encode_cons. cbn [length]. rewrite IH. lia. Qed.

(** An address is read from its forty digits. A text is read as an address
    exactly when, without a prefix 0x and in lowercase, it is the hexadecimal form
    of the address; in particular every address reads back from its own text.*)
Theorem address_text_exact s a : length a = 20%nat ->
  (parse s = Ok a <-> map lower (unprefixed (str_bytes s)) = hex_encode a) /\ parse (display a) = Ok a.
Proof.
  intros Ha. assert (forall s, parse s = Ok a <-> map lower (unprefixed (str_bytes s)) = hex_encode a) as Hp.
  { clear s. intros s. unfold parse, hex_decode. set (value := unprefixed (str_bytes s)).
    destruct (N.eqb_spec (len value) 40) as [Hl|Hl]; cbn [negb].
    - change (20 * 2) with 40. rewrite (proj2 (N.eqb_eq _ _) Hl). cbn [negb].
      apply (hex_pairs_Ok 20). unfold len in Hl. lia.
    - split; [done|]. intros E. apply (f_equal length) in E. rewrite length_map, hex_encode_length in E. unfold len in Hl. lia. }
  split; [apply Hp|]. apply Hp. unfold display, str_bytes. rewrite String.list_byte_of_string_of_list_byte.
  change (unprefixed _) with (hex_encode a). apply lower_hex_encode.
Qed.

(** ** Locks *)

Section Locks.
Context `{env : EthereumEnv}.

(** The terms a log announces: three indexed words after the name of the event,
    three words of data, each padded with zeros. *)
Definition log_terms (l : EthereumLog) : option ExpectedEthereumLock :=
  match topics l with
  | [event; id; hash; to] =>
      let refund := take 32 (data l) in
      let amount := take 32 (drop 32 (data l)) in
      let time := drop 64 (data l) in
      if bool_decide (event = keccak256 (str_bytes "Locked(bytes32,bytes32,address,address,uint256,uint64)")
           /\ length (data l) = 96%nat /\ length to = 32%nat
           /\ take 12 to = replicate 12 x00 /\ take 12 refund = replicate 12 x00
           /\ take 16 amount = replicate 16 x00 /\ take 24 time = replicate 24 x00)
      then Some (mkExpectedLock id hash (drop 12 to) (drop 12 refund) (from_be_bytes (drop 16 amount))
                   (from_be_bytes (drop 24 time)))
      else None
  | _ => None
  end.

Lemma word_split k pad (w : bytes) : length w = (pad + k)%nat -> take pad w = replicate pad x00 ->
  replicate pad x00 ++ to_be_bytes k (from_be_bytes (drop pad w)) = w.
Proof.
  intros Hl Hp. rewrite <- (take_drop pad w) at 2. rewrite Hp. f_equal.
  rewrite <- (to_from_be_bytes (drop pad w)) at 2. rewrite length_drop. f_equal. lia.
Qed.

Lemma log_terms_exact l contract terms : lock_in_range terms ->
  log_address l = contract -> log_terms l = Some terms <-> l = locked_log terms contract.
Proof.
  intros [Hid Hh Hr Hf Ha Ht] <-. split.
  - unfold log_terms. destruct l as [address topics data]. cbn [Ethereum.topics Ethereum.data log_address].
    destruct topics as [|event [|id [|hash [|to [|]]]]]; try done.
    case_bool_decide as Hc; [|done]. destruct Hc as (-> & Hd & Hto & P1 & P2 & P3 & P4). intros [= <-].
    unfold locked_log, abi_address, abi_u128, abi_u64. cbn [swap_id hashlock receiver refund_address amount_wei timelock_unix].
    assert (replicate 12 x00 ++ drop 12 to = to) as -> by (rewrite <- P1; apply take_drop).
    assert (replicate 12 x00 ++ drop 12 (take 32 data) = take 32 data) as -> by (rewrite <- P2; apply take_drop).
    rewrite (word_split 16 16 (take 32 (drop 32 data))), (word_split 8 24 (drop 64 data)); try done;
      [|rewrite ?length_drop, ?length_take, ?length_drop; lia..].
    f_equal. change (drop 64 data) with (drop (32 + 32) data). rewrite <- drop_drop. by rewrite !take_drop.
  - intros ->. assert (length (abi_address (refund_address terms)) = 32%nat) as L1
      by (unfold abi_address; rewrite length_app, length_replicate, Hf; done).
    assert (length (abi_u128 (amount_wei terms)) = 32%nat) as L2
      by (unfold abi_u128; rewrite length_app, length_replicate, length_to_be_bytes; done).
    unfold log_terms, locked_log. cbn [topics Ethereum.data].
    rewrite take_app_length' by done. rewrite (drop_app_length' _ _ 32) by done. rewrite take_app_length' by done.
    change 64%nat with (32 + 32)%nat. rewrite <- drop_drop, !drop_app_length' by done.
    unfold abi_address, abi_u128, abi_u64. rewrite !take_app_length', !drop_app_length' by by rewrite length_replicate.
    rewrite bool_decide_eq_true_2.
    + rewrite !from_to_be_bytes by (unfold U64_MAX, U128_MAX in *; simpl; lia). by destruct terms.
    + split_and!; try done; rewrite ?length_app, ?length_replicate, ?length_to_be_bytes; simpl; lia.
Qed.

(** *** Evidence *)

Lemma refused_unless {A E} (b : bool) (e : E) (k : result A E) v :
  (if b then Err e else k) = Ok v <-> b = false /\ k = Ok v.
Proof. destruct b; intuition congruence. Qed.

Lemma checked_first {B E} (c : result unit E) (k : result B E) v :
  match c with Ok _ => k | Err e => Err e end = Ok v <-> c = Ok tt /\ k = Ok v.
Proof. destruct c as [[]|]; intuition congruence. Qed.

(** What a verified lock rests on: usable policies for one chain that is not the
    main network, finalized and proved execution data, the approved code at the
    approved address, a successful payment of the amount, and the agreed terms in
    the contract's storage and in its log. *)
Record full_evidence (helios : HeliosPolicy) (deployment : EthereumHtlcDeploymentPolicy)
    (expected : ExpectedEthereumLock) (evidence : EthereumLockEvidence) : Prop := {
  fe_terms : swap_id expected <> zero32 /\ hashlock expected <> zero32 /\ receiver expected <> zero_address
    /\ refund_address expected <> zero_address /\ receiver expected <> refund_address expected
    /\ amount_wei expected <> 0 /\ timelock_unix expected <> 0;
  fe_policy : weak_subjectivity_checkpoint helios <> zero32 /\ expected_genesis_validators_root helios <> zero32
    /\ checkpoint_age_limit_seconds helios <> 0 /\ execution_provider_count helios <> 0
    /\ consensus_provider_count helios <> 0;
  fe_chain : ex_chain_id (execution evidence) = hp_chain_id helios /\ hp_chain_id helios = dp_chain_id deployment
    /\ hp_chain_id helios <> 0 /\ hp_chain_id helios <> 1;
  fe_roots : block_hash (execution evidence) <> zero32 /\ state_root (execution evidence) <> zero32
    /\ receipts_root (execution evidence) <> zero32 /\ finalized_checkpoint_root (execution evidence) <> zero32;
  fe_proofs : consensus_finality_verified (execution evidence) = true
    /\ execution_header_verified (execution evidence) = true /\ account_proof_verified (execution evidence) = true
    /\ code_proof_verified (execution evidence) = true /\ receipt_proof_verified (execution evidence) = true
    /\ transaction_inclusion_verified (execution evidence) = true;
  fe_contract : contract_address deployment <> zero_address /\ mainnet_settlement_enabled deployment = false
    /\ transaction_to evidence = contract_address deployment
    /\ dp_runtime_code_hash deployment <> zero32 /\ deployed_runtime_code evidence <> []
    /\ keccak256 (deployed_runtime_code evidence) = dp_runtime_code_hash deployment
    /\ deployment_block deployment <= block_number (execution evidence);
  fe_payment : transaction_hash evidence <> zero32 /\ transaction_value_wei evidence = amount_wei expected
    /\ receipt_succeeded evidence = true;
  fe_state : state_status evidence = Locked /\ lock_state evidence = expected;
  fe_log : log_address (evidence_log evidence) = contract_address deployment
    /\ log_terms (evidence_log evidence) = Some expected;
}.

Lemma log_verified l contract terms u : lock_in_range terms ->
  verify_locked_log l contract terms = Ok u <-> log_address l = contract /\ log_terms l = Some terms.
Proof.
  intros Hr. unfold verify_locked_log. destruct u. case_bool_decide as H.
  - split; [intros _|done]. split; [by rewrite H|]. apply (log_terms_exact _ contract); [done| |done]. by rewrite H.
  - split; [done|]. intros [Hc Ht]. exfalso. apply H. by apply log_terms_exact.
Qed.

Local Ltac guards :=
  rewrite ?refused_unless, ?orb_false_iff, ?negb_false_iff, ?bool_decide_eq_false, ?bool_decide_eq_true,
    ?N.eqb_neq, ?N.eqb_eq, ?N.ltb_ge.

Lemma lock_validate_Ok l u : lock_validate l = Ok u <->
  swap_id l <> zero32 /\ hashlock l <> zero32 /\ receiver l <> zero_address /\ refund_address l <> zero_address
  /\ receiver l <> refund_address l /\ amount_wei l <> 0 /\ timelock_unix l <> 0.
Proof. unfold lock_validate. destruct u. guards. tauto. Qed.

Lemma execution_validate_Ok e p u : execution_validate e p = Ok u <->
  (hp_chain_id p <> 0 /\ weak_subjectivity_checkpoint p <> zero32 /\ expected_genesis_validators_root p <> zero32
   /\ checkpoint_age_limit_seconds p <> 0 /\ execution_provider_count p <> 0 /\ consensus_provider_count p <> 0)
  /\ ex_chain_id e = hp_chain_id p
  /\ (block_hash e <> zero32 /\ state_root e <> zero32 /\ receipts_root e <> zero32 /\ finalized_checkpoint_root e <> zero32)
  /\ consensus_finality_verified e = true /\ execution_header_verified e = true /\ account_proof_verified e = true
  /\ code_proof_verified e = true /\ receipt_proof_verified e = true /\ transaction_inclusion_verified e = true.
Proof.
  unfold execution_validate, helios_validate. destruct u. rewrite checked_first. guards. tauto.
Qed.

Lemma verify_runtime_code_Ok d chain a code u : verify_runtime_code d chain a code = Ok u <->
  dp_chain_id d <> 0 /\ contract_address d <> zero_address /\ dp_runtime_code_hash d <> zero32
  /\ mainnet_settlement_enabled d = false /\ dp_chain_id d <> 1 /\ chain = dp_chain_id d
  /\ a = contract_address d /\ code <> [] /\ keccak256 code = dp_runtime_code_hash d.
Proof.
  unfold verify_runtime_code, deployment_validate. destruct u. rewrite checked_first.
  change (negb ETHEREUM_MAINNET_RUNTIME_RELEASE_QUALIFIED) with true. rewrite andb_true_r.
  guards. assert (is_empty code = false <-> code <> []) as -> by by destruct code. tauto.
Qed.

(** C23: a lock is verified exactly on full evidence. Verification of terms in the
    ranges of their types succeeds if and only if nothing of the evidence is missing,
    and then reports the transaction, its block and the terms. *)
Theorem lock_verified_exactly provenance permit helios deployment expected evidence v : lock_in_range expected ->
  verify_ethereum_lock provenance permit helios deployment expected evidence = Ok v <->
  full_evidence helios deployment expected evidence
  /\ v = mkVerifiedLock (transaction_hash evidence) (block_hash (execution evidence))
           (block_number (execution evidence)) expected.
Proof.
  intros Hr. unfold verify_ethereum_lock. rewrite !checked_first, refused_unless, checked_first.
  rewrite lock_validate_Ok, execution_validate_Ok, verify_runtime_code_Ok, log_verified by done. guards. split.
  - intros (H1 & H2 & H3 & H4 & H5 & [= <-]). split; [split|]; intuition congruence.
  - intros [[] ->]. intuition congruence.
Qed.
End Locks.

(** ** A wallet on a test network *)

Module ToyEthereum.
(** The digest is the input cut to length; a key is its secret, and so is its point. *)
Definition pad32 (b : bytes) : bytes := take 32 (b ++ replicate 32 x01).
Definition toy_env : EthereumEnv := {|
  keccak256 := pad32;
  sha256 := pad32;
  SigningKey := bytes;
  signing_key secret := Some secret;
  uncompressed_point key := x04 :: key ++ key;
  sign_prehash_recoverable key digest := (pad32 key ++ pad32 digest, false, 1);
  phrase_seed phrase := Some (str_bytes phrase);
  DerivationPath := bytes;
  path_from_str s := Some (str_bytes s);
  Xpriv := bytes;
  new_master seed := Some seed;
  derive_priv root path := Some (pad32 (root ++ path));
|}.
#[global] Existing Instance toy_env | 90.
#[global] Instance toy_ethereum_laws : EthereumLaws.
Proof.
  assert (forall b, length (pad32 b) = 32%nat) as H.
  { intros b. unfold pad32. rewrite length_take, length_app, length_replicate. lia. }
  split; [exact H|]. intros k d. simpl. by rewrite length_app, !H.
Qed.

Definition derived := derive_account [x05; x06] RoleWallet 0 0.
Definition account : EthereumAccount :=
  match derived with Ok (a, _) => a | Err _ => mkEthereumAccount [] RoleWallet 0 0 end.
Definition key : EthereumSecretKey := match derived with Ok (_, k) => k | Err _ => mkSecretKey [] [] RoleWallet end.
Definition friend : EthereumAddress := replicate 20 x09.
Definition payment (signer : EthereumAddress) : PreparedEip1559Transaction :=
  mkPrepared 31337 3 2 30 NATIVE_TRANSFER_GAS friend 1000000 (NativeTransfer signer).
Lemma payment_prepared : prepared (payment (acct_address account)).
Proof. by apply (PreparedTransfer _ ValuePermit 31337 3 (acct_address account) friend 1000000 2 30). Qed.
Lemma payment_in_range signer : length signer = 20%nat -> in_range (payment signer).
Proof. intros H. split; by try done. Qed.

Lemma derived_key_signs_witness : exists bound signed,
  bind_fee_limit (payment (acct_address account)) 700000 = Ok bound
  /\ fee_bound_sign bound (PermitValue ValuePermit) key = Ok signed.
Proof.
  apply (derived_key_signs (payment (acct_address account)) 700000 [x05; x06] RoleWallet 0 0 account key).
  - exact payment_prepared.
  - by apply payment_in_range.
  - vm_compute; discriminate.
  - vm_compute; discriminate.
  - reflexivity.
  - reflexivity.
  - reflexivity.
  - reflexivity.
  - reflexivity.
Defined.

Definition bound : FeeBoundEip1559Transaction := mkFeeBound (payment (acct_address account)) 700000.
Definition signed : SignedEip1559Transaction :=
  match fee_bound_sign bound (PermitValue ValuePermit) key with Ok s => s | Err _ => mkSigned [] [] end.

Lemma signed_as_approved_witness : max_fee_per_gas (payment (acct_address account)) * NATIVE_TRANSFER_GAS <= 700000
  /\ signed_hash signed = keccak256 (encoded signed).
Proof.
  pose proof (signed_as_approved (payment (acct_address account)) 700000 bound (PermitValue ValuePermit) key signed
    payment_prepared eq_refl eq_refl) as (H1 & _ & _ & _ & _ & H2 & _).
  exact (conj H1 H2).
Defined.

(** Two senders of the same payment sign the same payload. *)
Lemma signing_payload_injective_witness : signing_payload (payment friend) = signing_payload (payment (acct_address account))
  /\ same_effect (operation (payment friend)) (operation (payment (acct_address account))).
Proof.
  split; [reflexivity|].
  pose proof (signing_payload_injective (payment friend) (payment (acct_address account))
    (payment_in_range friend eq_refl) (payment_in_range (acct_address account) eq_refl) eq_refl eq_refl eq_refl)
    as (_ & _ & _ & _ & _ & _ & _ & H).
  exact H.
Defined.

Lemma address_text_exact_witness : parse (display friend) = Ok friend.
Proof. exact (proj2 (address_text_exact "0x" friend eq_refl)). Defined.

Definition terms : ExpectedEthereumLock :=
  mkExpectedLock (replicate 32 x01) (replicate 32 x02) (replicate 20 x03) (replicate 20 x04) 500 900.
Definition deployment : EthereumHtlcDeploymentPolicy := mkDeployment 31337 (replicate 20 x07) (pad32 [x60; x80]) 1 false.
Definition helios : HeliosPolicy := mkHeliosPolicy 31337 (replicate 32 x01) 60 (replicate 32 x02) 1 1.
Definition evidence : EthereumLockEvidence :=
  mkLockEvidence (mkExecutionEvidence 31337 9 (replicate 32 x01) (replicate 32 x01) (replicate 32 x01) (replicate 32 x01)
                    true true true true true true)
    (replicate 32 x0a) (replicate 20 x07) 500 true terms Locked (locked_log terms (replicate 20 x07)) [x60; x80].
Lemma terms_in_range : lock_in_range terms.
Proof. by split. Qed.

Lemma lock_verified_exactly_witness : full_evidence helios deployment terms evidence.
Proof.
  pose proof (lock_verified_exactly HeliosPermit SettlementPermit helios deployment terms evidence
    (mkVerifiedLock (replicate 32 x0a) (replicate 32 x01) 9 terms) terms_in_range) as H.
  exact (proj1 (proj1 H eq_refl)).
Defined.
End ToyEthereum.
