(* ===== verification/Recovery.v ===== *)
(** * Recovery publications

    Models [crates/hns-wallet-chain-api/src/recovery_publication.rs]: the public
    terms from which both contracts of a swap can be rebuilt, their encoding, the
    frames in which they are published on a chain, and the marker that commits a
    funding transaction to them.

    Parameters beyond [TermsEnv] ([RecoveryEnv]): the counterchain and the decoder
    of a network binding, and whether bytes are a public key. *)

From Stdlib Require Import Strings.Byte.
From S2P Require Import Prelude Types Codec Swap SwapProofs Terms.

Definition FRAME_MAGIC : bytes := str_bytes "SR".
Definition MARKER_MAGIC : bytes := str_bytes "SRF1".
Definition COMMITMENT_DOMAIN : bytes := str_bytes "shakescape/chain-swap-recovery/v1" ++ [x00].
Definition FRAME_HEADER_BYTES : N := 4.
Definition TERMS_BYTES : N := 204.
Definition SWAP_RECOVERY_MARKER_BYTES : N := 37.
Definition MAX_SWAP_RECOVERY_FRAMES : N := 24.

Module RecoveryError.
Inductive t := UnsupportedChain | InvalidAgreement | Capacity | InvalidPublication.
End RecoveryError.
Abbreviation published A := (result A RecoveryError.t).

Class RecoveryEnv `{TermsEnv} := {
  NetworkBinding_eq_dec :: EqDecision NetworkBinding;
  network_decode : bytes -> option NetworkBinding;
  network_counterchain : NetworkBinding -> ChainId;
  (** [from_sec1_bytes(..).is_ok()]. *)
  sec1_key_valid : bytes -> bool;
}.

Record SwapRecoveryTerms `{TermsEnv} := mkRecoveryTerms {
  rt_network : NetworkBinding;
  rt_session_id : bytes;
  rt_direct_offer_id : bytes;
  maker_public_key : bytes;
  taker_public_key : bytes;
  rt_hashlock : bytes;
  offered_asset : AssetId;
  offered_amount : N;
  received_amount : N;
  offered_refund_at : N;
  received_refund_at : N;
  offered_minimum_confirmations : N;
  received_minimum_confirmations : N;
}.

Record SwapRecoveryHtlcParameters `{TermsEnv} := mkHtlcParameters {
  hp_chain : ChainId;
  hp_amount : N;
  hp_hashlock : bytes;
  hp_receiver_public_key : bytes;
  hp_refund_public_key : bytes;
  hp_refund_at : N;
  hp_minimum_confirmations : N;
}.

Record SwapRecoveryPublication `{TermsEnv} := mkPublication {
  pub_terms : SwapRecoveryTerms;
  pub_side : SwapAssetSide;
  pub_frames : list bytes;
  pub_marker : bytes;
}.
Arguments mkRecoveryTerms {_}.
Arguments mkHtlcParameters {_}.
Arguments mkPublication {_}.

Section Recovery.
Context {env : TermsEnv} {renv : RecoveryEnv}.
Implicit Types (terms : SwapRecoveryTerms) (side : SwapAssetSide) (network : NetworkBinding).

(** ** Terms *)

Definition terms_validate terms : published unit :=
  if negb (network_valid_for_hns_btc (rt_network terms)) then Err RecoveryError.InvalidAgreement else
  if negb (bool_decide (network_counterchain (rt_network terms) = CHAIN_BITCOIN))
     || negb (bool_decide (offered_asset terms = ASSET_HNS) || bool_decide (offered_asset terms = ASSET_BTC))
     || bool_decide (rt_session_id terms = replicate 32 x00)
     || bool_decide (rt_direct_offer_id terms = replicate 32 x00)
     || bool_decide (rt_hashlock terms = replicate 32 x00)
     || bool_decide (maker_public_key terms = taker_public_key terms)
     || (offered_amount terms =? 0) || (received_amount terms =? 0)
     || (offered_refund_at terms <=? received_refund_at terms)
     || (received_refund_at terms <? 500000000)
     || (offered_minimum_confirmations terms =? 0) || (received_minimum_confirmations terms =? 0)
     || negb (sec1_key_valid (maker_public_key terms)) || negb (sec1_key_valid (taker_public_key terms))
  then Err RecoveryError.InvalidAgreement else Ok tt.

Definition u64_try_from (v : N) : published N :=
  if v <=? U64_MAX then Ok v else Err RecoveryError.InvalidAgreement.

Definition from_hello (hello : SwapSessionHello) (expected_network : NetworkBinding) :
    published SwapRecoveryTerms :=
  if negb (verify_agreement hello expected_network) then Err RecoveryError.InvalidAgreement else
  let* offered := u64_try_from (hello_amount hello Offered) in
  let* received := u64_try_from (hello_amount hello Received) in
  let value := {|
    rt_network := expected_network;
    rt_session_id := hello_swap_session_id hello;
    rt_direct_offer_id := hello_direct_offer_id hello;
    maker_public_key := maker_settlement_public_key hello;
    taker_public_key := taker_settlement_public_key hello;
    rt_hashlock := hello_hashlock hello;
    offered_asset := hello_asset hello Offered;
    offered_amount := offered;
    received_amount := received;
    offered_refund_at := deadline_value (hello_refund_deadline hello Offered);
    received_refund_at := deadline_value (hello_refund_deadline hello Received);
    offered_minimum_confirmations := hello_minimum_confirmations hello Offered;
    received_minimum_confirmations := hello_minimum_confirmations hello Received;
  |} in
  let* _ := terms_validate value in
  Ok value.

Definition htlc terms side : SwapRecoveryHtlcParameters :=
  match side with
  | Offered => {|
      hp_chain := asset_chain (offered_asset terms);
      hp_amount := offered_amount terms;
      hp_hashlock := rt_hashlock terms;
      hp_receiver_public_key := taker_public_key terms;
      hp_refund_public_key := maker_public_key terms;
      hp_refund_at := offered_refund_at terms;
      hp_minimum_confirmations := offered_minimum_confirmations terms |}
  | Received => {|
      hp_chain := if bool_decide (offered_asset terms = ASSET_HNS) then CHAIN_BITCOIN else CHAIN_HANDSHAKE;
      hp_amount := received_amount terms;
      hp_hashlock := rt_hashlock terms;
      hp_receiver_public_key := maker_public_key terms;
      hp_refund_public_key := taker_public_key terms;
      hp_refund_at := received_refund_at terms;
      hp_minimum_confirmations := received_minimum_confirmations terms |}
  end.

(** The bytes of valid terms. *)
Definition terms_bytes terms : bytes :=
  [x01; if bool_decide (offered_asset terms = ASSET_BTC) then x01 else x00]
  ++ rt_session_id terms ++ rt_direct_offer_id terms ++ maker_public_key terms ++ taker_public_key terms
  ++ rt_hashlock terms ++ to_be_bytes 8 (offered_amount terms) ++ to_be_bytes 8 (received_amount terms)
  ++ to_be_bytes 8 (offered_refund_at terms) ++ to_be_bytes 8 (received_refund_at terms)
  ++ to_be_bytes 4 (offered_minimum_confirmations terms) ++ to_be_bytes 4 (received_minimum_confirmations terms).

Definition terms_encode terms : published bytes :=
  let* _ := terms_validate terms in
  Ok (terms_bytes terms).

(** [take]: the next [n] bytes, and the offset behind them. *)
Definition take_array (bs : bytes) (offset n : nat) : published (bytes * nat) :=
  if (length bs <? offset + n)%nat then Err RecoveryError.InvalidPublication
  else Ok (take n (drop offset bs), (offset + n)%nat).

Definition terms_decode (bs : bytes) network : published SwapRecoveryTerms :=
  match bs with
  | version :: asset :: _ =>
      if negb (len bs =? TERMS_BYTES) || negb (bool_decide (version = x01)) || (1 <? Byte.to_N asset)
      then Err RecoveryError.InvalidPublication else
      let* (session_id, o) := take_array bs 2 32 in
      let* (direct_offer_id, o) := take_array bs o 32 in
      let* (maker, o) := take_array bs o 33 in
      let* (taker, o) := take_array bs o 33 in
      let* (hash, o) := take_array bs o 32 in
      let* (offered, o) := take_array bs o 8 in
      let* (received, o) := take_array bs o 8 in
      let* (offered_refund, o) := take_array bs o 8 in
      let* (received_refund, o) := take_array bs o 8 in
      let* (offered_confirmations, o) := take_array bs o 4 in
      let* (received_confirmations, o) := take_array bs o 4 in
      let value := {|
        rt_network := network;
        rt_session_id := session_id;
        rt_direct_offer_id := direct_offer_id;
        maker_public_key := maker;
        taker_public_key := taker;
        rt_hashlock := hash;
        offered_asset := if bool_decide (asset = x00) then ASSET_HNS else ASSET_BTC;
        offered_amount := from_be_bytes offered;
        received_amount := from_be_bytes received;
        offered_refund_at := from_be_bytes offered_refund;
        received_refund_at := from_be_bytes received_refund;
        offered_minimum_confirmations := from_be_bytes offered_confirmations;
        received_minimum_confirmations := from_be_bytes received_confirmations;
      |} in
      let* _ := terms_validate value in
      Ok value
  | _ => Err RecoveryError.InvalidPublication
  end.

(** ** Frames and the marker *)

Definition frame_data_limit (chain : ChainId) : published N :=
  if bool_decide (chain = CHAIN_BITCOIN) then Ok 80
  else if bool_decide (chain = CHAIN_HANDSHAKE) then Ok 40
  else Err RecoveryError.UnsupportedChain.

Definition side_code side : u8 := match side with Offered => x00 | Received => x01 end.

Definition commitment (encoded : bytes) side network : published bytes :=
  let* binding := ok_or (network_encode network) RecoveryError.InvalidAgreement in
  Ok (sha256 (COMMITMENT_DOMAIN ++ [side_code side] ++ binding ++ encoded)).

(** [chunks]: pieces of [n] bytes, the last one possibly shorter. *)
Fixpoint chunks (fuel : nat) (n : nat) (bs : bytes) : list bytes :=
  match fuel, bs with
  | S fuel, _ :: _ => take n bs :: chunks fuel n (drop n bs)
  | _, _ => []
  end.

Definition recovery_frame (count : N) (index : nat) (payload : bytes) : bytes :=
  FRAME_MAGIC ++ [byte_of_N (N.of_nat index); byte_of_N count] ++ payload.

Definition div_ceil (a b : N) : N := (a + b - 1) / b.

Definition from_terms terms side : published SwapRecoveryPublication :=
  let* limit := frame_data_limit (hp_chain (htlc terms side)) in
  let payload_bytes := limit - FRAME_HEADER_BYTES in
  let* encoded := terms_encode terms in
  let count := div_ceil (len encoded) payload_bytes in
  if (count =? 0) || (MAX_SWAP_RECOVERY_FRAMES <? count) then Err RecoveryError.Capacity else
  let frames := imap (recovery_frame count) (chunks (length encoded) (N.to_nat payload_bytes) encoded) in
  let* committed := commitment encoded side (rt_network terms) in
  Ok (mkPublication terms side frames (MARKER_MAGIC ++ [side_code side] ++ committed)).

Definition publication_new (hello : SwapSessionHello) side (expected_network : NetworkBinding) :
    published SwapRecoveryPublication :=
  let* agreed := from_hello hello expected_network in
  from_terms agreed side.

Definition publication_chain (p : SwapRecoveryPublication) : ChainId := hp_chain (htlc (pub_terms p) (pub_side p)).

(** The payloads of the frames, from the given index on. *)
Fixpoint collect_frames (limit : N) (index total : N) (frames : list bytes) : published bytes :=
  match frames with
  | [] => Ok []
  | frame :: rest =>
      if (len frame <=? FRAME_HEADER_BYTES) || (limit <? len frame)
         || negb (bool_decide (take 2 frame = FRAME_MAGIC))
         || negb (Byte.to_N (nth 2 frame x00) =? index)
         || negb (Byte.to_N (nth 3 frame x00) =? total)
         || ((index + 1 <? total) && negb (len frame =? limit))
      then Err RecoveryError.InvalidPublication else
      let* encoded := collect_frames limit (index + 1) total rest in
      Ok (drop 4 frame ++ encoded)
  end.

Definition publication_decode (expected_network : NetworkBinding) (expected_chain : ChainId) (marker : bytes)
    (frames : list bytes) : published SwapRecoveryPublication :=
  let* limit := frame_data_limit expected_chain in
  if negb (len marker =? SWAP_RECOVERY_MARKER_BYTES) || negb (bool_decide (take 4 marker = MARKER_MAGIC))
     || is_empty frames || (MAX_SWAP_RECOVERY_FRAMES <? len frames)
  then Err RecoveryError.InvalidPublication else
  let code := nth 4 marker x00 in
  let* which := if bool_decide (code = x00) then Ok Offered
                else if bool_decide (code = x01) then Ok Received
                else Err RecoveryError.InvalidPublication in
  let* encoded := collect_frames limit 0 (len frames) frames in
  let* committed := commitment encoded which expected_network in
  if negb (bool_decide (drop 5 marker = committed)) then Err RecoveryError.InvalidPublication else
  let* decoded := terms_decode encoded expected_network in
  let* publication := from_terms decoded which in
  if negb (bool_decide (publication_chain publication = expected_chain))
     || negb (bool_decide (pub_marker publication = marker))
     || negb (bool_decide (pub_frames publication = frames))
  then Err RecoveryError.InvalidPublication else
  Ok publication.
End Recovery.
