(* ===== verification/RecoveryTheorems.v ===== *)
(** * Properties of recovery publications

    A publication reads back as it was made and nothing else reads as one; valid
    terms can always be published. *)

From Stdlib Require Import Strings.Byte.
From S2P Require Import Prelude Types Codec Swap SwapProofs Terms TermsTheorems Recovery.

Section Publications.
Context {env : TermsEnv} {renv : RecoveryEnv} {laws : TermsEnvLaws}.
Implicit Types (terms : SwapRecoveryTerms) (side : SwapAssetSide) (network : NetworkBinding).

(** The sizes of the arrays and the ranges of the integers. *)
Record recovery_in_range terms : Prop := {
  ri_session : length (rt_session_id terms) = 32%nat;
  ri_offer : length (rt_direct_offer_id terms) = 32%nat;
  ri_maker : length (maker_public_key terms) = 33%nat;
  ri_taker : length (taker_public_key terms) = 33%nat;
  ri_hashlock : length (rt_hashlock terms) = 32%nat;
  ri_amounts : offered_amount terms <= U64_MAX /\ received_amount terms <= U64_MAX;
  ri_times : offered_refund_at terms <= U64_MAX /\ received_refund_at terms <= U64_MAX;
  ri_confirmations : offered_minimum_confirmations terms <= U32_MAX
    /\ received_minimum_confirmations terms <= U32_MAX;
}.

Lemma validated_asset terms u : terms_validate terms = Ok u ->
  offered_asset terms = ASSET_HNS \/ offered_asset terms = ASSET_BTC.
Proof.
  unfold terms_validate. intros H. destruct (negb _); [done|].
  match type of H with (if ?b then _ else _) = _ => destruct b eqn:Hb; [done|] end.
  rewrite !orb_false_iff, negb_false_iff in Hb. rewrite negb_false_iff, orb_true_iff, !bool_decide_eq_true in Hb. tauto.
Qed.

(** *** Terms *)

Lemma terms_bytes_length terms : recovery_in_range terms -> length (terms_bytes terms) = 204%nat.
Proof.
  intros [H1 H2 H3 H4 H5 _ _ _]. unfold terms_bytes.
  rewrite !length_app, !length_to_be_bytes, H1, H2, H3, H4, H5. done.
Qed.

(** Reading an array off what is left. *)
Lemma take_array_next bs o n a post : drop o bs = a ++ post -> length a = n -> (0 < n)%nat ->
  take_array bs o n = Ok (a, (o + n)%nat) /\ drop (o + n) bs = post.
Proof.
  intros Hd <- Hn. pose proof (f_equal length Hd) as Hl. rewrite length_drop, length_app in Hl. unfold take_array.
  rewrite (proj2 (Nat.ltb_ge _ _)) by lia. rewrite Hd, take_app_length. split; [done|].
  by rewrite <- drop_drop, Hd, drop_app_length.
Qed.

Local Ltac next_array D :=
  match goal with |- context [take_array ?bs ?o ?n] =>
    let E := fresh in
    destruct (take_array_next bs o n _ _ D) as [E ?D]; [by rewrite ?length_to_be_bytes|lia|];
    rewrite E; clear E; cbv beta iota zeta
  end.

Lemma terms_roundtrip terms : recovery_in_range terms -> terms_validate terms = Ok tt ->
  terms_decode (terms_bytes terms) (rt_network terms) = Ok terms.
Proof.
  intros Hr Hv. pose proof (terms_bytes_length terms Hr) as Hl. destruct Hr as [H1 H2 H3 H4 H5 [A1 A2] [T1 T2] [C1 C2]].
  set (asset := if bool_decide (offered_asset terms = ASSET_BTC) then x01 else x00).
  assert (exists rest, terms_bytes terms = x01 :: asset :: rest) as [rest Hb] by (by eexists).
  unfold terms_decode. rewrite Hb at 1. unfold len. rewrite Hl. change (N.of_nat 204 =? TERMS_BYTES) with true.
  rewrite bool_decide_eq_true_2 by done. cbn [negb orb].
  assert ((1 <? Byte.to_N asset) = false) as -> by (subst asset; by case_bool_decide).
  assert (drop 2 (terms_bytes terms) = drop 2 (terms_bytes terms)) as D by done.
  unfold terms_bytes at 2 in D. cbn [app drop] in D. cbv zeta.
  next_array D. next_array D0. next_array D1. next_array D2. next_array D3. next_array D4. next_array D5.
  next_array D6. next_array D7. next_array D8. rewrite <- (app_nil_r (to_be_bytes 4 _)) in D9. next_array D9.
  rewrite !from_to_be_bytes by (unfold U64_MAX, U32_MAX in *; simpl; lia).
  assert ((if bool_decide (asset = x00) then ASSET_HNS else ASSET_BTC) = offered_asset terms) as ->.
  { subst asset. pose proof asset_distinct. destruct (validated_asset _ _ Hv) as [E|E]; rewrite E.
    - by rewrite (bool_decide_eq_false_2 (ASSET_HNS = ASSET_BTC)).
    - by rewrite (bool_decide_eq_true_2 (ASSET_BTC = ASSET_BTC)). }
  destruct terms. cbn in *. by rewrite Hv.
Qed.

(** *** Frames *)

Lemma limit_cases chain limit : frame_data_limit chain = Ok limit ->
  chain = CHAIN_BITCOIN /\ limit = 80 \/ chain = CHAIN_HANDSHAKE /\ limit = 40.
Proof. unfold frame_data_limit. repeat case_bool_decide; naive_solver. Qed.

Lemma chunks_count n : (0 < n)%nat -> forall fuel bs, (length bs <= fuel)%nat ->
  N.of_nat (length (chunks fuel n bs)) = div_ceil (len bs) (N.of_nat n).
Proof.
  intros Hn. induction fuel as [|fuel IH]; intros bs Hf; [destruct bs; [|simpl in Hf; lia]|destruct bs as [|b bs]].
  1,2: unfold div_ceil, len; simpl; rewrite N.div_small; lia.
  cbn [chunks length]. rewrite Nat2N.inj_succ, IH by (rewrite length_drop; cbn [length] in *; lia).
  unfold div_ceil, len. rewrite length_drop. set (l := length (b :: bs)) in *.
  assert (0 < l)%nat by (subst l; cbn [length]; lia).
  destruct (decide (l <= n)%nat).
  - replace (l - n)%nat with 0%nat by lia. rewrite N.div_small by lia.
    apply N.div_unique with (N.of_nat l - 1); lia.
  - replace (N.of_nat l + N.of_nat n - 1) with (N.of_nat (l - n) + N.of_nat n - 1 + 1 * N.of_nat n) by lia.
    rewrite N.div_add by lia. lia.
Qed.

Lemma collect_chunks n total : (0 < n)%nat -> total < 256 -> forall fuel bs index, (length bs <= fuel)%nat ->
  N.of_nat index + N.of_nat (length (chunks fuel n bs)) = total ->
  collect_frames (N.of_nat n + FRAME_HEADER_BYTES) (N.of_nat index) total
    (imap (fun i => recovery_frame total (i + index)) (chunks fuel n bs)) = Ok bs.
Proof.
  intros Hn Ht. induction fuel as [|fuel IH]; intros bs index Hf Hi; [by destruct bs; [|simpl in Hf; lia]|].
  destruct bs as [|b bs]; [done|]. cbn [chunks length] in Hi |- *. rewrite imap_cons.
  set (payload := take n (b :: bs)). set (rest := chunks fuel n (drop n (b :: bs))) in *.
  change (recovery_frame total (0 + index) payload) with
    (x53 :: x52 :: byte_of_N (N.of_nat index) :: byte_of_N total :: payload).
  cbn [collect_frames take nth drop]. rewrite !byte_to_N_of_N, !N.mod_small, !N.eqb_refl by lia.
  rewrite (bool_decide_eq_true_2 _ eq_refl). cbn [negb orb].
  assert (length payload = n `min` S (length bs))%nat as Hp by (subst payload; by rewrite length_take).
  assert (N.of_nat index + 1 < total -> length payload = n) as Hfull.
  { intros Hlt. assert (drop n (b :: bs) <> []) as Hd by (intros E; subst rest; rewrite E in Hi; destruct fuel; simpl in Hi; lia).
    destruct (decide (S (length bs) <= n)%nat); [|lia].
    exfalso. apply Hd, drop_ge. cbn [length]. lia. }
  unfold len at 1 2 3. cbn [length]. unfold FRAME_HEADER_BYTES.
  rewrite (proj2 (N.leb_gt _ _)), (proj2 (N.ltb_ge _ _)) by lia. cbn [orb].
  assert ((N.of_nat index + 1 <? total) && negb (N.of_nat (S (S (S (S (length payload))))) =? N.of_nat n + 4) = false) as ->.
  { destruct (N.ltb_spec (N.of_nat index + 1) total) as [Hlt|]; [|done]. rewrite Hfull by done.
    cbn [andb]. apply negb_false_iff, N.eqb_eq. lia. }
  rewrite (imap_ext _ (fun i => recovery_frame total (i + S index))) by (intros; simpl; f_equal; lia).
  replace (N.of_nat index + 1) with (N.of_nat (S index)) by lia.
  fold FRAME_HEADER_BYTES. subst rest. rewrite IH; [|rewrite length_drop; cbn [length] in *; lia|lia].
  f_equal. apply (take_drop n (b :: bs)).
Qed.

(** *** Publications *)

Lemma from_terms_facts terms side p : from_terms terms side = Ok p ->
  pub_terms p = terms /\ pub_side p = side /\ terms_validate terms = Ok tt
  /\ exists limit committed, frame_data_limit (publication_chain p) = Ok limit
     /\ commitment (terms_bytes terms) side (rt_network terms) = Ok committed
     /\ pub_marker p = MARKER_MAGIC ++ [side_code side] ++ committed
     /\ div_ceil (len (terms_bytes terms)) (limit - FRAME_HEADER_BYTES) <> 0
     /\ div_ceil (len (terms_bytes terms)) (limit - FRAME_HEADER_BYTES) <= MAX_SWAP_RECOVERY_FRAMES
     /\ pub_frames p = imap (recovery_frame (div_ceil (len (terms_bytes terms)) (limit - FRAME_HEADER_BYTES)))
          (chunks (length (terms_bytes terms)) (N.to_nat (limit - FRAME_HEADER_BYTES)) (terms_bytes terms)).
Proof.
  unfold from_terms, terms_encode. intros H. destruct (frame_data_limit _) as [limit|] eqn:Hl; [|done]. cbv beta iota zeta in H.
  destruct (terms_validate terms) as [[]|] eqn:Hv; [|done]. cbv beta iota zeta in H.
  match type of H with (if ?b then _ else _) = _ => destruct b eqn:Hb; [done|] end. bool_prop.
  destruct (commitment _ _ _) as [committed|] eqn:Hc; [|done]. injection H as <-. cbn. split_and!; try done.
  exists limit, committed. done.
Qed.

Lemma terms_decode_network bs network terms : terms_decode bs network = Ok terms -> rt_network terms = network.
Proof. unfold terms_decode. intros H. repeat (case_match; simplify_eq; try done). Qed.

Lemma committed_length encoded side network committed : (forall b, length (sha256 b) = 32%nat) ->
  commitment encoded side network = Ok committed -> length committed = 32%nat.
Proof. intros Hsha. unfold commitment. destruct (network_encode network); [|done]. intros [= <-]. apply Hsha. Qed.

Lemma own_frames_collected terms side p : recovery_in_range terms -> from_terms terms side = Ok p ->
  exists limit, frame_data_limit (publication_chain p) = Ok limit /\ is_empty (pub_frames p) = false
    /\ len (pub_frames p) <= MAX_SWAP_RECOVERY_FRAMES
    /\ collect_frames limit 0 (len (pub_frames p)) (pub_frames p) = Ok (terms_bytes terms).
Proof.
  intros Hr Hp. apply from_terms_facts in Hp as (_ & _ & _ & limit & committed & Hl & _ & _ & H0 & Hmax & Hf).
  exists limit. split; [done|]. assert (4 < limit) as Hlim by (apply limit_cases in Hl as [[_ ->]|[_ ->]]; lia).
  unfold FRAME_HEADER_BYTES in *. set (n := N.to_nat (limit - 4)) in *.
  assert (limit - 4 = N.of_nat n) as En by lia. rewrite En in *.
  pose proof (chunks_count n ltac:(lia) (length (terms_bytes terms)) (terms_bytes terms) ltac:(lia)) as Hc.
  assert (len (pub_frames p) = div_ceil (len (terms_bytes terms)) (N.of_nat n)) as Hlen.
  { unfold len at 1. rewrite Hf, length_imap. done. }
  rewrite Hlen. split_and!; [|done|].
  - destruct (pub_frames p); [|done]. exfalso. apply H0. by rewrite <- Hlen.
  - rewrite Hf. replace limit with (N.of_nat n + FRAME_HEADER_BYTES) by (unfold FRAME_HEADER_BYTES; lia).
    rewrite (imap_ext _ (fun i => recovery_frame (div_ceil (len (terms_bytes terms)) (N.of_nat n)) (i + 0)))
      by (intros; f_equal; lia).
    refine (collect_chunks n _ _ _ (length (terms_bytes terms)) (terms_bytes terms) 0 _ _); [lia|unfold MAX_SWAP_RECOVERY_FRAMES in Hmax; lia|lia|done].
Qed.

(** A publication made from terms in range is read from its own marker and frames. *)
Lemma own_publication_decodes p : recovery_in_range (pub_terms p) -> (forall b, length (sha256 b) = 32%nat) ->
  from_terms (pub_terms p) (pub_side p) = Ok p ->
  publication_decode (rt_network (pub_terms p)) (publication_chain p) (pub_marker p) (pub_frames p) = Ok p.
Proof.
  intros Hr Hsha Hp. pose proof (own_frames_collected _ _ _ Hr Hp) as (limit & Hl & He & Hmax & Hcol).
  pose proof (from_terms_facts _ _ _ Hp) as (_ & _ & Hv & _ & committed & _ & Hc & Hm & _).
  pose proof (committed_length _ _ _ _ Hsha Hc) as Hlc. unfold publication_decode. rewrite Hl, Hm, He. cbv beta iota zeta.
  assert (len (MARKER_MAGIC ++ [side_code (pub_side p)] ++ committed) = SWAP_RECOVERY_MARKER_BYTES) as ->
    by (unfold len; rewrite !length_app, Hlc; done).
  rewrite N.eqb_refl, (proj2 (N.ltb_ge _ _) Hmax). cbn [negb orb].
  change (take 4 (MARKER_MAGIC ++ _)) with MARKER_MAGIC. rewrite (bool_decide_eq_true_2 _ eq_refl). cbn [negb orb].
  change (nth 4 (MARKER_MAGIC ++ _) x00) with (side_code (pub_side p)).
  assert ((if bool_decide (side_code (pub_side p) = x00) then Ok Offered
           else if bool_decide (side_code (pub_side p) = x01) then Ok Received
           else Err RecoveryError.InvalidPublication) = Ok (pub_side p)) as -> by by destruct (pub_side p).
  rewrite Hcol, Hc. change (drop 5 (MARKER_MAGIC ++ _)) with committed. rewrite bool_decide_eq_true_2 by done. cbn [negb].
  rewrite terms_roundtrip, Hp by done. rewrite <- Hm, !bool_decide_eq_true_2 by done. done.
Qed.

(** C24: a publication is read exactly. Marker and frames found on a chain read as
    a publication if and only if they are the ones that publication is made of, for
    that chain and network; its terms are the valid terms it was made from. *)
Theorem publication_read_exactly network chain marker frames p : recovery_in_range (pub_terms p) ->
  (forall b, length (sha256 b) = 32%nat) ->
  publication_decode network chain marker frames = Ok p <->
  from_terms (pub_terms p) (pub_side p) = Ok p /\ pub_marker p = marker /\ pub_frames p = frames
  /\ publication_chain p = chain /\ rt_network (pub_terms p) = network.
Proof.
  intros Hr Hsha. split.
  - unfold publication_decode. intros H. destruct (frame_data_limit chain); [|done]. cbv beta iota zeta in H.
    match type of H with (if ?b then _ else _) = _ => destruct b; [done|] end.
    match type of H with match ?c with _ => _ end = _ => destruct c as [which|]; [|done] end.
    destruct (collect_frames _ _ _ _) as [encoded|]; [|done]. destruct (commitment _ _ _); [|done].
    match type of H with (if ?b then _ else _) = _ => destruct b; [done|] end.
    destruct (terms_decode encoded network) as [terms|] eqn:Hd; [|done].
    destruct (from_terms terms which) as [q|] eqn:Hq; [|done]. cbv beta iota zeta in H.
    match type of H with (if ?b then _ else _) = _ => destruct b eqn:Hb; [done|] end. injection H as ->. bool_prop.
    pose proof (from_terms_facts _ _ _ Hq) as (E1 & E2 & _). rewrite E1, E2. split_and!; try done.
    by apply terms_decode_network in Hd.
  - intros (Hp & <- & <- & <- & <-). by apply own_publication_decodes.
Qed.

Lemma chunks_sized n fuel : forall bs, Forall (fun c => (length c <= n)%nat) (chunks fuel n bs).
Proof.
  induction fuel as [|fuel IH]; intros [|b bs]; simpl; constructor; [|apply IH].
  rewrite length_take. lia.
Qed.

Lemma frames_sized n total bs :
  Forall (fun f => len f <= N.of_nat n + 4) (imap (recovery_frame total) (chunks (length bs) n bs)).
Proof.
  apply list.Forall_forall. intros f (i & c & -> & Hc%list_elem_of_lookup_2)%elem_of_lookup_imap_1.
  eapply list.Forall_forall in Hc; [|apply chunks_sized]. cbv beta in Hc.
  unfold recovery_frame, len. rewrite !length_app. change (length FRAME_MAGIC) with 2%nat. cbn [length]. lia.
Qed.

(** Valid terms can be published on either side. If the network has an
    encoding, valid terms make a publication of three frames of at most 80 bytes on
    Bitcoin or six of at most 40 bytes on Handshake, and the two sides of one
    agreement are published on different chains.*)
Theorem valid_terms_published terms side binding : recovery_in_range terms -> terms_validate terms = Ok tt ->
  network_encode (rt_network terms) = Some binding ->
  exists p, from_terms terms side = Ok p
    /\ (publication_chain p = CHAIN_BITCOIN /\ length (pub_frames p) = 3%nat /\ Forall (fun f => len f <= 80) (pub_frames p)
        \/ publication_chain p = CHAIN_HANDSHAKE /\ length (pub_frames p) = 6%nat
           /\ Forall (fun f => len f <= 40) (pub_frames p))
    /\ hp_chain (htlc terms Offered) <> hp_chain (htlc terms Received).
Proof.
  intros Hr Hv Hn. pose proof (terms_bytes_length terms Hr) as Hlen.
  assert (hp_chain (htlc terms Offered) <> hp_chain (htlc terms Received)) as Hdiff.
  { pose proof chain_distinct. pose proof asset_distinct. destruct (validated_asset _ _ Hv) as [E|E]; simpl; rewrite E.
    - by rewrite asset_chain_hns, bool_decide_eq_true_2.
    - rewrite asset_chain_btc, bool_decide_eq_false_2; congruence. }
  assert (hp_chain (htlc terms side) = CHAIN_BITCOIN \/ hp_chain (htlc terms side) = CHAIN_HANDSHAKE) as Hside.
  { destruct side; simpl; [|case_bool_decide; auto].
    destruct (validated_asset _ _ Hv) as [E|E]; rewrite E, ?asset_chain_hns, ?asset_chain_btc; auto. }
  unfold from_terms, terms_encode, commitment. rewrite Hv, Hn. cbv beta iota zeta delta [ok_or]. unfold len. rewrite Hlen.
  unfold publication_chain. destruct Hside as [Hside|Hside]; rewrite Hside; unfold frame_data_limit.
  - rewrite bool_decide_eq_true_2 by done. eexists. split; [reflexivity|]. split; [left|done]. cbn [pub_terms pub_side pub_frames].
    rewrite length_imap. split_and!; [done| |rewrite <- Hlen; apply (frames_sized 76)].
    apply Nat2N.inj. rewrite (chunks_count 76) by lia. unfold len. by rewrite Hlen.
  - rewrite bool_decide_eq_false_2, bool_decide_eq_true_2 by (pose proof chain_distinct; congruence).
    eexists. split; [reflexivity|]. split; [right|done]. cbn [pub_terms pub_side pub_frames].
    rewrite length_imap. split_and!; [done| |rewrite <- Hlen; apply (frames_sized 36)].
    apply Nat2N.inj. rewrite (chunks_count 36) by lia. unfold len. by rewrite Hlen.
Qed.
End Publications.

(** ** A published agreement *)

Module ToyRecovery.
Import ToyTerms.
Definition toy_recovery : RecoveryEnv := {|
  network_decode _ := Some tt;
  network_counterchain _ := CHAIN_BITCOIN;
  sec1_key_valid _ := true;
|}.
#[global] Existing Instance toy_recovery | 100.

Definition agreed : SwapRecoveryTerms :=
  mkRecoveryTerms tt (hash x01) (hash x0a) (repeat x02 33) (repeat x03 33) (hash x07) ASSET_BTC 5000 700
    600020000 600010000 1 2.
Lemma agreed_in_range : recovery_in_range agreed.
Proof. split; try done; by vm_compute. Qed.
Definition publication : SwapRecoveryPublication :=
  match from_terms agreed Received with Ok p => p | Err _ => mkPublication agreed Received [] [] end.
Lemma toy_sha_length b : length (sha256 b) = 32%nat.
Proof.
  change (sha256 b) with (take 32 (b ++ repeat x00 32)). rewrite length_take, length_app, repeat_length. lia.
Qed.

Lemma publication_read_exactly_witness :
  publication_decode tt CHAIN_HANDSHAKE (pub_marker publication) (pub_frames publication) = Ok publication.
Proof.
  pose proof (publication_read_exactly tt CHAIN_HANDSHAKE (pub_marker publication) (pub_frames publication) publication
    agreed_in_range toy_sha_length) as H.
  refine (proj2 H _). vm_compute. split_and!; reflexivity.
Defined.

Lemma valid_terms_published_witness : exists p, from_terms agreed Offered = Ok p /\ length (pub_frames p) = 3%nat.
Proof.
  pose proof (valid_terms_published agreed Offered [x09] agreed_in_range eq_refl eq_refl) as (p & Hp & [(_ & H & _)|(H & _)] & _).
  - exists p. exact (conj Hp H).
  - exfalso. assert (from_terms agreed Offered = Ok p) as E by exact Hp. vm_compute in E. injection E as <-. discriminate H.
Defined.
End ToyRecovery.
