(* ===== verification/SettlementKey.v ===== *)
(** * Settlement keys

    Models [crates/hns-wallet-market/src/settlement_key.rs]: one signing key per
    wallet, swap session and participant, derived from the recovery seed, with its
    public binding kept in the wallet store.

    Parameters beyond the store's and the protocol's ([SettlementEnv]): HKDF-SHA-256,
    secp256k1 keys, and the signed status messages of the protocol ([SignedStatus]).
    An error of the protocol crate is [Protocol]. *)

From Stdlib Require Import Strings.Byte.
From S2P Require Import Prelude Types Codec Store Swap SwapProofs Terms Recovery.

Definition RECOVERY_SEED_BYTES : N := 64.
Definition STORAGE_VERSION : N := 2.
Definition RECORD_ID_DOMAIN : bytes := str_bytes "hns-wallet/cross-chain-swap-key/record/v2" ++ [x00].
Definition CONTEXT_DOMAIN : bytes := str_bytes "hns-wallet/cross-chain-swap-key/context/v2" ++ [x00].
Definition RECOVERY_SEED_COMMITMENT_DOMAIN : bytes :=
  str_bytes "hns-wallet/cross-chain-swap-key/recovery-seed/v2" ++ [x00].
Definition DERIVATION_SALT : bytes := str_bytes "hns-wallet/cross-chain-swap-key/hkdf-sha256/v2" ++ [x00].
Definition DERIVATION_INFO_DOMAIN : bytes := str_bytes "hns-wallet/cross-chain-swap-key/scalar/v2" ++ [x00].
Definition MAX_DERIVATION_ATTEMPTS : nat := 256.

Module SwapKeyError.
Inductive t :=
| InvalidRequest | BindingConflict | AllocationNotFound | CorruptAllocation | DerivationFailed
| ClockRollback | ConcurrentModification | WrongParticipant | SessionMismatch
| Store (e : StoreError) | Protocol.
End SwapKeyError.
Abbreviation keyed A := (result A SwapKeyError.t).

Class SettlementEnv `{TermsEnv} := {
  (** [Hkdf::new(Some(salt), seed)] and [expand] to 32 bytes. *)
  hkdf_expand : bytes -> bytes -> bytes -> option bytes;
  SettlementSigningKey : Type;
  (** [SigningKey::from_bytes]. *)
  settlement_signing_key : bytes -> option SettlementSigningKey;
  (** [verifying_key().to_sec1_point(true)], when it has 33 bytes. *)
  compressed_point : SettlementSigningKey -> option bytes;
  (** [sign_prehash], then [normalize_s]. *)
  sign_prehash_normalized : SettlementSigningKey -> bytes -> option bytes;
  SwapSessionProposal : Type;
  proposal_terms : SwapSessionProposal -> SwapSessionHello;
  (** [into_maker_proposal] and [accept_taker] of the protocol, with the secret. *)
  make_proposal : SwapSessionHello -> bytes -> option SwapSessionProposal;
  accept_proposal : SwapSessionProposal -> NetworkBinding -> N -> bytes -> option SwapSessionHello;
}.

Inductive SwapParticipant := Maker | Taker.
#[global] Instance SwapParticipant_eq_dec : EqDecision SwapParticipant.
Proof. solve_decision. Defined.

Definition participant_code (p : SwapParticipant) : u8 := match p with Maker => x00 | Taker => x01 end.

Record CrossChainSwapKeyRequest `{TermsEnv} := mkKeyRequest {
  rq_wallet_id : bytes;
  rq_session_id : bytes;
  rq_participant : SwapParticipant;
  rq_network : NetworkBinding;
}.
Arguments mkKeyRequest {_}.

Record CrossChainSwapKeyAllocation := mkAllocation {
  storage_version : N;
  al_wallet_id : bytes;
  al_session_id : bytes;
  al_participant : SwapParticipant;
  network_encoding : bytes;
  al_context_commitment : bytes;
  al_public_key : bytes;
  al_seed_commitment : bytes;
  allocated_at_unix : N;
}.

Record CrossChainSwapKey `{TermsEnv} := mkSwapKey {
  k_request : CrossChainSwapKeyRequest;
  k_public_key : bytes;
  k_secret : bytes;
}.
Arguments mkSwapKey {_}.

(** A message that is signed and checked against an agreement. *)
Class SignedStatus `{TermsEnv} (M : Type) := {
  status_chain : M -> ChainId;
  status_sign : M -> bytes -> option M;
  status_verify : M -> SwapSessionHello -> NetworkBinding -> N -> bool;
}.

Section SettlementKey.
Context {senv : StoreEnv} {env : TermsEnv} {renv : RecoveryEnv} {kenv : SettlementEnv}.
Context {allocation_codec : JsonCodec CrossChainSwapKeyAllocation}.
Implicit Types (request : CrossChainSwapKeyRequest) (st : WalletStore).

(** ** Identities *)

Definition request_validate request : keyed bytes :=
  if all_zero (rq_wallet_id request) || all_zero (rq_session_id request)
  then Err SwapKeyError.InvalidRequest else
  if negb (network_valid_for_hns_btc (rq_network request)) then Err SwapKeyError.InvalidRequest else
  ok_or (network_encode (rq_network request)) SwapKeyError.InvalidRequest.

Definition context_commitment request (encoding : bytes) : bytes :=
  sha256 (CONTEXT_DOMAIN ++ to_be_bytes 2 STORAGE_VERSION ++ rq_session_id request
          ++ [participant_code (rq_participant request)] ++ encoding).

Definition allocation_record_id (wallet_id session_id : bytes) (p : SwapParticipant) : bytes :=
  sha256 (RECORD_ID_DOMAIN ++ to_be_bytes 2 STORAGE_VERSION ++ wallet_id ++ session_id ++ [participant_code p]).

Definition recovery_seed_commitment_from_cleartext (seed : bytes) : bytes :=
  sha256 (RECOVERY_SEED_COMMITMENT_DOMAIN ++ seed).

Definition allocation_network (a : CrossChainSwapKeyAllocation) : keyed NetworkBinding :=
  ok_or (network_decode (network_encoding a)) SwapKeyError.CorruptAllocation.

Definition allocation_request (a : CrossChainSwapKeyAllocation) : keyed CrossChainSwapKeyRequest :=
  let* network := allocation_network a in
  Ok (mkKeyRequest (al_wallet_id a) (al_session_id a) (al_participant a) network).

Definition allocation_validate (a : CrossChainSwapKeyAllocation) : keyed unit :=
  if negb (storage_version a =? STORAGE_VERSION) || (allocated_at_unix a =? 0)
     || bool_decide (al_seed_commitment a = replicate 32 x00) || negb (sec1_key_valid (al_public_key a))
  then Err SwapKeyError.CorruptAllocation else
  let* own := allocation_request a in
  let* expected := map_err (fun _ => SwapKeyError.CorruptAllocation) (request_validate own) in
  if negb (bool_decide (network_encoding a = expected))
     || negb (bool_decide (al_context_commitment a = context_commitment own (network_encoding a)))
  then Err SwapKeyError.CorruptAllocation else Ok tt.

Definition matches_request (a : CrossChainSwapKeyAllocation) request (encoding : bytes) : bool :=
  bool_decide (al_wallet_id a = rq_wallet_id request) && bool_decide (al_session_id a = rq_session_id request)
  && bool_decide (al_participant a = rq_participant request) && bool_decide (network_encoding a = encoding)
  && bool_decide (al_context_commitment a = context_commitment request encoding).

(** ** Derivation *)

(** The seed of the wallet, if it has the right length. *)
Definition recovery_seed st (wallet_id : bytes) : keyed bytes :=
  let* found := map_err SwapKeyError.Store (get_secret st wallet_id SecretKind.RecoverySeed) in
  let* seed := ok_or found SwapKeyError.DerivationFailed in
  if negb (len seed =? RECOVERY_SEED_BYTES) then Err SwapKeyError.DerivationFailed else Ok seed.

Definition recovery_seed_commitment st (wallet_id : bytes) : keyed bytes :=
  let* seed := recovery_seed st wallet_id in
  Ok (recovery_seed_commitment_from_cleartext seed).

(** The attempts that are left, from the given one on. *)
Fixpoint derive_attempts (tries : nat) (seed context : bytes) (attempt : N) : keyed (bytes * bytes) :=
  match tries with
  | O => Err SwapKeyError.DerivationFailed
  | S tries =>
      let info := DERIVATION_INFO_DOMAIN ++ context ++ to_be_bytes 4 attempt in
      let* secret := ok_or (hkdf_expand DERIVATION_SALT seed info) SwapKeyError.DerivationFailed in
      match settlement_signing_key secret with
      | Some signing =>
          let* public := ok_or (compressed_point signing) SwapKeyError.DerivationFailed in
          Ok (public, secret)
      | None => derive_attempts tries seed context (attempt + 1)
      end
  end.

Definition derive_key_from_store st request (encoding : bytes) : keyed (CrossChainSwapKey * bytes) :=
  let* seed := recovery_seed st (rq_wallet_id request) in
  let* (public, secret) := derive_attempts MAX_DERIVATION_ATTEMPTS seed (context_commitment request encoding) 0 in
  Ok (mkSwapKey request public secret, recovery_seed_commitment_from_cleartext seed).

(** ** Allocation *)

Definition load_cross_chain_swap_key_allocation st (wallet_id session_id : bytes) (p : SwapParticipant) :
    keyed (option CrossChainSwapKeyAllocation) :=
  if all_zero wallet_id || all_zero session_id then Err SwapKeyError.InvalidRequest else
  let* found := map_err SwapKeyError.Store (load_entity st EntityKind.CrossChainSwapKeyAllocation
                  (allocation_record_id wallet_id session_id p)) in
  match found with
  | None => Ok None
  | Some stored =>
      let a := se_value stored in
      if negb (se_revision stored =? 1) || negb (se_updated_at_unix stored =? allocated_at_unix a)
         || negb (bool_decide (al_wallet_id a = wallet_id)) || negb (bool_decide (al_session_id a = session_id))
         || negb (bool_decide (al_participant a = p))
      then Err SwapKeyError.CorruptAllocation else
      let* _ := allocation_validate a in
      let* current := recovery_seed_commitment st wallet_id in
      if negb (bool_decide (current = al_seed_commitment a)) then Err SwapKeyError.CorruptAllocation
      else Ok (Some a)
  end.

Definition accept_existing st (a : CrossChainSwapKeyAllocation) request (encoding : bytes) (now_unix : N) :
    keyed CrossChainSwapKeyAllocation :=
  if negb (matches_request a request encoding) then Err SwapKeyError.BindingConflict else
  if now_unix <? allocated_at_unix a then Err SwapKeyError.ClockRollback else
  let* (derived, seed_commitment) := derive_key_from_store st request encoding in
  if negb (bool_decide (k_public_key derived = al_public_key a))
     || negb (bool_decide (seed_commitment = al_seed_commitment a))
  then Err SwapKeyError.CorruptAllocation else Ok a.

Definition allocate_cross_chain_swap_key st request (now_unix : N) :
    WalletStore * keyed CrossChainSwapKeyAllocation :=
  let load st := load_cross_chain_swap_key_allocation st (rq_wallet_id request) (rq_session_id request)
                   (rq_participant request) in
  let! st, encoding := (st, request_validate request) in
  if now_unix =? 0 then (st, Err SwapKeyError.InvalidRequest) else
  let! st, found := (st, load st) in
  match found with
  | Some existing => (st, accept_existing st existing request encoding now_unix)
  | None =>
      let! st, derived := (st, derive_key_from_store st request encoding) in
      let '(derived, seed_commitment) := derived in
      let! st, again := (st, ok_or (network_encode (rq_network request)) SwapKeyError.Protocol) in
      let a := mkAllocation STORAGE_VERSION (rq_wallet_id request) (rq_session_id request)
        (rq_participant request) encoding (context_commitment request again) (k_public_key derived)
        seed_commitment now_unix in
      let! st, _ := (st, allocation_validate a) in
      let id := allocation_record_id (rq_wallet_id request) (rq_session_id request) (rq_participant request) in
      match save_entity st EntityKind.CrossChainSwapKeyAllocation id 0 a now_unix with
      | (st, Ok 1) => (st, Ok a)
      | (st, Ok _) => (st, Err SwapKeyError.CorruptAllocation)
      | (st, Err (StaleRevision _ _)) =>
          let! st, found := (st, load st) in
          let! st, existing := (st, ok_or found SwapKeyError.ConcurrentModification) in
          let! st, again := (st, ok_or (network_encode (rq_network request)) SwapKeyError.Protocol) in
          (st, accept_existing st existing request again now_unix)
      | (st, Err error) => (st, Err (SwapKeyError.Store error))
      end
  end.

Definition derive_cross_chain_swap_key_from_store st request : keyed CrossChainSwapKey :=
  let* encoding := request_validate request in
  let* found := load_cross_chain_swap_key_allocation st (rq_wallet_id request) (rq_session_id request)
                  (rq_participant request) in
  let* a := ok_or found SwapKeyError.AllocationNotFound in
  if negb (matches_request a request encoding) then Err SwapKeyError.BindingConflict else
  let* (derived, seed_commitment) := derive_key_from_store st request encoding in
  if negb (bool_decide (k_public_key derived = al_public_key a))
     || negb (bool_decide (seed_commitment = al_seed_commitment a))
  then Err SwapKeyError.CorruptAllocation else Ok derived.

(** The participants in order; the first whose derived key is in the terms is the
    wallet's own. *)
Fixpoint recover_participants st (wallet_id session_id : bytes) (network : NetworkBinding) (encoding : bytes)
    (now_unix : N) (candidates : list (SwapParticipant * bytes)) : WalletStore * keyed CrossChainSwapKeyAllocation :=
  match candidates with
  | [] => (st, Err SwapKeyError.WrongParticipant)
  | (p, expected) :: rest =>
      let own := mkKeyRequest wallet_id session_id p network in
      let! st, _ := (st, request_validate own) in
      let! st, derived := (st, derive_key_from_store st own encoding) in
      if bool_decide (k_public_key derived.1 = expected) then allocate_cross_chain_swap_key st own now_unix
      else recover_participants st wallet_id session_id network encoding now_unix rest
  end.

Definition recover_cross_chain_swap_key_allocation st (wallet_id : bytes) (terms : SwapRecoveryTerms)
    (expected_network : NetworkBinding) (now_unix : N) : WalletStore * keyed CrossChainSwapKeyAllocation :=
  let! st, _ := (st, map_err (fun _ => SwapKeyError.InvalidRequest) (terms_validate terms)) in
  if negb (bool_decide (rt_network terms = expected_network)) then (st, Err SwapKeyError.Protocol) else
  let! st, encoding := (st, ok_or (network_encode expected_network) SwapKeyError.Protocol) in
  recover_participants st wallet_id (rt_session_id terms) expected_network encoding now_unix
    [(Maker, maker_public_key terms); (Taker, taker_public_key terms)].

(** ** Signing *)

Definition funding_chain (p : SwapParticipant) (hello : SwapSessionHello) : ChainId :=
  match p with
  | Maker => asset_chain (hello_asset hello Offered)
  | Taker => asset_chain (hello_asset hello Received)
  end.

Definition redeem_chain (p : SwapParticipant) (hello : SwapSessionHello) : ChainId :=
  match p with
  | Maker => asset_chain (hello_asset hello Received)
  | Taker => asset_chain (hello_asset hello Offered)
  end.

Definition validate_hello_identity (k : CrossChainSwapKey) (hello : SwapSessionHello) (p : SwapParticipant) :
    keyed unit :=
  if negb (bool_decide (rq_participant (k_request k) = p)) then Err SwapKeyError.WrongParticipant else
  let expected := match p with
                  | Maker => maker_settlement_public_key hello
                  | Taker => taker_settlement_public_key hello
                  end in
  if negb (bool_decide (hello_swap_session_id hello = rq_session_id (k_request k)))
     || negb (bool_decide (header_network hello = rq_network (k_request k)))
     || negb (bool_decide (expected = k_public_key k))
  then Err SwapKeyError.SessionMismatch else Ok tt.

Definition validate_accepted_hello (k : CrossChainSwapKey) (hello : SwapSessionHello) : keyed unit :=
  let* _ := validate_hello_identity k hello (rq_participant (k_request k)) in
  if verify_agreement hello (rq_network (k_request k)) then Ok tt else Err SwapKeyError.Protocol.

Definition into_maker_proposal (k : CrossChainSwapKey) (hello : SwapSessionHello) : keyed SwapSessionProposal :=
  let* _ := validate_hello_identity k hello Maker in
  ok_or (make_proposal hello (k_secret k)) SwapKeyError.Protocol.

Definition accept_taker (k : CrossChainSwapKey) (proposal : SwapSessionProposal) (now_unix : N) :
    keyed SwapSessionHello :=
  let* _ := validate_hello_identity k (proposal_terms proposal) Taker in
  ok_or (accept_proposal proposal (rq_network (k_request k)) now_unix (k_secret k)) SwapKeyError.Protocol.

(** The four messages differ in their type and in the chain they must be about. The
    message is changed in place, also when its check fails afterwards. *)
Definition sign_status {M} `{!SignedStatus M} (chain : SwapParticipant -> SwapSessionHello -> ChainId)
    (k : CrossChainSwapKey) (status : M) (hello : SwapSessionHello) (now_unix : N) : M * keyed unit :=
  let! status, _ := (status, validate_accepted_hello k hello) in
  if negb (bool_decide (status_chain status = chain (rq_participant (k_request k)) hello))
  then (status, Err SwapKeyError.WrongParticipant) else
  match status_sign status (k_secret k) with
  | None => (status, Err SwapKeyError.Protocol)
  | Some status =>
      if status_verify status hello (rq_network (k_request k)) now_unix then (status, Ok tt)
      else (status, Err SwapKeyError.Protocol)
  end.

Definition sign_funding_status {M} `{!SignedStatus M} := sign_status (M := M) funding_chain.
Definition sign_redeem_status {M} `{!SignedStatus M} := sign_status (M := M) redeem_chain.
Definition sign_refund_status {M} `{!SignedStatus M} := sign_status (M := M) funding_chain.
Definition sign_watch_ready {M} `{!SignedStatus M} := sign_status (M := M) redeem_chain.

Inductive SettlementSigningError := InvalidKey | SigningFailed.

Definition sign_digest (k : CrossChainSwapKey) (digest : bytes) : result bytes SettlementSigningError :=
  let* signing := ok_or (settlement_signing_key (k_secret k)) InvalidKey in
  ok_or (sign_prehash_normalized signing digest) SigningFailed.
End SettlementKey.
