(* ===== verification/SettlementKeyTheorems.v ===== *)
(** * Properties of settlement keys

    An allocation stands: it loads, its key is derived again, and asking again gives
    it again. A restored seed gives the same key under any wallet identifier. *)

From Stdlib Require Import Strings.Byte.
From S2P Require Import Prelude Types Codec Store StoreRefine StoreTheorems StoreRows Swap SwapProofs Terms TermsTheorems Recovery RecoveryTheorems SettlementKey.

Section Keys.
Context {senv : StoreEnv} {slaws : StoreEnvLaws} {env : TermsEnv} {renv : RecoveryEnv} {kenv : SettlementEnv}.
Context {codec : JsonCodec CrossChainSwapKeyAllocation} {codec_laws : JsonLaws CrossChainSwapKeyAllocation}.
Implicit Types (rq : CrossChainSwapKeyRequest) (st : WalletStore) (a : CrossChainSwapKeyAllocation).

(** ** Allocations *)

Abbreviation load_for st rq := (load_cross_chain_swap_key_allocation st (rq_wallet_id rq) (rq_session_id rq) (rq_participant rq)).

(** The allocation is on file and its key can be derived. *)
Record standing st rq a : Prop := {
  sg_encoding : exists encoding k commitment, request_validate rq = Ok encoding
    /\ matches_request a rq encoding = true
    /\ derive_key_from_store st rq encoding = Ok (k, commitment)
    /\ k_public_key k = al_public_key a /\ commitment = al_seed_commitment a;
  sg_loads : load_for st rq = Ok (Some a);
}.

Lemma accepted_standing st rq a b encoding now : request_validate rq = Ok encoding -> load_for st rq = Ok (Some a) ->
  accept_existing st a rq encoding now = Ok b -> a = b /\ standing st rq a.
Proof.
  intros Hv Hl H. unfold accept_existing in H. destruct (matches_request a rq encoding) eqn:Hm; [|done].
  cbn [negb] in H. destruct (now <? _); [done|].
  destruct (derive_key_from_store st rq encoding) as [[k c]|] eqn:Hd; [|done].
  destruct (negb _ || _) eqn:Hb in H; [done|]. bool_prop. injection H as ->. split; [done|]. split; [|done].
  by exists encoding, k, c.
Qed.

Lemma seed_same st st' w : same_secrets st st' -> recovery_seed st' w = recovery_seed st w.
Proof. intros H. unfold recovery_seed. by rewrite (same_secrets_get _ _ _ _ H). Qed.

Lemma derive_same st st' rq encoding : same_secrets st st' ->
  derive_key_from_store st' rq encoding = derive_key_from_store st rq encoding.
Proof. intros H. unfold derive_key_from_store. by rewrite (seed_same _ _ _ H). Qed.

Lemma derived_commitment st rq encoding k c : derive_key_from_store st rq encoding = Ok (k, c) ->
  recovery_seed_commitment st (rq_wallet_id rq) = Ok c /\ k_request k = rq.
Proof.
  unfold derive_key_from_store, recovery_seed_commitment. destruct (recovery_seed _ _); [|done].
  destruct (derive_attempts _ _ _ _) as [[]|]; [|done]. by intros [= <- <-].
Qed.

Lemma request_valid_ids rq encoding : request_validate rq = Ok encoding ->
  all_zero (rq_wallet_id rq) || all_zero (rq_session_id rq) = false /\ network_encode (rq_network rq) = Some encoding.
Proof.
  unfold request_validate. destruct (_ || _); [done|]. destruct (negb _); [done|]. intros H%ok_or_Ok. done.
Qed.

Lemma allocated_standing st rq now st' a : allocate_cross_chain_swap_key st rq now = (st', Ok a) -> standing st' rq a.
Proof.
  unfold allocate_cross_chain_swap_key. intros H. cbv zeta in H.
  destruct (request_validate rq) as [encoding|] eqn:Hv; [|done]. pose proof (request_valid_ids _ _ Hv) as [Hids Henc].
  destruct (now =? 0); [done|]. destruct (load_for st rq) as [[existing|]|] eqn:Hl; [| |done].
  { injection H as <- H. by destruct (accepted_standing _ _ _ _ _ _ Hv Hl H) as [-> ?]. }
  destruct (derive_key_from_store st rq encoding) as [[k c]|] eqn:Hd; [|done]. rewrite Henc in H. cbn [ok_or] in H.
  destruct (allocation_validate _) as [[]|] eqn:Hval; [|done].
  destruct (save_entity _ _ _ _ _ _) as [st1 r] eqn:Hs. pose proof (save_entity_row _ _ _ _ _ _ _ _ Hs) as [Hsec Hrow].
  destruct r as [n|e].
  - destruct Hrow as (-> & Hload & _). change (0 + 1) with 1 in *. injection H as <- <-. split.
    { exists encoding, k, c. split_and!; try done; [|by rewrite (derive_same _ _ _ _ Hsec)].
      unfold matches_request. cbn. by rewrite !bool_decide_eq_true_2 by done. }
    unfold load_cross_chain_swap_key_allocation. rewrite Hids, Hload. cbn [map_err se_value se_revision se_updated_at_unix].
    cbn [al_wallet_id al_session_id al_participant allocated_at_unix]. rewrite !N.eqb_refl, !bool_decide_eq_true_2 by done.
    cbn [negb orb]. rewrite Hval. unfold recovery_seed_commitment. rewrite (seed_same _ _ _ Hsec).
    apply derived_commitment in Hd as [Hc _]. unfold recovery_seed_commitment in Hc.
    destruct (recovery_seed st (rq_wallet_id rq)); [|done]. injection Hc as ->. cbn. by rewrite bool_decide_eq_true_2.
  - destruct e; try done. destruct (load_for st1 rq) as [[existing|]|] eqn:Hl1; try done. cbn in H.
    injection H as <- H. by destruct (accepted_standing _ _ _ _ _ _ Hv Hl1 H) as [-> ?].
Qed.

(** An allocated key stands. Once a key is allocated, its binding loads, its
    key is derived from the store with the same public key, and asking for it again
    at the same time or later gives the same binding and changes nothing.*)
Theorem allocation_stands st rq now st' a : allocate_cross_chain_swap_key st rq now = (st', Ok a) ->
  load_for st' rq = Ok (Some a)
  /\ (exists k, derive_cross_chain_swap_key_from_store st' rq = Ok k /\ k_request k = rq
      /\ k_public_key k = al_public_key a)
  /\ forall later, now <= later -> allocated_at_unix a <= later -> allocate_cross_chain_swap_key st' rq later = (st', Ok a).
Proof.
  intros H. assert (now <> 0) as Hnow.
  { intros ->. unfold allocate_cross_chain_swap_key in H. cbv zeta in H. destruct (request_validate rq); done. }
  apply allocated_standing in H as [(encoding & k & c & Hv & Hm & Hd & Hk & Hc) Hl]. split; [done|]. split.
  - exists k. unfold derive_cross_chain_swap_key_from_store. rewrite Hv, Hl. cbn [ok_or]. rewrite Hm, Hd. cbn [negb].
    rewrite !bool_decide_eq_true_2 by done. by apply derived_commitment in Hd as [_ ->].
  - intros later Hlater Halloc. unfold allocate_cross_chain_swap_key. cbv zeta. rewrite Hv, Hl.
    rewrite (proj2 (N.eqb_neq later 0)) by lia. unfold accept_existing. rewrite Hm, Hd. cbn [negb].
    rewrite (proj2 (N.ltb_ge _ _)) by done. by rewrite !bool_decide_eq_true_2 by done.
Qed.

(** ** Recovery *)

Definition key_in_terms (terms : SwapRecoveryTerms) (p : SwapParticipant) : bytes :=
  match p with Maker => maker_public_key terms | Taker => taker_public_key terms end.

(** The wallet identifier only locates the seed. *)
Lemma derive_restored st1 w1 st2 w2 session p network encoding k c :
  get_secret st2 w2 SecretKind.RecoverySeed = get_secret st1 w1 SecretKind.RecoverySeed ->
  derive_key_from_store st1 (mkKeyRequest w1 session p network) encoding = Ok (k, c) ->
  derive_key_from_store st2 (mkKeyRequest w2 session p network) encoding
    = Ok (mkSwapKey (mkKeyRequest w2 session p network) (k_public_key k) (k_secret k), c).
Proof.
  intros Hseed H. unfold derive_key_from_store, recovery_seed in *. cbn [rq_wallet_id] in *. rewrite Hseed.
  destruct (map_err _ _) as [found|]; [|done]. destruct (ok_or found _) as [seed|]; [|done].
  destruct (negb _); [done|]. unfold context_commitment in *. cbn [rq_session_id rq_participant] in *.
  destruct (derive_attempts _ _ _ _) as [[public secret]|]; [|done]. by injection H as <- <-.
Qed.

Lemma session_nonzero (terms : SwapRecoveryTerms) : terms_validate terms = Ok tt -> recovery_in_range terms ->
  all_zero (rt_session_id terms) = false.
Proof.
  intros Hv Hr. destruct (all_zero _) eqn:Hz; [|done]. exfalso. unfold all_zero in Hz. rewrite forallb_forall in Hz.
  assert (rt_session_id terms = replicate 32 x00) as E.
  { symmetry. apply replicate_as_elem_of. split; [apply (ri_session _ Hr)|]. intros x Hx.
    apply (bool_decide_eq_true_1 (x = x00)). by apply Hz, list_elem_of_In. }
  unfold terms_validate in Hv. destruct (negb _) in Hv; [done|].
  rewrite (bool_decide_eq_true_2 _ E), orb_true_r in Hv. by cbn [orb] in Hv.
Qed.

Lemma network_checked (terms : SwapRecoveryTerms) : terms_validate terms = Ok tt -> network_valid_for_hns_btc (rt_network terms) = true.
Proof. unfold terms_validate. by destruct (network_valid_for_hns_btc _). Qed.

Lemma standing_key st rq a encoding k c : standing st rq a -> network_encode (rq_network rq) = Some encoding ->
  derive_key_from_store st rq encoding = Ok (k, c) ->
  al_public_key a = k_public_key k /\ al_participant a = rq_participant rq /\ al_session_id a = rq_session_id rq
  /\ al_wallet_id a = rq_wallet_id rq.
Proof.
  intros [(encoding' & k' & c' & Hv & Hm & Hd & Hk & _) _] Henc Hd'. apply request_valid_ids in Hv as [_ Henc'].
  simplify_eq. unfold matches_request in Hm. bool_prop. split_and!; congruence.
Qed.

Lemma allocate_secrets st rq now st' r : allocate_cross_chain_swap_key st rq now = (st', r) -> same_secrets st st'.
Proof.
  unfold allocate_cross_chain_swap_key. intros H. cbv zeta in H. destruct (request_validate rq); [|by simplify_eq].
  destruct (now =? 0); [by simplify_eq|]. destruct (load_for st rq) as [[|]|]; [by simplify_eq| |by simplify_eq].
  destruct (derive_key_from_store _ _ _) as [[k c]|]; [|by simplify_eq]. destruct (ok_or (network_encode _) _); [|by simplify_eq].
  destruct (allocation_validate _); [|by simplify_eq]. destruct (save_entity _ _ _ _ _ _) as [st1 r1] eqn:Hs.
  apply save_entity_row in Hs as [Hs _]. repeat (case_match; simplify_eq; try done).
Qed.

(** Recovery writes nothing but allocations. *)
Lemma allocate_rows st rq now st' r kind id : allocate_cross_chain_swap_key st rq now = (st', r) ->
  kind <> EntityKind.CrossChainSwapKeyAllocation ->
  encrypted_entities st' !! entity_key kind id = encrypted_entities st !! entity_key kind id.
Proof.
  unfold allocate_cross_chain_swap_key. intros H Hkind. cbv zeta in H. destruct (request_validate rq); [|by simplify_eq].
  destruct (now =? 0); [by simplify_eq|]. destruct (load_for st rq) as [[|]|]; [by simplify_eq| |by simplify_eq].
  destruct (derive_key_from_store _ _ _) as [[k c]|]; [|by simplify_eq]. destruct (ok_or (network_encode _) _); [|by simplify_eq].
  destruct (allocation_validate _); [|by simplify_eq]. destruct (save_entity _ _ _ _ _ _) as [st1 r1] eqn:Hs.
  apply save_entity_row in Hs as [_ Hs].
  assert (encrypted_entities st1 !! entity_key kind id = encrypted_entities st !! entity_key kind id) as <-.
  { destruct r1; [|by rewrite Hs]. destruct Hs as (_ & _ & Hs). apply Hs. intros [? _]%entity_key_inj. done. }
  repeat (case_match; simplify_eq; try done).
Qed.

Lemma recover_rows st w terms network now st' r : recover_cross_chain_swap_key_allocation st w terms network now = (st', r) ->
  same_secrets st st' /\ forall kind id, kind <> EntityKind.CrossChainSwapKeyAllocation ->
    encrypted_entities st' !! entity_key kind id = encrypted_entities st !! entity_key kind id.
Proof.
  unfold recover_cross_chain_swap_key_allocation. destruct (map_err _ _); [|by intros [= <- <-]].
  destruct (negb _); [by intros [= <- <-]|]. destruct (ok_or _ _) as [encoding|]; [|by intros [= <- <-]].
  generalize [(Maker, maker_public_key terms); (Taker, taker_public_key terms)] as candidates.
  induction candidates as [|[p expected] rest IH]; cbn [recover_participants]; [by intros [= <- <-]|]. cbv zeta.
  destruct (request_validate _); [|by intros [= <- <-]]. destruct (derive_key_from_store _ _ _) as [[k c]|]; [|by intros [= <- <-]].
  cbn [fst]. case_bool_decide; [|done]. intros Halloc. split; [by eapply allocate_secrets|]. intros. by eapply allocate_rows.
Qed.

Lemma recovered_participant st w session network encoding now candidates st' a :
  network_encode network = Some encoding ->
  recover_participants st w session network encoding now candidates = (st', Ok a) ->
  exists p expected, (p, expected) ∈ candidates /\ al_participant a = p /\ al_public_key a = expected
    /\ al_session_id a = session /\ al_wallet_id a = w
    /\ exists k c, derive_key_from_store st (mkKeyRequest w session p network) encoding = Ok (k, c) /\ k_public_key k = expected.
Proof.
  intros Henc. induction candidates as [|[p expected] rest IH]; cbn [recover_participants]; [done|]. cbv zeta.
  destruct (request_validate _); [|done]. destruct (derive_key_from_store _ _ _) as [[k c]|] eqn:Hd; [|done]. cbn [fst].
  case_bool_decide as Hk; [|intros H; destruct (IH H) as (p' & e' & Hin & Hr); exists p', e'; split; [by right|done]].
  intros H. exists p, expected. split; [by left|].
  pose proof (allocate_secrets _ _ _ _ _ H) as Hsec.
  apply allocated_standing in H. eapply standing_key in H; [|exact Henc|by rewrite (derive_same _ _ _ _ Hsec)].
  cbn in H. destruct H as (-> & -> & -> & ->). split_and!; try done. by exists k, c.
Qed.

(** The key a wallet's seed derives for a participant of the terms is the one the
    terms name, or another one. *)
Definition seed_owns st (w : bytes) (terms : SwapRecoveryTerms) (encoding : bytes) p k c : Prop :=
  derive_key_from_store st (mkKeyRequest w (rt_session_id terms) p (rt_network terms)) encoding = Ok (k, c)
  /\ k_public_key k = key_in_terms terms p.
Definition seed_lacks st (w : bytes) (terms : SwapRecoveryTerms) (encoding : bytes) p : Prop :=
  exists k c, derive_key_from_store st (mkKeyRequest w (rt_session_id terms) p (rt_network terms)) encoding = Ok (k, c)
    /\ k_public_key k <> key_in_terms terms p.

(** Recovery reaches the first participant that is not a stranger to the seed. *)
Lemma recovery_reaches st w terms encoding now p :
  terms_validate terms = Ok tt -> recovery_in_range terms -> network_encode (rt_network terms) = Some encoding ->
  all_zero w = false -> (p = Maker \/ seed_lacks st w terms encoding Maker) ->
  let own := mkKeyRequest w (rt_session_id terms) p (rt_network terms) in
  recover_cross_chain_swap_key_allocation st w terms (rt_network terms) now =
  match derive_key_from_store st own encoding with
  | Ok (k, _) => if bool_decide (k_public_key k = key_in_terms terms p)
                 then allocate_cross_chain_swap_key st own now
                 else recover_participants st w (rt_session_id terms) (rt_network terms) encoding now
                        (if bool_decide (p = Maker) then [(Taker, taker_public_key terms)] else [])
  | Err e => (st, Err e)
  end.
Proof.
  intros Hv Hr Henc Hw Hp own. unfold recover_cross_chain_swap_key_allocation.
  rewrite Hv, bool_decide_eq_true_2, Henc by done. cbn [map_err negb ok_or].
  assert (forall q, request_validate (mkKeyRequest w (rt_session_id terms) q (rt_network terms)) = Ok encoding) as Hrq.
  { intros q. unfold request_validate. cbn [rq_wallet_id rq_session_id rq_network].
    rewrite Hw, (session_nonzero terms), (network_checked terms), Henc by done. done. }
  cbn [recover_participants]. rewrite !Hrq. cbv beta iota zeta. subst own.
  destruct p; cbn [key_in_terms].
  - destruct (derive_key_from_store _ _ _) as [[k c]|]; [|done]. rewrite (bool_decide_eq_true_2 (Maker = Maker)) by done.
    cbn [fst recover_participants]. by rewrite !Hrq.
  - destruct Hp as [?|(k & c & -> & Hne)]; [done|]. cbn [fst]. rewrite bool_decide_eq_false_2 by done.
    by destruct (derive_key_from_store _ _ _) as [[k2 c2]|].
Qed.

(** C22: a restored seed recovers its own keys, and only those. If a wallet's seed
    derives the key published terms name for a participant, a wallet with the same
    seed under any identifier derives the same secret, and recovery there allocates
    that participant's key (the taker's, if the maker's is not the seed's as well).
    If the seed derives neither of the two keys, recovery refuses the terms as
    another's and writes nothing; if a key cannot be derived, it fails with that
    error and writes nothing. And whatever recovery allocates, for any seed, is for
    a participant of the terms, with the public key they name and the seed derives.
    (The terms are valid, with fields within the widths of their types, their network
    has an encoding, and the wallet identifier is not zero.) *)
Theorem restored_seed_recovers st w terms encoding now :
  terms_validate terms = Ok tt -> recovery_in_range terms -> network_encode (rt_network terms) = Some encoding ->
  all_zero w = false ->
  let recovery := recover_cross_chain_swap_key_allocation st w terms (rt_network terms) now in
  let own p := mkKeyRequest w (rt_session_id terms) p (rt_network terms) in
  (forall st1 w1 p k c, get_secret st w SecretKind.RecoverySeed = get_secret st1 w1 SecretKind.RecoverySeed ->
     seed_owns st1 w1 terms encoding p k c ->
     (exists k2, seed_owns st w terms encoding p k2 c /\ k_secret k2 = k_secret k)
     /\ (p = Maker \/ seed_lacks st1 w1 terms encoding Maker -> recovery = allocate_cross_chain_swap_key st (own p) now))
  /\ (seed_lacks st w terms encoding Maker -> seed_lacks st w terms encoding Taker ->
      recovery = (st, Err SwapKeyError.WrongParticipant))
  /\ (forall p e, p = Maker \/ seed_lacks st w terms encoding Maker ->
      derive_key_from_store st (own p) encoding = Err e -> recovery = (st, Err e))
  /\ forall st' a, recovery = (st', Ok a) ->
      al_public_key a = key_in_terms terms (al_participant a) /\ al_session_id a = rt_session_id terms
      /\ al_wallet_id a = w /\ exists k c, seed_owns st w terms encoding (al_participant a) k c.
Proof.
  intros Hv Hr Henc Hw recovery own. pose proof (fun p => recovery_reaches st w terms encoding now p Hv Hr Henc Hw) as Hreach.
  split_and!.
  - intros st1 w1 p k c Hseed [Hd Hk]. pose proof (derive_restored _ _ _ _ _ _ _ _ _ _ Hseed Hd) as Hd2.
    split; [eexists; split; [by split; [exact Hd2|]|done]|]. intros Hp. subst recovery. rewrite (Hreach p).
    + rewrite Hd2. by rewrite bool_decide_eq_true_2 by done.
    + destruct Hp as [?|(km & cm & Hm & Hne)]; [by left|right]. eexists _, cm. by split; [apply (derive_restored _ _ _ _ _ _ _ _ _ _ Hseed Hm)|].
  - intros Hm (k & c & Hd & Hne). subst recovery. rewrite (Hreach Taker) by auto. rewrite Hd.
    by rewrite bool_decide_eq_false_2 by done.
  - intros p e Hp Hd. subst recovery own. rewrite (Hreach p Hp). by rewrite Hd.
  - intros st' a H. subst recovery. unfold recover_cross_chain_swap_key_allocation in H.
    rewrite Hv, bool_decide_eq_true_2, Henc in H by done. cbn [map_err negb ok_or] in H.
    apply recovered_participant in H as (q & expected & Hin & <- & <- & Hs & Ha & k & c & Hd & Hk); [|done].
    assert (al_public_key a = key_in_terms terms (al_participant a)) as Heq
      by (apply elem_of_cons in Hin as [[= -> ->]|Hin]; [done|]; by apply list_elem_of_singleton in Hin as [= -> ->]).
    split_and!; try done. exists k, c. split; [done|]. congruence.
Qed.
End Keys.

(** ** A wallet with a seed *)

Module ToySettlement.
Import Toy ToyTerms ToyRecovery.
(** The secret is the head of the seed; every seed has the maker's key. *)
Definition toy_settlement : SettlementEnv := {|
  hkdf_expand _ seed _ := Some (take 32 seed);
  SettlementSigningKey := bytes;
  settlement_signing_key secret := Some secret;
  compressed_point _ := Some (repeat x02 33);
  sign_prehash_normalized _ digest := Some digest;
  SwapSessionProposal := unit;
  proposal_terms _ := tt;
  make_proposal _ _ := Some tt;
  accept_proposal _ _ _ _ := Some tt;
|}.
#[global] Existing Instance toy_settlement | 100.

Definition seed : bytes := repeat x07 64.
Definition old_wallet : bytes := repeat x31 32.
Definition new_wallet : bytes := repeat x32 32.
Definition seeded (w : bytes) : WalletStore := (put_secret store0 w SecretKind.RecoverySeed seed 5).1.

Definition own_request (w : bytes) : CrossChainSwapKeyRequest := mkKeyRequest w (hash x01) Maker tt.
Definition own_allocation (w : bytes) : CrossChainSwapKeyAllocation :=
  mkAllocation 2 w (hash x01) Maker [x09] (context_commitment (own_request w) [x09]) (repeat x02 33)
    (recovery_seed_commitment_from_cleartext seed) 100.
#[global] Instance CrossChainSwapKeyAllocation_eq_dec : EqDecision CrossChainSwapKeyAllocation.
Proof. solve_decision. Defined.
Definition allocation_json : JsonCodec CrossChainSwapKeyAllocation :=
  listed (fun a b => bool_decide (a = b)) [own_allocation old_wallet; own_allocation new_wallet].
#[global] Existing Instance allocation_json | 100.
#[global] Instance allocation_json_laws : JsonLaws CrossChainSwapKeyAllocation.
Proof. apply listed_laws. intros a b. apply bool_decide_eq_true_1. Qed.
End ToySettlement.
Import Toy ToyTerms ToyRecovery ToySettlement.

Lemma allocation_stands_witness : exists st',
  allocate_cross_chain_swap_key (seeded old_wallet) (own_request old_wallet) 100 = (st', Ok (own_allocation old_wallet))
  /\ allocate_cross_chain_swap_key st' (own_request old_wallet) 200 = (st', Ok (own_allocation old_wallet)).
Proof.
  set (run := allocate_cross_chain_swap_key (seeded old_wallet) (own_request old_wallet) 100).
  assert (E : run = (run.1, Ok (own_allocation old_wallet))).
  { rewrite (surjective_pairing run) at 1. apply (f_equal (pair _)). vm_cast_no_check (@eq_refl (keyed CrossChainSwapKeyAllocation) (Ok (own_allocation old_wallet))). }
  pose proof (allocation_stands (seeded old_wallet) (own_request old_wallet) 100 run.1 (own_allocation old_wallet) E) as (_ & _ & H).
  exists run.1. split; [exact E|]. apply H; [lia|vm_compute; discriminate].
Defined.

Lemma restored_seed_recovers_witness :
  recover_cross_chain_swap_key_allocation (seeded new_wallet) new_wallet agreed tt 100
  = allocate_cross_chain_swap_key (seeded new_wallet) (own_request new_wallet) 100.
Proof.
  pose proof (restored_seed_recovers (seeded new_wallet) new_wallet agreed [x09] 100 eq_refl agreed_in_range eq_refl eq_refl) as [H _].
  apply (H (seeded old_wallet) old_wallet Maker (mkSwapKey (own_request old_wallet) (repeat x02 33) (repeat x07 32))
    (recovery_seed_commitment_from_cleartext seed)); [vm_cast_no_check (@eq_refl (result (option bytes) StoreError) (Ok (Some seed)))| |].
  - split; [|reflexivity]. vm_cast_no_check (@eq_refl (keyed (CrossChainSwapKey * bytes))
      (Ok (mkSwapKey (own_request old_wallet) (repeat x02 33) (repeat x07 32), recovery_seed_commitment_from_cleartext seed))).
  - left. reflexivity.
Defined.
