(* ===== verification/RecoveredSwap.v ===== *)
(** * Recovered swaps

    Models [crates/hns-wallet-market/src/recovered_swap.rs]: after a restore, the
    swaps found on a chain that are the wallet's own are kept as candidates for
    settlement, and verified spends of their contracts are recorded. With it come
    the listing by identifier prefix of [crates/hns-wallet-store/src/lib.rs] and the
    maker's preimage of [crates/hns-wallet-market/src/direct_offer.rs]. *)

From Stdlib Require Import Strings.Byte.
From stdpp Require Import sorting.
From S2P Require Import Prelude Types Codec Store Swap SwapProofs Terms SwapExec Recovery SettlementKey.

Definition CANDIDATE_PREFIX : bytes := str_bytes "shakescape/recovered-settlement/v1" ++ [x00].
Definition SETTLEMENT_PREFIX : bytes := str_bytes "shakescape/recovered-spend/v1" ++ [x00].
Definition MAX_RECOVERED_SWAPS : N := 1024.
Definition MAX_ENTITY_LIST_RESULTS : N := 10000.
Definition MAKER_PREIMAGE_SALT : bytes := str_bytes "hns-wallet/direct-maker-preimage/hkdf-sha256/v2" ++ [x00].
Definition MAKER_PREIMAGE_INFO : bytes := str_bytes "hns-wallet/direct-maker-preimage/value/v2" ++ [x00].
Definition MAKER_PREIMAGE_RECORD_DOMAIN : bytes :=
  str_bytes "hns-wallet/direct-maker-preimage/record/v2" ++ [x00].

(** ** Listing the store *)

Section Listing.
Context {senv : StoreEnv}.

(** [ORDER BY record_id]. *)
#[local] Instance entity_order_dec :
  RelDecision (fun a b : (string * bytes) * EntityRow => bytes_leb a.1.2 b.1.2 = true) :=
  fun a b => decide (bytes_leb a.1.2 b.1.2 = true).
Definition rows_with_prefix (st : WalletStore) (kind : EntityKind.t) (prefix : bytes) :
    list ((string * bytes) * EntityRow) :=
  merge_sort (fun a b => bytes_leb a.1.2 b.1.2 = true)
    (map_to_list (retain (fun k _ => bool_decide (k.1 = EntityKind.label kind)
                                     && bool_decide (take (length prefix) k.2 = prefix))
                    (encrypted_entities st))).

Fixpoint open_rows {T} `{JsonCodec T} (st : WalletStore) (k : bytes) (kind : EntityKind.t)
    (rows : list ((string * bytes) * EntityRow)) : result (list (StoredEntity T)) StoreError :=
  match rows with
  | [] => Ok []
  | ((_, id), row) :: rest =>
      let* _ := validate_id id in
      let* clear := open_entity st k kind id row in
      let* value := ok_or (json_from_slice clear) Json in
      let* entities := open_rows st k kind rest in
      Ok (mkEntity kind id (er_revision row) value (er_updated_at row) :: entities)
  end.

Definition list_entities_by_id_prefix {T} `{JsonCodec T} (st : WalletStore) (kind : EntityKind.t)
    (prefix : bytes) (limit : N) : result (list (StoredEntity T)) StoreError :=
  let* _ := validate_id prefix in
  if (limit =? 0) || (MAX_ENTITY_LIST_RESULTS <? limit) then Err InvalidListLimit else
  let* k := unlocked st in
  let rows := rows_with_prefix st kind prefix in
  if limit <? len rows then Err ListCapacity else open_rows st k kind rows.
End Listing.

(** ** Records *)

Record RecoveredSwapSettlement := mkSettlement {
  st_transaction : bytes;
  st_state : SwapState;
  verified_at_unix : N;
  current : bool;
}.

Record RecoveredSwapCandidate := mkCandidate {
  cd_wallet_id : bytes;
  cd_session_id : bytes;
  cd_participant : SwapParticipant;
  funding_transaction : bytes;
  cd_output_index : N;
  cd_network_encoding : bytes;
  cd_chain : N;
  cd_marker : bytes;
  cd_frames : list bytes;
}.
#[global] Instance SwapAssetSide_eq_dec : EqDecision SwapAssetSide.
Proof. solve_decision. Defined.
#[global] Instance RecoveredSwapCandidate_eq_dec : EqDecision RecoveredSwapCandidate.
Proof. solve_decision. Defined.

Abbreviation marketed A := (result A MarketError.t).

Section RecoveredSwap.
Context {senv : StoreEnv} {env : TermsEnv} {renv : RecoveryEnv} {kenv : SettlementEnv}.
Context {settlement_codec : JsonCodec RecoveredSwapSettlement} {candidate_codec : JsonCodec RecoveredSwapCandidate}
        {allocation_codec : JsonCodec CrossChainSwapKeyAllocation}.
Implicit Types (st : WalletStore).

Definition settlement_id (wallet_id session_id : bytes) (module : ModuleId) : marketed bytes :=
  match module with
  | Handshake => Ok (SETTLEMENT_PREFIX ++ wallet_id ++ session_id ++ [x00])
  | Bitcoin => Ok (SETTLEMENT_PREFIX ++ wallet_id ++ session_id ++ [x01])
  | Ethereum => Err MarketError.InvalidPair
  end.

Definition candidate_prefix (wallet_id : bytes) : bytes := CANDIDATE_PREFIX ++ wallet_id.
Definition candidate_id (wallet_id session_id : bytes) : bytes := candidate_prefix wallet_id ++ session_id.

Definition load_settlement_row st (id : bytes) : marketed (option (StoredEntity RecoveredSwapSettlement)) :=
  map_err MarketError.from_store (load_entity st EntityKind.SwapSession id).

Definition load_recovered_swap_settlement st (wallet_id session_id : bytes) (module : ModuleId) :
    marketed (option RecoveredSwapSettlement) :=
  let* id := settlement_id wallet_id session_id module in
  let* found := load_settlement_row st id in
  Ok (match found with
      | Some row => if current (se_value row) then Some (se_value row) else None
      | None => None
      end).

Definition save_row {T} `{JsonCodec T} st (id : bytes) (revision : N) (value : T) (now_unix : N) :
    WalletStore * marketed N :=
  let '(st, saved) := save_entity st EntityKind.SwapSession id revision value now_unix in
  (st, map_err MarketError.from_store saved).

Definition invalidate_recovered_swap_settlement st (wallet_id session_id : bytes) (module : ModuleId)
    (now_unix : N) : WalletStore * marketed unit :=
  if now_unix =? 0 then (st, Err MarketError.InvalidEvidence) else
  let! st, id := (st, settlement_id wallet_id session_id module) in
  let! st, found := (st, load_settlement_row st id) in
  match found with
  | Some row =>
      if current (se_value row) then
        let v := se_value row in
        let! st, _ := save_row st id (se_revision row)
          (mkSettlement (st_transaction v) (st_state v) (verified_at_unix v) false) now_unix in
        (st, Ok tt)
      else (st, Ok tt)
  | None => (st, Ok tt)
  end.

(** ** Candidates *)

Definition own_side (p : SwapParticipant) : SwapAssetSide := match p with Maker => Offered | Taker => Received end.

Definition candidate_publication (c : RecoveredSwapCandidate) (expected_network : NetworkBinding) :
    marketed SwapRecoveryPublication :=
  let* encoding := ok_or (network_encode expected_network) MarketError.InvalidEvidence in
  if negb (bool_decide (cd_network_encoding c = encoding)) then Err MarketError.InvalidEvidence else
  let* chain := if cd_chain c =? 0 then Ok CHAIN_HANDSHAKE
                else if cd_chain c =? 1 then Ok CHAIN_BITCOIN
                else Err MarketError.InvalidEvidence in
  let* publication := map_err (fun _ => MarketError.InvalidEvidence)
                        (publication_decode expected_network chain (cd_marker c) (cd_frames c)) in
  if negb (bool_decide (pub_side publication = own_side (cd_participant c)))
     || negb (bool_decide (rt_session_id (pub_terms publication) = cd_session_id c))
     || bool_decide (funding_transaction c = replicate 32 x00)
  then Err MarketError.InvalidEvidence else Ok publication.

Definition load_recovered_swap_candidate st (wallet_id session_id : bytes) (expected_network : NetworkBinding) :
    marketed (option RecoveredSwapCandidate) :=
  let* found := map_err MarketError.from_store
                  (load_entity st EntityKind.SwapSession (candidate_id wallet_id session_id)) in
  match found with
  | None => Ok None
  | Some row =>
      let c := se_value row in
      if negb (bool_decide (cd_wallet_id c = wallet_id)) || negb (bool_decide (cd_session_id c = session_id))
      then Err MarketError.InvalidEvidence else
      let* _ := candidate_publication c expected_network in
      Ok (Some c)
  end.

Fixpoint check_candidates (wallet_id : bytes) (expected_network : NetworkBinding)
    (rows : list (StoredEntity RecoveredSwapCandidate)) : marketed (list RecoveredSwapCandidate) :=
  match rows with
  | [] => Ok []
  | row :: rest =>
      let c := se_value row in
      if negb (bool_decide (se_id row = candidate_id wallet_id (cd_session_id c)))
         || negb (bool_decide (cd_wallet_id c = wallet_id))
      then Err MarketError.InvalidEvidence else
      let* _ := candidate_publication c expected_network in
      let* checked := check_candidates wallet_id expected_network rest in
      Ok (c :: checked)
  end.

Definition list_recovered_swap_candidates st (wallet_id : bytes) (expected_network : NetworkBinding) :
    marketed (list RecoveredSwapCandidate) :=
  let* rows := map_err MarketError.from_store
    (list_entities_by_id_prefix st EntityKind.SwapSession (candidate_prefix wallet_id) (MAX_RECOVERED_SWAPS + 1)) in
  if MAX_RECOVERED_SWAPS <? len rows then Err MarketError.InvalidEvidence else
  check_candidates wallet_id expected_network rows.

(** ** Spends *)

(** What a verified spend says: its module and chain, its transaction, whether it
    is a refund, and the preimage it reveals. *)
Definition spend_chain (s : LocallyVerifiedSwapSpend) : ChainId :=
  match s with SpendHns _ => CHAIN_HANDSHAKE | SpendBitcoin _ => CHAIN_BITCOIN end.

Definition spend_transaction (s : LocallyVerifiedSwapSpend) : bytes :=
  match s with
  | SpendHns (NativeRedeem tx _ _) => tx
  | SpendHns (NativeRefund tx _) => tx
  | SpendBitcoin o => spend_txid o
  end.

Definition spend_preimage (s : LocallyVerifiedSwapSpend) : option bytes :=
  match s with
  | SpendHns (NativeRedeem _ _ preimage) => Some preimage
  | SpendHns (NativeRefund _ _) => None
  | SpendBitcoin o => revealed_preimage o
  end.

Definition apply_recovered_swap_spend st (wallet_id session_id : bytes) (network : NetworkBinding)
    (spend : LocallyVerifiedSwapSpend) (now_unix : N) : WalletStore * marketed SwapState :=
  let! st, found := (st, load_recovered_swap_candidate st wallet_id session_id network) in
  let! st, candidate := (st, ok_or found MarketError.UnknownShakescapeDirectSwap) in
  let! st, publication := (st, candidate_publication candidate network) in
  let refund := is_refund spend in
  let transaction := spend_transaction spend in
  let side := if bool_decide (asset_chain (offered_asset (pub_terms publication)) = spend_chain spend)
              then Offered else Received in
  let parameters := htlc (pub_terms publication) side in
  if (confirmation_count spend <? hp_minimum_confirmations parameters) || (now_unix =? 0)
     || bool_decide (transaction = replicate 32 x00)
  then (st, Err MarketError.InvalidEvidence) else
  let! st, _ :=
    if refund then (st, Ok tt) else
    let! st, preimage := (st, ok_or (spend_preimage spend) MarketError.InvalidEvidence) in
    if bool_decide (sha256 preimage = hp_hashlock parameters) then (st, Ok tt)
    else (st, Err MarketError.InvalidEvidence) in
  let state := if refund then Refunded
               else if bool_decide (side = pub_side publication) && bool_decide (cd_participant candidate = Taker)
               then SecretObserved else FirstRedeemed in
  let! st, id := (st, settlement_id wallet_id session_id (spend_module spend)) in
  let! st, existing := (st, load_settlement_row st id) in
  if is_some_and existing (fun row => current (se_value row)
       && bool_decide (st_transaction (se_value row) = transaction)
       && bool_decide (st_state (se_value row) = state))
  then (st, Ok state) else
  let revision := match existing with Some row => se_revision row | None => 0 end in
  let! st, _ :=
    if refund then (st, Ok tt) else
    let! st, preimage := (st, ok_or (spend_preimage spend) MarketError.InvalidEvidence) in
    let '(st, put) := put_secret st (shakescape_observed_preimage_id session_id) SecretKind.HtlcPreimage
                        preimage now_unix in
    (st, map_err MarketError.from_store put) in
  let! st, _ := save_row st id revision (mkSettlement transaction state now_unix true) now_unix in
  (st, Ok state).

(** ** Retaining a candidate *)

Definition maker_preimage_record_id (session_id : bytes) : bytes := MAKER_PREIMAGE_RECORD_DOMAIN ++ session_id.

Definition derive_maker_preimage st (wallet_id session_id offer_id : bytes) : marketed bytes :=
  let* found := map_err MarketError.from_store (get_secret st wallet_id SecretKind.RecoverySeed) in
  let* seed := ok_or found MarketError.Invariant in
  if negb (len seed =? RECOVERY_SEED_BYTES) then Err MarketError.Invariant else
  let* preimage := ok_or (hkdf_expand MAKER_PREIMAGE_SALT seed (MAKER_PREIMAGE_INFO ++ session_id ++ offer_id))
                     MarketError.Invariant in
  if all_zero preimage then Err MarketError.Invariant else Ok preimage.

Definition retain_recovered_swap_candidate st (wallet_id : bytes) (terms : SwapRecoveryTerms)
    (side : SwapAssetSide) (funding : bytes) (output_index : N) (expected_network : NetworkBinding)
    (now_unix : N) : WalletStore * marketed (option RecoveredSwapCandidate) :=
  match recover_cross_chain_swap_key_allocation st wallet_id terms expected_network now_unix with
  | (st, Err SwapKeyError.WrongParticipant) => (st, Ok None)
  | (st, Err (SwapKeyError.Store error)) => (st, Err (MarketError.from_store error))
  | (st, Err _) => (st, Err MarketError.InvalidEvidence)
  | (st, Ok allocation) =>
      if negb (bool_decide (side = own_side (al_participant allocation))) then (st, Ok None) else
      let! st, publication := (st, map_err (fun _ => MarketError.InvalidEvidence) (from_terms terms side)) in
      let! st, encoding := (st, ok_or (network_encode expected_network) MarketError.InvalidEvidence) in
      let candidate := {|
        cd_wallet_id := wallet_id;
        cd_session_id := rt_session_id terms;
        cd_participant := al_participant allocation;
        funding_transaction := funding;
        cd_output_index := output_index;
        cd_network_encoding := encoding;
        cd_chain := if bool_decide (publication_chain publication = CHAIN_HANDSHAKE) then 0 else 1;
        cd_marker := pub_marker publication;
        cd_frames := pub_frames publication |} in
      let! st, _ := (st, candidate_publication candidate expected_network) in
      let id := candidate_id wallet_id (cd_session_id candidate) in
      let! st, found := (st, map_err MarketError.from_store
                           (load_entity (T := RecoveredSwapCandidate) st EntityKind.SwapSession id)) in
      match found with
      | Some existing =>
          if bool_decide (se_value existing = candidate) then (st, Ok (Some (se_value existing)))
          else (st, Err MarketError.InvalidEvidence)
      | None =>
          let! st, listed := (st, list_recovered_swap_candidates st wallet_id expected_network) in
          if MAX_RECOVERED_SWAPS <=? len listed then (st, Err MarketError.InvalidEvidence) else
          let! st, _ :=
            if bool_decide (al_participant allocation = Maker) then
              let! st, preimage := (st, derive_maker_preimage st wallet_id (cd_session_id candidate)
                                          (rt_direct_offer_id terms)) in
              if bool_decide (sha256 preimage = rt_hashlock terms) then
                let '(st, put) := put_secret st (maker_preimage_record_id (cd_session_id candidate))
                                    SecretKind.HtlcPreimage preimage now_unix in
                (st, map_err MarketError.from_store put)
              else (st, Ok tt)
            else (st, Ok tt) in
          let! st, _ := save_row st id 0 candidate now_unix in
          (st, Ok (Some candidate))
      end
  end.
End RecoveredSwap.
