(* ===== verification/RecoveredSwapTheorems.v ===== *)
(** * Properties of recovered swaps

    What is kept for settlement is the wallet's own and reads back; a redemption
    that is on record always has its preimage on file. *)

From Stdlib Require Import Strings.Byte.
From S2P Require Import Prelude Types Codec Store StoreRefine StoreTheorems StoreRows Swap SwapProofs Terms TermsTheorems SwapExec SwapExecProofs Recovery RecoveryTheorems SettlementKey SettlementKeyTheorems RecoveredSwap.

Section Recovered.
Context {senv : StoreEnv} {slaws : StoreEnvLaws} {env : TermsEnv} {laws : TermsEnvLaws} {renv : RecoveryEnv} {kenv : SettlementEnv}.
Context {settlement_codec : JsonCodec RecoveredSwapSettlement} {settlement_laws : JsonLaws RecoveredSwapSettlement}.
Context {candidate_codec : JsonCodec RecoveredSwapCandidate} {candidate_laws : JsonLaws RecoveredSwapCandidate}.
Context {allocation_codec : JsonCodec CrossChainSwapKeyAllocation} {allocation_laws : JsonLaws CrossChainSwapKeyAllocation}.
Implicit Types (st : WalletStore) (network : NetworkBinding).

(** ** Identifiers *)

Lemma settlement_id_shape w session module id : settlement_id w session module = Ok id ->
  exists m, id = SETTLEMENT_PREFIX ++ w ++ session ++ [m].
Proof. destruct module; intros [= <-]; eauto. Qed.

Lemma settlement_id_inj w s1 m1 s2 m2 id : settlement_id w s1 m1 = Ok id -> settlement_id w s2 m2 = Ok id -> s1 = s2 /\ m1 = m2.
Proof.
  intros H1 H2. assert (H : settlement_id w s1 m1 = settlement_id w s2 m2) by congruence. clear H2.
  destruct m1, m2; try discriminate H; try discriminate H1; injection H as H; rewrite !app_assoc in H; apply app_inj_tail in H as [H ?];
    try discriminate; split; try done; by apply app_inv_head in H.
Qed.

Lemma candidate_not_settlement w s w' s' m id : settlement_id w' s' m = Ok id -> id <> candidate_id w s.
Proof. intros [x ->]%settlement_id_shape H. apply (f_equal (take 24)) in H. discriminate H. Qed.

Lemma candidate_id_inj w s1 s2 : candidate_id w s1 = candidate_id w s2 -> s1 = s2.
Proof. apply app_inv_head. Qed.

Lemma observed_id_inj s1 s2 : shakescape_observed_preimage_id s1 = shakescape_observed_preimage_id s2 -> s1 = s2.
Proof. apply app_inv_head. Qed.

Lemma observed_not_maker s1 s2 : shakescape_observed_preimage_id s1 <> maker_preimage_record_id s2.
Proof. intros H. apply (f_equal (take 11)) in H. discriminate H. Qed.

(** ** Writing a swap record *)

Lemma save_row_cases {T} `{JsonLaws T} st id rev (v : T) now st' r : save_row st id rev v now = (st', r) ->
  same_secrets st st'
  /\ (forall key', key' <> entity_key EntityKind.SwapSession id -> encrypted_entities st' !! key' = encrypted_entities st !! key')
  /\ match r with
     | Ok _ => exists n, load_entity st' EntityKind.SwapSession id = Ok (Some (mkEntity EntityKind.SwapSession id n v now))
     | Err _ => encrypted_entities st' = encrypted_entities st
     end.
Proof.
  unfold save_row. destruct (save_entity _ _ _ _ _ _) as [st1 saved] eqn:Hs. apply save_entity_row in Hs as [Hsec Hrow].
  intros [= <- <-]. split; [done|]. destruct saved as [n|e]; cbn [map_err]; [|by rewrite Hrow].
  destruct Hrow as (_ & Hl & Ho). split; [done|]. by exists n.
Qed.

(** A write of another swap record leaves a record as it reads. *)
Lemma save_row_other {T U} `{JsonLaws T} `{JsonCodec U} st id rev (v : T) now st' r id' : save_row st id rev v now = (st', r) ->
  id' <> id -> load_entity (T := U) st' EntityKind.SwapSession id' = load_entity st EntityKind.SwapSession id'.
Proof.
  intros ((Hk & Hd & _) & Ho & _)%save_row_cases Hne. apply load_entity_same; [done..|].
  apply Ho. by intros [_ ?]%entity_key_inj.
Qed.

(** ** Spends *)

Lemma htlc_hashlock terms side : hp_hashlock (htlc terms side) = rt_hashlock terms.
Proof. by destruct side. Qed.

(** The side the spent contract is on. *)
Definition spent_side (p : SwapRecoveryPublication) (spend : LocallyVerifiedSwapSpend) : SwapAssetSide :=
  if bool_decide (asset_chain (offered_asset (pub_terms p)) = spend_chain spend) then Offered else Received.

(** What a spend must show against the candidate on file. *)
Record spend_accepted st w session network spend c p : Prop := {
  sa_candidate : load_recovered_swap_candidate st w session network = Ok (Some c);
  sa_publication : candidate_publication c network = Ok p;
  sa_confirmed : hp_minimum_confirmations (htlc (pub_terms p) (spent_side p spend)) <= confirmation_count spend;
  sa_preimage : is_refund spend = false -> exists preimage, spend_preimage spend = Some preimage
    /\ sha256 preimage = rt_hashlock (pub_terms p);
}.

(** The record the spend leaves, and the store after its preimage is kept. *)
Definition spend_state c (p : SwapRecoveryPublication) spend : SwapState :=
  if is_refund spend then Refunded
  else if bool_decide (spent_side p spend = pub_side p) && bool_decide (cd_participant c = Taker) then SecretObserved
  else FirstRedeemed.

Definition preimage_kept st session spend now st1 (put : marketed unit) : Prop :=
  if is_refund spend then st1 = st /\ put = Ok tt
  else exists preimage stored, spend_preimage spend = Some preimage
    /\ put_secret st (shakescape_observed_preimage_id session) SecretKind.HtlcPreimage preimage now = (st1, stored)
    /\ put = map_err MarketError.from_store stored.

Lemma apply_spend_cases st w session network spend now st' r :
  apply_recovered_swap_spend st w session network spend now = (st', r) ->
  (st' = st /\ exists e, r = Err e)
  \/ exists c p id, spend_accepted st w session network spend c p /\ settlement_id w session (spend_module spend) = Ok id
     /\ ((st' = st /\ r = Ok (spend_state c p spend)
           /\ exists row, load_settlement_row st id = Ok (Some row) /\ current (se_value row) = true
              /\ st_transaction (se_value row) = spend_transaction spend /\ st_state (se_value row) = spend_state c p spend)
         \/ exists st1 put, preimage_kept st session spend now st1 put
            /\ match put with
               | Err e => st' = st1 /\ r = Err e
               | Ok _ => exists rev saved,
                   save_row st1 id rev (mkSettlement (spend_transaction spend) (spend_state c p spend) now true) now = (st', saved)
                   /\ r = match saved with Ok _ => Ok (spend_state c p spend) | Err e => Err e end
               end).
Proof.
  unfold apply_recovered_swap_spend. intros H.
  destruct (load_recovered_swap_candidate _ _ _ _) as [found|] eqn:Hl; [|left; simplify_eq; eauto].
  destruct (ok_or found _) as [c|] eqn:Hf; [|left; simplify_eq; eauto]. apply ok_or_Ok in Hf as ->.
  destruct (candidate_publication c network) as [p|] eqn:Hp; [|left; simplify_eq; eauto]. cbv beta iota zeta in H.
  fold (spent_side p spend) in H. fold (spend_state c p spend) in H.
  match type of H with (if ?b then _ else _) = _ => destruct b eqn:Hb; [left; simplify_eq; eauto|] end. bool_prop.
  rewrite htlc_hashlock in H.
  assert (Hshown : (st' = st /\ exists e, r = Err e) \/ (is_refund spend = false -> exists preimage, spend_preimage spend = Some preimage
    /\ sha256 preimage = rt_hashlock (pub_terms p))).
  { destruct (is_refund spend); [by right|]. destruct (spend_preimage spend) as [preimage|]; cbn [ok_or] in H; [|left; simplify_eq; eauto].
    case_bool_decide as Hsha; [|left; simplify_eq; eauto]. right. eauto. }
  destruct Hshown as [|Hshown]; [by left|].
  match type of H with context [match ?guard with (_, _) => _ end] => assert (guard = (st, Ok tt)) as Eg end.
  { destruct (is_refund spend); [done|]. destruct (Hshown eq_refl) as (preimage & -> & Hsha). cbn [ok_or]. by rewrite bool_decide_eq_true_2. }
  rewrite Eg in H. clear Eg. cbv beta iota zeta in H.
  destruct (settlement_id _ _ _) as [id|] eqn:Hid; [|left; simplify_eq; eauto]. cbv beta iota zeta in H.
  destruct (load_settlement_row st id) as [existing|] eqn:Hrow; [|left; simplify_eq; eauto]. cbv beta iota zeta in H.
  right. exists c, p, id. split; [by split; [done..|lia|done]|]. split; [done|].
  destruct (is_some_and _ _) eqn:Hsome.
  { left. injection H as <- <-. split_and!; try done. destruct existing as [row|]; [|done]. cbn in Hsome. bool_prop. by exists row. }
  right. unfold preimage_kept. destruct (is_refund spend).
  { exists st, (Ok tt). split; [done|]. destruct (save_row _ _ _ _ _) as [st2 saved] eqn:Hs.
    assert (st' = st2) as -> by (by destruct saved; simplify_eq). eexists _, saved. split; [exact Hs|].
    by destruct saved; simplify_eq. }
  destruct (Hshown eq_refl) as (preimage & Epre & _). rewrite Epre in H |- *. cbn [ok_or] in H.
  destruct (put_secret _ _ _ _ _) as [st1 stored] eqn:Hput. exists st1, (map_err MarketError.from_store stored).
  split; [by exists preimage, stored|]. destruct (map_err _ _); cbv beta iota zeta in H; [|by simplify_eq].
  destruct (save_row _ _ _ _ _) as [st2 saved] eqn:Hs.
  assert (st' = st2) as -> by (by destruct saved; simplify_eq). eexists _, saved. split; [exact Hs|]. by destruct saved; simplify_eq.
Qed.

(** ** Retaining *)

(** The candidate is made from the allocation and the terms. *)
Record made_from w terms side funding out network (a : CrossChainSwapKeyAllocation) c : Prop := {
  mf_wallet : cd_wallet_id c = w;
  mf_session : cd_session_id c = rt_session_id terms;
  mf_participant : cd_participant c = al_participant a;
  mf_side : side = own_side (al_participant a);
  mf_funding : funding_transaction c = funding /\ cd_output_index c = out;
  mf_publication : exists p q, from_terms terms side = Ok p /\ cd_marker c = pub_marker p /\ cd_frames c = pub_frames p
    /\ cd_chain c = (if bool_decide (publication_chain p = CHAIN_HANDSHAKE) then 0 else 1)
    /\ candidate_publication c network = Ok q;
}.

(** The store after the maker's preimage is kept, if it is. *)
Definition maker_kept st session now st2 : Prop :=
  st2 = st \/ exists preimage stored,
    put_secret st (maker_preimage_record_id session) SecretKind.HtlcPreimage preimage now = (st2, stored).

Abbreviation load_candidate_row st w session :=
  (load_entity (T := RecoveredSwapCandidate) st EntityKind.SwapSession (candidate_id w session)).

Lemma retain_cases st w terms side funding out network now st' r :
  retain_recovered_swap_candidate st w terms side funding out network now = (st', r) ->
  exists st1 recovered, recover_cross_chain_swap_key_allocation st w terms network now = (st1, recovered)
  /\ ((st' = st1 /\ forall c, r <> Ok (Some c))
      \/ exists a c, recovered = Ok a /\ made_from w terms side funding out network a c
         /\ ((exists row, load_candidate_row st1 w (rt_session_id terms) = Ok (Some row) /\ se_value row = c
               /\ st' = st1 /\ r = Ok (Some c))
             \/ (load_candidate_row st1 w (rt_session_id terms) = Ok None
                 /\ exists st2, maker_kept st1 (rt_session_id terms) now st2
                    /\ ((st' = st2 /\ exists e, r = Err e)
                        \/ exists saved, save_row st2 (candidate_id w (rt_session_id terms)) 0 c now = (st', saved)
                           /\ r = match saved with Ok _ => Ok (Some c) | Err e => Err e end)))).
Proof.
  unfold retain_recovered_swap_candidate. intros H.
  destruct (recover_cross_chain_swap_key_allocation _ _ _ _ _) as [st1 recovered]. exists st1, recovered. split; [done|].
  assert (Hearly : (st1, Ok None) = (st', r) \/ (exists e, (st1, Err e) = (st', r)) -> st' = st1 /\ forall c, r <> Ok (Some c))
    by (intros [|[??]]; simplify_eq; done).
  destruct recovered as [a|e]; [|left; apply Hearly; destruct e; simplify_eq; eauto].
  destruct (negb _) eqn:Hside in H; [left; auto|]. bool_prop.
  destruct (map_err _ (from_terms terms side)) as [p|] eqn:Hp; [|left; apply Hearly; eauto].
  apply map_err_Ok in Hp. destruct (ok_or _ _) as [encoding|] eqn:He in H; [|left; apply Hearly; eauto].
  cbv beta iota zeta in H. cbn [cd_session_id] in H.
  match type of H with context [save_row _ _ 0 ?made _] => set (c := made) in * end.
  destruct (candidate_publication c network) as [q|] eqn:Hq; [|left; apply Hearly; eauto].
  destruct (map_err _ (load_entity _ _ _)) as [found|] eqn:Hload; [|left; apply Hearly; eauto]. apply map_err_Ok in Hload.
  cbv beta iota zeta in H.
  assert (made_from w terms side funding out network a c) as Hmade by (split; try done; by exists p, q).
  destruct found as [existing|].
  { case_bool_decide as Hv; [|left; apply Hearly; eauto]. right. exists a, c. split_and!; try done. left. exists existing.
    injection H as <- <-. by rewrite Hv. }
  destruct (list_recovered_swap_candidates _ _ _) as [listed|]; [|left; apply Hearly; eauto].
  destruct (_ <=? _); [left; apply Hearly; eauto|]. right. exists a, c. split_and!; try done. right. split; [done|].
  match type of H with context [match ?guard with (_, _) => _ end] => destruct guard as [st2 kept] eqn:Eg end.
  exists st2. split.
  { unfold maker_kept. case_bool_decide; [|by left; simplify_eq].
    destruct (derive_maker_preimage _ _ _ _) as [preimage|]; cbv beta iota zeta in Eg; [|by left; simplify_eq].
    case_bool_decide; [|by left; simplify_eq]. right. destruct (put_secret _ _ _ _ _) as [st3 stored] eqn:Hput.
    exists preimage, stored. by simplify_eq. }
  destruct kept; [|left; simplify_eq; eauto]. right. destruct (save_row _ _ _ _ _) as [st3 saved] eqn:Hs.
  exists saved. destruct saved; by simplify_eq.
Qed.

Lemma recovered_own st w terms network now st1 a :
  recover_cross_chain_swap_key_allocation st w terms network now = (st1, Ok a) ->
  rt_network terms = network
  /\ exists encoding k c, network_encode network = Some encoding
     /\ derive_key_from_store st (mkKeyRequest w (rt_session_id terms) (al_participant a) network) encoding = Ok (k, c)
     /\ k_public_key k = key_in_terms terms (al_participant a).
Proof.
  unfold recover_cross_chain_swap_key_allocation. destruct (map_err _ _); [|done]. destruct (negb _) eqn:Hn; [done|]. bool_prop.
  destruct (ok_or _ _) as [encoding|] eqn:He; [|done]. apply ok_or_Ok in He. cbv beta iota zeta.
  intros (q & expected & Hin & <- & _ & _ & _ & k & c & Hd & Hk)%recovered_participant; [|done].
  split; [done|]. exists encoding, k, c. split; [done|]. split; [done|]. rewrite Hk.
  apply elem_of_cons in Hin as [[= -> ->]|Hin]; [done|]. by apply list_elem_of_singleton in Hin as [= -> ->].
Qed.

(** The publication of the candidate is the one its terms are published as. *)
Lemma made_publication w terms side funding out network a c : recovery_in_range terms -> (forall b, length (sha256 b) = 32%nat) ->
  rt_network terms = network -> made_from w terms side funding out network a c ->
  exists p, candidate_publication c network = Ok p /\ from_terms terms side = Ok p /\ pub_terms p = terms.
Proof.
  intros Hr Hsha Hnet [_ _ _ _ _ (p & q & Hp & Hm & Hf & Hc & Hq)]. pose proof (from_terms_facts _ _ _ Hp) as (E1 & E2 & _ & limit & _ & Hl & _).
  rewrite <- E1, <- E2 in Hp. rewrite <- E1 in Hr, Hnet. pose proof (own_publication_decodes p Hr Hsha Hp) as Hd.
  exists p. rewrite E1, E2 in Hp. split_and!; [|done..]. pose proof Hq as Hq'. unfold candidate_publication in Hq' |- *.
  rewrite Hm, Hf, Hc in *. destruct (ok_or _ _); [|done]. destruct (negb _); [done|].
  apply limit_cases in Hl as [[Hl _]|[Hl _]]; rewrite Hl, Hnet in Hd; rewrite Hl in Hq' |- *.
  1: rewrite (bool_decide_eq_false_2 (CHAIN_BITCOIN = CHAIN_HANDSHAKE)) in Hq' |- * by (pose proof chain_distinct; congruence).
  2: rewrite (bool_decide_eq_true_2 (CHAIN_HANDSHAKE = CHAIN_HANDSHAKE)) in Hq' |- * by done.
  all: cbn [N.eqb Pos.eqb] in Hq' |- *; cbv beta iota zeta in Hq' |- *; rewrite Hd in Hq' |- *; cbn [map_err] in Hq' |- *.
  all: by destruct (_ || _).
Qed.

Lemma load_candidate_made st w session network c n now q : candidate_publication c network = Ok q ->
  cd_wallet_id c = w -> cd_session_id c = session ->
  load_candidate_row st w session = Ok (Some (mkEntity EntityKind.SwapSession (candidate_id w session) n c now)) ->
  load_recovered_swap_candidate st w session network = Ok (Some c).
Proof.
  intros Hq Hw Hs Hl. unfold load_recovered_swap_candidate. rewrite Hl. cbn [map_err se_value].
  rewrite !bool_decide_eq_true_2 by done. cbn [negb orb]. by rewrite Hq.
Qed.

(** C21: what is kept after a restore is the wallet's own. If a contract found on a
    chain is retained, the participant's key in its terms is the one the wallet's
    seed derives for the session and the encoding of the network, the contract is the one that participant funds,
    and the candidate reads back with exactly these terms and this output. If it is
    not retained, no swap record changes. *)
Theorem recovered_candidate_is_own st w terms side funding out network now st' r :
  recovery_in_range terms -> (forall b, length (sha256 b) = 32%nat) ->
  retain_recovered_swap_candidate st w terms side funding out network now = (st', r) ->
  match r with
  | Ok (Some c) =>
      load_recovered_swap_candidate st' w (rt_session_id terms) network = Ok (Some c)
      /\ (exists p, candidate_publication c network = Ok p /\ from_terms terms side = Ok p /\ pub_terms p = terms)
      /\ side = own_side (cd_participant c) /\ funding_transaction c = funding /\ cd_output_index c = out
      /\ exists encoding k seed, network_encode network = Some encoding
         /\ derive_key_from_store st (mkKeyRequest w (rt_session_id terms) (cd_participant c) network) encoding = Ok (k, seed)
         /\ k_public_key k = key_in_terms terms (cd_participant c)
  | _ => forall id, encrypted_entities st' !! entity_key EntityKind.SwapSession id
                    = encrypted_entities st !! entity_key EntityKind.SwapSession id
  end.
Proof.
  intros Hr Hsha (st1 & recovered & Hrec & H)%retain_cases. pose proof (recover_rows _ _ _ _ _ _ _ Hrec) as [_ Hrows].
  assert (forall id, encrypted_entities st1 !! entity_key EntityKind.SwapSession id
                    = encrypted_entities st !! entity_key EntityKind.SwapSession id) as Hswap by (intros; by apply Hrows).
  destruct H as [[-> Hnone]|(a & c & -> & Hmade & H)].
  { destruct r as [[c|]|]; [by destruct (Hnone c)|done..]. }
  apply recovered_own in Hrec as [Hnet Hkey]. pose proof (made_publication _ _ _ _ _ _ _ _ Hr Hsha Hnet Hmade) as Hpub.
  destruct Hmade as [Hw Hs Hpart Hside [Hfund Hout] _]. rewrite <- Hpart in *. pose proof Hpub as (p & Hp & _).
  destruct H as [(row & Hl & Hv & -> & ->)|(Hl & st2 & Hkept & H)].
  { split_and!; try done. unfold load_recovered_swap_candidate. rewrite Hl. cbn [map_err]. rewrite Hv.
    rewrite !bool_decide_eq_true_2 by done. cbn [negb orb]. by rewrite Hp. }
  assert (encrypted_entities st2 = encrypted_entities st1) as E2.
  { destruct Hkept as [->|(preimage & stored & Hput)]; [done|]. by apply put_secret_frame in Hput as (_ & _ & ? & _). }
  destruct H as [[-> [e ->]]|(saved & Hsave & ->)]; [intros; by rewrite E2|].
  apply save_row_cases in Hsave as (_ & _ & Hsave). destruct saved as [n|e]; [|intros; by rewrite Hsave, E2].
  destruct Hsave as [rev Hload]. split_and!; try done. by eapply load_candidate_made.
Qed.

(** ** Histories *)

(** What happens to the recovered swaps of one wallet on one network. *)
Inductive RecoveredOp :=
| Retain (terms : SwapRecoveryTerms) (side : SwapAssetSide) (funding : bytes) (out now : N)
| Spend (session : bytes) (spend : LocallyVerifiedSwapSpend) (now : N)
| Invalidate (session : bytes) (module : ModuleId) (now : N).

Definition recovered_step w network st (op : RecoveredOp) : WalletStore :=
  match op with
  | Retain terms side funding out now => (retain_recovered_swap_candidate st w terms side funding out network now).1
  | Spend session spend now => (apply_recovered_swap_spend st w session network spend now).1
  | Invalidate session module now => (invalidate_recovered_swap_settlement st w session module now).1
  end.

(** The preimage of the session's hashlock is on file. *)
Definition preimage_on_file w network st session : Prop :=
  exists c p preimage, load_recovered_swap_candidate st w session network = Ok (Some c)
    /\ candidate_publication c network = Ok p
    /\ get_secret st (shakescape_observed_preimage_id session) SecretKind.HtlcPreimage = Ok (Some preimage)
    /\ sha256 preimage = rt_hashlock (pub_terms p).

Definition redemptions_backed w network st : Prop := forall session module r,
  load_recovered_swap_settlement st w session module = Ok (Some r) -> st_state r <> Refunded ->
  preimage_on_file w network st session.

(** A step that keeps the settlement's row, the candidate's row and the preimage. *)
Lemma backed_frame w network st st' session : key st' = key st -> database_id st' = database_id st ->
  (forall c, load_recovered_swap_candidate st w session network = Ok (Some c) ->
     load_recovered_swap_candidate st' w session network = Ok (Some c)) ->
  secrets st' !! shakescape_observed_preimage_id session = secrets st !! shakescape_observed_preimage_id session ->
  preimage_on_file w network st session -> preimage_on_file w network st' session.
Proof.
  intros Hk Hd Hc Hs (c & p & preimage & Hl & Hp & Hg & Hsha). exists c, p, preimage. split_and!; try done; [by apply Hc|].
  by rewrite (get_secret_same st st').
Qed.

(** Settlements read from their rows. *)
Lemma load_settlement_same st st' w session module id : settlement_id w session module = Ok id ->
  load_entity (T := RecoveredSwapSettlement) st' EntityKind.SwapSession id = load_entity st EntityKind.SwapSession id ->
  load_recovered_swap_settlement st' w session module = load_recovered_swap_settlement st w session module.
Proof. intros Hid Hl. unfold load_recovered_swap_settlement, load_settlement_row. by rewrite Hid, Hl. Qed.

Lemma load_candidate_same st st' w session network : load_candidate_row st' w session = load_candidate_row st w session ->
  load_recovered_swap_candidate st' w session network = load_recovered_swap_candidate st w session network.
Proof. intros Hl. unfold load_recovered_swap_candidate. by rewrite Hl. Qed.

(** The step keeps the preimages on file and the candidates, and leaves each
    settlement as it was or no longer current. *)
Record keeps w network st st' : Prop := {
  kp_key : key st' = key st;
  kp_database : database_id st' = database_id st;
  kp_candidates session c : load_recovered_swap_candidate st w session network = Ok (Some c) ->
    load_recovered_swap_candidate st' w session network = Ok (Some c);
  kp_preimages session : secrets st' !! shakescape_observed_preimage_id session = secrets st !! shakescape_observed_preimage_id session;
  kp_settlements session module r : load_recovered_swap_settlement st' w session module = Ok (Some r) ->
    load_recovered_swap_settlement st w session module = Ok (Some r);
}.

Lemma keeps_backed w network st st' : keeps w network st st' -> redemptions_backed w network st -> redemptions_backed w network st'.
Proof.
  intros [Hk Hd Hc Hp Hs] Hb session module r Hl Hr. apply (backed_frame w network st); auto. by eapply Hb; [apply Hs|].
Qed.

Lemma settlement_has_id st w session module r : load_recovered_swap_settlement st w session module = Ok (Some r) ->
  exists id, settlement_id w session module = Ok id.
Proof. unfold load_recovered_swap_settlement. destruct (settlement_id _ _ _); [eauto|done]. Qed.

(** Writing no swap record but a candidate where there was none keeps them. *)
Lemma keeps_rows w network st st' : key st' = key st -> database_id st' = database_id st ->
  (forall session, secrets st' !! shakescape_observed_preimage_id session = secrets st !! shakescape_observed_preimage_id session) ->
  (forall id, encrypted_entities st' !! entity_key EntityKind.SwapSession id = encrypted_entities st !! entity_key EntityKind.SwapSession id
     \/ exists s, id = candidate_id w s /\ load_candidate_row st w s = Ok None) ->
  keeps w network st st'.
Proof.
  intros Hk Hd Hs Hrows. split; try done.
  - intros session c Hc. destruct (Hrows (candidate_id w session)) as [Hrow|(s & ->%candidate_id_inj & Hnone)].
    + rewrite (load_candidate_same st); [done|]. by apply load_entity_same.
    + unfold load_recovered_swap_candidate in Hc. by rewrite Hnone in Hc.
  - intros session module r Hl. destruct (settlement_has_id _ _ _ _ _ Hl) as [id Hid].
    destruct (Hrows id) as [Hrow|(s & -> & _)]; [|by destruct (candidate_not_settlement _ _ _ _ _ _ Hid eq_refl)].
    rewrite (load_settlement_same st st' _ _ _ id) in Hl; [done..|]. by apply load_entity_same.
Qed.

Lemma retain_keeps w network st terms side funding out now : keeps w network st (recovered_step w network st (Retain terms side funding out now)).
Proof.
  cbn [recovered_step]. destruct (retain_recovered_swap_candidate _ _ _ _ _ _ _ _) as [st' res] eqn:H. cbn [fst].
  apply retain_cases in H as (st1 & recovered & Hrec & H). apply recover_rows in Hrec as [(Hk1 & Hd1 & Hs1) Hrows].
  assert (Hsame : st' = st1 -> keeps w network st st').
  { intros ->. apply keeps_rows; try done; [intros; by rewrite Hs1|]. intros id. left. by apply Hrows. }
  destruct H as [[-> _]|(a & c & _ & _ & [(row & _ & _ & -> & _)|(Hnone & st2 & Hkept & H)])]; [by apply Hsame..|].
  assert (Hst2 : key st2 = key st1 /\ database_id st2 = database_id st1 /\ encrypted_entities st2 = encrypted_entities st1
    /\ forall session, secrets st2 !! shakescape_observed_preimage_id session = secrets st1 !! shakescape_observed_preimage_id session).
  { destruct Hkept as [->|(preimage & stored & Hput)]; [done|].
    apply put_secret_frame in Hput as (? & ? & ? & Hs & _). split_and!; try done. intros. apply Hs, observed_not_maker. }
  destruct Hst2 as (Hk2 & Hd2 & He2 & Hs2).
  assert (Hst' : same_secrets st2 st' /\ forall key', key' <> entity_key EntityKind.SwapSession (candidate_id w (rt_session_id terms)) ->
    encrypted_entities st' !! key' = encrypted_entities st2 !! key').
  { destruct H as [[-> _]|(saved & Hsave & _)]; [done|]. by apply save_row_cases in Hsave as (? & ? & _). }
  destruct Hst' as [(Hk3 & Hd3 & Hs3) He3]. apply keeps_rows; [congruence..| |].
  - intros session. by rewrite Hs3, Hs2, Hs1.
  - intros id. destruct (decide (id = candidate_id w (rt_session_id terms))) as [->|Hne].
    + right. exists (rt_session_id terms). split; [done|]. rewrite <- Hnone. symmetry. apply load_entity_same; [done..|]. by apply Hrows.
    + left. rewrite He3, He2; [by apply Hrows|]. by intros [_ ?]%entity_key_inj.
Qed.

Lemma invalidate_keeps w network st session module now : keeps w network st (recovered_step w network st (Invalidate session module now)).
Proof.
  assert (Hid : keeps w network st st) by done. cbn [recovered_step]. unfold invalidate_recovered_swap_settlement.
  destruct (now =? 0); [done|]. destruct (settlement_id w session module) as [id|] eqn:Hsid; [|done]. cbv beta iota zeta.
  destruct (load_settlement_row st id) as [[row|]|]; [|done..]. destruct (current (se_value row)) eqn:Hcur; [|done].
  destruct (save_row _ _ _ _ _) as [st' saved] eqn:Hs. replace (match saved with Ok _ => _ | Err _ => _ end.1) with st' by by destruct saved.
  pose proof (save_row_cases _ _ _ _ _ _ _ Hs) as ((Hk & Hd & Hsec) & Ho & Hres). split; try done.
  - intros s c Hc. rewrite (load_candidate_same st); [done|]. apply (save_row_other _ _ _ _ _ _ _ _ Hs). intros E.
    exact (candidate_not_settlement w s _ _ _ _ Hsid (eq_sym E)).
  - intros s. by rewrite Hsec.
  - intros s m r Hl. destruct (settlement_has_id _ _ _ _ _ Hl) as [id' Hid']. destruct (decide (id' = id)) as [->|Hne].
    2: { rewrite (load_settlement_same st st' _ _ _ id') in Hl; [done..|]. by apply (save_row_other _ _ _ _ _ _ _ _ Hs). }
    destruct saved as [n|e].
    + destruct Hres as [rev Hload]. unfold load_recovered_swap_settlement, load_settlement_row in Hl. rewrite Hid', Hload in Hl. done.
    + rewrite (load_settlement_same st st' _ _ _ id) in Hl; [done..|]. apply load_entity_same; [done..|]. by rewrite Hres.
Qed.

(** After a spend was accepted and its preimage kept, the preimage is on file. *)
Lemma accepted_on_file w network st session spend now st1 c p : spend_accepted st w session network spend c p ->
  is_refund spend = false -> preimage_kept st session spend now st1 (Ok tt) -> preimage_on_file w network st1 session.
Proof.
  intros [Hl Hp _ Hpre] Hrf Hkept. unfold preimage_kept in Hkept. rewrite Hrf in Hkept.
  destruct Hkept as (preimage & stored & Epre & Hput & Eput). destruct (Hpre Hrf) as (preimage' & Epre' & Hsha). simplify_eq.
  destruct stored as [[]|]; [|done]. pose proof (put_secret_frame _ _ _ _ _ _ _ Hput) as (Hk & Hd & He & _).
  apply put_secret_cases in Hput as [_ Hget]. exists c, p, preimage. split_and!; try done; [|by apply Hget].
  rewrite (load_candidate_same st); [done|]. apply load_entity_same; [done..|]. by rewrite He.
Qed.

(** Keeping the preimage leaves what is on file on file. *)
Lemma kept_preimage_backed w network st session spend now st1 put c p : spend_accepted st w session network spend c p ->
  preimage_kept st session spend now st1 put -> redemptions_backed w network st -> redemptions_backed w network st1.
Proof.
  intros Hacc Hkept Hb. pose proof Hkept as Hkept'. unfold preimage_kept in Hkept'.
  destruct (is_refund spend) eqn:Hrf; [by destruct Hkept' as [-> _]|]. destruct Hkept' as (preimage & stored & _ & Hput & ->).
  pose proof (put_secret_frame _ _ _ _ _ _ _ Hput) as (Hk & Hd & He & Hs & Herr). intros s m r Hl Hr.
  assert (Hload : forall U (codec : JsonCodec U) id, load_entity (T := U) st1 EntityKind.SwapSession id = load_entity st EntityKind.SwapSession id)
    by (intros; apply load_entity_same; [done..|]; by rewrite He).
  destruct (settlement_has_id _ _ _ _ _ Hl) as [id Hid]. rewrite (load_settlement_same st st1 _ _ _ id) in Hl by done.
  assert (secrets st1 !! shakescape_observed_preimage_id s = secrets st !! shakescape_observed_preimage_id s
          \/ s = session /\ stored = Ok tt) as [Hsec|[-> ->]].
  { destruct stored as [[]|e]; [|by left; rewrite (Herr e)]. destruct (decide (s = session)) as [->|Hne]; [by right|].
    left. apply Hs. by intros ?%observed_id_inj. }
  - apply (backed_frame w network st); try done; [|by eapply Hb]. intros c'. by rewrite (load_candidate_same st st1).
  - by eapply accepted_on_file.
Qed.

Lemma spend_backed w network st session spend now : redemptions_backed w network st ->
  redemptions_backed w network (recovered_step w network st (Spend session spend now)).
Proof.
  intros Hb. cbn [recovered_step]. destruct (apply_recovered_swap_spend _ _ _ _ _ _) as [st' res] eqn:H. cbn [fst].
  apply apply_spend_cases in H as [[-> _]|(c & p & id & Hacc & Hid & [[-> _]|(st1 & put & Hkept & H)])]; [done..|].
  pose proof (kept_preimage_backed _ _ _ _ _ _ _ _ _ _ Hacc Hkept Hb) as Hb1.
  destruct put as [[]|e]; [|by destruct H as [-> _]]. destruct H as (rev & saved & Hs & _).
  pose proof (save_row_cases _ _ _ _ _ _ _ Hs) as ((Hk & Hd & Hsec) & _ & Hres). intros s m r Hl Hr.
  assert (Hcand : forall s c', load_recovered_swap_candidate st1 w s network = Ok (Some c') ->
                               load_recovered_swap_candidate st' w s network = Ok (Some c')).
  { intros s' c'. rewrite (load_candidate_same st1 st'); [done|]. apply (save_row_other _ _ _ _ _ _ _ _ Hs). intros E.
    exact (candidate_not_settlement w s' _ _ _ _ Hid (eq_sym E)). }
  destruct (settlement_has_id _ _ _ _ _ Hl) as [id' Hid'].
  apply (backed_frame w network st1); [done..|by apply Hcand|by rewrite Hsec|].
  destruct (decide (id' = id)) as [->|Hne].
  2: { rewrite (load_settlement_same st1 st' _ _ _ id') in Hl; [by eapply Hb1|done|]. by apply (save_row_other _ _ _ _ _ _ _ _ Hs). }
  destruct saved as [n|e].
  2: { rewrite (load_settlement_same st1 st' _ _ _ id) in Hl; [by eapply Hb1|done|]. apply load_entity_same; [done..|]. by rewrite Hres. }
  destruct Hres as [rev' Hload]. unfold load_recovered_swap_settlement, load_settlement_row in Hl. rewrite Hid', Hload in Hl.
  cbn in Hl. injection Hl as <-. destruct (settlement_id_inj _ _ _ _ _ _ Hid Hid') as [-> _].
  eapply accepted_on_file; [done| |done]. cbn [st_state] in Hr. unfold spend_state in Hr. by destruct (is_refund spend).
Qed.

(** C11: a redemption on record has its preimage on file. Start from a store without
    settlements of recovered swaps, and retain contracts, record spends and revoke
    them, of one wallet on one network, in any order, with any failures: whenever a settlement is current and is
    not a refund, the candidate of its session is on file and so is a preimage of
    the hashlock in its terms, with which the other side can be redeemed. *)
Theorem redemptions_have_preimages w network st ops :
  (forall session module r, load_recovered_swap_settlement st w session module <> Ok (Some r)) ->
  redemptions_backed w network (fold_left (recovered_step w network) ops st).
Proof.
  intros Hnone. assert (redemptions_backed w network st) as Hb by (intros s m r Hl; by destruct (Hnone s m r)).
  clear Hnone. revert st Hb. induction ops as [|op ops IH]; intros st Hb; [done|]. cbn [fold_left]. apply IH.
  destruct op; [eapply keeps_backed, Hb; apply retain_keeps|by apply spend_backed|eapply keeps_backed, Hb; apply invalidate_keeps].
Qed.
End Recovered.

(** ** A restored wallet *)

Module ToyRecovered.
Import Toy ToyTerms ToyRecovery ToySettlement.
Definition own_publication : SwapRecoveryPublication :=
  match from_terms agreed Offered with Ok p => p | Err _ => mkPublication agreed Offered [] [] end.
Definition own_candidate : RecoveredSwapCandidate :=
  mkCandidate new_wallet (hash x01) Maker (hash x21) 0 [x09] 1 (pub_marker own_publication) (pub_frames own_publication).
Definition candidate_json : JsonCodec RecoveredSwapCandidate := listed (fun a b => bool_decide (a = b)) [own_candidate].
#[global] Existing Instance candidate_json | 100.
#[global] Instance candidate_json_laws : JsonLaws RecoveredSwapCandidate.
Proof. apply listed_laws. intros a b. apply bool_decide_eq_true_1. Qed.

#[global] Instance RecoveredSwapSettlement_eq_dec : EqDecision RecoveredSwapSettlement.
Proof. solve_decision. Defined.
(** The maker's redemption of the taker's contract, current and revoked. *)
Definition redeemed (now : bool) : RecoveredSwapSettlement := mkSettlement (hash x22) FirstRedeemed 200 now.
Definition settlement_json : JsonCodec RecoveredSwapSettlement :=
  listed (fun a b => bool_decide (a = b)) [redeemed true; redeemed false].
#[global] Existing Instance settlement_json | 100.
#[global] Instance settlement_json_laws : JsonLaws RecoveredSwapSettlement.
Proof. apply listed_laws. intros a b. apply bool_decide_eq_true_1. Qed.

Definition restored : WalletStore := seeded new_wallet.
Definition redemption : LocallyVerifiedSwapSpend := SpendHns (NativeRedeem (hash x22) 2 (hash x07)).
Definition found : RecoveredOp := Retain agreed Offered (hash x21) 0 100.
End ToyRecovered.
Import Toy ToyTerms ToyRecovery ToySettlement ToyRecovered.

Abbreviation toy_retained := (retain_recovered_swap_candidate restored new_wallet agreed Offered (hash x21) 0 tt 100).

Lemma recovered_candidate_is_own_witness :
  load_recovered_swap_candidate toy_retained.1 new_wallet (hash x01) tt = Ok (Some own_candidate).
Proof.
  assert (E : toy_retained = (toy_retained.1, Ok (Some own_candidate))).
  { rewrite (surjective_pairing toy_retained) at 1. apply (f_equal (pair _)).
    vm_cast_no_check (@eq_refl (marketed (option RecoveredSwapCandidate)) (Ok (Some own_candidate))). }
  pose proof (recovered_candidate_is_own restored new_wallet agreed Offered (hash x21) 0 tt 100 toy_retained.1 (Ok (Some own_candidate))
    agreed_in_range toy_sha_length E) as H.
  exact (proj1 H).
Defined.

(** The redemption is revoked and recorded again. *)
Definition toy_history : list RecoveredOp :=
  [found; Spend (hash x01) redemption 200; Invalidate (hash x01) Handshake 200; Spend (hash x01) redemption 200].

Lemma redemptions_have_preimages_witness :
  preimage_on_file new_wallet tt (fold_left (recovered_step new_wallet tt) toy_history restored) (hash x01).
Proof.
  pose proof (redemptions_have_preimages new_wallet tt restored toy_history) as H.
  refine (H _ (hash x01) Handshake (redeemed true) _ _).
  - intros session module r. unfold load_recovered_swap_settlement, load_settlement_row, load_entity.
    destruct (settlement_id new_wallet session module) as [id|]; [|discriminate]. destruct (validate_id id); discriminate.
  - vm_cast_no_check (@eq_refl (marketed (option RecoveredSwapSettlement)) (Ok (Some (redeemed true)))).
  - discriminate.
Defined.
