(* ===== verification/Acceptance.v ===== *)
(** * Relay acceptance receipts

    Models [crates/hns-wallet-shakedex/src/acceptance.rs]: the policy a relay's
    receipt is checked against, the binary form of a receipt, its signature, and what
    is kept of it. The curve and SHA-256 are parameters. *)

From Stdlib Require Import Strings.Byte.
From S2P Require Import Prelude Types Codec Store.

Definition HNSA_NAMED_SERVICE_RESOURCE_PROFILE : bytes := str_bytes "hns.named-service/v1".
Definition MAX_SHAKESCAPE_PUBLICATION_ACCEPTANCE_BYTES : N := 768.
Definition ACCEPTANCE_MAGIC : bytes := str_bytes "HDRA".
Definition ACCEPTANCE_VERSION : N := 1.
Definition RELAY_ACCEPTED_OUTCOME : N := 1.
Definition ACCEPTANCE_SIGNATURE_DOMAIN : bytes := str_bytes "hns-wallet-shakescape-name-market-acceptance-v1" ++ [x00].
Definition ACCEPTANCE_ID_DOMAIN : bytes := str_bytes "hns-wallet-shakescape-name-market-acceptance-id-v1" ++ [x00].
Definition POLICY_FINGERPRINT_DOMAIN : bytes := str_bytes "hns-wallet-shakescape-publication-policy-v1" ++ [x00].
Definition MAX_RECEIPT_LIFETIME_SECONDS : N := 7 * 24 * 60 * 60.

(** The errors of the crate that the outbox and the receipts raise. *)
Module ShakedexError.
Inductive t :=
| InvalidShakescapeOutboxEnvelope | ShakescapeOutboxConflict | ShakescapeOutboxCapacity
| CorruptShakescapeOutbox | ShakescapeOutboxHandoffMismatch | InvalidShakescapeOutboxTransition
| ShakescapeOutboxRetryLimit | InvalidShakescapePublicationAcceptancePolicy
| InvalidShakescapePublicationAcceptance | ShakescapePublicationAcceptanceConflict
| Invariant | StaleRevision | Persistence.

Definition from_store (error : StoreError) : t :=
  match error with Codec.StaleRevision _ _ | StaleEntitySet => StaleRevision | _ => Persistence end.
End ShakedexError.
Abbreviation market A := (result A ShakedexError.t).

(** The curve and the hash. *)
Class AcceptanceEnv := {
  digest256 : bytes -> bytes;
  VerifyingKey : Type;
  key_from_sec1_bytes : bytes -> option VerifyingKey;
  Signature : Type;
  Signature_eq_dec : EqDecision Signature;
  signature_from_der : bytes -> option Signature;
  signature_to_der : Signature -> bytes;
  normalize_s : Signature -> Signature;
  verify_prehash : VerifyingKey -> bytes -> Signature -> bool;
}.
#[global] Existing Instance Signature_eq_dec.

(** ** Data *)

Inductive ShakescapeOutboxMessageKind := Offer | Cancellation.
#[global] Instance ShakescapeOutboxMessageKind_eq_dec : EqDecision ShakescapeOutboxMessageKind.
Proof. solve_decision. Defined.

(** [hns_swap::NetworkBinding]. *)
Record MarketNetwork := mkNetwork { magic : N; genesis : bytes }.

Record ShakescapeHrmRootBinding := mkHrm {
  subject : bytes;
  hrm_sequence : N;
  hrm_envelope_hash : bytes;
  chain_height : N;
  chain_work_be : bytes;
  chain_anchor : bytes;
}.
#[global] Instance ShakescapeHrmRootBinding_eq_dec : EqDecision ShakescapeHrmRootBinding.
Proof. solve_decision. Defined.

Record ShakescapeHnsaEndpointBinding := mkHnsa {
  canonical_service_name : bytes;
  application_profile_id : N;
  service_resource_id : bytes;
  service_delegation_id : bytes;
  service_generation : N;
  endpoint_delegation_id : bytes;
  endpoint_sequence : N;
  endpoint_public_key : bytes;
  effective_not_before_unix : N;
  effective_expires_at_unix : N;
}.
#[global] Instance ShakescapeHnsaEndpointBinding_eq_dec : EqDecision ShakescapeHnsaEndpointBinding.
Proof. solve_decision. Defined.

Record ShakescapePublicationAcceptancePolicy := mkPolicy {
  po_network_magic : N;
  po_network_genesis : bytes;
  hrm : ShakescapeHrmRootBinding;
  hnsa : ShakescapeHnsaEndpointBinding;
  maximum_receipt_lifetime_seconds : N;
  fingerprint : bytes;
}.
#[global] Instance ShakescapePublicationAcceptancePolicy_eq_dec : EqDecision ShakescapePublicationAcceptancePolicy.
Proof. solve_decision. Defined.

Record ShakescapePublicationAcceptanceSnapshot := mkSnapshotOf {
  sn_outbox_revision : N;
  sn_envelope_id : bytes;
  sn_content_id : bytes;
  sn_message_kind : ShakescapeOutboxMessageKind;
  sn_request_id : N;
  sn_attempt_id : bytes;
  sn_receipt_id : bytes;
  sn_policy_fingerprint : bytes;
  sn_accepted_at_unix : N;
  sn_receipt_expires_at_unix : N;
}.

Record PersistedShakescapePublicationAcceptance := mkPersisted {
  pa_receipt_id : bytes;
  pa_policy_fingerprint : bytes;
  pa_accepted_at_unix : N;
  pa_receipt_expires_at_unix : N;
  pa_receipt_bytes : bytes;
}.
#[global] Instance PersistedShakescapePublicationAcceptance_eq_dec : EqDecision PersistedShakescapePublicationAcceptance.
Proof. solve_decision. Defined.

Record ShakescapeAcceptanceExpectation := mkExpectation {
  ex_network_magic : N;
  ex_network_genesis : bytes;
  ex_attempt_id : bytes;
  ex_record_sequence : N;
  ex_prepared_at_unix : N;
  ex_envelope_id : bytes;
  ex_envelope_digest : bytes;
  ex_content_id : bytes;
  ex_message_kind : ShakescapeOutboxMessageKind;
  ex_request_id : N;
}.

Record ParsedAcceptance := mkParsed {
  policy : ShakescapePublicationAcceptancePolicy;
  policy_fingerprint : bytes;
  attempt_id : bytes;
  record_sequence : N;
  prepared_at_unix : N;
  envelope_id : bytes;
  envelope_digest : bytes;
  content_id : bytes;
  message_kind : ShakescapeOutboxMessageKind;
  request_id : N;
  issued_at_unix : N;
  expires_at_unix : N;
  signature : bytes;
}.

(** ** The policy *)

Definition is_zero (hash : bytes) : bool := bool_decide (hash = replicate 32 x00).

Definition is_ascii_lowercase (b : u8) : bool := (97 <=? Byte.to_N b) && (Byte.to_N b <=? 122).
Definition is_ascii_digit (b : u8) : bool := (48 <=? Byte.to_N b) && (Byte.to_N b <=? 57).

Definition is_canonical_service_name (name : bytes) : bool :=
  negb (is_empty name) && (len name <=? 63)
  && negb (bool_decide (head name = Some x2d)) && negb (bool_decide (head (rev name) = Some x2d))
  && forallb (fun b => is_ascii_lowercase b || is_ascii_digit b || bool_decide (b = x2d)) name.

Section Acceptance.
Context {env : AcceptanceEnv}.

Definition validate_fields (p : ShakescapePublicationAcceptancePolicy) : market unit :=
  let endpoint_key_is_valid := is_some (key_from_sec1_bytes (endpoint_public_key (hnsa p))) in
  if is_zero (po_network_genesis p) || is_zero (subject (hrm p)) || is_zero (hrm_envelope_hash (hrm p))
     || is_zero (chain_anchor (hrm p)) || is_zero (service_resource_id (hnsa p))
     || is_zero (service_delegation_id (hnsa p)) || is_zero (endpoint_delegation_id (hnsa p))
     || negb (is_canonical_service_name (canonical_service_name (hnsa p)))
     || (application_profile_id (hnsa p) =? 0) || (service_generation (hnsa p) =? 0)
     || (endpoint_sequence (hnsa p) =? 0) || negb endpoint_key_is_valid
     || (effective_expires_at_unix (hnsa p) <=? effective_not_before_unix (hnsa p))
     || negb ((1 <=? maximum_receipt_lifetime_seconds p)
              && (maximum_receipt_lifetime_seconds p <=? MAX_RECEIPT_LIFETIME_SECONDS))
  then Err ShakedexError.InvalidShakescapePublicationAcceptancePolicy else Ok tt.

Definition encode_material (p : ShakescapePublicationAcceptancePolicy) : bytes :=
  to_le_bytes 4 (po_network_magic p) ++ po_network_genesis p
  ++ subject (hrm p) ++ to_le_bytes 8 (hrm_sequence (hrm p)) ++ hrm_envelope_hash (hrm p)
  ++ to_le_bytes 8 (chain_height (hrm p)) ++ chain_work_be (hrm p) ++ chain_anchor (hrm p)
  ++ to_le_bytes 1 (len (canonical_service_name (hnsa p))) ++ canonical_service_name (hnsa p)
  ++ to_le_bytes 2 (application_profile_id (hnsa p)) ++ service_resource_id (hnsa p)
  ++ service_delegation_id (hnsa p) ++ to_le_bytes 8 (service_generation (hnsa p))
  ++ endpoint_delegation_id (hnsa p) ++ to_le_bytes 8 (endpoint_sequence (hnsa p))
  ++ endpoint_public_key (hnsa p) ++ to_le_bytes 8 (effective_not_before_unix (hnsa p))
  ++ to_le_bytes 8 (effective_expires_at_unix (hnsa p)) ++ to_le_bytes 4 (maximum_receipt_lifetime_seconds p).

Definition compute_fingerprint (p : ShakescapePublicationAcceptancePolicy) : bytes :=
  digest256 (POLICY_FINGERPRINT_DOMAIN ++ HNSA_NAMED_SERVICE_RESOURCE_PROFILE ++ [x00] ++ encode_material p).

Definition policy_new (network : MarketNetwork) (hrm : ShakescapeHrmRootBinding) (hnsa : ShakescapeHnsaEndpointBinding)
    (maximum_receipt_lifetime_seconds : N) : market ShakescapePublicationAcceptancePolicy :=
  let with_fingerprint f := mkPolicy (magic network) (genesis network) hrm hnsa maximum_receipt_lifetime_seconds f in
  let* _ := validate_fields (with_fingerprint (replicate 32 x00)) in
  Ok (with_fingerprint (compute_fingerprint (with_fingerprint (replicate 32 x00)))).

(** ** The reader *)

Record Decoder := mkDecoder { d_bytes : bytes; position : nat }.

Definition take_next (d : Decoder) (length : nat) : market (bytes * Decoder) :=
  let stop := (position d + length)%nat in
  if (List.length (d_bytes d) <? stop)%nat then Err ShakedexError.InvalidShakescapePublicationAcceptance else
  Ok (take length (drop (position d) (d_bytes d)), mkDecoder (d_bytes d) stop).

(** [u8], [u16], [u32] and [u64]. *)
Definition take_le (d : Decoder) (width : nat) : market (N * Decoder) :=
  let* (word, d) := take_next d width in
  Ok (from_le_bytes word, d).

Definition take_hash (d : Decoder) : market (bytes * Decoder) := take_next d 32.

Definition is_finished (d : Decoder) : bool := (position d =? length (d_bytes d))%nat.

(** ** Receipts *)

Definition kind_code (k : ShakescapeOutboxMessageKind) : u8 := match k with Offer => x01 | Cancellation => x02 end.

Definition encode_unsigned (p : ParsedAcceptance) : bytes :=
  ACCEPTANCE_MAGIC ++ to_le_bytes 2 ACCEPTANCE_VERSION ++ to_le_bytes 1 RELAY_ACCEPTED_OUTCOME
  ++ encode_material (policy p) ++ policy_fingerprint p ++ attempt_id p
  ++ to_le_bytes 8 (record_sequence p) ++ to_le_bytes 8 (prepared_at_unix p)
  ++ envelope_id p ++ envelope_digest p ++ content_id p ++ [kind_code (message_kind p)]
  ++ to_le_bytes 8 (request_id p) ++ to_le_bytes 8 (issued_at_unix p) ++ to_le_bytes 8 (expires_at_unix p).

Definition acceptance_digest (body : bytes) : bytes := digest256 (ACCEPTANCE_SIGNATURE_DOMAIN ++ body).

Definition parse_hrm (d : Decoder) : market (ShakescapeHrmRootBinding * Decoder) :=
  let* (subject, d) := take_hash d in
  let* (sequence, d) := take_le d 8 in
  let* (envelope_hash, d) := take_hash d in
  let* (height, d) := take_le d 8 in
  let* (work, d) := take_next d 32 in
  let* (anchor, d) := take_hash d in
  Ok (mkHrm subject sequence envelope_hash height work anchor, d).

Definition parse_hnsa (d : Decoder) : market (ShakescapeHnsaEndpointBinding * Decoder) :=
  let* (name_length, d) := take_le d 1 in
  let* (name, d) := take_next d (N.to_nat name_length) in
  let* (profile, d) := take_le d 2 in
  let* (resource, d) := take_hash d in
  let* (delegation, d) := take_hash d in
  let* (generation, d) := take_le d 8 in
  let* (endpoint, d) := take_hash d in
  let* (sequence, d) := take_le d 8 in
  let* (key, d) := take_next d 33 in
  let* (not_before, d) := take_le d 8 in
  let* (expires, d) := take_le d 8 in
  Ok (mkHnsa name profile resource delegation generation endpoint sequence key not_before expires, d).

(** The fields of a receipt, and where its signed part ends. *)
Definition parse_body (receipt : bytes) : market (ParsedAcceptance * nat) :=
  let invalid := ShakedexError.InvalidShakescapePublicationAcceptance in
  let* (start, d) := take_next (mkDecoder receipt 0) 4 in
  if negb (bool_decide (start = ACCEPTANCE_MAGIC)) then Err invalid else
  let* (version, d) := take_le d 2 in
  if negb (version =? ACCEPTANCE_VERSION) then Err invalid else
  let* (outcome, d) := take_le d 1 in
  if negb (outcome =? RELAY_ACCEPTED_OUTCOME) then Err invalid else
  let* (network_magic, d) := take_le d 4 in
  let* (network_genesis, d) := take_hash d in
  let* (root, d) := parse_hrm d in
  let* (service, d) := parse_hnsa d in
  let* (lifetime, d) := take_le d 4 in
  let* made := map_err (fun _ => invalid) (policy_new (mkNetwork network_magic network_genesis) root service lifetime) in
  let* (fingerprint, d) := take_hash d in
  let* (attempt, d) := take_hash d in
  let* (sequence, d) := take_le d 8 in
  let* (prepared_at, d) := take_le d 8 in
  let* (envelope, d) := take_hash d in
  let* (digest, d) := take_hash d in
  let* (content, d) := take_hash d in
  let* (code, d) := take_le d 1 in
  let* which := if code =? 1 then Ok Offer else if code =? 2 then Ok Cancellation else Err invalid in
  let* (request, d) := take_le d 8 in
  let* (issued, d) := take_le d 8 in
  let* (expires, d) := take_le d 8 in
  let signed_body_length := position d in
  let* (signature_length, d) := take_le d 2 in
  let* (signed, d) := take_next d (N.to_nat signature_length) in
  if negb (is_finished d) then Err invalid else
  Ok (mkParsed made fingerprint attempt sequence prepared_at envelope digest content which request issued expires signed,
      signed_body_length).

Definition parse_and_verify (receipt : bytes) : market ParsedAcceptance :=
  let invalid := ShakedexError.InvalidShakescapePublicationAcceptance in
  if is_empty receipt || (MAX_SHAKESCAPE_PUBLICATION_ACCEPTANCE_BYTES <? len receipt) then Err invalid else
  let* (parsed, signed_body_length) := parse_body receipt in
  let canonical_body := encode_unsigned parsed in
  if U16_MAX <? len (signature parsed) then Err invalid else
  let canonical_receipt := canonical_body ++ to_le_bytes 2 (len (signature parsed)) ++ signature parsed in
  if negb (length canonical_body =? signed_body_length)%nat || negb (bool_decide (canonical_receipt = receipt))
     || negb (bool_decide (policy_fingerprint parsed = fingerprint (policy parsed)))
  then Err invalid else
  let* signed := ok_or (signature_from_der (signature parsed)) invalid in
  if negb (bool_decide (signed = normalize_s signed)) || negb (bool_decide (signature_to_der signed = signature parsed))
  then Err invalid else
  let* key := ok_or (key_from_sec1_bytes (endpoint_public_key (hnsa (policy parsed)))) invalid in
  if verify_prehash key (acceptance_digest canonical_body) signed then Ok parsed else Err invalid.

(** ** What is kept *)

Definition validate_receipt_window (p : ParsedAcceptance) : market unit :=
  let invalid := ShakedexError.InvalidShakescapePublicationAcceptance in
  let* maximum_expiry := ok_or (u64_add (issued_at_unix p) (maximum_receipt_lifetime_seconds (policy p))) invalid in
  if (expires_at_unix p <=? issued_at_unix p)
     || (issued_at_unix p <? effective_not_before_unix (hnsa (policy p)))
     || (effective_expires_at_unix (hnsa (policy p)) <? expires_at_unix p)
     || (maximum_expiry <? expires_at_unix p)
  then Err invalid else Ok tt.

Definition persisted_acceptance (p : ParsedAcceptance) (receipt : bytes) :
    market PersistedShakescapePublicationAcceptance :=
  let* _ := validate_receipt_window p in
  Ok (mkPersisted (digest256 (ACCEPTANCE_ID_DOMAIN ++ receipt)) (policy_fingerprint p) (issued_at_unix p)
        (expires_at_unix p) receipt).

Definition validate_shakescape_publication_acceptance (wanted : ShakescapePublicationAcceptancePolicy)
    (expected : ShakescapeAcceptanceExpectation) (receipt : bytes) (accepted_at_unix : N) :
    market PersistedShakescapePublicationAcceptance :=
  let* parsed := parse_and_verify receipt in
  if negb (bool_decide (policy parsed = wanted))
     || negb (bool_decide (policy_fingerprint parsed = fingerprint wanted))
     || negb (po_network_magic (policy parsed) =? ex_network_magic expected)
     || negb (bool_decide (po_network_genesis (policy parsed) = ex_network_genesis expected))
     || negb (bool_decide (attempt_id parsed = ex_attempt_id expected))
     || negb (record_sequence parsed =? ex_record_sequence expected)
     || negb (prepared_at_unix parsed =? ex_prepared_at_unix expected)
     || negb (bool_decide (envelope_id parsed = ex_envelope_id expected))
     || negb (bool_decide (envelope_digest parsed = ex_envelope_digest expected))
     || negb (bool_decide (content_id parsed = ex_content_id expected))
     || negb (bool_decide (message_kind parsed = ex_message_kind expected))
     || negb (request_id parsed =? ex_request_id expected)
     || negb (issued_at_unix parsed =? accepted_at_unix)
     || (accepted_at_unix <? ex_prepared_at_unix expected)
  then Err ShakedexError.InvalidShakescapePublicationAcceptance else
  persisted_acceptance parsed receipt.

Definition validate_persisted_shakescape_publication_acceptance (persisted : PersistedShakescapePublicationAcceptance) :
    market ShakescapeAcceptanceExpectation :=
  let corrupt (_ : ShakedexError.t) := ShakedexError.CorruptShakescapeOutbox in
  let* parsed := map_err corrupt (parse_and_verify (pa_receipt_bytes persisted)) in
  let* recomputed := map_err corrupt (persisted_acceptance parsed (pa_receipt_bytes persisted)) in
  if negb (bool_decide (recomputed = persisted)) then Err ShakedexError.CorruptShakescapeOutbox else
  Ok (mkExpectation (po_network_magic (policy parsed)) (po_network_genesis (policy parsed)) (attempt_id parsed)
        (record_sequence parsed) (prepared_at_unix parsed) (envelope_id parsed) (envelope_digest parsed)
        (content_id parsed) (message_kind parsed) (request_id parsed)).
End Acceptance.
