(* ===== verification/AcceptanceTheorems.v ===== *)
(** * Properties of relay acceptance receipts

    A receipt is read exactly if it is the canonical signed form of its fields; what
    is kept of a receipt is what it says. *)

From Stdlib Require Import Strings.Byte.
From S2P Require Import Prelude Types Codec Store Acceptance.

Section Receipts.
Context {env : AcceptanceEnv}.
Implicit Types (d : Decoder) (p : ParsedAcceptance).

(** ** The reader *)

(** What is left to read. *)
Definition left_to d (rest : bytes) : Prop :=
  drop (position d) (d_bytes d) = rest /\ (position d <= length (d_bytes d))%nat.

Lemma left_position d rest : left_to d rest -> (position d + length rest = length (d_bytes d))%nat.
Proof. intros [<- Hle]. rewrite length_drop. lia. Qed.

Lemma take_next_left d n a post : length a = n -> left_to d (a ++ post) ->
  exists d', take_next d n = Ok (a, d') /\ left_to d' post /\ d_bytes d' = d_bytes d.
Proof.
  intros <- Hl. pose proof (left_position _ _ Hl) as Hp. destruct Hl as [Hd Hle]. rewrite length_app in Hp. unfold take_next.
  rewrite (proj2 (Nat.ltb_ge _ _)) by lia. rewrite Hd, take_app_length. eexists. split_and!; [done| |done].
  split; cbn; [|lia]. by rewrite <- drop_drop, Hd, drop_app_length.
Qed.

Lemma take_le_left d w n post : n < 256 ^ N.of_nat w -> left_to d (to_le_bytes w n ++ post) ->
  exists d', take_le d w = Ok (n, d') /\ left_to d' post /\ d_bytes d' = d_bytes d.
Proof.
  intros Hn Hl. destruct (take_next_left _ w _ _ (length_to_le_bytes w n) Hl) as (d' & Ht & H). exists d'. split; [|done].
  unfold take_le. by rewrite Ht, from_to_le_bytes.
Qed.

Lemma take_next_length d n a d' : take_next d n = Ok (a, d') -> length a = n.
Proof.
  unfold take_next. destruct (_ <? _)%nat eqn:Hb; [done|]. apply Nat.ltb_ge in Hb. intros [= <- <-].
  rewrite length_take, length_drop. lia.
Qed.

Lemma from_be_bound bs : from_be_bytes bs < 256 ^ N.of_nat (length bs).
Proof.
  induction bs as [|b bs IH] using rev_ind; [done|]. unfold from_be_bytes in *. rewrite fold_left_app, length_app. cbn [fold_left length].
  rewrite Nat.add_1_r, Nat2N.inj_succ, N.pow_succ_r'. pose proof (byte_to_N_bound b). lia.
Qed.

Lemma from_le_bound bs : from_le_bytes bs < 256 ^ N.of_nat (length bs).
Proof. unfold from_le_bytes. rewrite <- (length_rev bs). apply from_be_bound. Qed.

Lemma take_le_bound d w n d' : take_le d w = Ok (n, d') -> n < 256 ^ N.of_nat w.
Proof.
  unfold take_le. destruct (take_next d w) as [[word d1]|] eqn:H; [|done]. intros [= <- <-].
  rewrite <- (take_next_length _ _ _ _ H). apply from_le_bound.
Qed.

(** ** Receipts *)

(** The sizes of the arrays and the widths of the integers. *)
Record receipt_in_range p : Prop := {
  rr_hashes : Forall (fun h => length h = 32%nat)
    [po_network_genesis (policy p); subject (hrm (policy p)); hrm_envelope_hash (hrm (policy p)); chain_work_be (hrm (policy p));
     chain_anchor (hrm (policy p)); service_resource_id (hnsa (policy p)); service_delegation_id (hnsa (policy p));
     endpoint_delegation_id (hnsa (policy p)); policy_fingerprint p; attempt_id p; envelope_id p; envelope_digest p; content_id p];
  rr_key : length (endpoint_public_key (hnsa (policy p))) = 33%nat;
  rr_words : Forall (fun n => n <= U64_MAX)
    [hrm_sequence (hrm (policy p)); chain_height (hrm (policy p)); service_generation (hnsa (policy p));
     endpoint_sequence (hnsa (policy p)); effective_not_before_unix (hnsa (policy p)); effective_expires_at_unix (hnsa (policy p));
     record_sequence p; prepared_at_unix p; request_id p; issued_at_unix p; expires_at_unix p];
  rr_halves : po_network_magic (policy p) <= U32_MAX /\ maximum_receipt_lifetime_seconds (policy p) <= U32_MAX;
  rr_shorts : application_profile_id (hnsa (policy p)) <= U16_MAX /\ len (signature p) <= U16_MAX;
  rr_name : len (canonical_service_name (hnsa (policy p))) <= U8_MAX;
}.

Definition signed_receipt p : bytes := encode_unsigned p ++ to_le_bytes 2 (len (signature p)) ++ signature p.

(** The policy is one the wallet would make. *)
Definition policy_made (q : ShakescapePublicationAcceptancePolicy) : Prop :=
  validate_fields q = Ok tt /\ fingerprint q = compute_fingerprint q.

Lemma policy_new_made q : policy_made q <->
  policy_new (mkNetwork (po_network_magic q) (po_network_genesis q)) (hrm q) (hnsa q) (maximum_receipt_lifetime_seconds q) = Ok q.
Proof.
  destruct q as [m g h n l f]. unfold policy_made, policy_new. cbv zeta. cbn [magic genesis po_network_magic po_network_genesis hrm hnsa maximum_receipt_lifetime_seconds fingerprint].
  change (validate_fields (mkPolicy m g h n l f)) with (validate_fields (mkPolicy m g h n l (replicate 32 x00))).
  change (compute_fingerprint (mkPolicy m g h n l f)) with (compute_fingerprint (mkPolicy m g h n l (replicate 32 x00))).
  destruct (validate_fields _) as [[]|]; split; [by intros [_ ->]| |by intros [? _]|done].
  intros H%Ok_inj. split; [done|]. exact (eq_sym (f_equal fingerprint H)).
Qed.

(** Read the next field. *)
Local Ltac next :=
  match goal with
  | D : left_to ?d _ |- context [take_le ?d ?w] =>
      let E := fresh in let d' := fresh "d" in let B := fresh in
      eapply (take_le_left d w) in D as (d' & E & D & B); [rewrite E; clear E; cbv beta iota zeta|eapply N.le_lt_trans; [eassumption|reflexivity]]
  | D : left_to ?d _ |- context [take_next ?d ?n] =>
      let E := fresh in let d' := fresh "d" in let B := fresh in
      eapply (take_next_left d n) in D as (d' & E & D & B); [rewrite E; clear E; cbv beta iota zeta|first [done|unfold len; lia]]
  end.

Definition encode_hrm (h : ShakescapeHrmRootBinding) : bytes :=
  subject h ++ to_le_bytes 8 (hrm_sequence h) ++ hrm_envelope_hash h ++ to_le_bytes 8 (chain_height h) ++ chain_work_be h ++ chain_anchor h.

Lemma parse_hrm_left d p post : receipt_in_range p -> left_to d (encode_hrm (hrm (policy p)) ++ post) ->
  exists d', parse_hrm d = Ok (hrm (policy p), d') /\ left_to d' post /\ d_bytes d' = d_bytes d.
Proof.
  intros [Hh _ Hw _ _ _] D. rewrite !list.Forall_cons in Hh; rewrite !list.Forall_cons in Hw. destruct Hh as (? & ? & ? & ? & ? & _). destruct Hw as (? & ? & _).
  unfold encode_hrm in D. rewrite <- !app_assoc in D. unfold parse_hrm, take_hash.
  do 6 next. exists d5. split_and!; [by destruct (hrm (policy p))|done|congruence].
Qed.

Definition encode_hnsa (h : ShakescapeHnsaEndpointBinding) : bytes :=
  to_le_bytes 1 (len (canonical_service_name h)) ++ canonical_service_name h ++ to_le_bytes 2 (application_profile_id h)
  ++ service_resource_id h ++ service_delegation_id h ++ to_le_bytes 8 (service_generation h) ++ endpoint_delegation_id h
  ++ to_le_bytes 8 (endpoint_sequence h) ++ endpoint_public_key h ++ to_le_bytes 8 (effective_not_before_unix h)
  ++ to_le_bytes 8 (effective_expires_at_unix h).

Lemma parse_hnsa_left d p post : receipt_in_range p -> left_to d (encode_hnsa (hnsa (policy p)) ++ post) ->
  exists d', parse_hnsa d = Ok (hnsa (policy p), d') /\ left_to d' post /\ d_bytes d' = d_bytes d.
Proof.
  intros [Hh Hk Hw _ [Hs _] Hn] D. rewrite !list.Forall_cons in Hh; rewrite !list.Forall_cons in Hw.
  destruct Hh as (_ & _ & _ & _ & _ & ? & ? & ? & _). destruct Hw as (_ & _ & ? & ? & ? & ? & _).
  unfold encode_hnsa in D. rewrite <- !app_assoc in D. unfold parse_hnsa, take_hash.
  do 11 next. exists d10. split_and!; [by destruct (hnsa (policy p))|done|congruence].
Qed.

Lemma encode_material_parts (q : ShakescapePublicationAcceptancePolicy) : encode_material q =
  to_le_bytes 4 (po_network_magic q) ++ po_network_genesis q ++ encode_hrm (hrm q) ++ encode_hnsa (hnsa q)
  ++ to_le_bytes 4 (maximum_receipt_lifetime_seconds q).
Proof. unfold encode_material, encode_hrm, encode_hnsa. by rewrite <- !app_assoc. Qed.

Lemma signed_receipt_parts p : signed_receipt p =
  ACCEPTANCE_MAGIC ++ to_le_bytes 2 ACCEPTANCE_VERSION ++ to_le_bytes 1 RELAY_ACCEPTED_OUTCOME
  ++ to_le_bytes 4 (po_network_magic (policy p)) ++ po_network_genesis (policy p) ++ encode_hrm (hrm (policy p))
  ++ encode_hnsa (hnsa (policy p)) ++ to_le_bytes 4 (maximum_receipt_lifetime_seconds (policy p))
  ++ policy_fingerprint p ++ attempt_id p ++ to_le_bytes 8 (record_sequence p) ++ to_le_bytes 8 (prepared_at_unix p)
  ++ envelope_id p ++ envelope_digest p ++ content_id p ++ to_le_bytes 1 (Byte.to_N (kind_code (message_kind p)))
  ++ to_le_bytes 8 (request_id p) ++ to_le_bytes 8 (issued_at_unix p) ++ to_le_bytes 8 (expires_at_unix p)
  ++ to_le_bytes 2 (len (signature p)) ++ signature p ++ [].
Proof.
  unfold signed_receipt, encode_unsigned. rewrite encode_material_parts, <- !app_assoc, app_nil_r. by destruct (message_kind p).
Qed.

Lemma parse_body_signed p : receipt_in_range p -> policy_made (policy p) ->
  parse_body (signed_receipt p) = Ok (p, length (encode_unsigned p)).
Proof.
  intros Hr Hmade. pose proof Hr as [Hh _ Hw [Hm Hl] [_ Hs] _]. rewrite !list.Forall_cons in Hh; rewrite !list.Forall_cons in Hw.
  destruct Hh as (? & _ & _ & _ & _ & _ & _ & _ & ? & ? & ? & ? & ? & _). destruct Hw as (_ & _ & _ & _ & _ & _ & ? & ? & ? & ? & ? & _).
  assert (Hbody : forall d, d_bytes d = signed_receipt p -> left_to d (to_le_bytes 2 (len (signature p)) ++ signature p ++ []) ->
    position d = length (encode_unsigned p)).
  { intros d Hd Hleft%left_position. rewrite Hd in Hleft. unfold signed_receipt in Hleft.
    rewrite app_nil_r, (length_app (encode_unsigned p)) in Hleft. lia. }
  assert (D : left_to (mkDecoder (signed_receipt p) 0) (signed_receipt p)) by (split; [done|cbn; lia]).
  rewrite signed_receipt_parts in D at 2. assert (Hk : Byte.to_N (kind_code (message_kind p)) <= U8_MAX) by by destruct (message_kind p).
  assert (Hv : ACCEPTANCE_VERSION <= U16_MAX) by done. assert (Ho : RELAY_ACCEPTED_OUTCOME <= U8_MAX) by done.
  unfold parse_body, take_hash. cbv zeta. next. rewrite (bool_decide_eq_true_2 _ eq_refl). cbn [negb].
  next. rewrite N.eqb_refl. cbn [negb]. next. rewrite N.eqb_refl. cbn [negb]. do 2 next.
  destruct (parse_hrm_left _ p _ Hr D) as (dr & -> & Dr & Br). clear D.
  destruct (parse_hnsa_left _ p _ Hr Dr) as (ds & -> & Ds & Bs). clear Dr. cbv beta iota zeta.
  next. apply policy_new_made in Hmade. rewrite Hmade. cbn [map_err]. do 8 next.
  replace (if Byte.to_N (kind_code (message_kind p)) =? 1 then _ else _) with (@Ok _ ShakedexError.t (message_kind p))
    by by destruct (message_kind p). cbv beta iota zeta. do 3 next.
  match goal with D : left_to ?d (to_le_bytes 2 _ ++ _) |- _ => rewrite (Hbody d ltac:(cbn [d_bytes] in *; congruence) D) end.
  do 2 next. match goal with D : left_to ?d [] |- _ => assert (is_finished d = true) as -> end.
  { match goal with D : left_to ?d [] |- _ => apply left_position in D end. unfold is_finished. cbn [length] in *. apply Nat.eqb_eq. lia. }
  cbn [negb]. by destruct p.
Qed.

(** *** What was read is in range *)

Lemma take_u64 d n d' : take_le d 8 = Ok (n, d') -> n <= U64_MAX.
Proof. intros H%take_le_bound. change (256 ^ N.of_nat 8) with (U64_MAX + 1) in H. lia. Qed.
Lemma take_u32 d n d' : take_le d 4 = Ok (n, d') -> n <= U32_MAX.
Proof. intros H%take_le_bound. change (256 ^ N.of_nat 4) with (U32_MAX + 1) in H. lia. Qed.
Lemma take_u16 d n d' : take_le d 2 = Ok (n, d') -> n <= U16_MAX.
Proof. intros H%take_le_bound. change (256 ^ N.of_nat 2) with (U16_MAX + 1) in H. lia. Qed.
Lemma take_u8 d n d' : take_le d 1 = Ok (n, d') -> n <= U8_MAX.
Proof. intros H%take_le_bound. change (256 ^ N.of_nat 1) with (U8_MAX + 1) in H. lia. Qed.

(** Split a run of the reader into its steps. *)
Local Ltac steps H :=
  unfold take_hash in H;
  repeat (match type of H with
  | match take_le ?d ?w with _ => _ end = _ =>
      let E := fresh in destruct (take_le d w) as [[? ?]|] eqn:E; [|done];
      first [apply take_u64 in E|apply take_u32 in E|apply take_u16 in E|apply take_u8 in E]
  | match take_next ?d ?n with _ => _ end = _ =>
      let E := fresh in destruct (take_next d n) as [[? ?]|] eqn:E; [|done]; apply take_next_length in E
  end; cbv beta iota zeta in H).

Lemma parse_hrm_range d h d' : parse_hrm d = Ok (h, d') ->
  Forall (fun x => length x = 32%nat) [subject h; hrm_envelope_hash h; chain_work_be h; chain_anchor h]
  /\ hrm_sequence h <= U64_MAX /\ chain_height h <= U64_MAX.
Proof. unfold parse_hrm. intros H. steps H. injection H as <- <-. cbn. by repeat constructor. Qed.

Lemma parse_hnsa_range d h d' : parse_hnsa d = Ok (h, d') ->
  Forall (fun x => length x = 32%nat) [service_resource_id h; service_delegation_id h; endpoint_delegation_id h]
  /\ length (endpoint_public_key h) = 33%nat /\ application_profile_id h <= U16_MAX /\ len (canonical_service_name h) <= U8_MAX
  /\ Forall (fun n => n <= U64_MAX) [service_generation h; endpoint_sequence h; effective_not_before_unix h; effective_expires_at_unix h].
Proof.
  unfold parse_hnsa. intros H. steps H. injection H as <- <-. cbn. split_and!; try done; [by repeat constructor| |by repeat constructor].
  unfold len. lia.
Qed.

Lemma policy_new_fields network root service lifetime q : policy_new network root service lifetime = Ok q ->
  policy_made q /\ po_network_magic q = magic network /\ po_network_genesis q = genesis network /\ hrm q = root /\ hnsa q = service
  /\ maximum_receipt_lifetime_seconds q = lifetime.
Proof.
  intros H. rewrite policy_new_made. unfold policy_new in H |- *. cbv zeta in H |- *. destruct (validate_fields _) eqn:E in H; [|done].
  apply Ok_inj in H. subst q. cbn [po_network_magic po_network_genesis hrm hnsa maximum_receipt_lifetime_seconds magic genesis].
  rewrite E. done.
Qed.

Lemma parse_body_range receipt p n : parse_body receipt = Ok (p, n) -> receipt_in_range p /\ policy_made (policy p).
Proof.
  unfold parse_body. intros H. cbv zeta in H. steps H. destruct (negb _) in H; [done|]. steps H. destruct (negb _) in H; [done|].
  steps H. destruct (negb _) in H; [done|]. steps H.
  destruct (parse_hrm _) as [[root ?]|] eqn:Hroot; [|done]. cbv beta iota zeta in H.
  destruct (parse_hnsa _) as [[service ?]|] eqn:Hservice; [|done]. cbv beta iota zeta in H. steps H.
  destruct (map_err _ _) as [made|] eqn:Hmade; [|done]. apply map_err_Ok in Hmade. cbv beta iota zeta in H. steps H.
  match type of H with match ?c with _ => _ end = _ => destruct c as [which|]; [|done] end. cbv beta iota zeta in H. steps H.
  destruct (negb _) in H; [done|]. apply Ok_inj in H. apply (f_equal fst) in H. cbn [fst] in H. subst p.
  apply policy_new_fields in Hmade as (Hmade & Em & Eg & Er & Es & El). split; [|done].
  cbn [magic genesis] in *. apply parse_hrm_range in Hroot as (Hr1 & Hr2 & Hr3). apply parse_hnsa_range in Hservice as (Hs1 & Hs2 & Hs3 & Hs4 & Hs5).
  rewrite <- Er in *. rewrite <- Es in *. rewrite !list.Forall_cons in Hr1. rewrite !list.Forall_cons in Hs1. rewrite !list.Forall_cons in Hs5.
  split; cbn [policy policy_fingerprint attempt_id envelope_id envelope_digest content_id record_sequence prepared_at_unix request_id issued_at_unix expires_at_unix signature].
  - rewrite Eg. repeat constructor; tauto.
  - done.
  - repeat constructor; tauto.
  - rewrite Em, El. done.
  - split; [done|]. unfold len. lia.
  - done.
Qed.

(** C25: a receipt is read exactly. The bytes of a receipt are accepted with some
    fields if and only if they are the canonical form of these fields, within the
    size limit and the widths of the fields, the policy in them is a valid one with
    its own fingerprint, and the endpoint key of that policy has signed exactly
    these fields, with a signature in its canonical low form. *)
Theorem receipt_read_exactly receipt p :
  parse_and_verify receipt = Ok p <->
  receipt = signed_receipt p /\ len receipt <= MAX_SHAKESCAPE_PUBLICATION_ACCEPTANCE_BYTES
  /\ receipt_in_range p /\ policy_made (policy p) /\ policy_fingerprint p = fingerprint (policy p)
  /\ exists signed key, signature_from_der (signature p) = Some signed /\ signed = normalize_s signed
     /\ signature_to_der signed = signature p /\ key_from_sec1_bytes (endpoint_public_key (hnsa (policy p))) = Some key
     /\ verify_prehash key (acceptance_digest (encode_unsigned p)) signed = true.
Proof.
  split.
  - unfold parse_and_verify. cbv zeta. intros H.
    match type of H with (if ?b then _ else _) = _ => destruct b eqn:Hb; [done|] end. bool_prop.
    destruct (parse_body receipt) as [[q n]|] eqn:Hp; [|done]. cbv beta iota zeta in H. destruct (_ <? _) in H; [done|].
    match type of H with (if ?b then _ else _) = _ => destruct b eqn:Hc; [done|] end. bool_prop.
    destruct (signature_from_der _) as [signed|] eqn:Hsig; [|done]. cbn [ok_or] in H.
    match type of H with (if ?b then _ else _) = _ => destruct b eqn:Hn; [done|] end. bool_prop.
    destruct (key_from_sec1_bytes _) as [key|] eqn:Hkey; [|done]. cbn [ok_or] in H. destruct (verify_prehash _ _ _) eqn:Hver; [|done].
    injection H as <-. apply parse_body_range in Hp as [Hr Hm]. split_and!; try done. by exists signed, key.
  - intros (-> & Hlen & Hr & Hm & Hf & signed & key & Hsig & Hn & Hder & Hkey & Hver). unfold parse_and_verify. cbv zeta.
    rewrite (proj2 (N.ltb_ge _ _) Hlen), orb_false_r. change (is_empty (signed_receipt p)) with false.
    rewrite parse_body_signed by done. cbv beta iota zeta. rewrite (proj2 (N.ltb_ge _ _)) by apply Hr.
    rewrite Nat.eqb_refl. fold (signed_receipt p). rewrite (bool_decide_eq_true_2 _ eq_refl), (bool_decide_eq_true_2 _ Hf).
    cbn [negb orb]. rewrite Hsig. cbn [ok_or]. rewrite (bool_decide_eq_true_2 _ Hn), (bool_decide_eq_true_2 _ Hder).
    cbn [negb orb]. rewrite Hkey. cbn [ok_or]. by rewrite Hver.
Qed.

(** ** What is kept *)

(** What is kept of a receipt passes the check on what is kept, with the expectation
    the receipt was accepted for. *)
Lemma acceptance_persists wanted expected receipt now kept :
  validate_shakescape_publication_acceptance wanted expected receipt now = Ok kept ->
  validate_persisted_shakescape_publication_acceptance kept = Ok expected
  /\ pa_accepted_at_unix kept = now /\ ex_prepared_at_unix expected <= now.
Proof.
  unfold validate_shakescape_publication_acceptance. intros H. destruct (parse_and_verify receipt) as [p|] eqn:Hp; [|done].
  cbv beta iota zeta in H. match type of H with (if ?b then _ else _) = _ => destruct b eqn:Hb; [done|] end. bool_prop.
  pose proof H as Hk. unfold persisted_acceptance in H. destruct (validate_receipt_window p) as [[]|] eqn:Hw; [|done]. apply Ok_inj in H. subst kept.
  unfold validate_persisted_shakescape_publication_acceptance. cbv zeta. cbn [pa_receipt_bytes pa_accepted_at_unix]. rewrite Hp. cbn [map_err].
  rewrite Hk. cbn [map_err]. rewrite (bool_decide_eq_true_2 _ eq_refl). cbn [negb]. split_and!; [|done..]. f_equal.
  destruct expected. cbn in *. by subst.
Qed.
End Receipts.
