(* ===== verification/Outbox.v ===== *)
(** * The publication outbox

    Models [crates/hns-wallet-shakedex/src/outbox.rs]: the durable queue of market
    messages a wallet wants published. One entry at a time is prepared, handed to a
    relay or a direct peer, and its outcome recorded, every step in one revision of
    one record of the store. The messages are those of the marketplace protocol crate,
    a parameter. The persisted form of the outbox has the fields of the outbox. *)

From Stdlib Require Import Strings.Byte.
From stdpp Require Import sorting.
From S2P Require Import Prelude Types Codec Store Acceptance.

Definition SHAKESCAPE_OUTBOX_SCHEMA_VERSION : N := 1.
Definition SHAKESCAPE_OUTBOX_ENVELOPE_ID_DOMAIN : bytes := str_bytes "hns-wallet-shakescape-outbox-envelope-v1" ++ [x00].
Definition SHAKESCAPE_OUTBOX_ATTEMPT_ID_DOMAIN : bytes := str_bytes "hns-wallet-shakescape-handoff-attempt-v1" ++ [x00].
Definition SHAKESCAPE_OUTBOX_RECORD_ID : bytes := str_bytes "canonical-name-market-outbox-v1".
Definition MAX_SHAKESCAPE_OUTBOX_ENTRIES : N := 1024.
Definition MAX_SHAKESCAPE_OUTBOX_ENVELOPE_BYTES : N := 16 * 1024.
Definition MAX_SHAKESCAPE_OUTBOX_SERIALIZED_BYTES : N := 512 * 1024.
Definition MAX_SHAKESCAPE_OUTBOX_RETRY_ATTEMPTS : N := 64.

(** ** The protocol's messages *)

Class MarketTypes := {
  Listing : Type;
  ListingCancellation : Type;
  OtherMessage : Type;
  ShakescapeRegistryVersion : Type;
}.

Inductive NameMarketMessage `{MarketTypes} :=
| MessageOffer (listing : Listing)
| MessageCancel (cancellation : ListingCancellation)
| MessageOther (m : OtherMessage).

Class MarketEnv `{MarketTypes} := {
  registry_eq_dec : EqDecision ShakescapeRegistryVersion;
  REGISTRY_V1 : ShakescapeRegistryVersion;
  decode_envelope : bytes -> option (ShakescapeRegistryVersion * N * NameMarketMessage);
  encode_envelope : NameMarketMessage -> ShakescapeRegistryVersion -> N -> option bytes;
  listing_hash : Listing -> option bytes;
  listing_network : Listing -> MarketNetwork;
  listing_window : Listing -> N * N;
  cancellation_hash : ListingCancellation -> option bytes;
  cancellation_network : ListingCancellation -> MarketNetwork;
  cancellation_window : ListingCancellation -> N * N;
}.
#[global] Existing Instance registry_eq_dec.

(** ** Data *)

Inductive ShakescapeOutboxState :=
| Pending
| HandoffPrepared (attempt_id : bytes) (prepared_at_unix : N)
| RetryScheduled (next_attempt_at_unix : N)
| RelayAccepted (receipt_id : bytes) (accepted_at_unix : N)
| DirectAnnounced (attempt_id : bytes) (prepared_at_unix announced_at_unix : N)
| Exhausted (exhausted_at_unix : N).
#[global] Instance ShakescapeOutboxState_eq_dec : EqDecision ShakescapeOutboxState.
Proof. solve_decision. Defined.

Record ShakescapeOutboxEntry := mkEntry {
  oe_envelope_id : bytes;
  oe_content_id : bytes;
  oe_message_kind : ShakescapeOutboxMessageKind;
  oe_request_id : N;
  oe_envelope_bytes : bytes;
  oe_state : ShakescapeOutboxState;
  oe_retry_attempts : N;
  oe_created_at_unix : N;
  oe_last_attempt_at_unix : option N;
  oe_acceptance : option PersistedShakescapePublicationAcceptance;
}.
#[global] Instance ShakescapeOutboxEntry_eq_dec : EqDecision ShakescapeOutboxEntry.
Proof. solve_decision. Defined.

Record ShakescapePublicationOutbox := mkOutbox {
  schema_version : N;
  entries : list ShakescapeOutboxEntry;
}.
#[global] Instance ShakescapePublicationOutbox_eq_dec : EqDecision ShakescapePublicationOutbox.
Proof. solve_decision. Defined.

Definition default_outbox : ShakescapePublicationOutbox := mkOutbox SHAKESCAPE_OUTBOX_SCHEMA_VERSION [].

Record StoredShakescapePublicationOutbox := mkStoredOutbox {
  so_revision : N;
  so_updated_at_unix : N;
  so_outbox : ShakescapePublicationOutbox;
}.

Inductive ShakescapeOutboxEnqueue := Inserted (envelope_id : bytes) | Existing (envelope_id : bytes).

Record ShakescapePreparedHandoff := mkHandoff {
  ho_outbox_revision : N;
  ho_envelope_id : bytes;
  ho_content_id : bytes;
  ho_message_kind : ShakescapeOutboxMessageKind;
  ho_request_id : N;
  ho_attempt_id : bytes;
  ho_attempt_ordinal : N;
  ho_prepared_at_unix : N;
  ho_envelope_bytes : bytes;
}.

Inductive ShakescapeHandoffPreparation :=
| NoDue (outbox_revision : N)
| PreparedNow (handoff : ShakescapePreparedHandoff)
| PreparedBefore (handoff : ShakescapePreparedHandoff).

Record ShakescapeHandoffFailureResult := mkFailureResult {
  fr_outbox_revision : N;
  fr_envelope_id : bytes;
  fr_state : ShakescapeOutboxState;
}.

Inductive ShakescapeHandoffAcceptanceResult :=
| AcceptanceInserted (snapshot : ShakescapePublicationAcceptanceSnapshot)
| AcceptanceExisting (snapshot : ShakescapePublicationAcceptanceSnapshot).

Record ShakescapeHandoffDirectAnnouncement := mkAnnouncement { an_outbox_revision : N; an_envelope_id : bytes }.

Record CanonicalPublication := mkCanonical {
  cp_envelope_id : bytes;
  cp_content_id : bytes;
  cp_message_kind : ShakescapeOutboxMessageKind;
  cp_request_id : N;
  cp_network_magic : N;
  cp_network_genesis : bytes;
}.

(** [Option::filter] on a checked increment of a [u16]. *)
Definition next_attempt (attempts : N) : option N :=
  match checked_add U16_MAX attempts 1 with
  | Some n => if n <=? MAX_SHAKESCAPE_OUTBOX_RETRY_ATTEMPTS then Some n else None
  | None => None
  end.

Definition is_prepared (s : ShakescapeOutboxState) : bool := match s with HandoffPrepared _ _ => true | _ => false end.
Definition is_pending (s : ShakescapeOutboxState) : bool := match s with Pending => true | _ => false end.
Definition is_relay_accepted (s : ShakescapeOutboxState) : bool := match s with RelayAccepted _ _ => true | _ => false end.

(** The first entry that satisfies a test, with its index. *)
Fixpoint find_entry (p : ShakescapeOutboxEntry -> bool) (l : list ShakescapeOutboxEntry) : option (nat * ShakescapeOutboxEntry) :=
  match l with
  | [] => None
  | e :: rest => if p e then Some (O, e) else match find_entry p rest with Some (i, e) => Some (S i, e) | None => None end
  end.

Definition entry (o : ShakescapePublicationOutbox) (id : bytes) : option ShakescapeOutboxEntry :=
  option_map snd (find_entry (fun e => bool_decide (oe_envelope_id e = id)) (entries o)).

Definition prepared_entry (o : ShakescapePublicationOutbox) : option ShakescapeOutboxEntry :=
  option_map snd (find_entry (fun e => is_prepared (oe_state e)) (entries o)).

Definition set_entry (o : ShakescapePublicationOutbox) (i : nat) (e : ShakescapeOutboxEntry) : ShakescapePublicationOutbox :=
  mkOutbox (schema_version o) (<[i := e]> (entries o)).

Definition with_state (e : ShakescapeOutboxEntry) (s : ShakescapeOutboxState) (attempts : N) (last : option N)
    (acceptance : option PersistedShakescapePublicationAcceptance) : ShakescapeOutboxEntry :=
  mkEntry (oe_envelope_id e) (oe_content_id e) (oe_message_kind e) (oe_request_id e) (oe_envelope_bytes e) s
    attempts (oe_created_at_unix e) last acceptance.

(** [windows(2)]: no identifier is at least the next one. *)
Fixpoint ascending (ids : list bytes) : bool :=
  match ids with
  | a :: (b :: _) as rest => negb (bytes_leb b a) && ascending rest
  | _ => true
  end.

(** The key by which the next due entry is chosen. *)
Definition due_at (e : ShakescapeOutboxEntry) : option N :=
  match oe_state e with
  | Pending => Some (oe_created_at_unix e)
  | RetryScheduled next_attempt_at_unix => Some next_attempt_at_unix
  | _ => None
  end.

Definition due_before (a b : N * N * bytes) : bool :=
  let '(a1, a2, a3) := a in
  let '(b1, b2, b3) := b in
  (a1 <? b1) || ((a1 =? b1) && ((a2 <? b2) || ((a2 =? b2) && negb (bytes_leb b3 a3)))).

(** [min_by_key] over the due entries: the first of the least ones. *)
Fixpoint next_due_from (l : list ShakescapeOutboxEntry) (index : nat) (now_unix : N) (best : option ((N * N * bytes) * nat)) :
    option ((N * N * bytes) * nat) :=
  match l with
  | [] => best
  | e :: rest =>
      let best :=
        match due_at e with
        | Some due =>
            if due <=? now_unix then
              let key := (due, oe_created_at_unix e, oe_envelope_id e) in
              match best with
              | Some (least, _) => if due_before key least then Some (key, index) else best
              | None => Some (key, index)
              end
            else best
        | None => best
        end in
      next_due_from rest (S index) now_unix best
  end.

Definition next_due_index (o : ShakescapePublicationOutbox) (now_unix : N) : option nat :=
  option_map snd (next_due_from (entries o) 0 now_unix None).

Section Outbox.
Context {senv : StoreEnv} {aenv : AcceptanceEnv} {mtypes : MarketTypes} {menv : MarketEnv}.
Context {outbox_codec : JsonCodec ShakescapePublicationOutbox}.
Implicit Types (o : ShakescapePublicationOutbox) (e : ShakescapeOutboxEntry) (st : WalletStore).

(** ** Envelopes *)

Definition canonical_publication (envelope : bytes) : market CanonicalPublication :=
  let invalid := ShakedexError.InvalidShakescapeOutboxEnvelope in
  if is_empty envelope || (MAX_SHAKESCAPE_OUTBOX_ENVELOPE_BYTES <? len envelope) then Err invalid else
  let* (header, message) := ok_or (decode_envelope envelope) invalid in
  let '(registry, request) := header in
  if negb (bool_decide (registry = REGISTRY_V1)) || (request =? 0) then Err invalid else
  let* (identity, network) :=
    match message with
    | MessageOffer listing =>
        let* hash := ok_or (listing_hash listing) invalid in
        Ok ((Offer, hash), listing_network listing)
    | MessageCancel cancellation =>
        let* hash := ok_or (cancellation_hash cancellation) invalid in
        Ok ((Cancellation, hash), cancellation_network cancellation)
    | MessageOther _ => Err invalid
    end in
  let* reencoded := ok_or (encode_envelope message registry request) invalid in
  if negb (bool_decide (reencoded = envelope)) then Err invalid else
  Ok (mkCanonical (digest256 (SHAKESCAPE_OUTBOX_ENVELOPE_ID_DOMAIN ++ envelope)) identity.2 identity.1 request
        (magic network) (genesis network)).

Definition shakescape_outbox_envelope_id (envelope : bytes) : market bytes :=
  let* canonical := canonical_publication envelope in Ok (cp_envelope_id canonical).

Definition exact_envelope_digest (envelope : bytes) : bytes := digest256 envelope.

Definition shakescape_handoff_attempt_id (envelope_id : bytes) (request attempt_ordinal prepared_at_unix : N) : bytes :=
  digest256 (SHAKESCAPE_OUTBOX_ATTEMPT_ID_DOMAIN ++ envelope_id ++ to_be_bytes 8 request ++ to_be_bytes 2 attempt_ordinal
             ++ to_be_bytes 8 prepared_at_unix).

(** ** Checks *)

Definition canonical_matches (c : CanonicalPublication) (id content : bytes) (k : ShakescapeOutboxMessageKind) (request : N) : bool :=
  bool_decide (cp_envelope_id c = id) && bool_decide (cp_content_id c = content)
  && bool_decide (cp_message_kind c = k) && (cp_request_id c =? request).

Definition validate_state (canonical : CanonicalPublication) e : market unit :=
  let corrupt := ShakedexError.CorruptShakescapeOutbox in
  let attempt_id ordinal at_unix := shakescape_handoff_attempt_id (oe_envelope_id e) (oe_request_id e) ordinal at_unix in
  let fail_if (b : bool) : market unit := if b then Err corrupt else Ok tt in
  match oe_state e with
  | Pending => fail_if (negb (oe_retry_attempts e =? 0) || is_some (oe_last_attempt_at_unix e))
  | HandoffPrepared attempt prepared_at =>
      let* ordinal := ok_or (next_attempt (oe_retry_attempts e)) corrupt in
      fail_if (negb (Bool.eqb (oe_retry_attempts e =? 0) (is_none (oe_last_attempt_at_unix e)))
               || (prepared_at <? oe_created_at_unix e)
               || is_some_and (oe_last_attempt_at_unix e) (fun last => prepared_at <=? last)
               || negb (bool_decide (attempt = attempt_id ordinal prepared_at)))
  | RetryScheduled next_attempt_at =>
      fail_if ((oe_retry_attempts e =? 0) || (MAX_SHAKESCAPE_OUTBOX_RETRY_ATTEMPTS <=? oe_retry_attempts e)
               || is_none_or (oe_last_attempt_at_unix e) (fun last => next_attempt_at <=? last))
  | RelayAccepted receipt accepted_at =>
      let* acceptance := ok_or (oe_acceptance e) corrupt in
      let* expected := validate_persisted_shakescape_publication_acceptance acceptance in
      let* ordinal := ok_or (next_attempt (oe_retry_attempts e)) corrupt in
      fail_if (negb (bool_decide (receipt = pa_receipt_id acceptance))
               || negb (accepted_at =? pa_accepted_at_unix acceptance)
               || negb (bool_decide (oe_last_attempt_at_unix e = Some accepted_at))
               || negb (ex_network_magic expected =? cp_network_magic canonical)
               || negb (bool_decide (ex_network_genesis expected = cp_network_genesis canonical))
               || negb (ex_record_sequence expected =? ordinal)
               || (ex_prepared_at_unix expected <? oe_created_at_unix e)
               || (accepted_at <? ex_prepared_at_unix expected)
               || negb (bool_decide (ex_attempt_id expected = attempt_id ordinal (ex_prepared_at_unix expected)))
               || negb (bool_decide (ex_envelope_id expected = oe_envelope_id e))
               || negb (bool_decide (ex_envelope_digest expected = exact_envelope_digest (oe_envelope_bytes e)))
               || negb (bool_decide (ex_content_id expected = oe_content_id e))
               || negb (bool_decide (ex_message_kind expected = oe_message_kind e))
               || negb (ex_request_id expected =? oe_request_id e))
  | DirectAnnounced attempt prepared_at announced_at =>
      let* ordinal := ok_or (next_attempt (oe_retry_attempts e)) corrupt in
      fail_if (is_some (oe_acceptance e) || negb (bool_decide (oe_last_attempt_at_unix e = Some announced_at))
               || (announced_at <? oe_created_at_unix e) || (announced_at <? prepared_at)
               || negb (bool_decide (attempt = attempt_id ordinal prepared_at)))
  | Exhausted exhausted_at =>
      fail_if (negb (oe_retry_attempts e =? MAX_SHAKESCAPE_OUTBOX_RETRY_ATTEMPTS)
               || negb (bool_decide (oe_last_attempt_at_unix e = Some exhausted_at))
               || (exhausted_at <? oe_created_at_unix e))
  end.

Definition validate_entry e : market unit :=
  let corrupt := ShakedexError.CorruptShakescapeOutbox in
  let* canonical := map_err (fun _ => corrupt) (canonical_publication (oe_envelope_bytes e)) in
  if negb (canonical_matches canonical (oe_envelope_id e) (oe_content_id e) (oe_message_kind e) (oe_request_id e))
     || (MAX_SHAKESCAPE_OUTBOX_RETRY_ATTEMPTS <? oe_retry_attempts e)
     || is_some_and (oe_last_attempt_at_unix e) (fun last => last <? oe_created_at_unix e)
  then Err corrupt else
  if negb (Bool.eqb (is_relay_accepted (oe_state e)) (is_some (oe_acceptance e))) then Err corrupt else
  validate_state canonical e.

(** The loop over the entries: how many are prepared, and the identifiers seen. *)
Fixpoint validate_entries (l : list ShakescapeOutboxEntry) (prepared : N) (requests : list N)
    (identities : list (ShakescapeOutboxMessageKind * bytes)) (receipts : list bytes) : market N :=
  let corrupt := ShakedexError.CorruptShakescapeOutbox in
  match l with
  | [] => Ok prepared
  | e :: rest =>
      let* _ := validate_entry e in
      let prepared := if is_prepared (oe_state e) then prepared + 1 else prepared in
      let identity := (oe_message_kind e, oe_content_id e) in
      if bool_decide (oe_request_id e ∈ requests) || bool_decide (identity ∈ identities) then Err corrupt else
      let requests := oe_request_id e :: requests in
      let identities := identity :: identities in
      match oe_acceptance e with
      | Some acceptance =>
          if bool_decide (pa_receipt_id acceptance ∈ receipts) then Err corrupt
          else validate_entries rest prepared requests identities (pa_receipt_id acceptance :: receipts)
      | None => validate_entries rest prepared requests identities receipts
      end
  end.

Definition validate o : market unit :=
  let corrupt := ShakedexError.CorruptShakescapeOutbox in
  if negb (schema_version o =? SHAKESCAPE_OUTBOX_SCHEMA_VERSION)
     || (MAX_SHAKESCAPE_OUTBOX_ENTRIES <? len (entries o)) || negb (ascending (map oe_envelope_id (entries o)))
  then Err corrupt else
  let* prepared := validate_entries (entries o) 0 [] [] [] in
  if 1 <? prepared then Err corrupt else
  let* encoded := ok_or (json_to_vec o) corrupt in
  if MAX_SHAKESCAPE_OUTBOX_SERIALIZED_BYTES <? len encoded then Err corrupt else Ok tt.

Definition validate_record_time o (updated_at_unix : N) : market unit :=
  let late e :=
    (updated_at_unix <? oe_created_at_unix e)
    || is_some_and (oe_last_attempt_at_unix e) (fun attempt => updated_at_unix <? attempt)
    || match oe_state e with
       | HandoffPrepared _ prepared_at => updated_at_unix <? prepared_at
       | RelayAccepted _ accepted_at => updated_at_unix <? accepted_at
       | DirectAnnounced _ _ announced_at => updated_at_unix <? announced_at
       | Exhausted exhausted_at => updated_at_unix <? exhausted_at
       | Pending | RetryScheduled _ => false
       end in
  if existsb late (entries o) then Err ShakedexError.InvalidShakescapeOutboxTransition else Ok tt.

(** ** Enqueueing *)

(** [sort_by_key] on the identifiers. *)
#[local] Instance entry_order_dec : RelDecision (fun a b => bytes_leb (oe_envelope_id a) (oe_envelope_id b) = true) :=
  fun a b => decide (bytes_leb (oe_envelope_id a) (oe_envelope_id b) = true).
Definition sort_entries (l : list ShakescapeOutboxEntry) : list ShakescapeOutboxEntry :=
  merge_sort (fun a b => bytes_leb (oe_envelope_id a) (oe_envelope_id b) = true) l.

Definition fresh_entry (canonical : CanonicalPublication) (envelope : bytes) (created_at_unix : N) : ShakescapeOutboxEntry :=
  mkEntry (cp_envelope_id canonical) (cp_content_id canonical) (cp_message_kind canonical) (cp_request_id canonical)
    envelope Pending 0 created_at_unix None None.

Definition enqueue_expected o (envelope : bytes) (expected_kind : ShakescapeOutboxMessageKind) (expected_content_id : bytes)
    (created_at_unix : N) : ShakescapePublicationOutbox * market ShakescapeOutboxEnqueue :=
  let! o, _ := (o, validate o) in
  let! o, canonical := (o, canonical_publication envelope) in
  if negb (bool_decide (cp_message_kind canonical = expected_kind))
     || negb (bool_decide (cp_content_id canonical = expected_content_id))
  then (o, Err ShakedexError.InvalidShakescapeOutboxEnvelope) else
  match entry o (cp_envelope_id canonical) with
  | Some existing =>
      (o, if bool_decide (oe_envelope_bytes existing = envelope)
             && bool_decide (oe_message_kind existing = cp_message_kind canonical)
             && bool_decide (oe_content_id existing = cp_content_id canonical)
             && (oe_request_id existing =? cp_request_id canonical)
          then Ok (Existing (cp_envelope_id canonical)) else Err ShakedexError.ShakescapeOutboxConflict)
  | None =>
      if existsb (fun e => (oe_request_id e =? cp_request_id canonical)
                           || (bool_decide (oe_message_kind e = cp_message_kind canonical)
                               && bool_decide (oe_content_id e = cp_content_id canonical))) (entries o)
      then (o, Err ShakedexError.ShakescapeOutboxConflict) else
      if MAX_SHAKESCAPE_OUTBOX_ENTRIES <=? len (entries o) then (o, Err ShakedexError.ShakescapeOutboxCapacity) else
      let pushed := mkOutbox (schema_version o)
                      (sort_entries (entries o ++ [fresh_entry canonical envelope created_at_unix])) in
      if is_ok (validate pushed) then (pushed, Ok (Inserted (cp_envelope_id canonical)))
      else (mkOutbox (schema_version pushed)
              (List.filter (fun e => negb (bool_decide (oe_envelope_id e = cp_envelope_id canonical))) (entries pushed)),
            Err ShakedexError.ShakescapeOutboxCapacity)
  end.

(** The hash of the listing, or of the cancellation, the wallet has authenticated. *)
Definition enqueue_offer o (envelope listing_hash : bytes) (created_at_unix : N) :=
  enqueue_expected o envelope Offer listing_hash created_at_unix.
Definition enqueue_cancellation o (envelope cancellation_hash : bytes) (created_at_unix : N) :=
  enqueue_expected o envelope Cancellation cancellation_hash created_at_unix.

(** ** Loading *)

Definition load_shakescape_publication_outbox st : market StoredShakescapePublicationOutbox :=
  let corrupt := ShakedexError.CorruptShakescapeOutbox in
  let* found := map_err ShakedexError.from_store
    (load_entity (T := ShakescapePublicationOutbox) st EntityKind.ShakescapeBoardObject SHAKESCAPE_OUTBOX_RECORD_ID) in
  match found with
  | Some stored =>
      if negb (schema_version (se_value stored) =? SHAKESCAPE_OUTBOX_SCHEMA_VERSION) then Err corrupt else
      let o := mkOutbox SHAKESCAPE_OUTBOX_SCHEMA_VERSION (entries (se_value stored)) in
      let* _ := validate o in
      let* _ := map_err (fun _ => corrupt) (validate_record_time o (se_updated_at_unix stored)) in
      Ok (mkStoredOutbox (se_revision stored) (se_updated_at_unix stored) o)
  | None => Ok (mkStoredOutbox 0 0 default_outbox)
  end.

(** ** Transitions that may be saved *)

Definition untouched e : bool :=
  is_pending (oe_state e) && (oe_retry_attempts e =? 0) && is_none (oe_last_attempt_at_unix e) && is_none (oe_acceptance e).

Definition validate_handoff_preparation (current next : ShakescapeOutboxEntry) (due_at_unix : option N) : market unit :=
  let invalid := ShakedexError.InvalidShakescapeOutboxTransition in
  match oe_state next with
  | HandoffPrepared attempt prepared_at =>
      let* ordinal := ok_or (checked_add U16_MAX (oe_retry_attempts current) 1) invalid in
      if negb (oe_retry_attempts current =? oe_retry_attempts next)
         || negb (bool_decide (oe_last_attempt_at_unix current = oe_last_attempt_at_unix next))
         || (prepared_at <? oe_created_at_unix current)
         || is_some_and (oe_last_attempt_at_unix current) (fun last => prepared_at <=? last)
         || is_some_and due_at_unix (fun due => prepared_at <? due)
         || negb (bool_decide (attempt = shakescape_handoff_attempt_id (oe_envelope_id current) (oe_request_id current)
                                           ordinal prepared_at))
      then Err invalid else Ok tt
  | _ => Err invalid
  end.

Definition validate_handoff_failure (current next : ShakescapeOutboxEntry) : market unit :=
  let invalid := ShakedexError.InvalidShakescapeOutboxTransition in
  match oe_state current with
  | HandoffPrepared _ prepared_at =>
      let* failed_at := ok_or (oe_last_attempt_at_unix next) invalid in
      if negb (bool_decide (checked_add U16_MAX (oe_retry_attempts current) 1 = Some (oe_retry_attempts next)))
         || (failed_at <? prepared_at)
      then Err invalid else
      match oe_state next with
      | RetryScheduled next_attempt_at =>
          if (oe_retry_attempts next <? MAX_SHAKESCAPE_OUTBOX_RETRY_ATTEMPTS) && (failed_at <? next_attempt_at)
          then Ok tt else Err invalid
      | Exhausted exhausted_at =>
          if (oe_retry_attempts next =? MAX_SHAKESCAPE_OUTBOX_RETRY_ATTEMPTS) && (exhausted_at =? failed_at)
          then Ok tt else Err invalid
      | _ => Err invalid
      end
  | _ => Err invalid
  end.

Definition validate_handoff_acceptance (current next : ShakescapeOutboxEntry) : market unit :=
  let invalid := ShakedexError.InvalidShakescapeOutboxTransition in
  match oe_state current, oe_state next with
  | HandoffPrepared attempt prepared_at, RelayAccepted receipt accepted_at =>
      let* acceptance := ok_or (oe_acceptance next) invalid in
      if is_some (oe_acceptance current) || negb (oe_retry_attempts current =? oe_retry_attempts next)
         || negb (bool_decide (oe_last_attempt_at_unix next = Some accepted_at))
         || (accepted_at <? prepared_at) || negb (bool_decide (receipt = pa_receipt_id acceptance))
         || negb (accepted_at =? pa_accepted_at_unix acceptance)
      then Err invalid else
      let* expected := map_err (fun _ => invalid) (validate_persisted_shakescape_publication_acceptance acceptance) in
      if negb (bool_decide (ex_attempt_id expected = attempt)) || negb (ex_prepared_at_unix expected =? prepared_at)
      then Err invalid else Ok tt
  | _, _ => Err invalid
  end.

Definition validate_handoff_direct_announcement (current next : ShakescapeOutboxEntry) : market unit :=
  let invalid := ShakedexError.InvalidShakescapeOutboxTransition in
  match oe_state current, oe_state next with
  | HandoffPrepared attempt prepared_at, DirectAnnounced announced_attempt announced_prepared announced_at =>
      if negb (bool_decide (attempt = announced_attempt)) || is_some (oe_acceptance current) || is_some (oe_acceptance next)
         || negb (oe_retry_attempts current =? oe_retry_attempts next)
         || negb (bool_decide (oe_last_attempt_at_unix next = Some announced_at))
         || negb (announced_prepared =? prepared_at) || (announced_at <? prepared_at)
      then Err invalid else Ok tt
  | _, _ => Err invalid
  end.

Definition validate_entry_save_transition (current next : ShakescapeOutboxEntry) : market unit :=
  if negb (bool_decide (oe_envelope_id current = oe_envelope_id next))
     || negb (bool_decide (oe_content_id current = oe_content_id next))
     || negb (bool_decide (oe_message_kind current = oe_message_kind next))
     || negb (oe_request_id current =? oe_request_id next)
     || negb (bool_decide (oe_envelope_bytes current = oe_envelope_bytes next))
     || negb (oe_created_at_unix current =? oe_created_at_unix next)
  then Err ShakedexError.ShakescapeOutboxConflict else
  if bool_decide (current = next) then Ok tt else
  match oe_state current, oe_state next with
  | Pending, HandoffPrepared _ _ => validate_handoff_preparation current next None
  | RetryScheduled next_attempt_at, HandoffPrepared _ _ =>
      validate_handoff_preparation current next (Some next_attempt_at)
  | HandoffPrepared _ _, (RetryScheduled _ | Exhausted _) => validate_handoff_failure current next
  | HandoffPrepared _ _, RelayAccepted _ _ => validate_handoff_acceptance current next
  | HandoffPrepared _ _, DirectAnnounced _ _ _ => validate_handoff_direct_announcement current next
  | _, _ => Err ShakedexError.InvalidShakescapeOutboxTransition
  end.

Fixpoint validate_current (l : list ShakescapeOutboxEntry) (next : ShakescapePublicationOutbox) : market unit :=
  match l with
  | [] => Ok tt
  | e :: rest =>
      let* kept := ok_or (entry next (oe_envelope_id e)) ShakedexError.InvalidShakescapeOutboxTransition in
      let* _ := validate_entry_save_transition e kept in
      validate_current rest next
  end.

Definition validate_outbox_save_transition st (expected_revision : N) (next : ShakescapePublicationOutbox)
    (updated_at_unix : N) : market (option N) :=
  let invalid := ShakedexError.InvalidShakescapeOutboxTransition in
  let* current := load_shakescape_publication_outbox st in
  if so_revision current =? 0 then
    if negb (expected_revision =? 0) then Err ShakedexError.StaleRevision else
    if negb (forallb untouched (entries next)) then Err invalid else Ok None
  else
  if updated_at_unix <? so_updated_at_unix current then Err invalid else
  if bool_decide (so_outbox current = next)
     && ((expected_revision =? so_revision current)
         || bool_decide (u64_add expected_revision 1 = Some (so_revision current)))
  then Ok (Some (so_revision current)) else
  if negb (so_revision current =? expected_revision) then Err ShakedexError.StaleRevision else
  let* _ := validate_current (entries (so_outbox current)) next in
  if existsb (fun e => is_none (entry (so_outbox current) (oe_envelope_id e)) && negb (untouched e)) (entries next)
  then Err invalid else Ok None.

(** ** Saving *)

Definition save_shakescape_publication_outbox st (expected_revision : N) o (updated_at_unix : N) :
    WalletStore * market N :=
  let! st, _ := (st, validate o) in
  let! st, _ := (st, validate_record_time o updated_at_unix) in
  let! st, standing := (st, validate_outbox_save_transition st expected_revision o updated_at_unix) in
  match standing with
  | Some revision => (st, Ok revision)
  | None =>
      let '(st, saved) := save_entity st EntityKind.ShakescapeBoardObject SHAKESCAPE_OUTBOX_RECORD_ID expected_revision o
                            updated_at_unix in
      (st, map_err ShakedexError.from_store saved)
  end.

(** An offer or a cancellation is queued in the transaction that advances the workflow
    of the seller. *)
Definition enqueue_and_save_workflow {W} `{JsonCodec W} st (workflow_id : bytes) (expected_workflow_revision : N) (workflow : W)
    (envelope : bytes) (expected_kind : ShakescapeOutboxMessageKind) (expected_content_id : bytes) (updated_at_unix : N) :
    WalletStore * market (N * N * bytes) :=
  let! st, stored := (st, load_shakescape_publication_outbox st) in
  let '(o, enqueued) := enqueue_expected (so_outbox stored) envelope expected_kind expected_content_id updated_at_unix in
  let! st, enqueued := (st, enqueued) in
  match enqueued with
  | Existing _ => (st, Err ShakedexError.ShakescapeOutboxConflict)
  | Inserted envelope_id =>
      let! st, _ := (st, validate_record_time o updated_at_unix) in
      let! st, _ := (st, validate_outbox_save_transition st (so_revision stored) o updated_at_unix) in
      let! st, outbox_revision := (st, ok_or (u64_add (so_revision stored) 1) ShakedexError.Invariant) in
      let '(st, saved) := save_workflow_with_entity_batch st workflow_id WfShakedexSellerOffer expected_workflow_revision
        workflow false updated_at_unix EntityKind.ShakescapeBoardObject
        [mkSave SHAKESCAPE_OUTBOX_RECORD_ID (so_revision stored) o updated_at_unix] [] in
      let! st, workflow_revision := (st, map_err ShakedexError.from_store saved) in
      (st, Ok (workflow_revision, outbox_revision, envelope_id))
  end.

Definition enqueue_shakescape_offer_and_save_workflow {W} `{JsonCodec W} st (workflow_id : bytes) (revision : N) (workflow : W)
    (envelope listing_hash : bytes) (updated_at_unix : N) :=
  enqueue_and_save_workflow st workflow_id revision workflow envelope Offer listing_hash updated_at_unix.
Definition enqueue_shakescape_cancellation_and_save_workflow {W} `{JsonCodec W} st (workflow_id : bytes) (revision : N)
    (workflow : W) (envelope cancellation_hash : bytes) (updated_at_unix : N) :=
  enqueue_and_save_workflow st workflow_id revision workflow envelope Cancellation cancellation_hash updated_at_unix.

(** ** Handing off *)

Definition handoff_matches (h : ShakescapePreparedHandoff) (revision : N) e : bool :=
  match oe_state e with
  | HandoffPrepared attempt prepared_at =>
      (ho_outbox_revision h =? revision) && bool_decide (ho_envelope_id h = oe_envelope_id e)
      && bool_decide (ho_content_id h = oe_content_id e) && bool_decide (ho_message_kind h = oe_message_kind e)
      && (ho_request_id h =? oe_request_id e) && bool_decide (ho_attempt_id h = attempt)
      && (ho_attempt_ordinal h =? oe_retry_attempts e + 1) && (ho_prepared_at_unix h =? prepared_at)
      && bool_decide (ho_envelope_bytes h = oe_envelope_bytes e)
  | _ => false
  end.

Definition matches_identity (h : ShakescapePreparedHandoff) e : bool :=
  bool_decide (ho_envelope_id h = oe_envelope_id e) && bool_decide (ho_content_id h = oe_content_id e)
  && bool_decide (ho_message_kind h = oe_message_kind e) && (ho_request_id h =? oe_request_id e)
  && (ho_attempt_ordinal h =? oe_retry_attempts e + 1) && bool_decide (ho_envelope_bytes h = oe_envelope_bytes e).

Definition prepared_handoff_from_entry (outbox_revision : N) e : market ShakescapePreparedHandoff :=
  match oe_state e with
  | HandoffPrepared attempt prepared_at =>
      let* ordinal := ok_or (next_attempt (oe_retry_attempts e)) ShakedexError.CorruptShakescapeOutbox in
      Ok (mkHandoff outbox_revision (oe_envelope_id e) (oe_content_id e) (oe_message_kind e) (oe_request_id e) attempt ordinal
            prepared_at (oe_envelope_bytes e))
  | _ => Err ShakedexError.ShakescapeOutboxHandoffMismatch
  end.

Definition prepare_next_shakescape_handoff st (expected_revision prepared_at_unix : N) :
    WalletStore * market ShakescapeHandoffPreparation :=
  let! st, stored := (st, load_shakescape_publication_outbox st) in
  let o := so_outbox stored in
  if negb (so_revision stored =? expected_revision) then (st, Err ShakedexError.StaleRevision) else
  if prepared_at_unix <? so_updated_at_unix stored then (st, Err ShakedexError.InvalidShakescapeOutboxTransition) else
  match prepared_entry o with
  | Some e =>
      let! st, handoff := (st, prepared_handoff_from_entry (so_revision stored) e) in
      (st, Ok (PreparedBefore handoff))
  | None =>
      match next_due_index o prepared_at_unix with
      | None => (st, Ok (NoDue (so_revision stored)))
      | Some index =>
          (* the index is that of an entry *)
          match entries o !! index with
          | None => (st, Err ShakedexError.Invariant)
          | Some e =>
              let! st, ordinal := (st, ok_or (next_attempt (oe_retry_attempts e)) ShakedexError.ShakescapeOutboxRetryLimit) in
              let attempt := shakescape_handoff_attempt_id (oe_envelope_id e) (oe_request_id e) ordinal prepared_at_unix in
              let e := with_state e (HandoffPrepared attempt prepared_at_unix) (oe_retry_attempts e)
                         (oe_last_attempt_at_unix e) (oe_acceptance e) in
              let! st, revision := save_shakescape_publication_outbox st expected_revision (set_entry o index e) prepared_at_unix in
              let! st, handoff := (st, prepared_handoff_from_entry revision e) in
              (st, Ok (PreparedNow handoff))
          end
      end
  end.

Definition load_prepared_shakescape_handoff st : market (option ShakescapePreparedHandoff) :=
  let* stored := load_shakescape_publication_outbox st in
  match prepared_entry (so_outbox stored) with
  | Some e => let* handoff := prepared_handoff_from_entry (so_revision stored) e in Ok (Some handoff)
  | None => Ok None
  end.

Definition acceptance_expectation (h : ShakescapePreparedHandoff) (canonical : CanonicalPublication) :
    ShakescapeAcceptanceExpectation :=
  mkExpectation (cp_network_magic canonical) (cp_network_genesis canonical) (ho_attempt_id h) (ho_attempt_ordinal h)
    (ho_prepared_at_unix h) (ho_envelope_id h) (exact_envelope_digest (ho_envelope_bytes h)) (ho_content_id h)
    (ho_message_kind h) (ho_request_id h).

Definition acceptance_snapshot (outbox_revision : N) e (attempt : bytes)
    (acceptance : PersistedShakescapePublicationAcceptance) : ShakescapePublicationAcceptanceSnapshot :=
  mkSnapshotOf outbox_revision (oe_envelope_id e) (oe_content_id e) (oe_message_kind e) (oe_request_id e) attempt
    (pa_receipt_id acceptance) (pa_policy_fingerprint acceptance) (pa_accepted_at_unix acceptance)
    (pa_receipt_expires_at_unix acceptance).

(** The envelope of the handoff is canonical and the handoff is about it. *)
Definition handoff_canonical (h : ShakescapePreparedHandoff) : market CanonicalPublication :=
  let* canonical := canonical_publication (ho_envelope_bytes h) in
  if negb (canonical_matches canonical (ho_envelope_id h) (ho_content_id h) (ho_message_kind h) (ho_request_id h))
  then Err ShakedexError.ShakescapeOutboxHandoffMismatch else Ok canonical.

(** The entry of the handoff and its index. *)
Definition handoff_entry (h : ShakescapePreparedHandoff) o : market (nat * ShakescapeOutboxEntry) :=
  ok_or (find_entry (fun e => bool_decide (oe_envelope_id e = ho_envelope_id h)) (entries o))
    ShakedexError.ShakescapeOutboxHandoffMismatch.

Definition record_shakescape_handoff_acceptance st (h : ShakescapePreparedHandoff)
    (wanted : ShakescapePublicationAcceptancePolicy) (receipt : bytes) (accepted_at_unix : N) :
    WalletStore * market ShakescapeHandoffAcceptanceResult :=
  let! st, canonical := (st, handoff_canonical h) in
  let expected := acceptance_expectation h canonical in
  let! st, acceptance := (st, validate_shakescape_publication_acceptance wanted expected receipt accepted_at_unix) in
  let! st, stored := (st, load_shakescape_publication_outbox st) in
  let o := so_outbox stored in
  let! st, found := (st, handoff_entry h o) in
  let '(index, e) := found in
  match oe_state e with
  | RelayAccepted receipt_id durable_accepted_at =>
      let! st, durable := (st, ok_or (oe_acceptance e) ShakedexError.CorruptShakescapeOutbox) in
      (st, if matches_identity h e && bool_decide (ho_attempt_id h = ex_attempt_id expected)
              && (ho_prepared_at_unix h =? ex_prepared_at_unix expected)
              && bool_decide (receipt_id = pa_receipt_id acceptance) && (durable_accepted_at =? accepted_at_unix)
              && bool_decide (durable = acceptance)
           then Ok (AcceptanceExisting (acceptance_snapshot (so_revision stored) e (ex_attempt_id expected) durable))
           else Err ShakedexError.ShakescapePublicationAcceptanceConflict)
  | _ =>
      if negb (so_revision stored =? ho_outbox_revision h) then (st, Err ShakedexError.StaleRevision) else
      if negb (handoff_matches h (so_revision stored) e) then (st, Err ShakedexError.ShakescapeOutboxHandoffMismatch) else
      let e := with_state e (RelayAccepted (pa_receipt_id acceptance) accepted_at_unix) (oe_retry_attempts e)
                 (Some accepted_at_unix) (Some acceptance) in
      let! st, revision := save_shakescape_publication_outbox st (so_revision stored) (set_entry o index e) accepted_at_unix in
      (st, Ok (AcceptanceInserted (acceptance_snapshot revision e (ex_attempt_id expected) acceptance)))
  end.

Definition record_shakescape_handoff_direct_announcement st (h : ShakescapePreparedHandoff) (announced_at_unix : N) :
    WalletStore * market ShakescapeHandoffDirectAnnouncement :=
  let! st, _ := (st, handoff_canonical h) in
  let! st, stored := (st, load_shakescape_publication_outbox st) in
  let o := so_outbox stored in
  let! st, found := (st, handoff_entry h o) in
  let '(index, e) := found in
  match oe_state e with
  | DirectAnnounced attempt _ durable_at =>
      (st, if matches_identity h e && bool_decide (attempt = ho_attempt_id h) && (durable_at =? announced_at_unix)
           then Ok (mkAnnouncement (so_revision stored) (ho_envelope_id h))
           else Err ShakedexError.ShakescapeOutboxHandoffMismatch)
  | _ =>
      if negb (so_revision stored =? ho_outbox_revision h) then (st, Err ShakedexError.StaleRevision) else
      if negb (handoff_matches h (so_revision stored) e) || (announced_at_unix <? ho_prepared_at_unix h)
      then (st, Err ShakedexError.ShakescapeOutboxHandoffMismatch) else
      let e := with_state e (DirectAnnounced (ho_attempt_id h) (ho_prepared_at_unix h) announced_at_unix)
                 (oe_retry_attempts e) (Some announced_at_unix) (oe_acceptance e) in
      let! st, revision := save_shakescape_publication_outbox st (so_revision stored) (set_entry o index e) announced_at_unix in
      (st, Ok (mkAnnouncement revision (ho_envelope_id h)))
  end.

Definition persist_shakescape_handoff_failure st (stored : StoredShakescapePublicationOutbox) (attempt : bytes)
    (failed_at_unix next_attempt_at_unix : N) : WalletStore * market ShakescapeHandoffFailureResult :=
  let o := so_outbox stored in
  let! st, found := (st, ok_or (find_entry (fun e => match oe_state e with
                                                      | HandoffPrepared current _ => bool_decide (current = attempt)
                                                      | _ => false
                                                      end) (entries o)) ShakedexError.ShakescapeOutboxHandoffMismatch) in
  let '(index, e) := found in
  match oe_state e with
  | HandoffPrepared _ prepared_at =>
      if (failed_at_unix <? prepared_at) || (next_attempt_at_unix <=? failed_at_unix)
      then (st, Err ShakedexError.InvalidShakescapeOutboxTransition) else
      let! st, attempts := (st, ok_or (next_attempt (oe_retry_attempts e)) ShakedexError.ShakescapeOutboxRetryLimit) in
      let state := if attempts =? MAX_SHAKESCAPE_OUTBOX_RETRY_ATTEMPTS then Exhausted failed_at_unix
                   else RetryScheduled next_attempt_at_unix in
      let e := with_state e state attempts (Some failed_at_unix) (oe_acceptance e) in
      let! st, revision := save_shakescape_publication_outbox st (so_revision stored) (set_entry o index e) failed_at_unix in
      (st, Ok (mkFailureResult revision (oe_envelope_id e) state))
  | _ => (st, Err ShakedexError.ShakescapeOutboxHandoffMismatch)
  end.

Definition record_shakescape_handoff_failure st (h : ShakescapePreparedHandoff) (failed_at_unix next_attempt_at_unix : N) :
    WalletStore * market ShakescapeHandoffFailureResult :=
  let! st, stored := (st, load_shakescape_publication_outbox st) in
  if negb (so_revision stored =? ho_outbox_revision h) then (st, Err ShakedexError.StaleRevision) else
  let! st, prepared := (st, ok_or (prepared_entry (so_outbox stored)) ShakedexError.ShakescapeOutboxHandoffMismatch) in
  if negb (handoff_matches h (so_revision stored) prepared) then (st, Err ShakedexError.ShakescapeOutboxHandoffMismatch) else
  persist_shakescape_handoff_failure st stored (ho_attempt_id h) failed_at_unix next_attempt_at_unix.

Definition recover_shakescape_handoff_as_retry st (expected_revision : N) (attempt : bytes)
    (observed_at_unix next_attempt_at_unix : N) : WalletStore * market ShakescapeHandoffFailureResult :=
  let! st, stored := (st, load_shakescape_publication_outbox st) in
  if negb (so_revision stored =? expected_revision) then (st, Err ShakedexError.StaleRevision) else
  let! st, prepared := (st, ok_or (prepared_entry (so_outbox stored)) ShakedexError.ShakescapeOutboxHandoffMismatch) in
  match oe_state prepared with
  | HandoffPrepared current _ =>
      if bool_decide (current = attempt)
      then persist_shakescape_handoff_failure st stored attempt observed_at_unix next_attempt_at_unix
      else (st, Err ShakedexError.ShakescapeOutboxHandoffMismatch)
  | _ => (st, Err ShakedexError.ShakescapeOutboxHandoffMismatch)
  end.

(** ** What is published again *)

Record ShakescapeAcceptedReplay := mkAcceptedReplay {
  ar_envelope_bytes : bytes;
  ar_expected : ShakescapeAcceptanceExpectation;
}.

Record ShakescapeDirectReplay := mkDirectReplay {
  dr_envelope_bytes : bytes;
  dr_created_at_unix : N;
  dr_message_kind : ShakescapeOutboxMessageKind;
  dr_request_id : N;
}.

(** The order of the tuples of creation time, kind and request. *)
Definition kind_number (k : ShakescapeOutboxMessageKind) : N := match k with Offer => 0 | Cancellation => 1 end.
Definition replay_leb (a b : N * ShakescapeOutboxMessageKind * N) : bool :=
  let '(a1, a2, a3) := a in
  let '(b1, b2, b3) := b in
  (a1 <? b1) || ((a1 =? b1) && ((kind_number a2 <? kind_number b2)
                                || ((kind_number a2 =? kind_number b2) && (a3 <=? b3)))).

Definition entry_key e := (oe_created_at_unix e, oe_message_kind e, oe_request_id e).
Definition replay_key (r : ShakescapeDirectReplay) := (dr_created_at_unix r, dr_message_kind r, dr_request_id r).
#[local] Instance entry_key_order_dec : RelDecision (fun a b => replay_leb (entry_key a) (entry_key b) = true) :=
  fun a b => decide (replay_leb (entry_key a) (entry_key b) = true).
#[local] Instance replay_key_order_dec : RelDecision (fun a b => replay_leb (replay_key a) (replay_key b) = true) :=
  fun a b => decide (replay_leb (replay_key a) (replay_key b) = true).

Fixpoint collect_accepted (l : list ShakescapeOutboxEntry) : market (list ShakescapeAcceptedReplay) :=
  match l with
  | [] => Ok []
  | e :: rest =>
      let* acceptance := ok_or (oe_acceptance e) ShakedexError.CorruptShakescapeOutbox in
      let* expected := validate_persisted_shakescape_publication_acceptance acceptance in
      let* replays := collect_accepted rest in
      Ok (mkAcceptedReplay (oe_envelope_bytes e) expected :: replays)
  end.

Definition accepted_shakescape_replays st : market (list ShakescapeAcceptedReplay) :=
  let* stored := load_shakescape_publication_outbox st in
  collect_accepted (merge_sort (fun a b => replay_leb (entry_key a) (entry_key b) = true)
    (List.filter (fun e => is_relay_accepted (oe_state e)) (entries (so_outbox stored)))).

Definition completed (s : ShakescapeOutboxState) : bool :=
  match s with RelayAccepted _ _ | DirectAnnounced _ _ _ => true | _ => false end.

Fixpoint collect_live (l : list ShakescapeOutboxEntry) (now_unix : N) : market (list ShakescapeDirectReplay) :=
  match l with
  | [] => Ok []
  | e :: rest =>
      let* message := ok_or (option_map snd (decode_envelope (oe_envelope_bytes e))) ShakedexError.CorruptShakescapeOutbox in
      let* window := match message with
                     | MessageOffer listing => Ok (listing_window listing)
                     | MessageCancel cancellation => Ok (cancellation_window cancellation)
                     | MessageOther _ => Err ShakedexError.CorruptShakescapeOutbox
                     end in
      let* replays := collect_live rest now_unix in
      if (window.1 <=? now_unix) && (now_unix <? window.2)
      then Ok (mkDirectReplay (oe_envelope_bytes e) (oe_created_at_unix e) (oe_message_kind e) (oe_request_id e) :: replays)
      else Ok replays
  end.

Definition live_completed_shakescape_direct_replays st (now_unix : N) : market (list ShakescapeDirectReplay) :=
  let* stored := load_shakescape_publication_outbox st in
  let* replays := collect_live (List.filter (fun e => completed (oe_state e)) (entries (so_outbox stored))) now_unix in
  Ok (merge_sort (fun a b => replay_leb (replay_key a) (replay_key b) = true) replays).
End Outbox.
