(* ===== verification/OutboxTheorems.v ===== *)
(** * Properties of the publication outbox

    Whatever happens to the outbox, it stays readable and each message in it goes
    through one life: it waits, is in flight, and is accepted, announced or given up.
    What is handed off is on file before it is handed off. *)

From Stdlib Require Import Strings.Byte.
From stdpp Require Import sorting.
From S2P Require Import Prelude Types Codec Store StoreRefine StoreTheorems StoreRows SwapExecProofs Acceptance AcceptanceTheorems Outbox.

(** ** The order of identifiers *)

Lemma bytes_leb_refl a : bytes_leb a a = true.
Proof. induction a as [|x a IH]; cbn; [done|]. by rewrite N.eqb_refl, IH, orb_true_r. Qed.

Lemma bytes_leb_total a : forall b, bytes_leb a b = false -> bytes_leb b a = true.
Proof.
  induction a as [|x a IH]; intros [|y b] H; cbn in *; try done. apply orb_false_elim in H as [H1 H2]. bool_prop.
  destruct (N.eqb_spec (Byte.to_N x) (Byte.to_N y)) as [E|E].
  - rewrite E, N.eqb_refl in *. cbn in H2. by rewrite (IH _ H2), orb_true_r.
  - apply orb_true_intro. left. apply N.ltb_lt. lia.
Qed.

Lemma bytes_leb_trans a : forall b c, bytes_leb a b = true -> bytes_leb b c = true -> bytes_leb a c = true.
Proof.
  induction a as [|x a IH]; intros [|y b] [|z c] H1 H2; cbn in *; try done.
  apply orb_prop in H1, H2. apply orb_true_intro. rewrite !andb_true_iff, !N.ltb_lt, !N.eqb_eq in *.
  destruct H1 as [H1|[E1 H1]], H2 as [H2|[E2 H2]]; [left; lia..|]. right. split; [congruence|by eapply IH].
Qed.

Lemma bytes_lt_trans a b c : bytes_leb b a = false -> bytes_leb c b = false -> bytes_leb c a = false.
Proof.
  intros H1 H2. destruct (bytes_leb c a) eqn:H; [|done]. rewrite <- H2. symmetry. eapply bytes_leb_trans; [done|].
  by apply bytes_leb_total.
Qed.

Lemma ascending_below a ids : ascending (a :: ids) = true -> Forall (fun b => bytes_leb b a = false) ids.
Proof.
  revert a. induction ids as [|b ids IH]; intros a H; [done|]. cbn [ascending] in H. apply andb_prop in H as [H1 H2].
  apply negb_true_iff in H1. constructor; [done|]. specialize (IH b H2). eapply Forall_impl; [|exact IH].
  intros c Hc. cbn in Hc. by eapply bytes_lt_trans.
Qed.

Lemma ascending_NoDup ids : ascending ids = true -> NoDup ids.
Proof.
  induction ids as [|a ids IH]; intros H; [constructor|]. apply list.NoDup_cons. split.
  - intros Hin. apply ascending_below in H. rewrite list.Forall_forall in H. specialize (H a Hin). cbn in H. by rewrite bytes_leb_refl in H.
  - apply IH. destruct ids as [|b ids]; [done|]. cbn [ascending] in H. by apply andb_prop in H as [_ H].
Qed.

(** ** Entries *)

Lemma find_entry_Some p l i e : find_entry p l = Some (i, e) -> l !! i = Some e /\ p e = true.
Proof.
  revert i. induction l as [|x l IH]; intros i H; cbn in H; [done|]. destruct (p x) eqn:Hp; [by simplify_eq|].
  destruct (find_entry p l) as [[j y]|]; [|done]. simplify_eq. by apply IH.
Qed.

Lemma find_entry_None p l : find_entry p l = None -> forall e, e ∈ l -> p e = false.
Proof.
  induction l as [|x l IH]; intros H e Hin; [by apply elem_of_nil in Hin|]. cbn in H. destruct (p x) eqn:Hp; [done|].
  destruct (find_entry p l) as [[]|]; [done|]. apply elem_of_cons in Hin as [->|Hin]; [done|by apply IH].
Qed.

Lemma entry_Some o id e : entry o id = Some e -> e ∈ entries o /\ oe_envelope_id e = id.
Proof.
  unfold entry. destruct (find_entry _ _) as [[i x]|] eqn:H; [|done]. intros [= <-]. apply find_entry_Some in H as [Hi He].
  cbn in He. bool_prop. split; [by eapply list_elem_of_lookup_2|done].
Qed.

Lemma entry_None o id : entry o id = None -> forall e, e ∈ entries o -> oe_envelope_id e <> id.
Proof.
  unfold entry. destruct (find_entry _ _) as [[]|] eqn:H; [done|]. intros _ e Hin. eapply find_entry_None in H; [|done]. cbn in H. by bool_prop.
Qed.

Lemma entry_unique o : NoDup (map oe_envelope_id (entries o)) -> forall e e',
  e ∈ entries o -> e' ∈ entries o -> oe_envelope_id e = oe_envelope_id e' -> e = e'.
Proof.
  induction (entries o) as [|x l IH]; intros Hnd e e' He He' Hid; [by apply elem_of_nil in He|].
  cbn in Hnd. apply list.NoDup_cons in Hnd as [Hx Hnd]. apply elem_of_cons in He as [->|He], He' as [->|He']; try done; [| |by apply IH].
  - destruct Hx. rewrite Hid. by apply list_elem_of_fmap_2.
  - destruct Hx. rewrite <- Hid. by apply list_elem_of_fmap_2.
Qed.

Section Outbox.
Context {senv : StoreEnv} {slaws : StoreEnvLaws} {aenv : AcceptanceEnv} {mtypes : MarketTypes} {menv : MarketEnv}.
Context {codec : JsonCodec ShakescapePublicationOutbox} {codec_laws : JsonLaws ShakescapePublicationOutbox}.
Implicit Types (o : ShakescapePublicationOutbox) (e : ShakescapeOutboxEntry) (st : WalletStore).

(** ** The life of a message *)

(** Where a message is: it waits after so many attempts until a time, an attempt is in
    flight, a relay accepted it, it was announced to a peer, or it is given up. *)
Inductive phase :=
| Waiting (attempts due : N)
| InFlight (attempts : N) (attempt : bytes) (since : N)
| Accepted (receipt : bytes) (at_unix : N)
| Announced (attempt : bytes) (at_unix : N)
| GaveUp.

Definition phase_of e : phase :=
  match oe_state e with
  | Pending => Waiting (oe_retry_attempts e) (oe_created_at_unix e)
  | RetryScheduled due => Waiting (oe_retry_attempts e) due
  | HandoffPrepared attempt since => InFlight (oe_retry_attempts e) attempt since
  | RelayAccepted receipt at_unix => Accepted receipt at_unix
  | DirectAnnounced attempt _ at_unix => Announced attempt at_unix
  | Exhausted _ => GaveUp
  end.

(** A verified receipt for the attempt. *)
Definition receipted (receipt attempt : bytes) (since at_unix : N) : Prop :=
  exists kept expected, validate_persisted_shakescape_publication_acceptance kept = Ok expected
    /\ pa_receipt_id kept = receipt /\ pa_accepted_at_unix kept = at_unix
    /\ ex_attempt_id expected = attempt /\ ex_prepared_at_unix expected = since.

(** The steps of a life. The identifier of an attempt fixes the message, the number of
    the attempt and its time. *)
Inductive life (id : bytes) (request : N) : phase -> phase -> Prop :=
| life_prepare n due since : due <= since -> n < MAX_SHAKESCAPE_OUTBOX_RETRY_ATTEMPTS ->
    life id request (Waiting n due) (InFlight n (shakescape_handoff_attempt_id id request (n + 1) since) since)
| life_retry n attempt since due : n + 1 < MAX_SHAKESCAPE_OUTBOX_RETRY_ATTEMPTS -> since < due ->
    life id request (InFlight n attempt since) (Waiting (n + 1) due)
| life_give_up n attempt since : n + 1 = MAX_SHAKESCAPE_OUTBOX_RETRY_ATTEMPTS ->
    life id request (InFlight n attempt since) GaveUp
| life_accept n attempt since receipt at_unix : receipted receipt attempt since at_unix -> since <= at_unix ->
    life id request (InFlight n attempt since) (Accepted receipt at_unix)
| life_announce n attempt since at_unix : since <= at_unix ->
    life id request (InFlight n attempt since) (Announced attempt at_unix).

Definition same_message e e' : Prop :=
  oe_envelope_id e = oe_envelope_id e' /\ oe_content_id e = oe_content_id e' /\ oe_message_kind e = oe_message_kind e'
  /\ oe_request_id e = oe_request_id e' /\ oe_envelope_bytes e = oe_envelope_bytes e'
  /\ oe_created_at_unix e = oe_created_at_unix e'.

Definition settled e : bool :=
  match oe_state e with RelayAccepted _ _ | DirectAnnounced _ _ _ | Exhausted _ => true | _ => false end.

(** One entry is a later state of the other; a settled one does not change at all. *)
Definition lived e e' : Prop :=
  same_message e e' /\ rtc (life (oe_envelope_id e) (oe_request_id e)) (phase_of e) (phase_of e')
  /\ (settled e = true -> e' = e).

Lemma lived_refl e : lived e e.
Proof. by split_and!. Qed.

Lemma lived_trans a b c : lived a b -> lived b c -> lived a c.
Proof.
  intros ((E1 & E2 & E3 & E4 & E5 & E6) & H1 & S1) ((F1 & F2 & F3 & F4 & F5 & F6) & H2 & S2). split; [split_and!; congruence|]. split.
  - etrans; [done|]. by rewrite E1, E4.
  - intros Hs. rewrite (S1 Hs) in *. by apply S2.
Qed.

(** Every message is still there in a later state, and every message there has lived
    from one that was there or was new. *)
Definition evolved o o' : Prop :=
  (forall e, e ∈ entries o -> exists e', e' ∈ entries o' /\ lived e e')
  /\ (forall e', e' ∈ entries o' -> exists e, (e ∈ entries o \/ untouched e = true) /\ lived e e').

Lemma evolved_refl o : evolved o o.
Proof. split; intros e He; exists e; eauto using lived_refl. Qed.

Lemma evolved_trans o1 o2 o3 : evolved o1 o2 -> evolved o2 o3 -> evolved o1 o3.
Proof.
  intros [H1 H2] [H3 H4]. split.
  - intros e (e1 & He1 & L1)%H1. destruct (H3 _ He1) as (e2 & He2 & L2). eauto using lived_trans.
  - intros e (e1 & [He1|He1] & L1)%H4; [|eauto]. destruct (H2 _ He1) as (e2 & He2 & L2). eauto using lived_trans.
Qed.

(** ** Valid outboxes *)

Record valid o : Prop := {
  va_version : schema_version o = SHAKESCAPE_OUTBOX_SCHEMA_VERSION;
  va_ids : NoDup (map oe_envelope_id (entries o));
  va_entries e : e ∈ entries o -> validate_entry e = Ok tt;
  va_flight e e' : e ∈ entries o -> e' ∈ entries o -> is_prepared (oe_state e) = true -> is_prepared (oe_state e') = true -> e = e';
}.

Lemma validate_entries_facts l : forall prepared requests identities receipts n,
  validate_entries l prepared requests identities receipts = Ok n ->
  (forall e, e ∈ l -> validate_entry e = Ok tt) /\ n = prepared + len (List.filter (fun e => is_prepared (oe_state e)) l).
Proof.
  induction l as [|x l IH]; intros prepared requests identities receipts n H; cbn [validate_entries] in H.
  { injection H as ->. split; [intros e He; by apply elem_of_nil in He|]. cbn. unfold len. cbn. lia. }
  destruct (validate_entry x) as [[]|] eqn:Hx; [|done]. cbv zeta in H. destruct (_ || _); [done|].
  assert (exists requests identities receipts, validate_entries l (if is_prepared (oe_state x) then prepared + 1 else prepared)
            requests identities receipts = Ok n) as (rq & ids & rc & Hl).
  { destruct (oe_acceptance x); [case_bool_decide; [done|]|]; eauto. }
  apply IH in Hl as [He ->]. split.
  - intros e [->|Hin]%elem_of_cons; [done|by apply He].
  - cbn [List.filter]. destruct (is_prepared (oe_state x)); unfold len; cbn [length]; lia.
Qed.

Lemma validate_valid o : validate o = Ok tt -> valid o.
Proof.
  unfold validate. intros H. cbv zeta in H. match type of H with (if ?b then _ else _) = _ => destruct b eqn:Hb; [done|] end. bool_prop.
  destruct (validate_entries _ _ _ _ _) as [n|] eqn:Hv; [|done]. destruct (1 <? n) eqn:Hn; [done|]. bool_prop.
  apply validate_entries_facts in Hv as [He ->]. split; [done|by apply ascending_NoDup|done|].
  intros e e' He1 He2 Hp Hp'. set (l := List.filter _ _) in Hn.
  assert (In e l /\ In e' l) as [Hin Hin'] by (split; apply filter_In; split; try done; by apply list_elem_of_In).
  destruct l as [|a [|b l]]; [done| |unfold len in Hn; cbn in Hn; lia]. destruct Hin as [->|[]], Hin' as [->|[]]. done.
Qed.

(** *** The transitions that may be saved are steps of a life *)

Lemma next_attempt_Some n m : next_attempt n = Some m -> m = n + 1 /\ n < MAX_SHAKESCAPE_OUTBOX_RETRY_ATTEMPTS.
Proof.
  unfold next_attempt. destruct (checked_add _ _ _) as [k|] eqn:H; [|done]. apply checked_add_Some in H as [-> _].
  destruct (_ <=? _) eqn:Hb; [|done]. bool_prop. intros [= <-]. split; [done|lia].
Qed.

Lemma waiting_attempts e : validate_entry e = Ok tt -> (forall n due, phase_of e = Waiting n due -> n < MAX_SHAKESCAPE_OUTBOX_RETRY_ATTEMPTS).
Proof.
  unfold validate_entry. intros H n due Hph. cbv zeta in H. destruct (map_err _ _) as [canonical|]; [|done].
  destruct (negb _ || _ || _); [done|]. destruct (negb _); [done|]. unfold validate_state in H. cbv zeta in H.
  unfold phase_of in Hph. destruct (oe_state e); try done; injection Hph as <- _.
  - destruct (_ || _) eqn:Hb; [done|]. bool_prop. unfold MAX_SHAKESCAPE_OUTBOX_RETRY_ATTEMPTS. lia.
  - destruct (_ || _) eqn:Hb; [done|]. bool_prop. done.
Qed.

Lemma preparation_step e e' due : validate_handoff_preparation e e' due = Ok tt ->
  exists since, oe_state e' = HandoffPrepared (shakescape_handoff_attempt_id (oe_envelope_id e) (oe_request_id e) (oe_retry_attempts e + 1) since) since
    /\ oe_retry_attempts e' = oe_retry_attempts e /\ oe_created_at_unix e <= since /\ (forall t, due = Some t -> t <= since).
Proof.
  unfold validate_handoff_preparation. cbv zeta. destruct (oe_state e') as [|attempt since| | | |]; try done. intros H.
  destruct (ok_or _ _) as [ordinal|] eqn:Ho; [|done]. apply ok_or_Ok, checked_add_Some in Ho as [-> _].
  match type of H with (if ?b then _ else _) = _ => destruct b eqn:Hb; [done|] end. bool_prop. subst attempt. exists since.
  split_and!; try done. intros t ->. by cbn in *; bool_prop.
Qed.

Lemma failure_step e e' id request : validate_handoff_failure e e' = Ok tt -> life id request (phase_of e) (phase_of e').
Proof.
  unfold validate_handoff_failure, phase_of. cbv zeta. destruct (oe_state e) as [|attempt since| | | |]; try done. intros H.
  destruct (ok_or _ _) as [failed|]; [|done]. destruct (negb _ || _) eqn:Hb; [done|]. bool_prop.
  assert (Hn : oe_retry_attempts e' = oe_retry_attempts e + 1) by done.
  destruct (oe_state e') as [| |due| | |]; try done; destruct (_ && _) eqn:Hc; try done; bool_prop.
  - rewrite Hn. constructor; lia.
  - constructor. lia.
Qed.

Lemma acceptance_step e e' id request : validate_handoff_acceptance e e' = Ok tt -> life id request (phase_of e) (phase_of e').
Proof.
  unfold validate_handoff_acceptance, phase_of. cbv zeta. destruct (oe_state e) as [|attempt since| | | |], (oe_state e') as [| | |receipt at_unix| |]; try done.
  destruct (oe_acceptance e') as [kept|]; [|done]. cbn [ok_or]. intros H.
  match type of H with (if ?b then _ else _) = _ => destruct b eqn:Hb; [done|] end. bool_prop.
  destruct (map_err _ _) as [expected|] eqn:Hx; [|done]. apply map_err_Ok in Hx. destruct (negb _ || _) eqn:Hc; [done|]. bool_prop.
  constructor; [|done]. exists kept, expected. by split_and!.
Qed.

Lemma announcement_step e e' id request : validate_handoff_direct_announcement e e' = Ok tt -> life id request (phase_of e) (phase_of e').
Proof.
  unfold validate_handoff_direct_announcement, phase_of. cbv zeta. destruct (oe_state e) as [|attempt since| | | |], (oe_state e') as [| | | |a p t|]; try done.
  intros H. match type of H with (if ?b then _ else _) = _ => destruct b eqn:Hb; [done|] end. bool_prop. subst a p. by constructor.
Qed.

Lemma transition_lived e e' : validate_entry e = Ok tt -> validate_entry_save_transition e e' = Ok tt -> lived e e'.
Proof.
  intros Hv H. pose proof (waiting_attempts _ Hv) as Hwait. unfold validate_entry_save_transition in H.
  match type of H with (if ?b then _ else _) = _ => destruct b eqn:Hb; [done|] end. bool_prop. split; [by split_and!|].
  case_bool_decide as Heq; [by subst|]. split; [apply rtc_once|unfold settled; by destruct (oe_state e), (oe_state e')].
  destruct (oe_state e) as [|attempt since|due| | |] eqn:Hs, (oe_state e') as [| | | | |] eqn:Hs'; try done.
  all: try by apply failure_step. all: try by apply acceptance_step. all: try by apply announcement_step.
  all: apply preparation_step in H as (since & Hp & Hn & Hc & Hd); unfold phase_of in *; rewrite Hs in *; rewrite Hp, Hn.
  - constructor; [done|by eapply Hwait].
  - constructor; [by apply Hd|by eapply Hwait].
Qed.

(** ** The outbox on file *)

Record on_file st (s : StoredShakescapePublicationOutbox) : Prop := {
  of_loads : load_shakescape_publication_outbox st = Ok s;
  of_first : so_revision s = 0 -> entries (so_outbox s) = [];
}.

Lemma loaded_valid st s : load_shakescape_publication_outbox st = Ok s -> valid (so_outbox s).
Proof.
  unfold load_shakescape_publication_outbox. cbv zeta. destruct (map_err _ _) as [[row|]|]; [| |done].
  - destruct (negb _) eqn:Hv; [done|]. destruct (validate _) as [[]|] eqn:Hval; [|done]. cbv beta iota zeta.
    destruct (map_err _ _); [|done]. intros [= <-]. by apply validate_valid.
  - intros [= <-]. split; [done|apply NoDup_nil_2|intros e He; by apply elem_of_nil in He|intros e e' He; by apply elem_of_nil in He].
Qed.

(** Reading depends on the record alone. *)
Lemma load_outbox_same st st' : key st' = key st -> database_id st' = database_id st -> encrypted_entities st' = encrypted_entities st ->
  load_shakescape_publication_outbox st' = load_shakescape_publication_outbox st.
Proof.
  intros Hk Hd He. unfold load_shakescape_publication_outbox. cbv zeta.
  assert (load_entity (T := ShakescapePublicationOutbox) st' EntityKind.ShakescapeBoardObject SHAKESCAPE_OUTBOX_RECORD_ID
    = load_entity st EntityKind.ShakescapeBoardObject SHAKESCAPE_OUTBOX_RECORD_ID) as ->; [|done].
  unfold load_entity, unlocked, open_entity. by rewrite Hk, Hd, He.
Qed.

Lemma saved_loads st n o now : validate o = Ok tt -> validate_record_time o now = Ok tt ->
  load_entity st EntityKind.ShakescapeBoardObject SHAKESCAPE_OUTBOX_RECORD_ID
    = Ok (Some (mkEntity EntityKind.ShakescapeBoardObject SHAKESCAPE_OUTBOX_RECORD_ID n o now)) ->
  load_shakescape_publication_outbox st = Ok (mkStoredOutbox n now o).
Proof.
  intros Hv Ht Hl. unfold load_shakescape_publication_outbox. cbv zeta. rewrite Hl. cbn [map_err se_value se_updated_at_unix se_revision].
  pose proof (va_version _ (validate_valid _ Hv)) as Hs. assert (mkOutbox SHAKESCAPE_OUTBOX_SCHEMA_VERSION (entries o) = o) as ->
    by (destruct o; cbn in *; congruence).
  rewrite Hs, N.eqb_refl. cbn [negb]. rewrite Hv. cbv beta iota. by rewrite Ht.
Qed.

Lemma validate_current_kept l next : validate_current l next = Ok tt -> forall e, e ∈ l ->
  exists e', entry next (oe_envelope_id e) = Some e' /\ validate_entry_save_transition e e' = Ok tt.
Proof.
  induction l as [|x l IH]; intros H e He; [by apply elem_of_nil in He|]. cbn [validate_current] in H.
  destruct (entry next (oe_envelope_id x)) as [kept|] eqn:Hk; [|done]. cbn [ok_or] in H.
  destruct (validate_entry_save_transition x kept) as [[]|] eqn:Ht; [|done]. apply elem_of_cons in He as [->|He]; [eauto|by apply IH].
Qed.

Lemma transition_evolved st s rev o now r : on_file st s -> valid o -> validate_outbox_save_transition st rev o now = Ok r ->
  match r with
  | Some revision => o = so_outbox s /\ revision = so_revision s
  | None => evolved (so_outbox s) o /\ rev = so_revision s
  end.
Proof.
  intros [Hl Hfirst] Ho H. pose proof (loaded_valid _ _ Hl) as Hs. unfold validate_outbox_save_transition in H. cbv zeta in H.
  rewrite Hl in H. destruct (so_revision s =? 0) eqn:H0; bool_prop.
  { destruct (negb _) eqn:Hr in H; [done|]. bool_prop. destruct (forallb _ _) eqn:Hall in H; [|done]. injection H as <-.
    split; [|congruence]. split; rewrite ?Hfirst by done; [intros e He; by apply elem_of_nil in He|]. intros e' He'. exists e'.
    split; [right|apply lived_refl]. rewrite forallb_forall in Hall. by apply Hall, list_elem_of_In. }
  destruct (_ <? _) in H; [done|]. match type of H with (if ?b then _ else _) = _ => destruct b eqn:Hb end.
  { injection H as <-. bool_prop. done. }
  destruct (negb (_ =? rev)) eqn:Hr; [done|]. bool_prop. destruct (validate_current _ _) as [[]|] eqn:Hcur; [|done].
  pose proof (validate_current_kept _ _ Hcur) as Hkept. destruct (existsb _ _) eqn:Hex; [done|]. injection H as <-. split; [|congruence].
  assert (forall e, e ∈ entries (so_outbox s) -> exists e', entry o (oe_envelope_id e) = Some e' /\ lived e e') as Hlived.
  { intros e He. destruct (Hkept e He) as (e' & He' & Ht). exists e'. split; [done|]. apply transition_lived; [by apply Hs|done]. }
  split.
  - intros e He. destruct (Hlived e He) as (e' & He' & L). exists e'. split; [by apply entry_Some in He' as []|done].
  - intros e' He'. destruct (entry (so_outbox s) (oe_envelope_id e')) as [e|] eqn:Hent.
    + apply entry_Some in Hent as [He Hid]. destruct (Hlived e He) as (e2 & He2 & L). apply entry_Some in He2 as [He2 Hid2].
      exists e. split; [by left|]. rewrite <- (entry_unique o (va_ids _ Ho) e2 e'); [done..|congruence].
    + exists e'. split; [right|apply lived_refl]. destruct (untouched e') eqn:Hu; [done|]. exfalso.
      assert (existsb (fun e => is_none (entry (so_outbox s) (oe_envelope_id e)) && negb (untouched e)) (entries o) = true) as E; [|congruence].
      apply existsb_exists. exists e'. split; [by apply list_elem_of_In|]. by rewrite Hent, Hu.
Qed.

(** What one write leaves on file. *)
Definition advances st (s : StoredShakescapePublicationOutbox) st' (s' : StoredShakescapePublicationOutbox) : Prop :=
  on_file st' s' /\ so_revision s <= so_revision s' /\ evolved (so_outbox s) (so_outbox s').

Lemma advances_same st s st' : on_file st s -> key st' = key st -> database_id st' = database_id st ->
  encrypted_entities st' = encrypted_entities st -> advances st s st' s.
Proof.
  intros [Hl Hf] Hk Hd He. split; [|split; [lia|apply evolved_refl]]. split; [|done]. by rewrite (load_outbox_same st).
Qed.

Lemma save_advances st s rev o now st' r : on_file st s -> save_shakescape_publication_outbox st rev o now = (st', r) ->
  exists s', advances st s st' s'
    /\ match r with Ok n => so_revision s' = n /\ so_outbox s' = o /\ rev <= n /\ validate o = Ok tt | Err _ => s' = s end.
Proof.
  intros Hon H. assert (Hsame : forall err, (st, Err err) = (st', r) ->
    exists s', advances st s st' s' /\ match r with Ok n => so_revision s' = n /\ so_outbox s' = o /\ rev <= n /\ validate o = Ok tt | Err _ => s' = s end).
  { intros err [= <- <-]. exists s. split; [by apply advances_same|done]. }
  unfold save_shakescape_publication_outbox in H. destruct (validate o) as [[]|err] eqn:Hv; [|by apply (Hsame err)].
  destruct (validate_record_time o now) as [[]|err] eqn:Ht; [|by apply (Hsame err)].
  destruct (validate_outbox_save_transition st rev o now) as [standing|err] eqn:Hs; [|by apply (Hsame err)].
  pose proof (transition_evolved _ _ _ _ _ _ Hon (validate_valid _ Hv) Hs) as Hstep. destruct standing as [revision|].
  - destruct Hstep as [-> ->]. injection H as <- <-. exists s. split; [by apply advances_same|]. split_and!; try done.
    unfold validate_outbox_save_transition in Hs. cbv zeta in Hs. rewrite (of_loads _ _ Hon) in Hs.
    destruct (_ =? 0); [destruct (negb _); [done|]; by destruct (negb _)|]. destruct (_ <? _); [done|].
    match type of Hs with (if ?b then _ else _) = _ => destruct b eqn:Hb end; bool_prop.
    + match goal with E : _ || _ = true |- _ => apply orb_prop in E as [E|E] end; bool_prop; lia.
    + destruct (negb _); [done|]. destruct (validate_current _ _); [|done]. by destruct (existsb _ _).
  - destruct Hstep as [Hev ->]. destruct (save_entity _ _ _ _ _ _) as [st1 saved] eqn:Hsave. injection H as <- <-.
    apply save_entity_row in Hsave as [(Hk & Hd & _) Hrow]. destruct saved as [n|e]; cbn [map_err].
    + destruct Hrow as (-> & Hload & _). exists (mkStoredOutbox (so_revision s + 1) now o).
      split; [|cbn; split_and!; [done..|lia|done]]. split; [|split; [cbn; lia|done]]. split; [by apply saved_loads|cbn; lia].
    + exists s. split; [by apply advances_same|done].
Qed.

(** ** Operations *)

Context {W : Type} {workflow_codec : JsonCodec W}.

Inductive OutboxOp :=
| OpSave (revision : N) (o : ShakescapePublicationOutbox) (now : N)
| OpEnqueue (workflow : bytes) (revision : N) (w : W) (envelope : bytes) (k : ShakescapeOutboxMessageKind) (content : bytes) (now : N)
| OpPrepare (revision now : N)
| OpAccept (h : ShakescapePreparedHandoff) (wanted : ShakescapePublicationAcceptancePolicy) (receipt : bytes) (now : N)
| OpAnnounce (h : ShakescapePreparedHandoff) (now : N)
| OpFail (h : ShakescapePreparedHandoff) (now due : N)
| OpRecover (revision : N) (attempt : bytes) (now due : N).

Definition outbox_step st (op : OutboxOp) : WalletStore :=
  match op with
  | OpSave revision o now => (save_shakescape_publication_outbox st revision o now).1
  | OpEnqueue workflow revision w envelope k content now => (enqueue_and_save_workflow st workflow revision w envelope k content now).1
  | OpPrepare revision now => (prepare_next_shakescape_handoff st revision now).1
  | OpAccept h wanted receipt now => (record_shakescape_handoff_acceptance st h wanted receipt now).1
  | OpAnnounce h now => (record_shakescape_handoff_direct_announcement st h now).1
  | OpFail h now due => (record_shakescape_handoff_failure st h now due).1
  | OpRecover revision attempt now due => (recover_shakescape_handoff_as_retry st revision attempt now due).1
  end.

Lemma workflow_save_failed {V E} `{JsonCodec V, JsonCodec E} st id kind rev (v : V) b u ek (saves : list (EntityBatchSave E)) deletes st' err :
  save_workflow_with_entity_batch st id kind rev v b u ek saves deletes = (st', Err err) ->
  key st' = key st /\ database_id st' = database_id st /\ encrypted_entities st' = encrypted_entities st.
Proof.
  unfold save_workflow_with_entity_batch, transaction. intros Hs. destruct (encode_state v); [|by simplify_eq].
  destruct (prepare_entity_batch _ _); [|by simplify_eq]. destruct (unlocked st); [|by simplify_eq].
  match type of Hs with (match ?body with _ => _ end) = _ => destruct body as [st1 [n|e1]] end; by simplify_eq.
Qed.

Lemma enqueue_valid o envelope k content now o' id : enqueue_expected o envelope k content now = (o', Ok (Inserted id)) -> validate o' = Ok tt.
Proof.
  unfold enqueue_expected. intros H. destruct (validate o); [|done]. destruct (canonical_publication envelope); [|done].
  destruct (_ || _); [done|]. destruct (entry o _); [by case_match|]. destruct (existsb _ _); [done|]. destruct (_ <=? _); [done|].
  cbv zeta in H. destruct (is_ok _) eqn:Hv; [|done]. injection H as <- _. destruct (is_ok_ex _ Hv) as [[] Hok]. exact Hok.
Qed.

Lemma enqueue_advances st s workflow rev (w : W) envelope k content now st' r : on_file st s ->
  enqueue_and_save_workflow st workflow rev w envelope k content now = (st', r) -> exists s', advances st s st' s'.
Proof.
  intros Hon H. unfold enqueue_and_save_workflow in H. rewrite (of_loads _ _ Hon) in H.
  assert (Hst : advances st s st s) by by apply advances_same.
  destruct (enqueue_expected _ _ _ _ _) as [o [enqueued|]] eqn:He; [|simplify_eq; eauto]. destruct enqueued as [id|]; [|simplify_eq; eauto].
  apply enqueue_valid in He. destruct (validate_record_time o now) as [[]|] eqn:Ht; [|simplify_eq; eauto].
  destruct (validate_outbox_save_transition _ _ _ _) as [standing|] eqn:Hs; [|simplify_eq; eauto].
  pose proof (transition_evolved _ _ _ _ _ _ Hon (validate_valid _ He) Hs) as Hstep.
  destruct (ok_or _ _) as [next|] eqn:Hn; [|simplify_eq; eauto]. cbv beta iota zeta in H.
  destruct (save_workflow_with_entity_batch _ _ _ _ _ _ _ _ _ _) as [st1 saved] eqn:Hsave.
  destruct saved as [n|e]; cbn [map_err] in H; simplify_eq.
  - apply save_with_single_loads in Hsave. exists (mkStoredOutbox (so_revision s + 1) now o).
    assert (evolved (so_outbox s) o) as Hev by (destruct standing; destruct Hstep as [Hev _]; [rewrite Hev; apply evolved_refl|done]).
    split; [|split; [cbn; lia|done]]. split; [by apply saved_loads|cbn; lia].
  - apply workflow_save_failed in Hsave as (Hk & Hd & Hent). exists s. by apply advances_same.
Qed.

(** Every other operation leaves the store or saves the outbox once. *)
Definition saves_once st st' : Prop := st' = st \/ exists rev o now r, save_shakescape_publication_outbox st rev o now = (st', r).

Lemma saves_then {A} st rev o now (k : N -> market A) st' r :
  (let! st, n := save_shakescape_publication_outbox st rev o now in (st, k n)) = (st', r) -> saves_once st st'.
Proof.
  intros H. right. destruct (save_shakescape_publication_outbox st rev o now) as [st1 r1] eqn:Hs. exists rev, o, now, r1.
  by destruct r1; simplify_eq.
Qed.

Lemma prepare_saves st rev now : saves_once st (prepare_next_shakescape_handoff st rev now).1.
Proof.
  destruct (prepare_next_shakescape_handoff st rev now) as [st' r] eqn:H. unfold prepare_next_shakescape_handoff in H. cbn [fst].
  destruct (load_shakescape_publication_outbox st); [|left; by simplify_eq]. cbv zeta in H. destruct (negb _); [left; by simplify_eq|].
  destruct (_ <? _); [left; by simplify_eq|]. destruct (prepared_entry _); [left; by case_match; simplify_eq|].
  destruct (next_due_index _ _); [|left; by simplify_eq]. destruct (entries _ !! _); [|left; by simplify_eq].
  destruct (ok_or _ _); [|left; by simplify_eq]. cbv beta iota zeta in H.
  destruct (save_shakescape_publication_outbox _ _ _ _) as [st1 r1] eqn:Hs. right. eexists _, _, _, r1.
  destruct r1; [|by simplify_eq]. destruct (prepared_handoff_from_entry _ _); by simplify_eq.
Qed.

Lemma acceptance_saves st h wanted receipt now : saves_once st (record_shakescape_handoff_acceptance st h wanted receipt now).1.
Proof.
  destruct (record_shakescape_handoff_acceptance st h wanted receipt now) as [st' r] eqn:H. unfold record_shakescape_handoff_acceptance in H. cbn [fst].
  destruct (handoff_canonical h); [|left; by simplify_eq]. cbv beta iota zeta in H.
  destruct (validate_shakescape_publication_acceptance _ _ _ _); [|left; by simplify_eq].
  destruct (load_shakescape_publication_outbox st); [|left; by simplify_eq]. cbv beta iota zeta in H.
  destruct (handoff_entry _ _) as [[i e]|]; [|left; by simplify_eq]. destruct (oe_state e) eqn:Hstate; cbv beta iota zeta in H.
  4: { left. by destruct (ok_or _ _); simplify_eq. }
  all: destruct (negb _); [left; by simplify_eq|]; destruct (negb _); [left; by simplify_eq|]; exact (saves_then _ _ _ _ _ _ _ H).
Qed.

Lemma announcement_saves st h now : saves_once st (record_shakescape_handoff_direct_announcement st h now).1.
Proof.
  destruct (record_shakescape_handoff_direct_announcement st h now) as [st' r] eqn:H. unfold record_shakescape_handoff_direct_announcement in H. cbn [fst].
  destruct (handoff_canonical h); [|left; by simplify_eq]. cbv beta iota zeta in H.
  destruct (load_shakescape_publication_outbox st); [|left; by simplify_eq]. cbv beta iota zeta in H.
  destruct (handoff_entry _ _) as [[i e]|]; [|left; by simplify_eq]. destruct (oe_state e) eqn:Hstate; cbv beta iota zeta in H.
  5: { left. by simplify_eq. }
  all: destruct (negb _); [left; by simplify_eq|]; destruct (negb _ || _); [left; by simplify_eq|]; exact (saves_then _ _ _ _ _ _ _ H).
Qed.

Lemma failure_saves st s attempt now due : saves_once st (persist_shakescape_handoff_failure st s attempt now due).1.
Proof.
  destruct (persist_shakescape_handoff_failure st s attempt now due) as [st' r] eqn:H. unfold persist_shakescape_handoff_failure in H. cbn [fst]. cbv zeta in H.
  destruct (ok_or _ _) as [[i e]|]; [|left; by simplify_eq]. destruct (oe_state e) as [|a p| | | |]; try (left; by simplify_eq).
  destruct (_ || _); [left; by simplify_eq|]. destruct (ok_or _ _); [|left; by simplify_eq]. cbv beta iota zeta in H.
  exact (saves_then _ _ _ _ _ _ _ H).
Qed.

Lemma step_advances st s op : on_file st s -> exists s', advances st s (outbox_step st op) s'.
Proof.
  intros Hon. assert (Hst : advances st s st s) by by apply advances_same.
  assert (Hsaves : forall st', saves_once st st' -> exists s', advances st s st' s').
  { intros st' [->|(rev & o & now & r & Hs)]; [eauto|]. apply (save_advances _ _ _ _ _ _ _ Hon) in Hs as (s' & Ha & _). eauto. }
  destruct op; cbn [outbox_step].
  - destruct (save_shakescape_publication_outbox _ _ _ _) as [st' r] eqn:Hs. apply Hsaves. right. eauto.
  - destruct (enqueue_and_save_workflow _ _ _ _ _ _ _ _) as [st' r] eqn:Hs. by eapply enqueue_advances.
  - apply Hsaves, prepare_saves.
  - apply Hsaves, acceptance_saves.
  - apply Hsaves, announcement_saves.
  - unfold record_shakescape_handoff_failure. rewrite (of_loads _ _ Hon). cbv beta iota zeta. destruct (negb _); [eauto|].
    destruct (ok_or _ _); [|eauto]. destruct (negb _); [eauto|]. apply Hsaves, failure_saves.
  - unfold recover_shakescape_handoff_as_retry. rewrite (of_loads _ _ Hon). cbv beta iota zeta. destruct (negb _); [eauto|].
    destruct (ok_or _ _) as [e|]; [|eauto]. destruct (oe_state e); try (by eauto). case_bool_decide; [|eauto]. apply Hsaves, failure_saves.
Qed.

Lemma run_advances ops : forall st s, on_file st s -> exists s', advances st s (fold_left outbox_step ops st) s'.
Proof.
  induction ops as [|op ops IH]; intros st s Hon; cbn [fold_left].
  { exists s. by apply advances_same. }
  destruct (step_advances st s op Hon) as (s1 & Hon1 & Hr1 & He1). destruct (IH _ _ Hon1) as (s2 & Hon2 & Hr2 & He2).
  exists s2. split; [done|]. split; [lia|by eapply evolved_trans].
Qed.

(** C12: the outbox keeps its messages and each goes through one life. Start from a
    store without an outbox, and let anything happen to it, failures included. The
    outbox can be read at every point; its revision does not go back; one attempt at
    most is in flight; every message stays, with its bytes and its request number;
    and between any two points each message has only taken steps of its life: from
    waiting to in flight when it is due, from there back to waiting with one more
    attempt, to given up after 64 attempts, to announced, or to accepted by a
    receipt that is verified and names that attempt. New messages start untouched. *)
Theorem messages_live_once st ops1 ops2 :
  load_entity (T := ShakescapePublicationOutbox) st EntityKind.ShakescapeBoardObject SHAKESCAPE_OUTBOX_RECORD_ID = Ok None ->
  exists s1 s2, load_shakescape_publication_outbox (fold_left outbox_step ops1 st) = Ok s1
    /\ load_shakescape_publication_outbox (fold_left outbox_step (ops1 ++ ops2) st) = Ok s2
    /\ so_revision s1 <= so_revision s2 /\ valid (so_outbox s2) /\ evolved default_outbox (so_outbox s1)
    /\ evolved (so_outbox s1) (so_outbox s2).
Proof.
  intros Hnone. assert (on_file st (mkStoredOutbox 0 0 default_outbox)) as Hon.
  { split; [|done]. unfold load_shakescape_publication_outbox. cbv zeta. by rewrite Hnone. }
  destruct (run_advances ops1 _ _ Hon) as (s1 & Hon1 & _ & He1). destruct (run_advances ops2 _ _ Hon1) as (s2 & Hon2 & Hr2 & He2).
  rewrite <- fold_left_app in Hon2. exists s1, s2. pose proof (of_loads _ _ Hon1). pose proof (of_loads _ _ Hon2) as Hl2.
  split_and!; try done. by eapply loaded_valid.
Qed.

(** ** Handing off *)

Definition reachable st : Prop := exists st0 ops,
  load_entity (T := ShakescapePublicationOutbox) st0 EntityKind.ShakescapeBoardObject SHAKESCAPE_OUTBOX_RECORD_ID = Ok None
  /\ st = fold_left outbox_step ops st0.

Lemma reachable_on_file st : reachable st -> exists s, on_file st s.
Proof.
  intros (st0 & ops & Hnone & ->). assert (on_file st0 (mkStoredOutbox 0 0 default_outbox)) as Hon.
  { split; [|done]. unfold load_shakescape_publication_outbox. cbv zeta. by rewrite Hnone. }
  destruct (run_advances ops _ _ Hon) as (s & Hs & _). eauto.
Qed.

(** *** The next due entry *)

Definition due_key e (due : N) : N * N * bytes := (due, oe_created_at_unix e, oe_envelope_id e).

Lemma due_before_trans a b c : due_before a b = true -> due_before b c = true -> due_before a c = true.
Proof.
  destruct a as [[a1 a2] a3], b as [[b1 b2] b3], c as [[c1 c2] c3]. unfold due_before.
  rewrite !orb_true_iff, !andb_true_iff, !orb_true_iff, !andb_true_iff, !N.ltb_lt, !N.eqb_eq, !negb_true_iff.
  intros [?|[-> [?|[-> Hab]]]] [?|[-> [?|[-> Hbc]]]]; try (left; lia); right; (split; [done|]); try (left; lia).
  right. split; [done|]. by eapply bytes_lt_trans.
Qed.

Lemma due_before_cotrans a b c : due_before a c = true -> due_before a b = true \/ due_before b c = true.
Proof.
  destruct a as [[a1 a2] a3], b as [[b1 b2] b3], c as [[c1 c2] c3]. unfold due_before.
  rewrite !orb_true_iff, !andb_true_iff, !orb_true_iff, !andb_true_iff, !N.ltb_lt, !N.eqb_eq, !negb_true_iff. intros H.
  destruct (N.lt_trichotomy a1 b1) as [?|[->|?]]; [by auto| |right; left; lia].
  destruct (N.lt_trichotomy a2 b2) as [?|[->|?]]; [by auto| |right; destruct H as [?|[-> [?|?]]]; [by auto|right; split; [done|left; lia]..]; lia].
  destruct H as [?|[-> [?|[-> Hac]]]]; [by auto..|]. destruct (bytes_leb b3 a3) eqn:Hab; [|by auto 6]. right; right. split; [done|].
  right. split; [done|]. destruct (bytes_leb c3 b3) eqn:Hbc; [|done]. by rewrite (bytes_leb_trans _ _ _ Hbc Hab) in Hac.
Qed.

Lemma due_before_irrefl k : due_before k k = false.
Proof. destruct k as [[k1 k2] k3]. unfold due_before. by rewrite !N.ltb_irrefl, !N.eqb_refl, bytes_leb_refl. Qed.

(** What one step of the search keeps: the new entry or the best so far. *)
Lemma next_due_cons x l index now best : exists best', next_due_from (x :: l) index now best = next_due_from l (S index) now best'
  /\ (best' = best /\ (forall due, due_at x = Some due -> due <= now -> exists k j, best = Some (k, j) /\ due_before (due_key x due) k = false)
      \/ exists due, due_at x = Some due /\ due <= now /\ best' = Some (due_key x due, index)
         /\ forall k j, best = Some (k, j) -> due_before (due_key x due) k = true).
Proof.
  eexists. split; [reflexivity|]. destruct (due_at x) as [due|]; [|left; split; [done|intros; done]].
  destruct (due <=? now) eqn:Hd; bool_prop; [|left; split; [done|intros d [= <-] ?; lia]].
  destruct best as [[k j]|]; [|right; exists due; by split_and!]. cbv zeta. fold (due_key x due). destruct (due_before (due_key x due) k) eqn:Hb.
  - right. exists due. split_and!; [done..|]. intros k1 j1 Hk. injection Hk as <- <-. done.
  - left. split; [done|]. intros d [= <-] _. eauto.
Qed.

Lemma next_due_none l now : forall index best, next_due_from l index now best = None ->
  best = None /\ forall e due, e ∈ l -> due_at e = Some due -> now < due.
Proof.
  induction l as [|x l IH]; intros index best H; [split; [done|intros e due He; by apply elem_of_nil in He]|].
  destruct (next_due_cons x l index now best) as (best' & E & Hbest). rewrite E in H. apply IH in H as [-> Hl].
  destruct Hbest as [[<- Hx]|(due & _ & _ & ? & _)]; [|done]. split; [done|]. intros e due [->|He]%elem_of_cons Hdue; [|by eapply Hl].
  apply N.lt_nge. intros Hle. by destruct (Hx _ Hdue Hle) as (? & ? & ? & _).
Qed.

Lemma next_due_least l now : forall index best key i, next_due_from l index now best = Some (key, i) ->
  (best = Some (key, i) \/ exists e due, l !! (i - index)%nat = Some e /\ (index <= i)%nat /\ due_at e = Some due /\ due <= now /\ key = due_key e due)
  /\ (forall e due, e ∈ l -> due_at e = Some due -> due <= now -> due_before (due_key e due) key = false)
  /\ (forall k j, best = Some (k, j) -> due_before k key = false).
Proof.
  induction l as [|x l IH]; intros index best key i H.
  { cbn in H. subst best. split_and!; [by left|intros e due He; by apply elem_of_nil in He|]. intros k j [= <- <-]. apply due_before_irrefl. }
  destruct (next_due_cons x l index now best) as (best' & E & Hbest). rewrite E in H. apply IH in H as (Hwhere & Hleast & Hold).
  assert (Hfound : forall e, l !! (i - S index)%nat = Some e -> (S index <= i)%nat -> (x :: l) !! (i - index)%nat = Some e).
  { intros e He Hi. by replace (i - index)%nat with (S (i - S index)) by lia. }
  destruct Hbest as [[-> Hx]|(due & Hdue & Hle & -> & Hx)].
  - split_and!; [|intros e due [->|He]%elem_of_cons Hdue Hle; [|by eapply Hleast]|done].
    + destruct Hwhere as [?|(e & due & He & Hi & ?)]; [by left|right]. exists e, due. split; [by eapply Hfound|]. split; [lia|done].
    + destruct (Hx due Hdue Hle) as (k & j & Hb & Hk). apply not_true_is_false. intros Hlt.
      destruct (due_before_cotrans _ k _ Hlt) as [H|H]; [congruence|]. by rewrite (Hold k j Hb) in H.
  - split_and!.
    + right. destruct Hwhere as [[= <- <-]|(e & d & He & Hi & ?)].
      * exists x, due. rewrite Nat.sub_diag. by split_and!.
      * exists e, d. split; [by eapply Hfound|]. split; [lia|done].
    + intros e d [->|He]%elem_of_cons Hd Hl; [|by eapply Hleast]. rewrite Hdue in Hd. injection Hd as <-. by eapply Hold.
    + intros k j Hb. apply not_true_is_false. intros Hlt. specialize (Hx k j Hb). specialize (Hold _ _ eq_refl).
      by rewrite (due_before_trans _ _ _ Hx Hlt) in Hold.
Qed.

(** *** A prepared handoff *)

(** What a handoff says is true of its envelope: the envelope is canonical and is the
    one named, and the identifier is that of this attempt. *)
Definition handoff_sound (h : ShakescapePreparedHandoff) : Prop :=
  (exists c, handoff_canonical h = Ok c)
  /\ ho_attempt_id h = shakescape_handoff_attempt_id (ho_envelope_id h) (ho_request_id h) (ho_attempt_ordinal h) (ho_prepared_at_unix h)
  /\ 1 <= ho_attempt_ordinal h <= MAX_SHAKESCAPE_OUTBOX_RETRY_ATTEMPTS.

Lemma valid_entry_canonical e : validate_entry e = Ok tt -> exists c, canonical_publication (oe_envelope_bytes e) = Ok c
  /\ canonical_matches c (oe_envelope_id e) (oe_content_id e) (oe_message_kind e) (oe_request_id e) = true /\ validate_state c e = Ok tt.
Proof.
  unfold validate_entry. cbv zeta. intros H. destruct (canonical_publication _) as [c|] eqn:Hc; [|done]. cbn [map_err] in H.
  match type of H with (if ?b then _ else _) = _ => destruct b eqn:Hb; [done|] end.
  match type of H with (if ?b then _ else _) = _ => destruct b; [done|] end.
  exists c. bool_prop. by split_and!.
Qed.

Lemma handoff_of_entry revision e h : validate_entry e = Ok tt -> prepared_handoff_from_entry revision e = Ok h -> handoff_sound h.
Proof.
  intros (c & Hc & Hm & Hs)%valid_entry_canonical H. unfold prepared_handoff_from_entry in H. unfold validate_state in Hs. cbv zeta in Hs.
  destruct (oe_state e) as [|attempt since| | | |]; try done. destruct (next_attempt _) as [n|] eqn:Hn; [|done]. cbn in H, Hs.
  match type of Hs with (if ?b then _ else _) = _ => destruct b eqn:Hb; [done|] end. apply orb_false_elim in Hb as [_ Hb]. bool_prop.
  injection H as <-. apply next_attempt_Some in Hn as [-> Hlt]. split_and!; cbn; [|done|lia..].
  exists c. unfold handoff_canonical. cbn. by rewrite Hc, Hm.
Qed.

Lemma prepared_entry_of o e : valid o -> e ∈ entries o -> is_prepared (oe_state e) = true -> prepared_entry o = Some e.
Proof.
  intros Hv He Hp. unfold prepared_entry. destruct (find_entry _ _) as [[i e']|] eqn:Hf.
  - apply find_entry_Some in Hf as [Hi Hp']. cbn. f_equal. eapply (va_flight _ Hv); [by eapply list_elem_of_lookup_2|done..].
  - by rewrite (find_entry_None _ _ Hf _ He) in Hp.
Qed.

Lemma prepared_entry_Some o e : prepared_entry o = Some e -> e ∈ entries o /\ is_prepared (oe_state e) = true.
Proof.
  unfold prepared_entry. destruct (find_entry _ _) as [[i e']|] eqn:Hf; [|done]. intros [= ->].
  apply find_entry_Some in Hf as [Hi Hp]. split; [by eapply list_elem_of_lookup_2|done].
Qed.

Lemma prepared_entry_None o e : prepared_entry o = None -> e ∈ entries o -> is_prepared (oe_state e) = false.
Proof.
  unfold prepared_entry. destruct (find_entry _ _) as [[i e']|] eqn:Hf; [done|]. intros _. by apply (find_entry_None _ _ Hf).
Qed.

(** A due entry that no other due entry precedes: by the time it is due, then by the
    time it was queued. *)
Definition next_due o (now : N) e : Prop := exists due, e ∈ entries o /\ due_at e = Some due /\ due <= now
  /\ forall e' due', e' ∈ entries o -> due_at e' = Some due' -> due' <= now -> due_before (due_key e' due') (due_key e due) = false.

Lemma next_due_index_spec o now : match next_due_index o now with
  | Some i => exists e, entries o !! i = Some e /\ next_due o now e
  | None => forall e due, e ∈ entries o -> due_at e = Some due -> now < due
  end.
Proof.
  unfold next_due_index. destruct (next_due_from _ _ _ _) as [[key i]|] eqn:Hn; cbn [option_map snd].
  - apply next_due_least in Hn as ([?|(e & due & He & _ & Hdue & Hle & ->)] & Hleast & _); [done|]. rewrite Nat.sub_0_r in He.
    exists e. split; [done|]. exists due. split_and!; try done. by eapply list_elem_of_lookup_2.
  - apply next_due_none in Hn as [_ ?]. done.
Qed.

(** C14: a prepared handoff is on file before it is handed out. In any store that the
    operations of the outbox led to, a preparation that returns a handoff leaves a
    store from which that very handoff is loaded; the envelope is the canonical one it
    names and the identifier is that of this attempt. A new one is for the entry that
    is due first; an attempt in flight is returned as it is; and nothing is due only
    when every waiting entry is due later and none is in flight. *)
Theorem handoff_is_durable st rev now st' r :
  reachable st -> prepare_next_shakescape_handoff st rev now = (st', Ok r) ->
  exists s, load_shakescape_publication_outbox st = Ok s /\ so_revision s = rev
    /\ match r with
       | NoDue n => st' = st /\ n = rev /\ forall e, e ∈ entries (so_outbox s) ->
           is_prepared (oe_state e) = false /\ forall due, due_at e = Some due -> now < due
       | PreparedNow h => load_prepared_shakescape_handoff st' = Ok (Some h) /\ handoff_sound h /\ rev <= ho_outbox_revision h
           /\ ho_prepared_at_unix h = now /\ exists e, next_due (so_outbox s) now e /\ ho_envelope_id h = oe_envelope_id e
       | PreparedBefore h => st' = st /\ load_prepared_shakescape_handoff st = Ok (Some h) /\ handoff_sound h
       end.
Proof.
  intros [s Hon]%reachable_on_file H. pose proof (of_loads _ _ Hon) as Hl. pose proof (loaded_valid _ _ Hl) as Hv. exists s.
  unfold prepare_next_shakescape_handoff in H. rewrite Hl in H. cbv beta iota zeta in H.
  destruct (negb _) eqn:Hr in H; [done|]. bool_prop. destruct (now <? _); [done|]. do 2 (split; [done|]).
  destruct (prepared_entry _) as [e|] eqn:Hp.
  - destruct (prepared_handoff_from_entry _ _) as [h|] eqn:Hh; [|done]. injection H as <- <-. split_and!; [done| |].
    + unfold load_prepared_shakescape_handoff. by rewrite Hl, Hp, Hh.
    + apply prepared_entry_Some in Hp as [He _]. eapply handoff_of_entry; [|exact Hh]. by apply (va_entries _ Hv).
  - pose proof (next_due_index_spec (so_outbox s) now) as Hnext. destruct (next_due_index _ _) as [i|].
    2:{ injection H as <- <-. split_and!; [done..|]. intros e He. split; [by eapply prepared_entry_None|]. intros due. by apply Hnext. }
    destruct Hnext as (e & He & Hdue). rewrite He in H. destruct (next_attempt _) as [n|]; [|done]. cbn [ok_or] in H.
    set (e' := with_state e _ _ _ _) in H. destruct (save_shakescape_publication_outbox _ _ _ _) as [st1 saved] eqn:Hsave.
    destruct saved as [revision|]; [|done]. destruct (save_advances _ _ _ _ _ _ _ Hon Hsave) as (s' & (Hon' & _) & Hrev & Hout & Hle & Hval).
    cbv beta iota in H. destruct (prepared_handoff_from_entry revision e') as [h|] eqn:Hh; [|done]. injection H as <- <-.
    assert (He' : e' ∈ entries (set_entry (so_outbox s) i e')).
    { cbn. eapply list_elem_of_lookup_2, list_lookup_insert_eq. by eapply lookup_lt_Some. }
    assert (Hfields : ho_outbox_revision h = revision /\ ho_prepared_at_unix h = now /\ ho_envelope_id h = oe_envelope_id e).
    { clear - Hh. unfold prepared_handoff_from_entry in Hh. cbn in Hh. destruct (next_attempt _); [|done]. by injection Hh as <-. }
    split_and!.
    + unfold load_prepared_shakescape_handoff. rewrite (of_loads _ _ Hon'). cbv beta iota. rewrite Hout, Hrev.
      rewrite (prepared_entry_of _ e'); [by rewrite Hh|by apply validate_valid|done|done].
    + eapply handoff_of_entry; [|exact Hh]. by apply (va_entries _ (validate_valid _ Hval)).
    + by destruct Hfields as (-> & _).
    + by destruct Hfields as (_ & -> & _).
    + exists e. split; [done|]. by destruct Hfields as (_ & _ & ->).
Qed.

(** ** An accepted message *)

(** The entry of an accepted handoff in any outbox reached from there. *)
Definition accepted_entry (h : ShakescapePreparedHandoff) (receipt : bytes) (at_unix : N)
    (kept : PersistedShakescapePublicationAcceptance) e : Prop :=
  oe_state e = RelayAccepted receipt at_unix /\ oe_acceptance e = Some kept /\ matches_identity h e = true.

Lemma entry_found o h e : valid o -> e ∈ entries o -> ho_envelope_id h = oe_envelope_id e -> exists i, handoff_entry h o = Ok (i, e).
Proof.
  intros Hv He Hid. unfold handoff_entry. destruct (find_entry _ _) as [[i e']|] eqn:Hf.
  - apply find_entry_Some in Hf as [Hi Hp]. bool_prop. exists i. cbn. do 2 f_equal.
    eapply entry_unique; [apply (va_ids _ Hv)|by eapply list_elem_of_lookup_2|done|congruence].
  - specialize (find_entry_None _ _ Hf _ He). cbn. intros Hn%bool_decide_eq_false. congruence.
Qed.

Lemma handoff_matches_identity h revision e : handoff_matches h revision e = true -> matches_identity h e = true.
Proof.
  unfold handoff_matches, matches_identity. destruct (oe_state e); [done| |done..]. intros H. bool_prop.
  repeat match goal with E : _ = _ |- _ => rewrite E end. by rewrite !bool_decide_true, !N.eqb_refl.
Qed.

Lemma acceptance_inserted st s h wanted receipt now st' snap : on_file st s ->
  record_shakescape_handoff_acceptance st h wanted receipt now = (st', Ok (AcceptanceInserted snap)) ->
  exists c kept e s', handoff_canonical h = Ok c
    /\ validate_shakescape_publication_acceptance wanted (acceptance_expectation h c) receipt now = Ok kept
    /\ on_file st' s' /\ e ∈ entries (so_outbox s') /\ accepted_entry h (pa_receipt_id kept) now kept e
    /\ snap = acceptance_snapshot (so_revision s') e (ho_attempt_id h) kept.
Proof.
  intros Hon H. unfold record_shakescape_handoff_acceptance in H. destruct (handoff_canonical h) as [c|]; [|done]. cbv beta iota zeta in H.
  destruct (validate_shakescape_publication_acceptance _ _ _ _) as [kept|] eqn:Hk; [|done]. rewrite (of_loads _ _ Hon) in H.
  destruct (handoff_entry _ _) as [[i e]|] eqn:Hf; [|done].
  assert (Hsave : (if negb (so_revision s =? ho_outbox_revision h) then (st, Err ShakedexError.StaleRevision) else
    if negb (handoff_matches h (so_revision s) e) then (st, Err ShakedexError.ShakescapeOutboxHandoffMismatch) else
    let e := with_state e (RelayAccepted (pa_receipt_id kept) now) (oe_retry_attempts e) (Some now) (Some kept) in
    let! st, revision := save_shakescape_publication_outbox st (so_revision s) (set_entry (so_outbox s) i e) now in
    (st, Ok (AcceptanceInserted (acceptance_snapshot revision e (ho_attempt_id h) kept)))) = (st', Ok (AcceptanceInserted snap))).
  { destruct (oe_state e); try exact H. destruct (ok_or _ _); [|done]. by destruct (_ && _) in H. }
  clear H. destruct (negb _); [done|]. destruct (negb _) eqn:Hm in Hsave; [done|]. bool_prop. cbv zeta in Hsave.
  set (e' := with_state e _ _ _ _) in Hsave. destruct (save_shakescape_publication_outbox _ _ _ _) as [st1 saved] eqn:Hs.
  destruct saved as [n|]; [|done]. destruct (save_advances _ _ _ _ _ _ _ Hon Hs) as (s' & (Hon' & _) & Hrev & Hout & _).
  injection Hsave as <- <-. exists c, kept, e', s'. do 3 (split; [done|]). rewrite Hout, Hrev. split_and!; [|split_and!|done]; try done.
  - apply ok_or_Ok in Hf. apply find_entry_Some in Hf as [Hi _]. eapply list_elem_of_lookup_2, list_lookup_insert_eq. by eapply lookup_lt_Some.
  - exact (handoff_matches_identity _ _ _ Hm).
Qed.

Lemma acceptance_repeated st s h wanted receipt now c kept e : on_file st s -> handoff_canonical h = Ok c ->
  validate_shakescape_publication_acceptance wanted (acceptance_expectation h c) receipt now = Ok kept ->
  e ∈ entries (so_outbox s) -> accepted_entry h (pa_receipt_id kept) now kept e ->
  record_shakescape_handoff_acceptance st h wanted receipt now
    = (st, Ok (AcceptanceExisting (acceptance_snapshot (so_revision s) e (ho_attempt_id h) kept))).
Proof.
  intros Hon Hc Hk He (Hst & Hacc & Hid). pose proof (loaded_valid _ _ (of_loads _ _ Hon)) as Hv.
  assert (ho_envelope_id h = oe_envelope_id e) as Henv by (unfold matches_identity in Hid; by bool_prop).
  destruct (entry_found _ _ _ Hv He Henv) as [i Hi]. unfold record_shakescape_handoff_acceptance.
  rewrite Hc. cbv beta iota zeta. rewrite Hk. cbv beta iota. rewrite (of_loads _ _ Hon). cbv beta iota. rewrite Hi. cbv beta iota.
  rewrite Hst, Hacc. cbn [ok_or]. rewrite Hid, !bool_decide_true by done. by rewrite !N.eqb_refl.
Qed.

Lemma failure_refused st s h e receipt now kept : on_file st s -> e ∈ entries (so_outbox s) -> accepted_entry h receipt now kept e ->
  forall at_unix due, exists err, record_shakescape_handoff_failure st h at_unix due = (st, Err err).
Proof.
  intros Hon He (Hst & Hacc & Hid) at_unix due. pose proof (loaded_valid _ _ (of_loads _ _ Hon)) as Hv.
  unfold record_shakescape_handoff_failure. rewrite (of_loads _ _ Hon). cbv beta iota. destruct (negb _); [by eexists|].
  destruct (prepared_entry _) as [e'|] eqn:Hp; [|by eexists]. cbn [ok_or]. destruct (negb _) eqn:Hm; [by eexists|]. bool_prop.
  apply prepared_entry_Some in Hp as [He' Hp]. apply handoff_matches_identity in Hm.
  assert (e' = e) as -> by (unfold matches_identity in *; bool_prop; eapply entry_unique; [apply (va_ids _ Hv)|done..|congruence]).
  by rewrite Hst in Hp.
Qed.

Lemma announcement_refused st s h e receipt now kept : on_file st s -> e ∈ entries (so_outbox s) -> accepted_entry h receipt now kept e ->
  forall at_unix, exists err, record_shakescape_handoff_direct_announcement st h at_unix = (st, Err err).
Proof.
  intros Hon He (Hst & Hacc & Hid) at_unix. pose proof (loaded_valid _ _ (of_loads _ _ Hon)) as Hv.
  assert (ho_envelope_id h = oe_envelope_id e) as Henv by (unfold matches_identity in Hid; by bool_prop).
  destruct (entry_found _ _ _ Hv He Henv) as [i Hi]. unfold record_shakescape_handoff_direct_announcement.
  destruct (handoff_canonical h); [|by eexists]. cbv beta iota. rewrite (of_loads _ _ Hon). cbv beta iota zeta. rewrite Hi. cbv beta iota.
  rewrite Hst. destruct (negb _); [by eexists|]. unfold handoff_matches. rewrite Hst. by eexists.
Qed.

(** The accepted messages can always be listed. *)
Lemma collect_accepted_all l : (forall e, e ∈ l -> exists kept expected, oe_acceptance e = Some kept
    /\ validate_persisted_shakescape_publication_acceptance kept = Ok expected) ->
  exists replays, collect_accepted l = Ok replays /\ forall e kept expected, e ∈ l -> oe_acceptance e = Some kept ->
    validate_persisted_shakescape_publication_acceptance kept = Ok expected -> mkAcceptedReplay (oe_envelope_bytes e) expected ∈ replays.
Proof.
  induction l as [|e l IH]; intros H; [exists []; split; [done|]; intros e kept expected He; by apply elem_of_nil in He|].
  destruct IH as (replays & Hc & Hin); [by intros; apply H, elem_of_cons; right|].
  destruct (H e) as (kept & expected & Hk & Hx); [apply elem_of_cons; by left|]. cbn [collect_accepted]. rewrite Hk. cbn [ok_or]. rewrite Hx, Hc.
  eexists. split; [reflexivity|]. intros e' kept' expected' [->|He']%elem_of_cons Hk' Hx'; apply elem_of_cons.
  - left. rewrite Hk in Hk'. injection Hk' as <-. rewrite Hx in Hx'. apply Ok_inj in Hx'. by subst.
  - right. by eapply Hin.
Qed.

Lemma accepted_replayed st s e kept expected : on_file st s -> e ∈ entries (so_outbox s) -> is_relay_accepted (oe_state e) = true ->
  oe_acceptance e = Some kept -> validate_persisted_shakescape_publication_acceptance kept = Ok expected ->
  exists replays, accepted_shakescape_replays st = Ok replays /\ mkAcceptedReplay (oe_envelope_bytes e) expected ∈ replays.
Proof.
  intros Hon He Hst Hk Hx. pose proof (loaded_valid _ _ (of_loads _ _ Hon)) as Hv. unfold accepted_shakescape_replays. rewrite (of_loads _ _ Hon).
  cbv beta iota. set (l := merge_sort _ _). assert (Hl : forall x, x ∈ l <-> x ∈ entries (so_outbox s) /\ is_relay_accepted (oe_state x) = true).
  { intros x. subst l. rewrite merge_sort_Permutation, !list_elem_of_In. apply filter_In. }
  destruct (collect_accepted_all l) as (replays & Hc & Hin).
  - intros x [Hin Hacc]%Hl. destruct (valid_entry_canonical _ (va_entries _ Hv _ Hin)) as (c & _ & _ & Hs). unfold validate_state in Hs. cbv zeta in Hs.
    destruct (oe_state x); try done. destruct (oe_acceptance x) as [k|]; [|done]. cbn [ok_or] in Hs.
    destruct (validate_persisted_shakescape_publication_acceptance k) as [y|] eqn:Hy; [|done]. by exists k, y.
  - exists replays. split; [done|]. by apply (Hin e kept); [apply Hl|..].
Qed.

(** C13: an accepted message stays accepted. Once a relay's receipt for a handoff is
    recorded, whatever happens next: recording it again finds the same acceptance and
    changes nothing; the handoff can no longer fail or be announced, and the attempts
    to say so change nothing; and the message is among those to be shown to relays
    again, with the expectation its receipt was checked against. *)
Theorem accepted_is_final st h wanted receipt now st' snap ops :
  reachable st -> record_shakescape_handoff_acceptance st h wanted receipt now = (st', Ok (AcceptanceInserted snap)) ->
  let later := fold_left outbox_step ops st' in
  (exists e kept n m, snap = acceptance_snapshot n e (ho_attempt_id h) kept /\ n <= m
     /\ record_shakescape_handoff_acceptance later h wanted receipt now
        = (later, Ok (AcceptanceExisting (acceptance_snapshot m e (ho_attempt_id h) kept))))
  /\ (forall at_unix due, exists err, record_shakescape_handoff_failure later h at_unix due = (later, Err err))
  /\ (forall at_unix, exists err, record_shakescape_handoff_direct_announcement later h at_unix = (later, Err err))
  /\ exists c replays, handoff_canonical h = Ok c /\ accepted_shakescape_replays later = Ok replays
     /\ mkAcceptedReplay (ho_envelope_bytes h) (acceptance_expectation h c) ∈ replays.
Proof.
  intros [s Hon]%reachable_on_file H later. destruct (acceptance_inserted _ _ _ _ _ _ _ _ Hon H) as (c & kept & e & s1 & Hc & Hk & Hon1 & He & Hacc & ->).
  destruct (run_advances ops _ _ Hon1) as (s2 & Hon2 & Hle & Hev & _). destruct (Hev _ He) as (e2 & He2 & _ & _ & Hsame).
  pose proof Hacc as (Hst & Hkept & Hid). rewrite Hsame in He2 by (unfold settled; by rewrite Hst). clear e2 Hsame. split_and!.
  - exists e, kept, (so_revision s1), (so_revision s2). split; [done|]. split; [done|]. by eapply acceptance_repeated.
  - by eapply failure_refused.
  - by eapply announcement_refused.
  - apply acceptance_persists in Hk as [Hp _]. destruct (accepted_replayed _ _ _ _ _ Hon2 He2 ltac:(by rewrite Hst) Hkept Hp) as (replays & Hr & Hin).
    exists c, replays. split_and!; [done..|]. assert (ho_envelope_bytes h = oe_envelope_bytes e) as -> by (unfold matches_identity in Hid; by bool_prop). done.
Qed.
End Outbox.

(** ** A small market *)

Module ToyMarket.
Import Toy.
Definition h32 (b : u8) : bytes := repeat b 32.

(** A digest is the end of what is hashed, and every signature of a receipt verifies. *)
Definition toy_acceptance : AcceptanceEnv := {|
  digest256 b := take 32 (rev b ++ h32 x11);
  VerifyingKey := unit;
  key_from_sec1_bytes _ := Some tt;
  Signature := bytes;
  signature_from_der b := Some b;
  signature_to_der b := b;
  normalize_s b := b;
  verify_prehash _ _ _ := true;
|}.
#[global] Existing Instance toy_acceptance | 100.

Definition toy_types : MarketTypes := {|
  Listing := u8; ListingCancellation := Empty_set; OtherMessage := Empty_set; ShakescapeRegistryVersion := unit;
|}.
#[global] Existing Instance toy_types | 100.

Definition toy_network : MarketNetwork := mkNetwork 7 (h32 x21).
(** The envelope of a listing is the request number and the listing. *)
Definition toy_market : MarketEnv := {|
  REGISTRY_V1 := tt;
  decode_envelope b := match b with [r; l] => Some (tt, Byte.to_N r, MessageOffer (l : Listing)) | _ => None end;
  encode_envelope m _ r := match m, Byte.of_N r with MessageOffer l, Some b => Some [b; l] | _, _ => None end;
  listing_hash l := Some (h32 l);
  listing_network _ := toy_network;
  listing_window _ := (0, 1000);
  cancellation_hash c := match c with end;
  cancellation_network c := match c with end;
  cancellation_window c := match c with end;
|}.
#[global] Existing Instance toy_market | 100.

Definition envelope : bytes := [x05; x41].
Definition other_envelope : bytes := [x06; x42].
Definition entry_of (e : bytes) (created : N) : ShakescapeOutboxEntry :=
  match canonical_publication e with
  | Ok c => mkEntry (cp_envelope_id c) (cp_content_id c) (cp_message_kind c) (cp_request_id c) e Pending 0 created None None
  | Err _ => mkEntry [] [] Offer 0 [] Pending 0 0 None None
  end.
Definition first : ShakescapeOutboxEntry := entry_of envelope 10.
Definition second : ShakescapeOutboxEntry := entry_of other_envelope 20.

Definition wanted : ShakescapePublicationAcceptancePolicy :=
  match policy_new toy_network (mkHrm (h32 x22) 1 (h32 x23) 9 (h32 x24) (h32 x25))
          (mkHnsa (str_bytes "relay") 1 (h32 x26) (h32 x27) 1 (h32 x28) 1 (repeat x02 33) 0 1000) 100 with
  | Ok p => p
  | Err _ => mkPolicy 0 [] (mkHrm [] 0 [] 0 [] []) (mkHnsa [] 0 [] [] 0 [] 0 [] 0 0) 0 []
  end.

Definition attempt_of (e : ShakescapeOutboxEntry) (ordinal now : N) : bytes :=
  shakescape_handoff_attempt_id (oe_envelope_id e) (oe_request_id e) ordinal now.
Definition handoff (revision ordinal now : N) : ShakescapePreparedHandoff :=
  mkHandoff revision (oe_envelope_id first) (oe_content_id first) Offer (oe_request_id first) (attempt_of first ordinal now) ordinal now envelope.
Definition parsed : ParsedAcceptance :=
  mkParsed wanted (fingerprint wanted) (attempt_of first 2 50) 2 50 (oe_envelope_id first) (exact_envelope_digest envelope)
    (oe_content_id first) Offer (oe_request_id first) 55 90 [x30; x31].
Definition receipt : bytes := encode_unsigned parsed ++ to_le_bytes 2 2 ++ [x30; x31].
Definition kept : PersistedShakescapePublicationAcceptance :=
  match persisted_acceptance parsed receipt with Ok k => k | Err _ => mkPersisted [] [] 0 0 [] end.

(** The outboxes of the run below. *)
Definition prepared (attempts now : N) (last : option N) : ShakescapeOutboxEntry :=
  with_state first (HandoffPrepared (attempt_of first (attempts + 1) now) now) attempts last None.
Definition retried : ShakescapeOutboxEntry := with_state first (RetryScheduled 35) 1 (Some 30) None.
Definition accepted : ShakescapeOutboxEntry := with_state first (RelayAccepted (pa_receipt_id kept) 55) 1 (Some 55) (Some kept).
Definition second_prepared : ShakescapeOutboxEntry := with_state second (HandoffPrepared (attempt_of second 1 40) 40) 0 None None.
Definition announced : ShakescapeOutboxEntry := with_state second (DirectAnnounced (attempt_of second 1 40) 40 42) 0 (Some 42) None.
Definition both (a b : ShakescapeOutboxEntry) : ShakescapePublicationOutbox := mkOutbox 1 (sort_entries [a; b]).
Definition outbox_json : JsonCodec ShakescapePublicationOutbox := listed (fun a b => bool_decide (a = b))
  [mkOutbox 1 []; mkOutbox 1 [first]; both first second; both (prepared 0 25 None) second; both retried second;
   both retried second_prepared; both retried announced; both (prepared 1 50 (Some 30)) announced; both accepted announced].
#[global] Existing Instance outbox_json | 100.
#[global] Instance outbox_json_laws : JsonLaws ShakescapePublicationOutbox.
Proof. apply listed_laws. intros a b. apply bool_decide_eq_true_1. Qed.

(** Two offers are queued; the first fails once. *)
Definition queue : list (OutboxOp (W := u8)) :=
  [OpEnqueue wf 0 x01 envelope Offer (h32 x41) 10; OpEnqueue wf 1 x02 other_envelope Offer (h32 x42) 20;
   OpPrepare 2 25; OpFail (handoff 3 1 25) 30 35].
(** The second is announced and the first tried again. *)
Definition second_handoff : ShakescapePreparedHandoff :=
  mkHandoff 5 (oe_envelope_id second) (oe_content_id second) Offer (oe_request_id second) (attempt_of second 1 40) 1 40 other_envelope.
Definition deliver : list (OutboxOp (W := u8)) := [OpPrepare 4 40; OpAnnounce second_handoff 42; OpPrepare 6 50].
Definition waiting : WalletStore := fold_left outbox_step queue store0.
Definition delivered : WalletStore := fold_left outbox_step (queue ++ deliver) store0.
Definition snapshot : ShakescapePublicationAcceptanceSnapshot := acceptance_snapshot 8 accepted (attempt_of first 2 50) kept.
(** Afterwards the wallet asks for work and tries to give the attempt up. *)
Definition again : list (OutboxOp (W := u8)) := [OpPrepare 8 60; OpRecover 8 (attempt_of first 2 50) 60 70].
End ToyMarket.
Import Toy ToyMarket.

Lemma store0_empty :
  load_entity (T := ShakescapePublicationOutbox) store0 EntityKind.ShakescapeBoardObject SHAKESCAPE_OUTBOX_RECORD_ID = Ok None.
Proof. vm_compute. reflexivity. Defined.

Lemma messages_live_once_witness : exists s1 s2, load_shakescape_publication_outbox waiting = Ok s1
  /\ load_shakescape_publication_outbox delivered = Ok s2 /\ evolved (so_outbox s1) (so_outbox s2).
Proof.
  destruct (messages_live_once (W := u8) store0 queue deliver store0_empty) as (s1 & s2 & H1 & H2 & _ & _ & _ & H). exists s1, s2. split; [exact H1|]. split; [exact H2|exact H].
Defined.

Abbreviation toy_preparation := (prepare_next_shakescape_handoff waiting 4 40).
Lemma handoff_is_durable_witness :
  load_prepared_shakescape_handoff toy_preparation.1 = Ok (Some second_handoff) /\ handoff_sound second_handoff.
Proof.
  assert (E : toy_preparation = (toy_preparation.1, Ok (PreparedNow second_handoff))).
  { rewrite (surjective_pairing toy_preparation) at 1. apply (f_equal (pair _)).
    vm_cast_no_check (@eq_refl (market ShakescapeHandoffPreparation) (Ok (PreparedNow second_handoff))). }
  assert (R : reachable (W := u8) waiting) by (exists store0, queue; split; [exact store0_empty|reflexivity]).
  pose proof (handoff_is_durable (W := u8) waiting 4 40 toy_preparation.1 (PreparedNow second_handoff) R E) as H.
  destruct H as (_ & _ & _ & H1 & H2 & _). split; [exact H1|exact H2].
Defined.

Abbreviation toy_acceptance_run := (record_shakescape_handoff_acceptance delivered (handoff 7 2 50) wanted receipt 55).
Abbreviation toy_later := (fold_left outbox_step again toy_acceptance_run.1).
Lemma accepted_is_final_witness : exists err, record_shakescape_handoff_failure toy_later (handoff 7 2 50) 60 70 = (toy_later, Err err).
Proof.
  assert (E : toy_acceptance_run = (toy_acceptance_run.1, Ok (AcceptanceInserted snapshot))).
  { rewrite (surjective_pairing toy_acceptance_run) at 1. apply (f_equal (pair _)).
    vm_cast_no_check (@eq_refl (market ShakescapeHandoffAcceptanceResult) (Ok (AcceptanceInserted snapshot))). }
  assert (R : reachable (W := u8) delivered) by (exists store0, (queue ++ deliver); split; [exact store0_empty|reflexivity]).
  exact (proj1 (proj2 (accepted_is_final (W := u8) delivered (handoff 7 2 50) wanted receipt 55 toy_acceptance_run.1 snapshot again R E)) 60 70).
Defined.
